(* ===== verification/_CoqProject ===== *)
-Q . S2P
Prelude.v
Semaphore.v
Mutex.v
RingBuffer.v
Concurrent.v
Circbuf.v
Camera.v
Hello.v
Protocol.v
Pipeline.v
Poll.v
Sensor.v
Topic.v
SensorSteps.v
SensorSpec.v
Inode.v
Namespace.v
Files.v
Descriptors.v
Serial.v
SerialSpec.v
Printf.v
PrintfSpec.v
Uorb.v
UorbWorld.v
UorbSpec.v
Heap.v
HeapList.v
HeapInv.v
HeapOps.v
HeapAlloc.v
HeapMove.v
HeapCalls.v
HeapResize.v
HeapInit.v
HeapWalk.v
HeapSpec.v
HeapRuns.v
