(* ===== verification/Prelude.v ===== *)
(** * Verification of the multi-application image pipeline

    The program runs on NuttX on an STM32F427.  A launcher starts two tasks: the
    camera task talks to an OpenMV camera over a UART and SPI, receives one JPEG
    image and pushes it in chunks into a ring buffer; the subscriber task takes
    the chunks out and prints the image in hexadecimal.  Status topics go through
    uORB, whose device is the sensor driver of the kernel.  The development
    models these programs and the kernel code they stand on.

    ** Files

    - Prelude: machine integers with their width written out ([u8], [u16],
      [u32], [s32]), byte strings in little-endian order, memory as a list with
      [load], errno values, step relations ([steps]) with the rules for
      invariants and for reaching a goal, and the tactics of the development.
    - Semaphore: counting semaphores and the holder word of mutexes
      (libs/libc/semaphore, sched/semaphore) as functions on a semaphore and the
      task control blocks; fast and slow paths, timeouts, signals, reset.
    - Mutex: the wrappers of include/nuttx/mutex.h and lib_mutex.c, recursive
      mutexes, and the class [Lock]: what the other components may assume of a
      mutex, with [nxmutex] as the instance that discharges it.
    - RingBuffer: examples/camera_MSN2/ring_buffer.c over any [Lock]; the
      contract is the bounded queue [q_exec].
    - Concurrent: the same operations statement by statement ([pc_step]) for any
      number of tasks in any interleaving.
    - Circbuf: libs/libc/misc/lib_circbuf.c; the contract is a byte queue, and
      [rec_abs] the ring of fixed-size records that topics use.
    - Camera: examples/camera_MSN2/camera_MSN2.c in a state monad over the class
      [Env] of the UART, the SPI bus and the clock, with rules of the form of
      weakest preconditions ([wp]), and [cfsetspeed] of
      libs/libc/termios/lib_cfspeed.c.  The calls to the ring buffer, [rb_init]
      first, are part of its result.
    - Hello: examples/hello/hello_main.c and the text it prints.
    - Protocol: an OpenMV camera as the README describes it, as an instance of
      [Env] with a clock, the settings of the lines and the moment from which the
      camera is in [spi.send_recv]; its script is not in the repository, so its
      answers and times are arguments.
    - Pipeline: examples/camera_launcher/launcher.c, and camera task, ring buffer
      and subscriber run together ([pstep]) from the zeroed static variables on.
    - Sensor: drivers/sensors/sensor.c over an arbitrary lower-half driver.
    - Topic: the specification of a topic ([tspec], [tstep]) and the proof that
      the device implements it.
    - SensorSteps: the calls that release the lock of the device as computations
      that can be suspended ([act]), and that they are those of Sensor.
    - SensorSpec: the type invariant [dev_ok] of a device and its proof for any
      number of calls under way at once ([dstep]), over the class [Switch] of
      lower halves.
    - Poll: [struct pollfd] and [poll_notify].
    - Inode, Namespace: the tree of inodes on a heap of linked nodes (fs/inode,
      fs/driver, fs_unlink.c), and its contract [nspec], a map from names to
      nodes with counted references.
    - Files, Descriptors: descriptor lists and reference counted open files
      (fs/inode/fs_files.c, fs/vfs), over the record [vfs_ops] of what drivers
      and the name space do, and their contract [fspec], a table.
    - Serial, SerialSpec: drivers/serial, the upper half and its interrupt
      handlers; the computations of a task take the events (interrupts, signals,
      the echo of another task) that come between their memory accesses.
    - Printf, PrintfSpec: libs/libc/stream/lib_libvsprintf.c, and the text that
      the C standard asks for ([int_text]).
    - Uorb: apps/system/uorb/uORB and drivers/sensors/usensor.c, the library and
      the user sensors, on Files, Inode, Sensor and Printf in a state monad with
      an error number.
    - UorbWorld, UorbSpec: the state below the library as a map of topics
      ([wrel]), and the contract [broker] of the whole stack, with rules for
      computations that return ([returns]).
    - Heap: the memory manager (mm/mm_heap) and the calls of the user on it
      (mm/umm_heap), on bytes of memory with headers and links at their offsets.
    - HeapList, HeapInv: the list of free nodes, and the invariant [hinv] of a
      heap: which chunks memory holds.
    - HeapOps, HeapAlloc, HeapMove, HeapCalls, HeapResize, HeapInit, HeapWalk:
      every operation replaces a run of chunks and keeps the invariant.
    - HeapSpec, HeapRuns: the contract of an allocator, a map from addresses to
      the bytes of blocks, and what holds of heaps from their start on.

    ** How the code is represented

    Fields keep their C names, records their struct names, functions their C
    names.  A result [None] is undefined behaviour (an access outside an object,
    a null pointer, an uninitialised variable); theorems that give a result
    therefore also say that there is none.  An operation that can block returns a
    value that says so ([Blocked], [RWait]) and has a second function for what it
    does when the task runs again.  Allocation results, driver answers and what
    other tasks do while a lock is released are arguments.  Loops whose bound is
    in the code recurse on that bound.  The jumps to [again] in
    [sensor_update_interval] and [sensor_update_latency] have as fuel the number
    of windows plus one; [sensor_update_interval_ends] shows that this is enough.
    [flush_loop] has as fuel the number of bytes pending at the UART, which is
    enough because every read that returns a byte takes one (a law of [Env]); the
    SPI loops have the number of bytes left.  Walks along inodes have as fuel the
    number of nodes, the search for a descriptor the number of slots, the
    formatter the length of the format, [ultoa_loop] the 64 bits of a value; that
    this is enough is part of the theorems, which give a result.  The lists and
    walks of the heap have the number of mapped bytes plus one ([mem_fuel]), of
    which every node takes some.  [pad_loop] has
    256 rounds, one for each value of its counter.  [orb_group_count] has a round
    for every device.

    The configuration is that of the board: no SMP, no priority inheritance or
    protection, all signals enabled, no RPMSG.  Words that the code changes by
    atomic operations change in one step.

    ** What the theorems show

    - Whole application: for every camera that follows the protocol within the
      timeouts of the program and is in [spi.send_recv] when it is selected, the
      image is captured, and in every interleaving the subscriber prints a prefix
      of it, and all of it when it stops; it can always get there, unless it read
      before [rb_init], and then it never prints
      ([system_prints_camera_image], [camera_serves_protocol]).
      For a camera that does anything else, what the camera task pushes is what
      it received, on every path ([camera_pushes_what_was_sent]), and the same
      is printed ([pipeline_prints_image], [pipeline_completes]).
    - Ring buffer: it implements a bounded FIFO queue, also under preemption
      ([rb_refines_fifo], [rb_run_order], [rb_concurrent_fifo],
      [rb_concurrent_completes]).
    - Topics: the device implements a history with a position per subscriber;
      a subscriber reads a subsequence of what was published, and all of it when
      it keeps up ([topic_refines_history], [topic_in_order], [topic_no_loss]).
      The lock is balanced on all paths, intervals are those of the fastest
      subscriber ([sensor_calls_balanced], [sensor_interval_fast_enough],
      [sensor_update_interval_ends]).
    - Kernel services: the count and the wait list of a semaphore agree in every
      reachable state up to a post at [SEM_VALUE_MAX], posts wake the waiter of highest priority, recursive
      mutexes nest ([sem_reachable_ok], [sem_post_wakes_highest],
      [rmutex_nested], [rmutex_break_restore]); circular buffers are byte queues
      ([circbuf_refines_queue], [circbuf_resize_keeps_newest],
      [circbuf_zero_copy]).
    - Type invariant: the bookkeeping of a sensor device is that of its list of
      users in every reachable state ([sensor_reachable_ok]).
    - Files: the tree of inodes implements a name space, descriptor lists
      implement a table of open files ([pseudofs_refines_namespace],
      [descriptors_refine_table]).
    - Serial device: bytes written and read go through in order, and a write
      completes ([uart_write_in_order], [uart_write_completes],
      [uart_read_in_order]); formatted output is that of the C standard
      ([vsprintf_conforms]).
    - uORB: the library with everything below it implements a broker of topics
      for any number of tasks, and samples arrive ([uorb_refines_broker],
      [orb_session_delivers]).
    - Heap: every run of calls on a heap follows the contract of an allocator:
      blocks are disjoint, aligned and keep their bytes, and no assertion fails
      ([heap_refines_allocator]).  What is released is joined again
      ([heap_coalesces]), the best fit is taken ([malloc_best_fit]), and the
      walks and counters agree with the chunks ([heap_walks_agree]).
    - Defects: theorems that exhibit behaviour the code does not intend:
      [mutex_timedlock_stuck], [sem_post_overflow], [rb_write_ignores_eintr],
      [rb_read_before_init_lost], [camera_one_byte_image],
      [camera_selected_too_early],
      [circbuf_overwrite_empty_breaks], [circbuf_wrap_corrupts],
      [sensor_interval_race], [sensor_read_null_keeps_lock],
      [unregister_frees_held_child], [reserve_null_parent],
      [dup3_loses_descriptors], [echo_loses_write], [tcdrain_signal_stalls],
      [canonical_nonblock_loses_line], [tcsendbreak_unlocks_other],
      [poll_teardown_keeps_critical], [printf_wide_field_loops],
      [printf_alt_zero_reads_before], [orb_long_name_fails],
      [realloc_miscounts], [realloc_miscount_stays], [mm_extend_spec],
      [heapfree_understates], [heapfree_largest_spec], [memalign_zero].

    ** Limits, and what is not modelled

    In the theorems on the camera task sleeps are never too short and no signal
    interrupts them; reads of the UART and messages take no time.  The sensor
    device gets every lock it takes: what follows from a wait that a signal ends,
    when the result is not looked at, is shown for the ring buffer
    ([rb_write_ignores_eintr]).  A serial device has one reader at a time, and no
    echo of another task comes during a write.  The topic theorems are about
    subscribers without an interval, devices that are not persistent and fewer
    samples than the 32-bit counters hold.  Those
    about the library take calls one after the other, descriptors opened by the
    library, an allocator that does not return a block again during the run, nine
    blocks per call, and one size per topic; instances are given by the caller.
    The serial device is verified on its own: the camera task uses it and the SPI
    bus through the laws of [Env].  The theorems on runs of the heap take calls
    one after the other on one region made by [mm_initialize_heap]; regions added
    later have lemmas of their own, and a heap inside a block of another one is
    modelled without a theorem.  The other components take allocation results as
    arguments and are not composed with the heap.

    Not modelled: the ready lists of the scheduler (every runnable task may run),
    seeking, sockets, mount points and the system calls poll and select, the dump
    and the statistics per task of the heap and the memory managers that are not
    configured, the clock functions of uORB, the tools and tests of uORB, other
    drivers, the register level code of the board and the build system.  These
    are off the path from the camera to the console and the topics, or are seen
    only through the interfaces above.  The topic camera_status is defined but
    never advertised, so there is no program for it.

    ** Plan

    Next: subscribers with an interval and persistent topics in the broker, the
    serial device as an instance of [Env], and the scheduling of equal
    priorities. *)

From Stdlib Require Export ZArith Lia.
From stdpp Require Export base list option numbers.
From Stdlib Require String Ascii.
Export String.StringSyntax.

(** ** Machine integers

    Integers are kept as [Z] and every width is written out: [u32 z] is the
    value a [uint32_t] holds after [z] was stored in it. *)

Declare Scope c_scope.
Delimit Scope c_scope with C.

Definition u8 (z : Z) : Z := (z mod 2 ^ 8)%Z.
Definition u16 (z : Z) : Z := (z mod 2 ^ 16)%Z.
Definition u32 (z : Z) : Z := (z mod 2 ^ 32)%Z.

(** The value of a signed 32-bit integer ([int], [long], [ssize_t] on this
    target) whose bits are those of [z]. *)
Definition s32 (z : Z) : Z := ((z + 2 ^ 31) mod 2 ^ 32 - 2 ^ 31)%Z.

Definition UINT32_MAX : Z := (2 ^ 32 - 1)%Z.

(** Error numbers of include/errno.h; functions return them negated. *)
Definition ENOENT : Z := 2%Z.
Definition EINTR : Z := 4%Z.
Definition ENXIO : Z := 6%Z.
Definition EBADF : Z := 9%Z.
Definition EAGAIN : Z := 11%Z.
Definition ENOMEM : Z := 12%Z.
Definition EACCES : Z := 13%Z.
Definition EFAULT : Z := 14%Z.
Definition EBUSY : Z := 16%Z.
Definition EEXIST : Z := 17%Z.
Definition ENOTDIR : Z := 20%Z.
Definition EISDIR : Z := 21%Z.
Definition EINVAL : Z := 22%Z.
Definition ENFILE : Z := 23%Z.
Definition EMFILE : Z := 24%Z.
Definition ENOTTY : Z := 25%Z.
Definition ENOSPC : Z := 28%Z.
Definition ERANGE : Z := 34%Z.
Definition ENOSYS : Z := 38%Z.
Definition ENOTEMPTY : Z := 39%Z.
Definition ENODATA : Z := 61%Z.
Definition EOVERFLOW : Z := 75%Z.
Definition ENOTSUP : Z := 95%Z.
Definition ETIMEDOUT : Z := 110%Z.
Definition ECANCELED : Z := 125%Z.

Definition OK : Z := 0%Z.

(** A test of flags, [(flags & f) != 0]. *)
Definition has_flag (flags f : Z) : bool := negb (Z.land flags f =? 0)%Z.

(** The characters of a string literal. *)
Definition chars (s : String.string) : list Z :=
  map (fun c => Z.of_N (Ascii.N_of_ascii c)) (String.list_ascii_of_string s).
Arguments chars s%_string_scope.

(** ** Automation *)

Create HintDb nx.
Create Rewrite HintDb nx.

(** Arithmetic with [/] and [mod] by non-zero numbers. *)
Ltac zlia := Z.to_euclidean_division_equations; lia.
Ltac znia := Z.to_euclidean_division_equations; nia.

(** Case analysis on the first [match] of the goal, with its equation. *)
Ltac case_goal :=
  match goal with
  | |- context [ match ?e with _ => _ end ] =>
      lazymatch e with
      | context [ match _ with _ => _ end ] => fail
      | _ => let H := fresh "Hm" in destruct e eqn:H
      end
  end.

(** The same on a hypothesis. *)
Ltac case_hyp H :=
  match type of H with
  | context [ match ?e with _ => _ end ] =>
      lazymatch e with
      | context [ match _ with _ => _ end ] => fail
      | _ => let E := fresh "Hm" in destruct e eqn:E
      end
  end.

(** Turn boolean comparisons of [Z] into propositions everywhere. *)
Ltac zbool :=
  repeat match goal with
  | H : context [ (_ && _)%bool = true ] |- _ => rewrite andb_true_iff in H
  | H : context [ (_ && _)%bool = false ] |- _ => rewrite andb_false_iff in H
  | H : context [ (_ || _)%bool = true ] |- _ => rewrite orb_true_iff in H
  | H : context [ (_ || _)%bool = false ] |- _ => rewrite orb_false_iff in H
  | H : context [ negb _ = true ] |- _ => rewrite negb_true_iff in H
  | H : context [ negb _ = false ] |- _ => rewrite negb_false_iff in H
  | H : context [ (_ <? _)%Z = true ] |- _ => rewrite Z.ltb_lt in H
  | H : context [ (_ <? _)%Z = false ] |- _ => rewrite Z.ltb_ge in H
  | H : context [ (_ <=? _)%Z = true ] |- _ => rewrite Z.leb_le in H
  | H : context [ (_ <=? _)%Z = false ] |- _ => rewrite Z.leb_gt in H
  | H : context [ (_ =? _)%Z = true ] |- _ => rewrite Z.eqb_eq in H
  | H : context [ (_ =? _)%Z = false ] |- _ => rewrite Z.eqb_neq in H
  end.

(** ** Facts about the widths *)

Section widths.
Local Open Scope Z_scope.

Lemma u32_range z : 0 <= u32 z < 2 ^ 32.
Proof. apply Z.mod_pos_bound. lia. Qed.

Lemma u16_range z : 0 <= u16 z < 2 ^ 16.
Proof. apply Z.mod_pos_bound. lia. Qed.

Lemma u8_range z : 0 <= u8 z < 2 ^ 8.
Proof. apply Z.mod_pos_bound. lia. Qed.

Lemma u32_small z : 0 <= z < 2 ^ 32 -> u32 z = z.
Proof. apply Z.mod_small. Qed.

Lemma u16_small z : 0 <= z < 2 ^ 16 -> u16 z = z.
Proof. apply Z.mod_small. Qed.

Lemma u8_small z : 0 <= z < 2 ^ 8 -> u8 z = z.
Proof. apply Z.mod_small. Qed.

Lemma u32_u32_add_l a b : u32 (u32 a + b) = u32 (a + b).
Proof. apply Zplus_mod_idemp_l. Qed.

Lemma u32_u32_add_r a b : u32 (a + u32 b) = u32 (a + b).
Proof. apply Zplus_mod_idemp_r. Qed.

Lemma u32_u32_sub_l a b : u32 (u32 a - b) = u32 (a - b).
Proof. apply Zminus_mod_idemp_l. Qed.

Lemma u32_u32_sub_r a b : u32 (a - u32 b) = u32 (a - b).
Proof. apply Zminus_mod_idemp_r. Qed.

(** Reducing modulo a divisor of [2^32] forgets the wrap-around. *)
Lemma u32_mod z d : 0 < d -> (d | 2 ^ 32) -> u32 z mod d = z mod d.
Proof.
  intros Hd [k Hk]. unfold u32. rewrite Hk.
  symmetry. rewrite (Z.div_mod z (k * d)) at 1 by lia.
  replace (k * d * (z / (k * d)) + z mod (k * d))
    with (z mod (k * d) + (k * (z / (k * d))) * d) by ring.
  apply Z_mod_plus_full.
Qed.

(** Disjoint bits: the pieces of a little-endian number. *)
Lemma lor_shiftl_add a b k : 0 <= k -> 0 <= a < 2 ^ k -> Z.lor a (Z.shiftl b k) = a + b * 2 ^ k.
Proof.
  intros Hk Ha. rewrite <- Z.shiftl_mul_pow2 by done. rewrite <- Z.add_lor_land.
  assert (Z.land a (Z.shiftl b k) = 0) as ->; [|lia].
  apply Z.bits_inj'. intros n Hn. rewrite Z.land_spec, Z.bits_0.
  destruct (Z.lt_ge_cases n k).
  - rewrite Z.shiftl_spec_low by done. apply andb_false_r.
  - rewrite <- (Z.mod_small a (2 ^ k)) by done. by rewrite Z.mod_pow2_bits_high by lia.
Qed.

Lemma s32_small z : - 2 ^ 31 <= z < 2 ^ 31 -> s32 z = z.
Proof. intros H. unfold s32. rewrite Z.mod_small; lia. Qed.
End widths.

#[export] Hint Resolve u32_range u16_range u8_range : nx.
#[export] Hint Rewrite u32_u32_add_l u32_u32_add_r u32_u32_sub_l u32_u32_sub_r : nx.

(** ** Memory: arrays with bounds

    An array is a list.  Every access carries its bounds check, and [None] is
    the undefined behaviour of an access outside the array. *)

Abbreviation zlen l := (Z.of_nat (length l)).

Section memory.
Local Open Scope Z_scope.
Context {A : Type}.
Implicit Types (buf src : list A).

(** [buf[i]] *)
Definition load (buf : list A) (i : Z) : option A :=
  if (0 <=? i) && (i <? zlen buf) then buf !! Z.to_nat i else None.

(** [buf[i] = x] *)
Definition store (buf : list A) (i : Z) (x : A) : option (list A) :=
  if (0 <=? i) && (i <? zlen buf) then Some (<[Z.to_nat i := x]> buf) else None.

(** The [n] elements at [off]: the source side of a [memcpy]. *)
Definition loads (buf : list A) (off n : Z) : option (list A) :=
  if (0 <=? off) && (0 <=? n) && (off + n <=? zlen buf)
  then Some (take (Z.to_nat n) (drop (Z.to_nat off) buf)) else None.

(** The elements of [src] at [off]: the destination side of a [memcpy]. *)
Definition stores (buf : list A) (off : Z) (src : list A) : option (list A) :=
  if (0 <=? off) && (off + zlen src <=? zlen buf)
  then Some (take (Z.to_nat off) buf ++ src
             ++ drop (Z.to_nat off + length src) buf) else None.

Lemma load_Some buf i x :
  load buf i = Some x <-> 0 <= i < zlen buf /\ buf !! Z.to_nat i = Some x.
Proof.
  unfold load. destruct ((0 <=? i) && (i <? zlen buf)) eqn:E; zbool.
  - intuition lia.
  - split; [done|]. intros [? _]. lia.
Qed.

Lemma load_in_range buf i : 0 <= i < zlen buf -> is_Some (load buf i).
Proof.
  intros H. destruct (lookup_lt_is_Some_2 buf (Z.to_nat i)) as [x Hx]; [lia|].
  exists x. by apply load_Some.
Qed.

Lemma store_in_range buf i x :
  0 <= i < zlen buf -> store buf i x = Some (<[Z.to_nat i := x]> buf).
Proof. intros H. unfold store. by replace _ with true by (symmetry; lia). Qed.

Lemma loads_in_range buf off n :
  0 <= off -> 0 <= n -> off + n <= zlen buf ->
  loads buf off n = Some (take (Z.to_nat n) (drop (Z.to_nat off) buf)).
Proof.
  intros. unfold loads.
  by replace ((0 <=? off) && (0 <=? n) && (off + n <=? zlen buf))
    with true by (symmetry; lia).
Qed.

Lemma stores_in_range buf off src :
  0 <= off -> off + zlen src <= zlen buf ->
  stores buf off src =
    Some (take (Z.to_nat off) buf ++ src ++ drop (Z.to_nat off + length src) buf).
Proof.
  intros. unfold stores.
  by replace ((0 <=? off) && (off + zlen src <=? zlen buf))
    with true by (symmetry; lia).
Qed.

Lemma loads_Some_length buf off n l : loads buf off n = Some l -> zlen l = n.
Proof.
  unfold loads. case_match; [|done]. zbool. intros [= <-].
  rewrite length_take, length_drop. lia.
Qed.

Lemma stores_Some_length buf off src buf' :
  stores buf off src = Some buf' -> length buf' = length buf.
Proof.
  unfold stores. case_match; [|done]. zbool. intros [= <-].
  rewrite !length_app, length_take, length_drop. lia.
Qed.

(** What an element is after a [memcpy] into the array. *)
Lemma stores_lookup buf off src buf' j :
  stores buf off src = Some buf' -> 0 <= j < zlen buf ->
  buf' !! Z.to_nat j =
    if (off <=? j) && (j <? off + zlen src)
    then src !! Z.to_nat (j - off) else buf !! Z.to_nat j.
Proof.
  unfold stores. case_match; [|done]. zbool. intros [= <-] Hj.
  destruct (decide (j < off)).
  { rewrite lookup_app_l by (rewrite length_take; lia).
    rewrite lookup_take_lt by lia.
    by replace (off <=? j) with false by (symmetry; lia). }
  rewrite lookup_app_r by (rewrite length_take; lia). rewrite length_take.
  destruct (decide (j < off + zlen src)).
  { rewrite lookup_app_l by lia.
    replace ((off <=? j) && (j <? off + zlen src)) with true by (symmetry; lia).
    f_equal. lia. }
  rewrite lookup_app_r by lia. rewrite lookup_drop.
  replace ((off <=? j) && (j <? off + zlen src)) with false by (symmetry; lia).
  f_equal. lia.
Qed.
End memory.

(** ** Little-endian numbers *)

Section little_endian.
Local Open Scope Z_scope.

(** The number a byte sequence stands for. *)
Fixpoint le_val (l : list Z) : Z :=
  match l with [] => 0 | x :: l => x + 256 * le_val l end.

(** The [n] bytes of a number. *)
Fixpoint le_bytes (n : nat) (z : Z) : list Z :=
  match n with O => [] | S n => z mod 256 :: le_bytes n (z / 256) end.

Lemma length_le_bytes n z : length (le_bytes n z) = n.
Proof. revert z. induction n as [|n IH]; intros z; simpl; [done|]. by rewrite IH. Qed.

Lemma le_val_bytes n z : 0 <= z < 256 ^ Z.of_nat n -> le_val (le_bytes n z) = z.
Proof.
  revert z. induction n as [|n IH]; intros z Hz; [simpl in *; lia|].
  cbn [le_bytes le_val]. rewrite Nat2Z.inj_succ, Z.pow_succ_r in Hz by lia.
  rewrite IH; [zlia|]. split; [apply Z.div_pos; lia|]. apply Z.div_lt_upper_bound; lia.
Qed.
End little_endian.

(** ** Cyclic windows

    [window l s n] reads [n] elements of the array [l] from position [s],
    wrapping at its end: the contents of a ring buffer. *)

Section window.
Local Open Scope Z_scope.
Context {A : Type} `{!Inhabited A}.
Implicit Types (l : list A) (s n m : Z).

Definition window (l : list A) (s n : Z) : list A :=
  (fun i => l !!! Z.to_nat ((s + i) mod zlen l)) <$> seqZ 0 n.

Lemma length_window l s n : zlen (window l s n) = Z.max 0 n.
Proof. unfold window. rewrite length_fmap, length_seqZ. lia. Qed.

Lemma window_lookup l s n i :
  0 <= i < n -> window l s n !! Z.to_nat i = Some (l !!! Z.to_nat ((s + i) mod zlen l)).
Proof.
  intros H. unfold window. rewrite list_lookup_fmap.
  rewrite lookup_seqZ_lt by lia. simpl. do 4 f_equal. lia.
Qed.

Lemma window_0 l s : window l s 0 = [].
Proof. done. Qed.

(** Two lists with the same elements at the same positions. *)
Lemma zlist_eq (l k : list A) :
  zlen l = zlen k ->
  (forall i, 0 <= i < zlen l -> l !! Z.to_nat i = k !! Z.to_nat i) -> l = k.
Proof.
  intros Hl Hi. apply list_eq. intros i.
  destruct (decide (i < length l)%nat) as [Hlt|Hge].
  - specialize (Hi (Z.of_nat i) ltac:(lia)). by rewrite Nat2Z.id in Hi.
  - rewrite !lookup_ge_None_2 by lia. done.
Qed.

Lemma window_app l s n m :
  0 <= n -> 0 <= m -> window l s (n + m) = window l s n ++ window l (s + n) m.
Proof.
  intros Hn Hm. unfold window.
  rewrite seqZ_app by lia. rewrite fmap_app. f_equal.
  apply list_eq. intros i. rewrite !list_lookup_fmap.
  destruct (decide (Z.of_nat i < m)).
  - rewrite !lookup_seqZ_lt by lia. simpl. do 4 f_equal. lia.
  - rewrite !lookup_seqZ_ge by lia. done.
Qed.

Lemma window_S_r l s n :
  0 <= n -> window l s (n + 1) = window l s n ++ [l !!! Z.to_nat ((s + n) mod zlen l)].
Proof.
  intros Hn. rewrite window_app by lia. f_equal.
  unfold window. simpl. by rewrite Z.add_0_r.
Qed.

Lemma window_S_l l s n :
  0 <= n -> window l s (1 + n) = l !!! Z.to_nat (s mod zlen l) :: window l (s + 1) n.
Proof.
  intros Hn. rewrite window_app by lia. unfold window at 1. simpl.
  by rewrite Z.add_0_r.
Qed.

(** The start position counts only modulo the size of the array. *)
Lemma window_mod l s s' n : s mod zlen l = s' mod zlen l -> window l s n = window l s' n.
Proof.
  intros H. unfold window. apply list_fmap_ext. intros i x _. do 2 f_equal.
  rewrite <- (Zplus_mod_idemp_l s), H. by rewrite Zplus_mod_idemp_l.
Qed.

(** A write outside the window leaves it alone. *)
Lemma window_insert_out l s n k x :
  0 <= n -> n <= k < zlen l ->
  window (<[Z.to_nat ((s + k) mod zlen l) := x]> l) s n = window l s n.
Proof.
  intros Hn Hk. unfold window. rewrite length_insert.
  apply list_fmap_ext. intros i z Hz.
  apply lookup_seqZ in Hz as [-> Hi].
  rewrite list_lookup_total_insert_ne; [done|].
  intros Heq.
  assert (0 <= (s + k) mod zlen l < zlen l) by (apply Z.mod_pos_bound; lia).
  assert (0 <= (s + (0 + Z.of_nat i)) mod zlen l < zlen l)
    by (apply Z.mod_pos_bound; lia).
  assert ((s + k) mod zlen l = (s + (0 + Z.of_nat i)) mod zlen l) as E by lia.
  assert (Hd : (k - Z.of_nat i) mod zlen l = 0).
  { replace (k - Z.of_nat i) with ((s + k) - (s + (0 + Z.of_nat i))) by lia.
    rewrite Zminus_mod, E, Z.sub_diag. done. }
  rewrite Z.mod_small in Hd; lia.
Qed.

(** A window that does not wrap is a slice. *)
Lemma window_slice l s n :
  0 <= n -> s mod zlen l + n <= zlen l -> 0 < zlen l ->
  window l s n = take (Z.to_nat n) (drop (Z.to_nat (s mod zlen l)) l).
Proof.
  intros Hn Hb Hl.
  pose proof (Z.mod_pos_bound s (zlen l) Hl).
  apply zlist_eq; [rewrite length_window, length_take, length_drop; lia|].
  rewrite length_window. intros i Hi.
  rewrite window_lookup by lia.
  rewrite lookup_take_lt, lookup_drop by lia.
  replace ((s + i) mod zlen l) with (s mod zlen l + i).
  2: { rewrite <- Zplus_mod_idemp_l. symmetry. apply Z.mod_small. lia. }
  rewrite Z2Nat.inj_add by lia.
  symmetry. apply list_lookup_lookup_total_lt. lia.
Qed.
End window.

(** ** Transition systems *)

Section closure.
Context {S : Type} (step : S -> S -> Prop).

Inductive steps : S -> S -> Prop :=
| steps_refl s : steps s s
| steps_step s1 s2 s3 : step s1 s2 -> steps s2 s3 -> steps s1 s3.

Lemma steps_refl' s1 s2 : s1 = s2 -> steps s1 s2.
Proof. intros ->. apply steps_refl. Qed.

Lemma steps_trans s1 s2 s3 : steps s1 s2 -> steps s2 s3 -> steps s1 s3.
Proof. induction 1; eauto using steps. Qed.

Lemma steps_one s1 s2 : step s1 s2 -> steps s1 s2.
Proof. eauto using steps. Qed.

(** An invariant of the start kept by every step holds wherever it leads. *)
Lemma steps_inv (P : S -> Prop) :
  (forall s1 s2, P s1 -> step s1 s2 -> P s2) ->
  forall s1 s2, P s1 -> steps s1 s2 -> P s2.
Proof. intros Hs s1 s2 HP. induction 1; eauto. Qed.

(** When every state of an invariant that is not final can step to a state of
    smaller measure, a final state is reachable. *)
Lemma steps_reach (P final : S -> Prop) (measure : S -> nat) :
  (forall s, P s -> final s \/ exists s', step s s' /\ P s' /\ measure s' < measure s) ->
  forall s, P s -> exists s', steps s s' /\ P s' /\ final s'.
Proof.
  intros Hm s HP. remember (measure s) as n eqn:Hn.
  revert s HP Hn. induction (lt_wf n) as [n _ IH]. intros s HP ->.
  destruct (Hm s HP) as [Hf | (s' & Hst & HP' & Hlt)]; [by eauto using steps|].
  destruct (IH _ Hlt s' HP' eq_refl) as (s'' & ? & ? & ?). eauto using steps.
Qed.
End closure.
