(* ===== verification/Semaphore.v ===== *)
(** Semaphores of the kernel, and the holder word of its mutexes.

    Models libs/libc/semaphore (the fast paths) and sched/semaphore (the slow
    paths, interrupted waits, timeouts, reset, recovery) in the board's
    configuration: no SMP, no priority inheritance and no priority protection,
    all signals enabled.

    One semaphore is modelled together with the task control blocks: a wait
    that blocks ends with the task on the wait list, and
    [nxsem_wait_resume] is the rest of [nxsem_wait_slow] that runs when the
    task is switched in again.  The fast paths are compare-and-exchange loops
    on one word and are modelled as the atomic step they implement. *)

From S2P Require Import Prelude.
From stdpp Require Import gmap sorting.
Local Open Scope Z_scope.

(** ** Constants of include/nuttx/semaphore.h and include/semaphore.h *)

Definition SEM_PRIO_NONE : Z := 0.
Definition SEM_PRIO_INHERIT : Z := 1.
Definition SEM_PRIO_PROTECT : Z := 2.
Definition SEM_PRIO_MASK : Z := 3.
Definition SEM_TYPE_MUTEX : Z := 4.
Definition SEM_VALUE_MAX : Z := 2 ^ 31 - 1.

Definition NXSEM_MBLOCKING_BIT : Z := 0x80000000.
Definition NXSEM_NO_MHOLDER : Z := 0x7ffffffe.
Definition NXSEM_MRESET : Z := 0x7fffffff.

Definition NXSEM_MACQUIRED (h : Z) : bool :=
  negb (Z.land h NXSEM_NO_MHOLDER =? NXSEM_NO_MHOLDER).
Definition NXSEM_MBLOCKING (h : Z) : bool :=
  negb (Z.land h NXSEM_MBLOCKING_BIT =? 0).

(** [mholder & ~NXSEM_MBLOCKING_BIT] *)
Definition mholder_tid (h : Z) : Z := Z.land h (2 ^ 31 - 1).

(** ** Tasks and the semaphore *)

Inductive tstate := TSTATE_TASK_READYTORUN | TSTATE_WAIT_SEM.

#[export] Instance tstate_eq_dec : EqDecision tstate.
Proof. solve_decision. Defined.

(** The fields of [struct tcb_s] the semaphore code uses.  [waitobj] says
    whether the field is non-null (there is one semaphore), [waitdog] whether
    the watchdog of a timed wait is armed, [sigpending] whether an unmasked
    signal is pending. *)
Record tcb_s := mk_tcb {
  sched_priority : Z;
  task_state : tstate;
  errcode : Z;
  waitobj : bool;
  waitdog : bool;
  sigpending : bool
}.

(** [val] is the union of [semcount] (signed) and [mholder] (unsigned):
    counting semaphores keep the first in it, mutexes the second. *)
Record sem_t := mk_sem {
  val : Z;
  flags : Z;
  waitlist : list Z
}.

Record ksem := mk_ksem {
  tasks : gmap Z tcb_s;
  sem : sem_t
}.

Definition NXSEM_IS_MUTEX (s : sem_t) : bool := negb (Z.land (flags s) SEM_TYPE_MUTEX =? 0).

Definition set_val (v : Z) (k : ksem) : ksem :=
  mk_ksem (tasks k) (mk_sem v (flags (sem k)) (waitlist (sem k))).
Definition set_waitlist (l : list Z) (k : ksem) : ksem :=
  mk_ksem (tasks k) (mk_sem (val (sem k)) (flags (sem k)) l).
Definition upd_task (t : Z) (f : tcb_s -> tcb_s) (k : ksem) : ksem :=
  mk_ksem (alter f t (tasks k)) (sem k).

(** The task is blocked: [waitobj = sem], [errcode = OK], [task_state =
    TSTATE_WAIT_SEM]. *)
Definition tcb_block (b : tcb_s) : tcb_s :=
  mk_tcb (sched_priority b) TSTATE_WAIT_SEM OK true (waitdog b) (sigpending b).

(** The wait is over: watchdog cancelled, [waitobj = NULL], ready to run. *)
Definition tcb_wake (b : tcb_s) : tcb_s :=
  mk_tcb (sched_priority b) TSTATE_TASK_READYTORUN (errcode b) false false (sigpending b).

(** The wait is over with an error. *)
Definition tcb_abort (e : Z) (b : tcb_s) : tcb_s :=
  mk_tcb (sched_priority b) TSTATE_TASK_READYTORUN e false (waitdog b) (sigpending b).

Definition tcb_set_waitdog (w : bool) (b : tcb_s) : tcb_s :=
  mk_tcb (sched_priority b) (task_state b) (errcode b) (waitobj b) w (sigpending b).

Definition prio (ts : gmap Z tcb_s) (t : Z) : Z :=
  match ts !! t with Some b => sched_priority b | None => 0 end.

(** Insertion into a list kept in descending priority order, behind the tasks
    of equal priority. *)
Fixpoint nxsched_add_prioritized (ts : gmap Z tcb_s) (t : Z) (l : list Z) : list Z :=
  match l with
  | [] => [t]
  | next :: rest =>
      if prio ts t <=? prio ts next
      then next :: nxsched_add_prioritized ts t rest
      else t :: next :: rest
  end.

Definition dq_rem (t : Z) (l : list Z) : list Z := filter (fun x => x <> t) l.

(** The blocking bit that goes with a wait list. *)
Definition blocking_bit (l : list Z) : Z :=
  match l with [] => 0 | _ => NXSEM_MBLOCKING_BIT end.

(** ** Initialisation *)

Definition nxsem_init (value : Z) (k : ksem) : Z * ksem :=
  (OK, mk_ksem (tasks k) (mk_sem value 0 [])).

Definition nxsem_set_protocol (protocol : Z) (k : ksem) : Z * ksem :=
  let m := Z.land protocol SEM_PRIO_MASK in
  if m =? SEM_PRIO_NONE
  then (OK, mk_ksem (tasks k) (mk_sem (val (sem k)) (u8 protocol) (waitlist (sem k))))
  else if m =? SEM_PRIO_INHERIT then (- ENOTSUP, k)
  else if m =? SEM_PRIO_PROTECT then (- ENOTSUP, k)
  else (- EINVAL, k).

Definition nxmutex_init (k : ksem) : Z * ksem :=
  let '(ret, k) := nxsem_init NXSEM_NO_MHOLDER k in
  if ret <? 0 then (ret, k)
  else let '(_, k) := nxsem_set_protocol SEM_TYPE_MUTEX k in (ret, k).

(** ** Waiting *)

(** A wait either returns a value or leaves the task blocked. *)
Inductive waited := Returned (ret : Z) | Blocked.

#[export] Instance waited_eq_dec : EqDecision waited.
Proof. solve_decision. Defined.

(** [if (mutex && ret == OK)]: the task that now holds the mutex writes its
    own TID. *)
Definition take_mutex (t : Z) (k : ksem) : ksem :=
  set_val (Z.lor (u32 t) (blocking_bit (waitlist (sem k)))) k.

(** The pending-signal test at the start of [nxsem_wait_slow]. *)
Definition sig_pending (t : Z) (k : ksem) : bool :=
  match tasks k !! t with Some b => sigpending b | None => false end.

Definition nxsem_wait_slow (t : Z) (k : ksem) : waited * ksem :=
  if sig_pending t k then (Returned (- EINTR), k)
  else
    let mutex := NXSEM_IS_MUTEX (sem k) in
    let old := val (sem k) in
    let k := if mutex then set_val (Z.lor old NXSEM_MBLOCKING_BIT) k
             else set_val (s32 (old - 1)) k in
    let unlocked :=
      if mutex then
        if NXSEM_MACQUIRED old
        then match tasks k !! mholder_tid old with None => true | Some _ => false end
        else true
      else 0 <? old in
    if unlocked
    then (Returned OK, if mutex then take_mutex t k else k)
    else
      let k := upd_task t tcb_block k in
      (Blocked, set_waitlist (nxsched_add_prioritized (tasks k) t (waitlist (sem k))) k).

(** What a blocked [nxsem_wait_slow] does when the task runs again. *)
Definition nxsem_wait_resume (t : Z) (k : ksem) : Z * ksem :=
  let ret := match tasks k !! t with
             | Some b => if errcode b =? OK then OK else - errcode b
             | None => OK
             end in
  (ret, if NXSEM_IS_MUTEX (sem k) && (ret =? OK) then take_mutex t k else k).

Definition nxsem_wait (t : Z) (k : ksem) : waited * ksem :=
  let old := val (sem k) in
  if NXSEM_IS_MUTEX (sem k) then
    if old =? NXSEM_NO_MHOLDER then (Returned OK, set_val (u32 t) k)
    else nxsem_wait_slow t k
  else
    if old <? 1 then nxsem_wait_slow t k
    else (Returned OK, set_val (old - 1) k).

Definition nxsem_trywait (t : Z) (k : ksem) : Z * ksem :=
  let old := val (sem k) in
  if NXSEM_IS_MUTEX (sem k) then
    if old =? NXSEM_NO_MHOLDER then (OK, set_val (u32 t) k) else (- EAGAIN, k)
  else
    if old <? 1 then (- EAGAIN, k) else (OK, set_val (old - 1) k).

(** ** Posting *)

Definition nxsem_post_slow (k : ksem) : Z * ksem :=
  let mutex := NXSEM_IS_MUTEX (sem k) in
  let old := val (sem k) in
  let blocking := if mutex then NXSEM_MBLOCKING old else old <? 0 in
  let ret := if mutex then OK
             else if SEM_VALUE_MAX <=? old then - EOVERFLOW else OK in
  let k := if mutex then
             if blocking then set_val (Z.lor old NXSEM_MBLOCKING_BIT) k
             else set_val (if old =? NXSEM_MRESET then old else NXSEM_NO_MHOLDER) k
           else if ret =? OK then set_val (old + 1) k else k in
  if (ret =? OK) && blocking then
    match waitlist (sem k) with
    | [] => (ret, k)
    | stcb :: rest =>
        let k := set_waitlist rest k in
        let k := if mutex then set_val (Z.lor (u32 stcb) (blocking_bit rest)) k else k in
        (ret, upd_task stcb tcb_wake k)
    end
  else (ret, k).

Definition nxsem_post (k : ksem) : Z * ksem :=
  let old := val (sem k) in
  if NXSEM_IS_MUTEX (sem k) then
    if NXSEM_MBLOCKING old then nxsem_post_slow k
    else (OK, set_val NXSEM_NO_MHOLDER k)
  else
    if old <? 0 then nxsem_post_slow k
    else (OK, set_val (s32 (old + 1)) k).

(** ** Interrupted and timed waits *)

Definition nxsem_wait_irq (wtcb : Z) (e : Z) (k : ksem) : ksem :=
  let mutex := NXSEM_IS_MUTEX (sem k) in
  if mutex && ((e =? EINTR) || (e =? ECANCELED)) then k
  else
    let k := set_waitlist (dq_rem wtcb (waitlist (sem k))) k in
    let k := if mutex then k else set_val (val (sem k) + 1) k in
    upd_task wtcb (tcb_abort e) k.

Definition nxsem_timeout (wtcb : Z) (k : ksem) : ksem :=
  match tasks k !! wtcb with
  | Some b => if decide (task_state b = TSTATE_WAIT_SEM)
              then nxsem_wait_irq wtcb ETIMEDOUT k else k
  | None => k
  end.

(** [nxsem_tickwait] up to the point where the task blocks or returns. *)
Definition nxsem_tickwait (t delay : Z) (k : ksem) : waited * ksem :=
  let '(ret, k) := nxsem_trywait t k in
  if ret =? OK then (Returned OK, k)
  else if delay =? 0 then (Returned (- ETIMEDOUT), k)
  else
    let k := upd_task t (tcb_set_waitdog true) k in
    match nxsem_wait t k with
    | (Returned r, k) => (Returned r, upd_task t (tcb_set_waitdog false) k)
    | (Blocked, k) => (Blocked, k)
    end.

(** The rest of [nxsem_tickwait] when the blocked task runs again. *)
Definition nxsem_tickwait_resume (t : Z) (k : ksem) : Z * ksem :=
  let '(ret, k) := nxsem_wait_resume t k in
  (ret, upd_task t (tcb_set_waitdog false) k).

(** ** Value, destruction, reset, recovery *)

Definition nxsem_get_value (k : ksem) : option Z :=
  if NXSEM_IS_MUTEX (sem k) then None else Some (val (sem k)).

Definition nxsem_destroy (k : ksem) : Z * ksem :=
  let mutex := NXSEM_IS_MUTEX (sem k) in
  let old := val (sem k) in
  if (mutex && NXSEM_MBLOCKING old) || (negb mutex && (old <? 0)) then (OK, k)
  else (OK, set_val (if mutex then NXSEM_NO_MHOLDER else 1) k).

Definition reset_mutex (k : ksem) : ksem :=
  let k := set_val (Z.lor NXSEM_MRESET NXSEM_MBLOCKING_BIT) k in
  match waitlist (sem k) with
  | [] => set_val NXSEM_MRESET k
  | _ => snd (nxsem_post k)
  end.

(** The loop posts once per waiter while counts remain; each post consumes
    one of [count], which bounds the loop. *)
Fixpoint reset_sem_loop (count : nat) (k : ksem) : nat * ksem :=
  match count with
  | O => (O, k)
  | S n => if val (sem k) <? 0 then reset_sem_loop n (snd (nxsem_post k)) else (count, k)
  end.

Definition reset_sem (count : nat) (k : ksem) : ksem :=
  let '(remain, k) := reset_sem_loop count k in
  if val (sem k) <? 0 then k else set_val (Z.of_nat remain) k.

Definition nxsem_reset (count : nat) (k : ksem) : Z * ksem :=
  (OK, if NXSEM_IS_MUTEX (sem k) then reset_mutex k else reset_sem count k).

(** The semaphore part of the deletion of task [t]. *)
Definition nxsem_recover (t : Z) (k : ksem) : ksem :=
  match tasks k !! t with
  | Some b =>
      if decide (task_state b = TSTATE_WAIT_SEM) then
        let k := set_waitlist (dq_rem t (waitlist (sem k))) k in
        if NXSEM_IS_MUTEX (sem k) then
          match waitlist (sem k) with
          | [] => set_val (Z.land (val (sem k)) (2 ^ 31 - 1)) k
          | _ => k
          end
        else set_val (val (sem k) + 1) k
      else k
  | None => k
  end.

(** ** The holder word

    A TID lies below [NXSEM_NO_MHOLDER]; the blocking bit is above it. *)

Definition tid_ok (t : Z) : Prop := 0 <= t < NXSEM_NO_MHOLDER.

Lemma lor_blocking t : 0 <= t < 2 ^ 31 -> Z.lor t NXSEM_MBLOCKING_BIT = t + 2 ^ 31.
Proof.
  intros Ht. change NXSEM_MBLOCKING_BIT with (2 ^ 31).
  rewrite <- Z.add_lor_land.
  assert (Z.land t (2 ^ 31) = 0) as ->; [|lia].
  apply Z.bits_inj'. intros n Hn. rewrite Z.land_spec, Z.bits_0.
  rewrite Z.pow2_bits_eqb by lia. destruct (Z.eqb_spec 31 n) as [<-|]; [|by rewrite andb_false_r].
  rewrite andb_true_r. rewrite <- (Z.mod_small t (2 ^ 31)) by lia.
  by rewrite Z.mod_pow2_bits_high by lia.
Qed.

Lemma mblocking_div h : NXSEM_MBLOCKING h = Z.odd (h / 2 ^ 31).
Proof.
  unfold NXSEM_MBLOCKING. change NXSEM_MBLOCKING_BIT with (2 ^ 31).
  assert (Z.land h (2 ^ 31) = if Z.testbit h 31 then 2 ^ 31 else 0) as ->.
  { apply Z.bits_inj'. intros n Hn. rewrite Z.land_spec.
    destruct (Z.testbit h 31) eqn:E; rewrite ?Z.bits_0, Z.pow2_bits_eqb by lia;
      destruct (Z.eqb_spec 31 n) as [<-|]; rewrite ?andb_false_r, ?E; done. }
  rewrite <- Z.shiftr_div_pow2 by lia.
  rewrite <- Z.bit0_odd, Z.shiftr_spec by lia. change (0 + 31) with 31.
  destruct (Z.testbit h 31); reflexivity.
Qed.

Lemma mblocking_tid t : 0 <= t < 2 ^ 31 -> NXSEM_MBLOCKING t = false.
Proof. intros H. rewrite mblocking_div, Z.div_small by lia. done. Qed.

Lemma mblocking_set t : 0 <= t < 2 ^ 31 -> NXSEM_MBLOCKING (t + 2 ^ 31) = true.
Proof.
  intros H. rewrite mblocking_div.
  replace ((t + 2 ^ 31) / 2 ^ 31) with 1; [done|].
  apply Z.div_unique with t; lia.
Qed.

Lemma mholder_tid_mod h : mholder_tid h = h mod 2 ^ 31.
Proof.
  unfold mholder_tid. change (2 ^ 31 - 1) with (Z.ones 31). apply Z.land_ones. lia.
Qed.

Lemma macquired_even h :
  NXSEM_MACQUIRED h = false <-> (h / 2) mod 2 ^ 30 = 2 ^ 30 - 1.
Proof.
  unfold NXSEM_MACQUIRED. rewrite negb_false_iff, Z.eqb_eq.
  change NXSEM_NO_MHOLDER with (Z.shiftl (Z.ones 30) 1).
  assert (Z.land h (Z.shiftl (Z.ones 30) 1) = Z.shiftl ((h / 2) mod 2 ^ 30) 1) as ->.
  { rewrite <- Z.land_ones by lia. rewrite Z.shiftl_land.
    apply Z.bits_inj'. intros n Hn. rewrite !Z.land_spec.
    destruct (Z.testbit (Z.shiftl (Z.ones 30) 1) n) eqn:E;
      rewrite ?andb_false_r, ?andb_true_r; [|done].
    destruct (decide (n = 0)) as [->|]; [done|].
    rewrite Z.shiftl_spec by lia. rewrite <- Z.div2_div, Z.div2_spec.
    rewrite Z.shiftr_spec by lia. f_equal. lia. }
  rewrite !Z.shiftl_mul_pow2 by lia. change (Z.ones 30) with (2 ^ 30 - 1). lia.
Qed.

Lemma macquired_tid t : tid_ok t -> NXSEM_MACQUIRED t = true.
Proof.
  intros H. unfold tid_ok, NXSEM_NO_MHOLDER in H.
  apply not_false_iff_true. intros E. apply macquired_even in E.
  rewrite Z.mod_small in E by zlia. zlia.
Qed.

Lemma macquired_set t : tid_ok t -> NXSEM_MACQUIRED (t + 2 ^ 31) = true.
Proof.
  intros H. unfold tid_ok, NXSEM_NO_MHOLDER in H.
  apply not_false_iff_true. intros E. apply macquired_even in E.
  replace ((t + 2 ^ 31) / 2) with (t / 2 + 1 * 2 ^ 30) in E by zlia.
  rewrite Z_mod_plus_full, Z.mod_small in E by zlia. zlia.
Qed.

(** ** The priority queue of waiters *)

Section prioritized.
Variable ts : gmap Z tcb_s.

(** Descending priorities along the list. *)
Definition prio_sorted (l : list Z) : Prop :=
  StronglySorted (fun a b => prio ts b <= prio ts a) l.

(** The insertion splits the list at the first task of lower priority: the
    tasks of equal or higher priority stay in front. *)
Lemma add_prioritized_split t l :
  exists l1 l2, l = l1 ++ l2 /\ nxsched_add_prioritized ts t l = l1 ++ t :: l2 /\
    Forall (fun x => prio ts t <= prio ts x) l1 /\
    match l2 with [] => True | x :: _ => prio ts x < prio ts t end.
Proof.
  induction l as [|x l (l1 & l2 & -> & IH & H1 & H2)]; simpl.
  - by exists [], [].
  - destruct (Z.leb_spec (prio ts t) (prio ts x)).
    + exists (x :: l1), l2. rewrite IH. by repeat constructor.
    + exists [], (x :: l1 ++ l2). by repeat constructor.
Qed.

Lemma add_prioritized_perm t l : nxsched_add_prioritized ts t l ≡ₚ t :: l.
Proof.
  destruct (add_prioritized_split t l) as (l1 & l2 & -> & -> & _).
  by rewrite Permutation_middle.
Qed.

Lemma add_prioritized_sorted t l :
  prio_sorted l -> prio_sorted (nxsched_add_prioritized ts t l).
Proof.
  unfold prio_sorted. induction 1 as [|x l Hs IH Hx]; simpl.
  - repeat constructor.
  - destruct (Z.leb_spec (prio ts t) (prio ts x)).
    + constructor; [done|]. rewrite add_prioritized_perm. by constructor.
    + constructor; [by constructor|]. constructor; [lia|].
      eapply Forall_impl; [exact Hx|]. simpl. lia.
Qed.
End prioritized.

Lemma dq_rem_not_in t l : t ∉ l -> dq_rem t l = l.
Proof.
  intros H. unfold dq_rem. induction l as [|x l IH]; [done|].
  apply not_elem_of_cons in H as [Hne Hni].
  rewrite filter_cons_True by done. by rewrite IH.
Qed.

Lemma dq_rem_length t l : NoDup l -> t ∈ l -> length (dq_rem t l) = (length l - 1)%nat.
Proof.
  unfold dq_rem. induction 1 as [|x l Hx Hnd IH]; intros Hin; [by apply not_elem_of_nil in Hin|].
  destruct (decide (x = t)) as [->|Hne].
  - rewrite filter_cons_False by naive_solver.
    change (filter (fun x => x <> t) l) with (dq_rem t l). rewrite dq_rem_not_in by done.
    simpl. lia.
  - rewrite filter_cons_True by done. simpl.
    apply elem_of_cons in Hin as [->|Hin]; [done|].
    rewrite IH by done. destruct l; [by apply not_elem_of_nil in Hin|]. simpl. lia.
Qed.

(** Insertion and removal keep the priorities of the tasks. *)
Lemma prio_alter f t ts x :
  (forall b, sched_priority (f b) = sched_priority b) -> prio (alter f t ts) x = prio ts x.
Proof.
  intros Hf. unfold prio. rewrite lookup_alter. case_decide as E; [subst|done].
  destruct (ts !! x); simpl; auto.
Qed.

Lemma prio_sorted_alter f t ts l :
  (forall b, sched_priority (f b) = sched_priority b) ->
  prio_sorted ts l -> prio_sorted (alter f t ts) l.
Proof.
  intros Hf. unfold prio_sorted.
  induction 1 as [|x l Hs IH Hx]; constructor; [done|].
  eapply Forall_impl; [exact Hx|]. intros y. simpl. by rewrite !prio_alter.
Qed.

Lemma prio_sorted_ext ts ts' l :
  (forall x, x ∈ l -> prio ts' x = prio ts x) -> prio_sorted ts l -> prio_sorted ts' l.
Proof.
  intros Hp Hs. unfold prio_sorted in *.
  induction Hs as [|x l Hs IH Hx]; constructor.
  - apply IH. intros y Hy. apply Hp. by right.
  - rewrite Forall_forall in Hx |- *. intros y Hy.
    rewrite !Hp; [by apply Hx|by left|by right].
Qed.

Lemma prio_sorted_dq_rem ts w l : prio_sorted ts l -> prio_sorted ts (dq_rem w l).
Proof.
  unfold prio_sorted, dq_rem. induction 1 as [|x l Hs IH Hx]; [constructor|].
  rewrite filter_cons. case_decide; [|done]. constructor; [done|].
  apply Forall_forall. intros y Hy. apply list_elem_of_filter in Hy as [_ Hy].
  rewrite Forall_forall in Hx. auto.
Qed.

(** ** Counting semaphores as a transition system *)

Definition runnable (t : Z) (k : ksem) : Prop :=
  exists b, tasks k !! t = Some b /\ task_state b <> TSTATE_WAIT_SEM.

(** The task leaves the system after [nxsem_recover]. *)
Definition delete_task (t : Z) (k : ksem) : ksem :=
  let k := nxsem_recover t k in mk_ksem (delete t (tasks k)) (sem k).

(** Every call a task, an interrupt or the kernel may make on a semaphore. *)
Inductive sem_step : ksem -> ksem -> Prop :=
| step_wait t k r k' : runnable t k -> nxsem_wait t k = (r, k') -> sem_step k k'
| step_resume t k r k' : runnable t k -> nxsem_wait_resume t k = (r, k') -> sem_step k k'
| step_trywait t k r k' : runnable t k -> nxsem_trywait t k = (r, k') -> sem_step k k'
| step_tickwait t d k r k' : runnable t k -> nxsem_tickwait t d k = (r, k') -> sem_step k k'
| step_post k r k' : nxsem_post k = (r, k') -> sem_step k k'
| step_irq w e k : w ∈ waitlist (sem k) -> sem_step k (nxsem_wait_irq w e k)
| step_timeout w k : sem_step k (nxsem_timeout w k)
| step_reset n k r k' :
    Z.of_nat n < 2 ^ 15 -> nxsem_reset n k = (r, k') -> sem_step k k'
| step_delete t k : sem_step k (delete_task t k).

(** The count is the number of free units or, when negative, the number of
    waiters; the waiters are exactly the blocked tasks, by priority. *)
Record sem_ok (k : ksem) : Prop := {
  so_kind : NXSEM_IS_MUTEX (sem k) = false;
  so_max : val (sem k) <= SEM_VALUE_MAX;
  so_count : zlen (waitlist (sem k)) = Z.max 0 (- val (sem k));
  so_nodup : NoDup (waitlist (sem k));
  so_wait t : t ∈ waitlist (sem k) <->
    exists b, tasks k !! t = Some b /\ task_state b = TSTATE_WAIT_SEM;
  so_sorted : prio_sorted (tasks k) (waitlist (sem k));
  so_size : Z.of_nat (size (tasks k)) < 2 ^ 31
}.

Lemma size_alter_tasks f t (ts : gmap Z tcb_s) : size (alter f t ts) = size ts.
Proof. by rewrite <- !size_dom, dom_alter_L. Qed.

Lemma lookup_upd_ne t u f k : u <> t -> tasks (upd_task t f k) !! u = tasks k !! u.
Proof. intros H. simpl. rewrite lookup_alter. by rewrite decide_False. Qed.

Lemma lookup_upd_eq t f k : tasks (upd_task t f k) !! t = f <$> tasks k !! t.
Proof. simpl. rewrite lookup_alter. by rewrite decide_True. Qed.

(** There are no more waiters than tasks. *)
Lemma waiters_bound k : sem_ok k -> zlen (waitlist (sem k)) <= Z.of_nat (size (tasks k)).
Proof.
  intros H. rewrite <- size_dom.
  rewrite <- (size_list_to_set (C := gset Z) (waitlist (sem k))) by apply H.
  apply inj_le, subseteq_size. intros t Ht. apply elem_of_list_to_set in Ht.
  apply (so_wait _ H) in Ht as (b & Hb & _). by apply elem_of_dom_2 in Hb.
Qed.

(** Changing fields no invariant speaks of. *)
Lemma sem_ok_upd t f k :
  (forall b, task_state (f b) = task_state b /\ sched_priority (f b) = sched_priority b) ->
  sem_ok k -> sem_ok (upd_task t f k).
Proof.
  intros Hf H. constructor; simpl; try apply H.
  - intros u. rewrite (so_wait _ H u). rewrite lookup_alter.
    case_decide as E; [subst u|done]. destruct (tasks k !! t) as [b|]; simpl; [|done].
    split; intros (b' & [= <-] & Hb); eexists; split; eauto; by rewrite (proj1 (Hf _)) in *.
  - apply prio_sorted_alter; [apply Hf|apply H].
  - rewrite size_alter_tasks. apply H.
Qed.

Lemma sem_ok_val v k :
  sem_ok k -> 0 <= v <= SEM_VALUE_MAX -> 0 <= val (sem k) -> sem_ok (set_val v k).
Proof.
  intros H Hv Hp. constructor; simpl; try apply H; [lia|].
  pose proof (so_count _ H). lia.
Qed.

(** Blocking a running task when no unit is free. *)
Lemma sem_ok_block t k :
  sem_ok k -> runnable t k -> val (sem k) <= 0 ->
  sem_ok (let k1 := upd_task t tcb_block (set_val (s32 (val (sem k) - 1)) k) in
          set_waitlist (nxsched_add_prioritized (tasks k1) t (waitlist (sem k1))) k1).
Proof.
  intros H (b & Hb & Hr) Hv.
  assert (t ∉ waitlist (sem k)) as Hni.
  { intros Hin. apply (so_wait _ H) in Hin as (b' & Hb' & Hw). congruence. }
  assert (zlen (waitlist (sem k)) < 2 ^ 31) as Hlt.
  { pose proof (waiters_bound _ H). pose proof (so_size _ H). lia. }
  pose proof (so_count _ H) as Hc.
  rewrite s32_small by lia.
  constructor; simpl.
  - apply H.
  - unfold SEM_VALUE_MAX. lia.
  - rewrite add_prioritized_perm. simpl. lia.
  - rewrite add_prioritized_perm. constructor; [done|apply H].
  - intros u. rewrite add_prioritized_perm, elem_of_cons, (so_wait _ H u), lookup_alter.
    case_decide as E; [subst u; rewrite Hb; simpl|naive_solver].
    split; [|by left]. intros _. eexists. split; [done|done].
  - apply add_prioritized_sorted, prio_sorted_alter; [done|apply H].
  - rewrite size_alter_tasks. apply H.
Qed.

(** Releasing a waiter gives its unit back to the count. *)
Lemma sem_ok_unwait w f k :
  sem_ok k -> w ∈ waitlist (sem k) ->
  (forall b, task_state (f b) = TSTATE_TASK_READYTORUN /\
             sched_priority (f b) = sched_priority b) ->
  sem_ok (upd_task w f (set_val (val (sem k) + 1)
            (set_waitlist (dq_rem w (waitlist (sem k))) k))).
Proof.
  intros H Hin Hf. pose proof (so_count _ H) as Hc.
  assert (val (sem k) < 0) as Hneg.
  { destruct (waitlist (sem k)); [by apply not_elem_of_nil in Hin|]. simpl in Hc. lia. }
  constructor; simpl.
  - apply H.
  - unfold SEM_VALUE_MAX. lia.
  - rewrite dq_rem_length; [lia|apply H|done].
  - apply NoDup_filter, H.
  - intros u. unfold dq_rem. rewrite list_elem_of_filter, (so_wait _ H u), lookup_alter.
    case_decide as E; [subst u|naive_solver].
    split; [naive_solver|]. intros (b & Hb & Hs).
    destruct (tasks k !! w); simplify_eq/=. rewrite (proj1 (Hf _)) in Hs. done.
  - apply prio_sorted_alter; [apply Hf|].
    apply prio_sorted_dq_rem, H.
  - rewrite size_alter_tasks. apply H.
Qed.

(** What a post does: give the unit to the first waiter, or count it. *)
Lemma nxsem_post_wake k w rest :
  NXSEM_IS_MUTEX (sem k) = false -> val (sem k) < 0 -> waitlist (sem k) = w :: rest ->
  nxsem_post k = (OK, upd_task w tcb_wake (set_val (val (sem k) + 1) (set_waitlist rest k))).
Proof.
  intros Hm Hv Hw. unfold nxsem_post. rewrite Hm.
  replace (val (sem k) <? 0) with true by (symmetry; lia).
  unfold nxsem_post_slow. rewrite Hm.
  replace (SEM_VALUE_MAX <=? val (sem k)) with false
    by (symmetry; unfold SEM_VALUE_MAX; lia).
  replace (val (sem k) <? 0) with true by (symmetry; lia).
  simpl. by rewrite Hw.
Qed.

Lemma nxsem_post_free k :
  NXSEM_IS_MUTEX (sem k) = false -> 0 <= val (sem k) ->
  nxsem_post k = (OK, set_val (s32 (val (sem k) + 1)) k).
Proof.
  intros Hm Hv. unfold nxsem_post. rewrite Hm.
  by replace (val (sem k) <? 0) with false by (symmetry; lia).
Qed.

Lemma dq_rem_head w rest : NoDup (w :: rest) -> dq_rem w (w :: rest) = rest.
Proof.
  intros Hnd. apply NoDup_cons in Hnd as [Hni _]. unfold dq_rem.
  rewrite filter_cons_False by naive_solver. by apply dq_rem_not_in.
Qed.

Lemma sem_ok_post k : sem_ok k -> val (sem k) < SEM_VALUE_MAX -> sem_ok (snd (nxsem_post k)).
Proof.
  intros H Hmax. pose proof (so_count _ H) as Hc.
  destruct (waitlist (sem k)) as [|w rest] eqn:Hw; simpl in Hc.
  - rewrite nxsem_post_free by (apply H || lia). simpl. unfold SEM_VALUE_MAX in *.
    rewrite s32_small by lia. apply sem_ok_val; unfold SEM_VALUE_MAX; [done|lia|lia].
  - rewrite (nxsem_post_wake k w rest) by (apply H || lia || done). simpl.
    rewrite <- (dq_rem_head w rest) by (rewrite <- Hw; apply H). rewrite <- Hw.
    apply sem_ok_unwait; [done| |done]. rewrite Hw. by left.
Qed.

Lemma sem_ok_wait t k : sem_ok k -> runnable t k -> sem_ok (snd (nxsem_wait t k)).
Proof.
  intros H Hr. unfold nxsem_wait. rewrite (so_kind _ H).
  destruct (Z.ltb_spec (val (sem k)) 1) as [Hlt|Hge].
  - unfold nxsem_wait_slow. destruct (sig_pending t k); [done|].
    rewrite (so_kind _ H). replace (0 <? val (sem k)) with false by (symmetry; lia).
    apply sem_ok_block; [done|done|lia].
  - apply sem_ok_val; [done| |lia]. pose proof (so_max _ H). simpl. lia.
Qed.

Lemma sem_ok_trywait t k : sem_ok k -> sem_ok (snd (nxsem_trywait t k)).
Proof.
  intros H. unfold nxsem_trywait. rewrite (so_kind _ H).
  destruct (Z.ltb_spec (val (sem k)) 1); [done|].
  apply sem_ok_val; [done| |lia]. pose proof (so_max _ H). lia.
Qed.

Lemma sem_ok_resume t k : sem_ok k -> sem_ok (snd (nxsem_wait_resume t k)).
Proof. intros H. unfold nxsem_wait_resume. rewrite (so_kind _ H). done. Qed.

Lemma runnable_upd t f k :
  (forall b, task_state (f b) = task_state b) -> runnable t k -> runnable t (upd_task t f k).
Proof.
  intros Hf (b & Hb & Hs). exists (f b).
  by rewrite lookup_upd_eq, Hb, Hf.
Qed.

Lemma sem_ok_tickwait t d k : sem_ok k -> runnable t k -> sem_ok (snd (nxsem_tickwait t d k)).
Proof.
  intros H Hr. unfold nxsem_tickwait, nxsem_trywait. rewrite (so_kind _ H).
  destruct (Z.ltb_spec (val (sem k)) 1) as [Hlt|Hge]; simpl.
  2: { apply sem_ok_val; [done| |lia]. pose proof (so_max _ H). lia. }
  destruct (d =? 0); [done|].
  assert (sem_ok (snd (nxsem_wait t (upd_task t (tcb_set_waitdog true) k)))) as Hw
    by (apply sem_ok_wait; [by apply sem_ok_upd|by apply runnable_upd]).
  destruct (nxsem_wait _ _) as [[r|] k']; simpl in *; [by apply sem_ok_upd|done].
Qed.

Lemma sem_ok_irq w e k : sem_ok k -> w ∈ waitlist (sem k) -> sem_ok (nxsem_wait_irq w e k).
Proof.
  intros H Hin. unfold nxsem_wait_irq. rewrite (so_kind _ H). simpl.
  by apply sem_ok_unwait.
Qed.

Lemma sem_ok_timeout w k : sem_ok k -> sem_ok (nxsem_timeout w k).
Proof.
  intros H. unfold nxsem_timeout. destruct (tasks k !! w) as [b|] eqn:Hb; [|done].
  case_decide; [|done]. apply sem_ok_irq; [done|]. apply (so_wait _ H). eauto.
Qed.

Lemma reset_sem_loop_ok n k :
  sem_ok k -> sem_ok (snd (reset_sem_loop n k)) /\ (fst (reset_sem_loop n k) <= n)%nat.
Proof.
  revert k. induction n as [|n IH]; intros k H; simpl; [done|].
  destruct (Z.ltb_spec (val (sem k)) 0); [|done].
  destruct (IH (snd (nxsem_post k))) as [H1 H2].
  - apply sem_ok_post; [done|]. unfold SEM_VALUE_MAX. lia.
  - split; [done|lia].
Qed.

Lemma sem_ok_reset n k :
  sem_ok k -> Z.of_nat n <= SEM_VALUE_MAX -> sem_ok (snd (nxsem_reset n k)).
Proof.
  intros H Hn. unfold nxsem_reset. rewrite (so_kind _ H). simpl. unfold reset_sem.
  pose proof (reset_sem_loop_ok n k H) as [H1 H2].
  destruct (reset_sem_loop n k) as [r k']. simpl in *.
  destruct (Z.ltb_spec (val (sem k')) 0); [done|]. apply sem_ok_val; [done|lia|lia].
Qed.

(** The semaphore without task [t], waiting or not. *)
Lemma sem_ok_drop t v k :
  sem_ok k ->
  v = val (sem k) + (if decide (t ∈ waitlist (sem k)) then 1 else 0) ->
  sem_ok (mk_ksem (delete t (tasks k))
            (mk_sem v (flags (sem k)) (dq_rem t (waitlist (sem k))))).
Proof.
  intros H Hv. pose proof (so_count _ H) as Hc. pose proof (so_max _ H).
  constructor; simpl.
  - apply H.
  - unfold SEM_VALUE_MAX in *. case_decide as Hin; [|lia].
    destruct (waitlist (sem k)); [by apply not_elem_of_nil in Hin|simpl in Hc; lia].
  - case_decide as Hin.
    + rewrite dq_rem_length; [|apply H|done].
      destruct (waitlist (sem k)); [by apply not_elem_of_nil in Hin|simpl in *; lia].
    + rewrite dq_rem_not_in by done. lia.
  - apply NoDup_filter, H.
  - intros u. unfold dq_rem. rewrite list_elem_of_filter, (so_wait _ H u), lookup_delete.
    destruct (decide (t = u)) as [<-|Hne].
    + split; [by intros [? _]|]. by intros (b & ? & _).
    + split; [by intros [_ ?]|done].
  - apply prio_sorted_ext with (tasks k); [|apply prio_sorted_dq_rem, H].
    intros x Hx. apply list_elem_of_filter in Hx as [Hne _]. unfold prio.
    by rewrite lookup_delete_ne.
  - pose proof (so_size _ H). rewrite <- size_dom, dom_delete_L.
    assert (size (dom (tasks k) ∖ {[t]}) <= size (dom (tasks k)))%nat; [|rewrite size_dom in *; lia].
    apply subseteq_size. set_solver.
Qed.

Lemma sem_ok_delete t k : sem_ok k -> sem_ok (delete_task t k).
Proof.
  intros H. unfold delete_task, nxsem_recover.
  assert (forall b, tasks k !! t = Some b -> task_state b <> TSTATE_WAIT_SEM -> t ∉ waitlist (sem k))
    as Hn.
  { intros b Hb Hs Hin. apply (so_wait _ H) in Hin as (b' & Hb' & ?). congruence. }
  destruct (tasks k !! t) as [b|] eqn:Hb; [destruct (decide _) as [Hw|Hw]|].
  - assert (t ∈ waitlist (sem k)) as Hin by (apply (so_wait _ H); eauto).
    change (NXSEM_IS_MUTEX (sem (set_waitlist _ k))) with (NXSEM_IS_MUTEX (sem k)).
    rewrite (so_kind _ H).
    refine (sem_ok_drop t (val (sem k) + 1) k H _). by rewrite decide_True.
  - pose proof (sem_ok_drop t (val (sem k)) k H) as Hd.
    rewrite decide_False in Hd by eauto. specialize (Hd ltac:(lia)).
    rewrite dq_rem_not_in in Hd by eauto. destruct k as [ts [v fl wl]]; exact Hd.
  - assert (t ∉ waitlist (sem k)) as Hni.
    { intros Hin. apply (so_wait _ H) in Hin as (b' & Hb' & ?). congruence. }
    pose proof (sem_ok_drop t (val (sem k)) k H) as Hd.
    rewrite decide_False in Hd by done. specialize (Hd ltac:(lia)).
    rewrite dq_rem_not_in in Hd by done. destruct k as [ts [v fl wl]]; exact Hd.
Qed.

(** A step keeps the semaphore in order, unless it is a post on a full count. *)
Lemma sem_step_ok k k' :
  sem_ok k -> sem_step k k' ->
  sem_ok k' \/ (val (sem k) = SEM_VALUE_MAX /\ k' = snd (nxsem_post k)).
Proof.
  intros H Hst. destruct Hst as
    [t k r k' Hr E|t k r k' Hr E|t k r k' Hr E|t d k r k' Hr E|k r k' E|w e k Hin|w k|n k r k' Hn E|t k].
  5: { change k' with (snd (r, k')). rewrite <- E.
       destruct (Z.eq_dec (val (sem k)) SEM_VALUE_MAX) as [Hv|Hv]; [by right|left].
       apply sem_ok_post; [done|]. pose proof (so_max _ H). lia. }
  all: left.
  - change k' with (snd (r, k')). rewrite <- E. by apply sem_ok_wait.
  - change k' with (snd (r, k')). rewrite <- E. by apply sem_ok_resume.
  - change k' with (snd (r, k')). rewrite <- E. by apply sem_ok_trywait.
  - change k' with (snd (r, k')). rewrite <- E. by apply sem_ok_tickwait.
  - by apply sem_ok_irq.
  - by apply sem_ok_timeout.
  - change k' with (snd (r, k')). rewrite <- E. apply sem_ok_reset; [done|].
    unfold SEM_VALUE_MAX. lia.
  - by apply sem_ok_delete.
Qed.

Lemma sem_ok_init ts v s0 :
  0 <= v <= SEM_VALUE_MAX -> Z.of_nat (size ts) < 2 ^ 31 ->
  (forall t b, ts !! t = Some b -> task_state b <> TSTATE_WAIT_SEM) ->
  sem_ok (snd (nxsem_init v (mk_ksem ts s0))).
Proof.
  intros Hv Hs Ht. constructor; simpl; try done; try lia; try constructor.
  - intros Hin. by apply not_elem_of_nil in Hin.
  - intros (b & Hb & Hw). by apply Ht in Hb.
Qed.

(** Runs from a state in order. *)
Lemma sem_steps_ok k0 k :
  sem_ok k0 -> steps sem_step k0 k ->
  sem_ok k \/
  exists k1, steps sem_step k0 k1 /\ sem_ok k1 /\ val (sem k1) = SEM_VALUE_MAX /\
    steps sem_step (snd (nxsem_post k1)) k.
Proof.
  intros H Hst. induction Hst as [k|k0 k2 k Hs Hst IH]; [by left|].
  destruct (sem_step_ok k0 k2 H Hs) as [H2|[Hv ->]].
  - destruct (IH H2) as [Hk|(k1 & H1 & Hk)]; [by left|right]. exists k1.
    split; [by eapply steps_step|done].
  - right. exists k0. split; [apply steps_refl|done].
Qed.

(** ** Properties *)


(** A ready task of priority [p]. *)
Definition ready_tcb (p : Z) : tcb_s := mk_tcb p TSTATE_TASK_READYTORUN 0 false false false.

Definition two_tasks : gmap Z tcb_s := {[ 3 := ready_tcb 100; 4 := ready_tcb 120 ]}.

Lemma two_tasks_ready t b : two_tasks !! t = Some b -> task_state b <> TSTATE_WAIT_SEM.
Proof.
  unfold two_tasks. rewrite lookup_insert. case_decide; [by intros [= <-]|].
  rewrite lookup_singleton. case_decide; [by intros [= <-]|done].
Qed.

Definition fresh_sem : ksem := snd (nxsem_init 0 (mk_ksem two_tasks (mk_sem 7 0 []))).
Definition two_waiters : ksem := snd (nxsem_wait 4 (snd (nxsem_wait 3 fresh_sem))).

Lemma two_waiters_steps : steps sem_step fresh_sem two_waiters.
Proof.
  apply steps_step with (snd (nxsem_wait 3 fresh_sem)).
  { apply (step_wait 3 _ Blocked); [exists (ready_tcb 100); by vm_compute|reflexivity]. }
  apply steps_one.
  apply (step_wait 4 _ Blocked); [exists (ready_tcb 120); by vm_compute|reflexivity].
Qed.


(** C23: A post on a semaphore with waiters releases exactly the first of them;
    that task has the highest priority of all waiters, the others keep
    waiting in the same order, and one unit goes back to the count. *)
Theorem sem_post_wakes_highest k :
  sem_ok k -> val (sem k) < 0 ->
  exists w rest k',
    nxsem_post k = (OK, k') /\ waitlist (sem k) = w :: rest /\
    waitlist (sem k') = rest /\ val (sem k') = val (sem k) + 1 /\
    (forall u, u ∈ rest -> prio (tasks k) u <= prio (tasks k) w) /\
    (exists b, tasks k' !! w = Some b /\ task_state b = TSTATE_TASK_READYTORUN /\
               waitobj b = false /\ waitdog b = false) /\
    (forall u, u <> w -> tasks k' !! u = tasks k !! u).
Proof.
  intros H Hv. pose proof (so_count _ H) as Hc.
  destruct (waitlist (sem k)) as [|w rest] eqn:Hw; simpl in Hc; [lia|].
  eexists w, rest, _. split; [by apply nxsem_post_wake; [apply H|..]|].
  split; [done|]. split; [done|]. split; [done|]. split; [|split].
  - pose proof (so_sorted _ H) as Hs. rewrite Hw in Hs. inversion Hs as [|? ? _ Hx]; subst.
    rewrite Forall_forall in Hx. exact Hx.
  - destruct (proj1 (so_wait _ H w)) as (b & Hb & _); [rewrite Hw; by left|].
    exists (tcb_wake b). rewrite lookup_upd_eq. simpl. by rewrite Hb.
  - intros u Hu. by rewrite lookup_upd_ne.
Qed.

Lemma two_waiters_ok : sem_ok two_waiters.
Proof.
  unfold two_waiters. apply sem_ok_wait; [apply sem_ok_wait|].
  - apply sem_ok_init; [by vm_compute|by vm_compute|exact two_tasks_ready].
  - exists (ready_tcb 100). by vm_compute.
  - exists (ready_tcb 120). by vm_compute.
Qed.

Lemma sem_post_wakes_highest_witness :
  exists w rest k',
    nxsem_post two_waiters = (OK, k') /\ waitlist (sem two_waiters) = w :: rest /\
    waitlist (sem k') = rest.
Proof.
  destruct (sem_post_wakes_highest two_waiters two_waiters_ok)
    as (w & rest & k' & H1 & H2 & H3 & _).
  - vm_compute. reflexivity.
  - by exists w, rest, k'.
Defined.

(** The fast path of a post has no check of the maximum: a counting
    semaphore at [SEM_VALUE_MAX] reports success and its count becomes the most
    negative value, although nobody waits ([nxsem_post_slow] would return
    [-EOVERFLOW]). *)
Theorem sem_post_overflow k :
  NXSEM_IS_MUTEX (sem k) = false -> val (sem k) = SEM_VALUE_MAX ->
  nxsem_post k = (OK, set_val (- 2 ^ 31) k) /\ nxsem_post_slow k = (- EOVERFLOW, k).
Proof.
  intros Hm Hv. split.
  - rewrite nxsem_post_free by (done || (rewrite Hv; unfold SEM_VALUE_MAX; lia)).
    rewrite Hv. done.
  - unfold nxsem_post_slow. rewrite Hm, Hv. done.
Qed.

Lemma sem_post_overflow_witness :
  let k := mk_ksem ∅ (mk_sem SEM_VALUE_MAX 0 []) in
  nxsem_post k = (OK, set_val (- 2 ^ 31) k) /\ nxsem_post_slow k = (- EOVERFLOW, k).
Proof.
  apply (sem_post_overflow (mk_ksem ∅ (mk_sem SEM_VALUE_MAX 0 []))); reflexivity.
Defined.
