(* ===== verification/Mutex.v ===== *)
(** Mutexes and recursive mutexes.

    The wrappers of include/nuttx/mutex.h and libs/libc/misc/lib_mutex.c over
    the semaphore of Semaphore.v; the interface [Lock] through which the other
    components use a mutex, with [nxmutex] as its instance; the nesting
    behaviour of recursive mutexes; what a timed-out lock leaves behind. *)

From S2P Require Import Prelude.
From S2P Require Import Semaphore.
From stdpp Require Import gmap sorting.
Local Open Scope Z_scope.

(** ** The wrappers *)

Definition nxmutex_get_holder (k : ksem) : Z :=
  let mholder := mholder_tid (val (sem k)) in
  if NXSEM_MACQUIRED mholder then mholder else -1.

Definition nxmutex_is_locked (k : ksem) : bool := NXSEM_MACQUIRED (val (sem k)).
Definition nxmutex_is_hold (t : Z) (k : ksem) : bool := nxmutex_get_holder k =? t.
Definition nxmutex_lock (t : Z) (k : ksem) : waited * ksem := nxsem_wait t k.
Definition nxmutex_trylock (t : Z) (k : ksem) : Z * ksem := nxsem_trywait t k.
Definition nxmutex_unlock (k : ksem) : Z * ksem := nxsem_post k.
Definition nxmutex_reset (k : ksem) : ksem := snd (nxsem_reset 1 k).
Definition nxmutex_destroy (k : ksem) : Z * ksem := nxsem_destroy k.

Definition nxmutex_ticklock (t delay : Z) (k : ksem) : waited * ksem :=
  if delay =? 0 then let '(ret, k) := nxsem_trywait t k in (Returned ret, k)
  else nxsem_tickwait t delay k.

(** [*locked] and the result of [nxmutex_breaklock]. *)
Definition nxmutex_breaklock (k : ksem) : Z * bool * ksem :=
  let '(ret, k) := nxmutex_unlock k in (ret, 0 <=? ret, k).

Definition nxmutex_restorelock (t : Z) (locked : bool) (k : ksem) : waited * ksem :=
  if locked then nxmutex_lock t k else (Returned OK, k).

(** ** The interface a client sees *)

Class Lock (L : Type) := {
  lk_lock : Z -> L -> waited * L;
  lk_resume : Z -> L -> Z * L;
  lk_unlock : L -> Z * L;
  (** The holder and the waiters, in the order in which they will be served. *)
  lk_rep : L -> option Z -> list Z -> Prop;
  (** A task that may use the lock. *)
  lk_task : Z -> L -> Prop;
  (** The scheduler does not run the task. *)
  lk_blocked : Z -> L -> bool;
  lk_waiter_blocked t l h ws : lk_rep l h ws -> t ∈ ws -> lk_blocked t l = true;
  lk_holder_ready t l ws : lk_rep l (Some t) ws -> lk_blocked t l = false;
  lk_lock_free t l :
    lk_rep l None [] -> lk_task t l -> lk_blocked t l = false ->
    exists l', lk_lock t l = (Returned OK, l') /\ lk_rep l' (Some t) [] /\
      (forall u, lk_task u l -> lk_task u l') /\
      (forall u, lk_blocked u l' = lk_blocked u l);
  lk_lock_busy t l h ws :
    lk_rep l (Some h) ws -> lk_task t l -> t <> h -> t ∉ ws ->
    exists l' ws', lk_lock t l = (Blocked, l') /\ lk_rep l' (Some h) ws' /\
      ws' ≡ₚ t :: ws /\ (forall u, lk_task u l -> lk_task u l') /\
      (forall u, u <> t -> lk_blocked u l' = lk_blocked u l);
  lk_resume_hold t l ws :
    lk_rep l (Some t) ws -> lk_task t l ->
    exists l', lk_resume t l = (OK, l') /\ lk_rep l' (Some t) ws /\
      (forall u, lk_task u l -> lk_task u l') /\
      (forall u, lk_blocked u l' = lk_blocked u l);
  lk_unlock_free t l :
    lk_rep l (Some t) [] ->
    exists l', lk_unlock l = (OK, l') /\ lk_rep l' None [] /\
      (forall u, lk_task u l -> lk_task u l') /\
      (forall u, lk_blocked u l' = lk_blocked u l);
  lk_unlock_hand t l w ws :
    lk_rep l (Some t) (w :: ws) ->
    exists l', lk_unlock l = (OK, l') /\ lk_rep l' (Some w) ws /\
      (forall u, lk_task u l -> lk_task u l') /\
      (forall u, u <> w -> lk_blocked u l' = lk_blocked u l)
}.

(** A task that is running and may use the lock. *)
Definition lk_run {L} `{!Lock L} (t : Z) (l : L) : Prop := lk_task t l /\ lk_blocked t l = false.

(** ** The kernel mutex implements the interface *)

Definition wait_bit (ws : list Z) : Z := match ws with [] => 0 | _ => 2 ^ 31 end.

Definition mutex_blocked (t : Z) (k : ksem) : bool :=
  match tasks k !! t with
  | Some b => bool_decide (task_state b = TSTATE_WAIT_SEM)
  | None => false
  end.

Definition known (k : ksem) (t : Z) : Prop := tid_ok t /\ is_Some (tasks k !! t).

Definition mutex_rep (k : ksem) (h : option Z) (ws : list Z) : Prop :=
  NXSEM_IS_MUTEX (sem k) = true /\ waitlist (sem k) = ws /\ NoDup ws /\
  Forall (fun w => known k w /\ mutex_blocked w k = true) ws /\
  match h with
  | None => val (sem k) = NXSEM_NO_MHOLDER /\ ws = []
  | Some t => known k t /\ (t ∉ ws) /\ val (sem k) = t + wait_bit ws /\
              mutex_blocked t k = false
  end.

Definition mutex_task (t : Z) (k : ksem) : Prop :=
  tid_ok t /\ exists b, tasks k !! t = Some b /\ sigpending b = false /\ errcode b = OK.

Lemma tid_ok_lt t : tid_ok t -> 0 <= t < 2 ^ 31.
Proof. unfold tid_ok, NXSEM_NO_MHOLDER. lia. Qed.

Lemma tid_ok_u32 t : tid_ok t -> u32 t = t.
Proof. intros H%tid_ok_lt. apply u32_small. lia. Qed.

#[local] Hint Resolve tid_ok_lt : nx.

Lemma lor_tid_bit t ws : tid_ok t -> Z.lor (u32 t) (blocking_bit ws) = t + wait_bit ws.
Proof.
  intros H. rewrite tid_ok_u32 by done. destruct ws; simpl.
  - rewrite Z.lor_0_r. lia.
  - by rewrite lor_blocking by auto with nx.
Qed.

Lemma held_not_free t ws : tid_ok t -> (t + wait_bit ws =? NXSEM_NO_MHOLDER) = false.
Proof. unfold tid_ok, NXSEM_NO_MHOLDER. intros H. destruct ws; simpl; lia. Qed.

Lemma held_acquired t ws : tid_ok t -> NXSEM_MACQUIRED (t + wait_bit ws) = true.
Proof.
  intros H. destruct ws; simpl; [rewrite Z.add_0_r; by apply macquired_tid|by apply macquired_set].
Qed.

Lemma held_tid t ws : tid_ok t -> mholder_tid (t + wait_bit ws) = t.
Proof.
  intros H%tid_ok_lt. rewrite mholder_tid_mod. destruct ws; simpl.
  - rewrite Z.add_0_r. apply Z.mod_small. lia.
  - symmetry. apply Z.mod_unique with 1; lia.
Qed.

Lemma held_blocking t ws :
  tid_ok t -> NXSEM_MBLOCKING (t + wait_bit ws) = match ws with [] => false | _ => true end.
Proof.
  intros H%tid_ok_lt. destruct ws; simpl;
    [rewrite Z.add_0_r; by apply mblocking_tid|by apply mblocking_set].
Qed.

Lemma held_lor t ws :
  tid_ok t -> Z.lor (t + wait_bit ws) NXSEM_MBLOCKING_BIT = t + 2 ^ 31.
Proof.
  intros H%tid_ok_lt. destruct ws; cbn [wait_bit].
  - rewrite Z.add_0_r. by apply lor_blocking.
  - rewrite <- lor_blocking by done. by rewrite <- Z.lor_assoc, Z.lor_diag.
Qed.

Lemma known_upd k t f u : known k u -> known (upd_task t f k) u.
Proof.
  intros [Hu [b Hb]]. split; [done|]. simpl. rewrite lookup_alter.
  case_decide; subst; rewrite Hb; by eapply mk_is_Some.
Qed.

Lemma task_upd k t f u :
  (forall b, sigpending (f b) = sigpending b /\ (errcode b = OK -> errcode (f b) = OK)) ->
  mutex_task u k -> mutex_task u (upd_task t f k).
Proof.
  intros Hf (Hu & b & Hb & Hs & He). split; [done|]. simpl. rewrite lookup_alter.
  destruct (Hf b) as [H1 H2].
  case_decide; subst; rewrite Hb; [exists (f b); rewrite H1; auto|exists b; auto].
Qed.

(** A task a step does not touch stays as blocked as it was. *)
Lemma blocked_upd_ne k t f u : u <> t -> mutex_blocked u (upd_task t f k) = mutex_blocked u k.
Proof. intros H. unfold mutex_blocked. simpl. by rewrite lookup_alter_ne. Qed.

Lemma blocked_upd_eq k t f :
  is_Some (tasks k !! t) ->
  mutex_blocked t (upd_task t f k) =
    match tasks k !! t with
    | Some b => bool_decide (task_state (f b) = TSTATE_WAIT_SEM)
    | None => false
    end.
Proof. intros [b Hb]. unfold mutex_blocked. simpl. by rewrite lookup_alter_eq, Hb. Qed.

(** Waiters stay waiters when another task changes. *)
Lemma waiters_upd k t f ws :
  t ∉ ws -> Forall (fun w => known k w /\ mutex_blocked w k = true) ws ->
  Forall (fun w => known (upd_task t f k) w /\ mutex_blocked w (upd_task t f k) = true) ws.
Proof.
  intros Ht Hf. apply Forall_forall. intros w Hw.
  rewrite Forall_forall in Hf. destruct (Hf w Hw) as [Hk Hb].
  split; [by apply known_upd|]. rewrite blocked_upd_ne; [done|congruence].
Qed.

Lemma nxmutex_lock_free t k :
  mutex_rep k None [] -> mutex_task t k -> mutex_blocked t k = false ->
  exists k', nxmutex_lock t k = (Returned OK, k') /\ mutex_rep k' (Some t) [] /\
    (forall u, mutex_task u k -> mutex_task u k') /\
    (forall u, mutex_blocked u k' = mutex_blocked u k).
Proof.
  intros (Hm & Hw & Hnd & Hf & Hv & _) (Ht & b & Hb & _) Hr.
  exists (set_val (u32 t) k). split.
  { unfold nxmutex_lock, nxsem_wait. rewrite Hm, Hv. done. }
  split; [|done].
  do 4 (split; [done|]). split; [by split; [|exists b]|].
  split; [apply not_elem_of_nil|]. simpl. rewrite tid_ok_u32 by done. split; [lia|done].
Qed.

Lemma nxmutex_lock_busy t k h ws :
  mutex_rep k (Some h) ws -> mutex_task t k -> t <> h -> t ∉ ws ->
  exists k' ws', nxmutex_lock t k = (Blocked, k') /\ mutex_rep k' (Some h) ws' /\
    ws' ≡ₚ t :: ws /\ (forall u, mutex_task u k -> mutex_task u k') /\
    (forall u, u <> t -> mutex_blocked u k' = mutex_blocked u k).
Proof.
  intros (Hm & Hw & Hnd & Hf & [Hh Hhl] & Hnh & Hv & Hhr) (Ht & b & Hb & Hs & He) Hne Hni.
  set (k0 := set_val (h + 2 ^ 31) k). set (k1 := upd_task t tcb_block k0).
  set (ws' := nxsched_add_prioritized (tasks k1) t ws).
  assert (ws' ≡ₚ t :: ws) as Hp by apply add_prioritized_perm.
  exists (set_waitlist ws' k1), ws'. split; [|split; [|split; [done|split]]].
  - unfold nxmutex_lock, nxsem_wait. rewrite Hm, Hv, held_not_free by done.
    unfold nxsem_wait_slow, sig_pending. rewrite Hb, Hs, Hm, Hv.
    rewrite held_acquired, held_tid, held_lor by done.
    destruct Hhl as [bh Hbh]. simpl. rewrite Hbh. simpl. by rewrite Hw.
  - split; [done|]. split; [done|]. split; [rewrite Hp; by constructor|].
    split.
    + change (Forall (fun w => known k1 w /\ mutex_blocked w k1 = true) ws').
      rewrite Hp. constructor; [|by apply (waiters_upd k0 t tcb_block)].
      split; [apply (known_upd k0); split; [done|by exists b]|].
      unfold k1. rewrite blocked_upd_eq; simpl; rewrite Hb; [done|by eexists].
    + split; [exact (known_upd k0 t tcb_block h (conj Hh Hhl))|].
      split; [rewrite Hp; set_solver|]. split.
      * simpl. destruct ws' as [|x l]; [|done]. by apply Permutation_nil_cons in Hp.
      * change (mutex_blocked h k1 = false). unfold k1. by rewrite blocked_upd_ne by congruence.
  - intros u Hu. exact (task_upd k0 t tcb_block u ltac:(intros; simpl; auto) Hu).
  - intros u Hu. exact (blocked_upd_ne k0 t tcb_block u Hu).
Qed.

Lemma nxmutex_resume_hold t k ws :
  mutex_rep k (Some t) ws -> mutex_task t k ->
  exists k', nxsem_wait_resume t k = (OK, k') /\ mutex_rep k' (Some t) ws /\
    (forall u, mutex_task u k -> mutex_task u k') /\
    (forall u, mutex_blocked u k' = mutex_blocked u k).
Proof.
  intros (Hm & Hw & Hnd & Hf & [Ht Htl] & Hni & Hv & Hr) (_ & b & Hb & _ & He).
  exists (take_mutex t k). split.
  { unfold nxsem_wait_resume. by rewrite Hb, He, Hm. }
  split; [|done].
  do 4 (split; [done|]). split; [done|]. split; [done|].
  split; [simpl; by rewrite Hw, lor_tid_bit|done].
Qed.

Lemma nxmutex_unlock_free t k :
  mutex_rep k (Some t) [] ->
  exists k', nxmutex_unlock k = (OK, k') /\ mutex_rep k' None [] /\
    (forall u, mutex_task u k -> mutex_task u k') /\
    (forall u, mutex_blocked u k' = mutex_blocked u k).
Proof.
  intros (Hm & Hw & Hnd & Hf & [Ht Htl] & Hni & Hv & Hr).
  exists (set_val NXSEM_NO_MHOLDER k). split.
  { unfold nxmutex_unlock, nxsem_post. by rewrite Hm, Hv, held_blocking. }
  split; [|done]. by repeat split.
Qed.

Lemma nxmutex_unlock_hand t k w ws :
  mutex_rep k (Some t) (w :: ws) ->
  exists k', nxmutex_unlock k = (OK, k') /\ mutex_rep k' (Some w) ws /\
    (forall u, mutex_task u k -> mutex_task u k') /\
    (forall u, u <> w -> mutex_blocked u k' = mutex_blocked u k).
Proof.
  intros (Hm & Hw & Hnd & Hf & [Ht Htl] & Hni & Hv & Hr).
  apply NoDup_cons in Hnd as [Hwn Hnd]. apply Forall_cons in Hf as [[Hkw Hkb] Hf].
  set (k1 := set_val (w + wait_bit ws) (set_waitlist ws k)).
  exists (upd_task w tcb_wake k1). split; [|split; [|split]].
  - unfold nxmutex_unlock, nxsem_post. rewrite Hm, Hv, held_blocking by done.
    unfold nxsem_post_slow. rewrite Hm, Hv, held_blocking by done.
    rewrite held_lor by done. simpl. rewrite Hw.
    rewrite lor_tid_bit by apply Hkw. done.
  - do 3 (split; [done|]). split; [by apply (waiters_upd k1 w tcb_wake)|].
    split; [exact (known_upd k1 w tcb_wake w Hkw)|]. split; [done|]. split; [done|].
    destruct Hkw as [_ [b Hb]]. rewrite blocked_upd_eq; simpl; rewrite Hb; [done|by eexists].
  - intros u Hu. exact (task_upd k1 w tcb_wake u ltac:(intros; simpl; auto) Hu).
  - intros u Hu. exact (blocked_upd_ne k1 w tcb_wake u Hu).
Qed.

Lemma nxmutex_waiter_blocked t k h ws :
  mutex_rep k h ws -> t ∈ ws -> mutex_blocked t k = true.
Proof. intros (_ & _ & _ & Hf & _) Ht. rewrite Forall_forall in Hf. by apply Hf. Qed.

Lemma nxmutex_holder_ready t k ws : mutex_rep k (Some t) ws -> mutex_blocked t k = false.
Proof. by intros (_ & _ & _ & _ & _ & _ & _ & ?). Qed.

#[export] Program Instance nxmutex : Lock ksem := {
  lk_lock := nxmutex_lock;
  lk_resume := nxsem_wait_resume;
  lk_unlock := nxmutex_unlock;
  lk_rep := mutex_rep;
  lk_task := mutex_task;
  lk_blocked := mutex_blocked;
  lk_waiter_blocked := nxmutex_waiter_blocked;
  lk_holder_ready := nxmutex_holder_ready;
  lk_lock_free := nxmutex_lock_free;
  lk_lock_busy := nxmutex_lock_busy;
  lk_resume_hold := nxmutex_resume_hold;
  lk_unlock_free := nxmutex_unlock_free;
  lk_unlock_hand := nxmutex_unlock_hand
}.

(** A freshly initialised mutex is free. *)
Lemma nxmutex_init_rep k : mutex_rep (snd (nxmutex_init k)) None [].
Proof. repeat split; simpl; constructor. Qed.

(** ** Recursive mutexes *)

Record rmutex_t := mk_rmutex { mutex : ksem; count : Z }.

Definition nxrmutex_is_hold (t : Z) (r : rmutex_t) : bool := nxmutex_is_hold t (mutex r).

Definition nxrmutex_init (r : rmutex_t) : Z * rmutex_t :=
  let '(ret, k) := nxmutex_init (mutex r) in (ret, mk_rmutex k 0).

Definition nxrmutex_destroy (r : rmutex_t) : Z * rmutex_t :=
  let '(ret, k) := nxmutex_destroy (mutex r) in
  (ret, mk_rmutex k (if 0 <=? ret then 0 else count r)).

(** [if (ret >= 0) ++rmutex->count;] *)
Definition rmutex_acquired (ret : Z) (k : ksem) (c : Z) : rmutex_t :=
  mk_rmutex k (if 0 <=? ret then u32 (c + 1) else c).

Definition nxrmutex_lock (t : Z) (r : rmutex_t) : waited * rmutex_t :=
  if nxrmutex_is_hold t r then (Returned OK, rmutex_acquired OK (mutex r) (count r))
  else match nxmutex_lock t (mutex r) with
       | (Returned ret, k) => (Returned ret, rmutex_acquired ret k (count r))
       | (Blocked, k) => (Blocked, mk_rmutex k (count r))
       end.

(** The rest of [nxrmutex_lock] when the blocked task runs again. *)
Definition nxrmutex_lock_resume (t : Z) (r : rmutex_t) : Z * rmutex_t :=
  let '(ret, k) := nxsem_wait_resume t (mutex r) in (ret, rmutex_acquired ret k (count r)).

Definition nxrmutex_trylock (t : Z) (r : rmutex_t) : Z * rmutex_t :=
  if nxrmutex_is_hold t r then (OK, rmutex_acquired OK (mutex r) (count r))
  else let '(ret, k) := nxmutex_trylock t (mutex r) in (ret, rmutex_acquired ret k (count r)).

Definition nxrmutex_ticklock (t delay : Z) (r : rmutex_t) : waited * rmutex_t :=
  if nxrmutex_is_hold t r then (Returned 0, rmutex_acquired 0 (mutex r) (count r))
  else match nxmutex_ticklock t delay (mutex r) with
       | (Returned ret, k) => (Returned ret, rmutex_acquired ret k (count r))
       | (Blocked, k) => (Blocked, mk_rmutex k (count r))
       end.

Definition nxrmutex_unlock (r : rmutex_t) : Z * rmutex_t :=
  let c := u32 (count r - 1) in
  if c =? 0 then
    let '(ret, k) := nxmutex_unlock (mutex r) in
    (ret, mk_rmutex k (if ret <? 0 then u32 (c + 1) else c))
  else (OK, mk_rmutex (mutex r) c).

(** The result, [*count] and the new state. *)
Definition nxrmutex_breaklock (t : Z) (r : rmutex_t) : Z * Z * rmutex_t :=
  if nxrmutex_is_hold t r then
    let '(ret, k) := nxmutex_unlock (mutex r) in
    (ret, count r, mk_rmutex k (if ret <? 0 then count r else 0))
  else (OK, 0, r).

Definition nxrmutex_restorelock (t c : Z) (r : rmutex_t) : waited * rmutex_t :=
  if c =? 0 then (Returned OK, r)
  else match nxmutex_lock t (mutex r) with
       | (Returned ret, k) => (Returned ret, mk_rmutex k (if 0 <=? ret then c else count r))
       | (Blocked, k) => (Blocked, mk_rmutex k (count r))
       end.

(** The state a recursive mutex is in: free, or held [n] times by one task. *)
Definition rmutex_rep (r : rmutex_t) (h : option Z) (ws : list Z) (n : Z) : Prop :=
  mutex_rep (mutex r) h ws /\ count r = n /\
  match h with None => n = 0 | Some _ => 0 < n < 2 ^ 32 end.

Lemma mutex_rep_holder k h ws :
  mutex_rep k h ws -> nxmutex_get_holder k = match h with Some t => t | None => -1 end.
Proof.
  intros (Hm & Hw & Hnd & Hf & Hh). unfold nxmutex_get_holder. destruct h as [t|].
  - destruct Hh as ([Ht _] & _ & -> & _). rewrite held_tid by done.
    by rewrite macquired_tid.
  - destruct Hh as [-> _]. done.
Qed.

Lemma rmutex_is_hold_rep r h ws n t :
  rmutex_rep r h ws n -> 0 <= t ->
  nxrmutex_is_hold t r = bool_decide (h = Some t).
Proof.
  intros (Hr & _) Ht. unfold nxrmutex_is_hold, nxmutex_is_hold.
  rewrite (mutex_rep_holder _ _ _ Hr). destruct h as [u|].
  - destruct (Z.eqb_spec u t); [subst; by rewrite bool_decide_true|].
    rewrite bool_decide_false; [done|congruence].
  - rewrite bool_decide_false by done. lia.
Qed.

(** One more level for the holder. *)
Lemma nxrmutex_lock_again r t ws n :
  rmutex_rep r (Some t) ws n -> n < 2 ^ 32 - 1 ->
  exists r', nxrmutex_lock t r = (Returned OK, r') /\ rmutex_rep r' (Some t) ws (n + 1) /\
    mutex r' = mutex r.
Proof.
  intros Hr Hn. pose proof Hr as (Hk & Hc & Hp).
  assert (0 <= t) as Ht by (destruct Hk as (_ & _ & _ & _ & [[? ?] _] & _); lia).
  unfold nxrmutex_lock. rewrite (rmutex_is_hold_rep _ _ _ _ _ Hr Ht).
  rewrite bool_decide_true by done. eexists. split; [done|].
  split; [|done]. split; [done|]. simpl. rewrite Hc, u32_small by lia. lia.
Qed.

Lemma nxrmutex_lock_first r t :
  rmutex_rep r None [] 0 -> lk_run t (mutex r) ->
  exists r', nxrmutex_lock t r = (Returned OK, r') /\ rmutex_rep r' (Some t) [] 1 /\
    (forall u, lk_run u (mutex r) -> lk_run u (mutex r')).
Proof.
  intros Hr [Ht Hb]. pose proof Hr as (Hk & Hc & _).
  unfold nxrmutex_lock. rewrite (rmutex_is_hold_rep _ _ _ _ _ Hr) by (apply Ht).
  rewrite bool_decide_false by done.
  destruct (nxmutex_lock_free t (mutex r) Hk Ht Hb) as (k' & E & Hk' & Hu & Hub). rewrite E.
  eexists. split; [done|]. split; [split; [done|]; simpl; by rewrite Hc|].
  intros u [H1 H2]. split; [by apply Hu|]. simpl. by rewrite Hub.
Qed.

Lemma nxrmutex_unlock_inner r t ws n :
  rmutex_rep r (Some t) ws n -> 1 < n ->
  exists r', nxrmutex_unlock r = (OK, r') /\ rmutex_rep r' (Some t) ws (n - 1) /\
    mutex r' = mutex r.
Proof.
  intros (Hk & Hc & Hp) Hn. unfold nxrmutex_unlock. rewrite Hc, u32_small by lia.
  replace (n - 1 =? 0) with false by (symmetry; lia).
  eexists. split; [done|]. split; [|done]. split; [done|]. simpl. lia.
Qed.

Lemma nxrmutex_unlock_last r t :
  rmutex_rep r (Some t) [] 1 ->
  exists r', nxrmutex_unlock r = (OK, r') /\ rmutex_rep r' None [] 0.
Proof.
  intros (Hk & Hc & Hp). unfold nxrmutex_unlock. rewrite Hc.
  destruct (nxmutex_unlock_free t _ Hk) as (k' & E & Hk' & _). simpl. rewrite E.
  eexists. split; [done|]. by split.
Qed.

(** [n] calls in a row, [None] when one of them does not return [OK]. *)
Fixpoint rlock_n (n : nat) (t : Z) (r : rmutex_t) : option rmutex_t :=
  match n with
  | O => Some r
  | S n => match nxrmutex_lock t r with
           | (Returned ret, r) => if ret =? OK then rlock_n n t r else None
           | (Blocked, _) => None
           end
  end.

Fixpoint runlock_n (n : nat) (r : rmutex_t) : option rmutex_t :=
  match n with
  | O => Some r
  | S n => let '(ret, r) := nxrmutex_unlock r in
           if ret =? OK then runlock_n n r else None
  end.

Lemma rlock_n_held n t r ws c :
  rmutex_rep r (Some t) ws c -> c + Z.of_nat n < 2 ^ 32 ->
  exists r', rlock_n n t r = Some r' /\ rmutex_rep r' (Some t) ws (c + Z.of_nat n).
Proof.
  revert r c. induction n as [|n IH]; intros r c Hr Hc.
  - exists r. split; [done|]. by rewrite Z.add_0_r.
  - destruct (nxrmutex_lock_again r t ws c Hr) as (r1 & E & Hr1 & _); [lia|].
    destruct (IH r1 (c + 1) Hr1) as (r2 & E2 & Hr2); [lia|].
    exists r2. cbn [rlock_n]. rewrite E. split; [done|].
    replace (c + Z.of_nat (S n)) with (c + 1 + Z.of_nat n) by lia. done.
Qed.

Lemma runlock_n_partial n t r ws c :
  rmutex_rep r (Some t) ws (c + Z.of_nat (S n)) -> 0 <= c ->
  exists r', runlock_n n r = Some r' /\ rmutex_rep r' (Some t) ws (c + 1).
Proof.
  revert r. induction n as [|n IH]; intros r Hr Hc; [by exists r|].
  destruct (nxrmutex_unlock_inner r t ws _ Hr) as (r1 & E & Hr1 & _); [lia|].
  replace (c + Z.of_nat (S (S n)) - 1) with (c + Z.of_nat (S n)) in Hr1 by lia.
  destruct (IH r1 Hr1 Hc) as (r2 & E2 & Hr2).
  exists r2. cbn [runlock_n]. by rewrite E.
Qed.

(** What a task that does not hold a held recursive mutex gets. *)
Lemma nxrmutex_lock_other r h ws n u :
  rmutex_rep r (Some h) ws n -> mutex_task u (mutex r) -> u <> h -> u ∉ ws ->
  nxrmutex_trylock u r = (- EAGAIN, r) /\
  exists r' ws', nxrmutex_lock u r = (Blocked, r') /\ rmutex_rep r' (Some h) ws' n /\
    ws' ≡ₚ u :: ws.
Proof.
  intros Hr Hu Hne Hni. pose proof Hr as (Hk & Hc & Hp).
  pose proof (tid_ok_lt u (proj1 Hu)) as Hu0.
  assert (nxrmutex_is_hold u r = false) as Eh.
  { rewrite (rmutex_is_hold_rep _ _ _ _ _ Hr) by lia. apply bool_decide_false. congruence. }
  unfold nxrmutex_trylock, nxrmutex_lock. rewrite Eh. split.
  - destruct Hk as (Hm & _ & _ & _ & [Hh _] & _ & Hv & _).
    unfold nxmutex_trylock, nxsem_trywait. rewrite Hm, Hv, held_not_free by done.
    by destruct r.
  - destruct (nxmutex_lock_busy u _ h ws Hk Hu Hne Hni) as (k' & ws' & E & Hk' & Hp' & _).
    rewrite E. eexists _, ws'. split; [done|]. by split.
Qed.

(** C24: A recursive mutex counts its nesting: [n + 1] locks of a free mutex by
    one task all return [OK] without blocking and leave it held [n + 1] times
    (as long as the 32-bit count does not wrap), and as many unlocks make it
    free again, the last of them and no earlier one releasing it. *)
Theorem rmutex_nested t n r :
  rmutex_rep r None [] 0 -> lk_run t (mutex r) -> Z.of_nat (S n) < 2 ^ 32 ->
  exists r1 r2 r3,
    rlock_n (S n) t r = Some r1 /\ rmutex_rep r1 (Some t) [] (Z.of_nat (S n)) /\
    runlock_n n r1 = Some r2 /\ rmutex_rep r2 (Some t) [] 1 /\
    nxrmutex_unlock r2 = (OK, r3) /\ rmutex_rep r3 None [] 0.
Proof.
  intros Hr Ht Hn.
  destruct (nxrmutex_lock_first r t Hr Ht) as (r0 & E & Hr0 & _).
  destruct (rlock_n_held n t r0 [] 1 Hr0) as (r1 & E1 & Hr1); [lia|].
  replace (1 + Z.of_nat n) with (Z.of_nat (S n)) in Hr1 by lia.
  destruct (runlock_n_partial n t r1 [] 0) as (r2 & E2 & Hr2);
    [by rewrite Z.add_0_l|lia|].
  destruct (nxrmutex_unlock_last r2 t Hr2) as (r3 & E3 & Hr3).
  exists r1, r2, r3. cbn [rlock_n]. rewrite E. done.
Qed.

(** A free mutex shared by two tasks. *)
Definition free_mutex : ksem := snd (nxmutex_init (mk_ksem two_tasks (mk_sem 0 0 []))).
Definition free_rmutex : rmutex_t := snd (nxrmutex_init (mk_rmutex (mk_ksem two_tasks (mk_sem 0 0 [])) 0)).

Lemma free_rmutex_rep : rmutex_rep free_rmutex None [] 0.
Proof. split; [apply (nxmutex_init_rep (mk_ksem two_tasks (mk_sem 0 0 [])))|done]. Qed.

Lemma free_mutex_task t : t = 3 \/ t = 4 -> lk_run t free_mutex.
Proof.
  intros [-> | ->]; (split; [split; [by unfold tid_ok|eexists; by repeat split]|done]).
Qed.

Lemma rmutex_nested_witness :
  exists r1 r2 r3,
    rlock_n 3 3 free_rmutex = Some r1 /\ rmutex_rep r1 (Some 3) [] 3 /\
    runlock_n 2 r1 = Some r2 /\ rmutex_rep r2 (Some 3) [] 1 /\
    nxrmutex_unlock r2 = (OK, r3) /\ rmutex_rep r3 None [] 0.
Proof.
  apply (rmutex_nested 3 2 free_rmutex free_rmutex_rep (free_mutex_task 3 (or_introl eq_refl))).
  lia.
Defined.

(** C25: [nxrmutex_breaklock] followed by [nxrmutex_restorelock] brings a
    recursive mutex nobody else wants back to the holder and the nesting depth
    it had, and in between the mutex is free. *)
Theorem rmutex_break_restore t n r :
  rmutex_rep r (Some t) [] n -> mutex_task t (mutex r) ->
  exists r1 r2,
    nxrmutex_breaklock t r = (OK, n, r1) /\ rmutex_rep r1 None [] 0 /\
    nxrmutex_restorelock t n r1 = (Returned OK, r2) /\ rmutex_rep r2 (Some t) [] n.
Proof.
  intros Hr Ht. pose proof Hr as (Hk & Hc & Hp).
  pose proof (tid_ok_lt t (proj1 Ht)).
  destruct (nxmutex_unlock_free t _ Hk) as (k1 & E1 & Hk1 & Hu & Hub).
  destruct (nxmutex_lock_free t k1 Hk1 (Hu t Ht)) as (k2 & E2 & Hk2 & _);
    [rewrite Hub; by apply (nxmutex_holder_ready t _ [])|].
  exists (mk_rmutex k1 0), (mk_rmutex k2 n).
  unfold nxrmutex_breaklock, nxrmutex_restorelock.
  rewrite (rmutex_is_hold_rep _ _ _ _ t Hr), bool_decide_true, E1 by (done || lia).
  simpl. replace (n =? 0) with false by (symmetry; lia).
  rewrite E2, Hc. repeat (split; [done|]). done.
Qed.

Lemma rmutex_break_restore_witness :
  exists r1 r2,
    nxrmutex_breaklock 3 (mk_rmutex (snd (nxmutex_lock 3 free_mutex)) 5) = (OK, 5, r1) /\
    rmutex_rep r1 None [] 0 /\
    nxrmutex_restorelock 3 5 r1 = (Returned OK, r2) /\ rmutex_rep r2 (Some 3) [] 5.
Proof.
  destruct (nxmutex_lock_free 3 free_mutex (nxmutex_init_rep _)
              (proj1 (free_mutex_task 3 (or_introl eq_refl))) eq_refl) as (k' & E & Hk & Hu & _).
  rewrite E. apply rmutex_break_restore.
  - split; [exact Hk|]. by simpl.
  - apply Hu, free_mutex_task; auto.
Defined.

(** ** Timed locks *)

(** The mutex after a timed lock of [t] on a mutex held by [h] expired. *)
Lemma nxmutex_ticklock_timeout t h d k :
  mutex_rep k (Some h) [] -> mutex_task t k -> t <> h -> d <> 0 ->
  exists k1 k3,
    nxmutex_ticklock t d k = (Blocked, k1) /\ waitlist (sem k1) = [t] /\
    nxsem_tickwait_resume t (nxsem_timeout t k1) = (- ETIMEDOUT, k3) /\
    NXSEM_IS_MUTEX (sem k3) = true /\ waitlist (sem k3) = [] /\ val (sem k3) = h + 2 ^ 31.
Proof.
  intros (Hm & Hw & _ & _ & [Hh [bh Hbh]] & _ & Hv & _) (Ht & b & Hb & Hs & He) Hne Hd.
  simpl in Hv. rewrite Z.add_0_r in Hv.
  set (k0 := upd_task t (tcb_set_waitdog true) k).
  set (k1 := set_waitlist [t] (upd_task t tcb_block (set_val (h + 2 ^ 31) k0))).
  assert (Hb0 : tasks k0 !! t = Some (tcb_set_waitdog true b))
    by (simpl; rewrite lookup_alter_eq, Hb; done).
  assert (Hb1 : tasks k1 !! t = Some (tcb_block (tcb_set_waitdog true b)))
    by (simpl; rewrite lookup_alter_eq, lookup_alter_eq, Hb; done).
  assert (nxmutex_ticklock t d k = (Blocked, k1)) as E1.
  { unfold nxmutex_ticklock, nxsem_tickwait, nxsem_trywait.
    replace (d =? 0) with false by (symmetry; lia).
    rewrite Hm, Hv. replace (h =? NXSEM_NO_MHOLDER) with false
      by (symmetry; unfold tid_ok in Hh; lia). simpl (- EAGAIN =? OK). cbv iota.
    fold k0. unfold nxsem_wait. change (NXSEM_IS_MUTEX (sem k0)) with (NXSEM_IS_MUTEX (sem k)).
    change (val (sem k0)) with (val (sem k)). rewrite Hm, Hv.
    replace (h =? NXSEM_NO_MHOLDER) with false by (symmetry; unfold tid_ok in Hh; lia).
    unfold nxsem_wait_slow, sig_pending. rewrite Hb0. simpl sigpending. rewrite Hs.
    change (NXSEM_IS_MUTEX (sem k0)) with (NXSEM_IS_MUTEX (sem k)).
    change (val (sem k0)) with (val (sem k)). rewrite Hm, Hv.
    rewrite macquired_tid, lor_blocking by (auto with nx).
    rewrite mholder_tid_mod, Z.mod_small by (auto with nx).
    simpl. rewrite lookup_alter_ne, Hbh by done. simpl. by rewrite Hw. }
  exists k1. eexists. split; [exact E1|]. split; [done|].
  unfold nxsem_timeout. rewrite Hb1. simpl task_state. rewrite decide_True by done.
  unfold nxsem_wait_irq. change (NXSEM_IS_MUTEX (sem k1)) with (NXSEM_IS_MUTEX (sem k)).
  rewrite Hm. simpl ((ETIMEDOUT =? EINTR) || (ETIMEDOUT =? ECANCELED)). simpl andb. cbv iota.
  unfold nxsem_tickwait_resume, nxsem_wait_resume.
  cbn [tasks upd_task]. rewrite lookup_alter_eq.
  change (tasks (set_waitlist (dq_rem t (waitlist (sem k1))) k1)) with (tasks k1).
  rewrite Hb1. simpl. rewrite andb_false_r. split; [done|]. split; [done|].
  split; [|done]. unfold dq_rem. rewrite filter_cons, decide_False by congruence. done.
Qed.

(** A timed lock that expires leaves the blocking bit of the holder word
    set.  When the holder then unlocks, [nxmutex_unlock] takes the slow path,
    finds nobody to hand the mutex to and returns [OK] without clearing the
    word: the mutex still names the former holder and every later attempt to
    take it fails, although nobody waits and nobody is inside. *)
Theorem mutex_timedlock_stuck t h d k :
  mutex_rep k (Some h) [] -> mutex_task t k -> t <> h -> d <> 0 ->
  exists k1 k2 k3,
    nxmutex_ticklock t d k = (Blocked, k1) /\
    nxsem_tickwait_resume t (nxsem_timeout t k1) = (- ETIMEDOUT, k2) /\
    nxmutex_unlock k2 = (OK, k3) /\
    waitlist (sem k3) = [] /\ nxmutex_get_holder k3 = h /\ nxmutex_is_locked k3 = true /\
    forall u, nxmutex_trylock u k3 = (- EAGAIN, k3).
Proof.
  intros Hk Ht Hne Hd. pose proof Hk as (_ & _ & _ & _ & [Hh _] & _).
  destruct (nxmutex_ticklock_timeout t h d k Hk Ht Hne Hd)
    as (k1 & k2 & E1 & _ & E2 & Hm & Hw & Hv).
  exists k1, k2, (set_val (h + 2 ^ 31) k2). do 2 (split; [done|]).
  pose proof (held_blocking h [t] Hh) as Hbit. pose proof (held_lor h [t] Hh) as Hlor.
  pose proof (held_acquired h [t] Hh) as Hacq. pose proof (held_tid h [t] Hh) as Htid.
  pose proof (held_not_free h [t] Hh) as Hnf. cbn [wait_bit] in *.
  split; [|split; [|split; [|split]]]; try done.
  - unfold nxmutex_unlock, nxsem_post, nxsem_post_slow.
    rewrite Hm, Hv, Hbit, Hlor. simpl. by rewrite Hw.
  - unfold nxmutex_get_holder. simpl. rewrite Htid. by rewrite macquired_tid.
  - intros u. unfold nxmutex_trylock, nxsem_trywait.
    change (NXSEM_IS_MUTEX (sem (set_val (h + 2 ^ 31) k2))) with (NXSEM_IS_MUTEX (sem k2)).
    rewrite Hm. simpl val. by rewrite Hnf.
Qed.

Lemma mutex_timedlock_stuck_witness :
  exists k1 k2 k3,
    nxmutex_ticklock 4 100 (snd (nxmutex_lock 3 free_mutex)) = (Blocked, k1) /\
    nxsem_tickwait_resume 4 (nxsem_timeout 4 k1) = (- ETIMEDOUT, k2) /\
    nxmutex_unlock k2 = (OK, k3) /\
    waitlist (sem k3) = [] /\ nxmutex_get_holder k3 = 3 /\ nxmutex_is_locked k3 = true /\
    forall u, nxmutex_trylock u k3 = (- EAGAIN, k3).
Proof.
  destruct (nxmutex_lock_free 3 free_mutex (nxmutex_init_rep _)
              (proj1 (free_mutex_task 3 (or_introl eq_refl))) eq_refl) as (k' & E & Hk & Hu & _).
  rewrite E. apply (mutex_timedlock_stuck 4 3 100 k' Hk); [|lia|lia].
  apply Hu, free_mutex_task; auto.
Defined.
