(* ===== verification/RingBuffer.v ===== *)
(** The ring buffer shared by the camera and the subscriber task.

    Models apps/examples/camera_MSN2/ring_buffer.h and ring_buffer.c over any
    mutex with the interface [Lock]: [rb_init], [rb_write], [rb_read],
    [rb_count], [rb_full] and [rb_empty], each as the function it is, with its
    suspension in [nxmutex_lock] visible.  The contract is a bounded FIFO queue
    of chunks; the theorems show that every operation implements it, the wrap
    of the 32-bit pointers included, and what goes wrong when the lock is not
    obtained. *)

From S2P Require Import Prelude.
From S2P Require Import Semaphore.
From S2P Require Import Mutex.
From stdpp Require Import gmap.
Local Open Scope Z_scope.

(** ** Data *)

Definition RB_DEPTH : Z := 64.
Definition CHUNK_SIZE : Z := 256.

Record image_chunk_s := mk_chunk {
  data : list Z;
  len : Z;
  frame_id : Z;
  is_last : Z;
  is_meta : Z
}.

Record ring_buffer_s := mk_rb {
  slots : list image_chunk_s;
  wr_ptr : Z;
  rd_ptr : Z;
  count : Z
}.

#[export] Instance image_chunk_eq_dec : EqDecision image_chunk_s.
Proof. solve_decision. Defined.

(** The bytes of a chunk after [memset(&c, 0, sizeof(c))]. *)
Definition zero_chunk : image_chunk_s := mk_chunk (replicate (Z.to_nat CHUNK_SIZE) 0) 0 0 0 0.

#[export] Instance image_chunk_inhabited : Inhabited image_chunk_s := populate zero_chunk.

(** ** The critical sections

    [None] is an access outside [slots]. *)

Definition rb_write_body (c : image_chunk_s) (g : ring_buffer_s) : option (Z * ring_buffer_s) :=
  if RB_DEPTH <=? count g then Some (-1, g)
  else
    let slot := wr_ptr g mod RB_DEPTH in
    slots' ← store (slots g) slot c;
    Some (0, mk_rb slots' (u32 (wr_ptr g + 1)) (rd_ptr g) (u32 (count g + 1))).

Definition rb_read_body (g : ring_buffer_s) :
    option (Z * option image_chunk_s * ring_buffer_s) :=
  if count g =? 0 then Some (-1, None, g)
  else
    let slot := rd_ptr g mod RB_DEPTH in
    c ← load (slots g) slot;
    Some (0, Some c, mk_rb (slots g) (wr_ptr g) (u32 (rd_ptr g + 1)) (u32 (count g - 1))).

Definition rb_count_body (g : ring_buffer_s) : Z := s32 (count g).
Definition rb_full_body (g : ring_buffer_s) : Z := if RB_DEPTH <=? count g then 1 else 0.
Definition rb_empty_body (g : ring_buffer_s) : Z := if count g =? 0 then 1 else 0.

(** ** The functions *)

(** A call either returns or is suspended inside [nxmutex_lock]. *)
Inductive call (R : Type) := Done (r : R) | Suspended.
Arguments Done {R} r.
Arguments Suspended {R}.

Section ring_buffer.
Context {L : Type} `{!Lock L}.

(** The two static variables [g_rb] and [g_rb_lock]. *)
Record rb_state := mk_state { g_rb : ring_buffer_s; g_rb_lock : L }.

(** The shape all operations share: lock, critical section, unlock.  The
    results of [nxmutex_lock] and [nxmutex_unlock] are not looked at. *)
Definition locked {R} (t : Z) (body : ring_buffer_s -> option (R * ring_buffer_s))
    (s : rb_state) : option (call R * rb_state) :=
  match lk_lock t (g_rb_lock s) with
  | (Blocked, l) => Some (Suspended, mk_state (g_rb s) l)
  | (Returned _, l) =>
      '(r, g) ← body (g_rb s);
      Some (Done r, mk_state g (snd (lk_unlock l)))
  end.

(** The rest of a suspended call when the task runs again. *)
Definition locked_resume {R} (t : Z) (body : ring_buffer_s -> option (R * ring_buffer_s))
    (s : rb_state) : option (R * rb_state) :=
  let '(_, l) := lk_resume t (g_rb_lock s) in
  '(r, g) ← body (g_rb s);
  Some (r, mk_state g (snd (lk_unlock l))).

Definition rb_init (init : L -> Z * L) (s : rb_state) : rb_state :=
  mk_state (mk_rb (replicate (Z.to_nat RB_DEPTH) zero_chunk) 0 0 0)
    (snd (init (g_rb_lock s))).

(** The argument is [None] when the caller passes a null pointer. *)
Definition rb_write (t : Z) (c : option image_chunk_s) (s : rb_state) :
    option (call Z * rb_state) :=
  match c with
  | None => Some (Done (-1), s)
  | Some c => locked t (rb_write_body c) s
  end.

(** The result and what was stored through the pointer. *)
Definition rb_read (t : Z) (c : bool) (s : rb_state) :
    option (call (Z * option image_chunk_s) * rb_state) :=
  if c then locked t rb_read_body s else Some (Done (-1, None), s).

Definition rb_count (t : Z) : rb_state -> option (call Z * rb_state) :=
  locked t (fun g => Some (rb_count_body g, g)).
Definition rb_full (t : Z) : rb_state -> option (call Z * rb_state) :=
  locked t (fun g => Some (rb_full_body g, g)).
Definition rb_empty (t : Z) : rb_state -> option (call Z * rb_state) :=
  locked t (fun g => Some (rb_empty_body g, g)).
End ring_buffer.

Arguments rb_state L : clear implicits.

(** ** The contract: a queue of at most [RB_DEPTH] chunks *)

Definition q_write (c : image_chunk_s) (q : list image_chunk_s) : Z * list image_chunk_s :=
  if RB_DEPTH <=? zlen q then (-1, q) else (0, q ++ [c]).

Definition q_read (q : list image_chunk_s) : Z * option image_chunk_s * list image_chunk_s :=
  match q with
  | [] => (-1, None, [])
  | c :: q => (0, Some c, q)
  end.

(** The buffer holds the queue [q]. *)
Record rb_abs (g : ring_buffer_s) (q : list image_chunk_s) : Prop := {
  abs_slots : zlen (slots g) = RB_DEPTH;
  abs_depth : zlen q <= RB_DEPTH;
  abs_count : count g = zlen q;
  abs_wr : wr_ptr g = u32 (rd_ptr g + count g);
  abs_rd : 0 <= rd_ptr g < 2 ^ 32;
  abs_q : window (slots g) (rd_ptr g) (count g) = q
}.

(** The wrap of a pointer keeps its slot: the depth divides [2^32]. *)
Lemma u32_slot z : u32 z mod RB_DEPTH = z mod RB_DEPTH.
Proof. apply u32_mod; [done|]. by exists (2 ^ 26). Qed.

Lemma rb_init_abs : rb_abs (mk_rb (replicate (Z.to_nat RB_DEPTH) zero_chunk) 0 0 0) [].
Proof. constructor; vm_compute; (done || (split; done) || (split; congruence)). Qed.

Lemma rb_write_body_refines c g q :
  rb_abs g q ->
  exists g', rb_write_body c g = Some (fst (q_write c q), g') /\
             rb_abs g' (snd (q_write c q)).
Proof.
  intros H. pose proof H as [Hs Hd Hc Hw Hr Hq]. unfold rb_write_body, q_write.
  rewrite Hc. destruct (Z.leb_spec RB_DEPTH (zlen q)) as [|Hlt]; [by exists g|].
  assert (Hslot : wr_ptr g mod RB_DEPTH = (rd_ptr g + zlen q) mod zlen (slots g)).
  { by rewrite Hw, u32_slot, Hs, Hc. }
  rewrite store_in_range by (rewrite Hs; apply Z.mod_pos_bound; unfold RB_DEPTH; lia).
  simpl. eexists. split; [done|]. unfold RB_DEPTH in *.
  constructor; simpl; rewrite ?length_app, ?length_insert; simpl; unfold RB_DEPTH; try lia.
  - rewrite u32_small; lia.
  - rewrite Hw, Hc, u32_u32_add_l. rewrite (u32_small (zlen q + 1)) by lia. f_equal. lia.
  - rewrite (u32_small (zlen q + 1)) by lia. rewrite window_S_r by lia.
    rewrite length_insert. rewrite Hslot, window_insert_out by lia.
    rewrite list_lookup_total_insert_eq.
    + by rewrite <- Hc, Hq.
    + pose proof (Z.mod_pos_bound (rd_ptr g + zlen q) (zlen (slots g))). lia.
Qed.

Lemma rb_read_body_refines g q :
  rb_abs g q ->
  exists g', rb_read_body g = Some (fst (q_read q), g') /\ rb_abs g' (snd (q_read q)).
Proof.
  intros H. pose proof H as [Hs Hd Hc Hw Hr Hq]. unfold rb_read_body. rewrite Hc.
  destruct q as [|c q]; [by exists g|]. simpl length in *.
  rewrite (proj2 (Z.eqb_neq (Z.of_nat (S (length q))) 0)) by lia.
  replace (count g) with (1 + zlen q) in Hq by lia.
  rewrite window_S_l in Hq by lia. injection Hq as Hh Hq.
  pose proof (Z.mod_pos_bound (rd_ptr g) RB_DEPTH ltac:(unfold RB_DEPTH; lia)).
  rewrite Hs in Hh. unfold load.
  replace ((0 <=? rd_ptr g mod RB_DEPTH) && (rd_ptr g mod RB_DEPTH <? zlen (slots g)))
    with true by (symmetry; lia).
  rewrite (list_lookup_lookup_total_lt (slots g)) by lia. rewrite Hh. simpl.
  eexists. split; [done|]. unfold RB_DEPTH in *.
  constructor; simpl; unfold RB_DEPTH; try lia; auto with nx.
  - rewrite u32_small; lia.
  - rewrite u32_u32_add_l. rewrite (u32_small (_ - 1)) by lia. rewrite Hw. f_equal. lia.
  - rewrite (u32_small (_ - 1)) by lia.
    replace (Z.of_nat (S (length q)) - 1) with (zlen q) by lia.
    etransitivity; [|exact Hq]. apply window_mod. rewrite Hs. apply u32_slot.
Qed.

(** ** The functions implement the contract *)

Section contract.
Context {L : Type} `{!Lock L}.

(** Nobody is inside and nobody waits. *)
Definition rb_free (s : rb_state L) (q : list image_chunk_s) : Prop :=
  rb_abs (g_rb s) q /\ lk_rep (g_rb_lock s) None [].

(** An operation on a free buffer runs its critical section and leaves the
    buffer free again. *)
Lemma locked_free {R} t body (s : rb_state L) (r : R) g' :
  lk_rep (g_rb_lock s) None [] -> lk_run t (g_rb_lock s) ->
  body (g_rb s) = Some (r, g') ->
  exists s', locked t body s = Some (Done r, s') /\ g_rb s' = g' /\
    lk_rep (g_rb_lock s') None [] /\
    (forall u, lk_run u (g_rb_lock s) -> lk_run u (g_rb_lock s')).
Proof.
  intros Hl [Ht Hr] Hb. unfold locked.
  destruct (lk_lock_free t _ Hl Ht Hr) as (l1 & -> & Hl1 & Hu1 & Hb1). rewrite Hb. simpl.
  destruct (lk_unlock_free t _ Hl1) as (l2 & E2 & Hl2 & Hu2 & Hb2). rewrite E2.
  eexists. split; [done|]. split; [done|]. split; [done|].
  intros u [H1 H2]. split; [by apply Hu2, Hu1|]. simpl. by rewrite Hb2, Hb1.
Qed.

(** A call on a buffer another task is inside is suspended and changes
    nothing but the list of waiters. *)
Lemma locked_busy {R} t h ws body (s : rb_state L) :
  lk_rep (g_rb_lock s) (Some h) ws -> lk_task t (g_rb_lock s) -> t <> h -> t ∉ ws ->
  exists s' ws', locked (R := R) t body s = Some (Suspended, s') /\ g_rb s' = g_rb s /\
    lk_rep (g_rb_lock s') (Some h) ws' /\ ws' ≡ₚ t :: ws.
Proof.
  intros Hl Ht Hne Hni. unfold locked.
  destruct (lk_lock_busy t _ h ws Hl Ht Hne Hni) as (l1 & ws' & -> & Hl1 & Hp & _ & _).
  eexists _, ws'. split; [done|]. done.
Qed.
End contract.

(** ** Sequences of operations *)

Inductive rb_op :=
| OpWrite (c : option image_chunk_s)
| OpRead (c : bool)
| OpCount
| OpFull
| OpEmpty.

(** The result of a call and, for [rb_read], what it stored. *)
Abbreviation rb_res := (Z * option image_chunk_s)%type.

Definition q_exec (o : rb_op) (q : list image_chunk_s) : rb_res * list image_chunk_s :=
  match o with
  | OpWrite None | OpRead false => ((-1, None), q)
  | OpWrite (Some c) => let '(r, q) := q_write c q in ((r, None), q)
  | OpRead true => q_read q
  | OpCount => ((zlen q, None), q)
  | OpFull => ((if zlen q =? RB_DEPTH then 1 else 0, None), q)
  | OpEmpty => ((if zlen q =? 0 then 1 else 0, None), q)
  end.

Definition no_out (r : option (call Z * rb_state ksem)) : option (call rb_res * rb_state ksem) :=
  '(c, s) ← r;
  Some (match c with Done z => Done (z, None) | Suspended => Suspended end, s).

Definition rb_exec (t : Z) (o : rb_op) (s : rb_state ksem) :
    option (call rb_res * rb_state ksem) :=
  match o with
  | OpWrite c => no_out (rb_write t c s)
  | OpRead c => rb_read t c s
  | OpCount => no_out (rb_count t s)
  | OpFull => no_out (rb_full t s)
  | OpEmpty => no_out (rb_empty t s)
  end.

(** Calls one after the other, by any tasks; [None] when one does not return. *)
Fixpoint rb_run (ops : list (Z * rb_op)) (s : rb_state ksem) :
    option (list rb_res * rb_state ksem) :=
  match ops with
  | [] => Some ([], s)
  | (t, o) :: ops =>
      match rb_exec t o s with
      | Some (Done r, s) => '(rs, s) ← rb_run ops s; Some (r :: rs, s)
      | _ => None
      end
  end.

Fixpoint q_run (ops : list (Z * rb_op)) (q : list image_chunk_s) :
    list rb_res * list image_chunk_s :=
  match ops with
  | [] => ([], q)
  | (_, o) :: ops => let '(r, q) := q_exec o q in
                     let '(rs, q) := q_run ops q in (r :: rs, q)
  end.

Lemma rb_exec_refines t o s q :
  rb_free s q -> lk_run t (g_rb_lock s) ->
  exists s', rb_exec t o s = Some (Done (fst (q_exec o q)), s') /\
    rb_free s' (snd (q_exec o q)) /\
    (forall u, lk_run u (g_rb_lock s) -> lk_run u (g_rb_lock s')).
Proof.
  intros [Ha Hl] Ht. pose proof Ha as [_ Hd Hc _ _ _].
  assert (Hq : forall z : Z, exists s',
    locked t (fun g => Some (z, g)) s = Some (Done z, s') /\ rb_free s' q /\
    (forall u, lk_run u (g_rb_lock s) -> lk_run u (g_rb_lock s'))).
  { intros z. destruct (locked_free t (fun g => Some (z, g)) s z (g_rb s) Hl Ht eq_refl)
      as (s' & E & Hg & Hl' & Hu). exists s'. rewrite E. by rewrite <- Hg in Ha. }
  destruct o as [[c|]|[]| | |]; cbn [rb_exec q_exec rb_write rb_read];
    try (exists s; done).
  - destruct (rb_write_body_refines c _ q Ha) as (g' & Eb & Ha').
    destruct (locked_free t _ s _ g' Hl Ht Eb) as (s' & E & Hg & Hl' & Hu).
    exists s'. rewrite E. subst g'. simpl. by destruct (q_write c q).
  - destruct (rb_read_body_refines _ q Ha) as (g' & Eb & Ha').
    destruct (locked_free t _ s _ g' Hl Ht Eb) as (s' & E & Hg & Hl' & Hu).
    exists s'. rewrite E. by subst g'.
  - destruct (Hq (zlen q)) as (s' & E & H). exists s'.
    unfold rb_count, locked, rb_count_body in *. rewrite Hc, s32_small by (unfold RB_DEPTH in Hd; lia).
    by rewrite E.
  - destruct (Hq (if zlen q =? RB_DEPTH then 1 else 0)) as (s' & E & H). exists s'.
    unfold rb_full, locked, rb_full_body in *. rewrite Hc.
    replace (RB_DEPTH <=? zlen q) with (zlen q =? RB_DEPTH) by lia. by rewrite E.
  - destruct (Hq (if zlen q =? 0 then 1 else 0)) as (s' & E & H). exists s'.
    unfold rb_empty, locked, rb_empty_body in *. rewrite Hc. by rewrite E.
Qed.

Lemma rb_run_refines ops s q :
  rb_free s q -> Forall (fun '(t, _) => lk_run t (g_rb_lock s)) ops ->
  exists s', rb_run ops s = Some (fst (q_run ops q), s') /\ rb_free s' (snd (q_run ops q)).
Proof.
  revert s q. induction ops as [|[t o] ops IH]; intros s q Hs Ht; [by exists s|].
  apply Forall_cons in Ht as [Ht Hts].
  destruct (rb_exec_refines t o s q Hs Ht) as (s1 & E & Hs1 & Hu).
  destruct (IH s1 (snd (q_exec o q)) Hs1) as (s2 & E2 & Hs2).
  { eapply Forall_impl; [exact Hts|]. intros [u p]. apply Hu. }
  exists s2. cbn [rb_run q_run]. rewrite E.
  destruct (q_exec o q) as [r q1]. simpl in *. rewrite E2.
  by destruct (q_run ops q1).
Qed.

(** C17: After [rb_init], any sequence of [rb_write], [rb_read], [rb_count],
    [rb_full] and [rb_empty] calls, by any ready tasks and with null pointers
    included, returns without undefined behaviour exactly what a FIFO queue of
    at most 64 chunks returns: -1 for a write when 64 are queued or a read when
    none is, the oldest chunk unchanged for a read, and the number of chunks;
    the wrap of the 32-bit pointers never shows. *)
Theorem rb_refines_fifo ops s :
  Forall (fun '(t, _) => lk_run t (snd (nxmutex_init (g_rb_lock s)))) ops ->
  exists s', rb_run ops (rb_init nxmutex_init s) = Some (fst (q_run ops []), s') /\
             rb_abs (g_rb s') (snd (q_run ops [])).
Proof.
  intros Ht. destruct (rb_run_refines ops (rb_init nxmutex_init s) []) as (s' & E & [Ha _]).
  - split; [exact rb_init_abs|apply nxmutex_init_rep].
  - exact Ht.
  - by exists s'.
Qed.

(** The static variables before [rb_init], and a chunk to send. *)
Definition bss_state : rb_state ksem :=
  mk_state (mk_rb (replicate (Z.to_nat RB_DEPTH) zero_chunk) 0 0 0)
    (mk_ksem two_tasks (mk_sem 0 0 [])).
Definition chunk_of (x : Z) : image_chunk_s :=
  mk_chunk (x :: replicate 255 0) 1 1 0 0.

Lemma rb_refines_fifo_witness :
  exists s', rb_run [(3, OpWrite (Some (chunk_of 7))); (4, OpWrite (Some (chunk_of 8)));
                     (3, OpCount); (4, OpRead true); (4, OpRead true); (3, OpRead true)]
               (rb_init nxmutex_init bss_state) =
             Some ([(0, None); (0, None); (2, None); (0, Some (chunk_of 7));
                    (0, Some (chunk_of 8)); (-1, None)], s').
Proof.
  destruct (rb_refines_fifo
    [(3, OpWrite (Some (chunk_of 7))); (4, OpWrite (Some (chunk_of 8)));
     (3, OpCount); (4, OpRead true); (4, OpRead true); (3, OpRead true)] bss_state)
    as (s' & E & _); [|by exists s'].
  repeat (apply Forall_cons; split; [apply free_mutex_task; auto|]). by apply Forall_nil.
Defined.

(** ** The order of the chunks *)

(** The chunks a run stored, and those it read, in order. *)
Fixpoint written (ops : list (Z * rb_op)) (rs : list rb_res) : list image_chunk_s :=
  match ops, rs with
  | (_, OpWrite (Some c)) :: ops, (0, _) :: rs => c :: written ops rs
  | _ :: ops, _ :: rs => written ops rs
  | _, _ => []
  end.

Definition read_out (rs : list rb_res) : list image_chunk_s := omap snd rs.

Lemma q_run_order ops q :
  read_out (fst (q_run ops q)) ++ snd (q_run ops q) = q ++ written ops (fst (q_run ops q)).
Proof.
  revert q. induction ops as [|[t o] ops IH]; intros q; cbn [q_run].
  { simpl. by rewrite app_nil_r. }
  destruct o as [[c|]|[]| | |]; simpl.
  2, 4, 5, 6, 7: (specialize (IH q); destruct (q_run ops q); exact IH).
  - unfold q_write. destruct (Z.leb_spec RB_DEPTH (zlen q)).
    + specialize (IH q). destruct (q_run ops q). exact IH.
    + specialize (IH (q ++ [c])). destruct (q_run ops (q ++ [c])). simpl in *.
      rewrite IH, <- app_assoc. done.
  - destruct q as [|c q]; simpl.
    + specialize (IH []). destruct (q_run ops []). exact IH.
    + specialize (IH q). destruct (q_run ops q). simpl in *. by rewrite IH.
Qed.

(** C26: Nothing is lost, duplicated, reordered or altered: in every run from
    [rb_init], the chunks read so far followed by the chunks still queued are
    the chunks whose write returned 0, in the order of the writes. *)
Theorem rb_run_order ops s :
  Forall (fun '(t, _) => lk_run t (snd (nxmutex_init (g_rb_lock s)))) ops ->
  exists rs s' q, rb_run ops (rb_init nxmutex_init s) = Some (rs, s') /\
    rb_abs (g_rb s') q /\ read_out rs ++ q = written ops rs.
Proof.
  intros Ht. destruct (rb_run_refines ops (rb_init nxmutex_init s) []) as (s' & E & [Ha _]).
  - split; [exact rb_init_abs|apply nxmutex_init_rep].
  - exact Ht.
  - eexists _, s', _. split; [exact E|]. split; [exact Ha|]. apply (q_run_order ops []).
Qed.

Lemma rb_run_order_witness :
  exists rs s' q,
    rb_run [(3, OpWrite (Some (chunk_of 7))); (4, OpRead true); (3, OpWrite (Some (chunk_of 9)))]
      (rb_init nxmutex_init bss_state) = Some (rs, s') /\
    rb_abs (g_rb s') q /\
    read_out rs ++ q =
      written [(3, OpWrite (Some (chunk_of 7))); (4, OpRead true);
               (3, OpWrite (Some (chunk_of 9)))] rs.
Proof.
  apply rb_run_order.
  repeat (apply Forall_cons; split; [apply free_mutex_task; auto|]). by apply Forall_nil.
Defined.

(** ** A lock that is not obtained *)

(** The slow path of a lock with a signal pending returns without waiting. *)
Lemma nxmutex_lock_eintr k h t :
  NXSEM_IS_MUTEX (sem k) = true -> tid_ok h -> val (sem k) = h -> sig_pending t k = true ->
  nxmutex_lock t k = (Returned (- EINTR), k).
Proof.
  intros Hm Hh Hv Hs. unfold nxmutex_lock, nxsem_wait. rewrite Hm, Hv.
  replace (h =? NXSEM_NO_MHOLDER) with false by (symmetry; unfold tid_ok in Hh; lia).
  unfold nxsem_wait_slow. by rewrite Hs.
Qed.

(** C39: [rb_write] and [rb_read] do not look at the result of [nxmutex_lock].
    When a signal is pending for the caller while another task is inside,
    [nxmutex_lock] returns [-EINTR] and the write goes ahead: it changes the
    buffer the other task is working on and its unlock frees the other task's
    mutex. *)
Theorem rb_write_ignores_eintr t h c s q :
  rb_abs (g_rb s) q -> zlen q < RB_DEPTH ->
  mutex_rep (g_rb_lock s) (Some h) [] -> sig_pending t (g_rb_lock s) = true ->
  nxmutex_lock t (g_rb_lock s) = (Returned (- EINTR), g_rb_lock s) /\
  exists s', rb_write t (Some c) s = Some (Done 0, s') /\
    rb_abs (g_rb s') (q ++ [c]) /\ mutex_rep (g_rb_lock s') None [].
Proof.
  intros Ha Hq Hl Hs. pose proof Hl as (Hm & _ & _ & _ & [Hh _] & _ & Hv & _).
  simpl in Hv. rewrite Z.add_0_r in Hv.
  pose proof (nxmutex_lock_eintr _ h t Hm Hh Hv Hs) as El. split; [done|].
  destruct (rb_write_body_refines c _ q Ha) as (g' & Eb & Ha').
  unfold q_write in *. replace (RB_DEPTH <=? zlen q) with false in * by (symmetry; lia).
  destruct (nxmutex_unlock_free h _ Hl) as (l' & Eu & Hl' & _).
  exists (mk_state g' l'). unfold rb_write, locked. simpl lk_lock. rewrite El, Eb.
  simpl. by rewrite Eu.
Qed.

(** The camera task is inside and a signal is pending for task 4. *)
Definition signalled : rb_state ksem :=
  mk_state (g_rb (rb_init nxmutex_init bss_state))
    (snd (nxmutex_lock 3 (upd_task 4 (fun b => mk_tcb (sched_priority b) (task_state b)
       (errcode b) (waitobj b) (waitdog b) true) free_mutex))).

Lemma rb_write_ignores_eintr_witness :
  exists s', rb_write 4 (Some (chunk_of 7)) signalled = Some (Done 0, s') /\
    rb_abs (g_rb s') [chunk_of 7] /\ mutex_rep (g_rb_lock s') None [].
Proof.
  apply (rb_write_ignores_eintr 4 3 (chunk_of 7) signalled []).
  - exact rb_init_abs.
  - done.
  - split; [done|]. split; [done|]. split; [constructor|]. split; [constructor|].
    split; [split; [by unfold tid_ok|by eexists]|]. split; [apply not_elem_of_nil|]. done.
  - done.
Defined.

(** ** A read before the initialisation *)

(** Operations on a free buffer leave every task control block alone. *)
Lemma locked_tasks {R} t body (s : rb_state ksem) (r : call R) s' :
  lk_rep (g_rb_lock s) None [] -> locked t body s = Some (r, s') ->
  tasks (g_rb_lock s') = tasks (g_rb_lock s).
Proof.
  intros (Hm & Hw & _ & _ & Hv & _) E. unfold locked in E.
  simpl lk_lock in E. unfold nxmutex_lock, nxsem_wait in E. rewrite Hm, Hv in E. simpl in E.
  destruct (body (g_rb s)) as [[x g]|]; [|done]. simpl in E.
  injection E as <- <-. simpl. unfold nxmutex_unlock, nxsem_post, nxsem_post_slow.
  repeat (case_goal; simpl in *; try done).
  all: congruence.
Qed.

Lemma rb_exec_tasks t o s r s' :
  lk_rep (g_rb_lock s) None [] -> rb_exec t o s = Some (r, s') ->
  tasks (g_rb_lock s') = tasks (g_rb_lock s).
Proof.
  intros Hl. unfold rb_exec, rb_write, rb_read, rb_count, rb_full, rb_empty, no_out.
  destruct o as [[c|]|[]| | |]; try (intros [= _ <-]; done);
    try (destruct (locked t _ s) as [[c' s1]|] eqn:E; [|done]; intros [= _ <-];
         by eapply locked_tasks).
Qed.

Lemma rb_run_tasks ops s q :
  rb_free s q -> Forall (fun '(t, _) => lk_run t (g_rb_lock s)) ops ->
  forall rs s', rb_run ops s = Some (rs, s') -> tasks (g_rb_lock s') = tasks (g_rb_lock s).
Proof.
  revert s q. induction ops as [|[t o] ops IH]; intros s q Hs Ht rs s'; [by intros [= _ <-]|].
  apply Forall_cons in Ht as [Ht Hts].
  destruct (rb_exec_refines t o s q Hs Ht) as (s1 & E & Hs1 & Hu). cbn [rb_run]. rewrite E.
  destruct (rb_run ops s1) as [[rs1 s2]|] eqn:E2; [|done]. intros [= _ <-].
  rewrite <- (rb_exec_tasks t o s _ s1 (proj2 Hs) E).
  eapply IH; [exact Hs1| |exact E2].
  eapply Forall_impl; [exact Hts|]. intros [u p]. apply Hu.
Qed.

(** C40: A task that calls [rb_read] before the camera task has called
    [rb_init] never returns: the zeroed lock is a counting semaphore with
    count 0, so the task is suspended on it, [rb_init] then empties the list of
    waiters it is on, and after any further operations of the other tasks it is
    still waiting, on no list. *)
Theorem rb_read_before_init_lost t ops s :
  sem (g_rb_lock s) = mk_sem 0 0 [] -> lk_run t (g_rb_lock s) ->
  Forall (fun '(u, _) => u <> t /\ lk_run u (g_rb_lock s)) ops ->
  exists s1 rs s2,
    rb_read t true s = Some (Suspended, s1) /\ waitlist (sem (g_rb_lock s1)) = [t] /\
    rb_run ops (rb_init nxmutex_init s1) = Some (rs, s2) /\
    waitlist (sem (g_rb_lock s2)) = [] /\
    exists b, tasks (g_rb_lock s2) !! t = Some b /\ task_state b = TSTATE_WAIT_SEM /\
              waitobj b = true.
Proof.
  intros Hs [(Ht & b & Hb & Hsig & He) Hrun] Hops.
  set (l1 := set_waitlist [t] (upd_task t tcb_block (set_val (-1) (g_rb_lock s)))).
  set (s1 := mk_state (g_rb s) l1) in *.
  assert (Er : rb_read t true s = Some (Suspended, s1)).
  { unfold rb_read, locked. simpl lk_lock. unfold nxmutex_lock, nxsem_wait, nxsem_wait_slow.
    unfold sig_pending. rewrite Hb, Hsig. unfold s1, l1, set_waitlist, set_val, upd_task.
    simpl. rewrite Hs. done. }
  assert (Hf : rb_free (rb_init nxmutex_init s1) [])
    by (split; [exact rb_init_abs|apply nxmutex_init_rep]).
  assert (Ht1 : Forall (fun '(u, _) => lk_run u (g_rb_lock (rb_init nxmutex_init s1))) ops).
  { eapply Forall_impl; [exact Hops|]. intros [u o] [Hne [(Hu & bu & Hbu & Hr) Hru]].
    split; [split; [done|]; exists bu; split; [|done]; simpl; by rewrite lookup_alter_ne by congruence|].
    exact (eq_trans (blocked_upd_ne (set_val (-1) (g_rb_lock s)) t tcb_block u Hne) Hru). }
  destruct (rb_run_refines ops _ [] Hf Ht1) as (s2 & E2 & [_ Hl2]).
  exists s1. eexists _, s2. do 2 (split; [done|]). split; [exact E2|]. split; [apply Hl2|].
  exists (tcb_block b). rewrite (rb_run_tasks ops _ [] Hf Ht1 _ _ E2). simpl.
  by rewrite lookup_alter_eq, Hb.
Qed.

Lemma rb_read_before_init_lost_witness :
  exists s1 rs s2,
    rb_read 4 true bss_state = Some (Suspended, s1) /\ waitlist (sem (g_rb_lock s1)) = [4] /\
    rb_run [(3, OpWrite (Some (chunk_of 7)))] (rb_init nxmutex_init s1) = Some (rs, s2) /\
    waitlist (sem (g_rb_lock s2)) = [] /\
    exists b, tasks (g_rb_lock s2) !! 4 = Some b /\ task_state b = TSTATE_WAIT_SEM /\
              waitobj b = true.
Proof.
  apply (rb_read_before_init_lost 4 [(3, OpWrite (Some (chunk_of 7)))] bss_state).
  - reflexivity.
  - apply (free_mutex_task 4 (or_intror eq_refl)).
  - apply Forall_cons. split; [|by apply Forall_nil].
    split; [lia|]. apply (free_mutex_task 3 (or_introl eq_refl)).
Defined.
