(* ===== verification/Concurrent.v ===== *)
(** The ring buffer under preemption.

    Any number of tasks call the operations of ring_buffer.c, and a task switch
    may happen between any two of their statements: a step of the system is
    one statement of one task that the scheduler may run.  The theorems show
    that the operations are atomic all the same (every reachable history is a
    history of the bounded queue), that at most one task is between its lock and
    its unlock, and that some task can always go on. *)

From S2P Require Import Prelude.
From S2P Require Import Semaphore.
From S2P Require Import Mutex.
From S2P Require Import RingBuffer.
From stdpp Require Import gmap.
Local Open Scope Z_scope.

(** Where a task is in the operation it executes. *)
Inductive pc :=
| Idle
| Waiting (o : rb_op)                            (* suspended in nxmutex_lock *)
| Entered (o : rb_op)                            (* nxmutex_lock has returned *)
| WCopied (c : image_chunk_s)                    (* after memcpy into the slot *)
| WAdvanced (c : image_chunk_s)                  (* after wr_ptr++ *)
| RCopied (c : image_chunk_s)                    (* after memcpy from the slot *)
| RAdvanced (c : image_chunk_s)                  (* after rd_ptr++ *)
| Leaving (o : rb_op) (r : rb_res).              (* before nxmutex_unlock *)

#[export] Instance rb_op_eq_dec : EqDecision rb_op.
Proof. solve_decision. Defined.

#[export] Instance pc_eq_dec : EqDecision pc.
Proof. solve_decision. Defined.

Definition event := (Z * rb_op * rb_res)%type.

Definition ev_op (e : event) : Z * rb_op := fst e.
Definition ev_res (e : event) : rb_res := snd e.

(** The history is one of the bounded queue, which then holds [q]. *)
Definition legal (h : list event) (q : list image_chunk_s) : Prop :=
  q_run (map ev_op h) [] = (map ev_res h, q).

Definition inside (p : pc) : bool :=
  match p with Idle | Waiting _ => false | _ => true end.

(** The operations that take the lock; the others are calls with a null
    pointer, which return at once. *)
Definition takes_lock (o : rb_op) : bool :=
  match o with OpWrite None | OpRead false => false | _ => true end.

Section system.
Context {L : Type} `{!Lock L}.

Record conf := mk_conf {
  cf_g : ring_buffer_s;
  cf_l : L;
  cf_pc : gmap Z pc;
  cf_hist : list event
}.

(** One statement of a task that is inside an operation. *)
Definition pc_step (t : Z) (p : pc) (g : ring_buffer_s) (l : L) :
    option (pc * ring_buffer_s * L * list event) :=
  match p with
  | Idle => None
  | Waiting o => let '(_, l) := lk_resume t l in Some (Entered o, g, l, [])
  | Entered (OpWrite (Some c)) =>
      if RB_DEPTH <=? count g then Some (Leaving (OpWrite (Some c)) (-1, None), g, l, [])
      else s ← store (slots g) (wr_ptr g mod RB_DEPTH) c;
           Some (WCopied c, mk_rb s (wr_ptr g) (rd_ptr g) (count g), l, [])
  | WCopied c =>
      Some (WAdvanced c, mk_rb (slots g) (u32 (wr_ptr g + 1)) (rd_ptr g) (count g), l, [])
  | WAdvanced c =>
      Some (Leaving (OpWrite (Some c)) (0, None),
            mk_rb (slots g) (wr_ptr g) (rd_ptr g) (u32 (count g + 1)), l, [])
  | Entered (OpRead true) =>
      if count g =? 0 then Some (Leaving (OpRead true) (-1, None), g, l, [])
      else c ← load (slots g) (rd_ptr g mod RB_DEPTH); Some (RCopied c, g, l, [])
  | RCopied c =>
      Some (RAdvanced c, mk_rb (slots g) (wr_ptr g) (u32 (rd_ptr g + 1)) (count g), l, [])
  | RAdvanced c =>
      Some (Leaving (OpRead true) (0, Some c),
            mk_rb (slots g) (wr_ptr g) (rd_ptr g) (u32 (count g - 1)), l, [])
  | Entered OpCount => Some (Leaving OpCount (rb_count_body g, None), g, l, [])
  | Entered OpFull => Some (Leaving OpFull (rb_full_body g, None), g, l, [])
  | Entered OpEmpty => Some (Leaving OpEmpty (rb_empty_body g, None), g, l, [])
  | Entered _ => None
  | Leaving o r => Some (Idle, g, snd (lk_unlock l), [(t, o, r)])
  end.

(** A task the scheduler may run goes on with its operation. *)
Inductive crun : conf -> conf -> Prop :=
| crun_intro t p g l pcs h p' g' l' ev :
    pcs !! t = Some p -> lk_blocked t l = false ->
    pc_step t p g l = Some (p', g', l', ev) ->
    crun (mk_conf g l pcs h) (mk_conf g' l' (<[t := p']> pcs) (h ++ ev)).

(** A step of the system: an idle task calls an operation, or a task goes on. *)
Inductive cstep : conf -> conf -> Prop :=
| cs_call t o g l pcs h w l' :
    pcs !! t = Some Idle -> takes_lock o = true -> lk_blocked t l = false ->
    lk_lock t l = (w, l') ->
    cstep (mk_conf g l pcs h)
      (mk_conf g l' (<[t := match w with Blocked => Waiting o | _ => Entered o end]> pcs) h)
| cs_null t o g l pcs h :
    pcs !! t = Some Idle -> takes_lock o = false -> lk_blocked t l = false ->
    cstep (mk_conf g l pcs h) (mk_conf g l pcs (h ++ [(t, o, (-1, None))]))
| cs_run cf cf' : crun cf cf' -> cstep cf cf'.

(** What the buffer looks like while a task is at [p]; the queue is [q]
    before the effect of its operation. *)
Definition shape (p : pc) (g : ring_buffer_s) (q : list image_chunk_s) : Prop :=
  match p with
  | Idle => False
  | Waiting o | Entered o => takes_lock o = true /\ rb_abs g q
  | WCopied c => zlen q < RB_DEPTH /\ exists g', rb_abs g' (q ++ [c]) /\
      g' = mk_rb (slots g) (u32 (wr_ptr g + 1)) (rd_ptr g) (u32 (count g + 1))
  | WAdvanced c => zlen q < RB_DEPTH /\ exists g', rb_abs g' (q ++ [c]) /\
      g' = mk_rb (slots g) (wr_ptr g) (rd_ptr g) (u32 (count g + 1))
  | RCopied c => exists q' g', q = c :: q' /\ rb_abs g' q' /\
      g' = mk_rb (slots g) (wr_ptr g) (u32 (rd_ptr g + 1)) (u32 (count g - 1))
  | RAdvanced c => exists q' g', q = c :: q' /\ rb_abs g' q' /\
      g' = mk_rb (slots g) (wr_ptr g) (rd_ptr g) (u32 (count g - 1))
  | Leaving o r => exists q', q_exec o q = (r, q') /\ rb_abs g q'
  end.

Record cinv (cf : conf) (h : option Z) (ws : list Z) (q : list image_chunk_s) : Prop := {
  ci_rep : lk_rep (cf_l cf) h ws;
  ci_none : h = None -> ws = [];
  ci_task : forall t p, cf_pc cf !! t = Some p -> lk_task t (cf_l cf);
  ci_idle : forall t p, cf_pc cf !! t = Some p ->
    t ∈ ws \/ h = Some t \/ (p = Idle /\ lk_blocked t (cf_l cf) = false);
  ci_wait : forall t, t ∈ ws -> exists o, cf_pc cf !! t = Some (Waiting o) /\ takes_lock o = true;
  ci_hold : match h with
            | Some t => exists p, cf_pc cf !! t = Some p /\ shape p (cf_g cf) q
            | None => rb_abs (cf_g cf) q
            end;
  ci_hist : legal (cf_hist cf) q
}.

(** Where the operations leave the shape of the buffer. *)
Lemma shape_step t p g l q p' g' l' ev :
  shape p g q -> inside p = true -> (forall o r, p <> Leaving o r) ->
  pc_step t p g l = Some (p', g', l', ev) ->
  shape p' g' q /\ l' = l /\ ev = [].
Proof.
  intros Hs Hi Hl E. destruct p as [| |o|c|c|c|c|o r]; try done.
  - destruct Hs as [Ho Ha]. destruct o as [[c|]|[]| | |]; try done; simpl in E.
    + destruct (rb_write_body_refines c g q Ha) as (g1 & Eb & Ha1).
      unfold rb_write_body, q_write in *. rewrite (abs_count _ _ Ha) in *.
      destruct (Z.leb_spec RB_DEPTH (zlen q)).
      * injection E as <- <- <- <-. split; [|done]. exists q. simpl. unfold q_write.
        by replace (RB_DEPTH <=? zlen q) with true by (symmetry; lia).
      * destruct (store (slots g) _ c) as [s|]; [|done]. simpl in *.
        injection E as <- <- <- <-. injection Eb as <-. split; [|done].
        split; [done|]. by eexists.
    + destruct (rb_read_body_refines g q Ha) as (g1 & Eb & Ha1).
      unfold rb_read_body in Eb. rewrite (abs_count _ _ Ha) in *.
      destruct q as [|c q]; simpl in E.
      * injection E as <- <- <- <-. split; [|done]. by exists [].
      * replace (zlen (c :: q) =? 0) with false in Eb by done.
        destruct (load (slots g) _) as [x|]; [|done]. simpl in *.
        injection E as <- <- <- <-. injection Eb as -> <-. split; [|done].
        exists q. eexists. split; [done|]. split; [exact Ha1|].
        by rewrite (abs_count _ _ Ha).
    + injection E as <- <- <- <-. split; [|done]. exists q. split; [|done]. simpl.
      unfold rb_count_body. rewrite (abs_count _ _ Ha).
      pose proof (abs_depth _ _ Ha). unfold RB_DEPTH in *. by rewrite s32_small by lia.
    + injection E as <- <- <- <-. split; [|done]. exists q. split; [|done]. simpl.
      unfold rb_full_body. rewrite (abs_count _ _ Ha). pose proof (abs_depth _ _ Ha).
      by replace (RB_DEPTH <=? zlen q) with (zlen q =? RB_DEPTH) by lia.
    + injection E as <- <- <- <-. split; [|done]. exists q. split; [|done]. simpl.
      unfold rb_empty_body. by rewrite (abs_count _ _ Ha).
  - injection E as <- <- <- <-. split; [|done]. exact Hs.
  - injection E as <- <- <- <-. split; [|done]. destruct Hs as (Hq & g1 & Ha & ->).
    exists (q ++ [c]). split; [|exact Ha]. simpl. unfold q_write.
    by replace (RB_DEPTH <=? zlen q) with false by (symmetry; lia).
  - injection E as <- <- <- <-. split; [|done]. exact Hs.
  - injection E as <- <- <- <-. split; [|done]. destruct Hs as (q' & g1 & -> & Ha & ->).
    exists q'. split; [done|exact Ha].
  - by destruct (Hl o r).
Qed.

(** A task inside is never stuck and never touches memory outside the slots. *)
Lemma shape_progress t p g l q :
  shape p g q -> exists p' g' l' ev, pc_step t p g l = Some (p', g', l', ev).
Proof.
  intros Hs. destruct p as [|o|o|c|c|c|c|o r]; simpl; try (by destruct Hs); try (by repeat eexists).
  { destruct (lk_resume t l). by repeat eexists. }
  destruct Hs as [Ho Ha]. destruct o as [[c|]|[]| | |]; try done; try (by repeat eexists).
  - destruct (rb_write_body_refines c g q Ha) as (g1 & Eb & _). unfold rb_write_body in Eb.
    destruct (RB_DEPTH <=? count g); [by repeat eexists|].
    destruct (store (slots g) _ c); [by repeat eexists|done].
  - destruct (rb_read_body_refines g q Ha) as (g1 & Eb & _). unfold rb_read_body in Eb.
    destruct (count g =? 0); [by repeat eexists|].
    destruct (load (slots g) _); [by repeat eexists|done].
Qed.

Lemma legal_snoc h q t o r q' :
  legal h q -> q_exec o q = (r, q') -> legal (h ++ [(t, o, r)]) q'.
Proof.
  unfold legal. rewrite !map_app. intros Hl Eo.
  assert (Happ : forall a b q0, q_run (a ++ b) q0 =
    let '(ra, qa) := q_run a q0 in let '(rb, qb) := q_run b qa in (ra ++ rb, qb)).
  { induction a as [|[u x] a IH]; intros b q0; simpl.
    - by destruct (q_run b q0).
    - destruct (q_exec x q0) as [r1 q1]. rewrite IH. destruct (q_run a q1) as [ra qa].
      by destruct (q_run b qa). }
  rewrite Happ, Hl. simpl. by rewrite Eo.
Qed.

(** The holder is the only task that can be inside. *)
Lemma cinv_holder cf h ws q t p :
  cinv cf h ws q -> cf_pc cf !! t = Some p -> p <> Idle ->
  lk_blocked t (cf_l cf) = false -> h = Some t /\ t ∉ ws.
Proof.
  intros H Hp Hi Hb.
  assert (t ∉ ws).
  { intros Ht. pose proof (lk_waiter_blocked t _ h ws (ci_rep _ _ _ _ H) Ht). congruence. }
  split; [|done]. by destruct (ci_idle _ _ _ _ H t p Hp) as [|[|[]]].
Qed.

Lemma holder_not_waiting l t ws : lk_rep l (Some t) ws -> t ∉ ws.
Proof.
  intros Hr Ht. pose proof (lk_waiter_blocked t _ _ _ Hr Ht).
  pose proof (lk_holder_ready t _ _ Hr). congruence.
Qed.

(** A call of an idle task. *)
Lemma cinv_call g l pcs hi h ws q t o w l' :
  cinv (mk_conf g l pcs hi) h ws q ->
  pcs !! t = Some Idle -> takes_lock o = true -> lk_blocked t l = false ->
  lk_lock t l = (w, l') ->
  exists h' ws',
    cinv (mk_conf g l' (<[t := match w with Blocked => Waiting o | _ => Entered o end]> pcs) hi)
      h' ws' q.
Proof.
  intros H Hp Ho Hb E. pose proof H as [Hr Hn Ht Hi Hw Hh Hl]. simpl in *.
  assert (Htw : t ∉ ws) by (intros Hx; destruct (Hw t Hx) as (? & ? & _); congruence).
  destruct h as [u|].
  - assert (Hne : t <> u).
    { intros ->. destruct Hh as (p & Hp' & Hs). rewrite Hp in Hp'. injection Hp' as <-. done. }
    destruct (lk_lock_busy t l u ws Hr (Ht t _ Hp) Hne Htw) as (l1 & ws' & E1 & Hr1 & Hpm & Ht1 & Hb1).
    rewrite E in E1. injection E1 as -> ->. exists (Some u), ws'.
    constructor; simpl; try done.
    + intros v p. rewrite lookup_insert. case_decide; [intros _; subst; eauto|eauto].
    + intros v p. rewrite lookup_insert. rewrite Hpm. case_decide as Hv.
      * intros _. subst. set_solver.
      * intros Hv'. rewrite Hb1 by congruence. destruct (Hi v p Hv') as [|[|]]; set_solver.
    + intros v. rewrite Hpm, elem_of_cons, lookup_insert. intros [->|Hv].
      * rewrite decide_True by done. eauto.
      * rewrite decide_False by congruence. by apply Hw.
    + destruct Hh as (p & Hp' & Hs). exists p. by rewrite lookup_insert_ne.
  - specialize (Hn eq_refl) as ->.
    destruct (lk_lock_free t l Hr (Ht t _ Hp) Hb) as (l1 & E1 & Hr1 & Ht1 & Hb1).
    rewrite E in E1. injection E1 as -> ->. exists (Some t), [].
    constructor; simpl; try done.
    + intros v p. rewrite lookup_insert. case_decide; [intros _; subst; eauto|eauto].
    + intros v p. rewrite lookup_insert. case_decide as Hv; [subst; auto|].
      intros Hv'. rewrite Hb1. destruct (Hi v p Hv') as [Hx|[|]]; [|done|auto].
      by apply elem_of_nil in Hx.
    + intros v Hv. by apply elem_of_nil in Hv.
    + exists (Entered o). by rewrite lookup_insert_eq.
Qed.

(** The holder moves on inside the lock. *)
Lemma cinv_move g l pcs hi ws q t p g' l' p' :
  cinv (mk_conf g l pcs hi) (Some t) ws q ->
  lk_rep l' (Some t) ws -> (forall u, lk_task u l -> lk_task u l') ->
  (forall u, lk_blocked u l' = lk_blocked u l) ->
  pcs !! t = Some p -> shape p' g' q ->
  cinv (mk_conf g' l' (<[t := p']> pcs) hi) (Some t) ws q.
Proof.
  intros [Hr Hn Ht Hi Hw Hh Hl] Hr' Ht' Hb' Hp Hs. simpl in *.
  pose proof (holder_not_waiting _ _ _ Hr) as Hnw.
  constructor; simpl; try done.
  - intros v x. rewrite lookup_insert. case_decide; [intros _; subst; eauto|eauto].
  - intros v x. rewrite lookup_insert. case_decide as Hv; [subst; auto|].
    intros Hv'. rewrite Hb'. eauto.
  - intros v Hv. rewrite lookup_insert_ne by congruence. auto.
  - exists p'. by rewrite lookup_insert_eq.
Qed.

(** The holder leaves: the lock becomes free or goes to the first waiter. *)
Lemma cinv_leave g l pcs hi ws q t o r q' :
  cinv (mk_conf g l pcs hi) (Some t) ws q ->
  pcs !! t = Some (Leaving o r) -> q_exec o q = (r, q') -> rb_abs g q' ->
  exists h' ws',
    cinv (mk_conf g (snd (lk_unlock l)) (<[t := Idle]> pcs) (hi ++ [(t, o, r)])) h' ws' q'.
Proof.
  intros [Hr Hn Ht Hi Hw Hh Hl] Hp Eo Ha. simpl in *.
  pose proof (holder_not_waiting _ _ _ Hr) as Hnw.
  pose proof (lk_holder_ready _ _ _ Hr) as Hbt.
  destruct ws as [|w ws].
  - destruct (lk_unlock_free t l Hr) as (l1 & -> & Hr1 & Ht1 & Hb1).
    exists None, []. constructor; simpl; try done.
    + intros v x. rewrite lookup_insert. case_decide; [intros _; subst; eauto|eauto].
    + intros v x. rewrite lookup_insert, Hb1. case_decide as Hv.
      * intros [= <-]. subst. auto.
      * intros Hv'. destruct (Hi v x Hv') as [Hx|[[=]|]]; [|done|auto].
        by apply elem_of_nil in Hx.
    + intros v Hv. by apply elem_of_nil in Hv.
    + by eapply legal_snoc.
  - destruct (lk_unlock_hand t l w ws Hr) as (l1 & -> & Hr1 & Ht1 & Hb1).
    assert (w <> t) by set_solver.
    destruct (Hw w) as (ow & Hpw & How); [set_solver|].
    exists (Some w), ws. constructor; simpl; try done.
    + intros v x. rewrite lookup_insert. case_decide; [intros _; subst; eauto|eauto].
    + intros v x. rewrite lookup_insert. case_decide as Hv.
      * intros [= <-]. subst. right. right. by rewrite Hb1.
      * intros Hv'. destruct (decide (v = w)) as [->|]; [auto|]. rewrite Hb1 by done.
        destruct (Hi v x Hv') as [Hx|[[=]|]]; [set_solver|done|auto].
    + intros v Hv. rewrite lookup_insert_ne by set_solver. apply Hw. set_solver.
    + exists (Waiting ow). by rewrite lookup_insert_ne.
    + by eapply legal_snoc.
Qed.

Lemma cstep_inv cf cf' :
  (exists h ws q, cinv cf h ws q) -> cstep cf cf' -> exists h ws q, cinv cf' h ws q.
Proof.
  intros (h & ws & q & H) Hst.
  destruct Hst as [t o g l pcs hi w l' Hp Ho Hb E|t o g l pcs hi Hp Ho Hb
                  |cf cf' [t p g l pcs hi p' g' l' ev Hp Hb E]].
  - destruct (cinv_call _ _ _ _ _ _ _ _ _ _ _ H Hp Ho Hb E) as (h' & ws' & H').
    by exists h', ws', q.
  - exists h, ws, q. destruct H as [Hr Hn Ht Hi Hw Hh Hl]. constructor; try done.
    simpl in *. eapply legal_snoc; [exact Hl|]. by destruct o as [[|]|[]| | |].
  - destruct (decide (p = Idle)) as [->|Hne]; [done|].
    destruct (cinv_holder _ _ _ _ t p H Hp Hne Hb) as [-> Hnw].
    pose proof (ci_hold _ _ _ _ H) as (x & Hx & Hs). simpl in Hx, Hs.
    rewrite Hp in Hx. injection Hx as <-.
    pose proof (ci_rep _ _ _ _ H) as Hr. simpl in Hr.
    destruct (inside p) eqn:Hin.
    + destruct p as [|o|o|c|c|c|c|o r]; try done.
      1-5: (destruct (shape_step t _ g l q p' g' l' ev Hs Hin ltac:(done) E) as (Hs' & -> & ->);
            rewrite app_nil_r; exists (Some t), ws, q; by eapply cinv_move).
      injection E as <- <- <- <-. destruct Hs as (q' & Eo & Ha).
      destruct (cinv_leave _ _ _ _ _ _ _ _ _ _ H Hp Eo Ha) as (h' & ws' & H'). by exists h', ws', q'.
    + destruct p as [|o| | | | | |]; try done. simpl in E.
      destruct (lk_resume_hold t l ws Hr (ci_task _ _ _ _ H t _ Hp)) as (l1 & E1 & Hr1 & Ht1 & Hb1).
      rewrite E1 in E. injection E as <- <- <- <-. rewrite app_nil_r.
      exists (Some t), ws, q. by eapply cinv_move.
Qed.

(** The statements a task has left before it is idle again. *)
Definition cost (p : pc) : nat :=
  match p with
  | Idle => 0
  | Leaving _ _ => 1
  | WAdvanced _ | RAdvanced _ => 2
  | WCopied _ | RCopied _ => 3
  | Entered _ => 4
  | Waiting _ => 5
  end.

Definition add_cost (_ : Z) (p : pc) (n : nat) : nat := (cost p + n)%nat.

Definition remaining (cf : conf) : nat := map_fold add_cost 0%nat (cf_pc cf).

Lemma cost_insert (pcs : gmap Z pc) t p p' :
  pcs !! t = Some p ->
  (map_fold add_cost 0 (<[t := p']> pcs) + cost p =
   map_fold add_cost 0 pcs + cost p')%nat.
Proof.
  intros Hp.
  assert (Hi : forall x, map_fold add_cost 0%nat (<[t := x]> pcs) =
    add_cost t x (map_fold add_cost 0%nat (delete t pcs))).
  { intros x. rewrite <- insert_delete_eq.
    apply map_fold_insert_L; [unfold add_cost; intros; lia|apply lookup_delete_eq]. }
  unfold add_cost in *.
  rewrite <- (insert_id pcs t p Hp) at 2. rewrite !Hi. lia.
Qed.

Lemma pc_step_cost t p g l p' g' l' ev :
  pc_step t p g l = Some (p', g', l', ev) -> (cost p' < cost p)%nat.
Proof.
  destruct p as [|o|[[c|]|[]| | |]|c|c|c|c|o r]; simpl; try done;
    try (intros [= <- _ _ _]; simpl; lia).
  - destruct (lk_resume t l). intros [= <- _ _ _]. simpl. lia.
  - destruct (_ <=? _); [intros [= <- _ _ _]; simpl; lia|].
    destruct (store _ _ _); [|done]. intros [= <- _ _ _]. simpl. lia.
  - destruct (_ =? _); [intros [= <- _ _ _]; simpl; lia|].
    destruct (load _ _); [|done]. intros [= <- _ _ _]. simpl. lia.
Qed.

Lemma crun_remaining cf cf' : crun cf cf' -> (remaining cf' < remaining cf)%nat.
Proof.
  destruct 1 as [t p g l pcs h p' g' l' ev Hp Hb E]. unfold remaining. simpl.
  pose proof (cost_insert pcs t p p' Hp). pose proof (pc_step_cost _ _ _ _ _ _ _ _ E). lia.
Qed.

Definition all_idle (cf : conf) : Prop := map_Forall (fun _ p => p = Idle) (cf_pc cf).

(** While an operation is under way, the holder can make a step. *)
Lemma crun_progress cf h ws q :
  cinv cf h ws q -> all_idle cf \/ exists cf', crun cf cf'.
Proof.
  intros H. destruct cf as [g l pcs hi]. destruct h as [t|].
  - right. destruct (ci_hold _ _ _ _ H) as (p & Hp & Hs). simpl in *.
    destruct (shape_progress t p g l q Hs) as (p' & g' & l' & ev & E).
    eexists. econstructor; [exact Hp| |exact E].
    exact (lk_holder_ready _ _ _ (ci_rep _ _ _ _ H)).
  - left. intros t p Hp. specialize (ci_none _ _ _ _ H eq_refl) as ->.
    destruct (ci_idle _ _ _ _ H t p Hp) as [Hx|[|[]]]; [|done|done].
    by apply elem_of_nil in Hx.
Qed.

Lemma crun_completes cf :
  (exists h ws q, cinv cf h ws q) -> exists cf', steps crun cf cf' /\ all_idle cf'.
Proof.
  intros Hi.
  destruct (steps_reach crun (fun cf => exists h ws q, cinv cf h ws q) all_idle remaining)
    with (s := cf) as (cf' & Hst & _ & Hf); [|done|by exists cf'].
  intros s (h & ws & q & H). destruct (crun_progress s h ws q H) as [|(s' & Hs)]; [by left|].
  right. exists s'. split; [done|]. split; [|by apply crun_remaining].
  eapply cstep_inv; [by exists h, ws, q|by apply cs_run].
Qed.

(** All participants idle on a free buffer. *)
Lemma cinv_init g l pcs :
  rb_abs g [] -> lk_rep l None [] ->
  map_Forall (fun t p => p = Idle /\ lk_run t l) pcs ->
  exists h ws q, cinv (mk_conf g l pcs []) h ws q.
Proof.
  intros Ha Hl Hp. exists None, [], []. constructor; simpl; try done.
  - intros t p Ht. by apply (Hp t p Ht).
  - intros t p Ht. right. right. destruct (Hp t p Ht) as [-> [_ Hb]]. auto.
  - intros t Ht. by apply elem_of_nil in Ht.
Qed.
End system.

Arguments conf L : clear implicits.

(** The tasks in [ts] start idle on the buffer [rb_init] leaves. *)
Definition start (ts : gset Z) (s : rb_state ksem) : conf ksem :=
  let s := rb_init nxmutex_init s in
  mk_conf (g_rb s) (g_rb_lock s) (gset_to_gmap Idle ts) [].

Definition ready_tasks (ts : gset Z) (s : rb_state ksem) : Prop :=
  forall t, t ∈ ts -> lk_run t (snd (nxmutex_init (g_rb_lock s))).

Lemma start_inv ts s cf :
  ready_tasks ts s -> steps cstep (start ts s) cf -> exists h ws q, cinv cf h ws q.
Proof.
  intros Hr Hst.
  apply (steps_inv cstep (fun cf => exists h ws q, cinv cf h ws q) cstep_inv (start ts s) cf); [|exact Hst].
  apply cinv_init; [exact rb_init_abs|apply nxmutex_init_rep|].
  intros t p [Ht <-]%lookup_gset_to_gmap_Some. split; [done|by apply Hr].
Qed.

(** C15: The operations of the ring buffer are atomic under every interleaving
    of the statements of any number of tasks: the results returned so far are
    those a FIFO queue of at most 64 chunks gives for the calls in the order of
    their unlocks; whenever no task is inside, the buffer holds exactly that
    queue; and no two tasks are ever inside at the same time. *)
Theorem rb_concurrent_fifo ts s cf :
  ready_tasks ts s -> steps cstep (start ts s) cf ->
  (exists q, legal (cf_hist cf) q /\
     (map_Forall (fun _ p => inside p = false) (cf_pc cf) -> rb_abs (cf_g cf) q)) /\
  (forall t u p p', cf_pc cf !! t = Some p -> cf_pc cf !! u = Some p' ->
     inside p = true -> inside p' = true -> t = u).
Proof.
  intros Hr Hst. destruct (start_inv ts s cf Hr Hst) as (h & ws & q & H). split.
  - exists q. split; [apply H|]. intros Hi. pose proof (ci_hold _ _ _ _ H) as Hh.
    destruct h as [t|]; [|done]. destruct Hh as (p & Hp & Hs).
    pose proof (Hi t p Hp) as Hin. simpl in Hin. destruct p; try done. by destruct Hs.
  - assert (Hone : forall t p, cf_pc cf !! t = Some p -> inside p = true -> h = Some t).
    { intros t p Hp Hin. destruct (ci_idle _ _ _ _ H t p Hp) as [Hw|[|[-> _]]]; try done.
      destruct (ci_wait _ _ _ _ H t Hw) as (o & Ho & _). rewrite Hp in Ho. by injection Ho as ->. }
    intros t u p p' Ht Hu Hp Hp'. pose proof (Hone t p Ht Hp). pose proof (Hone u p' Hu Hp').
    congruence.
Qed.

(** Task 3 has stored a chunk and is about to advance [wr_ptr]; task 4 wants to
    read and waits. *)
Definition preempted : conf ksem :=
  let l := snd (nxmutex_lock 4 (snd (nxmutex_lock 3 free_mutex))) in
  mk_conf (mk_rb (<[0%nat := chunk_of 7]> (replicate (Z.to_nat RB_DEPTH) zero_chunk)) 0 0 0) l
    {[ 3 := WCopied (chunk_of 7); 4 := Waiting (OpRead true) ]} [].

Lemma two_ready : ready_tasks {[ 3; 4 ]} bss_state.
Proof. intros t Ht. apply free_mutex_task. set_solver. Qed.

Lemma preempted_reached : steps cstep (start {[ 3; 4 ]} bss_state) preempted.
Proof.
  eapply steps_step.
  { apply (cs_call 3 (OpWrite (Some (chunk_of 7)))); [done..|]. apply surjective_pairing. }
  eapply steps_step.
  { apply cs_run. eapply (crun_intro 3); [by rewrite lookup_insert_eq|done|reflexivity]. }
  eapply steps_step.
  { apply (cs_call 4 (OpRead true)); [|done|done|apply surjective_pairing].
    by rewrite !lookup_insert_ne. }
  apply steps_refl'. vm_compute. reflexivity.
Qed.

Lemma rb_concurrent_fifo_witness :
  exists q, legal (cf_hist preempted) q /\
    (map_Forall (fun _ p => inside p = false) (cf_pc preempted) -> rb_abs (cf_g preempted) q).
Proof. exact (proj1 (rb_concurrent_fifo _ _ _ two_ready preempted_reached)). Defined.

(** C16: No operation waits for ever and nothing deadlocks: from every reachable
    state, whatever the scheduler did so far, all operations under way complete
    without further calls; every statement a task executes brings it closer to
    its return, and while an operation is under way some task can execute one. *)
Theorem rb_concurrent_completes ts s cf :
  ready_tasks ts s -> steps cstep (start ts s) cf ->
  (exists cf', steps crun cf cf' /\ all_idle cf') /\
  (all_idle cf \/ exists cf', crun cf cf') /\
  (forall cf', crun cf cf' -> (remaining cf' < remaining cf)%nat).
Proof.
  intros Hr Hst. pose proof (start_inv ts s cf Hr Hst) as Hi.
  split; [by apply crun_completes|]. split; [|intros cf'; apply crun_remaining].
  destruct Hi as (h & ws & q & H). by eapply crun_progress.
Qed.

Lemma rb_concurrent_completes_witness :
  remaining preempted = 8%nat /\ exists cf', steps crun preempted cf' /\ all_idle cf'.
Proof.
  split; [reflexivity|].
  exact (proj1 (rb_concurrent_completes _ _ _ two_ready preempted_reached)).
Defined.
