(* ===== verification/Circbuf.v ===== *)
(** Circular byte buffers.

    Models libs/libc/misc/lib_circbuf.c, the buffer the sensor upper half keeps
    the samples of a topic in.  [head] and [tail] are free-running 32-bit
    counters; the theorems show that reads, writes and overwrites implement a
    byte queue of [size] bytes, counter wrap-around included when the size
    divides [2^32], and show the two situations in which they do not. *)

From S2P Require Import Prelude.
Local Open Scope Z_scope.

(** [base] is [None] when the pointer is null. *)
Record circbuf_s := mk_circ {
  base : option (list Z);
  size : Z;
  head : Z;
  tail : Z;
  external : bool
}.

Definition set_head (h : Z) (c : circbuf_s) : circbuf_s :=
  mk_circ (base c) (size c) h (tail c) (external c).
Definition set_tail (t : Z) (c : circbuf_s) : circbuf_s :=
  mk_circ (base c) (size c) (head c) t (external c).
Definition set_base (b : list Z) (c : circbuf_s) : circbuf_s :=
  mk_circ (Some b) (size c) (head c) (tail c) (external c).

(** [mem] is the block [lib_malloc(bytes)] returns. *)
Definition circbuf_init (b : option (list Z)) (bytes : Z) (mem : option (list Z))
    (c : circbuf_s) : Z * circbuf_s :=
  let ext := match b with Some _ => true | None => false end in
  match b with
  | Some _ => (0, mk_circ b bytes 0 0 ext)
  | None =>
      if bytes =? 0 then (0, mk_circ None bytes 0 0 ext)
      else match mem with
           | None => (- ENOMEM, mk_circ (base c) (size c) (head c) (tail c) ext)
           | Some _ => (0, mk_circ mem bytes 0 0 ext)
           end
  end.

Definition circbuf_reset (c : circbuf_s) : circbuf_s := set_head 0 (set_tail 0 c).
Definition circbuf_uninit (c : circbuf_s) : circbuf_s := mk_circ None 0 0 0 false.
Definition circbuf_size (c : circbuf_s) : Z := size c.
Definition circbuf_used (c : circbuf_s) : Z := u32 (head c - tail c).
Definition circbuf_space (c : circbuf_s) : Z := u32 (circbuf_size c - circbuf_used c).
Definition circbuf_is_init (c : circbuf_s) : bool :=
  match base c with Some _ => true | None => false end.
Definition circbuf_is_empty (c : circbuf_s) : bool := circbuf_used c =? 0.
Definition circbuf_is_full (c : circbuf_s) : bool := circbuf_space c =? 0.

(** The two [memcpy] out of the buffer. *)
Definition copy_out (b : list Z) (off len bytes : Z) : option (list Z) :=
  l1 ← loads b off len;
  l2 ← loads b 0 (u32 (bytes - len));
  Some (l1 ++ l2).

(** The bytes stored at [dst]; their number is the result. *)
Definition circbuf_peekat (pos bytes : Z) (c : circbuf_s) : option (list Z) :=
  if size c =? 0 then Some []
  else
    let pos := if u32 (head c - tail c) <? u32 (head c - pos) then tail c else pos in
    let len := u32 (head c - pos) in
    let off := pos mod size c in
    let bytes := if len <? bytes then len else bytes in
    let len := u32 (size c - off) in
    let len := if bytes <? len then bytes else len in
    b ← base c;
    copy_out b off len bytes.

Definition circbuf_peek (bytes : Z) (c : circbuf_s) : option (list Z) :=
  circbuf_peekat (tail c) bytes c.

Definition circbuf_read (bytes : Z) (c : circbuf_s) : option (list Z * circbuf_s) :=
  l ← circbuf_peek bytes c;
  Some (l, set_tail (u32 (tail c + zlen l)) c).

Definition circbuf_skip (bytes : Z) (c : circbuf_s) : Z * circbuf_s :=
  let len := circbuf_used c in
  let bytes := if len <? bytes then len else bytes in
  (bytes, set_tail (u32 (tail c + bytes)) c).

(** The two [memcpy] into the buffer. *)
Definition copy_in (b : list Z) (off space : Z) (src : list Z) (bytes : Z) : option (list Z) :=
  l1 ← loads src 0 space;
  b ← stores b off l1;
  l2 ← loads src space (u32 (bytes - space));
  stores b 0 l2.

Definition circbuf_write (src : list Z) (c : circbuf_s) : option (Z * circbuf_s) :=
  if size c =? 0 then Some (0, c)
  else
    let space := circbuf_space c in
    let off := head c mod size c in
    let bytes := if space <? zlen src then space else zlen src in
    let space := u32 (size c - off) in
    let space := if bytes <? space then bytes else space in
    b ← base c;
    b ← copy_in b off space src bytes;
    Some (bytes, set_head (u32 (head c + bytes)) (set_base b c)).

Definition circbuf_overwrite (src : list Z) (c : circbuf_s) : option (Z * circbuf_s) :=
  if size c =? 0 then Some (0, c)
  else
    let skip := if size c <? zlen src then zlen src - size c else 0 in
    let src := drop (Z.to_nat skip) src in
    let bytes := zlen src in
    let space := circbuf_space c in
    let overwrite := if space <? bytes then u32 (bytes - space + skip) else 0 in
    let hd := u32 (head c + skip) in
    let off := hd mod size c in
    let space := u32 (size c - off) in
    let space := if bytes <? space then bytes else space in
    b ← base c;
    b ← copy_in b off space src bytes;
    Some (overwrite,
          set_tail (u32 (tail c + overwrite)) (set_head (u32 (hd + bytes)) (set_base b c))).

(** [lib_free] of the old block returns nothing the buffer uses. *)
Definition circbuf_resize (bytes : Z) (mem : option (list Z)) (c : circbuf_s) :
    option (Z * circbuf_s) :=
  if bytes =? size c then Some (0, c)
  else if bytes =? 0 then Some (0, mk_circ None bytes 0 0 (external c))
  else match mem with
       | None => Some (- ENOMEM, c)
       | Some tmp =>
           let len := circbuf_used c in
           let '(len, c) := if bytes <? len
                            then (bytes, snd (circbuf_skip (u32 (len - bytes)) c))
                            else (len, c) in
           '(l, c) ← circbuf_read len c;
           tmp ← stores tmp 0 l;
           Some (0, mk_circ (Some tmp) bytes len 0 (external c))
       end.

(** The offset of the pointer in the buffer and [*size]; [None] is the division
    by a zero size. *)
Definition contiguous (pos avail : Z) (c : circbuf_s) : option (Z * Z) :=
  if size c =? 0 then None
  else
    let off := pos mod size c in
    Some (off, if size c <? u32 (off + avail) then u32 (size c - off) else avail).

Definition circbuf_get_writeptr (c : circbuf_s) : option (Z * Z) :=
  contiguous (head c) (circbuf_space c) c.
Definition circbuf_get_readptr (c : circbuf_s) : option (Z * Z) :=
  contiguous (tail c) (circbuf_used c) c.
Definition circbuf_writecommit (n : Z) (c : circbuf_s) : circbuf_s :=
  set_head (u32 (head c + n)) c.
Definition circbuf_readcommit (n : Z) (c : circbuf_s) : circbuf_s :=
  set_tail (u32 (tail c + n)) c.

(** ** Copying in two pieces *)

Lemma lookup_total_slice (l : list Z) off n i :
  0 <= off -> 0 <= i < n -> off + n <= zlen l ->
  take (Z.to_nat n) (drop (Z.to_nat off) l) !! Z.to_nat i = Some (l !!! Z.to_nat (off + i)).
Proof.
  intros Ho Hi Hl. rewrite lookup_take_lt, lookup_drop by lia.
  replace (Z.to_nat off + Z.to_nat i)%nat with (Z.to_nat (off + i)) by lia.
  apply list_lookup_lookup_total_lt. lia.
Qed.

(** Reading to the end of the array and then from its start reads the window. *)
Lemma copy_out_window b off bytes :
  0 <= off < zlen b -> 0 <= bytes <= zlen b -> zlen b < 2 ^ 32 ->
  copy_out b off (if bytes <? zlen b - off then bytes else zlen b - off) bytes =
    Some (window b off bytes).
Proof.
  intros Ho Hb Hl. unfold copy_out. destruct (Z.ltb_spec bytes (zlen b - off)) as [Hc|Hc].
  - rewrite (loads_in_range b off) by lia. simpl. rewrite Z.sub_diag. change (u32 0) with 0.
    rewrite loads_in_range by lia. simpl. rewrite app_nil_r. f_equal.
    symmetry. rewrite window_slice; rewrite ?Z.mod_small by lia; lia || done.
  - rewrite (loads_in_range b off) by lia. simpl. rewrite (u32_small (_ - _)) by lia.
    rewrite loads_in_range by lia. simpl. f_equal. rewrite drop_0.
    replace bytes with ((zlen b - off) + (bytes - (zlen b - off))) at 2 by lia.
    rewrite window_app by lia. f_equal.
    + symmetry. rewrite window_slice; rewrite ?Z.mod_small by lia; lia || done.
    + replace (off + (zlen b - off)) with (0 + 1 * zlen b) by lia.
      rewrite (window_mod _ (0 + 1 * zlen b) 0) by (rewrite Z_mod_plus_full; done).
      rewrite window_slice; rewrite ?Z.mod_0_l by lia; (lia || done).
Qed.

(** Writing to the end of the array and then from its start: every cell whose
    distance from [off] is below the number of bytes gets its byte, the other
    cells keep theirs. *)
Lemma copy_in_spec b off src bytes :
  0 <= off < zlen b -> 0 <= bytes <= zlen b -> bytes <= zlen src -> zlen b < 2 ^ 32 ->
  exists b', copy_in b off (if bytes <? zlen b - off then bytes else zlen b - off) src bytes
               = Some b' /\
    zlen b' = zlen b /\
    forall d, 0 <= d < zlen b ->
      b' !!! Z.to_nat ((off + d) mod zlen b) =
        if d <? bytes then src !!! Z.to_nat d else b !!! Z.to_nat ((off + d) mod zlen b).
Proof.
  intros Ho Hb Hs Hl. unfold copy_in.
  set (sp := if bytes <? zlen b - off then bytes else zlen b - off).
  assert (Hsp : 0 <= sp <= bytes /\ sp <= zlen b - off /\ (sp < bytes -> sp = zlen b - off))
    by (unfold sp; destruct (Z.ltb_spec bytes (zlen b - off)); lia).
  rewrite (loads_in_range src 0 sp) by lia. cbn [mbind option_bind]. rewrite drop_0.
  set (l1 := take (Z.to_nat sp) src). assert (zlen l1 = sp) as Hl1 by (unfold l1; rewrite length_take; lia).
  destruct (stores b off l1) as [b1|] eqn:E1; [|rewrite stores_in_range in E1 by lia; done].
  cbn [mbind option_bind]. pose proof (stores_Some_length _ _ _ _ E1) as Hlb1.
  rewrite (u32_small (bytes - sp)) by lia.
  rewrite (loads_in_range src sp (bytes - sp)) by lia. cbn [mbind option_bind].
  set (l2 := take _ (drop (Z.to_nat sp) src)).
  assert (zlen l2 = bytes - sp) as Hl2 by (unfold l2; rewrite length_take, length_drop; lia).
  destruct (stores b1 0 l2) as [b2|] eqn:E2; [|rewrite stores_in_range in E2 by lia; done].
  pose proof (stores_Some_length _ _ _ _ E2) as Hlb2. exists b2. split; [done|]. split; [lia|].
  intros d Hd.
  assert (0 <= (off + d) mod zlen b < zlen b) as Hj by (apply Z.mod_pos_bound; lia).
  set (j := (off + d) mod zlen b) in *. apply list_lookup_total_correct.
  rewrite (stores_lookup _ _ _ _ j E2), (stores_lookup _ _ _ _ j E1) by lia.
  assert (Hcase : j = off + d /\ off + d < zlen b \/ j = off + d - zlen b /\ zlen b <= off + d).
  { unfold j. destruct (Z.lt_ge_cases (off + d) (zlen b)).
    - left. rewrite Z.mod_small; lia.
    - right. split; [|lia]. symmetry. apply Z.mod_unique with 1; lia. }
  destruct Hcase as [[Ej ?]|[Ej ?]].
  - replace ((0 <=? j) && (j <? 0 + zlen l2)) with false by (symmetry; lia).
    replace ((off <=? j) && (j <? off + zlen l1)) with (d <? bytes).
    2: { destruct (Z.ltb_spec d bytes); symmetry; lia. }
    destruct (Z.ltb_spec d bytes).
    + replace (j - off) with d by lia. unfold l1. rewrite lookup_take_lt by lia.
      apply list_lookup_lookup_total_lt. lia.
    + apply list_lookup_lookup_total_lt. lia.
  - replace ((off <=? j) && (j <? off + zlen l1)) with false by (symmetry; lia).
    replace ((0 <=? j) && (j <? 0 + zlen l2)) with (d <? bytes).
    2: { destruct (Z.ltb_spec d bytes); symmetry; lia. }
    destruct (Z.ltb_spec d bytes).
    + unfold l2. rewrite (lookup_total_slice src sp) by lia. do 2 f_equal. lia.
    + apply list_lookup_lookup_total_lt. lia.
Qed.

(** What [copy_in] makes of a window that ends where it starts to write. *)
Lemma copy_in_window b s k src bytes :
  0 <= k -> 0 <= bytes -> k + bytes <= zlen b -> bytes <= zlen src ->
  0 < zlen b < 2 ^ 32 ->
  let off := (s + k) mod zlen b in
  exists b', copy_in b off (if bytes <? zlen b - off then bytes else zlen b - off) src bytes
               = Some b' /\
    zlen b' = zlen b /\
    window b' s (k + bytes) = window b s k ++ take (Z.to_nat bytes) src.
Proof.
  intros Hk Hb Hkb Hs Hl off.
  assert (0 <= off < zlen b) as Ho by (apply Z.mod_pos_bound; lia).
  destruct (copy_in_spec b off src bytes) as (b' & E & Hlb & Hsp); [lia..|].
  exists b'. split; [done|]. split; [done|]. rewrite window_app by lia. f_equal.
  - unfold window. apply list_fmap_ext. intros i x Hx.
    apply lookup_seqZ in Hx as [-> Hi]. rewrite Hlb.
    specialize (Hsp (zlen b - k + Z.of_nat i) ltac:(lia)).
    replace (zlen b - k + Z.of_nat i <? bytes) with false in Hsp by (symmetry; lia).
    replace ((off + (zlen b - k + Z.of_nat i)) mod zlen b)
      with ((s + (0 + Z.of_nat i)) mod zlen b) in Hsp; [done|].
    unfold off. rewrite Zplus_mod_idemp_l.
    replace (s + k + (zlen b - k + Z.of_nat i))
      with (s + (0 + Z.of_nat i) + 1 * zlen b) by lia. by rewrite Z_mod_plus_full.
  - apply zlist_eq; [rewrite length_window, length_take; lia|].
    rewrite length_window. intros i Hi. rewrite window_lookup by lia.
    rewrite lookup_take_lt by lia. rewrite (list_lookup_lookup_total_lt src) by lia.
    f_equal. specialize (Hsp i ltac:(lia)).
    replace (i <? bytes) with true in Hsp by (symmetry; lia).
    rewrite <- Hsp, Hlb. unfold off. by rewrite Zplus_mod_idemp_l.
Qed.

Lemma window_drop (b : list Z) s d n :
  0 <= d -> 0 <= n -> window b (s + d) n = drop (Z.to_nat d) (window b s (d + n)).
Proof.
  intros Hd Hn. rewrite window_app by lia.
  assert (length (window b s d) = Z.to_nat d) as Hl by (pose proof (length_window b s d); lia).
  by rewrite drop_app_ge, Hl, Nat.sub_diag, drop_0 by lia.
Qed.

Lemma window_take (b : list Z) s n m :
  0 <= n <= m -> window b s n = take (Z.to_nat n) (window b s m).
Proof.
  intros H. replace m with (n + (m - n)) by lia. rewrite window_app by lia.
  assert (length (window b s n) = Z.to_nat n) as Hl by (pose proof (length_window b s n); lia).
  by rewrite take_app_le, take_ge by lia.
Qed.

(** ** The contract: a queue of at most [size] bytes *)

(** The counters either wrap consistently or have not wrapped up to [z]. *)
Definition wrap_ok (sz z : Z) : Prop := (sz | 2 ^ 32) \/ z < 2 ^ 32.

Lemma wrap_slot sz z z' :
  0 < sz -> wrap_ok sz z' -> 0 <= z <= z' -> u32 z mod sz = z mod sz.
Proof.
  intros Hs [Hd|Hz] H; [by apply u32_mod|]. by rewrite u32_small by lia.
Qed.

Lemma wrap_ok_u32 sz z n : 0 <= z -> 0 <= n -> wrap_ok sz (z + n) -> wrap_ok sz (u32 z + n).
Proof. intros Hz Hn [Hd|H]; [by left|]. right. by rewrite u32_small by lia. Qed.

Record cb_abs (c : circbuf_s) (q : list Z) : Prop := {
  ca_base : exists b, base c = Some b /\ zlen b = size c /\ window b (tail c) (zlen q) = q;
  ca_size : 0 < size c < 2 ^ 32;
  ca_wrap : wrap_ok (size c) (tail c + zlen q);
  ca_tail : 0 <= tail c < 2 ^ 32;
  ca_head : head c = u32 (tail c + zlen q);
  ca_len : zlen q <= size c
}.

Section queue.
Context (c : circbuf_s) (q : list Z) (H : cb_abs c q).

Lemma cb_used : circbuf_used c = zlen q.
Proof.
  destruct H as [_ Hs _ Ht Hh Hl]. unfold circbuf_used. rewrite Hh, u32_u32_sub_l.
  rewrite u32_small; lia.
Qed.

Lemma cb_space : circbuf_space c = size c - zlen q.
Proof.
  pose proof (ca_size _ _ H). pose proof (ca_len _ _ H).
  unfold circbuf_space, circbuf_size. rewrite cb_used, u32_small; lia.
Qed.

Lemma cb_slot z : 0 <= z <= tail c + zlen q -> u32 z mod size c = z mod size c.
Proof. apply wrap_slot; apply H. Qed.

Lemma cb_size_nz : (size c =? 0) = false.
Proof. pose proof (ca_size _ _ H). lia. Qed.

(** Reading [bytes] from [d] bytes after the tail. *)
Lemma circbuf_peekat_at d bytes :
  0 <= d <= zlen q -> 0 <= bytes ->
  circbuf_peekat (u32 (tail c + d)) bytes c =
    Some (take (Z.to_nat bytes) (drop (Z.to_nat d) q)).
Proof.
  intros Hd Hb. pose proof H as [(b & Eb & Hlb & Hw) Hs _ Ht Hh Hl].
  unfold circbuf_peekat. rewrite cb_size_nz. fold (circbuf_used c). rewrite cb_used, Hh.
  rewrite u32_u32_sub_l, u32_u32_sub_r.
  replace (tail c + zlen q - (tail c + d)) with (zlen q - d) by lia.
  rewrite (u32_small (zlen q - d)) by lia.
  replace (zlen q <? zlen q - d) with false by (symmetry; lia).
  rewrite u32_u32_sub_l, u32_u32_sub_r.
  replace (tail c + zlen q - (tail c + d)) with (zlen q - d) by lia.
  rewrite (u32_small (zlen q - d)) by lia. rewrite cb_slot by lia.
  assert (0 <= (tail c + d) mod size c < size c) by (apply Z.mod_pos_bound; lia).
  rewrite (u32_small (size c - _)) by lia. rewrite Eb. cbn [mbind option_bind].
  set (n := if zlen q - d <? bytes then zlen q - d else bytes).
  assert (0 <= n <= zlen q - d /\ (n = bytes \/ n = zlen q - d /\ n <= bytes)) as Hn
    by (unfold n; destruct (Z.ltb_spec (zlen q - d) bytes); lia).
  rewrite <- Hlb in *. rewrite copy_out_window by lia. f_equal.
  rewrite (window_mod _ _ (tail c + d)) by (rewrite Z.mod_mod; lia).
  rewrite (window_take _ _ n (zlen q - d)) by lia. rewrite window_drop by lia.
  replace (d + (zlen q - d)) with (zlen q) by lia. rewrite Hw.
  destruct Hn as [_ [->|[-> Hle]]]; [done|].
  rewrite !take_ge; [done|rewrite length_drop; lia..].
Qed.

(** A position outside the queue reads from the tail. *)
Lemma circbuf_peekat_out pos bytes :
  0 <= bytes -> zlen q < u32 (head c - pos) ->
  circbuf_peekat pos bytes c = circbuf_peekat (u32 (tail c + 0)) bytes c.
Proof.
  intros Hb Hp. unfold circbuf_peekat. fold (circbuf_used c). rewrite cb_used.
  replace (zlen q <? u32 (head c - pos)) with true by (symmetry; lia).
  rewrite Z.add_0_r, (u32_small (tail c)) by apply H. fold (circbuf_used c).
  by destruct (zlen q <? circbuf_used c).
Qed.

Lemma circbuf_peek_spec bytes :
  0 <= bytes -> circbuf_peek bytes c = Some (take (Z.to_nat bytes) q).
Proof.
  intros Hb. unfold circbuf_peek.
  pose proof (circbuf_peekat_at 0 bytes ltac:(lia) Hb) as E.
  rewrite Z.add_0_r, u32_small in E by apply H. by rewrite E, drop_0.
Qed.

(** Moving the tail over the first [n] bytes. *)
Lemma cb_advance n :
  0 <= n <= zlen q -> cb_abs (set_tail (u32 (tail c + n)) c) (drop (Z.to_nat n) q).
Proof.
  intros Hn. pose proof H as [(b & Eb & Hlb & Hw) Hs Hdv Ht Hh Hl].
  assert (zlen (drop (Z.to_nat n) q) = zlen q - n) as Hld by (rewrite length_drop; lia).
  constructor; simpl; rewrite ?Hld; auto with nx; try lia.
  2: { apply wrap_ok_u32; [lia|lia|]. by replace (tail c + n + (zlen q - n)) with (tail c + zlen q) by lia. }
  - exists b. split; [done|]. split; [done|].
    rewrite (window_mod _ _ (tail c + n)) by (rewrite Hlb; apply cb_slot; lia).
    rewrite window_drop by lia. replace (n + (zlen q - n)) with (zlen q) by lia. by rewrite Hw.
  - rewrite Hh, u32_u32_add_l. f_equal. lia.
Qed.

Lemma circbuf_read_spec bytes :
  0 <= bytes ->
  exists c', circbuf_read bytes c = Some (take (Z.to_nat bytes) q, c') /\
    cb_abs c' (drop (Z.to_nat bytes) q) /\ size c' = size c.
Proof.
  intros Hb. unfold circbuf_read. rewrite circbuf_peek_spec by done. simpl.
  eexists. split; [done|]. split; [|done].
  set (n := zlen (take (Z.to_nat bytes) q)).
  assert (drop (Z.to_nat bytes) q = drop (Z.to_nat n) q) as ->.
  { unfold n. rewrite length_take. destruct (Z.lt_ge_cases bytes (zlen q)).
    - f_equal. lia.
    - rewrite !drop_ge; [done|lia..]. }
  apply cb_advance. unfold n. rewrite length_take. lia.
Qed.

Lemma circbuf_skip_spec bytes :
  0 <= bytes ->
  exists c', circbuf_skip bytes c = (Z.min bytes (zlen q), c') /\
    cb_abs c' (drop (Z.to_nat bytes) q) /\ size c' = size c.
Proof.
  intros Hb. unfold circbuf_skip. rewrite cb_used.
  destruct (Z.ltb_spec (zlen q) bytes).
  - rewrite Z.min_r by lia. eexists. split; [done|]. split; [|done].
    replace (drop (Z.to_nat bytes) q) with (drop (Z.to_nat (zlen q)) q)
      by (rewrite !drop_ge; [done|lia..]).
    apply cb_advance. lia.
  - rewrite Z.min_l by lia. eexists. split; [done|]. split; [|done].
    apply cb_advance. lia.
Qed.

Lemma circbuf_write_spec src :
  let n := Z.min (size c - zlen q) (zlen src) in
  wrap_ok (size c) (tail c + zlen q + n) ->
  exists c', circbuf_write src c = Some (n, c') /\
    cb_abs c' (q ++ take (Z.to_nat n) src) /\ size c' = size c.
Proof.
  intros n Hwr. pose proof H as [(b & Eb & Hlb & Hw) Hs Hdv Ht Hh Hl].
  unfold circbuf_write. rewrite cb_size_nz, cb_space.
  replace (if size c - zlen q <? zlen src then size c - zlen q else zlen src) with n
    by (unfold n; destruct (Z.ltb_spec (size c - zlen q) (zlen src)); lia).
  rewrite Hh, cb_slot, Eb by lia. cbn [mbind option_bind].
  assert (0 <= (tail c + zlen q) mod size c < size c) by (apply Z.mod_pos_bound; lia).
  rewrite (u32_small (size c - _)) by lia. rewrite <- Hlb in *.
  destruct (copy_in_window b (tail c) (zlen q) src n) as (b' & E & Hlb' & Hw'); [lia..|].
  rewrite E. cbn [mbind option_bind]. eexists. split; [done|]. split; [|done].
  assert (zlen (q ++ take (Z.to_nat n) src) = zlen q + n) as Hlq
    by (rewrite length_app, length_take; lia).
  constructor; simpl; rewrite ?Hlq, <- ?Hlb; auto; try lia.
  - exists b'. split; [done|]. split; [done|]. by rewrite Hw', Hw.
  - by rewrite Z.add_assoc.
  - rewrite u32_u32_add_l. f_equal. lia.
Qed.

(** Overwriting drops the oldest bytes, as many as needed; a source longer
    than the buffer needs a buffer that is not empty. *)
Lemma circbuf_overwrite_spec src :
  zlen src <= size c \/ q <> [] -> zlen src < 2 ^ 31 -> size c < 2 ^ 31 ->
  wrap_ok (size c) (tail c + zlen q + zlen src) ->
  let n := Z.max 0 (zlen q + zlen src - size c) in
  exists c', circbuf_overwrite src c = Some (n, c') /\
    cb_abs c' (drop (Z.to_nat n) (q ++ src)) /\ size c' = size c.
Proof.
  intros Hpre Hsl Hsz Hwr n. pose proof H as [(b & Eb & Hlb & Hw) Hs Hdv Ht Hh Hl].
  unfold circbuf_overwrite. rewrite cb_size_nz, cb_space.
  set (skip := if size c <? zlen src then zlen src - size c else 0).
  assert (Hsk : 0 <= skip /\ (skip = 0 /\ zlen src <= size c \/
                              skip = zlen src - size c /\ size c < zlen src))
    by (unfold skip; destruct (Z.ltb_spec (size c) (zlen src)); lia).
  set (src' := drop (Z.to_nat skip) src).
  assert (zlen src' = zlen src - skip) as Hls by (unfold src'; rewrite length_drop; lia).
  assert (q = [] -> zlen src <= size c) as Hne by (intros ->; by destruct Hpre).
  assert (zlen q = 0 -> zlen src <= size c) as Hne'
    by (intros Hz; apply Hne, length_zero_iff_nil; lia).
  replace (if size c - zlen q <? zlen src'
           then u32 (zlen src' - (size c - zlen q) + skip) else 0) with n.
  2: { unfold n. destruct (Z.ltb_spec (size c - zlen q) (zlen src'));
         [rewrite u32_small; lia|]. lia. }
  assert (u32 (head c + skip) = u32 (tail c + zlen q + skip)) as ->
    by (by rewrite Hh, u32_u32_add_l).
  rewrite (wrap_slot _ _ _ (proj1 Hs) Hwr), Eb by lia. cbn [mbind option_bind].
  assert (0 <= (tail c + zlen q + skip) mod size c < size c) by (apply Z.mod_pos_bound; lia).
  rewrite (u32_small (size c - _)) by lia. rewrite <- Hlb in *.
  set (k := zlen q + skip - n).
  assert (0 <= k /\ k + zlen src' <= zlen b) as Hk by (unfold k, n; lia).
  replace (tail c + zlen q + skip) with (tail c + n + k) in * by (unfold k; lia).
  destruct (copy_in_window b (tail c + n) k src' (zlen src')) as (b' & E & Hlb' & Hw'); [lia..|].
  rewrite E. cbn [mbind option_bind]. eexists. split; [done|]. split; [|done].
  assert (zlen (drop (Z.to_nat n) (q ++ src)) = k + zlen src') as Hlq
    by (rewrite length_drop, length_app; unfold k, n; lia).
  constructor; cbn [base size tail head set_base set_head set_tail]; rewrite ?Hlq, <- ?Hlb;
    auto with nx; try lia.
  - exists b'. split; [done|]. split; [done|].
    rewrite (window_mod _ _ (tail c + n)) by
      (rewrite Hlb'; apply (wrap_slot _ _ _ (proj1 Hs) Hwr); unfold n; lia).
    rewrite Hw', (take_ge src') by lia.
    destruct Hsk as [Hsk [[Hz ?]|[Hz ?]]].
    + rewrite drop_app_le by (unfold n; lia).
      unfold src'. rewrite Hz, drop_0. f_equal.
      rewrite window_drop by (unfold n; lia). unfold k. rewrite Hz.
      replace (n + (zlen q + 0 - n)) with (zlen q) by lia. by rewrite Hw.
    + rewrite drop_app_ge by (unfold n; lia).
      assert (k = 0) as -> by (unfold k, n; lia). rewrite window_0. simpl. unfold src'.
      f_equal. unfold n. lia.
  - apply wrap_ok_u32; [unfold n; lia|lia|].
    by replace (tail c + n + (k + zlen src')) with (tail c + zlen q + zlen src) by (unfold k; lia).
  - rewrite !u32_u32_add_l. f_equal. unfold k. lia.
Qed.
End queue.

(** ** Sequences of operations *)

Inductive cb_op :=
| CbWrite (src : list Z)
| CbOverwrite (src : list Z)
| CbRead (n : Z)
| CbPeek (n : Z)
| CbSkip (n : Z)
| CbReset
| CbUsed
| CbSpace.

(** The result and the bytes copied out. *)
Definition cb_exec (o : cb_op) (c : circbuf_s) : option (Z * list Z * circbuf_s) :=
  match o with
  | CbWrite src => '(n, c) ← circbuf_write src c; Some (n, [], c)
  | CbOverwrite src => '(n, c) ← circbuf_overwrite src c; Some (n, [], c)
  | CbRead n => '(l, c) ← circbuf_read n c; Some (zlen l, l, c)
  | CbPeek n => l ← circbuf_peek n c; Some (zlen l, l, c)
  | CbSkip n => let '(n, c) := circbuf_skip n c in Some (n, [], c)
  | CbReset => Some (0, [], circbuf_reset c)
  | CbUsed => Some (circbuf_used c, [], c)
  | CbSpace => Some (circbuf_space c, [], c)
  end.

(** The same operations on a queue of at most [sz] bytes. *)
Definition bq_exec (sz : Z) (o : cb_op) (q : list Z) : Z * list Z * list Z :=
  match o with
  | CbWrite src => let n := Z.min (sz - zlen q) (zlen src) in
                   (n, [], q ++ take (Z.to_nat n) src)
  | CbOverwrite src => let n := Z.max 0 (zlen q + zlen src - sz) in
                       (n, [], drop (Z.to_nat n) (q ++ src))
  | CbRead n => let l := take (Z.to_nat n) q in (zlen l, l, drop (Z.to_nat n) q)
  | CbPeek n => let l := take (Z.to_nat n) q in (zlen l, l, q)
  | CbSkip n => (Z.min n (zlen q), [], drop (Z.to_nat n) q)
  | CbReset => (0, [], [])
  | CbUsed => (zlen q, [], q)
  | CbSpace => (sz - zlen q, [], q)
  end.

(** Counts are not negative and an overwrite is not longer than the buffer. *)
Definition cb_op_ok (sz : Z) (o : cb_op) : Prop :=
  match o with
  | CbOverwrite src => zlen src <= sz
  | CbRead n | CbPeek n | CbSkip n => 0 <= n
  | _ => True
  end.

Fixpoint cb_run (ops : list cb_op) (c : circbuf_s) : option (list (Z * list Z) * circbuf_s) :=
  match ops with
  | [] => Some ([], c)
  | o :: ops => '(r, l, c) ← cb_exec o c; '(rs, c) ← cb_run ops c; Some ((r, l) :: rs, c)
  end.

Fixpoint bq_run (sz : Z) (ops : list cb_op) (q : list Z) : list (Z * list Z) * list Z :=
  match ops with
  | [] => ([], q)
  | o :: ops => let '(r, l, q) := bq_exec sz o q in
                let '(rs, q) := bq_run sz ops q in ((r, l) :: rs, q)
  end.

Lemma cb_abs_reset c q : cb_abs c q -> cb_abs (circbuf_reset c) [].
Proof.
  intros [(b & Eb & Hlb & _) Hs Hdv _ _ _]. constructor; simpl; auto; try lia.
  - by exists b.
  - by right.
Qed.

Lemma cb_exec_refines o c q :
  cb_abs c q -> (size c | 2 ^ 32) -> size c < 2 ^ 31 -> cb_op_ok (size c) o ->
  let '(r, l, q') := bq_exec (size c) o q in
  exists c', cb_exec o c = Some (r, l, c') /\ cb_abs c' q' /\ size c' = size c.
Proof.
  intros H Hdv Hsz Hok. destruct o as [src|src|n|n|n| | |]; cbn [bq_exec cb_exec cb_op_ok] in *.
  - destruct (circbuf_write_spec c q H src) as (c' & -> & ?); [by left|]. by exists c'.
  - destruct (circbuf_overwrite_spec c q H src) as (c' & -> & ?); [by left|lia|lia|by left|]. by exists c'.
  - destruct (circbuf_read_spec c q H n Hok) as (c' & -> & ?). by exists c'.
  - rewrite (circbuf_peek_spec c q H n Hok). by exists c.
  - destruct (circbuf_skip_spec c q H n Hok) as (c' & -> & ?). by exists c'.
  - exists (circbuf_reset c). by split; [|split; [apply (cb_abs_reset c q)|]].
  - exists c. by rewrite (cb_used c q H).
  - exists c. by rewrite (cb_space c q H).
Qed.

Lemma cb_run_refines ops c q :
  cb_abs c q -> (size c | 2 ^ 32) -> size c < 2 ^ 31 -> Forall (cb_op_ok (size c)) ops ->
  exists c', cb_run ops c = Some (fst (bq_run (size c) ops q), c') /\
             cb_abs c' (snd (bq_run (size c) ops q)).
Proof.
  revert c q. induction ops as [|o ops IH]; intros c q H Hdv Hs Hok; [by exists c|].
  apply Forall_cons_1 in Hok as [Ho Hok]. cbn [cb_run bq_run].
  pose proof (cb_exec_refines o c q H Hdv Hs Ho) as He.
  destruct (bq_exec (size c) o q) as [[r l] q1]. destruct He as (c1 & -> & H1 & Hs1).
  cbn [mbind option_bind]. rewrite <- Hs1 in *.
  destruct (IH c1 q1 H1 Hdv Hs Hok) as (c2 & -> & H2). simpl.
  destruct (bq_run (size c1) ops q1). by exists c2.
Qed.

(** C21: A circular buffer whose size divides [2^32] and is below [2^31] is a
    byte queue: from [circbuf_init] on, every sequence of writes, overwrites of
    no more bytes than the buffer has, and reads, peeks, skips (with counts that
    are not negative) and resets returns without an access outside the buffer
    exactly the counts and the bytes the queue returns, however often the 32-bit
    counters wrap.  Writes store what fits, overwrites drop the oldest bytes,
    reads return the oldest. *)
Theorem circbuf_refines_queue ops b bytes mem c :
  zlen b = bytes -> 0 < bytes < 2 ^ 31 -> (bytes | 2 ^ 32) -> Forall (cb_op_ok bytes) ops ->
  exists c', cb_run ops (snd (circbuf_init (Some b) bytes mem c)) =
               Some (fst (bq_run bytes ops []), c') /\
             cb_abs c' (snd (bq_run bytes ops [])).
Proof.
  intros Hl Hs Hd Hok.
  apply (cb_run_refines ops (snd (circbuf_init (Some b) bytes mem c)) []); simpl; [|done|lia|done].
  constructor; simpl; [by exists b|lia|by left|done || lia..].
Qed.

Definition no_circ : circbuf_s := mk_circ None 0 0 0 false.

Lemma circbuf_refines_queue_witness :
  exists c', cb_run [CbWrite [1; 2; 3]; CbRead 2; CbWrite [4; 5; 6; 7]; CbPeek 9;
                     CbOverwrite [8; 9]; CbRead 9]
               (snd (circbuf_init (Some [0; 0; 0; 0]) 4 None no_circ)) =
             Some ([(3, []); (2, [1; 2]); (3, []); (4, [3; 4; 5; 6]); (2, []);
                    (4, [5; 6; 8; 9])], c').
Proof.
  destruct (circbuf_refines_queue
    [CbWrite [1; 2; 3]; CbRead 2; CbWrite [4; 5; 6; 7]; CbPeek 9; CbOverwrite [8; 9]; CbRead 9]
    [0; 0; 0; 0] 4 None no_circ) as (c' & E & _); [done|lia|by exists (2 ^ 30)| |by exists c'].
  repeat constructor; simpl; lia.
Defined.

(** ** Where the contract fails *)

(** An overwrite of more than [size] bytes on an empty buffer leaves the
    buffer claiming to hold more than it can ([overwrite] stays 0, so the tail
    does not follow the skipped bytes): the used count exceeds the size, the
    free space wraps to a number near [2^32], and the next write of more bytes
    than the buffer has goes outside its memory. *)
Theorem circbuf_overwrite_empty_breaks c b src src2 :
  base c = Some b -> zlen b = size c -> 0 < size c < 2 ^ 30 ->
  head c = 0 -> tail c = 0 -> size c < zlen src < 2 ^ 30 ->
  2 * size c < zlen src2 < 2 ^ 30 ->
  exists c', circbuf_overwrite src c = Some (0, c') /\
    circbuf_used c' = zlen src /\ size c' < circbuf_used c' /\
    circbuf_space c' = 2 ^ 32 - (zlen src - size c) /\
    circbuf_write src2 c' = None.
Proof.
  intros Eb Hlb Hs Hh Ht Hl Hl2. unfold circbuf_overwrite.
  replace (size c =? 0) with false by (symmetry; lia).
  replace (size c <? zlen src) with true by (symmetry; lia).
  set (src' := drop _ src).
  assert (zlen src' = size c) as Hls by (unfold src'; rewrite length_drop; lia).
  unfold circbuf_space, circbuf_used, circbuf_size. rewrite Hh, Ht, Hls, Eb.
  change (u32 (0 - 0)) with 0. rewrite (u32_small (size c - 0)) by lia.
  replace (size c - 0 <? size c) with false by (symmetry; lia).
  rewrite (u32_small (0 + (zlen src - size c))) by lia. cbn [mbind option_bind].
  set (off := (0 + (zlen src - size c)) mod size c).
  assert (0 <= off < size c) by (apply Z.mod_pos_bound; lia).
  rewrite (u32_small (size c - off)) by lia.
  destruct (copy_in_spec b off src' (size c)) as (b' & E & Hlb' & _); [lia..|].
  rewrite Hlb in E. rewrite E. cbn [mbind option_bind].
  eexists. split; [done|]. simpl. rewrite (u32_small (0 + 0)) by lia.
  rewrite (u32_small (0 + _ + _)) by lia. rewrite (u32_small (0 + _ + _ - 0)) by lia.
  assert (u32 (size c - (0 + (zlen src - size c) + size c - 0)) = 2 ^ 32 - (zlen src - size c)) as Hsp.
  { symmetry. apply Z.mod_unique with (-1); lia. }
  split; [lia|]. split; [lia|]. split; [exact Hsp|].
  unfold circbuf_write, circbuf_space, circbuf_used, circbuf_size. simpl.
  replace (size c =? 0) with false by (symmetry; lia).
  rewrite (u32_small (0 + _ + _ - 0)) by lia. rewrite Hsp.
  replace (2 ^ 32 - (zlen src - size c) <? zlen src2) with false by (symmetry; lia).
  set (off2 := (0 + (zlen src - size c) + size c) mod size c).
  assert (0 <= off2 < size c) by (apply Z.mod_pos_bound; lia).
  rewrite (u32_small (size c - off2)) by lia.
  replace (zlen src2 <? size c - off2) with false by (symmetry; lia).
  unfold copy_in. rewrite (loads_in_range src2 0) by lia. cbn [mbind option_bind].
  rewrite drop_0. set (l1 := take _ src2).
  assert (zlen l1 = size c - off2) by (unfold l1; rewrite length_take; lia).
  rewrite stores_in_range by lia. cbn [mbind option_bind].
  rewrite (u32_small (zlen src2 - _)) by lia. rewrite loads_in_range by lia.
  cbn [mbind option_bind]. unfold stores.
  replace (_ && _) with false; [done|].
  symmetry. apply andb_false_intro2, Z.leb_gt.
  rewrite !length_app, !length_take, !length_drop. lia.
Qed.

Lemma circbuf_overwrite_empty_breaks_witness :
  let c := mk_circ (Some [0; 0]) 2 0 0 true in
  exists c', circbuf_overwrite [1; 2; 3] c = Some (0, c') /\ circbuf_used c' = 3 /\
    circbuf_write [1; 2; 3; 4; 5] c' = None.
Proof.
  destruct (circbuf_overwrite_empty_breaks (mk_circ (Some [0; 0]) 2 0 0 true) [0; 0] [1; 2; 3]
              [1; 2; 3; 4; 5]) as (c' & H1 & H2 & _ & _ & H5); simpl; try (done || lia).
  by exists c'.
Defined.

(** When the size does not divide [2^32], the wrap of the write counter
    moves it to another slot: a three-byte buffer whose counters stand at
    [2^32 - 1] accepts two one-byte writes, and a read then returns two bytes
    that are not the ones written. *)
Theorem circbuf_wrap_corrupts x y z a b :
  a <> b ->
  let c := mk_circ (Some [x; y; z]) 3 UINT32_MAX UINT32_MAX true in
  circbuf_used c = 0 /\
  exists c1 c2 c3,
    circbuf_write [a] c = Some (1, c1) /\ circbuf_write [b] c1 = Some (1, c2) /\
    circbuf_used c2 = 2 /\ circbuf_read 2 c2 = Some ([b; y], c3) /\ [b; y] <> [a; b].
Proof.
  intros Hab. split; [done|]. repeat eexists. congruence.
Qed.

Lemma circbuf_wrap_corrupts_witness :
  exists c1 c2 c3,
    circbuf_write [5] (mk_circ (Some [0; 0; 0]) 3 UINT32_MAX UINT32_MAX true) = Some (1, c1) /\
    circbuf_write [6] c1 = Some (1, c2) /\
    circbuf_used c2 = 2 /\ circbuf_read 2 c2 = Some ([6; 0], c3) /\ [6; 0] <> [5; 6].
Proof. apply (circbuf_wrap_corrupts 0 0 0 5 6). lia. Defined.

(** ** Resizing and access without copying *)

Lemma circbuf_resize_spec c q bytes mem :
  cb_abs c q -> 0 < bytes < 2 ^ 32 -> bytes <> size c -> zlen mem = bytes ->
  exists c', circbuf_resize bytes (Some mem) c = Some (0, c') /\ size c' = bytes /\
    cb_abs c' (drop (Z.to_nat (zlen q - bytes)) q).
Proof.
  intros H Hb Hne Hm. unfold circbuf_resize.
  replace (bytes =? size c) with false by (symmetry; lia).
  replace (bytes =? 0) with false by (symmetry; lia). rewrite (cb_used c q H).
  pose proof (ca_size _ _ H). pose proof (ca_len _ _ H).
  assert (Hend : forall c1 q1, cb_abs c1 q1 -> zlen q1 <= bytes ->
    exists c', ('(l, c) ← circbuf_read (zlen q1) c1;
                tmp ← stores mem 0 l;
                Some (0, mk_circ (Some tmp) bytes (zlen q1) 0 (external c))) = Some (0, c') /\
               size c' = bytes /\ cb_abs c' q1).
  { intros c1 q1 Hc1 Hq1. destruct (circbuf_read_spec c1 q1 Hc1 (zlen q1)) as (c2 & -> & _); [lia|].
    rewrite take_ge by lia. cbn [mbind option_bind]. rewrite stores_in_range by lia.
    cbn [mbind option_bind]. eexists. split; [done|]. split; [done|].
    constructor; simpl; try (done || lia).
    - eexists. split; [done|].
      assert (Z.of_nat (length (q1 ++ drop (length q1) mem)) = bytes) as Hl
        by (rewrite length_app, length_drop; lia).
      split; [done|]. rewrite window_slice; rewrite ?Hl, ?Z.mod_0_l by lia; try lia.
      rewrite drop_0, take_app_le, take_ge by lia. done.
    - right. lia.
    - symmetry. apply u32_small. lia. }
  destruct (Z.ltb_spec bytes (zlen q)).
  - destruct (circbuf_skip_spec c q H (u32 (zlen q - bytes))) as (c1 & E & Hc1 & _);
      [apply u32_range|]. rewrite E. simpl snd. rewrite (u32_small (zlen q - bytes)) in Hc1 by lia.
    assert (zlen (drop (Z.to_nat (zlen q - bytes)) q) = bytes) as Hl by (rewrite length_drop; lia).
    destruct (Hend c1 _ Hc1) as (c' & E' & ?); [lia|]. rewrite Hl in E'.
    exists c'. rewrite E'. done.
  - destruct (Hend c q H) as (c' & E' & ?); [lia|]. exists c'. rewrite E'.
    replace (Z.to_nat (zlen q - bytes)) with 0%nat by lia. by rewrite drop_0.
Qed.

(** C27: [circbuf_resize] to another size keeps the newest
    bytes: all of them when they fit, otherwise the last [bytes] of them, in
    order. *)
Theorem circbuf_resize_keeps_newest c q bytes mem :
  cb_abs c q -> 0 < bytes < 2 ^ 32 -> bytes <> size c -> zlen mem = bytes ->
  exists c', circbuf_resize bytes (Some mem) c = Some (0, c') /\ size c' = bytes /\
    circbuf_peek bytes c' = Some (drop (Z.to_nat (zlen q - bytes)) q).
Proof.
  intros H Hb Hne Hm.
  destruct (circbuf_resize_spec c q bytes mem H Hb Hne Hm) as (c' & E & Hs & H').
  exists c'. split; [done|]. split; [done|]. rewrite (circbuf_peek_spec c' _ H') by lia.
  f_equal. apply take_ge. pose proof (ca_len _ _ H'). lia.
Qed.

(** Five bytes in a buffer of eight, across its end. *)
Definition five_bytes : circbuf_s := mk_circ (Some [4; 5; 0; 0; 0; 1; 2; 3]) 8 10 5 false.

Lemma five_bytes_abs : cb_abs five_bytes [1; 2; 3; 4; 5].
Proof.
  constructor; simpl; try (done || lia); [by eexists|left; by exists (2 ^ 29)].
Qed.

Lemma circbuf_resize_keeps_newest_witness :
  exists c', circbuf_resize 4 (Some [0; 0; 0; 0]) five_bytes = Some (0, c') /\ size c' = 4 /\
    circbuf_peek 4 c' = Some [2; 3; 4; 5].
Proof.
  apply (circbuf_resize_keeps_newest five_bytes [1; 2; 3; 4; 5] 4 [0; 0; 0; 0] five_bytes_abs);
    [lia|done|done].
Defined.

(** C28: The pointers of [circbuf_get_readptr] and [circbuf_get_writeptr] stay
    inside the buffer: the bytes at the read pointer are a prefix of the queue
    and committing them removes exactly these; bytes stored at the write
    pointer, up to the size it came with, and committed are appended. *)
Theorem circbuf_zero_copy c q b src :
  cb_abs c q -> base c = Some b -> size c < 2 ^ 31 ->
  wrap_ok (size c) (tail c + zlen q + zlen src) ->
  exists ro rn wo wn,
    circbuf_get_readptr c = Some (ro, rn) /\ circbuf_get_writeptr c = Some (wo, wn) /\
    loads b ro rn = Some (take (Z.to_nat rn) q) /\
    cb_abs (circbuf_readcommit rn c) (drop (Z.to_nat rn) q) /\
    (zlen src <= wn ->
     exists b', stores b wo src = Some b' /\
       cb_abs (circbuf_writecommit (zlen src) (set_base b' c)) (q ++ src)).
Proof.
  intros H Eb Hs2 Hwr. pose proof H as [(b0 & Eb0 & Hlb & Hw) Hs Hdv Ht Hh Hl].
  rewrite Eb in Eb0. injection Eb0 as <-.
  unfold circbuf_get_readptr, circbuf_get_writeptr, contiguous.
  rewrite (cb_size_nz c q H), (cb_used c q H), (cb_space c q H).
  set (ro := tail c mod size c). set (wo := head c mod size c).
  assert (0 <= ro < size c) by (apply Z.mod_pos_bound; lia).
  assert (0 <= wo < size c) by (apply Z.mod_pos_bound; lia).
  rewrite !u32_small by lia.
  set (rn := if size c <? ro + zlen q then size c - ro else zlen q).
  set (wn := if size c <? wo + (size c - zlen q) then size c - wo else size c - zlen q).
  assert (0 <= rn <= zlen q /\ ro + rn <= size c) as Hrn
    by (unfold rn; destruct (Z.ltb_spec (size c) (ro + zlen q)); lia).
  assert (wn <= size c - zlen q /\ wo + wn <= size c) as Hwn
    by (unfold wn; destruct (Z.ltb_spec (size c) (wo + (size c - zlen q))); lia).
  exists ro, rn, wo, wn. do 2 (split; [done|]). split; [|split].
  - rewrite loads_in_range by lia. f_equal. unfold ro. rewrite <- Hlb.
    rewrite <- window_slice by (rewrite ?Hlb; lia).
    rewrite (window_take b (tail c) rn (zlen q)) by lia. by rewrite Hw.
  - apply (cb_advance c q H). lia.
  - intros Hsrc. pose proof (copy_in_window b (tail c) (zlen q) src (zlen src)) as Hc.
    cbv zeta in Hc. rewrite Hlb in Hc.
    assert (wo = (tail c + zlen q) mod size c) as Hwo
      by (unfold wo; rewrite Hh; apply (cb_slot c q H); lia).
    rewrite <- Hwo in Hc. destruct Hc as (b' & E & Hlb' & Hw'); [lia..|].
    assert (stores b wo src = Some b') as Est.
    { revert E. unfold copy_in.
      replace (if zlen src <? size c - wo then zlen src else size c - wo) with (zlen src)
        by (destruct (Z.ltb_spec (zlen src) (size c - wo)); lia).
      rewrite (loads_in_range src 0) by lia. cbn [mbind option_bind].
      rewrite drop_0, take_ge by lia.
      rewrite (stores_in_range b wo src) by lia. cbn [mbind option_bind].
      rewrite Z.sub_diag. change (u32 0) with 0. rewrite loads_in_range by lia.
      cbn [mbind option_bind]. simpl (take _ _). rewrite stores_in_range by (simpl; lia).
      intros <-. f_equal. }
    exists b'. split; [done|].
    constructor; simpl; rewrite ?length_app; try (done || lia).
    + exists b'. split; [done|]. split; [lia|].
      rewrite Nat2Z.inj_add, Hw', Hw, take_ge by lia. done.
    + by rewrite Nat2Z.inj_add, Z.add_assoc.
    + rewrite Hh, u32_u32_add_l. f_equal. lia.
Qed.

Lemma circbuf_zero_copy_witness :
  exists ro rn wo wn,
    circbuf_get_readptr five_bytes = Some (ro, rn) /\
    circbuf_get_writeptr five_bytes = Some (wo, wn) /\
    loads [4; 5; 0; 0; 0; 1; 2; 3] ro rn = Some (take (Z.to_nat rn) [1; 2; 3; 4; 5]).
Proof.
  destruct (circbuf_zero_copy five_bytes [1; 2; 3; 4; 5] [4; 5; 0; 0; 0; 1; 2; 3] [6; 7]
              five_bytes_abs eq_refl eq_refl ltac:(by right)) as (ro & rn & wo & wn & H1 & H2 & H3 & _).
  by exists ro, rn, wo, wn.
Defined.

(** ** Buffers of records

    A buffer of [nb] records of [e] bytes that records are only added to: it
    holds the last [nb] of all records [l] ever written, and [head] counts their
    bytes. *)

Definition lastn {A} (n : nat) (l : list A) : list A := drop (length l - n) l.

Section records.
Context (e : Z).
Hypothesis He : 0 < e.

Definition rec_ok (l : list (list Z)) : Prop := Forall (fun r => zlen r = e) l.

Lemma zlen_concat l : rec_ok l -> zlen (concat l) = e * zlen l.
Proof.
  induction 1 as [|r l Hr _ IH]; [simpl; lia|]. simpl. rewrite length_app. lia.
Qed.

Lemma drop_concat l m :
  rec_ok l -> drop (Z.to_nat (e * Z.of_nat m)) (concat l) = concat (drop m l).
Proof.
  intros Hl. revert m. induction Hl as [|r l Hr Hl IH]; intros m; [cbn [concat]; by rewrite !drop_nil|].
  destruct m as [|m]; cbn [drop concat].
  - by rewrite Z.mul_0_r.
  - rewrite drop_app_ge by lia.
    replace (Z.to_nat (e * Z.of_nat (S m)) - length r)%nat with (Z.to_nat (e * Z.of_nat m)) by lia.
    apply IH.
Qed.

Lemma take_concat l m :
  rec_ok l -> take (Z.to_nat (e * Z.of_nat m)) (concat l) = concat (take m l).
Proof.
  intros Hl. revert m. induction Hl as [|r l Hr Hl IH]; intros m; [cbn [concat]; by rewrite !take_nil|].
  destruct m as [|m]; cbn [take concat].
  - by rewrite Z.mul_0_r.
  - rewrite take_app_ge by lia.
    replace (Z.to_nat (e * Z.of_nat (S m)) - length r)%nat with (Z.to_nat (e * Z.of_nat m)) by lia.
    by rewrite IH.
Qed.

Lemma rec_ok_drop l m : rec_ok l -> rec_ok (drop m l).
Proof. apply Forall_drop. Qed.

Lemma rec_ok_lastn n l : rec_ok l -> rec_ok (lastn n l).
Proof. apply Forall_drop. Qed.

Record rec_abs (c : circbuf_s) (nb : nat) (l : list (list Z)) : Prop := {
  ra_abs : cb_abs c (concat (lastn nb l));
  ra_ok : rec_ok l;
  ra_size : size c = Z.of_nat nb * e;
  ra_head : head c = zlen l * e;
  ra_bound : zlen l * e < 2 ^ 32
}.

Lemma length_lastn {A} n (l : list A) : length (lastn n l) = Nat.min n (length l).
Proof. unfold lastn. rewrite length_drop. lia. Qed.

Lemma rec_tail c nb l :
  rec_abs c nb l -> tail c = (zlen l - zlen (lastn nb l)) * e.
Proof.
  intros [Ha Hok Hs Hh Hb]. pose proof (ca_head _ _ Ha) as H1. pose proof (ca_tail _ _ Ha) as H2.
  pose proof (ca_wrap _ _ Ha) as H3.
  rewrite (zlen_concat _ (rec_ok_lastn nb _ Hok)) in *. rewrite Hh in H1.
  pose proof (length_lastn nb l) as Hl.
  assert (0 <= zlen l * e) by nia. assert (0 <= e * zlen (lastn nb l)) by nia.
  assert (e * zlen (lastn nb l) <= zlen l * e) by nia.
  destruct (Z.lt_ge_cases (tail c + e * zlen (lastn nb l)) (2 ^ 32)) as [Hlt|Hge].
  - rewrite u32_small in H1 by lia. lia.
  - exfalso. replace (u32 (tail c + e * zlen (lastn nb l)))
      with (tail c + e * zlen (lastn nb l) - 2 ^ 32) in H1; [lia|].
    apply Z.mod_unique with 1; lia.
Qed.

(** Adding up to [nb] records at once. *)
Lemma rec_overwrite c nb l xs :
  rec_abs c nb l -> rec_ok xs -> (length xs <= nb)%nat -> Z.of_nat nb * e < 2 ^ 31 ->
  (zlen l + zlen xs) * e < 2 ^ 32 ->
  exists n c', circbuf_overwrite (concat xs) c = Some (n, c') /\ rec_abs c' nb (l ++ xs).
Proof.
  intros H Hxs Hn Hnb Hb. pose proof (rec_tail _ _ _ H) as Ht. destruct H as [Ha Hok Hs Hh Hlb].
  pose proof (zlen_concat _ Hxs) as Hlx.
  pose proof (zlen_concat _ (rec_ok_lastn nb _ Hok)) as Hll.
  pose proof (length_lastn nb l) as Hln.
  assert (e * zlen xs <= Z.of_nat nb * e) by nia.
  destruct (circbuf_overwrite_spec c _ Ha (concat xs)) as (c' & E & Ha' & Hs').
  { left. rewrite Hs, Hlx. done. }
  { lia. }
  { lia. }
  { right. rewrite Ht, Hll, Hlx. lia. }
  set (n := Z.max 0 _) in *. exists n, c'. split; [done|].
  assert (drop (Z.to_nat n) (concat (lastn nb l) ++ concat xs) = concat (lastn nb (l ++ xs))) as Hq.
  { rewrite <- concat_app. set (m := (length (lastn nb l ++ xs) - nb)%nat).
    replace n with (e * Z.of_nat m).
    2: { unfold n, m. rewrite Hll, Hlx, Hs, length_app. nia. }
    rewrite drop_concat by (apply Forall_app; split; [by apply rec_ok_lastn|done]).
    f_equal. unfold lastn at 2. rewrite length_app. unfold m. rewrite length_app.
    unfold lastn at 2. rewrite <- drop_app_le by lia. rewrite drop_drop. f_equal.
    rewrite Hln. lia. }
  rewrite Hq in Ha'.
  assert (rec_ok (l ++ xs)) as Hok' by (by apply Forall_app).
  constructor; [done|done|congruence| |rewrite length_app; lia].
  pose proof E as E'. unfold circbuf_overwrite in E'.
  rewrite (cb_size_nz c _ Ha) in E'.
  replace (size c <? zlen (concat xs)) with false in E' by (symmetry; lia).
  rewrite drop_0 in E'. destruct (base c) as [b|]; [|done]. cbn [mbind option_bind] in E'.
  destruct (copy_in b _ _ _ _) as [b'|]; [|done]. cbn [mbind option_bind] in E'.
  injection E' as _ <-. simpl. rewrite Hh, Z.add_0_r, Hlx, length_app.
  rewrite !u32_small; [lia|nia|rewrite u32_small by nia; nia].
Qed.

(** Reading records from number [p] on, when that record is still there. *)
Lemma rec_peekat c nb l p m :
  rec_abs c nb l -> (length l - nb <= p <= length l)%nat ->
  circbuf_peekat (Z.of_nat p * e) (Z.of_nat m * e) c = Some (concat (take m (drop p l))).
Proof.
  intros H Hp. pose proof (rec_tail _ _ _ H) as Ht. destruct H as [Ha Hok Hs Hh Hlb].
  pose proof (length_lastn nb l) as Hln.
  set (d := (p - (length l - length (lastn nb l)))%nat).
  assert (Z.of_nat p = zlen l - zlen (lastn nb l) + Z.of_nat d) as Hpd by (unfold d; lia).
  pose proof (zlen_concat _ (rec_ok_lastn nb _ Hok)) as Hll.
  pose proof (circbuf_peekat_at c _ Ha (e * Z.of_nat d) (Z.of_nat m * e)) as E.
  rewrite Ht in E.
  replace ((zlen l - zlen (lastn nb l)) * e + e * Z.of_nat d) with (Z.of_nat p * e) in E by nia.
  rewrite u32_small in E by nia. rewrite E; [|rewrite Hll; unfold d; nia|nia].
  rewrite drop_concat by (by apply rec_ok_lastn). rewrite (Z.mul_comm (Z.of_nat m)).
  rewrite take_concat by (by apply rec_ok_drop, rec_ok_lastn).
  do 3 f_equal. unfold lastn. rewrite drop_drop. f_equal. unfold d. lia.
Qed.
End records.
