(* ===== verification/Camera.v ===== *)
(** The camera task.

    Models apps/examples/camera_MSN2/camera_MSN2.c: the UART helpers, the
    handshake, the SPI image transfer and [camera_MSN2_main] with all its error
    paths.  The kernel services it calls and the OpenMV camera at the other end
    of the wires are the interface [Env]; what the program relies on of them is
    stated as laws.  A computation is a function on the state of the task; a
    result [None] is undefined behaviour, in the state it happens in.  The calls
    to the ring buffer, [rb_init] and every [rb_push], are part of the result of
    [camera_MSN2_main]; Pipeline.v runs them against the ring buffer.  Also
    models [cfsetspeed] of libs/libc/termios/lib_cfspeed.c, which
    [uart_configure] calls under two names. *)

From S2P Require Import Prelude.
From S2P Require Import RingBuffer.
Local Open Scope Z_scope.

(** ** Constants *)

Definition SPI_BUS : Z := 3.
Definition SPI_FREQ : Z := 4000000.
Definition SPI_MODE : Z := 0.
Definition CMD_HANDSHAKE : Z := 0x01.
Definition CMD_CAPTURE : Z := 0x02.
Definition ACK_BYTE : Z := 0xAA.
Definition IMG_BUF_SIZE : Z := 40000.
Definition SPI_XFER_SIZE : Z := CHUNK_SIZE.
Definition SPI_SYNC_BYTES : Z := 1024.
Definition META_BUF_SIZE : Z := 128.
Definition HANDSHAKE_TRIES : nat := 5.
Definition HANDSHAKE_POLLS : nat := 50.
Definition ACK_POLLS : nat := 300.
Definition ACK_POLL_US : Z := 10000.
Definition SIZE_POLLS : nat := 50.
Definition SIZE_POLL_US : Z := 10000.
Definition SPI_CS_DELAY_US : Z := 25000.

(** Of include/termios.h. *)
Record termios := mk_termios {
  c_iflag : Z;
  c_oflag : Z;
  c_cflag : Z;
  c_lflag : Z;
  c_cc : list Z;
  c_speed : Z
}.

Definition NCCS : nat := 12.
Definition VMIN : Z := 6.
Definition VTIME : Z := 5.
Definition CS8 : Z := 0x30.
Definition CREAD : Z := 0x80.
Definition CLOCAL : Z := 0x800.
Definition CSIZE : Z := 0x30.
Definition CSTOPB : Z := 0x40.
Definition PARENB : Z := 0x100.
Definition B115200 : Z := 0x1002.

(** Of libs/libc/termios/lib_cfspeed.c: the mask of the speed in [c_cflag], the
    mark of a speed without a code, and the speeds with their codes [B0],
    [B50], ... of include/termios.h. *)
Definition CBAUD : Z := 0x100f.
Definition BOTHER : Z := 0x1000.

Definition g_baud_table : list (Z * Z) :=
  [(0, 0x0); (50, 0x1); (75, 0x2); (110, 0x3); (134, 0x4); (150, 0x5); (200, 0x6);
   (300, 0x7); (600, 0x8); (1200, 0x9); (1800, 0xa); (2400, 0xb); (4800, 0xc);
   (9600, 0xd); (19200, 0xe); (38400, 0xf); (57600, 0x1001); (115200, B115200);
   (230400, 0x1003); (460800, 0x1004); (500000, 0x1005); (576000, 0x1006);
   (921600, 0x1007); (1000000, 0x1008); (1152000, 0x1009); (1500000, 0x100a);
   (2000000, 0x100b); (2500000, 0x100c); (3000000, 0x100d); (3500000, 0x100e);
   (4000000, 0x100f)].

(** The loop of [cfsetspeed]: the new [c_speed] and the bits for [c_cflag]. *)
Fixpoint baud_loop (table : list (Z * Z)) (speed : Z) : Z * Z :=
  match table with
  | [] => (speed, BOTHER)
  | (value, mask) :: table =>
      if speed =? mask then (value, speed)
      else if speed =? value then (speed, mask)
      else baud_loop table speed
  end.

(** [cfsetispeed] and [cfsetospeed] are macros for this function. *)
Definition cfsetspeed (t : termios) (speed : Z) : termios :=
  let '(c_speed', bits) := baud_loop g_baud_table speed in
  mk_termios (c_iflag t) (c_oflag t)
    (Z.lor (Z.land (c_cflag t) (Z.lnot CBAUD)) bits) (c_lflag t) (c_cc t) c_speed'.

(** The settings of the SPI device that the transfer makes. *)
Inductive spi_cmd :=
| SPI_LOCK (on : bool)
| SPI_SETMODE (mode : Z)
| SPI_SETBITS (bits : Z)
| SPI_SETFREQUENCY (freq : Z)
| SPI_SELECT (on : bool).

(** The calls of the program to the ring buffer: [rb_init], and [rb_push],
    which repeats [rb_write] until it succeeds. *)
Inductive rb_call :=
| RbInit
| RbPush (c : image_chunk_s).

(** ** The kernel and the device *)

Class Env (W : Type) := {
  (** [open(UART_DEV, ...)]: the descriptor, or a negative number. *)
  e_open : W -> Z * W;
  e_close : W -> W;
  e_tcgetattr : W -> termios * W;
  e_tcsetattr : termios -> W -> W;
  (** [read(fd, &v, 1) == 1] with the byte read, or another result. *)
  e_read : W -> option Z * W;
  e_write : Z -> W -> W;
  e_tcflush : W -> W;
  e_usleep : Z -> W -> W;
  (** [stm32_spibus_initialize]: whether it returned a device. *)
  e_spibus : W -> bool * W;
  e_spi : spi_cmd -> W -> W;
  (** [SPI_EXCHANGE]: the bytes received for the bytes sent. *)
  e_exchange : list Z -> W -> list Z * W;
  (** How many bytes the UART has received and not delivered yet; a read
      that delivers one takes it from them. *)
  e_pending : W -> nat;
  e_read_pending w v w' : e_read w = (Some v, w') -> (e_pending w' < e_pending w)%nat;
  e_tcgetattr_cc w : length (c_cc (fst (e_tcgetattr w))) = NCCS;
  e_read_byte w v w' : e_read w = (Some v, w') -> 0 <= v < 256;
  e_exchange_byte tx w : Forall (fun v => 0 <= v < 256) (fst (e_exchange tx w));
  e_exchange_length tx w : length (fst (e_exchange tx w)) = length tx
}.

(** The [printf] calls of the program. *)
Inductive msg :=
| CameraStart | UartOpenFailed | UartConfigured | SpiInitFailed | SpiReady
| HandshakeStart | TxHandshake (attempt : Z) | HandshakeOk | HandshakeFailed
| CaptureStart | CaptureSent | AckFailed (got : Z) | AckOk
| ReadTimeout (i len : Z)
| SizeReadFailed | JpegSize (n : Z) | BadJpegSize
| MetaLengthFailed | MetaLen (n : Z) | MetaLengthInvalid (n : Z)
| MetaReadFailed | Meta (s : list Z)
| WaitingSpi | SpiReading (n : Z) | SyncDiscarded
| HeaderOk | BadHeader (b0 b1 b2 : Z) | TrailerOk | BadTrailer (b0 b1 : Z)
| MetaPushed | Pushing (n : Z) | AllPushed (n : Z).

Section camera.
Context {W : Type} `{!Env W}.

(** The static buffers of the program and the world.  [uart_log] and [spi_log]
    record every byte received, in order; nothing in the program reads them. *)
Record cam := mk_cam {
  world : W;
  image_buf : list Z;
  spi_rx : list Z;
  spi_tx : list Z;
  meta_buf : list Z;
  log : list msg;
  uart_log : list Z;
  spi_log : list Z
}.

Definition M (A : Type) : Type := cam -> option A * cam.

#[global] Instance M_ret : MRet M := fun A x s => (Some x, s).
#[global] Instance M_bind : MBind M := fun A B f m s =>
  match m s with (Some x, s') => f x s' | (None, s') => (None, s') end.

(** Undefined behaviour. *)
Definition ub {A} : M A := fun s => (None, s).

(** A pure computation that may be undefined. *)
Definition lift {A} (o : option A) : M A := fun s => (o, s).

Definition printf (m : msg) : M unit := fun s =>
  (Some tt, mk_cam (world s) (image_buf s) (spi_rx s) (spi_tx s) (meta_buf s)
              (log s ++ [m]) (uart_log s) (spi_log s)).

Definition with_world {A} (f : W -> A * W) : M A := fun s =>
  let '(x, w) := f (world s) in
  (Some x, mk_cam w (image_buf s) (spi_rx s) (spi_tx s) (meta_buf s)
             (log s) (uart_log s) (spi_log s)).
Definition do_world (f : W -> W) : M unit := with_world (fun w => (tt, f w)).

(** [read(fd, &v, 1)] *)
Definition read1 : M (option Z) := fun s =>
  let '(v, w) := e_read (world s) in
  (Some v, mk_cam w (image_buf s) (spi_rx s) (spi_tx s) (meta_buf s) (log s)
             (uart_log s ++ match v with Some b => [b] | None => [] end) (spi_log s)).

Definition set_image_buf (b : list Z) : M unit := fun s =>
  (Some tt, mk_cam (world s) b (spi_rx s) (spi_tx s) (meta_buf s) (log s)
              (uart_log s) (spi_log s)).
Definition set_meta_buf (b : list Z) : M unit := fun s =>
  (Some tt, mk_cam (world s) (image_buf s) (spi_rx s) (spi_tx s) b (log s)
              (uart_log s) (spi_log s)).
Definition set_spi_tx (b : list Z) : M unit := fun s =>
  (Some tt, mk_cam (world s) (image_buf s) (spi_rx s) b (meta_buf s) (log s)
              (uart_log s) (spi_log s)).
Definition set_spi_rx (b : list Z) : M unit := fun s =>
  (Some tt, mk_cam (world s) (image_buf s) b (spi_tx s) (meta_buf s) (log s)
              (uart_log s) (spi_log s)).
Definition get {A} (f : cam -> A) : M A := fun s => (Some (f s), s).

(** ** UART helpers *)

Definition uart_write_byte (v : Z) : M unit := do_world (e_write v).

(** [None] when all retries failed; [*v] is written only on success. *)
Fixpoint uart_read_byte (retries : nat) (delay_us : Z) : M (option Z) :=
  match retries with
  | O => mret None
  | S t =>
      v ← read1;
      match v with
      | Some b => mret (Some b)
      | None =>
          (if 0 <? delay_us then do_world (e_usleep delay_us) else mret tt);;
          uart_read_byte t delay_us
      end
  end.

(** [n] bytes are left to read, the next goes to [buf[i]]; the result and the
    buffer. *)
Fixpoint uart_read_loop (buf : list Z) (i : Z) (n : nat) (len : Z) (retries : nat)
    (delay_us : Z) : M (Z * list Z) :=
  match n with
  | O => mret (0, buf)
  | S n =>
      v ← uart_read_byte retries delay_us;
      match v with
      | None => printf (ReadTimeout i len);; mret (-1, buf)
      | Some b =>
          buf ← lift (store buf i b);
          uart_read_loop buf (i + 1) n len retries delay_us
      end
  end.

Definition uart_read_exact (buf : list Z) (len : Z) (retries : nat) (delay_us : Z) :
    M (Z * list Z) :=
  uart_read_loop buf 0 (Z.to_nat len) len retries delay_us.

(** [while (read(fd, &d, 1) == 1);] with at most [n] bytes pending. *)
Fixpoint flush_loop (n : nat) : M unit :=
  v ← read1;
  match v with
  | None => mret tt
  | Some _ => match n with O => ub | S n => flush_loop n end
  end.

Definition uart_flush : M unit :=
  n ← get (fun s => e_pending (world s));
  flush_loop n;;
  do_world e_tcflush.

Definition uart_configure : M unit :=
  t ← with_world e_tcgetattr;
  let t := cfsetspeed t B115200 in
  let t := cfsetspeed t B115200 in
  cc ← lift (store (c_cc t) VMIN 0);
  cc ← lift (store cc VTIME 0);
  do_world (e_tcsetattr
    (mk_termios 0 0 (Z.lor (Z.lor CS8 CREAD) CLOCAL) 0 cc (c_speed t)));;
  printf UartConfigured.

(** ** Handshake *)

Fixpoint handshake_polls (p : nat) : M bool :=
  match p with
  | O => mret false
  | S p =>
      v ← uart_read_byte 1 0;
      if match v with Some rx => rx =? ACK_BYTE | None => false end
      then uart_flush;; printf HandshakeOk;; mret true
      else do_world (e_usleep 100000);; handshake_polls p
  end.

Fixpoint handshake_attempts (tries : nat) (attempt : Z) : M Z :=
  match tries with
  | O => printf HandshakeFailed;; mret (-1)
  | S tries =>
      uart_flush;;
      uart_write_byte CMD_HANDSHAKE;;
      printf (TxHandshake (attempt + 1));;
      ok ← handshake_polls HANDSHAKE_POLLS;
      if (ok : bool) then mret 0 else handshake_attempts tries (attempt + 1)
  end.

Definition uart_handshake : M Z :=
  printf HandshakeStart;;
  handshake_attempts HANDSHAKE_TRIES 0.

(** ** SPI image transfer *)

Definition log_spi (rx : list Z) : M unit := fun s =>
  (Some tt, mk_cam (world s) (image_buf s) (spi_rx s) (spi_tx s) (meta_buf s) (log s)
              (uart_log s) (spi_log s ++ rx)).

(** [SPI_EXCHANGE(spi_dev, spi_tx, spi_rx, xfer)] *)
Definition spi_exchange (xfer : Z) : M unit :=
  tx ← get spi_tx;
  tx ← lift (loads tx 0 xfer);
  rx ← with_world (e_exchange tx);
  b ← get spi_rx;
  b ← lift (stores b 0 rx);
  set_spi_rx b;;
  log_spi rx.

Definition xfer_size (remaining : Z) : Z :=
  if remaining <? SPI_XFER_SIZE then remaining else SPI_XFER_SIZE.

(** One round of either loop: clear the receive buffer and exchange. *)
Definition spi_block (xfer : Z) : M unit :=
  set_spi_rx (replicate (Z.to_nat SPI_XFER_SIZE) 0);;
  spi_exchange xfer.

(** Every round exchanges at least one byte, so [remaining] rounds suffice. *)
Fixpoint spi_sync_loop (fuel : nat) (remaining : Z) : M unit :=
  if remaining =? 0 then mret tt
  else match fuel with
       | O => ub
       | S fuel =>
           let xfer := xfer_size remaining in
           spi_block xfer;;
           spi_sync_loop fuel (u32 (remaining - xfer))
       end.

Fixpoint spi_data_loop (fuel : nat) (remaining offset : Z) : M unit :=
  if remaining =? 0 then mret tt
  else match fuel with
       | O => ub
       | S fuel =>
           let xfer := xfer_size remaining in
           spi_block xfer;;
           rx ← get spi_rx;
           rx ← lift (loads rx 0 xfer);
           buf ← get image_buf;
           buf ← lift (stores buf offset rx);
           set_image_buf buf;;
           spi_data_loop fuel (u32 (remaining - xfer)) (u32 (offset + xfer))
       end.

Definition spi_read_image (img_size : Z) : M Z :=
  set_spi_tx (replicate (Z.to_nat SPI_XFER_SIZE) 0);;
  do_world (e_spi (SPI_LOCK true));;
  do_world (e_spi (SPI_SETMODE SPI_MODE));;
  do_world (e_spi (SPI_SETBITS 8));;
  do_world (e_spi (SPI_SETFREQUENCY SPI_FREQ));;
  do_world (e_spi (SPI_SELECT true));;
  spi_sync_loop (Z.to_nat SPI_SYNC_BYTES) SPI_SYNC_BYTES;;
  printf SyncDiscarded;;
  spi_data_loop (Z.to_nat img_size) img_size 0;;
  do_world (e_spi (SPI_SELECT false));;
  do_world (e_spi (SPI_LOCK false));;
  mret 0.

(** ** The main program *)

(** Steps 1 and 2: [CMD_CAPTURE] and its acknowledgement. *)
Definition capture_command : M bool :=
  uart_flush;;
  uart_write_byte CMD_CAPTURE;;
  printf CaptureSent;;
  v ← uart_read_byte ACK_POLLS ACK_POLL_US;
  let ack := match v with Some b => b | None => 0 end in
  if match v with Some _ => negb (ack =? ACK_BYTE) | None => true end
  then printf (AckFailed ack);; mret false
  else printf AckOk;; mret true.

(** Step 3: the size, little-endian; [None] when the program gives up. *)
Definition read_size : M (option Z) :=
  r ← uart_read_exact (replicate 4 0) 4 SIZE_POLLS SIZE_POLL_US;
  let '(ret, sz) := r in
  if ret <? 0 then printf SizeReadFailed;; mret None
  else
    s0 ← lift (load sz 0);
    s1 ← lift (load sz 1);
    s2 ← lift (load sz 2);
    s3 ← lift (load sz 3);
    let img_size := Z.lor (Z.lor (Z.lor s0 (Z.shiftl s1 8)) (Z.shiftl s2 16))
                      (u32 (Z.shiftl s3 24)) in
    printf (JpegSize img_size);;
    if (img_size =? 0) || (IMG_BUF_SIZE <? img_size)
    then printf BadJpegSize;; mret None
    else mret (Some img_size).

(** The bytes of a C string up to its terminator. *)
Fixpoint c_string (l : list Z) : list Z :=
  match l with
  | [] => []
  | x :: l => if x =? 0 then [] else x :: c_string l
  end.

(** Steps 4 and 5: the length of the metadata and the metadata. *)
Definition read_meta : M (option Z) :=
  r ← uart_read_exact (replicate 2 0) 2 SIZE_POLLS SIZE_POLL_US;
  let '(ret, ml) := r in
  if ret <? 0 then printf MetaLengthFailed;; mret None
  else
    m0 ← lift (load ml 0);
    m1 ← lift (load ml 1);
    let meta_len := u16 (Z.lor m0 (Z.shiftl m1 8)) in
    printf (MetaLen meta_len);;
    if (meta_len =? 0) || (META_BUF_SIZE <=? meta_len)
    then printf (MetaLengthInvalid meta_len);; mret None
    else
      r ← uart_read_exact (replicate (Z.to_nat META_BUF_SIZE) 0) meta_len SIZE_POLLS SIZE_POLL_US;
      let '(ret, buf) := r in
      set_meta_buf buf;;
      if ret <? 0 then printf MetaReadFailed;; mret None
      else
        printf (Meta (c_string buf));;
        mret (Some meta_len).

(** Steps 6 and 7: the wait and the transfer. *)
Definition transfer (img_size : Z) : M unit :=
  printf WaitingSpi;;
  do_world (e_usleep SPI_CS_DELAY_US);;
  printf (SpiReading img_size);;
  buf ← get image_buf;
  buf ← lift (stores buf 0 (replicate (Z.to_nat img_size) 0));
  set_image_buf buf;;
  _ ← spi_read_image img_size;
  mret tt.

(** [image_buf[i] == v] *)
Definition byte_is (i v : Z) : M bool :=
  buf ← get image_buf;
  b ← lift (load buf i);
  mret (b =? v).

(** [a && b], the second operand evaluated only when the first holds. *)
Definition and_then (a b : M bool) : M bool :=
  x ← a; if (x : bool) then b else mret false.

Definition check_markers (img_size : Z) : M unit :=
  hdr_ok ← and_then (byte_is 0 0xFF) (and_then (byte_is 1 0xD8) (byte_is 2 0xFF));
  trl_ok ← and_then (mret (2 <=? img_size))
             (and_then (byte_is (u32 (img_size - 2)) 0xFF) (byte_is (u32 (img_size - 1)) 0xD9));
  buf ← get image_buf;
  (if (hdr_ok : bool) then printf HeaderOk
   else b0 ← lift (load buf 0); b1 ← lift (load buf 1); b2 ← lift (load buf 2);
        printf (BadHeader b0 b1 b2));;
  (if (trl_ok : bool) then printf TrailerOk
   else b0 ← lift (load buf (u32 (img_size - 2))); b1 ← lift (load buf (u32 (img_size - 1)));
        printf (BadTrailer b0 b1)).

(** Step 8: the metadata chunk. *)
Definition meta_chunk (meta_len : Z) : M image_chunk_s :=
  buf ← get meta_buf;
  l ← lift (loads buf 0 meta_len);
  d ← lift (stores (replicate (Z.to_nat CHUNK_SIZE) 0) 0 l);
  mret (mk_chunk d meta_len 1 0 1).

(** Step 9: chunk number [ci] of [total]. *)
Definition data_chunk (buf : list Z) (img_size total ci : Z) : option image_chunk_s :=
  let off := u32 (ci * CHUNK_SIZE) in
  let len := u32 (img_size - off) in
  let len := if CHUNK_SIZE <? len then CHUNK_SIZE else len in
  l ← loads buf off len;
  d ← stores (replicate (Z.to_nat CHUNK_SIZE) 0) 0 l;
  Some (mk_chunk d (u16 len) 1 (if ci =? u32 (total - 1) then 1 else 0) 0).

Definition total_chunks (img_size : Z) : Z := u32 (img_size + CHUNK_SIZE - 1) / CHUNK_SIZE.

Fixpoint data_chunks_from (buf : list Z) (img_size total ci : Z) (n : nat) :
    option (list image_chunk_s) :=
  match n with
  | O => Some []
  | S n =>
      c ← data_chunk buf img_size total ci;
      cs ← data_chunks_from buf img_size total (ci + 1) n;
      Some (c :: cs)
  end.

Definition data_chunks (buf : list Z) (img_size : Z) : option (list image_chunk_s) :=
  let total := total_chunks img_size in
  data_chunks_from buf img_size total 0 (Z.to_nat total).

(** [close(uart_fd); return ret;] *)
Definition finish (ret : Z) : M (Z * list rb_call) :=
  do_world e_close;; mret (ret, []).

(** The calls [cs] to the ring buffer, then the rest of the program.  Neither
    the device nor the buffers of this program take part in them, so they are
    collected, in order, beside the result. *)
Definition calling (cs : list rb_call) (m : M (Z * list rb_call)) : M (Z * list rb_call) :=
  r ← m; mret (fst r, cs ++ snd r).

Definition capture : M (Z * list rb_call) :=
  printf CaptureStart;;
  ok ← capture_command;
  if negb ok then finish (-1)
  else
    size ← read_size;
    match size with
    | None => finish (-1)
    | Some img_size =>
        meta ← read_meta;
        match meta with
        | None => finish (-1)
        | Some meta_len =>
            transfer img_size;;
            check_markers img_size;;
            mc ← meta_chunk meta_len;
            calling [RbPush mc] (
              printf MetaPushed;;
              printf (Pushing (total_chunks img_size));;
              buf ← get image_buf;
              dcs ← lift (data_chunks buf img_size);
              calling (RbPush <$> dcs) (
                printf (AllPushed (total_chunks img_size));;
                finish 0))
        end
    end.

Definition camera_MSN2_main : M (Z * list rb_call) :=
  printf CameraStart;;
  calling [RbInit] (
    fd ← with_world e_open;
    if fd <? 0 then printf UartOpenFailed;; mret (-1, [])
    else
      uart_configure;;
      uart_flush;;
      spi ← with_world e_spibus;
      if negb spi then printf SpiInitFailed;; finish (-1)
      else
        printf SpiReady;;
        h ← uart_handshake;
        if h <? 0 then finish (-1) else capture).
End camera.

Arguments cam W : clear implicits.
Arguments M W A : clear implicits.

(** ** Reasoning about the program *)

Section rules.
Context {W : Type} `{!Env W}.
Implicit Types (s : cam W).

(** [m] returns in a state with [Q], or has undefined behaviour in one with
    [U]. *)
Definition wp {A} (m : M W A) (Q : A -> cam W -> Prop) (U : cam W -> Prop) (s : cam W) : Prop :=
  match m s with (Some x, s') => Q x s' | (None, s') => U s' end.

Lemma wp_bind {A B} (m : M W A) (f : A -> M W B) Q U s :
  wp m (fun x => wp (f x) Q U) U s -> wp (m ≫= f) Q U s.
Proof.
  unfold wp, mbind, M_bind. destruct (m s) as [[x|] s']; [|done].
  by destruct (f x s') as [[y|] s''].
Qed.

Lemma wp_mono {A} (m : M W A) (Q Q' : A -> cam W -> Prop) U s :
  wp m Q U s -> (forall x s', Q x s' -> Q' x s') -> wp m Q' U s.
Proof. unfold wp. destruct (m s) as [[x|] s']; eauto. Qed.

Lemma wp_ret {A} (x : A) Q U s : Q x s -> wp (mret x) Q U s.
Proof. done. Qed.

Lemma wp_get {A} (f : cam W -> A) Q U s : Q (f s) s -> wp (get f) Q U s.
Proof. done. Qed.

Lemma wp_lift {A} (o : option A) (x : A) Q U s : o = Some x -> Q x s -> wp (lift o) Q U s.
Proof. by intros ->. Qed.

(** The step from [s] to [s'] received the bytes [l] from the UART and touched
    no buffer. *)
Record uart_op (s s' : cam W) (l : list Z) : Prop := {
  uo_image : image_buf s' = image_buf s;
  uo_rx : spi_rx s' = spi_rx s;
  uo_tx : spi_tx s' = spi_tx s;
  uo_meta : meta_buf s' = meta_buf s;
  uo_spi : spi_log s' = spi_log s;
  uo_uart : uart_log s' = uart_log s ++ l
}.

Lemma uart_op_nil s s' :
  image_buf s' = image_buf s -> spi_rx s' = spi_rx s -> spi_tx s' = spi_tx s ->
  meta_buf s' = meta_buf s -> spi_log s' = spi_log s -> uart_log s' = uart_log s ->
  uart_op s s' [].
Proof. intros. constructor; try done. by rewrite app_nil_r. Qed.

Lemma uart_op_refl s : uart_op s s [].
Proof. by apply uart_op_nil. Qed.

Lemma uart_op_trans s1 s2 s3 l1 l2 :
  uart_op s1 s2 l1 -> uart_op s2 s3 l2 -> uart_op s1 s3 (l1 ++ l2).
Proof.
  intros [] []. constructor; try congruence. rewrite app_assoc. congruence.
Qed.

Lemma wp_printf m (Q : unit -> cam W -> Prop) U s :
  (forall s', uart_op s s' [] -> Q tt s') -> wp (printf m) Q U s.
Proof. intros H. apply H. by apply uart_op_nil. Qed.

Lemma wp_world {A} (f : W -> A * W) (Q : A -> cam W -> Prop) U s :
  (forall s', uart_op s s' [] -> Q (fst (f (world s))) s') -> wp (with_world f) Q U s.
Proof.
  intros H. unfold wp, with_world. destruct (f (world s)) as [x w].
  apply H. by apply uart_op_nil.
Qed.

Lemma wp_do_world f (Q : unit -> cam W -> Prop) U s :
  (forall s', uart_op s s' [] -> Q tt s') -> wp (do_world f) Q U s.
Proof. intros H. apply wp_world. intros s' Hs. by apply H. Qed.

Definition is_byte (v : Z) : Prop := 0 <= v < 256.

Lemma wp_read1 (Q : option Z -> cam W -> Prop) U s :
  (forall s', uart_op s s' [] -> Q None s') ->
  (forall v s', uart_op s s' [v] -> is_byte v ->
     (e_pending (world s') < e_pending (world s))%nat -> Q (Some v) s') ->
  wp read1 Q U s.
Proof.
  intros Hn Hs. unfold wp, read1. destruct (e_read (world s)) as [[v|] w] eqn:E.
  - apply Hs; [by constructor|exact (e_read_byte _ _ _ E)|]. exact (e_read_pending _ _ _ E).
  - apply Hn. apply uart_op_nil; simpl; try done. by rewrite app_nil_r.
Qed.

Lemma wp_read_byte n d (Q : option Z -> cam W -> Prop) U s :
  (forall s', uart_op s s' [] -> Q None s') ->
  (forall v s', uart_op s s' [v] -> is_byte v -> Q (Some v) s') ->
  wp (uart_read_byte n d) Q U s.
Proof.
  revert s. induction n as [|n IH]; intros s Hn Hs; simpl.
  { apply wp_ret, Hn, uart_op_refl. }
  apply wp_bind, wp_read1.
  - intros s1 H1. apply wp_bind.
    assert (wp (if 0 <? d then do_world (e_usleep d) else mret tt)
              (fun _ s2 => uart_op s s2 []) U s1) as Hw.
    { destruct (0 <? d).
      - apply wp_do_world. intros s2 H2. by apply (uart_op_trans _ _ _ _ _ H1 H2).
      - by apply wp_ret. }
    eapply wp_mono; [exact Hw|]. intros [] s2 H2. apply IH.
    + intros s3 H3. apply Hn, (uart_op_trans _ _ _ _ _ H2 H3).
    + intros v s3 H3. apply Hs, (uart_op_trans _ _ _ _ _ H2 H3).
  - intros v s1 H1 Hb _. apply wp_ret. by apply Hs.
Qed.

Lemma wp_flush (Q : unit -> cam W -> Prop) U s :
  (forall l s', uart_op s s' l -> Q tt s') -> wp uart_flush Q U s.
Proof.
  intros H. unfold uart_flush. apply wp_bind, wp_get, wp_bind.
  assert (Hf : forall n s0, (e_pending (world s0) <= n)%nat ->
    wp (flush_loop n) (fun _ s1 => exists l, uart_op s0 s1 l) U s0).
  { induction n as [|n IH]; intros s0 Hp; simpl; apply wp_bind, wp_read1.
    - intros s1 H1. apply wp_ret. eauto.
    - intros v s1 _ _ Hlt. lia.
    - intros s1 H1. apply wp_ret. eauto.
    - intros v s1 H1 _ Hlt. eapply wp_mono; [apply IH; lia|].
      intros [] s2 [l H2]. eauto using uart_op_trans. }
  eapply wp_mono; [by apply Hf|]. intros [] s1 [l H1].
  apply wp_do_world. intros s2 H2. eapply H, uart_op_trans; eauto.
Qed.

(** The loop fills [buf] from [i] with the bytes received. *)
Lemma wp_read_loop buf i n len r d (Q : Z * list Z -> cam W -> Prop) U s :
  0 <= i -> i + Z.of_nat n <= zlen buf ->
  (forall l s' b, uart_op s s' l -> Q (-1, b) s') ->
  (forall l s', uart_op s s' l -> length l = n -> Forall is_byte l ->
     Q (0, take (Z.to_nat i) buf ++ l ++ drop (Z.to_nat i + n) buf) s') ->
  wp (uart_read_loop buf i n len r d) Q U s.
Proof.
  revert buf i s Q. induction n as [|n IH]; intros buf i s Q Hi Hl Hf Hok; cbn [uart_read_loop].
  { apply wp_ret. rewrite <- (take_drop (Z.to_nat i) buf) at 1.
    replace (Z.to_nat i) with (Z.to_nat i + 0)%nat at 2 by lia.
    by apply (Hok [] s (uart_op_refl s)). }
  apply wp_bind, wp_read_byte.
  - intros s1 H1. apply wp_bind, wp_printf. intros s2 H2. apply wp_ret.
    by eapply Hf, uart_op_trans.
  - intros v s1 H1 Hv. apply wp_bind.
    eapply wp_lift; [apply store_in_range; lia|]. cbn beta.
    apply IH; [lia|rewrite length_insert; lia|..].
    + intros l s2 b H2. by eapply Hf, uart_op_trans.
    + intros l s2 H2 Hln Hb.
      assert (take (Z.to_nat (i + 1)) (<[Z.to_nat i:=v]> buf) ++
              l ++ drop (Z.to_nat (i + 1) + n) (<[Z.to_nat i:=v]> buf) =
              take (Z.to_nat i) buf ++ ([v] ++ l) ++ drop (Z.to_nat i + S n) buf) as ->.
      { replace (Z.to_nat (i + 1)) with (S (Z.to_nat i)) by lia.
        rewrite drop_insert_lt by lia.
        rewrite (take_S_r _ _ v) by (apply list_lookup_insert_eq; lia).
        rewrite take_insert_ge by lia. rewrite <- !app_assoc.
        do 4 f_equal. lia. }
      apply Hok; [by eapply uart_op_trans|simpl; lia|by constructor].
Qed.

(** The program's buffers have the size of their declarations. *)
Record cam_ok (s : cam W) : Prop := {
  ok_image : zlen (image_buf s) = IMG_BUF_SIZE;
  ok_rx : zlen (spi_rx s) = SPI_XFER_SIZE;
  ok_tx : zlen (spi_tx s) = SPI_XFER_SIZE
}.

Lemma cam_ok_uart s s' l : cam_ok s -> uart_op s s' l -> cam_ok s'.
Proof. intros [] []. constructor; congruence. Qed.

Lemma wp_configure (Q : unit -> cam W -> Prop) U s :
  (forall s', uart_op s s' [] -> Q tt s') -> wp uart_configure Q U s.
Proof.
  intros H. unfold uart_configure. apply wp_bind, wp_world. intros s1 H1. cbv zeta.
  cbn [c_cc cfsetspeed baud_loop g_baud_table Z.eqb B115200 Pos.eqb].
  pose proof (e_tcgetattr_cc (world s)) as Hcc. unfold NCCS in Hcc.
  apply wp_bind. eapply wp_lift; [apply store_in_range; unfold VMIN; lia|].
  cbn beta. apply wp_bind.
  eapply wp_lift; [apply store_in_range; rewrite length_insert; unfold VTIME; lia|].
  cbn beta. apply wp_bind, wp_do_world. intros s2 H2. apply wp_printf. intros s3 H3.
  apply H. exact (uart_op_trans _ _ _ _ _ (uart_op_trans _ _ _ _ _ H1 H2) H3).
Qed.

Lemma wp_handshake (Q : Z -> cam W -> Prop) U s :
  (forall l s' r, uart_op s s' l -> r = 0 \/ r = -1 -> Q r s') -> wp uart_handshake Q U s.
Proof.
  intros H. unfold uart_handshake. apply wp_bind, wp_printf. intros s0 H0.
  assert (Hp : forall n s1, wp (handshake_polls n) (fun _ s2 => exists l, uart_op s1 s2 l) U s1).
  { induction n as [|n IH]; intros s1; cbn [handshake_polls].
    { apply wp_ret. eauto using uart_op_refl. }
    apply wp_bind.
    assert (Hrest : forall s2 l, uart_op s1 s2 l ->
      wp (do_world (e_usleep 100000);; handshake_polls n) (fun _ s3 => exists l, uart_op s1 s3 l) U s2).
    { intros s2 l H2. apply wp_bind, wp_do_world. intros s3 H3.
      eapply wp_mono; [apply IH|]. intros x s4 [l' H4].
      eexists. exact (uart_op_trans _ _ _ _ _ (uart_op_trans _ _ _ _ _ H2 H3) H4). }
    apply wp_read_byte; [intros s2 H2; by eapply Hrest|].
    intros v s2 H2 _. destruct (v =? ACK_BYTE); [|by eapply Hrest].
    apply wp_bind, wp_flush. intros l s3 H3. apply wp_bind, wp_printf. intros s4 H4.
    apply wp_ret. eexists.
    exact (uart_op_trans _ _ _ _ _ (uart_op_trans _ _ _ _ _ H2 H3) H4). }
  assert (Ha : forall n k s1 l1, uart_op s s1 l1 -> wp (handshake_attempts n k) Q U s1).
  { induction n as [|n IH]; intros k s1 l1 H1; cbn [handshake_attempts].
    - apply wp_bind, wp_printf. intros s2 H2. apply wp_ret.
      eapply H; [by eapply uart_op_trans|by right].
    - apply wp_bind, wp_flush. intros l2 s2 H2. apply wp_bind, wp_do_world. intros s3 H3.
      apply wp_bind, wp_printf. intros s4 H4.
      pose proof (uart_op_trans _ _ _ _ _ (uart_op_trans _ _ _ _ _
        (uart_op_trans _ _ _ _ _ H1 H2) H3) H4) as H14.
      apply wp_bind. eapply wp_mono; [apply Hp|]. intros ok s5 [l5 H5].
      pose proof (uart_op_trans _ _ _ _ _ H14 H5) as H15.
      destruct ok; [apply wp_ret; eapply H; eauto|by eapply IH]. }
  by eapply Ha.
Qed.

Lemma wp_capture_command (Q : bool -> cam W -> Prop) U s :
  (forall l s', uart_op s s' l -> Q false s') ->
  (forall l s', uart_op s s' (l ++ [ACK_BYTE]) -> Q true s') ->
  wp capture_command Q U s.
Proof.
  intros Hf Ht. unfold capture_command. apply wp_bind, wp_flush. intros l1 s1 H1.
  apply wp_bind, wp_do_world. intros s2 H2. apply wp_bind, wp_printf. intros s3 H3.
  pose proof (uart_op_trans _ _ _ _ _ (uart_op_trans _ _ _ _ _ H1 H2) H3) as H13.
  apply wp_bind, wp_read_byte.
  - intros s4 H4. apply wp_bind, wp_printf. intros s5 H5. apply wp_ret.
    eapply Hf. exact (uart_op_trans _ _ _ _ _ (uart_op_trans _ _ _ _ _ H13 H4) H5).
  - intros v s4 H4 _. cbv zeta. destruct (Z.eqb_spec v ACK_BYTE) as [->|]; simpl negb; cbv iota;
      apply wp_bind, wp_printf; intros s5 H5; apply wp_ret.
    + pose proof (uart_op_trans _ _ _ _ _ H4 H5) as H45. rewrite app_nil_r in H45.
      eapply Ht. exact (uart_op_trans _ _ _ _ _ H13 H45).
    + eapply Hf. exact (uart_op_trans _ _ _ _ _ (uart_op_trans _ _ _ _ _ H13 H4) H5).
Qed.
End rules.

Lemma le_val_4 a b c d :
  is_byte a -> is_byte b -> is_byte c -> is_byte d ->
  Z.lor (Z.lor (Z.lor a (Z.shiftl b 8)) (Z.shiftl c 16)) (u32 (Z.shiftl d 24)) =
    le_val [a; b; c; d].
Proof.
  unfold is_byte. intros. rewrite (u32_small (Z.shiftl d 24)).
  2: { rewrite Z.shiftl_mul_pow2 by lia. lia. }
  rewrite (lor_shiftl_add a b 8), (lor_shiftl_add _ c 16), (lor_shiftl_add _ d 24) by lia.
  simpl. lia.
Qed.

Lemma le_val_2 a b :
  is_byte a -> is_byte b -> u16 (Z.lor a (Z.shiftl b 8)) = le_val [a; b].
Proof.
  unfold is_byte. intros. rewrite (lor_shiftl_add a b 8) by lia.
  rewrite u16_small by lia. simpl. lia.
Qed.

Section phases.
Context {W : Type} `{!Env W}.
Implicit Types (s : cam W).

Lemma wp_read_size (Q : option Z -> cam W -> Prop) U s :
  (forall l s', uart_op s s' l -> Q None s') ->
  (forall l s', uart_op s s' l -> length l = 4%nat -> 0 < le_val l <= IMG_BUF_SIZE ->
     Q (Some (le_val l)) s') ->
  wp read_size Q U s.
Proof.
  intros Hf Hok. unfold read_size, uart_read_exact. apply wp_bind, wp_read_loop; [done|done|..].
  { intros l s1 b H1. cbv zeta iota. simpl (-1 <? 0). cbv iota.
    apply wp_bind, wp_printf. intros s2 H2. apply wp_ret. by eapply Hf, uart_op_trans. }
  intros l s1 H1 Hl Hb. destruct l as [|b0 [|b1 [|b2 [|b3 [|]]]]]; try done.
  rewrite !Forall_cons_iff in Hb. destruct Hb as (Hb0 & Hb1 & Hb2 & Hb3 & _).
  simpl (0 <? 0). cbv iota.
  do 4 (apply wp_bind; eapply wp_lift; [reflexivity|]; cbn beta).
  cbv zeta. rewrite le_val_4 by done. apply wp_bind, wp_printf. intros s2 H2.
  pose proof (uart_op_trans _ _ _ _ _ H1 H2) as H12. rewrite app_nil_r in H12.
  destruct ((le_val [b0; b1; b2; b3] =? 0) || (IMG_BUF_SIZE <? le_val [b0; b1; b2; b3])) eqn:E.
  - apply wp_bind, wp_printf. intros s3 H3. apply wp_ret. by eapply Hf, uart_op_trans.
  - apply wp_ret. apply Hok; [done|done|].
    unfold is_byte in *. unfold IMG_BUF_SIZE in *. simpl in *. zbool. lia.
Qed.

Lemma wp_read_meta (Q : option Z -> cam W -> Prop) U s :
  (forall l s' b, uart_op s (mk_cam (world s') (image_buf s') (spi_rx s') (spi_tx s') (meta_buf s)
                     (log s') (uart_log s') (spi_log s')) l -> meta_buf s' = b -> Q None s') ->
  (forall l m s', uart_op s (mk_cam (world s') (image_buf s') (spi_rx s') (spi_tx s') (meta_buf s)
                     (log s') (uart_log s') (spi_log s')) (l ++ m) ->
     length l = 2%nat -> le_val l = zlen m -> 0 < zlen m < META_BUF_SIZE ->
     meta_buf s' = m ++ replicate (Z.to_nat (META_BUF_SIZE - zlen m)) 0 ->
     Q (Some (zlen m)) s') ->
  wp read_meta Q U s.
Proof.
  intros Hf Hok. unfold read_meta, uart_read_exact.
  assert (Hf' : forall l s', uart_op s s' l -> Q None s').
  { intros l s' H. apply (Hf l s' (meta_buf s')); [|done]. destruct H. by constructor. }
  apply wp_bind, wp_read_loop; [done|done|..].
  { intros l s1 b H1. simpl (-1 <? 0). cbv iota.
    apply wp_bind, wp_printf. intros s2 H2. apply wp_ret. by eapply Hf', uart_op_trans. }
  intros l s1 H1 Hl Hb. destruct l as [|b0 [|b1 [|]]]; try done.
  rewrite !Forall_cons_iff in Hb. destruct Hb as (Hb0 & Hb1 & _).
  simpl (0 <? 0). cbv iota.
  do 2 (apply wp_bind; eapply wp_lift; [reflexivity|]; cbn beta).
  cbv zeta. rewrite le_val_2 by done. set (n := le_val [b0; b1]).
  apply wp_bind, wp_printf. intros s2 H2.
  pose proof (uart_op_trans _ _ _ _ _ H1 H2) as H12. rewrite app_nil_r in H12.
  destruct ((n =? 0) || (META_BUF_SIZE <=? n)) eqn:E.
  { apply wp_bind, wp_printf. intros s3 H3. apply wp_ret. by eapply Hf', uart_op_trans. }
  assert (0 < n < META_BUF_SIZE) as Hn by (unfold n, is_byte in *; simpl in *; zbool; lia).
  apply wp_bind, wp_read_loop; [done|rewrite length_replicate; lia|..].
  { intros l s3 b H3. pose proof (uart_op_trans _ _ _ _ _ H12 H3) as H13.
    apply wp_bind. change (wp (printf MetaReadFailed;; mret None) Q U
      (snd (set_meta_buf b s3))). apply wp_bind, wp_printf. intros s4 H4. apply wp_ret.
    eapply (Hf ([b0; b1] ++ l) s4 (meta_buf s4)); [|done].
    destruct H13, H4. simpl in *. rewrite app_nil_r in *. constructor; simpl; congruence. }
  intros m s3 H3 Hm _. pose proof (uart_op_trans _ _ _ _ _ H12 H3) as H13.
  rewrite take_0, Nat.add_0_l, drop_replicate. simpl app.
  set (b := m ++ _). apply wp_bind.
  change (wp (printf (Meta (c_string b));; mret (Some n)) Q U (snd (set_meta_buf b s3))).
  apply wp_bind, wp_printf. intros s4 H4. apply wp_ret.
  assert (n = zlen m) as Hnm by lia. rewrite Hnm.
  apply (Hok [b0; b1] m s4); [|done|done|lia|].
  - destruct H13, H4. simpl in *. rewrite app_nil_r in *. constructor; simpl; congruence.
  - rewrite (uo_meta _ _ _ H4). simpl. unfold b. do 2 f_equal. lia.
Qed.

(** The step exchanged the bytes [l] with the camera over SPI and left the
    image [buf]. *)
Record spi_op (s s' : cam W) (l buf : list Z) : Prop := {
  so_image : image_buf s' = buf;
  so_rx : zlen (spi_rx s') = SPI_XFER_SIZE;
  so_tx : zlen (spi_tx s') = SPI_XFER_SIZE;
  so_meta : meta_buf s' = meta_buf s;
  so_uart : uart_log s' = uart_log s;
  so_spi : spi_log s' = spi_log s ++ l;
  so_byte : Forall is_byte l
}.

Lemma spi_op_uart s1 s2 s3 l b : spi_op s1 s2 l b -> uart_op s2 s3 [] -> spi_op s1 s3 l b.
Proof.
  intros [] []. rewrite app_nil_r in *. constructor; congruence || done.
Qed.

Lemma spi_op_trans s1 s2 s3 l1 l2 b1 b2 :
  spi_op s1 s2 l1 b1 -> spi_op s2 s3 l2 b2 -> spi_op s1 s3 (l1 ++ l2) b2.
Proof.
  intros [] []. constructor; try congruence; [rewrite app_assoc; congruence|].
  by apply Forall_app.
Qed.

(** One exchange of [xfer] bytes leaves them at the start of [spi_rx]. *)
Lemma wp_spi_block xfer (Q : unit -> cam W -> Prop) U s :
  zlen (spi_tx s) = SPI_XFER_SIZE -> 0 <= xfer <= SPI_XFER_SIZE ->
  (forall rx s', zlen rx = xfer -> spi_op s s' rx (image_buf s) ->
     loads (spi_rx s') 0 xfer = Some rx -> Q tt s') ->
  wp (spi_block xfer) Q U s.
Proof.
  intros Htx Hx HQ. unfold spi_block, spi_exchange. apply wp_bind.
  change (wp (tx ← get spi_tx; tx ← lift (loads tx 0 xfer); rx ← with_world (e_exchange tx);
              b ← get spi_rx; b ← lift (stores b 0 rx); set_spi_rx b;; log_spi rx) Q U
            (snd (set_spi_rx (replicate (Z.to_nat SPI_XFER_SIZE) 0) s))).
  apply wp_bind, wp_get. simpl spi_tx. apply wp_bind.
  eapply wp_lift; [apply loads_in_range; lia|]. cbn beta. rewrite drop_0.
  set (tx := take (Z.to_nat xfer) (spi_tx s)).
  assert (zlen tx = xfer) as Hlt by (unfold tx; rewrite length_take; lia).
  apply wp_bind, wp_world. intros s1 H1. simpl world in *.
  set (rx := fst (e_exchange tx (world s))) in *.
  assert (zlen rx = xfer) as Hlr by (unfold rx; rewrite e_exchange_length; lia).
  apply wp_bind, wp_get, wp_bind. rewrite (uo_rx _ _ _ H1). simpl spi_rx.
  destruct (stores (replicate (Z.to_nat SPI_XFER_SIZE) 0) 0 rx) as [b|] eqn:Eb.
  2: { rewrite stores_in_range in Eb by (rewrite ?length_replicate; lia). done. }
  eapply wp_lift; [done|]. cbn beta.
  pose proof (stores_Some_length _ _ _ _ Eb) as Hlb. rewrite length_replicate in Hlb.
  apply (HQ rx).
  - done.
  - destruct H1. simpl in *. rewrite app_nil_r in *.
    constructor; simpl; try congruence; unfold SPI_XFER_SIZE, CHUNK_SIZE in *; try lia.
    exact (e_exchange_byte tx (world s)).
  - simpl. rewrite loads_in_range by (unfold SPI_XFER_SIZE, CHUNK_SIZE in *; lia). f_equal.
    rewrite drop_0. rewrite stores_in_range in Eb by (rewrite ?length_replicate; lia).
    injection Eb as <-. simpl. rewrite take_app_le, take_ge by lia. done.
Qed.

Lemma xfer_size_range remaining :
  0 < remaining -> 0 < xfer_size remaining <= remaining /\ xfer_size remaining <= SPI_XFER_SIZE.
Proof. unfold xfer_size, SPI_XFER_SIZE, CHUNK_SIZE. destruct (Z.ltb_spec remaining 256); lia. Qed.

Lemma wp_spi_sync fuel remaining (Q : unit -> cam W -> Prop) U s :
  cam_ok s -> 0 <= remaining <= Z.of_nat fuel -> remaining < 2 ^ 32 ->
  (forall l s', zlen l = remaining -> spi_op s s' l (image_buf s) -> Q tt s') ->
  wp (spi_sync_loop fuel remaining) Q U s.
Proof.
  revert remaining s Q. induction fuel as [|fuel IH]; intros remaining s Q Hok Hr H32 HQ;
    cbn [spi_sync_loop]; destruct (Z.eqb_spec remaining 0) as [->|Hne]; try lia;
    try (apply wp_ret, (HQ [] s); [done|constructor; try apply Hok; try done;
         by rewrite app_nil_r]).
  destruct (xfer_size_range remaining) as [Hx Hx2]; [lia|].
  apply wp_bind, wp_spi_block; [apply Hok|lia|]. intros rx s1 Hl1 H1 _.
  rewrite (u32_small (remaining - _)) by lia. apply IH; [|lia|lia|].
  - constructor; [rewrite (so_image _ _ _ _ H1); apply Hok|apply H1|apply H1].
  - intros l s2 Hl2 H2. apply (HQ (rx ++ l)); [rewrite length_app; lia|].
    rewrite (so_image _ _ _ _ H1) in H2. by eapply spi_op_trans.
Qed.

Lemma wp_spi_data fuel remaining offset (Q : unit -> cam W -> Prop) U s :
  cam_ok s -> 0 <= remaining <= Z.of_nat fuel -> 0 <= offset ->
  offset + remaining <= IMG_BUF_SIZE ->
  (forall l s', zlen l = remaining ->
     spi_op s s' l (take (Z.to_nat offset) (image_buf s) ++ l ++
                    drop (Z.to_nat (offset + remaining)) (image_buf s)) -> Q tt s') ->
  wp (spi_data_loop fuel remaining offset) Q U s.
Proof.
  unfold IMG_BUF_SIZE.
  revert remaining offset s Q. induction fuel as [|fuel IH]; intros remaining offset s Q Hok Hr Ho Hb HQ;
    cbn [spi_data_loop]; destruct (Z.eqb_spec remaining 0) as [->|Hne]; try lia;
    try (apply wp_ret, (HQ [] s); [done|constructor; try apply Hok; try done;
         [simpl; by rewrite Z.add_0_r, take_drop|by rewrite app_nil_r]]).
  destruct (xfer_size_range remaining) as [Hx Hx2]; [lia|].
  apply wp_bind, wp_spi_block; [apply Hok|lia|]. intros rx s1 Hl1 H1 Erx.
  apply wp_bind, wp_get, wp_bind. eapply wp_lift; [exact Erx|]. cbn beta.
  apply wp_bind, wp_get, wp_bind. rewrite (so_image _ _ _ _ H1).
  pose proof (ok_image _ Hok) as Him. unfold IMG_BUF_SIZE in Him.
  eapply wp_lift; [apply stores_in_range; lia|]. cbn beta.
  set (buf := _ ++ rx ++ _).
  assert (length buf = length (image_buf s)) as Hlb
    by (unfold buf; rewrite !length_app, length_take, length_drop; lia).
  apply wp_bind.
  change (wp (spi_data_loop fuel (u32 (remaining - xfer_size remaining))
                (u32 (offset + xfer_size remaining))) Q U (snd (set_image_buf buf s1))).
  rewrite !u32_small by lia. apply IH; [|lia|lia|lia|].
  - constructor; simpl; [rewrite Hlb; exact Him|apply H1|apply H1].
  - intros l s2 Hl2 H2. apply (HQ (rx ++ l)); [rewrite length_app; lia|].
    assert (spi_op s (snd (set_image_buf buf s1)) rx buf) as H1'
      by (destruct H1; by constructor).
    replace (take (Z.to_nat offset) (image_buf s) ++ (rx ++ l) ++
             drop (Z.to_nat (offset + remaining)) (image_buf s))
      with (take (Z.to_nat (offset + xfer_size remaining)) buf ++ l ++
            drop (Z.to_nat (offset + xfer_size remaining + (remaining - xfer_size remaining))) buf);
      [by eapply spi_op_trans|].
    set (x := xfer_size remaining) in *. unfold buf.
    rewrite take_app_ge by (rewrite length_take; lia). rewrite length_take.
    rewrite (take_app_le rx) by lia. rewrite (take_ge rx) by lia.
    rewrite drop_app_ge by (rewrite length_take; lia). rewrite length_take.
    rewrite drop_app_ge by lia. rewrite drop_drop. rewrite <- !app_assoc.
    do 4 f_equal. lia.
Qed.
End phases.

(** ** The chunks of a frame *)

Definition payload (c : image_chunk_s) : list Z := take (Z.to_nat (len c)) (data c).

(** A chunk as the program fills it. *)
Definition chunk_ok (c : image_chunk_s) : Prop :=
  zlen (data c) = CHUNK_SIZE /\ 0 < len c <= CHUNK_SIZE /\ frame_id c = 1.

(** [cs] is the image [img]: its payloads in order, the last chunk marked. *)
Definition image_frame (img : list Z) (cs : list image_chunk_s) : Prop :=
  concat (map payload cs) = img /\
  Forall (fun c => chunk_ok c /\ is_meta c = 0) cs /\
  exists init lst, cs = init ++ [lst] /\ Forall (fun c => is_last c = 0) init /\ is_last lst = 1.

Definition meta_frame (m : list Z) (c : image_chunk_s) : Prop :=
  chunk_ok c /\ payload c = m /\ is_meta c = 1 /\ is_last c = 0.

(** What [memcpy] of [l] into a cleared chunk gives. *)
Lemma fill_chunk l :
  zlen l <= CHUNK_SIZE ->
  exists d, stores (replicate (Z.to_nat CHUNK_SIZE) 0) 0 l = Some d /\ zlen d = CHUNK_SIZE /\
    take (length l) d = l.
Proof.
  intros Hl. rewrite stores_in_range by (rewrite ?length_replicate; lia).
  eexists. split; [done|]. unfold CHUNK_SIZE in *. split.
  - rewrite !length_app, length_take, length_drop, length_replicate. lia.
  - simpl. by rewrite take_app_le, take_ge by lia.
Qed.

Section chunks.
Context (buf : list Z) (n : Z).
Hypothesis Hbuf : zlen buf = IMG_BUF_SIZE.
Hypothesis Hn : 0 < n <= IMG_BUF_SIZE.

Lemma total_chunks_range :
  0 < total_chunks n /\ (total_chunks n - 1) * CHUNK_SIZE < n <= total_chunks n * CHUNK_SIZE.
Proof.
  unfold total_chunks, CHUNK_SIZE, IMG_BUF_SIZE in *. rewrite u32_small by lia. zlia.
Qed.

Lemma data_chunk_spec ci :
  0 <= ci < total_chunks n ->
  exists c, data_chunk buf n (total_chunks n) ci = Some c /\
    payload c = take (Z.to_nat (Z.min CHUNK_SIZE (n - ci * CHUNK_SIZE)))
                  (drop (Z.to_nat (ci * CHUNK_SIZE)) buf) /\
    chunk_ok c /\ is_meta c = 0 /\
    is_last c = if ci =? total_chunks n - 1 then 1 else 0.
Proof.
  intros Hci. pose proof total_chunks_range as [Ht1 Ht2].
  unfold data_chunk, CHUNK_SIZE, IMG_BUF_SIZE in *.
  rewrite (u32_small (ci * 256)) by lia. rewrite !u32_small by lia.
  replace (if 256 <? n - ci * 256 then 256 else n - ci * 256) with (Z.min 256 (n - ci * 256))
    by (destruct (Z.ltb_spec 256 (n - ci * 256)); lia).
  set (k := Z.min 256 (n - ci * 256)). assert (0 < k <= 256) by (unfold k; lia).
  rewrite loads_in_range by (unfold k; lia). cbn [mbind option_bind].
  set (l := take _ _). assert (zlen l = k) as Hl by (unfold l; rewrite length_take, length_drop; lia).
  destruct (fill_chunk l) as (d & Ed & Hd & Htd); [unfold CHUNK_SIZE; lia|].
  unfold CHUNK_SIZE in Ed, Hd. rewrite Ed. cbn [mbind option_bind].
  eexists. split; [done|]. rewrite u16_small by lia. unfold chunk_ok, payload. simpl.
  split; [|done]. etransitivity; [|exact Htd]. f_equal. lia.
Qed.

Lemma data_chunks_from_spec k ci :
  0 <= ci -> ci + Z.of_nat (S k) = total_chunks n ->
  exists cs, data_chunks_from buf n (total_chunks n) ci (S k) = Some cs /\
    length cs = S k /\
    image_frame (take (Z.to_nat (n - ci * CHUNK_SIZE)) (drop (Z.to_nat (ci * CHUNK_SIZE)) buf)) cs.
Proof.
  revert ci. induction k as [|k IH]; intros ci Hci Hk;
    pose proof total_chunks_range as [Ht1 Ht2];
    destruct (data_chunk_spec ci) as (c & E & Hp & Hc & Hm & Hl); try lia;
    cbn [data_chunks_from]; rewrite E; cbn [mbind option_bind].
  - exists [c]. split; [done|]. split; [done|]. split; [|split].
    + simpl. rewrite app_nil_r, Hp. unfold CHUNK_SIZE in *. f_equal. lia.
    + constructor; [done|constructor].
    + exists [], c. rewrite Hl. by replace (ci =? total_chunks n - 1) with true by (symmetry; lia).
  - destruct (IH (ci + 1)) as (cs & E2 & Hlen & Hcat & Hok & init & lst & -> & Hi & Hlst); [lia..|].
    cbn [data_chunks_from] in E2. rewrite E2. cbn [mbind option_bind].
    exists (c :: init ++ [lst]). split; [done|]. split; [simpl; lia|]. split; [|split].
    + cbn [map concat]. rewrite Hcat, Hp. unfold CHUNK_SIZE in *.
      rewrite Z.min_l by lia.
      replace (Z.to_nat ((ci + 1) * 256)) with (Z.to_nat (ci * 256) + Z.to_nat 256)%nat by lia.
      rewrite <- drop_drop. set (r := drop (Z.to_nat (ci * 256)) buf).
      replace (Z.to_nat (n - ci * 256)) with (Z.to_nat 256 + Z.to_nat (n - (ci + 1) * 256))%nat by lia.
      apply take_take_drop.
    + constructor; [done|exact Hok].
    + exists (c :: init), lst. split; [done|]. split; [|done]. constructor; [|done].
      rewrite Hl. by replace (ci =? total_chunks n - 1) with false by (symmetry; lia).
Qed.

Lemma data_chunks_spec :
  exists cs, data_chunks buf n = Some cs /\ zlen cs = total_chunks n /\
    image_frame (take (Z.to_nat n) buf) cs.
Proof.
  pose proof total_chunks_range as [Ht _]. unfold data_chunks.
  replace (Z.to_nat (total_chunks n)) with (S (Z.to_nat (total_chunks n - 1))) by lia.
  destruct (data_chunks_from_spec (Z.to_nat (total_chunks n - 1)) 0) as (cs & E & Hl & Hf); [lia..|].
  exists cs. split; [done|]. split; [lia|]. by rewrite Z.mul_0_l, Z.sub_0_r, drop_0 in Hf.
Qed.
End chunks.

Section main.
Context {W : Type} `{!Env W}.
Implicit Types (s : cam W).

Lemma wp_byte_is i v (Q : bool -> cam W -> Prop) U s :
  0 <= i < zlen (image_buf s) -> (forall b, Q b s) -> wp (byte_is i v) Q U s.
Proof.
  intros Hi HQ. unfold byte_is. apply wp_bind, wp_get, wp_bind.
  destruct (load_in_range (image_buf s) i Hi) as [x Hx].
  eapply wp_lift; [exact Hx|]. apply wp_ret, HQ.
Qed.

Lemma wp_and_then (a b : M W bool) (Q : bool -> cam W -> Prop) U s :
  wp a (fun x s' => if x then wp b Q U s' else Q false s') U s -> wp (and_then a b) Q U s.
Proof.
  intros H. unfold and_then. apply wp_bind. eapply wp_mono; [exact H|].
  intros [] s' H'; [exact H'|by apply wp_ret].
Qed.

(** The check of the markers only prints, unless the image has one byte. *)
Lemma wp_check_markers n (Q : unit -> cam W -> Prop) (U : cam W -> Prop) s :
  cam_ok s -> 0 < n <= IMG_BUF_SIZE ->
  (n <> 1 -> forall s', uart_op s s' [] -> Q tt s') ->
  (n = 1 -> forall s', uart_op s s' [] -> U s') ->
  wp (check_markers n) Q U s.
Proof.
  intros Hok Hn HQ HU. pose proof (ok_image _ Hok) as Hi. unfold IMG_BUF_SIZE in *.
  unfold check_markers.
  assert (Hload : forall i s', uart_op s s' [] -> 0 <= i < 40000 -> exists x, load (image_buf s') i = Some x).
  { intros i s' H Hr. rewrite (uo_image _ _ _ H). apply load_in_range. lia. }
  apply wp_bind.
  eapply (wp_mono _ (fun _ s' => s' = s)).
  { apply wp_and_then, wp_byte_is; [lia|]. intros []; [|done].
    apply wp_and_then, wp_byte_is; [lia|]. intros []; [|done]. by apply wp_byte_is; [lia|]. }
  intros hdr_ok s' ->. apply wp_bind.
  eapply (wp_mono _ (fun b s' => s' = s /\ (b = true -> 2 <= n))).
  { apply wp_and_then, wp_ret. destruct (Z.leb_spec 2 n) as [H2|H2]; [|done].
    rewrite !u32_small by lia.
    apply wp_and_then, wp_byte_is; [lia|]. intros []; [|done]. by apply wp_byte_is; [lia|]. }
  intros trl_ok s' [-> Htrl]. apply wp_bind, wp_get, wp_bind.
  eapply (wp_mono _ (fun _ s' => uart_op s s' [])).
  { destruct hdr_ok; [by apply wp_printf|].
    destruct (Hload 0 s (uart_op_refl s)) as [x0 E0]; [lia|].
    destruct (Hload 1 s (uart_op_refl s)) as [x1 E1]; [lia|].
    destruct (Hload 2 s (uart_op_refl s)) as [x2 E2]; [lia|].
    apply wp_bind. eapply wp_lift; [exact E0|]. apply wp_bind. eapply wp_lift; [exact E1|].
    apply wp_bind. eapply wp_lift; [exact E2|]. by apply wp_printf. }
  intros [] s1 H1.
  assert (Hend : forall m, n <> 1 -> wp (printf m) Q U s1).
  { intros m Hne. apply wp_printf. intros s2 H2. apply HQ; [done|].
    exact (uart_op_trans _ _ _ _ _ H1 H2). }
  destruct trl_ok; [apply Hend; specialize (Htrl eq_refl); lia|].
  destruct (Z.eq_dec n 1) as [->|Hne].
  - assert (load (image_buf s) (u32 (1 - 2)) = None) as E.
    { unfold load. replace (u32 (1 - 2) <? zlen (image_buf s)) with false; [by rewrite andb_false_r|].
      symmetry. apply Z.ltb_ge. rewrite Hi. done. }
    unfold wp, mbind at 1, M_bind, lift. rewrite E. by apply HU.
  - rewrite !u32_small by lia.
    destruct (Hload (n - 2) s (uart_op_refl s)) as [x0 E0]; [lia|].
    destruct (Hload (n - 1) s (uart_op_refl s)) as [x1 E1]; [lia|].
    apply wp_bind. eapply wp_lift; [exact E0|]. apply wp_bind. eapply wp_lift; [exact E1|].
    by apply Hend.
Qed.

Lemma spi_start s s' : cam_ok s -> uart_op s s' [] -> spi_op s s' [] (image_buf s).
Proof. intros [] []. rewrite app_nil_r in *. constructor; try congruence; try done. by rewrite app_nil_r. Qed.

Lemma wp_spi_read_image n (Q : Z -> cam W -> Prop) U s :
  cam_ok s -> 0 < n <= IMG_BUF_SIZE ->
  (forall sync img s', zlen sync = SPI_SYNC_BYTES -> zlen img = n ->
     spi_op s s' (sync ++ img) (img ++ drop (Z.to_nat n) (image_buf s)) -> Q 0 s') ->
  wp (spi_read_image n) Q U s.
Proof.
  intros Hok Hn HQ. unfold spi_read_image. apply wp_bind.
  set (s0 := snd (set_spi_tx (replicate (Z.to_nat SPI_XFER_SIZE) 0) s)).
  match goal with |- wp (set_spi_tx _) (fun _ => wp ?k _ _) _ _ => change (wp k Q U s0) end.
  assert (cam_ok s0) as Hok0 by (destruct Hok; by constructor).
  assert (spi_op s s0 [] (image_buf s)) as H0.
  { destruct Hok. constructor; simpl; try done. by rewrite app_nil_r. }
  do 5 (apply wp_bind, wp_do_world; let s' := fresh "s" in let H := fresh "H" in intros s' H).
  assert (uart_op s0 s5 []) as H05.
  { exact (uart_op_trans _ _ _ _ _ (uart_op_trans _ _ _ _ _ (uart_op_trans _ _ _ _ _
      (uart_op_trans _ _ _ _ _ H H1) H2) H3) H4). }
  apply wp_bind, wp_spi_sync; [by eapply cam_ok_uart|done|done|].
  intros sync s6 Hsync H6. rewrite (uo_image _ _ _ H05) in H6. simpl in H6.
  apply wp_bind, wp_printf. intros s7 H7.
  pose proof (spi_op_uart _ _ _ _ _ H6 H7) as H67.
  pose proof (spi_op_trans _ _ _ _ _ _ _ (spi_op_uart _ _ _ _ _ H0 H05) H67) as H07.
  apply wp_bind, wp_spi_data; [|lia|done|unfold IMG_BUF_SIZE in *; lia|].
  { constructor; [rewrite (so_image _ _ _ _ H07); apply Hok|apply H07|apply H07]. }
  intros img s8 Himg H8. rewrite (so_image _ _ _ _ H07) in H8. rewrite Z.add_0_l in H8.
  apply wp_bind, wp_do_world. intros s9 H9. apply wp_bind, wp_do_world. intros s10 H10.
  apply wp_ret. apply (HQ sync img); [done|done|].
  exact (spi_op_uart _ _ _ _ _ (spi_op_uart _ _ _ _ _ (spi_op_trans _ _ _ _ _ _ _ H07 H8) H9) H10).
Qed.

Lemma wp_transfer n (Q : unit -> cam W -> Prop) U s :
  cam_ok s -> 0 < n <= IMG_BUF_SIZE ->
  (forall sync img s', zlen sync = SPI_SYNC_BYTES -> zlen img = n -> cam_ok s' ->
     uart_log s' = uart_log s -> meta_buf s' = meta_buf s ->
     spi_log s' = spi_log s ++ sync ++ img ->
     take (Z.to_nat n) (image_buf s') = img -> Forall is_byte img -> Q tt s') ->
  wp (transfer n) Q U s.
Proof.
  intros Hok Hn HQ. unfold transfer.
  apply wp_bind, wp_printf. intros s1 H1. apply wp_bind, wp_do_world. intros s2 H2.
  apply wp_bind, wp_printf. intros s3 H3.
  pose proof (uart_op_trans _ _ _ _ _ (uart_op_trans _ _ _ _ _ H1 H2) H3) as H13.
  apply wp_bind, wp_get, wp_bind. rewrite (uo_image _ _ _ H13).
  pose proof (ok_image _ Hok) as Hi.
  eapply wp_lift; [apply stores_in_range; rewrite ?length_replicate; lia|]. cbn beta.
  set (buf := _ ++ _ ++ _).
  assert (zlen buf = IMG_BUF_SIZE) as Hlb.
  { unfold buf. rewrite !length_app, length_take, length_drop, length_replicate. lia. }
  apply wp_bind.
  match goal with |- wp (set_image_buf _) (fun _ => wp ?k _ _) _ _ =>
    change (wp k Q U (snd (set_image_buf buf s3))) end.
  set (s4 := snd (set_image_buf buf s3)).
  assert (cam_ok s4) as Hok4.
  { pose proof (cam_ok_uart _ _ _ Hok H13) as []. by constructor. }
  apply wp_bind, wp_spi_read_image; [done|done|]. intros sync img s5 Hs Him H5. apply wp_ret.
  destruct H5, H13. simpl in *. rewrite app_nil_r in *.
  apply (HQ sync img); try congruence.
  - constructor; [|congruence|congruence]. rewrite so_image0.
    rewrite length_app, length_drop. lia.
  - rewrite so_image0. by rewrite take_app_le, take_ge by lia.
  - by apply Forall_app in so_byte0 as [_ ?].
Qed.

Lemma wp_meta_chunk m (Q : image_chunk_s -> cam W -> Prop) U s :
  0 < zlen m < META_BUF_SIZE ->
  meta_buf s = m ++ replicate (Z.to_nat (META_BUF_SIZE - zlen m)) 0 ->
  (forall c, meta_frame m c -> Q c s) -> wp (meta_chunk (zlen m)) Q U s.
Proof.
  intros Hm Hb HQ. unfold meta_chunk. apply wp_bind, wp_get, wp_bind. rewrite Hb.
  eapply wp_lift; [apply loads_in_range; rewrite ?length_app; lia|]. cbn beta.
  rewrite drop_0, take_app_le, take_ge by lia. apply wp_bind.
  destruct (fill_chunk m) as (d & E & Hd & Ht); [unfold META_BUF_SIZE, CHUNK_SIZE in *; lia|].
  eapply wp_lift; [exact E|]. apply wp_ret, HQ. unfold META_BUF_SIZE in *.
  split; [|split; [|done]].
  - split; [done|]. unfold CHUNK_SIZE. simpl. lia.
  - unfold payload. simpl. by rewrite Nat2Z.id.
Qed.

(** What the program has received when it returns 0: an acknowledgement, the
    size of the image and the metadata over the UART, then the synchronisation
    bytes and the image over SPI. *)
Definition received (s s' : cam W) (img meta : list Z) : Prop :=
  exists pre l4 l2 sync,
    uart_log s' = pre ++ [ACK_BYTE] ++ l4 ++ l2 ++ meta /\
    length l4 = 4%nat /\ le_val l4 = zlen img /\
    length l2 = 2%nat /\ le_val l2 = zlen meta /\
    spi_log s' = spi_log s ++ sync ++ img /\ zlen sync = SPI_SYNC_BYTES.

(** Two outcomes: nothing pushed and -1, or the frame pushed and 0; [cs] are the
    calls to the ring buffer made so far. *)
Definition calls_post (cs : list rb_call) (s : cam W) (r : Z * list rb_call) (s' : cam W) : Prop :=
  r = (-1, cs) \/
  exists mc dcs img meta,
    r = (0, cs ++ (RbPush <$> (mc :: dcs))) /\ received s s' img meta /\
    0 < zlen img <= IMG_BUF_SIZE /\ Forall is_byte img /\ 0 < zlen meta < META_BUF_SIZE /\
    meta_frame meta mc /\ image_frame img dcs /\ zlen dcs = total_chunks (zlen img).

(** The first call is [rb_init], on every path. *)
Definition main_post := calls_post [RbInit].

(** Undefined behaviour needs a camera that announces an image of one byte. *)
Definition main_ub (s s' : cam W) : Prop :=
  exists img meta, received s s' img meta /\ zlen img = 1.

Lemma wp_calling cs m (Q : Z * list rb_call -> cam W -> Prop) U s :
  wp m (fun r => Q (fst r, cs ++ snd r)) U s -> wp (calling cs m) Q U s.
Proof. intros H. unfold calling. apply wp_bind. eapply wp_mono; [exact H|]. auto. Qed.

Lemma wp_finish ret (Q : Z * list rb_call -> cam W -> Prop) U s :
  (forall s', uart_op s s' [] -> Q (ret, []) s') -> wp (finish ret) Q U s.
Proof. intros H. unfold finish. apply wp_bind, wp_do_world. intros s1 H1. apply wp_ret. auto. Qed.

Lemma wp_fail s0 s : wp (finish (-1)) (calls_post [] s0) (main_ub s0) s.
Proof. apply wp_finish. intros. by left. Qed.

Lemma received_uart s0 s s' img meta :
  received s0 s img meta -> uart_op s s' [] -> received s0 s' img meta.
Proof.
  intros (pre & l4 & l2 & sync & Hu & H4 & H4v & H2 & H2v & Hs & Hsy) [].
  exists pre, l4, l2, sync. rewrite uo_uart0, app_nil_r, uo_spi0. by repeat (split; [done|]).
Qed.

Lemma wp_capture s0 s :
  cam_ok s -> spi_log s = spi_log s0 -> wp capture (calls_post [] s0) (main_ub s0) s.
Proof.
  intros Hok Hspi. unfold capture. apply wp_bind, wp_printf. intros s1 H1.
  apply wp_bind, wp_capture_command; [intros; apply wp_fail|]. intros lp s2 H2. simpl negb. cbv iota.
  apply wp_bind, wp_read_size; [intros; apply wp_fail|]. intros l4 s3 H3 Hl4 Hv4.
  pose proof (uart_op_trans _ _ _ _ _ (uart_op_trans _ _ _ _ _ H1 H2) H3) as H13.
  apply wp_bind, wp_read_meta; [intros; apply wp_fail|]. intros l2 meta s4 H4 Hl2 Hv2 Hm Hmb.
  assert (cam_ok s4) as Hok4.
  { pose proof (cam_ok_uart _ _ _ (cam_ok_uart _ _ _ Hok H13) H4) as []. by constructor. }
  apply wp_bind, wp_transfer; [done|done|].
  intros sync img s5 Hsy Him Hok5 Hu5 Hmb5 Hsp5 Hi5 Hby.
  assert (received s0 s5 img meta) as Hrec.
  { exists (uart_log s ++ lp), l4, l2, sync. destruct H13, H4. simpl in *.
    rewrite Hu5, uo_uart1, uo_uart0, Hsp5, uo_spi1, uo_spi0, Hspi. rewrite <- !app_assoc.
    by repeat (split; [done || congruence|]). }
  apply wp_bind, wp_check_markers; [done|done|..].
  2: { intros Hn s6 H6. exists img, meta. split; [by eapply received_uart|lia]. }
  intros _ s6 H6. apply wp_bind, (wp_meta_chunk meta); [done| |].
  { rewrite (uo_meta _ _ _ H6), Hmb5. exact Hmb. }
  intros mc Hmc. apply wp_calling, wp_bind, wp_printf. intros s7 H7.
  apply wp_bind, wp_printf. intros s8 H8.
  pose proof (uart_op_trans _ _ _ _ _ (uart_op_trans _ _ _ _ _ H6 H7) H8) as H68.
  apply wp_bind, wp_get, wp_bind. rewrite (uo_image _ _ _ H68).
  destruct (data_chunks_spec (image_buf s5) (le_val l4) (ok_image _ Hok5) Hv4) as (dcs & E & Hln & Hf).
  eapply wp_lift; [exact E|]. apply wp_calling, wp_bind, wp_printf. intros s9 H9.
  apply wp_finish. intros s10 H10. right. exists mc, dcs, img, meta. rewrite Hi5 in Hf.
  rewrite Him. cbn [fst snd]. rewrite app_nil_r. split; [done|]. split; [|done].
  exact (received_uart _ _ _ _ _ Hrec
           (uart_op_trans _ _ _ _ _ (uart_op_trans _ _ _ _ _ H68 H9) H10)).
Qed.

Lemma wp_main s : cam_ok s -> wp camera_MSN2_main (main_post s) (main_ub s) s.
Proof.
  intros Hok. unfold camera_MSN2_main. apply wp_bind, wp_printf. intros s1 H1.
  apply wp_calling. eapply (wp_mono _ (calls_post [] s)).
  2: { intros [r cs] s' [[= -> ->]|(mc & dcs & img & meta & [= -> ->] & H)]; [by left|].
       right. by exists mc, dcs, img, meta. }
  apply wp_bind, wp_world. intros s2 H2. set (fd := fst _). clearbody fd.
  destruct (fd <? 0).
  { apply wp_bind, wp_printf. intros s3 H3. apply wp_ret. by left. }
  apply wp_bind, wp_configure. intros s3 H3. apply wp_bind, wp_flush. intros l4 s4 H4.
  apply wp_bind, wp_world. intros s5 H5. set (spi := fst _). clearbody spi.
  destruct spi; simpl negb; cbv iota.
  2: { apply wp_bind, wp_printf. intros s6 H6. apply wp_fail. }
  apply wp_bind, wp_printf. intros s6 H6. apply wp_bind, wp_handshake. intros l7 s7 r H7 Hr.
  pose proof (uart_op_trans _ _ _ _ _ (uart_op_trans _ _ _ _ _ (uart_op_trans _ _ _ _ _
    (uart_op_trans _ _ _ _ _ (uart_op_trans _ _ _ _ _ (uart_op_trans _ _ _ _ _ H1 H2) H3) H4) H5) H6) H7)
    as H17.
  destruct (r <? 0); [apply wp_fail|].
  apply wp_capture; [by eapply cam_ok_uart|]. apply H17.
Qed.
End main.

(** C5: [camera_MSN2_main] pushes exactly what the camera sent.  Whatever the
    camera and the kernel do, within the laws of the interface, the program
    terminates with one of three outcomes.  It returns -1, having called
    [rb_init] and pushed nothing.  Or it returns 0, having called [rb_init] and
    then pushed one metadata chunk followed by the chunks of an image, and these
    are the metadata received over the UART, with the length announced there, and
    the bytes received over SPI after the 1024 synchronisation bytes, as many as
    announced: at most 40000, split into pieces of at most 256 bytes in order,
    the last and only the last marked.  Or it accesses memory outside a buffer,
    and then the camera has announced an image of one byte. *)
Theorem camera_pushes_what_was_sent {W} `{!Env W} (s : cam W) :
  cam_ok s ->
  match camera_MSN2_main s with
  | (Some r, s') => main_post s r s'
  | (None, s') => main_ub s s'
  end.
Proof. intros Hok. exact (wp_main s Hok). Qed.

(** ** A camera that follows the protocol *)

(** The bytes the UART delivers next, what the camera answers to the two
    commands, and the bytes it sends over SPI. *)
Record script := mk_script {
  sc_in : list Z;
  sc_hello : list Z;
  sc_reply : list Z;
  sc_spi : list Z;
  sc_closed : bool
}.

#[export] Program Instance script_env : Env script := {
  e_open w := (3, w);
  e_close w := mk_script (sc_in w) (sc_hello w) (sc_reply w) (sc_spi w) true;
  e_tcgetattr w := (mk_termios 0 0 0 0 (replicate NCCS 0) 0, w);
  e_tcsetattr _ w := w;
  e_read w := match sc_in w with
              | b :: l => (Some (u8 b), mk_script l (sc_hello w) (sc_reply w) (sc_spi w) (sc_closed w))
              | [] => (None, w)
              end;
  e_write c w :=
    let out := if c =? CMD_HANDSHAKE then sc_hello w
               else if c =? CMD_CAPTURE then sc_reply w else [] in
    mk_script (sc_in w ++ out) (sc_hello w) (sc_reply w) (sc_spi w) (sc_closed w);
  e_tcflush w := w;
  e_usleep _ w := w;
  e_spibus w := (true, w);
  e_spi _ w := w;
  e_exchange tx w :=
    (u8 <$> take (length tx) (sc_spi w ++ replicate (length tx) 0),
     mk_script (sc_in w) (sc_hello w) (sc_reply w) (drop (length tx) (sc_spi w)) (sc_closed w));
  e_pending w := length (sc_in w)
}.
Next Obligation. intros w v w'. simpl. destruct (sc_in w); [done|]. intros [= _ <-]. simpl. lia. Qed.
Next Obligation. done. Qed.
Next Obligation.
  intros w v w'. simpl. destruct (sc_in w); [done|]. intros [= <- _]. apply u8_range.
Qed.
Next Obligation.
  intros tx w. simpl. apply Forall_fmap, Forall_true. intros v. apply u8_range.
Qed.
Next Obligation.
  intros tx w. simpl. rewrite length_fmap, length_take, length_app, length_replicate. lia.
Qed.

Definition boot {W} (w : W) : cam W :=
  mk_cam w (replicate (Z.to_nat IMG_BUF_SIZE) 0) (replicate (Z.to_nat SPI_XFER_SIZE) 0)
    (replicate (Z.to_nat SPI_XFER_SIZE) 0) (replicate (Z.to_nat META_BUF_SIZE) 0) [] [] [].

Lemma boot_ok {W} (w : W) : cam_ok (boot w).
Proof. constructor; vm_compute; reflexivity. Qed.

(** A camera with a 300-byte image and three bytes of metadata. *)
Definition demo_image : list Z := [0xFF; 0xD8; 0xFF] ++ replicate 295 7 ++ [0xFF; 0xD9].
Definition demo : script :=
  mk_script [] [ACK_BYTE] ([ACK_BYTE; 44; 1; 0; 0; 3; 0] ++ [97; 98; 99])
    (replicate 1024 0 ++ demo_image) false.

(** The lengths of the chunks a run that returns 0 pushes. *)
Definition pushed (calls : list rb_call) : list image_chunk_s :=
  omap (fun c => match c with RbPush c => Some c | RbInit => None end) calls.
Definition pushed_lengths (r : option (Z * list rb_call)) : list Z :=
  match r with Some (0, cs) => map len (pushed cs) | _ => [] end.

Lemma demo_pushed : pushed_lengths (fst (camera_MSN2_main (boot demo))) = [3; 256; 44].
Proof. vm_compute. reflexivity. Qed.

Lemma camera_pushes_what_was_sent_witness :
  exists cs s', camera_MSN2_main (boot demo) = (Some (0, cs), s') /\
    main_post (boot demo) (0, cs) s' /\ map len (pushed cs) = [3; 256; 44].
Proof.
  pose proof (camera_pushes_what_was_sent (boot demo) (boot_ok demo)) as H.
  pose proof demo_pushed as Hl.
  destruct (camera_MSN2_main (boot demo)) as [[[[|c|c] cs]|] s']; try discriminate Hl.
  by exists cs, s'.
Defined.

(** C38: When the image announced has one byte, the program reads outside
    [image_buf]: the trailer check is skipped ([img_size >= 2] fails), the warning
    is printed instead, and its argument [image_buf[img_size - 2]] has index
    [2^32 - 1]. *)
Theorem camera_one_byte_image {W} `{!Env W} (s : cam W) :
  cam_ok s -> fst (check_markers 1 s) = None.
Proof.
  intros Hok.
  assert (wp (check_markers 1) (fun _ _ => False) (fun _ => True) s) as H
    by (apply wp_check_markers; done).
  unfold wp in H. destruct (check_markers 1 s) as [[]]; done.
Qed.

Definition one_byte_demo : script :=
  mk_script [] [ACK_BYTE] ([ACK_BYTE; 1; 0; 0; 0; 3; 0] ++ [97; 98; 99])
    (replicate 1024 0 ++ [0xFF]) false.

Lemma camera_one_byte_image_witness :
  fst (check_markers 1 (boot one_byte_demo)) = None /\
  fst (camera_MSN2_main (boot one_byte_demo)) = None.
Proof.
  split; [exact (camera_one_byte_image (boot one_byte_demo) (boot_ok one_byte_demo))|].
  vm_compute. reflexivity.
Defined.
