(* ===== verification/Hello.v ===== *)
(** The subscriber task.

    Models apps/examples/hello/hello_main.c: what it prints for the chunks it
    takes from the ring buffer, and when it stops.  Characters are their ASCII
    codes. *)

From S2P Require Import Prelude.
From S2P Require Import RingBuffer.
From S2P Require Import Camera.
Local Open Scope Z_scope.

(** The digit [%X] prints for a number below 16. *)
Definition hex_digit (d : Z) : Z := if d <? 10 then 48 + d else 55 + d.

(** [printf("%02X", b)] for a byte. *)
Definition hex2 (b : Z) : list Z := [hex_digit (b / 16); hex_digit (b mod 16)].

Definition newline : Z := 10.

(** [for (uint16_t i = 0; i < chunk.len; i++) printf("%02X", chunk.data[i]);]
    with [n] rounds left; [None] is an access outside [data]. *)
Fixpoint print_loop (c : image_chunk_s) (i : Z) (n : nat) : option (list Z) :=
  match n with
  | O => Some []
  | S n =>
      b ← load (data c) i;
      rest ← print_loop c (u16 (i + 1)) n;
      Some (hex2 b ++ rest)
  end.

(** The state of the loop: what was printed, and [done]. *)
Record hello_s := mk_hello { out : list Z; done : bool }.

(** The body of the loop after a successful [rb_read]. *)
Definition hello_chunk (c : image_chunk_s) (h : hello_s) : option hello_s :=
  if negb (is_meta c =? 0) then Some h
  else
    o ← print_loop c 0 (Z.to_nat (len c));
    if negb (is_last c =? 0)
    then Some (mk_hello (out h ++ o ++ [newline]) true)
    else Some (mk_hello (out h ++ o) (done h)).

(** One round of [while (!done)]: [None] as the chunk when [rb_read] returned
    -1. *)
Definition hello_step (r : Z * option image_chunk_s) (h : hello_s) : option hello_s :=
  match r with
  | (0, Some c) => hello_chunk c h
  | _ => Some h
  end.

(** ** What is printed *)

Definition hex (l : list Z) : list Z := concat (map hex2 l).

(** The text for one chunk. *)
Definition chunk_text (c : image_chunk_s) : list Z :=
  if is_meta c =? 0 then hex (payload c) ++ (if is_last c =? 0 then [] else [newline]) else [].

Lemma print_loop_spec c n i :
  0 <= i -> i + Z.of_nat n <= zlen (data c) -> zlen (data c) < 2 ^ 16 ->
  print_loop c i n = Some (hex (take n (drop (Z.to_nat i) (data c)))).
Proof.
  revert i. induction n as [|n IH]; intros i Hi Hn Hl; [done|]. cbn [print_loop].
  destruct (load_in_range (data c) i) as [b Hb]; [lia|]. rewrite Hb.
  apply load_Some in Hb as [_ Hb]. cbn [mbind option_bind].
  rewrite u16_small by lia. rewrite IH by lia. cbn [mbind option_bind].
  rewrite (drop_S _ b (Z.to_nat i)) by done. replace (Z.to_nat (i + 1)) with (S (Z.to_nat i)) by lia.
  done.
Qed.

(** Printing a well-formed chunk. *)
Lemma hello_chunk_spec c h :
  zlen (data c) = CHUNK_SIZE -> 0 < len c <= CHUNK_SIZE ->
  hello_chunk c h =
    Some (mk_hello (out h ++ chunk_text c)
            (done h || ((is_meta c =? 0) && negb (is_last c =? 0)))).
Proof.
  intros Hd Hl. unfold hello_chunk, chunk_text, payload, CHUNK_SIZE in *.
  destruct (is_meta c =? 0); simpl.
  - rewrite print_loop_spec by lia. cbn [mbind option_bind]. rewrite drop_0.
    destruct (is_last c =? 0); simpl.
    + by rewrite app_nil_r, orb_false_r.
    + by rewrite orb_true_r.
  - rewrite app_nil_r, orb_false_r. by destruct h.
Qed.

(** ** Reading the text back *)

Definition unhex_digit (d : Z) : option Z :=
  if (48 <=? d) && (d <=? 57) then Some (d - 48)
  else if (65 <=? d) && (d <=? 70) then Some (d - 55) else None.

Fixpoint unhex (t : list Z) : option (list Z) :=
  match t with
  | [] => Some []
  | a :: b :: t =>
      x ← unhex_digit a;
      y ← unhex_digit b;
      l ← unhex t;
      Some (16 * x + y :: l)
  | _ => None
  end.

Lemma unhex_digit_hex d : 0 <= d < 16 -> unhex_digit (hex_digit d) = Some d.
Proof.
  intros H. unfold hex_digit. destruct (Z.ltb_spec d 10); unfold unhex_digit.
  - replace ((48 <=? 48 + d) && (48 + d <=? 57)) with true by (symmetry; lia). f_equal. lia.
  - replace ((48 <=? 55 + d) && (55 + d <=? 57)) with false by (symmetry; lia).
    replace ((65 <=? 55 + d) && (55 + d <=? 70)) with true by (symmetry; lia). f_equal. lia.
Qed.

Lemma unhex_hex l : Forall is_byte l -> unhex (hex l) = Some l.
Proof.
  unfold is_byte. induction 1 as [|b l Hb _ IH]; [done|]. unfold hex in *. cbn [map concat hex2 app unhex].
  rewrite !unhex_digit_hex by zlia. cbn [mbind option_bind]. rewrite IH. cbn [mbind option_bind].
  do 2 f_equal. zlia.
Qed.

(** Every character of the text is a digit or a letter from A to F, so the
    newline ends it. *)
Lemma hex_no_newline l : Forall is_byte l -> newline ∉ hex l.
Proof.
  unfold is_byte, newline. induction 1 as [|b l Hb _ IH]; [apply not_elem_of_nil|].
  unfold hex in *. cbn [map concat hex2 app]. rewrite !not_elem_of_cons. unfold hex_digit.
  split; [|split; [|done]]; case_match; zbool; zlia.
Qed.

Lemma length_hex l : zlen (hex l) = 2 * zlen l.
Proof. unfold hex. induction l as [|b l IH]; [done|]. cbn [map concat hex2 app length]. lia. Qed.

(** The text of a frame. *)
Lemma frame_text img cs :
  image_frame img cs -> concat (map chunk_text cs) = hex img ++ [newline].
Proof.
  intros (<- & Hok & init & lst & -> & Hi & Hl).
  apply Forall_app in Hok as [Hok1 Hok2]. apply Forall_cons_1 in Hok2 as [[_ Hm] _].
  rewrite !map_app, !concat_app. simpl. unfold chunk_text at 2. rewrite Hm, Hl. simpl.
  rewrite !app_nil_r. unfold hex. rewrite map_app, concat_app, <- app_assoc. f_equal.
  clear Hm Hl lst. induction Hi as [|c init Hc _ IH]; [done|].
  apply Forall_cons_1 in Hok1 as [[_ Hm] Hok1]. simpl. rewrite IH by done.
  unfold chunk_text, hex. rewrite Hm, Hc. simpl. by rewrite app_nil_r, map_app, concat_app.
Qed.
