(* ===== verification/Protocol.v ===== *)
(** The camera at the other end of the wires.

    An instance of the interface [Env] of Camera.v: an OpenMV camera as the
    README describes it, with a clock.  Its script openmv_camera.py is not in the
    repository, so what it does is data of the model: the bytes it answers and
    their times, the moment it enters [spi.send_recv], what it shifts out there,
    and what the line carries when it is not there.  Sleeping and exchanging
    bytes make time pass.  The theorems are that the camera task serves every
    camera that answers within the timeouts of the program and is in
    [spi.send_recv] when it is selected, and that it pushes whatever the line
    carries, and returns 0, when the camera is selected too early. *)

From S2P Require Import Prelude.
From S2P Require Import RingBuffer.
From S2P Require Import Camera.
Local Open Scope Z_scope.

(** ** The camera *)

(** The mode, the bits in a word and the frequency of the SPI bus. *)
Record spi_bus := mk_bus { bus_mode : Z; bus_bits : Z; bus_freq : Z }.

(** The upper part is the state: the time in microseconds, the settings of the
    UART and of the bus, the bytes sent over the UART and not read yet, each with
    the time from which it can be read, the time from which the camera is in
    [spi.send_recv], and the bytes the next exchanges receive.

    The lower part is the camera and the kernel it is read from: [late t d] is by
    how much a sleep of [d] microseconds that begins at [t] is longer;
    [ack_delay] is how long the camera takes to answer the handshake; [reply] is
    what it answers to a capture command, each byte with its delay, and
    [spi_delay] how long after the command it enters [spi.send_recv]; [shifted]
    is what it shifts out there, and [noise] what the line carries when the chip
    select came before. *)
Record openmv := mk_openmv {
  clock : Z;
  uart : termios;
  bus : spi_bus;
  queue : list (Z * Z);
  spi_from : option Z;
  line : list Z;
  late : Z -> Z -> Z;
  ack_delay : Z;
  reply : list (Z * Z);
  spi_delay : Z;
  shifted : list Z;
  noise : list Z
}.

Definition set_queue (c : Z) (q : list (Z * Z)) (w : openmv) : openmv :=
  mk_openmv c (uart w) (bus w) q (spi_from w) (line w)
    (late w) (ack_delay w) (reply w) (spi_delay w) (shifted w) (noise w).
Definition set_uart (t : termios) (w : openmv) : openmv :=
  mk_openmv (clock w) t (bus w) (queue w) (spi_from w) (line w)
    (late w) (ack_delay w) (reply w) (spi_delay w) (shifted w) (noise w).
Definition set_bus (b : spi_bus) (w : openmv) : openmv :=
  mk_openmv (clock w) (uart w) b (queue w) (spi_from w) (line w)
    (late w) (ack_delay w) (reply w) (spi_delay w) (shifted w) (noise w).
Definition set_from (f : option Z) (w : openmv) : openmv :=
  mk_openmv (clock w) (uart w) (bus w) (queue w) f (line w)
    (late w) (ack_delay w) (reply w) (spi_delay w) (shifted w) (noise w).
Definition set_line (c : Z) (l : list Z) (w : openmv) : openmv :=
  mk_openmv c (uart w) (bus w) (queue w) (spi_from w) l
    (late w) (ack_delay w) (reply w) (spi_delay w) (shifted w) (noise w).

(** 115200 baud, eight bits, no parity, one stop bit, which the camera uses. *)
Definition at_115200_8n1 (t : termios) : bool :=
  (c_speed t =? 115200) && (Z.land (c_cflag t) CSIZE =? CS8) &&
  (Z.land (c_cflag t) PARENB =? 0) && (Z.land (c_cflag t) CSTOPB =? 0).

Definition openmv_read (w : openmv) : option Z * openmv :=
  match queue w with
  | (t, b) :: q => if t <=? clock w then (Some (u8 b), set_queue (clock w) q w) else (None, w)
  | [] => (None, w)
  end.

(** The camera understands a command only at its own line settings. *)
Definition openmv_write (c : Z) (w : openmv) : openmv :=
  if negb (at_115200_8n1 (uart w)) then w
  else if c =? CMD_HANDSHAKE
  then set_queue (clock w) (queue w ++ [(clock w + ack_delay w, ACK_BYTE)]) w
  else if c =? CMD_CAPTURE
  then set_queue (clock w) (queue w ++ map (fun '(d, b) => (clock w + d, b)) (reply w))
         (set_from (Some (clock w + spi_delay w)) w)
  else w.

(** The camera takes part in the transfer when it is in [spi.send_recv] already
    and the bus is in mode 0 with 8 bits at 4 MHz; otherwise the window is
    missed. *)
Definition in_send_recv (w : openmv) : bool :=
  match spi_from w with
  | Some t => (t <=? clock w) && (bus_mode (bus w) =? 0) && (bus_bits (bus w) =? 8) &&
              (bus_freq (bus w) =? 4000000)
  | None => false
  end.

Definition openmv_spi (c : spi_cmd) (w : openmv) : openmv :=
  match c with
  | SPI_LOCK _ => w
  | SPI_SETMODE m => set_bus (mk_bus m (bus_bits (bus w)) (bus_freq (bus w))) w
  | SPI_SETBITS n => set_bus (mk_bus (bus_mode (bus w)) n (bus_freq (bus w))) w
  | SPI_SETFREQUENCY f => set_bus (mk_bus (bus_mode (bus w)) (bus_bits (bus w)) f) w
  | SPI_SELECT true => set_line (clock w) (if in_send_recv w then shifted w else noise w) w
  | SPI_SELECT false => w
  end.

(** After the last byte the line is low. *)
Definition openmv_exchange (tx : list Z) (w : openmv) : list Z * openmv :=
  (u8 <$> take (length tx) (line w ++ replicate (length tx) 0),
   set_line (clock w + 8 * zlen tx * 1000000 / bus_freq (bus w)) (drop (length tx) (line w)) w).

(** [c_cc] is an array of [NCCS] characters. *)
Definition openmv_tcgetattr (w : openmv) : termios :=
  let t := uart w in
  mk_termios (c_iflag t) (c_oflag t) (c_cflag t) (c_lflag t)
    (take NCCS (c_cc t ++ replicate NCCS 0)) (c_speed t).

#[export] Program Instance openmv_env : Env openmv := {
  e_open w := (3, w);
  e_close w := w;
  e_tcgetattr w := (openmv_tcgetattr w, w);
  e_tcsetattr := set_uart;
  e_read := openmv_read;
  e_write := openmv_write;
  e_tcflush w := w;
  e_usleep d w := set_queue (clock w + d + late w (clock w) d) (queue w) w;
  e_spibus w := (true, w);
  e_spi := openmv_spi;
  e_exchange := openmv_exchange;
  e_pending w := length (queue w)
}.
Next Obligation.
  intros w v w'. unfold openmv_read. destruct (queue w) as [|[t b] q] eqn:E; [done|].
  destruct (t <=? clock w); [|done]. intros [= _ <-]. simpl. lia.
Qed.
Next Obligation.
  intros w. cbn [fst c_cc openmv_tcgetattr].
  rewrite length_take, length_app, length_replicate. lia.
Qed.
Next Obligation.
  intros w v w'. unfold openmv_read. destruct (queue w) as [|[t b] q]; [done|].
  destruct (t <=? clock w); [|done]. intros [= <- _]. apply u8_range.
Qed.
Next Obligation.
  intros tx w. simpl. apply Forall_fmap, Forall_true. intros v. apply u8_range.
Qed.
Next Obligation.
  intros tx w. simpl. rewrite length_fmap, length_take, length_app, length_replicate. lia.
Qed.

(** ** Rules that follow the camera *)

Section rules.
Implicit Types (s : cam openmv) (w : openmv).

(** The step received [l] over the UART, touched no buffer and left the camera
    in the state [w]. *)
Definition moved s s' (l : list Z) (w : openmv) : Prop := uart_op s s' l /\ world s' = w.

Lemma moved_trans s1 s2 s3 l1 l2 w1 w2 :
  moved s1 s2 l1 w1 -> moved s2 s3 l2 w2 -> moved s1 s3 (l1 ++ l2) w2.
Proof. intros [H1 _] [H2 H]. split; [by eapply uart_op_trans|done]. Qed.

Lemma mv_printf m (Q : unit -> cam openmv -> Prop) U s :
  (forall s', moved s s' [] (world s) -> Q tt s') -> wp (printf m) Q U s.
Proof. intros H. apply H. split; [|done]. by apply uart_op_nil. Qed.

Lemma mv_world {A} (f : openmv -> A * openmv) (Q : A -> cam openmv -> Prop) U s :
  (forall s', moved s s' [] (snd (f (world s))) -> Q (fst (f (world s))) s') ->
  wp (with_world f) Q U s.
Proof.
  intros H. unfold wp, with_world. destruct (f (world s)) as [x w].
  apply H. split; [|done]. by apply uart_op_nil.
Qed.

Lemma mv_do_world f (Q : unit -> cam openmv -> Prop) U s :
  (forall s', moved s s' [] (f (world s)) -> Q tt s') -> wp (do_world f) Q U s.
Proof. intros H. by apply mv_world. Qed.

(** Nothing to flush. *)
Lemma mv_flush (Q : unit -> cam openmv -> Prop) U s :
  queue (world s) = [] -> (forall s', moved s s' [] (world s) -> Q tt s') -> wp uart_flush Q U s.
Proof.
  intros Hq H. unfold uart_flush, wp, mbind, M_bind, get. cbn [e_pending openmv_env]. rewrite Hq.
  simpl. unfold mbind, M_bind, read1. cbn [e_read openmv_env]. unfold openmv_read. rewrite Hq.
  apply H. split; [|done]. apply uart_op_nil; simpl; try done. by rewrite app_nil_r.
Qed.

(** When a read with polls every [d] microseconds that begins at [c0] gets a byte
    that comes at [t]: at [c], after both, and when sleeps are exact at the first
    poll after [t]. *)
Definition polled (w : openmv) (d c0 t c : Z) : Prop :=
  c0 <= c /\ t <= c /\
  ((forall a, late w a d = 0) -> exists j, 0 <= j /\ c = c0 + j * d /\ (c = c0 \/ c - d < t)).

Lemma polled_now w d c0 t c :
  polled w d c0 t c -> (forall a, late w a d = 0) -> 0 <= d -> t <= c0 -> c = c0.
Proof.
  intros (H1 & H2 & H) Hl Hd Ht. destruct (H Hl) as (j & Hj & -> & [E|Hlt]); [done|].
  destruct (Z.eq_dec j 0) as [->|Hne]; [lia|]. exfalso. nia.
Qed.

(** Sleeps are never too short. *)
Definition punctual (w : openmv) : Prop := forall t d, 0 <= late w t d.

(** Reading a byte that comes in time. *)
Lemma mv_read_byte n d t b q (Q : option Z -> cam openmv -> Prop) U s :
  punctual (world s) ->
  queue (world s) = (t, b) :: q -> is_byte b -> (0 < n)%nat -> 0 <= d ->
  t <= clock (world s) + (Z.of_nat n - 1) * d ->
  (forall s' c, polled (world s) d (clock (world s)) t c ->
     moved s s' [b] (set_queue c q (world s)) -> Q (Some b) s') ->
  wp (uart_read_byte n d) Q U s.
Proof.
  intros Hp Hq Hb. revert s Hp Hq Q. induction n as [|n IH]; intros s Hp Hq Q Hn Hd Ht HQ; [lia|].
  cbn [uart_read_byte]. apply wp_bind. unfold wp at 1, read1. cbn [e_read openmv_env].
  unfold openmv_read. rewrite Hq. destruct (Z.leb_spec t (clock (world s))) as [Hle|Hgt].
  - apply wp_ret. unfold is_byte in Hb. rewrite u8_small by lia.
    apply (HQ _ (clock (world s))).
    + split; [lia|]. split; [lia|]. intros _. exists 0. split; [lia|]. split; [lia|by left].
    + split; [|done]. by constructor.
  - set (s1 := mk_cam _ _ _ _ _ _ _ _).
    assert (moved s s1 [] (world s)) as H1.
    { split; [|done]. apply uart_op_nil; simpl; try done. by rewrite app_nil_r. }
    replace (0 <? d) with true by (symmetry; nia).
    apply wp_bind, mv_do_world. intros s2 H2. destruct H2 as [H2 Hw2]. simpl world in Hw2.
    pose proof (Hp (clock (world s)) d) as Hl.
    apply IH; rewrite ?Hw2; simpl; [done|done|nia|done|lia|].
    intros s3 c (Hc1 & Hc2 & Hc3) H3. simpl in *. apply (HQ s3 c).
    + split; [lia|]. split; [done|]. intros Hz. destruct (Hc3 Hz) as (j & Hj & Ec & Hd').
      specialize (Hz (clock (world s))). exists (j + 1). split; [lia|]. split; [nia|].
      right. destruct Hd'; nia.
    + exact (moved_trans _ _ _ _ _ _ _ (moved_trans _ _ _ _ _ _ _ H1 (conj H2 Hw2)) H3).
Qed.

(** Every byte comes at most [g] after the one before it, the first at most [g]
    after [p]. *)
Fixpoint on_time (g p : Z) (l : list (Z * Z)) : Prop :=
  match l with [] => True | (t, _) :: l => t <= p + g /\ on_time g t l end.

Lemma on_time_mono g p c l : p <= c -> on_time g p l -> on_time g c l.
Proof. destruct l as [|[t b] l]; [done|]. simpl. intros Hp [H1 H2]. split; [lia|done]. Qed.

(** All the bytes of [l] can be read at the time [c]. *)
Definition all_by (c : Z) (l : list (Z * Z)) : Prop := Forall (fun tb => fst tb <= c) l.

Lemma all_by_mono c c' l : c <= c' -> all_by c l -> all_by c' l.
Proof. intros Hc. apply Forall_impl. simpl. lia. Qed.

(** When a read of the bytes [l] that begins at [c0] ends. *)
Definition read_by (w : openmv) (d c0 : Z) (l : list (Z * Z)) (c : Z) : Prop :=
  c0 <= c /\ all_by c l /\ ((forall a, late w a d = 0) -> all_by c0 l -> c = c0).

Lemma read_by_app w w' d c0 c1 c2 l1 l2 :
  late w' = late w ->
  read_by w d c0 l1 c1 -> read_by w' d c1 l2 c2 -> read_by w d c0 (l1 ++ l2) c2.
Proof.
  intros Hw (H1 & H2 & H3) (H4 & H5 & H6). rewrite Hw in H6. split; [lia|]. split.
  - apply Forall_app. split; [by eapply all_by_mono|done].
  - intros Hl H. apply Forall_app in H as [Ha Hb].
    specialize (H3 Hl Ha). subst c1. by apply H6.
Qed.

(** The loop fills [buf] from [i] with the bytes of [l]. *)
Lemma mv_read_loop buf i len r d l rest (Q : Z * list Z -> cam openmv -> Prop) U s :
  punctual (world s) ->
  queue (world s) = l ++ rest -> Forall is_byte (map snd l) -> (0 < r)%nat -> 0 <= d ->
  0 <= i -> i + zlen l <= zlen buf ->
  on_time ((Z.of_nat r - 1) * d) (clock (world s)) (l ++ rest) ->
  (forall s' c, read_by (world s) d (clock (world s)) l c ->
     on_time ((Z.of_nat r - 1) * d) c rest ->
     moved s s' (map snd l) (set_queue c rest (world s)) ->
     Q (0, take (Z.to_nat i) buf ++ map snd l ++ drop (Z.to_nat i + length l) buf) s') ->
  wp (uart_read_loop buf i (length l) len r d) Q U s.
Proof.
  revert buf i s Q. induction l as [|[t b] l IH];
    intros buf i s Q Hp Hq Hb Hr Hd Hi Hl Ht HQ; cbn [uart_read_loop length].
  { apply wp_ret. simpl in HQ. rewrite Nat.add_0_r, take_drop in HQ.
    apply (HQ s (clock (world s))).
    - split; [lia|]. split; [constructor|done].
    - done.
    - split; [apply uart_op_refl|].
      unfold set_queue. simpl in Hq. rewrite <- Hq. by destruct (world s). }
  simpl in Hb, Ht. apply Forall_cons_1 in Hb as [Hb Hbl]. destruct Ht as [Ht1 Ht2].
  apply wp_bind, (mv_read_byte r d t b (l ++ rest)); [done|done|done|done|done|lia|].
  intros s1 c Hc [H1 Hw1]. apply wp_bind. simpl length in Hl.
  assert (read_by (world s) d (clock (world s)) [(t, b)] c) as Hby.
  { pose proof Hc as (? & ? & _). split; [done|]. split; [by constructor|].
    intros Hz Ha. inversion_clear Ha as [|? ? Ha' _]. by eapply polled_now. }
  eapply wp_lift; [apply store_in_range; lia|]. cbn beta.
  apply IH; rewrite ?Hw1; simpl; [done|done|done|done|done|lia|rewrite length_insert; lia| |].
  { exact (on_time_mono _ _ _ _ (proj1 (proj2 Hc)) Ht2). }
  intros s2 c2 Hc2 Hrest [H2 Hw2].
  assert (take (Z.to_nat (i + 1)) (<[Z.to_nat i:=b]> buf) ++
          map snd l ++ drop (Z.to_nat (i + 1) + length l) (<[Z.to_nat i:=b]> buf) =
          take (Z.to_nat i) buf ++ map snd ((t, b) :: l) ++ drop (Z.to_nat i + S (length l)) buf) as ->.
  { replace (Z.to_nat (i + 1)) with (S (Z.to_nat i)) by lia.
    rewrite drop_insert_lt by lia.
    rewrite (take_S_r _ _ b) by (apply list_lookup_insert_eq; lia).
    rewrite take_insert_ge by lia. rewrite <- !app_assoc. simpl. do 4 f_equal. lia. }
  apply (HQ s2 c2); [exact (read_by_app _ _ _ _ _ _ [(t, b)] l eq_refl Hby Hc2)|done|].
  split; [exact (uart_op_trans _ _ _ _ _ H1 H2)|]. by rewrite Hw2.
Qed.

(** ** The phases of the program *)

(** The time the program waits for a byte of the reply. *)
Definition byte_timeout : Z := (Z.of_nat SIZE_POLLS - 1) * SIZE_POLL_US.

(** The handshake with a camera that answers within the polls of the first
    attempt. *)
Lemma mv_handshake_polls n t (Q : bool -> cam openmv -> Prop) U s :
  punctual (world s) -> queue (world s) = [(t, ACK_BYTE)] -> (0 < n)%nat ->
  t <= clock (world s) + (Z.of_nat n - 1) * 100000 ->
  (forall s' c, moved s s' [ACK_BYTE] (set_queue c [] (world s)) -> Q true s') ->
  wp (handshake_polls n) Q U s.
Proof.
  revert s Q. induction n as [|n IH]; intros s Q Hp Hq Hn Ht HQ; [lia|].
  cbn [handshake_polls]. apply wp_bind.
  destruct (Z.le_gt_cases t (clock (world s))) as [Hle|Hgt].
  - apply (mv_read_byte 1 0 t ACK_BYTE []); [done|done|done|lia|lia|lia|].
    intros s1 c _ H1. simpl (ACK_BYTE =? ACK_BYTE). cbv iota. destruct H1 as [H1 Hw1].
    apply wp_bind, mv_flush; [by rewrite Hw1|]. intros s2 H2.
    apply wp_bind, mv_printf. intros s3 H3. apply wp_ret. apply (HQ s3 c).
    pose proof (moved_trans _ _ _ _ _ _ _ (conj H1 Hw1) (moved_trans _ _ _ _ _ _ _ H2 H3)) as [H Hw].
    split; [done|]. rewrite Hw, (proj2 H2). exact Hw1.
  - unfold wp at 1. cbn [uart_read_byte]. unfold mbind, M_bind, read1. cbn [e_read openmv_env].
    unfold openmv_read. rewrite Hq. replace (t <=? clock (world s)) with false by (symmetry; lia).
    cbn [fst snd]. set (s1 := mk_cam _ _ _ _ _ _ _ _).
    assert (moved s s1 [] (world s)) as H1.
    { split; [|done]. apply uart_op_nil; simpl; try done. by rewrite app_nil_r. }
    change (wp (do_world (e_usleep 100000);; handshake_polls n) Q U s1).
    apply wp_bind, mv_do_world. intros s2 [H2 Hw2].
    pose proof (Hp (clock (world s)) 100000) as Hl.
    apply IH; rewrite ?Hw2; simpl; [done|done|lia|lia|]. intros s3 c H3.
    apply (HQ s3 c). exact (moved_trans _ _ _ _ _ _ _ (moved_trans _ _ _ _ _ _ _ H1 (conj H2 Hw2)) H3).
Qed.

Lemma mv_handshake (Q : Z -> cam openmv -> Prop) U s :
  punctual (world s) -> at_115200_8n1 (uart (world s)) = true ->
  queue (world s) = [] -> ack_delay (world s) <= (Z.of_nat HANDSHAKE_POLLS - 1) * 100000 ->
  (forall s' c, moved s s' [ACK_BYTE] (set_queue c [] (world s)) -> Q 0 s') ->
  wp uart_handshake Q U s.
Proof.
  intros Hp Hu Hq Ht HQ. unfold uart_handshake. apply wp_bind, mv_printf. intros s1 [H1 Hw1].
  change HANDSHAKE_TRIES with 5%nat. cbn [handshake_attempts].
  apply wp_bind, mv_flush; [by rewrite Hw1|]. intros s2 [H2 Hw2].
  apply wp_bind, mv_do_world. intros s3 [H3 Hw3]. rewrite Hw2, Hw1 in Hw3.
  apply wp_bind, mv_printf. intros s4 [H4 Hw4]. rewrite Hw3 in Hw4.
  cbn [e_write openmv_env] in Hw4. unfold openmv_write in Hw4. rewrite Hu in Hw4. cbn [negb] in Hw4.
  change (CMD_HANDSHAKE =? CMD_HANDSHAKE) with true in Hw4. cbv iota in Hw4. rewrite Hq in Hw4.
  apply wp_bind, (mv_handshake_polls _ (clock (world s) + ack_delay (world s)));
    rewrite ?Hw4; simpl app; [done|done|unfold HANDSHAKE_POLLS; lia|simpl; lia|].
  intros s5 c [H5 Hw5]. apply wp_ret, (HQ s5 c). split; [|by rewrite Hw5].
  exact (uart_op_trans _ _ _ _ _ (uart_op_trans _ _ _ _ _ (uart_op_trans _ _ _ _ _
    (uart_op_trans _ _ _ _ _ H1 H2) H3) H4) H5).
Qed.

Definition delayed (c : Z) (l : list (Z * Z)) : list (Z * Z) := map (fun '(d, b) => (c + d, b)) l.

Lemma on_time_delayed g c p l : on_time g p l -> on_time g (c + p) (delayed c l).
Proof.
  revert p. induction l as [|[t b] l IH]; intros p; [done|]. simpl. intros [H1 H2].
  split; [lia|by apply IH].
Qed.

Lemma delayed_bytes c l : map snd (delayed c l) = map snd l.
Proof. unfold delayed. rewrite map_map. apply map_ext. by intros []. Qed.

(** The state after the capture command, at the time [c]. *)
Definition captured (w : openmv) (c : Z) (q : list (Z * Z)) : openmv :=
  set_queue c q (set_from (Some (clock w + spi_delay w)) w).

Lemma mv_capture_command d r (Q : bool -> cam openmv -> Prop) U s :
  punctual (world s) -> at_115200_8n1 (uart (world s)) = true ->
  queue (world s) = [] -> reply (world s) = (d, ACK_BYTE) :: r ->
  d <= (Z.of_nat ACK_POLLS - 1) * ACK_POLL_US -> on_time byte_timeout d r ->
  (forall s' c, polled (world s) ACK_POLL_US (clock (world s)) (clock (world s) + d) c ->
     on_time byte_timeout c (delayed (clock (world s)) r) ->
     moved s s' [ACK_BYTE] (captured (world s) c (delayed (clock (world s)) r)) -> Q true s') ->
  wp capture_command Q U s.
Proof.
  intros Hp Hu Hq Hrep Hd Hr HQ. unfold capture_command.
  apply wp_bind, mv_flush; [done|]. intros s1 [H1 Hw1].
  apply wp_bind, mv_do_world. intros s2 [H2 Hw2]. rewrite Hw1 in Hw2.
  apply wp_bind, mv_printf. intros s3 [H3 Hw3]. rewrite Hw2 in Hw3.
  cbn [e_write openmv_env] in Hw3. unfold openmv_write in Hw3. rewrite Hu in Hw3. cbn [negb] in Hw3.
  change (CMD_CAPTURE =? CMD_HANDSHAKE) with false in Hw3.
  change (CMD_CAPTURE =? CMD_CAPTURE) with true in Hw3. cbv iota in Hw3.
  rewrite Hq, Hrep in Hw3. set (c0 := clock (world s)) in *. fold (delayed c0) in Hw3.
  apply wp_bind, (mv_read_byte ACK_POLLS ACK_POLL_US (c0 + d) ACK_BYTE (delayed c0 r));
    rewrite ?Hw3; [done|done|done|unfold ACK_POLLS; lia|done|simpl; fold c0; lia|].
  intros s4 c Hc [H4 Hw4]. cbv zeta. change (ACK_BYTE =? ACK_BYTE) with true. cbn [negb].
  apply wp_bind, mv_printf. intros s5 [H5 Hw5]. apply wp_ret, (HQ s5 c).
  - exact Hc.
  - eapply on_time_mono; [exact (proj1 (proj2 Hc))|]. by apply on_time_delayed.
  - split; [|by rewrite Hw5, Hw4].
    exact (uart_op_trans _ _ _ _ _ (uart_op_trans _ _ _ _ _ (uart_op_trans _ _ _ _ _
      (uart_op_trans _ _ _ _ _ H1 H2) H3) H4) H5).
Qed.

Lemma le_bytes_byte n z : Forall is_byte (le_bytes n z).
Proof.
  revert z. induction n as [|n IH]; intros z; cbn [le_bytes]; constructor; [|done].
  unfold is_byte. zlia.
Qed.

Lemma mv_read_size l rest n (Q : option Z -> cam openmv -> Prop) U s :
  punctual (world s) -> queue (world s) = l ++ rest -> map snd l = le_bytes 4 n -> 0 < n <= IMG_BUF_SIZE ->
  on_time byte_timeout (clock (world s)) (l ++ rest) ->
  (forall s' c, read_by (world s) SIZE_POLL_US (clock (world s)) l c ->
     on_time byte_timeout c rest ->
     moved s s' (le_bytes 4 n) (set_queue c rest (world s)) -> Q (Some n) s') ->
  wp read_size Q U s.
Proof.
  intros Hp Hq Hl Hn Ht HQ. unfold read_size, uart_read_exact, IMG_BUF_SIZE in *.
  assert (length l = 4%nat) as Hlen by (rewrite <- (length_map snd), Hl; apply length_le_bytes).
  replace (Z.to_nat 4) with (length l) by lia.
  apply wp_bind, (mv_read_loop _ _ _ _ _ l rest); [done|done| |unfold SIZE_POLLS; lia|done|done| |done|].
  { rewrite Hl. apply le_bytes_byte. }
  { rewrite Hlen. done. }
  intros s1 c Hby Hc [H1 Hw1]. rewrite Hlen, Hl in *. cbv zeta iota.
  change (take (Z.to_nat 0) (replicate 4 0) ++ le_bytes 4 n ++ drop (Z.to_nat 0 + 4) (replicate 4 0))
    with (le_bytes 4 n ++ []). rewrite app_nil_r. cbn [Z.ltb Z.compare].
  pose proof (le_bytes_byte 4 n) as Hb. pose proof (le_val_bytes 4 n ltac:(simpl; lia)) as Hv.
  remember (le_bytes 4 n) as bs eqn:Ebs. pose proof (length_le_bytes 4 n) as Hln. rewrite <- Ebs in Hln.
  destruct bs as [|b0 [|b1 [|b2 [|b3 [|]]]]]; try done.
  rewrite !Forall_cons_iff in Hb. destruct Hb as (Hb0 & Hb1 & Hb2 & Hb3 & _).
  do 4 (apply wp_bind; eapply wp_lift; [reflexivity|]; cbn beta).
  cbv zeta. rewrite le_val_4, Hv by done. apply wp_bind, mv_printf. intros s2 [H2 Hw2].
  replace ((n =? 0) || (40000 <? n)) with false by (symmetry; lia).
  apply wp_ret, (HQ s2 c); [done|done|]. split; [|by rewrite Hw2].
  pose proof (uart_op_trans _ _ _ _ _ H1 H2) as H12. by rewrite app_nil_r in H12.
Qed.

Lemma mv_read_meta l2 lm meta (Q : option Z -> cam openmv -> Prop) U s :
  cam_ok s -> punctual (world s) -> queue (world s) = l2 ++ lm -> map snd l2 = le_bytes 2 (zlen meta) ->
  map snd lm = meta -> Forall is_byte meta -> 0 < zlen meta < META_BUF_SIZE ->
  on_time byte_timeout (clock (world s)) (l2 ++ lm) ->
  (forall s' c, cam_ok s' -> spi_log s' = spi_log s ->
     read_by (world s) SIZE_POLL_US (clock (world s)) (l2 ++ lm) c ->
     world s' = set_queue c [] (world s) ->
     meta_buf s' = meta ++ replicate (Z.to_nat (META_BUF_SIZE - zlen meta)) 0 ->
     Q (Some (zlen meta)) s') ->
  wp read_meta Q U s.
Proof.
  intros Hok Hp Hq Hl Hlm Hbm Hm Ht HQ. unfold read_meta, uart_read_exact, META_BUF_SIZE in *.
  assert (length l2 = 2%nat) as Hlen by (rewrite <- (length_map snd), Hl; apply length_le_bytes).
  replace (Z.to_nat 2) with (length l2) by lia.
  apply wp_bind, (mv_read_loop _ _ _ _ _ l2 lm); [done|done| |unfold SIZE_POLLS; lia|done|done| |done|].
  { rewrite Hl. apply le_bytes_byte. }
  { rewrite Hlen. done. }
  intros s1 c Hby Hc [H1 Hw1]. rewrite Hlen, Hl in *. cbv zeta iota.
  change (take (Z.to_nat 0) (replicate 2 0) ++ le_bytes 2 (zlen meta) ++
          drop (Z.to_nat 0 + 2) (replicate 2 0)) with (le_bytes 2 (zlen meta) ++ []).
  rewrite app_nil_r. cbn [Z.ltb Z.compare].
  pose proof (le_bytes_byte 2 (zlen meta)) as Hb.
  pose proof (le_val_bytes 2 (zlen meta) ltac:(simpl; lia)) as Hv.
  pose proof (length_le_bytes 2 (zlen meta)) as Hln.
  destruct (le_bytes 2 (zlen meta)) as [|b0 [|b1 [|]]]; try done.
  rewrite !Forall_cons_iff in Hb. destruct Hb as (Hb0 & Hb1 & _).
  do 2 (apply wp_bind; eapply wp_lift; [reflexivity|]; cbn beta).
  cbv zeta. rewrite le_val_2, Hv by done. apply wp_bind, mv_printf. intros s2 [H2 Hw2].
  replace ((zlen meta =? 0) || (128 <=? zlen meta)) with false by (symmetry; lia).
  assert (length lm = length meta) as Hlmm by (rewrite <- Hlm; symmetry; apply length_map).
  replace (Z.to_nat (zlen meta)) with (length lm) by lia.
  apply wp_bind, (mv_read_loop _ _ _ _ _ lm []); rewrite ?app_nil_r, ?Hw2, ?Hw1;
    [done|done|by rewrite Hlm|unfold SIZE_POLLS; lia|done|done|rewrite length_replicate; lia|done|].
  intros s3 c3 Hby3 _ [H3 Hw3]. rewrite Hlm, take_0, Nat.add_0_l, drop_replicate. cbv zeta iota.
  simpl app. set (b := meta ++ _). apply wp_bind.
  change (wp (printf (Meta (c_string b));; mret (Some (zlen meta))) Q U (snd (set_meta_buf b s3))).
  apply wp_bind, mv_printf. intros s4 [H4 Hw4]. apply wp_ret.
  pose proof (uart_op_trans _ _ _ _ _ (uart_op_trans _ _ _ _ _ H1 H2) H3) as H13.
  pose proof (cam_ok_uart _ _ _ Hok H13) as Hok3. apply (HQ s4 c3).
  - eapply cam_ok_uart; [|exact H4]. destruct Hok3. by constructor.
  - rewrite (uo_spi _ _ _ H4). simpl. apply H13.
  - exact (read_by_app _ _ _ _ _ _ l2 lm eq_refl Hby Hby3).
  - rewrite Hw4. simpl. rewrite Hw3. by destruct (world s).
  - rewrite (uo_meta _ _ _ H4). simpl. unfold b. do 2 f_equal. lia.
Qed.
End rules.

(** ** The transfer *)

Section transfer.
Context (sent : list Z).
Hypothesis Hsent : Forall is_byte sent.
Implicit Types (s : cam openmv).

(** What was received over SPI and what the line still carries is what is sent,
    followed by zeros. *)
Definition in_step s : Prop :=
  exists z, spi_log s ++ line (world s) = sent ++ replicate z 0.

Definition keeps {A} (m : M openmv A) : Prop :=
  forall s, in_step s -> wp m (fun _ => in_step) (fun _ => True) s.

Lemma keeps_bind {A B} (m : M openmv A) (f : A -> M openmv B) :
  keeps m -> (forall x, keeps (f x)) -> keeps (m ≫= f).
Proof.
  intros Hm Hf s Hs. apply wp_bind. eapply wp_mono; [by apply Hm|]. intros x s' Hs'. by apply Hf.
Qed.

(** Anything that touches neither the log nor the line. *)
Lemma keeps_frame {A} (m : M openmv A) :
  (forall s, spi_log (snd (m s)) = spi_log s /\ line (world (snd (m s))) = line (world s)) ->
  keeps m.
Proof.
  intros H s [z Hz]. specialize (H s). unfold wp. destruct (m s) as [[x|] s']; [|done].
  destruct H as [H1 H2]. exists z. simpl in H1, H2. by rewrite H1, H2.
Qed.

Lemma in_step_bytes s : in_step s -> Forall is_byte (line (world s)).
Proof.
  intros [z Hz]. assert (Forall is_byte (spi_log s ++ line (world s))) as H.
  { rewrite Hz. apply Forall_app. split; [done|]. apply Forall_replicate. unfold is_byte. lia. }
  by apply Forall_app in H as [_ H].
Qed.

Lemma map_u8_bytes l : Forall is_byte l -> u8 <$> l = l.
Proof.
  induction 1 as [|x l Hx _ IH]; [done|]. cbn [fmap list_fmap]. unfold is_byte in Hx.
  rewrite u8_small by lia. by f_equal.
Qed.

(** An exchange moves bytes from the camera to the log. *)
Lemma in_step_exchange tx s :
  in_step s ->
  exists z, (spi_log s ++ fst (openmv_exchange tx (world s))) ++
            line (snd (openmv_exchange tx (world s))) = sent ++ replicate z 0.
Proof.
  intros Hs. pose proof (in_step_bytes s Hs) as Hb. destruct Hs as [z Hz].
  exists (z + (length tx - length (line (world s))))%nat. unfold openmv_exchange. simpl.
  rewrite map_u8_bytes.
  2:{ apply Forall_take, Forall_app. split; [done|]. apply Forall_replicate. unfold is_byte. lia. }
  rewrite <- app_assoc.
  assert (take (length tx) (line (world s) ++ replicate (length tx) 0) ++
          drop (length tx) (line (world s)) =
          line (world s) ++ replicate (length tx - length (line (world s))) 0) as ->.
  { destruct (decide (length tx <= length (line (world s)))%nat) as [Hle|Hgt].
    - rewrite take_app_le, take_drop by lia.
      replace (length tx - _)%nat with 0%nat by lia. simpl. by rewrite app_nil_r.
    - rewrite (drop_ge (line _)), app_nil_r by lia. rewrite take_app_ge by lia.
      rewrite take_replicate. do 2 f_equal. lia. }
  rewrite app_assoc, Hz, <- app_assoc. f_equal. by rewrite replicate_add.
Qed.

Lemma keeps_exchange n : keeps (spi_exchange n).
Proof.
  intros s Hs. unfold wp, spi_exchange, get, lift, mbind, M_bind.
  destruct (loads (spi_tx s) 0 n) as [tx|]; [|done].
  pose proof (in_step_exchange tx s Hs) as Hx. unfold with_world. cbn [e_exchange openmv_env].
  destruct (openmv_exchange tx (world s)) as [rx w]. cbn [fst snd spi_rx] in *.
  destruct (stores (spi_rx s) 0 rx) as [b|]; [|done]. exact Hx.
Qed.

Ltac keep :=
  repeat match goal with
  | |- keeps (_ ≫= _) => apply keeps_bind; [|intros ?]
  | |- keeps (spi_exchange _) => apply keeps_exchange
  | H : context [keeps] |- keeps (spi_sync_loop _ _) => apply H
  | H : context [keeps] |- keeps (spi_data_loop _ _ _) => apply H
  | |- keeps (if ?b then _ else _) => destruct b
  | |- keeps _ => apply keeps_frame; done
  end.

Lemma keeps_sync fuel n : keeps (spi_sync_loop fuel n).
Proof. revert n. induction fuel as [|fuel IH]; intros n; cbn [spi_sync_loop]; unfold spi_block; keep. Qed.

Lemma keeps_data fuel n off : keeps (spi_data_loop fuel n off).
Proof.
  revert n off. induction fuel as [|fuel IH]; intros n off; cbn [spi_data_loop]; unfold spi_block; keep.
Qed.

(** What the line carries when the camera is selected at the time [t]. *)
Definition line_at (w : openmv) (t : Z) : list Z :=
  match spi_from w with
  | Some f => if f <=? t then shifted w else noise w
  | None => noise w
  end.

Lemma wp_step {A B} (m : M openmv A) (f : A -> M openmv B) x Q U s s' :
  m s = (Some x, s') -> wp (f x) Q U s' -> wp (m ≫= f) Q U s.
Proof. intros E H. apply wp_bind. unfold wp at 1. by rewrite E. Qed.

Lemma read_image_in_step n s :
  spi_log s = [] -> line_at (world s) (clock (world s)) = sent ->
  wp (spi_read_image n) (fun _ => in_step) (fun _ => True) s.
Proof.
  intros Hl Hs. unfold spi_read_image. do 6 (eapply wp_step; [reflexivity|]).
  pose proof keeps_sync as Hks. pose proof keeps_data as Hkd.
  match goal with |- wp ?k _ _ _ => assert (keeps k) as Hk by keep end.
  apply Hk. exists 0%nat. cbn -[in_send_recv]. rewrite Hl, app_nil_r, <- Hs.
  unfold line_at, in_send_recv. cbn. destruct (spi_from (world s)) as [f|]; [|done].
  by rewrite !andb_true_r.
Qed.

Lemma wp_and {A} (m : M openmv A) (Q Q' : A -> cam openmv -> Prop) U s :
  wp m Q U s -> wp m Q' (fun _ => True) s -> wp m (fun x s' => Q x s' /\ Q' x s') U s.
Proof. unfold wp. destruct (m s) as [[x|] s']; done. Qed.
End transfer.

(** What arrives in [image_buf] is what the line carries after the 1024
    synchronisation bytes. *)
Lemma mv_transfer sync img pad (Q : unit -> cam openmv -> Prop) U s :
  cam_ok s -> spi_log s = [] ->
  line_at (world s) (clock (world s) + SPI_CS_DELAY_US +
                     late (world s) (clock (world s)) SPI_CS_DELAY_US) = sync ++ img ++ pad ->
  Forall is_byte (sync ++ img ++ pad) -> zlen sync = SPI_SYNC_BYTES -> 0 < zlen img <= IMG_BUF_SIZE ->
  (forall s', cam_ok s' -> meta_buf s' = meta_buf s ->
     take (length img) (image_buf s') = img -> Q tt s') ->
  wp (transfer (zlen img)) Q U s.
Proof.
  intros Hok Hlog Hsh Hb Hsync Hn HQ. set (sent := sync ++ img ++ pad) in *.
  eapply (wp_mono _ (fun r s' => (exists sy im, zlen sy = SPI_SYNC_BYTES /\ zlen im = zlen img /\
    cam_ok s' /\ meta_buf s' = meta_buf s /\ spi_log s' = sy ++ im /\
    take (Z.to_nat (zlen img)) (image_buf s') = im) /\ in_step sent s')).
  { apply wp_and.
    - apply wp_transfer; [done|done|]. intros sy im s' Hsy Him Hok' _ Hm Hl Ht _.
      exists sy, im. rewrite Hlog in Hl. done.
    - pose proof (ok_image _ Hok) as Hi. unfold transfer.
      do 4 (eapply wp_step; [reflexivity|]). eapply wp_step.
      { unfold lift. cbn [image_buf]. rewrite stores_in_range by (rewrite ?length_replicate; lia).
        reflexivity. }
      eapply wp_step; [reflexivity|]. apply wp_bind.
      eapply wp_mono; [apply (read_image_in_step sent Hb); [exact Hlog|exact Hsh]|].
      intros r s' Hs'. by apply wp_ret. }
  intros [] s' [(sy & im & Hsy & Him & Hok' & Hm & Hl & Ht) [z Hz]].
  apply HQ; [done|done|]. rewrite Nat2Z.id in Ht. rewrite Ht. rewrite Hl in Hz.
  unfold sent in Hz. rewrite <- !app_assoc in Hz.
  apply app_inj_1 in Hz as [_ Hz]; [|lia].
  by apply app_inj_1 in Hz as [Hz _]; [|lia].
Qed.

(** ** The whole program *)

(** A camera that has sent nothing yet and answers over the UART as the protocol
    says and within the timeouts, announcing an image of [n] bytes and the
    metadata [meta]: the handshake is answered within 4.9 s, the capture command
    within 2.99 s, and the bytes of the reply follow each other within 490 ms.
    Sleeps of the program are never too short. *)
Record answers_uart (w : openmv) (n : Z) (meta : list Z) : Prop := {
  an_idle : queue w = [];
  an_late : punctual w;
  an_ack : ack_delay w <= 4900000;
  an_reply : exists d l4 l2 lm,
    reply w = (d, ACK_BYTE) :: l4 ++ l2 ++ lm /\ d <= 2990000 /\
    on_time 490000 d (l4 ++ l2 ++ lm) /\
    map snd l4 = le_bytes 4 n /\ map snd l2 = le_bytes 2 (zlen meta) /\ map snd lm = meta;
  an_size : 1 < n <= 40000;
  an_meta : Forall is_byte meta /\ 0 < zlen meta < 128
}.

(** A camera that follows the protocol: it is in [spi.send_recv] 25 ms after its
    last byte over the UART, or later by what a sleep of 25 ms takes longer, and
    shifts out 1024 zeros, the image and some padding. *)
Record follows_protocol (w : openmv) (img meta : list Z) : Prop := {
  fp_uart : answers_uart w (zlen img) meta;
  fp_img : Forall is_byte img;
  fp_spi : exists pad, shifted w = replicate 1024 0 ++ img ++ pad /\ Forall is_byte pad;
  fp_window : forall l d b t, reply w = l ++ [(d, b)] ->
    spi_delay w <= d + 25000 + late w t 25000
}.

(** When the program has the last byte of the reply to a capture command it
    sends now. *)
Definition reply_read (w : openmv) (c : Z) : Prop :=
  match reply w with
  | [] => False
  | (d, _) :: r => exists c1, polled w ACK_POLL_US (clock w) (clock w + d) c1 /\
                     read_by w SIZE_POLL_US c1 (delayed (clock w) r) c
  end.

Lemma reply_read_all w c :
  reply_read w c -> Forall (fun db => clock w + fst db <= c) (reply w).
Proof.
  unfold reply_read. destruct (reply w) as [|[d b] r]; [done|].
  intros (c1 & (_ & H1 & _) & H2 & H3 & _). constructor; [simpl; lia|].
  unfold all_by, delayed in H3. rewrite List.Forall_map in H3.
  eapply Forall_impl; [|exact H3]. by intros [].
Qed.

(** When sleeps are exact and the bytes of the reply all come between poll
    number [k - 1] and poll number [k], the program reads them at the latter. *)
Lemma reply_read_exact w c k :
  (forall t d, late w t d = 0) -> 0 <= k ->
  Forall (fun db => (k - 1) * 10000 < fst db <= k * 10000) (reply w) ->
  reply_read w c -> c = clock w + k * 10000.
Proof.
  unfold reply_read. intros Hz Hk Hr. destruct (reply w) as [|[d b] r]; [done|].
  inversion_clear Hr as [|? ? Hd Hr']. simpl in Hd.
  intros (c1 & (_ & H1 & Hp) & _ & _ & H3). change ACK_POLL_US with 10000 in Hp.
  destruct (Hp (fun a => Hz a _)) as (j & Hj & E & He).
  assert (c1 = clock w + k * 10000) as Ec by (destruct He; lia).
  rewrite <- Ec. apply H3; [intros a; apply Hz|]. unfold all_by, delayed.
  rewrite List.Forall_map. eapply Forall_impl; [|exact Hr']. intros [d2 b2] [_ H2]. simpl in *. lia.
Qed.

Section serve.
Implicit Types (s : cam openmv).

Lemma mv_configure (Q : unit -> cam openmv -> Prop) U s :
  (forall s' t, at_115200_8n1 t = true -> moved s s' [] (set_uart t (world s)) -> Q tt s') ->
  wp uart_configure Q U s.
Proof.
  intros H. unfold uart_configure. apply wp_bind, mv_world. intros s1 [H1 Hw1]. cbv zeta.
  pose proof (e_tcgetattr_cc (world s)) as Hcc. unfold NCCS in Hcc.
  cbn [e_tcgetattr openmv_env fst snd] in *.
  cbn [c_cc c_speed cfsetspeed baud_loop g_baud_table Z.eqb B115200 Pos.eqb].
  apply wp_bind. eapply wp_lift; [apply store_in_range; unfold VMIN; lia|].
  cbn beta. apply wp_bind.
  eapply wp_lift; [apply store_in_range; rewrite length_insert; unfold VTIME; lia|].
  cbn beta. apply wp_bind, mv_do_world. intros s2 [H2 Hw2]. apply mv_printf. intros s3 [H3 Hw3].
  eapply H; [|split; [exact (uart_op_trans _ _ _ _ _ (uart_op_trans _ _ _ _ _ H1 H2) H3)|]].
  2: by rewrite Hw3, Hw2, Hw1. done.
Qed.

(** What the camera task returns and pushes. *)
Definition served (cs : list rb_call) (img meta : list Z) (r : Z * list rb_call) : Prop :=
  exists mc dcs, r = (0, cs ++ (RbPush <$> (mc :: dcs))) /\ meta_frame meta mc /\ image_frame img dcs.

Lemma mv_capture sync img pad meta s :
  answers_uart (world s) (zlen img) meta -> at_115200_8n1 (uart (world s)) = true ->
  cam_ok s -> spi_log s = [] ->
  Forall is_byte (sync ++ img ++ pad) -> zlen sync = SPI_SYNC_BYTES ->
  (forall c, reply_read (world s) c ->
     line_at (captured (world s) c [])
       (c + SPI_CS_DELAY_US + late (world s) c SPI_CS_DELAY_US) = sync ++ img ++ pad) ->
  wp capture (fun r _ => served [] img meta r) (fun _ => False) s.
Proof.
  intros [Hidle Hp Hack (d & l4 & l2 & lm & Hrep & Hd & Ht & H4 & H2 & Hm) Hi [Hbm Hml]]
    Hu Hok Hlog Hb Hsync Hline.
  unfold reply_read in Hline. rewrite Hrep in Hline.
  unfold capture. apply wp_bind, mv_printf. intros s1 [G1 W1].
  apply wp_bind, (mv_capture_command d (l4 ++ l2 ++ lm)); rewrite ?W1; [done|done|done|done|done|done|].
  set (w := world s) in *. set (c0 := clock w) in *.
  intros s2 c2 P2 T2 [G2 W2]. cbn [negb].
  unfold delayed in T2, W2. rewrite !map_app in T2, W2. fold (delayed c0) in T2, W2.
  apply wp_bind, (mv_read_size (delayed c0 l4) (delayed c0 l2 ++ delayed c0 lm) (zlen img));
    rewrite ?W2; [done|done|by rewrite delayed_bytes|unfold IMG_BUF_SIZE; lia|done|].
  intros s3 c3 B3 T3 [G3 W3].
  pose proof (uart_op_trans _ _ _ _ _ (uart_op_trans _ _ _ _ _ G1 G2) G3) as G13.
  apply wp_bind, (mv_read_meta (delayed c0 l2) (delayed c0 lm) meta); rewrite ?W3;
    [by eapply cam_ok_uart|done|done|by rewrite delayed_bytes|by rewrite delayed_bytes|done|done|done|].
  intros s4 c4 Hok4 Hl4 B4 W4 Hmb4. change (world s4 = captured w c4 []) in W4.
  pose proof (read_by_app w w _ _ _ _ _ _ eq_refl B3 B4) as B34.
  apply wp_bind, (mv_transfer sync img pad); rewrite ?W4; [done| | |done|done|unfold IMG_BUF_SIZE; lia|].
  { by rewrite Hl4, (uo_spi _ _ _ G13). }
  { apply Hline. exists c2. split; [exact P2|]. unfold delayed. rewrite !map_app. exact B34. }
  intros s5 Hok5 Hmb5 Him5.
  apply wp_bind, wp_check_markers; [done|unfold IMG_BUF_SIZE; lia| |lia]. intros _ s6 G6.
  apply wp_bind, (wp_meta_chunk meta); [done|by rewrite (uo_meta _ _ _ G6), Hmb5|].
  intros mc Hmc. apply wp_calling, wp_bind, wp_printf. intros s7 G7.
  apply wp_bind, wp_printf. intros s8 G8.
  pose proof (uart_op_trans _ _ _ _ _ (uart_op_trans _ _ _ _ _ G6 G7) G8) as G68.
  apply wp_bind, wp_get, wp_bind. rewrite (uo_image _ _ _ G68).
  destruct (data_chunks_spec (image_buf s5) (zlen img) (ok_image _ Hok5)) as (dcs & E & _ & Hf);
    [unfold IMG_BUF_SIZE; lia|].
  eapply wp_lift; [exact E|]. apply wp_calling, wp_bind, wp_printf. intros s9 G9.
  apply wp_finish. intros s10 G10. cbn [fst snd]. rewrite app_nil_r.
  exists mc, dcs. rewrite Nat2Z.id, Him5 in Hf. done.
Qed.

(** The line carries [sent] when the camera is selected, whenever the capture
    command is sent. *)
Definition line_carries (w : openmv) (sent : list Z) : Prop :=
  forall t c0 c, let w' := set_queue c0 [] (set_uart t w) in
    reply_read w' c ->
    line_at (captured w' c []) (c + SPI_CS_DELAY_US + late w c SPI_CS_DELAY_US) = sent.

Lemma mv_main sync img pad meta w :
  answers_uart w (zlen img) meta -> Forall is_byte (sync ++ img ++ pad) ->
  zlen sync = SPI_SYNC_BYTES -> line_carries w (sync ++ img ++ pad) ->
  wp camera_MSN2_main (fun r _ => served [RbInit] img meta r) (fun _ => False) (boot w).
Proof.
  intros Ha Hb Hsync Hline. unfold camera_MSN2_main. apply wp_bind, mv_printf. intros s1 [G1 W1].
  apply wp_calling. eapply (wp_mono _ (fun r _ => served [] img meta r)).
  2: { intros [r cs] s' (mc & dcs & [= -> ->] & H). by exists mc, dcs. }
  apply wp_bind, mv_world. intros s2 [G2 W2]. cbn [e_open openmv_env fst snd] in *.
  rewrite W1 in W2. cbn [Z.ltb Z.compare].
  apply wp_bind, mv_configure. intros s3 t Ht [G3 W3]. rewrite W2 in W3.
  apply wp_bind, mv_flush; [rewrite W3; apply Ha|]. intros s4 [G4 W4]. rewrite W3 in W4.
  apply wp_bind, mv_world. intros s5 [G5 W5]. cbn [e_spibus openmv_env fst snd] in *.
  rewrite W4 in W5. cbn [negb]. apply wp_bind, mv_printf. intros s6 [G6 W6]. rewrite W5 in W6.
  apply wp_bind, mv_handshake; rewrite ?W6; [apply Ha|exact Ht|apply Ha|apply Ha|].
  intros s7 c [G7 W7]. cbn [Z.ltb Z.compare].
  pose proof (uart_op_trans _ _ _ _ _ (uart_op_trans _ _ _ _ _ (uart_op_trans _ _ _ _ _
    (uart_op_trans _ _ _ _ _ (uart_op_trans _ _ _ _ _ (uart_op_trans _ _ _ _ _ G1 G2) G3) G4) G5) G6) G7)
    as G17.
  apply (mv_capture sync img pad); rewrite ?W7;
    [|exact Ht|eapply cam_ok_uart; [apply boot_ok|exact G17]| |done|done|].
  - destruct Ha. by constructor.
  - by rewrite (uo_spi _ _ _ G17).
  - intros c' Hc'. exact (Hline t c c' Hc').
Qed.

Lemma main_pushes sync img pad meta w :
  answers_uart w (zlen img) meta -> Forall is_byte (sync ++ img ++ pad) ->
  zlen sync = SPI_SYNC_BYTES -> line_carries w (sync ++ img ++ pad) ->
  exists mc dcs s', camera_MSN2_main (boot w) = (Some (0, RbInit :: (RbPush <$> (mc :: dcs))), s') /\
    meta_frame meta mc /\ image_frame img dcs.
Proof.
  intros Ha Hb Hs Hl. pose proof (mv_main sync img pad meta w Ha Hb Hs Hl) as H. unfold wp in H.
  destruct (camera_MSN2_main (boot w)) as [[r|] s']; [|done].
  destruct H as (mc & dcs & -> & H). by exists mc, dcs, s'.
Qed.

Lemma main_serves img meta w :
  follows_protocol w img meta ->
  exists mc dcs s', camera_MSN2_main (boot w) = (Some (0, RbInit :: (RbPush <$> (mc :: dcs))), s') /\
    meta_frame meta mc /\ image_frame img dcs.
Proof.
  intros [Ha Hbi (pad & Hsh & Hbp) Hw]. apply (main_pushes (replicate 1024 0) img pad); [done| |done|].
  { rewrite !Forall_app. split; [|done]. apply Forall_replicate. unfold is_byte. lia. }
  intros t c0 c w' Hr. unfold line_at. simpl spi_from. rewrite <- Hsh.
  pose proof (reply_read_all w' c Hr) as Hall. simpl in Hall.
  destruct (an_reply _ _ _ Ha) as (d & l4 & l2 & lm & Hrep & _).
  destruct (exists_last (l := reply w)) as (l & [dl bl] & El); [by rewrite Hrep|].
  specialize (Hw l dl bl c El). rewrite El, Forall_app in Hall. destruct Hall as [_ Hall].
  inversion_clear Hall as [|? ? Hlast _]. unfold SPI_CS_DELAY_US. simpl in *.
  by replace (_ <=? _) with true by (symmetry; apply Z.leb_le; lia).
Qed.
End serve.

(** C2: The camera task serves every camera that follows the protocol: whatever
    the image of 2 to 40000 bytes, the metadata of 1 to 127 bytes and the timing
    of its answers (the handshake within 4.9 s, the capture command within
    2.99 s, the bytes of the reply within 490 ms of each other), and provided it
    is in [spi.send_recv] no later than 25 ms after its last byte, or than a
    sleep of 25 ms lasts if that is longer, the task calls [rb_init], pushes one
    chunk with the metadata and chunks whose payloads are the image, only the
    last one marked, and returns 0.  No signal interrupts its sleeps. *)
Theorem camera_serves_protocol (w : openmv) img meta :
  follows_protocol w img meta ->
  exists mc dcs s', camera_MSN2_main (boot w) = (Some (0, RbInit :: (RbPush <$> (mc :: dcs))), s') /\
    meta_frame meta mc /\ image_frame img dcs.
Proof. exact (main_serves img meta w). Qed.

(** The settings of the UART and of the bus before the program. *)
Definition default_termios : termios := mk_termios 0 0 CS8 0 (replicate NCCS 0) 9600.
Definition default_bus : spi_bus := mk_bus 3 16 1000000.

(** A kernel with a tick of 10 ms, the default of sched/Kconfig: a sleep ends at
    a tick, after the ticks asked for, rounded up, and the one that is running. *)
Definition tick_late (t d : Z) : Z := (t / 10000 + (d + 9999) / 10000 + 1) * 10000 - t - d.

(** A camera with an image of 300 bytes that takes its time and waits 30 ms
    between its last byte over the UART and [spi.send_recv], as in the README. *)
Definition slow_camera : openmv :=
  mk_openmv 0 default_termios default_bus [] None [] tick_late 1250000
    (imap (fun i b => (2500000 + 400000 * Z.of_nat i, b))
       ([ACK_BYTE] ++ le_bytes 4 300 ++ le_bytes 2 3 ++ [97; 98; 99]))
    (6100000 + 30000) (replicate 1024 0 ++ demo_image ++ replicate 212 0) [].

Lemma demo_image_bytes : Forall is_byte demo_image.
Proof.
  unfold demo_image. rewrite !Forall_app. unfold is_byte.
  split; [repeat constructor; lia|]. split; [apply Forall_replicate; lia|repeat constructor; lia].
Qed.

Lemma slow_camera_follows : follows_protocol slow_camera demo_image [97; 98; 99].
Proof.
  constructor; [constructor|apply demo_image_bytes| |].
  - done.
  - intros t d. simpl. unfold tick_late. zlia.
  - done.
  - exists 2500000, [(2900000, 44); (3300000, 1); (3700000, 0); (4100000, 0)],
      [(4500000, 3); (4900000, 0)], [(5300000, 97); (5700000, 98); (6100000, 99)].
    split; [done|]. split; [done|]. split; [vm_compute; repeat split; discriminate|done].
  - done.
  - split; [|done]. unfold is_byte. repeat constructor; lia.
  - exists (replicate 212 0). split; [done|]. apply Forall_replicate. unfold is_byte. lia.
  - intros l d b t E. apply (f_equal (@rev _)) in E. rewrite rev_app_distr in E.
    simpl in E. injection E as <- <- _. simpl. unfold tick_late. zlia.
Qed.

Lemma camera_serves_protocol_witness :
  exists mc dcs s', camera_MSN2_main (boot slow_camera) =
      (Some (0, RbInit :: (RbPush <$> (mc :: dcs))), s') /\
    meta_frame [97; 98; 99] mc /\ image_frame demo_image dcs.
Proof. exact (camera_serves_protocol slow_camera demo_image [97; 98; 99] slow_camera_follows). Defined.


(** A camera that answers 7 ms after the capture command, byte after byte at
    115200 baud, and waits 30 ms; the line is high until then. *)
Definition readme_camera : openmv :=
  mk_openmv 0 default_termios default_bus [] None [] (fun _ _ => 0) 2000
    (imap (fun i b => (7000 + 87 * Z.of_nat i, b))
       ([ACK_BYTE] ++ le_bytes 4 300 ++ le_bytes 2 3 ++ [97; 98; 99]))
    (7783 + 30000) (replicate 1024 0 ++ demo_image ++ replicate 212 0) (replicate 1324 255).

