(* ===== verification/Pipeline.v ===== *)
(** The whole application: camera task, ring buffer, subscriber task.

    Models apps/examples/camera_launcher/launcher.c and the composition of
    camera_MSN2.c ([rb_init], [rb_push]), ring_buffer.c and hello_main.c.  The
    two tasks alternate in any order, from the zeroed static variables on: the
    subscriber may read before the camera task has called [rb_init].  An
    operation on the ring buffer is one step, which Concurrent.v justifies, and
    so is [rb_init]: what it writes before it initialises the mutex are zeros
    over zeros.  The theorems are end to end: what the subscriber prints is the
    image the camera sent, in hexadecimal, and it prints all of it unless it was
    suspended in a read before [rb_init]. *)

From S2P Require Import Prelude.
From S2P Require Import Semaphore.
From S2P Require Import Mutex.
From S2P Require Import RingBuffer.
From S2P Require Import Camera.
From S2P Require Import Hello.
From S2P Require Import Protocol.
From stdpp Require Import gmap.
Local Open Scope Z_scope.

(** ** The launcher *)

Inductive task_entry := camera_MSN2_entry | hello_entry.

(** [task_create] returns the task id, or a negative number. *)
Definition task_creator := task_entry -> Z -> Z -> Z.

Inductive launcher_msg := Starting | CameraTaskFailed | HelloTaskFailed.

(** The result, the tasks started with their ids, and the messages. *)
Definition launcher_main (task_create : task_creator) :
    Z * list (task_entry * Z) * list launcher_msg :=
  let cam_pid := task_create camera_MSN2_entry 100 8192 in
  let hello_pid := task_create hello_entry 100 4096 in
  (0,
   (if cam_pid <? 0 then [] else [(camera_MSN2_entry, cam_pid)]) ++
   (if hello_pid <? 0 then [] else [(hello_entry, hello_pid)]),
   [Starting] ++ (if cam_pid <? 0 then [CameraTaskFailed] else []) ++
   (if hello_pid <? 0 then [HelloTaskFailed] else [])).

(** ** The two tasks *)

(** The calls the camera task still has to make, the ring buffer, the
    subscriber, and whether it is suspended inside [rb_read]. *)
Record pipe := mk_pipe {
  p_todo : list rb_call;
  p_rb : rb_state ksem;
  p_hello : hello_s;
  p_susp : bool
}.

Section pipeline.
(** The ids of the camera task and of the subscriber. *)
Context (tc th : Z).

(** [rb_init], or one round of [while (rb_write(c) != 0) usleep(500);]. *)
Definition push_step (p : pipe) : option pipe :=
  match p_todo p with
  | [] => None
  | RbInit :: rest =>
      Some (mk_pipe rest (rb_init nxmutex_init (p_rb p)) (p_hello p) (p_susp p))
  | RbPush c :: rest =>
      match rb_write tc (Some c) (p_rb p) with
      | Some (Done r, rb) =>
          Some (mk_pipe (if r =? 0 then rest else RbPush c :: rest) rb (p_hello p) (p_susp p))
      | _ => None
      end
  end.

(** One round of the loop of [hello_main], or the part of it up to the
    suspension in [nxmutex_lock], or the part after it, which the scheduler runs
    when the task no longer waits. *)
Definition hello_round (p : pipe) : option pipe :=
  if done (p_hello p) then None
  else if p_susp p then
    if lk_blocked th (g_rb_lock (p_rb p)) then None
    else '(r, rb) ← locked_resume th rb_read_body (p_rb p);
         h ← hello_step r (p_hello p); Some (mk_pipe (p_todo p) rb h false)
  else match rb_read th true (p_rb p) with
       | Some (Done r, rb) =>
           h ← hello_step r (p_hello p); Some (mk_pipe (p_todo p) rb h false)
       | Some (Suspended, rb) => Some (mk_pipe (p_todo p) rb (p_hello p) true)
       | None => None
       end.

Inductive pstep : pipe -> pipe -> Prop :=
| ps_push p p' : push_step p = Some p' -> pstep p p'
| ps_hello p p' : hello_round p = Some p' -> pstep p p'.

Definition hello_start : hello_s := mk_hello [] false.

(** The static variables as the program is loaded. *)
Definition zeroed (rb : rb_state ksem) : Prop :=
  g_rb rb = mk_rb (replicate (Z.to_nat RB_DEPTH) zero_chunk) 0 0 0 /\
  sem (g_rb_lock rb) = mk_sem 0 0 [].

(** The two tasks before their first step: the camera task makes [calls], the
    first of them [rb_init].  The ring buffer is in the zeroed static
    variables, or, whatever it was before, the camera task has called [rb_init]
    already. *)
Inductive pipe_start : list rb_call -> pipe -> Prop :=
| start_boot cs rb :
    zeroed rb -> tc <> th -> lk_run tc (g_rb_lock rb) -> lk_run th (g_rb_lock rb) ->
    pipe_start (RbInit :: cs) (mk_pipe (RbInit :: cs) rb hello_start false)
| start_first cs rb : lk_run tc (g_rb_lock rb) -> lk_run th (g_rb_lock rb) ->
    pipe_start (RbInit :: cs) (mk_pipe cs (rb_init nxmutex_init rb) hello_start false).

(** What was read, what is queued and what is still to push make up the frame;
    the subscriber has printed what was read. *)
Record pinv (cs : list image_chunk_s) (p : pipe) (rd q rest : list image_chunk_s) : Prop := {
  pi_todo : p_todo p = RbPush <$> rest;
  pi_split : cs = rd ++ q ++ rest;
  pi_free : rb_free (p_rb p) q;
  pi_cam : lk_run tc (g_rb_lock (p_rb p));
  pi_hel : lk_run th (g_rb_lock (p_rb p));
  pi_out : out (p_hello p) = concat (map chunk_text rd);
  pi_done : done (p_hello p) = existsb (fun c => (is_meta c =? 0) && negb (is_last c =? 0)) rd;
  pi_susp : p_susp p = false
}.

(** Before [rb_init] the subscriber has printed nothing. *)
Record pinit (cs : list image_chunk_s) (p : pipe) : Prop := {
  pn_todo : p_todo p = RbInit :: (RbPush <$> cs);
  pn_rb : zeroed (p_rb p);
  pn_ids : tc <> th;
  pn_cam : lk_run tc (g_rb_lock (p_rb p));
  pn_hel : lk_run th (g_rb_lock (p_rb p));
  pn_hello : p_hello p = hello_start;
  pn_susp : p_susp p = false
}.

(** The subscriber waits on a lock that [rb_init] has taken it off, or is about
    to. *)
Record plost (cs : list image_chunk_s) (p : pipe) (q rest : list image_chunk_s) : Prop := {
  pl_todo : p_todo p = RbInit :: (RbPush <$> cs) \/
            p_todo p = RbPush <$> rest /\ rb_free (p_rb p) q;
  pl_cam : lk_run tc (g_rb_lock (p_rb p));
  pl_hel : lk_blocked th (g_rb_lock (p_rb p)) = true;
  pl_hello : p_hello p = hello_start;
  pl_susp : p_susp p = true
}.

Definition good_chunk (c : image_chunk_s) : Prop :=
  zlen (data c) = CHUNK_SIZE /\ 0 < len c <= CHUNK_SIZE.

(** *** Steps after [rb_init] *)

(** A push stores the chunk or finds the buffer full. *)
Lemma push_step_inv cs p rd q c rest :
  pinv cs p rd q (c :: rest) ->
  exists p', push_step p = Some p' /\
    (zlen q < RB_DEPTH -> pinv cs p' rd (q ++ [c]) rest) /\
    (RB_DEPTH <= zlen q -> pinv cs p' rd q (c :: rest)).
Proof.
  intros [Ht Hs Hf Hc Hh Ho Hd Hp]. unfold push_step. rewrite Ht. cbn [fmap list_fmap].
  destruct (rb_exec_refines tc (OpWrite (Some c)) _ q Hf Hc) as (rb & E & Hf' & Hu).
  unfold rb_exec, no_out in E. destruct (rb_write tc (Some c) (p_rb p)) as [[r rb']|]; [|done].
  simpl in E. cbn [q_exec] in Hf'. unfold q_write in *. destruct r as [r|]; [|by destruct (RB_DEPTH <=? zlen q)].
  eexists. split; [done|].
  destruct (Z.leb_spec RB_DEPTH (zlen q)); injection E as -> ->; simpl in *.
  - split; [lia|]. intros _. constructor; simpl; auto.
  - split; [|lia]. intros _. constructor; simpl; auto. by rewrite Hs, <- app_assoc.
Qed.

(** A round of the subscriber takes the oldest chunk or finds none. *)
Lemma hello_round_inv cs p rd q rest :
  Forall good_chunk cs -> pinv cs p rd q rest -> done (p_hello p) = false ->
  exists p', hello_round p = Some p' /\
    match q with
    | [] => pinv cs p' rd [] rest
    | c :: q => pinv cs p' (rd ++ [c]) q rest
    end.
Proof.
  intros Hg [Ht Hs Hf Hc Hh Ho Hd Hp] Hdn. unfold hello_round. rewrite Hdn, Hp.
  destruct (rb_exec_refines th (OpRead true) _ q Hf Hh) as (rb & E & Hf' & Hu).
  unfold rb_exec in E. rewrite E. destruct q as [|c q]; simpl in *.
  - eexists. split; [done|]. by constructor; simpl; auto.
  - assert (good_chunk c) as [Hg1 Hg2].
    { rewrite Forall_forall in Hg. apply Hg. rewrite Hs. set_solver. }
    rewrite hello_chunk_spec by done. simpl.
    eexists. split; [done|]. constructor; simpl; auto.
    + by rewrite <- app_assoc.
    + rewrite Ho, map_app, concat_app. simpl. by rewrite app_nil_r.
    + rewrite Hd, existsb_app. simpl. by rewrite orb_false_r.
Qed.

Definition running (cs : list image_chunk_s) (p : pipe) : Prop := exists rd q rest, pinv cs p rd q rest.

Lemma running_step cs p p' :
  Forall good_chunk cs -> running cs p -> pstep p p' -> running cs p'.
Proof.
  intros Hg (rd & q & rest & H) Hst. destruct Hst as [p1 p2 E|p1 p2 E].
  - destruct rest as [|c rest].
    { unfold push_step in E. by rewrite (pi_todo _ _ _ _ _ H) in E. }
    destruct (push_step_inv cs p1 rd q c rest H) as (p3 & E3 & H1 & H2).
    rewrite E in E3. injection E3 as <-. unfold running.
    destruct (Z.lt_ge_cases (zlen q) RB_DEPTH) as [Hl|Hl]; eauto.
  - destruct (done (p_hello p1)) eqn:Hd; [unfold hello_round in E; by rewrite Hd in E|].
    destruct (hello_round_inv cs p1 rd q rest Hg H Hd) as (p3 & E3 & H3).
    rewrite E in E3. injection E3 as <-. unfold running. destruct q; eauto.
Qed.

(** *** Steps before [rb_init], and of a subscriber that came too early *)

Lemma lk_run_init t (rb : rb_state ksem) :
  lk_run t (g_rb_lock rb) -> lk_run t (g_rb_lock (rb_init nxmutex_init rb)).
Proof. done. Qed.

Lemma rb_init_free rb : rb_free (rb_init nxmutex_init rb) [].
Proof. split; [exact rb_init_abs|apply nxmutex_init_rep]. Qed.

Lemma init_push cs p :
  pinit cs p -> exists p', push_step p = Some p' /\ pinv cs p' [] [] cs.
Proof.
  intros [Ht _ _ Hc Hh Ho Hp]. unfold push_step. rewrite Ht. eexists. split; [done|].
  constructor; simpl; try done; try (by rewrite Ho); [apply rb_init_free|..]; by apply lk_run_init.
Qed.

(** A read of the zeroed lock is suspended; the other task goes on. *)
Lemma read_zeroed rb :
  zeroed rb -> tc <> th -> lk_run tc (g_rb_lock rb) -> lk_run th (g_rb_lock rb) ->
  exists rb', rb_read th true rb = Some (Suspended, rb') /\
    lk_run tc (g_rb_lock rb') /\ lk_blocked th (g_rb_lock rb') = true.
Proof.
  intros [_ Hs] Hne [(Hu & bu & Hbu & Hru) Hrun] [(Ht & b & Hb & Hsig & He) _].
  set (k := set_val (-1) (g_rb_lock rb)).
  exists (mk_state (g_rb rb) (set_waitlist [th] (upd_task th tcb_block k))). split; [|split; [split|]].
  - unfold rb_read, locked. simpl lk_lock. unfold nxmutex_lock, nxsem_wait, nxsem_wait_slow.
    unfold sig_pending. rewrite Hb, Hsig. unfold k, set_waitlist, set_val, upd_task.
    simpl. by rewrite Hs.
  - split; [done|]. exists bu. split; [|done]. simpl. by rewrite lookup_alter_ne by congruence.
  - exact (eq_trans (blocked_upd_ne k th tcb_block tc Hne) Hrun).
  - simpl. unfold mutex_blocked. simpl. by rewrite lookup_alter_eq, Hb.
Qed.

Definition lost (cs : list image_chunk_s) (p : pipe) : Prop := exists q rest, plost cs p q rest.

Lemma lost_step cs p p' : lost cs p -> pstep p p' -> lost cs p'.
Proof.
  intros (q & rest & [Ht Hc Hh Ho Hp]) Hst. destruct Hst as [p1 p2 E|p1 p2 E].
  - unfold push_step in E. destruct Ht as [Ht|[Ht Hf]]; rewrite Ht in E.
    { injection E as <-. exists [], cs. constructor; simpl; try done.
      right. split; [done|apply rb_init_free]. }
    destruct rest as [|c rest]; [done|]. cbn [fmap list_fmap] in E.
    destruct (rb_exec_refines tc (OpWrite (Some c)) _ q Hf Hc) as (rb & Ex & Hf' & Hu).
    pose proof (rb_exec_tasks _ _ _ _ _ (proj2 Hf) Ex) as Hts.
    unfold rb_exec, no_out in Ex. destruct (rb_write tc (Some c) (p_rb p1)) as [[[r|] rb']|]; [|done|done].
    injection Ex as _ ->. injection E as <-.
    exists (snd (q_exec (OpWrite (Some c)) q)), (if r =? 0 then rest else c :: rest).
    constructor; simpl; try done; [right; split; [by destruct (r =? 0)|done]|by apply Hu|].
    unfold mutex_blocked. rewrite Hts. exact Hh.
  - unfold hello_round in E. rewrite Ho, Hp, Hh in E. done.
Qed.

(** [boot] when the static variables were zeroed at the start. *)
Definition phase (boot : bool) (cs : list image_chunk_s) (p : pipe) : Prop :=
  (boot = true /\ pinit cs p) \/ running cs p \/ (boot = true /\ lost cs p).

Lemma phase_step boot cs p p' :
  Forall good_chunk cs -> phase boot cs p -> pstep p p' -> phase boot cs p'.
Proof.
  intros Hg [[Hb H]|[H|[Hb H]]] Hst.
  2: { right. left. by eapply running_step. }
  2: { right. right. split; [done|]. by eapply lost_step. }
  destruct Hst as [p1 p2 E|p1 p2 E].
  - destruct (init_push cs p1 H) as (p3 & E3 & H3). rewrite E in E3. injection E3 as <-.
    right. left. by exists [], [], cs.
  - destruct H as [Ht Hrb Hne Hc Hh Ho Hp]. unfold hello_round in E. rewrite Ho, Hp in E. simpl in E.
    destruct (read_zeroed _ Hrb Hne Hc Hh) as (rb & Er & Hc' & Hh').
    simpl in Er. rewrite Er in E. injection E as <-.
    right. right. split; [done|]. exists [], cs. constructor; simpl; auto.
Qed.

Lemma start_phase cs p :
  pipe_start (RbInit :: (RbPush <$> cs)) p ->
  exists boot, (boot = true -> zeroed (p_rb p)) /\ phase boot cs p.
Proof.
  intros H. inversion H; subst.
  - exists true. split; [done|]. left. split; [done|]. by constructor.
  - exists false. split; [done|]. right. left. exists [], [], cs.
    constructor; simpl; try done. apply rb_init_free.
Qed.

Lemma reach_phase boot cs p p' :
  Forall good_chunk cs -> phase boot cs p -> steps pstep p p' -> phase boot cs p'.
Proof.
  intros Hg H Hst.
  exact (steps_inv pstep (phase boot cs) (fun p1 p2 => phase_step boot cs p1 p2 Hg) p p' H Hst).
Qed.

(** The frame the camera task pushes: metadata, then the image. *)
Definition whole_frame (img meta : list Z) (cs : list image_chunk_s) : Prop :=
  exists mc dcs, cs = mc :: dcs /\ meta_frame meta mc /\ image_frame img dcs.

Lemma whole_frame_good img meta cs : whole_frame img meta cs -> Forall good_chunk cs.
Proof.
  intros (mc & dcs & -> & ((H1 & H2 & _) & _) & _ & Hf & _). constructor; [done|].
  eapply Forall_impl; [exact Hf|]. intros c [(? & ? & _) _]. done.
Qed.

Lemma whole_frame_text img meta cs :
  whole_frame img meta cs -> concat (map chunk_text cs) = hex img ++ [newline].
Proof.
  intros (mc & dcs & -> & (_ & _ & Hm & _) & Hf). simpl.
  unfold chunk_text at 1. rewrite Hm. simpl. by apply frame_text.
Qed.

(** The subscriber stops exactly when it has read the whole frame. *)
Lemma whole_frame_done img meta cs rd rest :
  whole_frame img meta cs -> cs = rd ++ rest ->
  existsb (fun c => (is_meta c =? 0) && negb (is_last c =? 0)) rd = true <-> rest = [].
Proof.
  intros (mc & dcs & -> & (_ & _ & Hm & _) & (_ & Hf & init & lst & -> & Hi & Hl)) E.
  apply Forall_app in Hf as [_ Hf]. apply Forall_cons_1 in Hf as [[_ Hlm] _].
  destruct (decide (rest = [])) as [->|Hne].
  - split; [done|]. intros _. rewrite app_nil_r in E. subst rd.
    rewrite (app_comm_cons init [lst] mc), existsb_app. simpl. rewrite Hlm, Hl. simpl.
    apply orb_true_r.
  - split; [|done]. intros He. exfalso.
    destruct (exists_last Hne) as (rest' & x & ->).
    rewrite app_comm_cons, app_assoc in E. apply app_inj_tail in E as [E ->].
    assert (Forall (fun c => (is_meta c =? 0) && negb (is_last c =? 0) = false) rd) as Hall.
    { apply (Forall_app _ rd rest'). rewrite <- E. constructor; [by rewrite Hm|].
      eapply Forall_impl; [exact Hi|]. intros c ->. apply andb_false_r. }
    apply existsb_exists in He as (c & Hin & Hc). apply list_elem_of_In in Hin.
    rewrite Forall_forall in Hall. by rewrite (Hall c Hin) in Hc.
Qed.

(** The calls that still have to be made and the chunks still to be read. *)
Definition p_left (p : pipe) : nat :=
  (2 * length (p_todo p) + Z.to_nat (count (g_rb (p_rb p))))%nat.

Lemma p_left_inv cs p rd q rest :
  pinv cs p rd q rest -> p_left p = (2 * length rest + length q)%nat.
Proof.
  intros H. unfold p_left. rewrite (pi_todo _ _ _ _ _ H), length_fmap.
  rewrite (abs_count _ _ (proj1 (pi_free _ _ _ _ _ H))). lia.
Qed.

Lemma running_progress cs p img meta :
  whole_frame img meta cs -> running cs p ->
  done (p_hello p) = true \/
  exists p', pstep p p' /\ running cs p' /\ (p_left p' < p_left p)%nat.
Proof.
  intros Hw (rd & q & rest & H). destruct (done (p_hello p)) eqn:Hd; [by left|right].
  destruct (hello_round_inv cs p rd q rest (whole_frame_good _ _ _ Hw) H Hd) as (p1 & E1 & H1).
  destruct q as [|c q].
  - destruct rest as [|c rest].
    + pose proof (pi_split _ _ _ _ _ H) as Hs.
      pose proof (pi_done _ _ _ _ _ H) as Hdn. rewrite Hd in Hdn. symmetry in Hdn.
      apply not_true_iff_false in Hdn. exfalso. apply Hdn.
      by apply (whole_frame_done img meta cs rd [] Hw).
    + destruct (push_step_inv cs p rd [] c rest H) as (p2 & E2 & H2 & _). specialize (H2 eq_refl).
      exists p2. split; [by apply ps_push|]. split; [by exists rd, [c], rest|].
      rewrite (p_left_inv _ _ _ _ _ H), (p_left_inv _ _ _ _ _ H2). simpl. lia.
  - exists p1. split; [by apply ps_hello|]. split; [by exists (rd ++ [c]), q, rest|].
    rewrite (p_left_inv _ _ _ _ _ H), (p_left_inv _ _ _ _ _ H1). simpl. lia.
Qed.

(** What is printed in a state of the pipeline. *)
Lemma frame_prefix boot cs p img meta :
  whole_frame img meta cs -> phase boot cs p ->
  out (p_hello p) `prefix_of` hex img ++ [newline].
Proof.
  intros Hw [[_ H]|[(rd & q & rest & H)|[_ (q & rest & H)]]].
  - rewrite (pn_hello _ _ H). apply prefix_nil.
  - rewrite (pi_out _ _ _ _ _ H), <- (whole_frame_text img meta cs Hw).
    rewrite (pi_split _ _ _ _ _ H), map_app, concat_app. by apply prefix_app_r.
  - rewrite (pl_hello _ _ _ _ H). apply prefix_nil.
Qed.

(** When the subscriber has stopped, it has printed everything. *)
Lemma frame_printed boot cs p img meta :
  whole_frame img meta cs -> phase boot cs p -> done (p_hello p) = true ->
  out (p_hello p) = hex img ++ [newline] /\ p_todo p = [].
Proof.
  intros Hw [[_ H]|[(rd & q & rest & H)|[_ (q & rest & H)]]] Hd.
  - by rewrite (pn_hello _ _ H) in Hd.
  - pose proof (pi_split _ _ _ _ _ H) as Hs. rewrite (pi_done _ _ _ _ _ H) in Hd.
    apply (whole_frame_done img meta cs rd _ Hw Hs) in Hd. rewrite Hd, app_nil_r in Hs.
    apply app_eq_nil in Hd as [_ Hr]. rewrite (pi_todo _ _ _ _ _ H), Hr. split; [|done].
    rewrite (pi_out _ _ _ _ _ H), <- Hs. by eapply whole_frame_text.
  - by rewrite (pl_hello _ _ _ _ H) in Hd.
Qed.

(** The tasks can go on until the subscriber has printed [text] and stopped. *)
Definition can_print (text : list Z) (p : pipe) : Prop :=
  exists p', steps pstep p p' /\ done (p_hello p') = true /\ out (p_hello p') = text.

(** Whatever the tasks do, the subscriber stays suspended and prints nothing. *)
Definition never_prints (p : pipe) : Prop :=
  forall p', steps pstep p p' ->
    p_susp p' = true /\ done (p_hello p') = false /\ out (p_hello p') = [].

Lemma running_prints cs p img meta :
  whole_frame img meta cs -> running cs p -> can_print (hex img ++ [newline]) p.
Proof.
  intros Hw H.
  destruct (steps_reach pstep (running cs) (fun p => done (p_hello p) = true) p_left) with (s := p)
    as (p' & Hst & H' & Hd); [|done|].
  { intros p1 H1. by eapply running_progress. }
  exists p'. split; [done|]. split; [done|].
  exact (proj1 (frame_printed false cs p' img meta Hw (or_intror (or_introl H')) Hd)).
Qed.

(** Both tasks from a state on, by whether the subscriber is suspended. *)
Lemma phase_fate boot cs p img meta :
  whole_frame img meta cs -> phase boot cs p ->
  (p_susp p = false -> can_print (hex img ++ [newline]) p) /\
  (p_susp p = true -> boot = true /\ never_prints p) /\
  (p_susp p = false -> RbInit ∉ p_todo p -> forall p', steps pstep p p' -> p_susp p' = false).
Proof.
  intros Hw [[_ H]|[H|[Hb H]]].
  - rewrite (pn_susp _ _ H). split; [|split; [done|]].
    + intros _. destruct (init_push cs p H) as (p1 & E & H1).
      destruct (running_prints cs p1 img meta Hw) as (p' & Hst & Hp); [by exists [], [], cs|].
      exists p'. split; [|done]. eapply steps_step; [by apply ps_push|exact Hst].
    + rewrite (pn_todo _ _ H). set_solver.
  - assert (forall p, running cs p -> p_susp p = false) as Hs
      by (intros ? (? & ? & ? & H'); apply H').
    rewrite (Hs _ H). split; [intros _; by eapply running_prints|]. split; [done|].
    intros _ _ p' Hst. apply Hs.
    exact (steps_inv pstep (running cs)
             (fun p1 p2 => running_step cs p1 p2 (whole_frame_good _ _ _ Hw)) p p' H Hst).
  - assert (forall p, lost cs p -> p_susp p = true /\ p_hello p = hello_start) as Hs
      by (intros ? (? & ? & H'); split; apply H').
    rewrite (proj1 (Hs _ H)). split; [done|]. split; [|done]. intros _. split; [done|].
    intros p' Hst.
    destruct (Hs p' (steps_inv pstep (lost cs) (lost_step cs) p p' H Hst)) as [-> ->]. done.
Qed.
End pipeline.

(** A run of the camera task that returned 0 has called [rb_init] and pushed a
    whole frame. *)
Lemma main_frame {W} `{!Env W} (s s' : cam W) calls :
  cam_ok s -> camera_MSN2_main s = (Some (0, calls), s') ->
  exists img meta cs, received s s' img meta /\ Forall is_byte img /\
    calls = RbInit :: (RbPush <$> cs) /\ whole_frame img meta cs.
Proof.
  intros Hok E. pose proof (wp_main s Hok) as H. unfold wp in H. rewrite E in H.
  destruct H as [H|(mc & dcs & img & meta & [= ->] & Hr & _ & Hb & _ & Hm & Hf & _)]; [done|].
  exists img, meta, (mc :: dcs). do 3 (split; [done|]). by exists mc, dcs.
Qed.

(** C3: End to end, safety: when the camera task has received an image and makes
    its calls to the ring buffer while the subscriber reads, in any interleaving
    from the zeroed static variables or from [rb_init] on, what the subscriber has
    printed is at every moment a prefix of the image received over SPI in
    hexadecimal, two digits a byte, followed by a newline; when the subscriber
    stops, it has printed all of it, all chunks were pushed, and the text read
    back is the image. *)
Theorem pipeline_prints_image {W} `{!Env W} (s s' : cam W) calls tc th p0 p :
  cam_ok s -> camera_MSN2_main s = (Some (0, calls), s') ->
  pipe_start tc th calls p0 -> steps (pstep tc th) p0 p ->
  exists img meta, received s s' img meta /\
    out (p_hello p) `prefix_of` hex img ++ [newline] /\
    (done (p_hello p) = true ->
     out (p_hello p) = hex img ++ [newline] /\ p_todo p = [] /\ unhex (hex img) = Some img).
Proof.
  intros Hok E Hp Hst. destruct (main_frame s s' calls Hok E) as (img & meta & cs & Hr & Hb & -> & Hw).
  exists img, meta. split; [done|]. destruct (start_phase tc th cs p0 Hp) as (boot & _ & H0).
  pose proof (reach_phase tc th boot cs p0 p (whole_frame_good _ _ _ Hw) H0 Hst) as H.
  split; [by eapply frame_prefix|]. intros Hd.
  destruct (frame_printed tc th boot cs p img meta Hw H Hd) as [Ho Ht].
  do 2 (split; [done|]). by apply unhex_hex.
Qed.

(** The two tasks on the board, before their first step. *)
Definition board_start (calls : list rb_call) : pipe := mk_pipe calls bss_state hello_start false.

Lemma board_starts cs : pipe_start 3 4 (RbInit :: cs) (board_start (RbInit :: cs)).
Proof.
  apply start_boot; [by split|done|exact (free_mutex_task 3 (or_introl eq_refl))|].
  exact (free_mutex_task 4 (or_intror eq_refl)).
Qed.

Lemma demo_main : exists cs s', camera_MSN2_main (boot demo) = (Some (0, RbInit :: cs), s').
Proof.
  pose proof demo_pushed as Hl.
  destruct (camera_MSN2_main (boot demo)) as [[[[|c|c] cs]|] s'] eqn:E; try discriminate Hl.
  destruct (main_frame (boot demo) s' cs (boot_ok demo) E) as (img & meta & cs' & _ & _ & -> & _).
  by exists (RbPush <$> cs'), s'.
Qed.

Lemma pipeline_prints_image_witness :
  exists cs s' img meta, camera_MSN2_main (boot demo) = (Some (0, RbInit :: cs), s') /\
    received (boot demo) s' img meta /\
    out (p_hello (board_start (RbInit :: cs))) `prefix_of` hex img ++ [newline].
Proof.
  destruct demo_main as (cs & s' & E). exists cs, s'.
  destruct (pipeline_prints_image (boot demo) s' (RbInit :: cs) 3 4 (board_start (RbInit :: cs)) _
              (boot_ok demo) E (board_starts cs) (steps_refl _ _))
    as (img & meta & Hr & Hp & _).
  exists img, meta. exact (conj E (conj Hr Hp)).
Defined.

(** C4: End to end, progress: in every state the two tasks reach, from the same
    starts, the subscriber is not suspended and they can go on until it has
    printed the whole image and stopped; or it is suspended, which happens only
    when it read the zeroed lock before the camera task called [rb_init], and
    then it stays suspended and prints nothing, whatever the tasks do.  Once the
    camera task has called [rb_init] and the subscriber is not suspended, it
    never is. *)
Theorem pipeline_completes {W} `{!Env W} (s s' : cam W) calls tc th p0 p :
  cam_ok s -> camera_MSN2_main s = (Some (0, calls), s') ->
  pipe_start tc th calls p0 -> steps (pstep tc th) p0 p ->
  exists img meta, received s s' img meta /\
    (p_susp p = false -> can_print tc th (hex img ++ [newline]) p) /\
    (p_susp p = true -> zeroed (p_rb p0) /\ never_prints tc th p) /\
    (p_susp p = false -> RbInit ∉ p_todo p ->
     forall p', steps (pstep tc th) p p' -> p_susp p' = false).
Proof.
  intros Hok E Hp Hst. destruct (main_frame s s' calls Hok E) as (img & meta & cs & Hr & Hb & -> & Hw).
  exists img, meta. split; [done|]. destruct (start_phase tc th cs p0 Hp) as (boot & Hz & H0).
  pose proof (reach_phase tc th boot cs p0 p (whole_frame_good _ _ _ Hw) H0 Hst) as H.
  destruct (phase_fate tc th boot cs p img meta Hw H) as (H1 & H2 & H3).
  split; [done|]. split; [|done]. intros Hs. destruct (H2 Hs) as [Hb2 Hn]. auto.
Qed.

Lemma pipeline_completes_witness :
  exists cs s' img meta, camera_MSN2_main (boot demo) = (Some (0, RbInit :: cs), s') /\
    received (boot demo) s' img meta /\
    can_print 3 4 (hex img ++ [newline]) (board_start (RbInit :: cs)).
Proof.
  destruct demo_main as (cs & s' & E). exists cs, s'.
  destruct (pipeline_completes (boot demo) s' (RbInit :: cs) 3 4 (board_start (RbInit :: cs)) _
              (boot_ok demo) E (board_starts cs) (steps_refl _ _))
    as (img & meta & Hr & Hp & _).
  exists img, meta. exact (conj E (conj Hr (Hp eq_refl))).
Defined.

(** C1: The whole system, for every camera that follows the protocol and is in
    [spi.send_recv] when it is selected: the camera task captures the image and
    returns 0, and in every interleaving of its calls with the subscriber, from
    the zeroed static variables on, the text printed so far is a prefix of the
    camera's image in hexadecimal followed by a newline, and it is the whole of
    it when the subscriber has stopped.  Unless the subscriber read the zeroed
    lock before [rb_init], the tasks can always go on until then; a subscriber
    that did stays suspended and prints nothing. *)
Theorem system_prints_camera_image (w : openmv) img meta tc th :
  follows_protocol w img meta ->
  exists calls s', camera_MSN2_main (boot w) = (Some (0, calls), s') /\
    forall p0 p, pipe_start tc th calls p0 -> steps (pstep tc th) p0 p ->
      out (p_hello p) `prefix_of` hex img ++ [newline] /\
      (done (p_hello p) = true -> out (p_hello p) = hex img ++ [newline]) /\
      (p_susp p = false -> can_print tc th (hex img ++ [newline]) p) /\
      (p_susp p = true -> zeroed (p_rb p0) /\ never_prints tc th p) /\
      (p_susp p = false -> RbInit ∉ p_todo p ->
       forall p', steps (pstep tc th) p p' -> p_susp p' = false).
Proof.
  intros Hp. destruct (main_serves img meta w Hp) as (mc & dcs & s' & E & Hm & Hf).
  eexists _, s'. split; [exact E|]. intros p0 p H0 Hst.
  assert (whole_frame img meta (mc :: dcs)) as Hw by (by exists mc, dcs).
  destruct (start_phase tc th _ p0 H0) as (boot & Hz & H0').
  pose proof (reach_phase tc th boot _ p0 p (whole_frame_good _ _ _ Hw) H0' Hst) as H.
  destruct (phase_fate tc th boot _ p img meta Hw H) as (H1 & H2 & H3).
  split; [by eapply frame_prefix|]. split; [intros Hd; by eapply frame_printed|].
  split; [done|]. split; [|done]. intros Hs. destruct (H2 Hs) as [Hb2 Hn]. auto.
Qed.

Lemma system_prints_camera_image_witness :
  exists calls s', camera_MSN2_main (boot slow_camera) = (Some (0, calls), s') /\
    forall p0 p, pipe_start 3 4 calls p0 -> steps (pstep 3 4) p0 p ->
      out (p_hello p) `prefix_of` hex demo_image ++ [newline] /\
      (done (p_hello p) = true -> out (p_hello p) = hex demo_image ++ [newline]) /\
      (p_susp p = false -> can_print 3 4 (hex demo_image ++ [newline]) p) /\
      (p_susp p = true -> zeroed (p_rb p0) /\ never_prints 3 4 p) /\
      (p_susp p = false -> RbInit ∉ p_todo p ->
       forall p', steps (pstep 3 4) p p' -> p_susp p' = false).
Proof.
  exact (system_prints_camera_image slow_camera demo_image [97; 98; 99] 3 4 slow_camera_follows).
Defined.

(** A subscriber that runs first: it is suspended, and prints nothing even after
    the camera task has called [rb_init]. *)
Example early_subscriber_lost :
  exists p, steps (pstep 3 4) (board_start [RbInit]) p /\
    p_susp p = true /\ p_todo p = [] /\ hello_round 4 p = None.
Proof.
  eexists. split; [|split; [|split]].
  - eapply steps_step; [apply ps_hello; reflexivity|].
    eapply steps_step; [apply ps_push; reflexivity|]. apply steps_refl.
  - reflexivity.
  - reflexivity.
  - vm_compute. reflexivity.
Qed.
