(* ===== verification/Poll.v ===== *)
(** Poll requests and their notification: [poll_notify] of fs/vfs/fs_poll.c,
    shared by the drivers that can be polled. *)

From S2P Require Import Prelude.
Local Open Scope Z_scope.

Definition POLLIN : Z := 0x01.
Definition POLLPRI : Z := 0x02.
Definition POLLOUT : Z := 0x04.
Definition POLLERR : Z := 0x08.
Definition POLLHUP : Z := 0x10.

Record pollfd := mk_pollfd { p_events : Z; p_revents : Z }.

(** What [poll_notify] does to one element of the array. *)
Definition poll_notify (eventset : Z) (f : option pollfd) : option pollfd :=
  if eventset =? 0 then f
  else match f with
       | None => None
       | Some f =>
           let r := Z.lor (p_revents f)
                      (Z.land eventset (Z.lor (p_events f) (Z.lor POLLERR POLLHUP))) in
           Some (mk_pollfd (p_events f)
                   (if Z.land r (Z.lor POLLERR POLLHUP) =? 0 then r else Z.ldiff r POLLOUT))
       end.
