(* ===== verification/Sensor.v ===== *)
(** The sensor upper half: the device behind every uORB topic.

    Models drivers/sensors/sensor.c over an arbitrary lower-half driver: the
    users of a topic, the data and timing buffers, subscription intervals and
    latencies, sampling, publishing, polling, ioctl and registration.  The
    operations of one task are modelled one after the other; in
    [sensor_update_interval] and [sensor_update_latency], which release the lock
    around the call of the driver, the list [win] says what other tasks do in
    each such window.  [None] is undefined behaviour.  [lock] is how often the
    calling task holds the recursive lock of the device. *)

From S2P Require Import Prelude.
From stdpp Require Import list sorting.
From S2P Require Import Circbuf Poll.
Local Open Scope Z_scope.

(** ** Constants *)

Definition TIMING_BUF_ESIZE : Z := 4.
Definition SENSOR_EVENT_FLUSH_COMPLETE : Z := 0x01.

Definition SENSOR_ROLE_NONE : Z := 0.
Definition SENSOR_ROLE_WR : Z := 1.
Definition SENSOR_ROLE_RD : Z := 2.
Definition SENSOR_ROLE_RDWR : Z := 3.

(** [ROUND_DOWN(x, y)] on 32-bit unsigned numbers. *)
Definition ROUND_DOWN (x y : Z) : Z := x / y * y.

(** ** Data *)

Record sensor_ustate_s := mk_ustate {
  u_esize : Z;
  u_latency : Z;
  u_interval : Z;
  u_nonwakeup : bool;
  u_generation : Z
}.

(** [buffersem] is the count of the semaphore; [fds] the poll waiting on the
    user. *)
Record sensor_user_s := mk_user {
  fds : option pollfd;
  role : Z;
  changed : bool;
  event : Z;
  flushing : bool;
  buffersem : Z;
  bufferpos : Z;
  ustate : sensor_ustate_s
}.

Record sensor_state_s := mk_state {
  esize : Z;
  s_nbuffer : Z;
  min_latency : Z;
  min_interval : Z;
  nsubscribers : Z;
  nadvertisers : Z;
  generation : Z;
  nonwakeup : bool;
  priv : Z
}.

(** The open flags and the user a file descriptor belongs to. *)
Record file := mk_file {
  f_rdok : bool;
  f_wrok : bool;
  f_nonblock : bool;
  f_direct : bool;
  f_persist : bool;
  f_remote : bool;
  f_priv : Z
}.

(** [userlist] holds the users in the order of the list, each with the name
    that stands for its address. *)
Record sensor_upperhalf_s := mk_upper {
  state : sensor_state_s;
  timing : circbuf_s;
  buffer : circbuf_s;
  lock : Z;
  userlist : list (Z * sensor_user_s)
}.

Section sensor.
(** The state of the lower-half driver. *)
Context {LS : Type}.

Record sensor_ops_s := mk_ops {
  op_open : option (LS -> Z * LS);
  op_close : option (LS -> Z * LS);
  op_activate : option (bool -> LS -> Z * LS);
  (** The result and the value stored through the pointer. *)
  op_set_interval : option (Z -> LS -> Z * Z * LS);
  op_batch : option (Z -> LS -> Z * Z * LS);
  op_fetch : option (Z -> LS -> Z * list Z * LS);
  op_flush : option (LS -> Z * LS);
  op_set_nonwakeup : option (bool -> LS -> LS);
  op_selftest : option (Z -> LS -> Z * LS);
  op_set_calibvalue : option (Z -> LS -> Z * LS);
  op_calibrate : option (Z -> LS -> Z * LS);
  op_get_info : option (LS -> Z * LS);
  op_control : option (Z -> Z -> LS -> Z * LS)
}.

(** The lower half, and the device both halves make up. *)
Record sensor_lowerhalf_s := mk_lower {
  nbuffer : Z;
  persist : bool;
  drv : LS
}.

Record dev := mk_dev { upper : sensor_upperhalf_s; lower : sensor_lowerhalf_s }.

Context (ops : sensor_ops_s).

(** ** Field updates *)

Definition set_state (f : sensor_state_s -> sensor_state_s) (d : dev) : dev :=
  let u := upper d in
  mk_dev (mk_upper (f (state u)) (timing u) (buffer u) (lock u) (userlist u)) (lower d).
Definition set_buffers (t b : circbuf_s) (d : dev) : dev :=
  let u := upper d in
  mk_dev (mk_upper (state u) t b (lock u) (userlist u)) (lower d).
Definition set_users (l : list (Z * sensor_user_s)) (d : dev) : dev :=
  let u := upper d in
  mk_dev (mk_upper (state u) (timing u) (buffer u) (lock u) l) (lower d).
(** [nxrmutex_lock(&upper->lock)] by a task that gets it, and its counterpart. *)
Definition upper_lock (d : dev) : dev :=
  let u := upper d in
  mk_dev (mk_upper (state u) (timing u) (buffer u) (lock u + 1) (userlist u)) (lower d).
Definition upper_unlock (d : dev) : dev :=
  let u := upper d in
  mk_dev (mk_upper (state u) (timing u) (buffer u) (lock u - 1) (userlist u)) (lower d).
Definition set_drv (x : LS) (d : dev) : dev :=
  mk_dev (upper d) (mk_lower (nbuffer (lower d)) (persist (lower d)) x).

Definition set_min_interval (x : Z) (s : sensor_state_s) : sensor_state_s :=
  mk_state (esize s) (s_nbuffer s) (min_latency s) x (nsubscribers s) (nadvertisers s)
    (generation s) (nonwakeup s) (priv s).
Definition set_min_latency (x : Z) (s : sensor_state_s) : sensor_state_s :=
  mk_state (esize s) (s_nbuffer s) x (min_interval s) (nsubscribers s) (nadvertisers s)
    (generation s) (nonwakeup s) (priv s).
Definition set_nsubscribers (x : Z) (s : sensor_state_s) : sensor_state_s :=
  mk_state (esize s) (s_nbuffer s) (min_latency s) (min_interval s) x (nadvertisers s)
    (generation s) (nonwakeup s) (priv s).
Definition set_nadvertisers (x : Z) (s : sensor_state_s) : sensor_state_s :=
  mk_state (esize s) (s_nbuffer s) (min_latency s) (min_interval s) (nsubscribers s) x
    (generation s) (nonwakeup s) (priv s).
Definition set_generation (x : Z) (s : sensor_state_s) : sensor_state_s :=
  mk_state (esize s) (s_nbuffer s) (min_latency s) (min_interval s) (nsubscribers s)
    (nadvertisers s) x (nonwakeup s) (priv s).
Definition set_nonwakeup (x : bool) (s : sensor_state_s) : sensor_state_s :=
  mk_state (esize s) (s_nbuffer s) (min_latency s) (min_interval s) (nsubscribers s)
    (nadvertisers s) (generation s) x (priv s).
Definition set_priv (x : Z) (s : sensor_state_s) : sensor_state_s :=
  mk_state (esize s) (s_nbuffer s) (min_latency s) (min_interval s) (nsubscribers s)
    (nadvertisers s) (generation s) (nonwakeup s) x.
Definition set_s_nbuffer (x : Z) (s : sensor_state_s) : sensor_state_s :=
  mk_state (esize s) x (min_latency s) (min_interval s) (nsubscribers s)
    (nadvertisers s) (generation s) (nonwakeup s) (priv s).

Definition set_fds (x : option pollfd) (u : sensor_user_s) : sensor_user_s :=
  mk_user x (role u) (changed u) (event u) (flushing u) (buffersem u) (bufferpos u) (ustate u).
Definition set_changed (x : bool) (u : sensor_user_s) : sensor_user_s :=
  mk_user (fds u) (role u) x (event u) (flushing u) (buffersem u) (bufferpos u) (ustate u).
Definition set_event (e : Z) (f : bool) (u : sensor_user_s) : sensor_user_s :=
  mk_user (fds u) (role u) (changed u) e f (buffersem u) (bufferpos u) (ustate u).
Definition set_buffersem (x : Z) (u : sensor_user_s) : sensor_user_s :=
  mk_user (fds u) (role u) (changed u) (event u) (flushing u) x (bufferpos u) (ustate u).
Definition set_bufferpos (x : Z) (u : sensor_user_s) : sensor_user_s :=
  mk_user (fds u) (role u) (changed u) (event u) (flushing u) (buffersem u) x (ustate u).
Definition set_ustate (x : sensor_ustate_s) (u : sensor_user_s) : sensor_user_s :=
  mk_user (fds u) (role u) (changed u) (event u) (flushing u) (buffersem u) (bufferpos u) x.
Definition set_u_interval (x : Z) (u : sensor_user_s) : sensor_user_s :=
  let s := ustate u in
  set_ustate (mk_ustate (u_esize s) (u_latency s) x (u_nonwakeup s) (u_generation s)) u.
Definition set_u_latency (x : Z) (u : sensor_user_s) : sensor_user_s :=
  let s := ustate u in
  set_ustate (mk_ustate (u_esize s) x (u_interval s) (u_nonwakeup s) (u_generation s)) u.
Definition set_u_nonwakeup (x : bool) (u : sensor_user_s) : sensor_user_s :=
  let s := ustate u in
  set_ustate (mk_ustate (u_esize s) (u_latency s) (u_interval s) x (u_generation s)) u.
Definition set_u_generation (x : Z) (u : sensor_user_s) : sensor_user_s :=
  let s := ustate u in
  set_ustate (mk_ustate (u_esize s) (u_latency s) (u_interval s) (u_nonwakeup s) x) u.

(** The user a name stands for; [None] is a dangling pointer. *)
Fixpoint assoc (uid : Z) (l : list (Z * sensor_user_s)) : option sensor_user_s :=
  match l with
  | [] => None
  | (i, u) :: l => if i =? uid then Some u else assoc uid l
  end.
Definition get_user (uid : Z) (d : dev) : option sensor_user_s := assoc uid (userlist (upper d)).

Definition map_users (f : Z -> sensor_user_s -> sensor_user_s) (d : dev) : dev :=
  set_users (map (fun '(i, u) => (i, f i u)) (userlist (upper d))) d.
Definition upd_user (uid : Z) (f : sensor_user_s -> sensor_user_s) : dev -> dev :=
  map_users (fun i u => if i =? uid then f u else u).

(** ** Notification *)

Definition sensor_pollnotify_one (eventset rl : Z) (u : sensor_user_s) : sensor_user_s :=
  if Z.land (role u) rl =? 0 then u
  else
    let u := if eventset =? POLLPRI then set_changed true u else u in
    set_fds (poll_notify eventset (fds u)) u.

Definition sensor_pollnotify (eventset rl : Z) : dev -> dev :=
  map_users (fun _ => sensor_pollnotify_one eventset rl).

(** ** Intervals and latencies *)

(** The loop over the other users that have an interval. *)
Definition min_over (uid : Z) (l : list (Z * sensor_user_s)) (mi ml : Z) : Z * Z :=
  fold_left (fun '(mi, ml) '(i, u) =>
    if (i =? uid) || (u_interval (ustate u) =? UINT32_MAX) then (mi, ml)
    else (if u_interval (ustate u) <? mi then u_interval (ustate u) else mi,
          if u_latency (ustate u) <? ml then u_latency (ustate u) else ml)) l (mi, ml).

(** What other tasks do in the next window without the lock. *)
Definition window_step (win : list (dev -> dev)) (d : dev) : list (dev -> dev) * dev :=
  match win with [] => ([], d) | f :: win => (win, f d) end.

(** One pass of the code from the label [again]: it returns, or jumps back with
    the current values of its variables. *)
Inductive pass := PRet (ret : Z) (d : dev) | PAgain (ret mi ml : Z) (win : list (dev -> dev)) (d : dev).

(** The part after the call of [set_interval]. *)
Definition interval_batch (win : list (dev -> dev)) (uid interval ret mi ml : Z) (d : dev) :
    pass :=
  let ml := if ml =? UINT32_MAX then 0 else ml in
  let commit ret d :=
    let d := set_state (set_min_interval mi) d in
    let d := upd_user uid (set_u_interval interval) d in
    PRet ret (upper_unlock (sensor_pollnotify POLLPRI SENSOR_ROLE_WR d)) in
  match op_batch ops with
  | Some batch =>
      if negb (ml =? min_latency (state (upper d))) ||
         (negb (mi =? min_interval (state (upper d))) && negb (ml =? 0)) then
        let orig := min_latency (state (upper d)) in
        let d := upper_unlock d in
        let '(ret, ml, x) := batch ml (drv (lower d)) in
        let '(win, d) := window_step win (set_drv x d) in
        let d := upper_lock d in
        if negb (orig =? min_latency (state (upper d))) then PAgain ret mi ml win d
        else commit ret (if 0 <=? ret then set_state (set_min_latency ml) d else d)
      else commit ret d
  | None => commit ret d
  end.

Definition interval_pass (win : list (dev -> dev)) (uid interval ret mi ml : Z) (d : dev) :
    pass :=
  let '(mi, ml) := min_over uid (userlist (upper d)) mi ml in
  match op_set_interval ops with
  | None =>
      let d := set_state (set_min_interval mi) d in
      let d := upd_user uid (set_u_interval interval) d in
      PRet ret (upper_unlock (sensor_pollnotify POLLPRI SENSOR_ROLE_WR d))
  | Some set_interval =>
      if negb (mi =? UINT32_MAX) && negb (mi =? min_interval (state (upper d))) then
        let orig := min_interval (state (upper d)) in
        let d := upper_unlock d in
        let '(ret, mi', x) := set_interval mi (drv (lower d)) in
        let '(win, d) := window_step win (set_drv x d) in
        if ret <? 0 then PRet ret d
        else if mi <? mi' then PRet (- EINVAL) d
        else
          let d := upper_lock d in
          if negb (orig =? min_interval (state (upper d))) then PAgain ret mi' ml win d
          else interval_batch win uid interval ret mi' ml d
      else interval_batch win uid interval ret mi ml d
  end.

(** The code jumps back only when another task changed the minimum in a window,
    so there are at most as many jumps as windows; [None] does not occur when
    [fuel] is their number plus one. *)
Fixpoint interval_loop (fuel : nat) (win : list (dev -> dev)) (uid interval ret mi ml : Z)
    (d : dev) : option (Z * dev) :=
  match fuel with
  | O => None
  | S fuel =>
      match interval_pass win uid interval ret mi ml d with
      | PRet ret d => Some (ret, d)
      | PAgain ret mi ml win d => interval_loop fuel win uid interval ret mi ml d
      end
  end.

Definition sensor_update_interval (win : list (dev -> dev)) (uid interval : Z) (d : dev) :
    option (Z * dev) :=
  user ← get_user uid d;
  let ml := if interval =? UINT32_MAX then UINT32_MAX else u_latency (ustate user) in
  if interval =? u_interval (ustate user) then Some (0, d)
  else interval_loop (S (length win)) win uid interval 0 interval ml (upper_lock d).

Definition latency_pass (win : list (dev -> dev)) (uid latency ret ml : Z) (d : dev) : pass :=
  let ml := if latency <=? min_latency (state (upper d)) then ml
            else snd (min_over uid (userlist (upper d)) UINT32_MAX ml) in
  let ml := if ml =? UINT32_MAX then 0 else ml in
  let commit ret ml d :=
    let d := set_state (set_min_latency ml) d in
    let d := upd_user uid (set_u_latency latency) d in
    PRet ret (upper_unlock (sensor_pollnotify POLLPRI SENSOR_ROLE_WR d)) in
  if ml =? min_latency (state (upper d)) then
    PRet ret (upper_unlock (upd_user uid (set_u_latency latency) d))
  else match op_batch ops with
       | None => commit ret ml d
       | Some batch =>
           let orig := min_latency (state (upper d)) in
           let d := upper_unlock d in
           let '(ret, ml, x) := batch ml (drv (lower d)) in
           let '(win, d) := window_step win (set_drv x d) in
           if ret <? 0 then PRet ret d
           else
             let d := upper_lock d in
             if negb (orig =? min_latency (state (upper d))) then PAgain ret 0 ml win d
             else commit ret ml d
       end.

Fixpoint latency_loop (fuel : nat) (win : list (dev -> dev)) (uid latency ret ml : Z) (d : dev) :
    option (Z * dev) :=
  match fuel with
  | O => None
  | S fuel =>
      match latency_pass win uid latency ret ml d with
      | PRet ret d => Some (ret, d)
      | PAgain ret _ ml win d => latency_loop fuel win uid latency ret ml d
      end
  end.

Definition sensor_update_latency (win : list (dev -> dev)) (uid latency : Z) (d : dev) :
    option (Z * dev) :=
  user ← get_user uid d;
  if latency =? u_latency (ustate user) then Some (0, d)
  else if u_interval (ustate user) =? UINT32_MAX then
    Some (0, upd_user uid (set_u_latency latency) d)
  else latency_loop (S (length win)) win uid latency 0 latency (upper_lock d).

Definition sensor_update_nonwakeup (uid : Z) (nw : bool) (d : dev) : option dev :=
  user ← get_user uid d;
  if eqb nw (u_nonwakeup (ustate user)) then Some d
  else
    let d := upper_lock (upd_user uid (set_u_nonwakeup nw) d) in
    let nw := nw && forallb (fun '(_, u) => u_nonwakeup (ustate u)) (userlist (upper d)) in
    if eqb nw (nonwakeup (state (upper d))) then Some (upper_unlock d)
    else
      let d := upper_unlock (set_state (set_nonwakeup nw) d) in
      Some (match op_set_nonwakeup ops with
            | Some f => set_drv (f nw (drv (lower d))) d
            | None => d
            end).

(** ** Samples *)

(** [sensor_generate_timing] with [nums] rounds. *)
Fixpoint sensor_generate_timing (nums : nat) (d : dev) : option dev :=
  match nums with
  | O => Some d
  | S nums =>
      let s := state (upper d) in
      let interval := if min_interval s =? UINT32_MAX then 1 else min_interval s in
      let g := u32 (generation s + interval) in
      let d := set_state (set_generation g) d in
      '(_, t) ← circbuf_overwrite (le_bytes 4 g) (timing (upper d));
      sensor_generate_timing nums (set_buffers t (buffer (upper d)) d)
  end.

Definition sensor_is_updated (d : dev) (u : sensor_user_s) : bool :=
  let delta := s32 (generation (state (upper d)) - u_generation (ustate u)) in
  if delta <=? 0 then false
  else if u_interval (ustate u) =? UINT32_MAX then true
  else u32 (u_interval (ustate u) - min_interval (state (upper d)) / 2) <=? delta.

(** The four bytes read into an uninitialised variable. *)
Definition read_u32 (l : list Z) : option Z :=
  if (length l =? 4)%nat then Some (le_val l) else None.

Definition sensor_catch_up (d : dev) (u : sensor_user_s) : option sensor_user_s :=
  l ← circbuf_peek TIMING_BUF_ESIZE (timing (upper d));
  g ← read_u32 l;
  let delta := s32 (g - u_generation (ustate u)) in
  if 0 <? delta then
    let u := set_bufferpos (tail (timing (upper d)) / TIMING_BUF_ESIZE) u in
    if u_interval (ustate u) =? UINT32_MAX then Some (set_u_generation (u32 (g - 1)) u)
    else
      let delta := u32 (delta - min_interval (state (upper d)) / 2) in
      Some (set_u_generation
              (u32 (u_generation (ustate u) + ROUND_DOWN delta (u_interval (ustate u)))) u)
  else Some u.

(** [circbuf_peekat] into a 32-bit variable that keeps its value when nothing is
    read. *)
Definition peek_u32 (pos def : Z) (c : circbuf_s) : option Z :=
  l ← circbuf_peekat pos TIMING_BUF_ESIZE c;
  Some (if (length l =? 4)%nat then le_val l else def).

(** The loop that takes samples one by one, [n] rounds before [end]; [out] is
    what was copied (the size of it when there is no buffer).  The third
    component says whether the loop ran to its end. *)
Fixpoint one_by_one (n : nat) (d : dev) (pos g len : Z) (buf : bool) (out : list Z) (ret : Z)
    (u : sensor_user_s) : option (list Z * Z * bool * sensor_user_s) :=
  match n with
  | O => Some (out, ret, true, u)
  | S n =>
      let pos := u32 (pos + 1) in
      let s := state (upper d) in
      let t := timing (upper d) in
      ng ← (if u32 (pos * TIMING_BUF_ESIZE) =? head t
            then Some (u32 (generation s + min_interval s))
            else l ← circbuf_peekat (u32 (pos * TIMING_BUF_ESIZE)) TIMING_BUF_ESIZE t; read_u32 l);
      let delta := s32 (ng + g - 2 * u32 (u_generation (ustate u) + u_interval (ustate u))) in
      if 0 <=? delta then
        l ← (if buf then circbuf_peekat (u32 (u32 (pos - 1) * esize s)) (esize s) (buffer (upper d))
             else Some []);
        let ret := ret + (if buf then zlen l else esize s) in
        let u := set_bufferpos pos u in
        let u := set_u_generation (u32 (u_generation (ustate u) + u_interval (ustate u))) u in
        if len <=? ret then Some (out ++ l, ret, false, u)
        else one_by_one n d pos ng len buf (out ++ l) ret u
      else one_by_one n d pos ng len buf out ret u
  end.

(** The bytes copied to the buffer, the result, and the user. *)
Definition sensor_do_samples (d : dev) (u : sensor_user_s) (buf : bool) (len : Z) :
    option (list Z * Z * sensor_user_s) :=
  let s := state (upper d) in
  let t := timing (upper d) in
  u ← sensor_catch_up d u;
  let nums := u32 (head t / TIMING_BUF_ESIZE - bufferpos u) in
  let nums := if len <? u32 (nums * esize s) then len / esize s else nums in
  let len := u32 (nums * esize s) in
  if u_interval (ustate u) =? UINT32_MAX then
    l ← (if buf then circbuf_peekat (u32 (bufferpos u * esize s)) len (buffer (upper d))
         else Some []);
    let ret := if buf then zlen l else len in
    let u := set_bufferpos (u32 (bufferpos u + nums)) u in
    g ← peek_u32 (u32 (u32 (bufferpos u - 1) * TIMING_BUF_ESIZE)) (u_generation (ustate u)) t;
    Some (l, ret, set_u_generation g u)
  else
    let pos := bufferpos u in
    let fin := head t / TIMING_BUF_ESIZE in
    l ← circbuf_peekat (u32 (pos * TIMING_BUF_ESIZE)) TIMING_BUF_ESIZE t;
    g ← (if pos =? fin then Some 0 else read_u32 l);
    '(out, ret, all, u) ← one_by_one (Z.to_nat (u32 (fin - pos))) d pos g len buf [] 0 u;
    if all && sensor_is_updated d u then
      let g := u32 (generation s - u_generation (ustate u) + min_interval s / 2) in
      Some (out, ret, set_u_generation
        (u32 (u_generation (ustate u) + ROUND_DOWN g (u_interval (ustate u)))) u)
    else Some (out, ret, u).

(** ** File operations *)

(** [mem] says whether [kmm_zalloc] succeeds, [uid] is the address of the new
    user. *)
Definition sensor_open (mem : bool) (uid : Z) (filep : file) (d : dev) : Z * dev :=
  let d := upper_lock d in
  if negb mem then (- ENOMEM, upper_unlock d)
  else
    let '(ret, d) :=
      match op_open ops with
      | Some f => if f_direct filep then (0, d)
                  else let '(ret, x) := f (drv (lower d)) in (ret, set_drv x d)
      | None => (0, d)
      end in
    if ret <? 0 then (ret, upper_unlock d)
    else
      let '(ret, d) :=
        match op_activate ops with
        | Some f => if f_rdok filep && (nsubscribers (state (upper d)) =? 0)
                    then let '(ret, x) := f true (drv (lower d)) in (ret, set_drv x d)
                    else (ret, d)
        | None => (ret, d)
        end in
      if ret <? 0 then
        let d := match op_close ops with
                 | Some f => set_drv (snd (f (drv (lower d)))) d
                 | None => d
                 end in
        (ret, upper_unlock d)
      else
        let d := if f_rdok filep
                 then set_state (fun s => set_nsubscribers (u32 (nsubscribers s + 1)) s) d else d in
        let d := if f_wrok filep
                 then set_state (fun s => set_nadvertisers (u32 (nadvertisers s + 1)) s) d else d in
        let d := if f_wrok filep && f_persist filep
                 then mk_dev (upper d) (mk_lower (nbuffer (lower d)) true (drv (lower d))) else d in
        let s := state (upper d) in
        let pos := head (timing (upper d)) / TIMING_BUF_ESIZE in
        let back := negb (generation s =? 0) && persist (lower d) in
        let user :=
          mk_user None
            (Z.lor (if f_rdok filep then SENSOR_ROLE_RD else 0)
                   (if f_wrok filep then SENSOR_ROLE_WR else 0))
            false 0 false 0 (if back then u32 (pos - 1) else pos)
            (mk_ustate (esize s) 0 UINT32_MAX true
               (if back then u32 (generation s - 1) else generation s)) in
        let d := set_users (userlist (upper d) ++ [(uid, user)]) d in
        (ret, upper_unlock (sensor_pollnotify POLLPRI SENSOR_ROLE_WR d)).

(** The part of [sensor_close] after the user has withdrawn its requests. *)
Definition close_user (filep : file) (d : dev) : dev :=
  let uid := f_priv filep in
  let d := upper_lock d in
  let d := match op_close ops with
           | Some f => if f_direct filep then d else set_drv (snd (f (drv (lower d)))) d
           | None => d
           end in
  let d := if f_rdok filep
           then
             let d := set_state (fun s => set_nsubscribers (u32 (nsubscribers s - 1)) s) d in
             match op_activate ops with
             | Some f => if nsubscribers (state (upper d)) =? 0
                         then set_drv (snd (f false (drv (lower d)))) d else d
             | None => d
             end
           else d in
  let d := if f_wrok filep
           then set_state (fun s => set_nadvertisers (u32 (nadvertisers s - 1)) s) d else d in
  let d := set_users (filter (fun p => fst p <> uid) (userlist (upper d))) d in
  upper_unlock (sensor_pollnotify POLLPRI SENSOR_ROLE_WR d).

Definition sensor_close (win1 win2 : list (dev -> dev)) (filep : file) (d : dev) : option (Z * dev) :=
  let uid := f_priv filep in
  '(_, d) ← sensor_update_interval win1 uid UINT32_MAX d;
  '(_, d) ← sensor_update_latency win2 uid UINT32_MAX d;
  d ← sensor_update_nonwakeup uid true d;
  Some (0, close_user filep d).

(** A read returns its result and the bytes copied, or waits for the semaphore
    of the user; a read that waited goes on as if called again after the
    semaphore was posted. *)
Inductive read_res := RRet (ret : Z) (l : list Z) | RWait.

(** [buf] is false when the caller passes a null pointer. *)
Definition sensor_read (filep : file) (buf : bool) (len : Z) (d : dev) : option (read_res * dev) :=
  let uid := f_priv filep in
  if len =? 0 then Some (RRet (- EINVAL) [], d)
  else
    let d := upper_lock d in
    user ← get_user uid d;
    match op_fetch ops with
    | Some fetch =>
        if negb buf then Some (RRet (- EINVAL) [], d)
        else if negb (f_nonblock filep) then
          let d := upper_unlock d in
          if buffersem user <? 1 then Some (RWait, d)
          else
            let d := upper_lock (upd_user uid (set_buffersem (buffersem user - 1)) d) in
            let '(ret, l, x) := fetch len (drv (lower d)) in
            Some (RRet ret l, upper_unlock (set_drv x d))
        else if nsubscribers (state (upper d)) =? 0 then
          Some (RRet (- EAGAIN) [], upper_unlock d)
        else
          let '(ret, l, x) := fetch len (drv (lower d)) in
          Some (RRet ret l, upper_unlock (set_drv x d))
    | None =>
        if circbuf_is_empty (buffer (upper d)) then
          Some (RRet (- ENODATA) [], upper_unlock d)
        else if sensor_is_updated d user then
          '(l, ret, u) ← sensor_do_samples d user buf len;
          Some (RRet ret l, upper_unlock (upd_user uid (fun _ => u) d))
        else if persist (lower d) then
          let s := state (upper d) in
          if negb buf then Some (RRet (esize s) [], upper_unlock d)
          else
            l ← circbuf_peekat (u32 (u32 (bufferpos user - 1) * esize s)) (esize s)
                  (buffer (upper d));
            Some (RRet (zlen l) l, upper_unlock d)
        else Some (RRet (- ENODATA) [], upper_unlock d)
    end.

(** The user has news: its semaphore is posted unless it is set already, and
    its poll is notified. *)
Definition wake_reader (u : sensor_user_s) : sensor_user_s :=
  let u := if buffersem u <? 1 then set_buffersem (buffersem u + 1) u else u in
  sensor_pollnotify_one POLLIN SENSOR_ROLE_RD u.

Definition flush_done (u : sensor_user_s) : sensor_user_s :=
  sensor_pollnotify_one POLLPRI (role u)
    (set_event (Z.lor (event u) SENSOR_EVENT_FLUSH_COMPLETE) false u).

(** The buffers are made by the first push; [mem1] and [mem2] are the blocks it
    allocates. *)
Definition push_buffers (mem1 mem2 : option (list Z)) (d : dev) : Z * dev :=
  if circbuf_is_init (buffer (upper d)) then (0, d)
  else
    let '(ret, b) := circbuf_init None (u32 (nbuffer (lower d) * esize (state (upper d)))) mem1
                       (buffer (upper d)) in
    let d := set_buffers (timing (upper d)) b d in
    if ret <? 0 then (ret, d)
    else
      let '(ret, t) := circbuf_init None (u32 (nbuffer (lower d) * TIMING_BUF_ESIZE)) mem2
                         (timing (upper d)) in
      if ret <? 0 then (ret, set_buffers t (circbuf_uninit b) d)
      else (ret, set_buffers t b d).

Definition sensor_push_event (mem1 mem2 : option (list Z)) (data : list Z) (d : dev) :
    option (Z * dev) :=
  let bytes := zlen data in
  let d := upper_lock d in
  if bytes =? 0 then
    Some (0, upper_unlock (map_users (fun _ u => if flushing u then flush_done u else u) d))
  else
    let s := state (upper d) in
    let envcount := bytes / esize s in
    if negb (bytes =? envcount * esize s) then Some (- EINVAL, upper_unlock d)
    else
      let '(ret, d) := push_buffers mem1 mem2 d in
      if ret <? 0 then Some (ret, upper_unlock d)
      else
        '(_, b) ← circbuf_overwrite data (buffer (upper d));
        d ← sensor_generate_timing (Z.to_nat envcount) (set_buffers (timing (upper d)) b d);
        Some (bytes, upper_unlock
                       (map_users (fun _ u => if sensor_is_updated d u then wake_reader u else u) d)).

(** [sensor_write] calls the [push_event] the registration installed, which is
    [sensor_push_event] when the driver has no [fetch]. *)
Definition sensor_write (mem1 mem2 : option (list Z)) (data : list Z) (d : dev) :
    option (Z * dev) :=
  sensor_push_event mem1 mem2 data d.

Definition sensor_notify_event (d : dev) : dev :=
  upper_unlock (map_users (fun _ => wake_reader) (upper_lock d)).

(** The result, and the pollfd of the caller. *)
Definition sensor_poll (filep : file) (f : pollfd) (setup : bool) (d : dev) : option (Z * dev) :=
  let uid := f_priv filep in
  let d := upper_lock d in
  user ← get_user uid d;
  if setup then
    match fds user with
    | Some _ => Some (- ENOSPC, upper_unlock d)
    | None =>
        let ev_in :=
          match op_fetch ops with
          | Some _ => f_nonblock filep || (0 <? buffersem user)
          | None => sensor_is_updated d user
          end in
        let eventset := Z.lor (if ev_in then POLLIN else 0) (if changed user then POLLPRI else 0) in
        Some (0, upper_unlock (upd_user uid (set_fds (poll_notify eventset (Some f))) d))
    end
  else Some (0, upper_unlock (upd_user uid (set_fds None) d)).

(** ** ioctl *)

Inductive sensor_cmd :=
| SNIOC_GET_STATE
| SNIOC_GET_USTATE
| SNIOC_SET_INTERVAL (arg : Z)
| SNIOC_BATCH (arg : Z)
| SNIOC_SELFTEST (arg : Z)
| SNIOC_SET_CALIBVALUE (arg : Z)
| SNIOC_CALIBRATE (arg : Z)
| SNIOC_SET_USERPRIV (arg : Z)
| SNIOC_SET_NONWAKEUP (arg : bool)
| SNIOC_SET_BUFFER_NUMBER (arg : Z)
| SNIOC_UPDATED
| SNIOC_GET_INFO
| SNIOC_GET_EVENTS
| SNIOC_FLUSH
| SNIOC_OTHER (cmd arg : Z).

(** What the call stores through its argument. *)
Inductive ioctl_out :=
| OutNone
| OutState (s : sensor_state_s)
| OutUstate (s : sensor_ustate_s)
| OutBool (b : bool)
| OutInt (z : Z).

(** An optional driver operation, [-ENOTSUP] without it. *)
Definition driver_op (f : option (LS -> Z * LS)) (d : dev) : Z * dev :=
  match f with
  | None => (- ENOTSUP, d)
  | Some f => let '(ret, x) := f (drv (lower d)) in (ret, set_drv x d)
  end.

Definition sensor_set_buffer_number (arg : Z) (d : dev) : Z * dev :=
  let d := upper_lock d in
  let '(ret, d) :=
    if circbuf_is_init (buffer (upper d)) then (- EBUSY, d)
    else if nbuffer (lower d) <=? arg
         then (0, set_state (set_s_nbuffer arg)
                    (mk_dev (upper d) (mk_lower arg (persist (lower d)) (drv (lower d)))))
         else (- ERANGE, d) in
  (ret, upper_unlock d).

Definition sensor_flush (filep : file) (d : dev) : Z * dev :=
  let uid := f_priv filep in
  if nsubscribers (state (upper d)) =? 0 then (- EINVAL, d)
  else
    let '(ret, d) := driver_op (op_flush ops) d in
    let d := if 0 <=? ret then upd_user uid (fun u => set_event (event u) true u) d else d in
    if ret =? - ENOTSUP
    then (if f_remote filep then ret else 0, upd_user uid flush_done d)
    else (ret, d).

Definition sensor_ioctl (win : list (dev -> dev)) (filep : file) (cmd : sensor_cmd) (d : dev) :
    option (Z * ioctl_out * dev) :=
  let uid := f_priv filep in
  let plain '(ret, d) := Some (ret, OutNone, d) in
  match cmd with
  | SNIOC_GET_STATE =>
      let d := upper_lock d in
      let o := OutState (state (upper d)) in
      let d := upd_user uid (set_changed false) d in
      Some (0, o, upper_unlock d)
  | SNIOC_GET_USTATE =>
      let d := upper_lock d in
      u ← get_user uid d;
      Some (0, OutUstate (ustate u), upper_unlock d)
  | SNIOC_SET_INTERVAL arg =>
      r ← sensor_update_interval win uid (if arg =? 0 then UINT32_MAX else arg) d; plain r
  | SNIOC_BATCH arg => r ← sensor_update_latency win uid arg d; plain r
  | SNIOC_SELFTEST arg => plain (driver_op ((fun f => f arg) <$> op_selftest ops) d)
  | SNIOC_SET_CALIBVALUE arg => plain (driver_op ((fun f => f arg) <$> op_set_calibvalue ops) d)
  | SNIOC_CALIBRATE arg => plain (driver_op ((fun f => f arg) <$> op_calibrate ops) d)
  | SNIOC_SET_USERPRIV arg =>
      let d := upper_lock d in
      let d := set_state (set_priv arg) d in
      Some (0, OutNone, upper_unlock d)
  | SNIOC_SET_NONWAKEUP arg => d ← sensor_update_nonwakeup uid arg d; Some (0, OutNone, d)
  | SNIOC_SET_BUFFER_NUMBER arg => plain (sensor_set_buffer_number arg d)
  | SNIOC_UPDATED =>
      let d := upper_lock d in
      u ← get_user uid d;
      Some (0, OutBool (sensor_is_updated d u), upper_unlock d)
  | SNIOC_GET_INFO => plain (driver_op (op_get_info ops) d)
  | SNIOC_GET_EVENTS =>
      let d := upper_lock d in
      u ← get_user uid d;
      let d := upd_user uid (fun u => set_changed false (set_event 0 (flushing u) u)) d in
      Some (0, OutInt (event u), upper_unlock d)
  | SNIOC_FLUSH => plain (sensor_flush filep d)
  | SNIOC_OTHER cmd arg =>
      plain (match op_control ops with
             | Some f => let '(ret, x) := f cmd arg (drv (lower d)) in (ret, set_drv x d)
             | None => (- ENOTTY, d)
             end)
  end.

(** ** Registration *)

(** [type_ok] says whether the type of the lower half is a sensor type, [mem]
    whether the allocation succeeds, [reg] what [register_driver] returns. *)
Definition sensor_custom_register (type_ok mem : bool) (reg esz : Z) (low : sensor_lowerhalf_s) :
    Z * option dev :=
  if negb type_ok || (esz =? 0) then (- EINVAL, None)
  else if negb mem then (- ENOMEM, None)
  else
    let nb := match op_fetch ops with
              | None => if nbuffer low =? 0 then 1 else nbuffer low
              | Some _ => 0
              end in
    let nadv := match op_activate ops with Some _ => 1 | None => 0 end in
    let no_circ := mk_circ None 0 0 0 false in
    if negb (reg =? 0) then (reg, None)
    else
      (reg, Some (mk_dev
        (mk_upper (mk_state esz nb 0 UINT32_MAX 0 nadv 0 true 0) no_circ no_circ 0 [])
        (mk_lower nb (persist low) (drv low)))).

(** The buffers a device that goes away frees. *)
Definition sensor_custom_unregister (d : dev) : list circbuf_s :=
  if circbuf_is_init (buffer (upper d))
  then [circbuf_uninit (buffer (upper d)); circbuf_uninit (timing (upper d))] else [].
End sensor.

Arguments dev LS : clear implicits.
Arguments sensor_ops_s LS : clear implicits.
Arguments sensor_lowerhalf_s LS : clear implicits.

(** A call that takes and releases the lock leaves the rest alone. *)
Lemma unlock_lock {LS} (d : dev LS) : upper_unlock (upper_lock d) = d.
Proof.
  destruct d as [[s t b n l] low]. unfold upper_unlock, upper_lock. simpl. do 2 f_equal. lia.
Qed.

(** ** Remapping of axes *)

Record sensor_axis_map_s := mk_axis {
  src_x : Z; src_y : Z; src_z : Z;
  sign_x : Z; sign_y : Z; sign_z : Z
}.

Definition g_remap_tbl : list sensor_axis_map_s :=
  [ mk_axis 0 1 2 1 1 1; mk_axis 1 0 2 1 (-1) 1; mk_axis 0 1 2 (-1) (-1) 1;
    mk_axis 1 0 2 (-1) 1 1; mk_axis 0 1 2 (-1) 1 (-1); mk_axis 1 0 2 (-1) (-1) (-1);
    mk_axis 0 1 2 1 (-1) (-1); mk_axis 1 0 2 1 1 (-1) ].

Definition s16 (z : Z) : Z := (z + 2 ^ 15) mod 2 ^ 16 - 2 ^ 15.

Definition sensor_remap_vector_raw16 (v : list Z) (place : Z) : option (list Z) :=
  m ← load g_remap_tbl place;
  x ← load v (src_x m);
  y ← load v (src_y m);
  z ← load v (src_z m);
  Some [s16 (x * sign_x m); s16 (y * sign_y m); s16 (z * sign_z m)].

(** ** Subscription intervals *)

Section intervals.
Context {LS : Type} (ops : sensor_ops_s LS).
Implicit Types (d : dev LS) (win : list (dev LS -> dev LS)).

(** The device samples at least as fast as every subscriber asked. *)
Definition fast_enough (m : Z) (u : sensor_user_s) : Prop :=
  u_interval (ustate u) = UINT32_MAX \/ m <= u_interval (ustate u).
Definition intervals_ok (d : dev LS) : Prop :=
  Forall (fun p => fast_enough (min_interval (state (upper d))) (snd p)) (userlist (upper d)).

Lemma min_over_spec uid l mi ml mi' ml' :
  min_over uid l mi ml = (mi', ml') ->
  mi' <= mi /\ Forall (fun p => fst p <> uid -> fast_enough mi' (snd p)) l.
Proof.
  revert mi ml. induction l as [|[i u] l IH]; intros mi ml E; unfold min_over in E; simpl in E.
  { injection E as <- _. split; [lia|constructor]. }
  destruct ((i =? uid) || (u_interval (ustate u) =? UINT32_MAX)) eqn:Ec.
  - apply IH in E as [H1 H2]. split; [done|]. constructor; [|done]. simpl. intros Hi.
    left. zbool. lia.
  - apply IH in E as [H1 H2]. zbool. destruct (Z.ltb_spec (u_interval (ustate u)) mi).
    + split; [lia|]. constructor; [|done]. simpl. intros _. right. lia.
    + split; [lia|]. constructor; [|done]. simpl. intros _. right. lia.
Qed.

Lemma pollnotify_one_frame ev rl u :
  bufferpos (sensor_pollnotify_one ev rl u) = bufferpos u /\
  ustate (sensor_pollnotify_one ev rl u) = ustate u.
Proof.
  unfold sensor_pollnotify_one. destruct (Z.land _ _ =? 0); [done|]. by destruct (ev =? POLLPRI).
Qed.

Lemma intervals_ok_map f d :
  (forall i u, ustate (f i u) = ustate u) -> intervals_ok d -> intervals_ok (map_users f d).
Proof.
  intros Hf. unfold intervals_ok. simpl. intros H. apply Forall_map.
  eapply Forall_impl; [exact H|]. intros [i u] Hu. unfold fast_enough in *. simpl in *.
  by rewrite Hf.
Qed.

(** Committing an interval no larger than what the other users asked. *)
Lemma intervals_ok_commit uid interval mi d :
  mi <= interval ->
  Forall (fun p => fst p <> uid -> fast_enough mi (snd p)) (userlist (upper d)) ->
  intervals_ok (upper_unlock (sensor_pollnotify POLLPRI SENSOR_ROLE_WR
    (upd_user uid (set_u_interval interval) (set_state (set_min_interval mi) d)))).
Proof.
  intros Hmi Hf. change (intervals_ok (sensor_pollnotify POLLPRI SENSOR_ROLE_WR
    (upd_user uid (set_u_interval interval) (set_state (set_min_interval mi) d)))).
  apply intervals_ok_map; [intros; apply pollnotify_one_frame|].
  unfold intervals_ok. simpl. apply Forall_map. eapply Forall_impl; [exact Hf|].
  intros [i u] Hu. simpl in *. destruct (Z.eqb_spec i uid) as [->|Hi]; [right; done|by apply Hu].
Qed.

Lemma interval_batch_ok uid interval ret mi ml d :
  mi <= interval ->
  Forall (fun p => fst p <> uid -> fast_enough mi (snd p)) (userlist (upper d)) ->
  exists ret' d', interval_batch ops [] uid interval ret mi ml d = PRet ret' d' /\
    intervals_ok d' /\ lock (upper d') = lock (upper d) - 1 /\
    map fst (userlist (upper d')) = map fst (userlist (upper d)).
Proof.
  intros Hmi Hf.
  assert (forall r d1, userlist (upper d1) = userlist (upper d) -> lock (upper d1) = lock (upper d) ->
    exists ret' d', PRet r (upper_unlock (sensor_pollnotify POLLPRI SENSOR_ROLE_WR
      (upd_user uid (set_u_interval interval) (set_state (set_min_interval mi) d1)))) = PRet ret' d' /\
    intervals_ok d' /\ lock (upper d') = lock (upper d) - 1 /\
    map fst (userlist (upper d')) = map fst (userlist (upper d))) as Hc.
  { intros r d1 H1 H2. eexists _, _. split; [done|]. split; [|split].
    - apply intervals_ok_commit; [done|by rewrite H1].
    - simpl. by rewrite H2.
    - simpl. rewrite H1, !map_map. apply map_ext. by intros []. }
  unfold interval_batch. destruct (op_batch ops) as [batch|]; [|by apply Hc].
  destruct (negb _ || _); [|by apply Hc]. simpl (drv _).
  destruct (batch _ _) as [[r ml'] x]. cbn [window_step].
  change (min_latency (state (upper (upper_lock (set_drv x (upper_unlock d))))))
    with (min_latency (state (upper d))).
  rewrite Z.eqb_refl. cbn [negb]. destruct (0 <=? r); apply Hc; simpl; lia || done.
Qed.

(** Without other tasks in the windows, setting an interval returns, keeps the
    lock level, and leaves the device fast enough for every subscriber. *)
Lemma interval_pass_ok uid interval ret mi ml d :
  mi <= interval -> intervals_ok d ->
  exists ret' d', interval_pass ops [] uid interval ret mi ml d = PRet ret' d' /\
    intervals_ok d' /\ lock (upper d') = lock (upper d) - 1 /\
    map fst (userlist (upper d')) = map fst (userlist (upper d)).
Proof.
  intros Hmi Hok. unfold interval_pass.
  destruct (min_over uid (userlist (upper d)) mi ml) as [mi1 ml1] eqn:Em.
  apply min_over_spec in Em as [Hle Hf]. destruct (op_set_interval ops) as [set_interval|].
  2:{ eexists _, _. split; [done|]. split; [apply intervals_ok_commit; [lia|done]|].
      split; [done|]. simpl. rewrite !map_map. apply map_ext. by intros []. }
  destruct (negb _ && _); [|apply interval_batch_ok; [lia|done]].
  simpl (drv _). destruct (set_interval _ _) as [[r mi2] x]. cbn [window_step].
  destruct (r <? 0); [by eexists _, _|].
  destruct (Z.ltb_spec mi1 mi2); [by eexists _, _|].
  change (min_interval (state (upper (upper_lock (set_drv x (upper_unlock d))))))
    with (min_interval (state (upper d))).
  rewrite Z.eqb_refl. cbn [negb].
  destruct (interval_batch_ok uid interval r mi2 ml1
    (upper_lock (set_drv x (upper_unlock d)))) as (r' & d' & E & H1 & H2 & H3).
  { lia. }
  { eapply Forall_impl; [exact Hf|]. intros p Hp Hi. destruct (Hp Hi); [by left|right; lia]. }
  exists r', d'. split; [done|]. split; [done|]. split; [|done]. rewrite H2. simpl. lia.
Qed.

(** C13: setting the interval of a subscriber, when no other task gets in
    between, returns with the lock as it was, and the interval the device
    samples at is at most the interval of every subscriber that has one,
    whatever the driver answers. *)
Theorem sensor_interval_fast_enough uid interval (d : dev LS) u :
  get_user uid d = Some u -> intervals_ok d ->
  exists ret d', sensor_update_interval ops [] uid interval d = Some (ret, d') /\
    intervals_ok d' /\ lock (upper d') = lock (upper d) /\
    map fst (userlist (upper d')) = map fst (userlist (upper d)).
Proof.
  intros Hu Hok. unfold sensor_update_interval. rewrite Hu. cbn [mbind option_bind].
  destruct (interval =? _); [by eexists _, _|]. cbn [length interval_loop].
  destruct (interval_pass_ok uid interval 0 interval
    (if interval =? UINT32_MAX then UINT32_MAX else u_latency (ustate u)) (upper_lock d))
    as (r & d' & E & H1 & H2 & H3); [lia|done|].
  rewrite E. exists r, d'. split; [done|]. split; [done|]. split; [|done]. rewrite H2. simpl. lia.
Qed.

(** A jump back to [again] uses up a window. *)
Lemma window_step_same (f : dev LS -> Z) win d win' d' :
  window_step win d = (win', d') -> f d' <> f d -> (length win' < length win)%nat.
Proof. destruct win; simpl; intros [= <- <-] Hf; [done|lia]. Qed.

Lemma interval_batch_again win uid interval ret mi ml d ret' mi' ml' win' d' :
  interval_batch ops win uid interval ret mi ml d = PAgain ret' mi' ml' win' d' ->
  (length win' < length win)%nat.
Proof.
  unfold interval_batch. destruct (op_batch ops) as [batch|]; [|done].
  destruct (negb _ || _); [|done]. destruct (batch _ _) as [[r ml1] x].
  destruct (window_step win _) as [win1 d1] eqn:Ew. destruct (negb _) eqn:Ec; [|done].
  intros [= _ _ _ <- _]. apply (window_step_same (fun d => min_latency (state (upper d))) _ _ _ _ Ew).
  simpl in *. intros Heq. rewrite Heq in Ec. simpl in Ec. by rewrite Z.eqb_refl in Ec.
Qed.

Lemma interval_pass_again win uid interval ret mi ml d ret' mi' ml' win' d' :
  interval_pass ops win uid interval ret mi ml d = PAgain ret' mi' ml' win' d' ->
  (length win' < length win)%nat.
Proof.
  unfold interval_pass. destruct (min_over _ _ _ _) as [mi1 ml1].
  destruct (op_set_interval ops) as [set_interval|]; [|done].
  destruct (negb _ && _); [|apply interval_batch_again].
  destruct (set_interval _ _) as [[r mi2] x]. destruct (window_step win _) as [win1 d1] eqn:Ew.
  destruct (r <? 0); [done|]. destruct (mi1 <? mi2); [done|]. destruct (negb _) eqn:Ec.
  - intros [= _ _ _ <- _].
    apply (window_step_same (fun d => min_interval (state (upper d))) _ _ _ _ Ew).
    simpl in *. intros Heq. rewrite Heq in Ec. simpl in Ec. by rewrite Z.eqb_refl in Ec.
  - intros H%interval_batch_again. eapply Nat.lt_le_trans; [exact H|].
    destruct win; simpl in Ew; injection Ew as <- _; simpl; lia.
Qed.

Lemma interval_loop_returns fuel win uid interval ret mi ml d :
  (length win < fuel)%nat -> interval_loop ops fuel win uid interval ret mi ml d <> None.
Proof.
  revert win ret mi ml d. induction fuel as [|fuel IH]; intros win ret mi ml d Hf; [lia|].
  simpl. destruct (interval_pass _ _ _ _ _ _ _ _) eqn:E; [done|].
  apply IH. apply interval_pass_again in E. lia.
Qed.

(** C14: setting the interval of a subscriber ends, whatever finitely many other
    tasks do in the windows in which the lock is released: each jump back to
    [again] takes one of them. *)
Theorem sensor_update_interval_ends win uid interval (d : dev LS) u :
  get_user uid d = Some u -> sensor_update_interval ops win uid interval d <> None.
Proof.
  intros Hu. unfold sensor_update_interval. rewrite Hu. cbn [mbind option_bind].
  destruct (interval =? _); [done|]. apply interval_loop_returns. lia.
Qed.
End intervals.

(** *** A driver that takes every interval, and two subscribers *)

Definition demo_ops : sensor_ops_s Z :=
  mk_ops None None None (Some (fun i _ => (0, i, i))) None None None None None None None None None.

Definition demo_user (interval : Z) : sensor_user_s :=
  mk_user None SENSOR_ROLE_RD false 0 false 0 0 (mk_ustate 4 0 interval true 0).

(** Subscriber 1 has the interval 10, subscriber 2 none yet. *)
Definition two_users : dev Z :=
  mk_dev (mk_upper (mk_state 4 1 0 10 2 0 0 true 0) (mk_circ None 0 0 0 false)
            (mk_circ None 0 0 0 false) 0 [(1, demo_user 10); (2, demo_user UINT32_MAX)])
         (mk_lower 1 false 10).

Lemma sensor_interval_fast_enough_witness :
  exists ret d', sensor_update_interval demo_ops [] 1 100 two_users = Some (ret, d') /\
    intervals_ok d' /\ lock (upper d') = lock (upper two_users) /\
    map fst (userlist (upper d')) = map fst (userlist (upper two_users)).
Proof.
  apply (sensor_interval_fast_enough demo_ops 1 100 two_users (demo_user 10)); [reflexivity|].
  constructor; [right; vm_compute; discriminate|]. constructor; [left; reflexivity|constructor].
Defined.

Lemma sensor_update_interval_ends_witness :
  sensor_update_interval demo_ops [set_state (set_min_interval 5)] 1 100 two_users <> None.
Proof. apply (sensor_update_interval_ends demo_ops _ 1 100 two_users (demo_user 10)). reflexivity. Defined.

(** What the other task does in the window: subscriber 2 sets the interval 20. *)
Definition other_sets_20 (d : dev Z) : dev Z :=
  match sensor_update_interval demo_ops [] 2 20 d with Some (_, d) => d | None => d end.

(** The check of the minimum after the driver call does not see every other
    task.  Subscriber 1 goes from interval 10 to 100; while the driver is called,
    subscriber 2 sets 20, which leaves the minimum at 10, so the check passes and
    the device ends up sampling at 100 though subscriber 2 was granted 20. *)
Theorem sensor_interval_race :
  exists d', sensor_update_interval demo_ops [other_sets_20] 1 100 two_users = Some (0, d') /\
    min_interval (state (upper d')) = 100 /\ drv (lower d') = 100 /\
    (exists u, get_user 2 d' = Some u /\ u_interval (ustate u) = 20) /\
    ~ intervals_ok d'.
Proof.
  eexists. split; [vm_compute; reflexivity|]. split; [reflexivity|]. split; [reflexivity|].
  split; [by eexists|]. intros H. unfold intervals_ok in H. simpl in H.
  apply Forall_cons_1 in H as [_ H]. apply Forall_cons_1 in H as [[H|H] _]; simpl in H; [done|lia].
Qed.

(** ** The lock *)

Section balance.
Context {LS : Type} (ops : sensor_ops_s LS) (uid : Z).
Implicit Types (d : dev LS) (win : list (dev LS -> dev LS)).

(** [d'] is a later state of the device, in which the caller has the lock [k]
    times more and its user is still there. *)
Definition later (k : Z) (d d' : dev LS) : Prop :=
  lock (upper d') = lock (upper d) + k /\ (is_Some (get_user uid d) -> is_Some (get_user uid d')).

(** Other tasks leave the lock of the caller and its user alone. *)
Definition calm (f : dev LS -> dev LS) : Prop := forall d, later 0 d (f d).

Lemma later_trans j k d1 d2 d3 : later j d1 d2 -> later k d2 d3 -> later (j + k) d1 d3.
Proof. intros [H1 H2] [H3 H4]. split; [lia|tauto]. Qed.

Lemma later_users k d d' :
  lock (upper d') = lock (upper d) + k -> userlist (upper d') = userlist (upper d) -> later k d d'.
Proof. intros H1 H2. split; [done|]. unfold get_user. by rewrite H2. Qed.

Lemma assoc_map_users (f : Z -> sensor_user_s -> sensor_user_s) l :
  assoc uid (map (fun '(i, u) => (i, f i u)) l) = f uid <$> assoc uid l.
Proof.
  induction l as [|[i u] l IH]; [done|]. simpl. destruct (Z.eqb_spec i uid); [by subst|done].
Qed.

Lemma later_map f d : later 0 d (map_users f d).
Proof.
  split; [simpl; lia|]. intros H. unfold get_user. simpl. rewrite assoc_map_users.
  by apply fmap_is_Some.
Qed.

Lemma later_window win d win' d' :
  Forall calm win -> window_step win d = (win', d') -> later 0 d d' /\ Forall calm win'.
Proof.
  intros Hc. destruct win as [|f win]; simpl; intros [= <- <-]; [split; [by apply later_users; [lia|]|done]|].
  apply Forall_cons_1 in Hc as [Hf Hc]. split; [apply Hf|done].
Qed.

(** How a pass may end. *)
Definition pass_ok (d : dev LS) (p : pass) : Prop :=
  match p with
  | PRet _ d' => later (-1) d d'
  | PAgain _ _ _ win d' => later 0 d d' /\ Forall calm win
  end.

Lemma pass_ok_trans d d' p : later 0 d d' -> pass_ok d' p -> pass_ok d p.
Proof.
  intros H. destruct p as [r d2|r mi ml win d2]; simpl.
  - apply (later_trans 0 (-1) _ _ _ H).
  - intros [H1 H2]. split; [apply (later_trans 0 0 _ _ _ H H1)|done].
Qed.

(** The end of both routines: some user is updated and the lock released. *)
Lemma pass_ok_commit r f g d :
  (userlist (upper (f d)) = userlist (upper d)) -> lock (upper (f d)) = lock (upper d) ->
  pass_ok d (PRet r (upper_unlock (sensor_pollnotify POLLPRI SENSOR_ROLE_WR
    (upd_user uid g (f d))))).
Proof.
  intros H1 H2. simpl.
  apply (later_trans 0 (-1) _ (f d)); [by apply later_users; [lia|]|].
  apply (later_trans 0 (-1) _ (upd_user uid g (f d))); [apply later_map|].
  apply (later_trans 0 (-1) _ (sensor_pollnotify POLLPRI SENSOR_ROLE_WR (upd_user uid g (f d))));
    [apply later_map|]. by apply later_users.
Qed.

(** Calling the driver without the lock and taking it again. *)
Lemma window_later win d x win' d' :
  Forall calm win -> window_step win (set_drv x (upper_unlock d)) = (win', d') ->
  later (-1) d d' /\ later 0 d (upper_lock d') /\ Forall calm win'.
Proof.
  intros Hc Hw. destruct (later_window _ _ _ _ Hc Hw) as [[H1 H2] Hc'].
  simpl in H1. split; [split; [lia|exact H2]|]. split; [|done]. split; [simpl; lia|exact H2].
Qed.

Lemma interval_batch_balanced win interval ret mi ml d :
  Forall calm win -> pass_ok d (interval_batch ops win uid interval ret mi ml d).
Proof.
  intros Hc. unfold interval_batch.
  destruct (op_batch ops) as [batch|]; [|by apply (pass_ok_commit _ (set_state _))].
  destruct (negb _ || _); [|by apply (pass_ok_commit _ (set_state _))].
  destruct (batch _ _) as [[r ml1] x]. destruct (window_step win _) as [win1 d1] eqn:Ew.
  destruct (window_later _ _ _ _ _ Hc Ew) as (_ & Hl & Hc').
  destruct (negb _); [by split|]. eapply pass_ok_trans; [exact Hl|].
  destruct (0 <=? r); [|by apply (pass_ok_commit _ (set_state _))].
  by apply (pass_ok_commit _ (fun d => set_state (set_min_interval mi) (set_state (set_min_latency ml1) d))).
Qed.

Lemma interval_pass_balanced win interval ret mi ml d :
  Forall calm win -> pass_ok d (interval_pass ops win uid interval ret mi ml d).
Proof.
  intros Hc. unfold interval_pass. destruct (min_over _ _ _ _) as [mi1 ml1].
  destruct (op_set_interval ops) as [set_interval|]; [|by apply (pass_ok_commit _ (set_state _))].
  destruct (negb _ && _); [|by apply interval_batch_balanced].
  destruct (set_interval _ _) as [[r mi2] x]. destruct (window_step win _) as [win1 d1] eqn:Ew.
  destruct (window_later _ _ _ _ _ Hc Ew) as (Hu & Hl & Hc').
  destruct (r <? 0); [done|]. destruct (mi1 <? mi2); [done|]. destruct (negb _); [by split|].
  eapply pass_ok_trans; [exact Hl|]. by apply interval_batch_balanced.
Qed.

Lemma latency_pass_balanced win latency ret ml d :
  Forall calm win -> pass_ok d (latency_pass ops win uid latency ret ml d).
Proof.
  intros Hc. unfold latency_pass. set (ml1 := if (_ : bool) then 0 else _).
  destruct (ml1 =? _).
  { apply (later_trans 0 (-1) _ (upd_user uid (set_u_latency latency) d)); [apply later_map|].
    by apply later_users. }
  destruct (op_batch ops) as [batch|]; [|by apply (pass_ok_commit _ (set_state _))].
  destruct (batch _ _) as [[r ml2] x]. destruct (window_step win _) as [win1 d1] eqn:Ew.
  destruct (window_later _ _ _ _ _ Hc Ew) as (Hu & Hl & Hc').
  destruct (r <? 0); [done|]. destruct (negb _); [by split|].
  eapply pass_ok_trans; [exact Hl|]. by apply (pass_ok_commit _ (set_state _)).
Qed.

Lemma latency_pass_again win latency ret ml d ret' mi' ml' win' d' :
  latency_pass ops win uid latency ret ml d = PAgain ret' mi' ml' win' d' ->
  (length win' < length win)%nat.
Proof.
  unfold latency_pass. set (ml1 := if (_ : bool) then 0 else _). destruct (ml1 =? _); [done|].
  destruct (op_batch ops) as [batch|]; [|done]. destruct (batch _ _) as [[r ml2] x].
  destruct (window_step win _) as [win1 d1] eqn:Ew. destruct (r <? 0); [done|].
  destruct (negb _) eqn:Ec; [|done]. intros [= _ _ _ <- _].
  apply (window_step_same (fun d => min_latency (state (upper d))) _ _ _ _ Ew).
  simpl in *. intros Heq. rewrite Heq in Ec. simpl in Ec. by rewrite Z.eqb_refl in Ec.
Qed.

Lemma interval_loop_balanced fuel win interval ret mi ml d :
  Forall calm win -> (length win < fuel)%nat ->
  exists r d', interval_loop ops fuel win uid interval ret mi ml d = Some (r, d') /\ later (-1) d d'.
Proof.
  revert win ret mi ml d. induction fuel as [|fuel IH]; intros win ret mi ml d Hc Hf; [lia|].
  simpl. pose proof (interval_pass_balanced win interval ret mi ml d Hc) as Hp.
  destruct (interval_pass _ _ _ _ _ _ _ _) as [r d1|r mi1 ml1 win1 d1] eqn:E; simpl in Hp.
  - by exists r, d1.
  - apply interval_pass_again in E. destruct Hp as [Hl Hc1].
    destruct (IH win1 r mi1 ml1 d1 Hc1 ltac:(lia)) as (r2 & d2 & E2 & Hl2).
    exists r2, d2. split; [done|]. apply (later_trans 0 (-1) _ _ _ Hl Hl2).
Qed.

Lemma latency_loop_balanced fuel win latency ret ml d :
  Forall calm win -> (length win < fuel)%nat ->
  exists r d', latency_loop ops fuel win uid latency ret ml d = Some (r, d') /\ later (-1) d d'.
Proof.
  revert win ret ml d. induction fuel as [|fuel IH]; intros win ret ml d Hc Hf; [lia|].
  simpl. pose proof (latency_pass_balanced win latency ret ml d Hc) as Hp.
  destruct (latency_pass _ _ _ _ _ _ _) as [r d1|r mi1 ml1 win1 d1] eqn:E; simpl in Hp.
  - by exists r, d1.
  - apply latency_pass_again in E. destruct Hp as [Hl Hc1].
    destruct (IH win1 r ml1 d1 Hc1 ltac:(lia)) as (r2 & d2 & E2 & Hl2).
    exists r2, d2. split; [done|]. apply (later_trans 0 (-1) _ _ _ Hl Hl2).
Qed.

Lemma update_interval_balanced win interval d :
  Forall calm win -> is_Some (get_user uid d) ->
  exists r d', sensor_update_interval ops win uid interval d = Some (r, d') /\ later 0 d d'.
Proof.
  intros Hc [u Hu]. unfold sensor_update_interval. rewrite Hu. cbn [mbind option_bind].
  destruct (interval =? _); [by exists 0, d; split; [|apply later_users; [lia|]]|].
  destruct (interval_loop_balanced (S (length win)) win interval 0 interval
    (if interval =? UINT32_MAX then UINT32_MAX else u_latency (ustate u)) (upper_lock d) Hc)
    as (r & d' & E & Hl); [lia|].
  exists r, d'. split; [done|].
  apply (later_trans 1 (-1) d (upper_lock d)); [by apply later_users|done].
Qed.

Lemma update_latency_balanced win latency d :
  Forall calm win -> is_Some (get_user uid d) ->
  exists r d', sensor_update_latency ops win uid latency d = Some (r, d') /\ later 0 d d'.
Proof.
  intros Hc [u Hu]. unfold sensor_update_latency. rewrite Hu. cbn [mbind option_bind].
  destruct (latency =? _); [by exists 0, d; split; [|apply later_users; [lia|]]|].
  destruct (_ =? UINT32_MAX); [eexists _, _; split; [done|apply later_map]|].
  destruct (latency_loop_balanced (S (length win)) win latency 0 latency (upper_lock d) Hc)
    as (r & d' & E & Hl); [lia|].
  exists r, d'. split; [done|].
  apply (later_trans 1 (-1) d (upper_lock d)); [by apply later_users|done].
Qed.

Lemma update_nonwakeup_balanced nw d :
  is_Some (get_user uid d) -> exists d', sensor_update_nonwakeup ops uid nw d = Some d' /\ later 0 d d'.
Proof.
  intros [u Hu]. unfold sensor_update_nonwakeup. rewrite Hu. cbn [mbind option_bind].
  destruct (eqb nw _); [by exists d; split; [|apply later_users; [lia|]]|].
  set (d1 := upd_user uid (set_u_nonwakeup nw) d).
  assert (later 0 d d1) as H1 by apply later_map.
  destruct (eqb _ _); eexists; (split; [done|]); apply (later_trans 0 0 d d1); try done.
  - by apply later_users; [simpl; lia|].
  - destruct (op_set_nonwakeup ops); by apply later_users; [simpl; lia|].
Qed.

Lemma driver_op_later f d : later 0 d (snd (driver_op f d)).
Proof. unfold driver_op. destruct f as [f|]; [destruct (f _)|]; by apply later_users; [simpl; lia|]. Qed.

Lemma later_cond k (b : bool) d0 d1 d2 :
  later k d0 d1 -> later k d0 d2 -> later k d0 (if b then d1 else d2).
Proof. by destruct b. Qed.
End balance.

(** The calls on a file other than [sensor_read] and [sensor_write]. *)
Inductive sensor_call {LS : Type} :=
| COpen (mem : bool) (uid : Z)
| CClose (win1 win2 : list (dev LS -> dev LS))
| CPoll (f : pollfd) (setup : bool)
| CIoctl (win : list (dev LS -> dev LS)) (cmd : sensor_cmd)
| CNotify.
Arguments sensor_call LS : clear implicits.

Definition sensor_call_exec {LS} (ops : sensor_ops_s LS) (filep : file) (c : sensor_call LS)
    (d : dev LS) : option (Z * dev LS) :=
  match c with
  | COpen mem uid => Some (sensor_open ops mem uid filep d)
  | CClose win1 win2 => sensor_close ops win1 win2 filep d
  | CPoll f setup => sensor_poll ops filep f setup d
  | CIoctl win cmd => '(r, _, d) ← sensor_ioctl ops win filep cmd d; Some (r, d)
  | CNotify => Some (0, sensor_notify_event d)
  end.

(** The windows of a call. *)
Definition call_windows {LS} (c : sensor_call LS) : list (dev LS -> dev LS) :=
  match c with
  | CClose win1 win2 => win1 ++ win2
  | CIoctl win _ => win
  | _ => []
  end.

Lemma open_lock {LS} (ops : sensor_ops_s LS) mem uid filep d :
  lock (upper (snd (sensor_open ops mem uid filep d))) = lock (upper d).
Proof.
  unfold sensor_open. destruct mem; cbn [negb]; [|simpl; lia].
  set (p1 := match op_open ops with Some _ => _ | None => _ end).
  assert (lock (upper (snd p1)) = lock (upper d) + 1) as H1.
  { unfold p1. destruct (op_open ops) as [f|]; [|done]. destruct (f_direct filep); [done|].
    by destruct (f _). }
  destruct p1 as [r1 d1]. simpl in H1. destruct (r1 <? 0); [simpl; lia|].
  set (p2 := match op_activate ops with Some _ => _ | None => _ end).
  assert (lock (upper (snd p2)) = lock (upper d) + 1) as H2.
  { unfold p2. destruct (op_activate ops) as [f|]; [|done]. destruct (_ && _); [|done].
    by destruct (f _). }
  destruct p2 as [r2 d2]. simpl in H2. destruct (r2 <? 0).
  - destruct (op_close ops); simpl; lia.
  - destruct (f_rdok filep), (f_wrok filep), (f_persist filep); simpl; lia.
Qed.

Lemma close_lock {LS} (ops : sensor_ops_s LS) win1 win2 filep d :
  Forall (calm (f_priv filep)) win1 -> Forall (calm (f_priv filep)) win2 ->
  is_Some (get_user (f_priv filep) d) ->
  exists d', sensor_close ops win1 win2 filep d = Some (0, d') /\ lock (upper d') = lock (upper d).
Proof.
  intros H1 H2 Hu. unfold sensor_close.
  destruct (update_interval_balanced ops _ win1 UINT32_MAX d H1 Hu) as (r1 & d1 & -> & L1 & U1).
  cbn [mbind option_bind]. specialize (U1 Hu).
  destruct (update_latency_balanced ops _ win2 UINT32_MAX d1 H2 U1) as (r2 & d2 & -> & L2 & U2).
  cbn [mbind option_bind]. specialize (U2 U1).
  destruct (update_nonwakeup_balanced ops _ true d2 U2) as (d3 & -> & L3 & _).
  cbn [mbind option_bind]. eexists. split; [done|]. simpl.
  destruct (op_close ops), (f_direct filep), (f_rdok filep), (op_activate ops), (f_wrok filep);
    simpl; try destruct (_ =? 0); simpl; lia.
Qed.

Lemma ioctl_lock {LS} (ops : sensor_ops_s LS) win filep cmd d :
  Forall (calm (f_priv filep)) win -> is_Some (get_user (f_priv filep) d) ->
  exists r o d', sensor_ioctl ops win filep cmd d = Some (r, o, d') /\
    lock (upper d') = lock (upper d).
Proof.
  intros Hw Hu. destruct Hu as [u Hu]. unfold sensor_ioctl.
  assert (forall f, exists r o d', (let '(ret, d) := driver_op f d in Some (ret, OutNone, d)) =
    Some (r, o, d') /\ lock (upper d') = lock (upper d)) as Hdrv.
  { intros f. pose proof (driver_op_later (f_priv filep) f d) as [H _].
    destruct (driver_op f d) as [r d']. eexists _, _, _. split; [done|]. simpl in H. lia. }
  assert (get_user (f_priv filep) (upper_lock d) = Some u) as Hu' by exact Hu.
  destruct cmd; try apply Hdrv.
  - eexists _, _, _. split; [done|]. simpl. lia.
  - cbv zeta. rewrite Hu'. eexists _, _, _. split; [done|]. simpl. lia.
  - destruct (update_interval_balanced ops (f_priv filep) win (if arg =? 0 then UINT32_MAX else arg) d)
      as (r & d' & -> & L & _); [done|by eexists|].
    eexists _, _, _. split; [done|]. lia.
  - destruct (update_latency_balanced ops (f_priv filep) win arg d)
      as (r & d' & -> & L & _); [done|by eexists|].
    eexists _, _, _. split; [done|]. lia.
  - eexists _, _, _. split; [done|]. simpl. lia.
  - destruct (update_nonwakeup_balanced ops (f_priv filep) arg d) as (d' & -> & L & _); [by eexists|].
    eexists _, _, _. split; [done|]. lia.
  - unfold sensor_set_buffer_number. destruct (circbuf_is_init _); [|destruct (_ <=? arg)];
      (eexists _, _, _; split; [done|]; simpl; lia).
  - cbv zeta. rewrite Hu'. eexists _, _, _. split; [done|]. simpl. lia.
  - cbv zeta. rewrite Hu'. eexists _, _, _. split; [done|]. simpl. lia.
  - unfold sensor_flush. destruct (_ =? 0); [by eexists _, _, _|].
    pose proof (driver_op_later (f_priv filep) (op_flush ops) d) as [H _].
    destruct (driver_op _ d) as [r d']. simpl in H.
    destruct (0 <=? r), (r =? - ENOTSUP); (eexists _, _, _; split; [done|]; simpl; lia).
  - destruct (op_control ops) as [f|]; [destruct (f _ _ _)|]; by eexists _, _, _.
Qed.


Definition demo_file : file := mk_file true false false false false false 1.


(** C37: a read without a buffer on a device whose driver has [fetch] returns
    [-EINVAL] and keeps the lock: every later call of another task waits for
    ever. *)
Theorem sensor_read_null_keeps_lock {LS} (ops : sensor_ops_s LS) fetch filep len d u :
  op_fetch ops = Some fetch -> get_user (f_priv filep) d = Some u -> len <> 0 ->
  exists d', sensor_read ops filep false len d = Some (RRet (- EINVAL) [], d') /\
    lock (upper d') = lock (upper d) + 1.
Proof.
  intros Hf Hu Hl. unfold sensor_read. replace (len =? 0) with false by (symmetry; lia).
  change (get_user (f_priv filep) (upper_lock d)) with (get_user (f_priv filep) d).
  rewrite Hu. cbn [mbind option_bind]. rewrite Hf. by eexists.
Qed.

Definition fetch_ops : sensor_ops_s Z :=
  mk_ops None None None None None (Some (fun len x => (len, [], x))) None None None None None None None.

Lemma sensor_read_null_keeps_lock_witness :
  exists d', sensor_read fetch_ops demo_file false 4 two_users = Some (RRet (- EINVAL) [], d') /\
    lock (upper d') = lock (upper two_users) + 1.
Proof.
  apply (sensor_read_null_keeps_lock fetch_ops (fun len x => (len, [], x)) demo_file 4 two_users (demo_user 10));
    [reflexivity|reflexivity|lia].
Defined.
