(* ===== verification/Topic.v ===== *)
(** Topics: the samples published and what each subscriber has read.

    Relates the device of Sensor.v, with its two circular buffers, generations
    and per-user positions, to a history of samples and a position per
    subscriber, and shows that every sequence of opening, publishing, asking,
    reading and closing behaves as that specification says. *)

From S2P Require Import Prelude.
From stdpp Require Import list sorting gmap.
From S2P Require Import Circbuf Poll Sensor.
Local Open Scope Z_scope.

(** ** A topic: the samples published and what a subscriber has read *)

Section topic.
Context {LS : Type} (ops : sensor_ops_s LS).
Implicit Types (d : dev LS) (u : sensor_user_s) (hist : list (list Z)) (gens : list Z).

Definition gen_records (gens : list Z) : list (list Z) := map (le_bytes 4) gens.

Lemma gen_records_ok gens : rec_ok 4 (gen_records gens).
Proof.
  unfold gen_records, rec_ok. induction gens as [|g gens IH]; cbn [map]; constructor; [|done].
  by rewrite length_le_bytes.
Qed.

(** The generation of the latest sample. *)
Definition last_gen (gens : list Z) : Z := default 0 (last gens).

(** The device after the samples [hist] were published with the generations
    [gens]: the buffers hold the last [nbuffer] of them. *)
Record topic_ok (d : dev LS) (hist : list (list Z)) (gens : list Z) : Prop := {
  to_len : length gens = length hist;
  to_esize : 0 < esize (state (upper d));
  to_nb : 0 < nbuffer (lower d);
  to_small : nbuffer (lower d) * esize (state (upper d)) < 2 ^ 31 /\ nbuffer (lower d) * 4 < 2 ^ 31;
  to_gen : generation (state (upper d)) = last_gen gens;
  to_sorted : StronglySorted Z.lt gens;
  to_range : Forall (fun g => 0 < g < 2 ^ 31) gens;
  to_bufs :
    match hist with
    | [] => buffer (upper d) = mk_circ None 0 0 0 false /\ timing (upper d) = mk_circ None 0 0 0 false
    | _ => rec_abs (esize (state (upper d))) (buffer (upper d)) (Z.to_nat (nbuffer (lower d))) hist /\
           rec_abs 4 (timing (upper d)) (Z.to_nat (nbuffer (lower d))) (gen_records gens)
    end
}.

(** A subscriber without an interval that has the samples from number [p] on
    still to read. *)
Record user_at (u : sensor_user_s) (p : nat) (gens : list Z) : Prop := {
  ua_pos : bufferpos u = Z.of_nat p;
  ua_le : (p <= length gens)%nat;
  ua_interval : u_interval (ustate u) = UINT32_MAX;
  ua_gen : 0 <= u_generation (ustate u) <= last_gen gens;
  ua_old : Forall (fun g => g <= u_generation (ustate u)) (take p gens);
  ua_new : Forall (fun g => u_generation (ustate u) < g) (drop p gens)
}.

Lemma sorted_lookup gens i j gi gj :
  StronglySorted Z.lt gens -> gens !! i = Some gi -> gens !! j = Some gj -> (i < j)%nat -> gi < gj.
Proof.
  intros Hs. revert i j. induction Hs as [|g gens Hs IH Hf]; intros i j Hi Hj Hij; [done|].
  destruct j as [|j]; [lia|]. destruct i as [|i]; simpl in *.
  - injection Hi as ->. rewrite Forall_forall in Hf. apply Hf.
    by eapply list_elem_of_lookup_2.
  - eapply IH; [exact Hi|exact Hj|lia].
Qed.

Lemma last_gen_lookup gens : gens <> [] -> gens !! (length gens - 1)%nat = Some (last_gen gens).
Proof.
  intros Hne. unfold last_gen. rewrite last_lookup.
  destruct (lookup_lt_is_Some_2 gens (length gens - 1)) as [g Hg].
  { destruct gens; [done|simpl; lia]. }
  replace (pred (length gens)) with (length gens - 1)%nat by lia. by rewrite Hg.
Qed.

Lemma last_gen_range gens : Forall (fun g => 0 < g < 2 ^ 31) gens -> 0 <= last_gen gens < 2 ^ 31.
Proof.
  intros Hf. destruct (decide (gens = [])) as [->|Hne]; [done|].
  rewrite Forall_forall in Hf. pose proof (last_gen_lookup gens Hne) as Hl.
  apply list_elem_of_lookup_2 in Hl. specialize (Hf _ Hl). lia.
Qed.

(** The generations after that of a subscriber are those of the samples it has
    not read. *)
Lemma user_at_lt u p gens i g :
  user_at u p gens -> gens !! i = Some g -> u_generation (ustate u) < g <-> (p <= i)%nat.
Proof.
  intros Hu Hg. split.
  - intros Hlt. destruct (decide (p <= i)%nat) as [|Hn]; [done|exfalso].
    pose proof (ua_old _ _ _ Hu) as Hf. rewrite Forall_forall in Hf.
    assert (g ∈ take p gens) as Hin; [|specialize (Hf g Hin); lia].
    apply (list_elem_of_lookup_2 _ i). by rewrite lookup_take_lt by lia.
  - intros Hp. pose proof (ua_new _ _ _ Hu) as Hf. rewrite Forall_forall in Hf. apply Hf.
    apply (list_elem_of_lookup_2 _ (i - p)). rewrite lookup_drop.
    by replace (p + (i - p))%nat with i by lia.
Qed.

(** The device has news for a subscriber iff it has samples to read. *)
Lemma is_updated_spec d hist gens u p :
  topic_ok d hist gens -> user_at u p gens ->
  sensor_is_updated d u = (p <? length gens)%nat.
Proof.
  intros Ht Hu. unfold sensor_is_updated. rewrite (to_gen _ _ _ Ht), (ua_interval _ _ _ Hu).
  pose proof (last_gen_range _ (to_range _ _ _ Ht)) as Hr. pose proof (ua_gen _ _ _ Hu) as Hg.
  rewrite s32_small by lia. pose proof (ua_le _ _ _ Hu) as Hle.
  destruct (decide (gens = [])) as [->|Hne].
  { simpl in *. replace (p <? 0)%nat with false by (symmetry; apply Nat.ltb_ge; lia).
    unfold last_gen in *. simpl in *. by replace (_ <=? 0) with true by (symmetry; lia). }
  pose proof (user_at_lt _ _ _ _ _ Hu (last_gen_lookup gens Hne)) as Hiff.
  assert (0 < length gens)%nat by (destruct gens; [done|simpl; lia]).
  destruct (Nat.ltb_spec p (length gens)), (Z.leb_spec (last_gen gens - u_generation (ustate u)) 0);
    done || lia.
Qed.

(** The generation stored for sample [p]. *)
Lemma timing_peek d hist gens p :
  topic_ok d hist gens -> hist <> [] ->
  (length gens - Z.to_nat (nbuffer (lower d)) <= p < length gens)%nat ->
  exists g, gens !! p = Some g /\
    circbuf_peekat (Z.of_nat p * 4) 4 (timing (upper d)) = Some (le_bytes 4 g) /\
    le_val (le_bytes 4 g) = g.
Proof.
  intros Ht Hne Hp. destruct (lookup_lt_is_Some_2 gens p) as [g Hg]; [lia|].
  exists g. split; [done|].
  assert (rec_abs 4 (timing (upper d)) (Z.to_nat (nbuffer (lower d))) (gen_records gens)) as Hrec.
  { pose proof (to_bufs _ _ _ Ht) as Hb. destruct hist; [done|]. apply Hb. }
  assert (length (gen_records gens) = length gens) as Hlg by apply length_map.
  pose proof (rec_peekat 4 ltac:(lia) _ _ _ p 1 Hrec) as E. rewrite Hlg in E.
  change (Z.of_nat 1 * 4) with 4 in E. rewrite E by lia. split.
  - unfold gen_records. rewrite skipn_map, firstn_map.
    rewrite (drop_S _ g p) by done. cbn [map take concat]. by rewrite app_nil_r.
  - apply le_val_bytes. pose proof (to_range _ _ _ Ht) as Hr. rewrite Forall_forall in Hr.
    specialize (Hr g (list_elem_of_lookup_2 _ _ _ Hg)). simpl. lia.
Qed.

(** Where a subscriber stands once its generation is that of sample [p]. *)
Lemma user_at_generation gens u p g :
  StronglySorted Z.lt gens -> Forall (fun g => 0 < g < 2 ^ 31) gens -> gens !! p = Some g ->
  u_interval (ustate u) = UINT32_MAX -> bufferpos u = Z.of_nat (S p) ->
  u_generation (ustate u) = g -> user_at u (S p) gens.
Proof.
  intros Hs Hr Hg Hi Hp Hu. pose proof (lookup_lt_Some _ _ _ Hg) as Hlt.
  assert (gens <> []) as Hne by (intros ->; simpl in Hlt; lia).
  pose proof (last_gen_lookup gens Hne) as Hlast.
  assert (0 < g < 2 ^ 31) as Hgr.
  { rewrite Forall_forall in Hr. by apply Hr, (list_elem_of_lookup_2 _ p). }
  constructor; try done; rewrite ?Hu.
  - split; [lia|]. destruct (decide (p = length gens - 1)%nat) as [->|Hx]; [by rewrite Hg in Hlast; injection Hlast as ->|].
    apply Z.lt_le_incl. eapply (sorted_lookup gens p (length gens - 1)); eauto. lia.
  - apply Forall_forall. intros x Hx. apply list_elem_of_lookup in Hx as [i Hx].
    apply lookup_take_Some in Hx as [Hx Hi'].
    destruct (decide (i = p)) as [->|]; [rewrite Hg in Hx; injection Hx as ->; lia|].
    apply Z.lt_le_incl. eapply (sorted_lookup gens i p); eauto. lia.
  - apply Forall_forall. intros x Hx. apply list_elem_of_lookup in Hx as [i Hx].
    rewrite lookup_drop in Hx. eapply (sorted_lookup gens p (S p + i)); eauto. lia.
Qed.

(** The number of the oldest sample still in the buffer. *)
Definition oldest (d : dev LS) (gens : list Z) : nat :=
  (length gens - Z.to_nat (nbuffer (lower d)))%nat.

Lemma topic_timing d hist gens :
  topic_ok d hist gens -> hist <> [] ->
  tail (timing (upper d)) = Z.of_nat (oldest d gens) * 4 /\
  head (timing (upper d)) = zlen gens * 4.
Proof.
  intros Ht Hne. pose proof (to_bufs _ _ _ Ht) as Hb. destruct hist as [|x hist]; [done|].
  destruct Hb as [_ Hb]. pose proof (rec_tail 4 ltac:(lia) _ _ _ Hb) as Htl.
  pose proof (ra_head 4 _ _ _ Hb) as Hh. rewrite length_lastn in Htl.
  unfold gen_records in Htl, Hh. rewrite length_map in Htl, Hh. unfold oldest. lia.
Qed.

(** Where a subscriber stands once its generation is just below that of sample
    [p]. *)
Lemma user_at_before gens u p g :
  StronglySorted Z.lt gens -> Forall (fun g => 0 < g < 2 ^ 31) gens -> gens !! p = Some g ->
  u_interval (ustate u) = UINT32_MAX -> bufferpos u = Z.of_nat p ->
  u_generation (ustate u) = g - 1 -> user_at u p gens.
Proof.
  intros Hs Hr Hg Hi Hp Hu. pose proof (lookup_lt_Some _ _ _ Hg) as Hlt.
  assert (gens <> []) as Hne by (intros ->; simpl in Hlt; lia).
  pose proof (last_gen_lookup gens Hne) as Hlast.
  assert (0 < g < 2 ^ 31) as Hgr.
  { rewrite Forall_forall in Hr. by apply Hr, (list_elem_of_lookup_2 _ p). }
  constructor; try done; rewrite ?Hu; [lia|..].
  - split; [lia|]. destruct (decide (p = length gens - 1)%nat) as [->|Hx].
    { rewrite Hg in Hlast. injection Hlast as ->. lia. }
    pose proof (sorted_lookup gens p _ g _ Hs Hg Hlast ltac:(lia)). lia.
  - apply Forall_forall. intros x Hx. apply list_elem_of_lookup in Hx as [i Hx].
    apply lookup_take_Some in Hx as [Hx Hi'].
    pose proof (sorted_lookup gens i p x g Hs Hx Hg Hi'). lia.
  - apply Forall_forall. intros x Hx. apply list_elem_of_lookup in Hx as [i Hx].
    rewrite lookup_drop in Hx. destruct i as [|i].
    + rewrite Nat.add_0_r, Hg in Hx. injection Hx as ->. lia.
    + pose proof (sorted_lookup gens _ _ g x Hs Hg Hx ltac:(lia)). lia.
Qed.

(** A subscriber that was overtaken continues with the oldest sample. *)
Lemma catch_up_spec d hist gens u p :
  topic_ok d hist gens -> hist <> [] -> user_at u p gens ->
  exists u', sensor_catch_up d u = Some u' /\ user_at u' (Nat.max p (oldest d gens)) gens.
Proof.
  intros Ht Hne Hu. pose proof (to_len _ _ _ Ht) as Hl. pose proof (to_nb _ _ _ Ht) as Hnb.
  assert (0 < length gens)%nat by (destruct hist; [done|simpl in *; lia]).
  destruct (topic_timing d hist gens Ht Hne) as [Htl Hhd].
  destruct (timing_peek d hist gens (oldest d gens) Ht Hne) as (g & Hg & Ep & Ev);
    [unfold oldest; lia|].
  unfold sensor_catch_up, circbuf_peek. rewrite Htl. change TIMING_BUF_ESIZE with 4. rewrite Ep.
  cbn [mbind option_bind]. unfold read_u32. rewrite length_le_bytes. simpl (4 =? 4)%nat. cbv iota.
  rewrite Ev. cbn [mbind option_bind].
  pose proof (to_range _ _ _ Ht) as Hr. pose proof Hr as Hgr. rewrite Forall_forall in Hgr.
  specialize (Hgr g (list_elem_of_lookup_2 _ _ _ Hg)).
  pose proof (ua_gen _ _ _ Hu) as Hug. pose proof (last_gen_range _ Hr) as Hlr.
  rewrite s32_small by lia. pose proof (user_at_lt _ _ _ _ _ Hu Hg) as Hiff.
  destruct (Z.ltb_spec 0 (g - u_generation (ustate u))) as [Hlt|Hge].
  - rewrite Nat.max_r by (apply Hiff; lia). simpl (ustate (set_bufferpos _ u)).
    rewrite (ua_interval _ _ _ Hu). simpl (UINT32_MAX =? UINT32_MAX). cbv iota.
    eexists. split; [done|]. rewrite u32_small by lia.
    eapply user_at_before; [apply Ht|apply Ht|exact Hg|apply (ua_interval _ _ _ Hu)| |done].
    simpl. by rewrite Z.div_mul.
  - exists u. split; [done|]. rewrite Nat.max_l; [done|].
    destruct (decide (p <= oldest d gens)%nat) as [Hp|]; [|lia]. apply Hiff in Hp. lia.
Qed.

(** How many samples a read takes. *)
Lemma sample_count e len k :
  0 < e -> 0 <= len -> 0 <= k ->
  (if len <? k * e then len / e else k) = Z.of_nat (Nat.min (Z.to_nat k) (Z.to_nat (len / e))).
Proof.
  intros He Hl Hk. pose proof (Z.div_pos len e Hl He).
  destruct (Z.ltb_spec len (k * e)) as [Hc|Hc].
  - assert (len / e < k) by (apply Z.div_lt_upper_bound; lia). lia.
  - assert (k <= len / e) by (apply Z.div_le_lower_bound; lia). lia.
Qed.

Lemma topic_recs d hist gens :
  topic_ok d hist gens -> hist <> [] ->
  rec_abs (esize (state (upper d))) (buffer (upper d)) (Z.to_nat (nbuffer (lower d))) hist /\
  rec_abs 4 (timing (upper d)) (Z.to_nat (nbuffer (lower d))) (gen_records gens).
Proof. intros Ht Hne. pose proof (to_bufs _ _ _ Ht) as Hb. by destruct hist. Qed.

(** A subscriber with unread samples gets them from the oldest on that is still
    there, as many as the buffer of the caller holds. *)
Lemma do_samples_spec d hist gens u p len :
  topic_ok d hist gens -> user_at u p gens -> (p < length gens)%nat ->
  esize (state (upper d)) <= len < 2 ^ 32 ->
  let p' := Nat.max p (oldest d gens) in
  let n := Nat.min (length gens - p') (Z.to_nat (len / esize (state (upper d)))) in
  let l := concat (take n (drop p' hist)) in
  exists u', sensor_do_samples d u true len = Some (l, zlen l, u') /\ user_at u' (p' + n) gens.
Proof.
  intros Ht Hu Hp Hlen p' n l. pose proof (to_len _ _ _ Ht) as Hl.
  pose proof (to_nb _ _ _ Ht) as Hnb. pose proof (to_esize _ _ _ Ht) as Hes.
  set (e := esize (state (upper d))) in *.
  assert (hist <> []) as Hne by (intros ->; simpl in *; lia).
  destruct (topic_timing d hist gens Ht Hne) as [Htl Hhd].
  destruct (catch_up_spec d hist gens u p Ht Hne Hu) as (u1 & E1 & Hu1).
  unfold sensor_do_samples. rewrite E1. cbn [mbind option_bind]. fold e p' in Hu1 |- *.
  assert (p' < length gens)%nat as Hp' by (unfold p', oldest; lia).
  assert (length gens - Z.to_nat (nbuffer (lower d)) <= p')%nat as Hold by (unfold p', oldest; lia).
  destruct (topic_recs d hist gens Ht Hne) as [Hrb Hrt]. fold e in Hrb.
  pose proof (ra_bound e _ _ _ Hrb) as Hbb. pose proof (ra_bound 4 _ _ _ Hrt) as Hbt.
  unfold gen_records in Hbt. rewrite length_map in Hbt.
  rewrite Hhd, (ua_pos _ _ _ Hu1). unfold TIMING_BUF_ESIZE. rewrite Z.div_mul by lia.
  rewrite (u32_small (zlen gens - Z.of_nat p')) by lia.
  assert (Hlen1 : 1 <= len / e) by (apply Z.div_le_lower_bound; lia).
  rewrite (u32_small ((zlen gens - Z.of_nat p') * e)) by nia.
  rewrite sample_count by lia.
  replace (Nat.min (Z.to_nat _) _) with n by (unfold n; lia).
  assert (1 <= n)%nat as Hn1 by (unfold n; lia).
  assert (p' + n <= length gens)%nat as Hpn by (unfold n; lia).
  rewrite (u32_small (Z.of_nat n * e)) by nia.
  rewrite (ua_interval _ _ _ Hu1). simpl (UINT32_MAX =? UINT32_MAX). cbv iota.
  rewrite (u32_small (Z.of_nat p' * e)) by nia.
  rewrite (rec_peekat e Hes _ _ hist p' n Hrb) by (unfold p', oldest; lia).
  cbn [mbind option_bind]. cbn [bufferpos set_bufferpos].
  rewrite (u32_small (Z.of_nat p' + Z.of_nat n)) by lia.
  rewrite (u32_small (Z.of_nat p' + Z.of_nat n - 1)) by lia.
  rewrite (u32_small ((Z.of_nat p' + Z.of_nat n - 1) * 4)) by lia.
  destruct (timing_peek d hist gens (p' + n - 1) Ht Hne) as (g & Hg & Ep & Ev);
    [lia|].
  replace (Z.of_nat p' + Z.of_nat n - 1) with (Z.of_nat (p' + n - 1)) by lia.
  unfold peek_u32, TIMING_BUF_ESIZE. rewrite Ep. cbn [mbind option_bind].
  rewrite length_le_bytes. simpl (4 =? 4)%nat. cbv iota. rewrite Ev.
  eexists. split; [reflexivity|].
  replace (p' + n)%nat with (S (p' + n - 1)) by lia.
  eapply user_at_generation; [apply Ht|apply Ht|exact Hg|..]; simpl; [apply Hu1|lia|done].
Qed.

Lemma topic_frame d d' hist gens :
  state (upper d') = state (upper d) -> timing (upper d') = timing (upper d) ->
  buffer (upper d') = buffer (upper d) -> nbuffer (lower d') = nbuffer (lower d) ->
  topic_ok d hist gens -> topic_ok d' hist gens.
Proof. intros H1 H2 H3 H4 []. constructor; rewrite ?H1, ?H2, ?H3, ?H4; done. Qed.

Lemma get_user_map uid f d : get_user uid (map_users f d) = f uid <$> get_user uid d.
Proof. apply assoc_map_users. Qed.

Lemma get_user_upd uid f d : get_user uid (upd_user uid f d) = f <$> get_user uid d.
Proof. unfold upd_user. rewrite get_user_map. by rewrite Z.eqb_refl. Qed.

Lemma get_user_upd_ne uid v f d : v <> uid -> get_user v (upd_user uid f d) = get_user v d.
Proof.
  intros Hv. unfold upd_user. rewrite get_user_map.
  replace (v =? uid) with false by (symmetry; lia). by destruct (get_user v d).
Qed.

Hypothesis Hfetch : op_fetch ops = None.

(** A read of a device that is not persistent. *)
Lemma sensor_read_spec d hist gens filep u p len :
  topic_ok d hist gens -> persist (lower d) = false ->
  get_user (f_priv filep) d = Some u -> user_at u p gens ->
  esize (state (upper d)) <= len < 2 ^ 32 ->
  let p' := Nat.max p (oldest d gens) in
  let n := Nat.min (length gens - p') (Z.to_nat (len / esize (state (upper d)))) in
  let l := concat (take n (drop p' hist)) in
  exists d' u', get_user (f_priv filep) d' = Some u' /\ topic_ok d' hist gens /\
    lower d' = lower d /\ state (upper d') = state (upper d) /\
    timing (upper d') = timing (upper d) /\ buffer (upper d') = buffer (upper d) /\
    lock (upper d') = lock (upper d) /\
    (forall v, v <> f_priv filep -> get_user v d' = get_user v d) /\
    if (p <? length gens)%nat
    then sensor_read ops filep true len d = Some (RRet (zlen l) l, d') /\ user_at u' (p' + n) gens
    else sensor_read ops filep true len d = Some (RRet (- ENODATA) [], d') /\ user_at u' p gens.
Proof.
  intros Ht Hper Hget Hu Hlen p' n l. pose proof (to_esize _ _ _ Ht) as Hes.
  unfold sensor_read. replace (len =? 0) with false by (symmetry; lia).
  set (d1 := upper_lock d).
  assert (topic_ok d1 hist gens) as Ht1 by (by eapply (topic_frame d)).
  change (get_user (f_priv filep) d1) with (get_user (f_priv filep) d). rewrite Hget.
  cbn [mbind option_bind]. rewrite Hfetch. change (buffer (upper d1)) with (buffer (upper d)).
  assert (circbuf_is_empty (buffer (upper d)) = true -> hist = []) as Hempty.
  { intros He. destruct hist as [|x hist]; [done|exfalso].
    destruct (to_bufs _ _ _ Ht) as [Hb _]. pose proof (cb_used _ _ (ra_abs _ _ _ _ Hb)) as Hused.
    unfold circbuf_is_empty in He. rewrite Hused in He.
    rewrite (zlen_concat (esize (state (upper d)))) in He by (apply rec_ok_lastn, Hb).
    rewrite length_lastn in He. pose proof (to_nb _ _ _ Ht). simpl in He. zbool. nia. }
  destruct (circbuf_is_empty (buffer (upper d))).
  { specialize (Hempty eq_refl) as ->. pose proof (to_len _ _ _ Ht) as Hl. simpl in Hl.
    exists (upper_unlock d1), u. split; [done|]. split; [by eapply (topic_frame d)|].
    do 4 (split; [done|]). split; [simpl; lia|]. split; [done|]. rewrite Hl.
    replace (p <? 0)%nat with false by (symmetry; apply Nat.ltb_ge; lia). done. }
  rewrite (is_updated_spec d1 hist gens u p Ht1 Hu).
  destruct (Nat.ltb_spec p (length gens)) as [Hlt|Hge].
  - destruct (do_samples_spec d1 hist gens u p len Ht1 Hu Hlt Hlen) as (u' & E & Hu').
    rewrite E. cbn [mbind option_bind].
    exists (upper_unlock (upd_user (f_priv filep) (fun _ => u') d1)), u'.
    split; [|split; [by eapply (topic_frame d)|]].
    2:{ do 4 (split; [done|]). split; [simpl; lia|]. split; [|done]. intros v Hv.
        by apply (get_user_upd_ne _ v _ d1). }
    change (get_user (f_priv filep) (upd_user (f_priv filep) (fun _ => u') d1) = Some u').
    rewrite get_user_upd. change (get_user (f_priv filep) d1) with (get_user (f_priv filep) d).
    by rewrite Hget.
  - change (lower d1) with (lower d). rewrite Hper.
    exists (upper_unlock d1), u. split; [done|]. split; [by eapply (topic_frame d)|].
    do 4 (split; [done|]). split; [simpl; lia|]. done.
Qed.

(** ** Publishing *)

(** The generations of the next [m] samples. *)
Fixpoint next_gens (g i : Z) (m : nat) : list Z :=
  match m with O => [] | S m => g + i :: next_gens (g + i) i m end.

Lemma last_cons_default (a x : Z) l : default a (last (x :: l)) = default x (last l).
Proof. rewrite last_cons. by destruct (last l). Qed.

Lemma length_next_gens g i m : length (next_gens g i m) = m.
Proof. revert g. induction m as [|m IH]; intros g; simpl; [done|]. by rewrite IH. Qed.

Definition step_of (d : dev LS) : Z :=
  if min_interval (state (upper d)) =? UINT32_MAX then 1 else min_interval (state (upper d)).

Lemma generate_timing_spec m d nb gens :
  rec_abs 4 (timing (upper d)) nb (gen_records gens) -> (0 < nb)%nat -> Z.of_nat nb * 4 < 2 ^ 31 ->
  (zlen gens + Z.of_nat m) * 4 < 2 ^ 32 ->
  0 <= generation (state (upper d)) -> 0 < step_of d ->
  generation (state (upper d)) + Z.of_nat m * step_of d < 2 ^ 31 ->
  let new := next_gens (generation (state (upper d))) (step_of d) m in
  exists d', sensor_generate_timing m d = Some d' /\
    rec_abs 4 (timing (upper d')) nb (gen_records (gens ++ new)) /\
    state (upper d') = set_generation (default (generation (state (upper d))) (last new))
                         (state (upper d)) /\
    buffer (upper d') = buffer (upper d) /\ lower d' = lower d /\
    userlist (upper d') = userlist (upper d) /\ lock (upper d') = lock (upper d).
Proof.
  revert d gens. induction m as [|m IH]; intros d gens Hr Hnb Hnb4 Hb Hg Hi Hbound new.
  { exists d. simpl. rewrite app_nil_r. repeat (split; [done|]). split; [|done].
    by destruct (state (upper d)). }
  cbn [sensor_generate_timing].
  fold (step_of d). set (g := generation (state (upper d))) in *. set (i := step_of d) in *.
  rewrite (u32_small (g + i)) by nia.
  set (d1 := set_state (set_generation (g + i)) d).
  change (timing (upper d1)) with (timing (upper d)).
  destruct (rec_overwrite 4 ltac:(lia) _ nb (gen_records gens) [le_bytes 4 (g + i)] Hr)
    as (n & t & E & Hr').
  { constructor; [by rewrite length_le_bytes|constructor]. }
  { simpl. lia. }
  { done. }
  { unfold gen_records. rewrite length_map. simpl length. lia. }
  cbn [concat] in E. rewrite app_nil_r in E. rewrite E. cbn [mbind option_bind].
  set (d2 := set_buffers t (buffer (upper d1)) d1).
  assert (step_of d2 = i) as Hi2 by done.
  destruct (IH d2 (gens ++ [g + i])) as (d3 & E3 & Hr3 & Hs3 & Hb3 & Hl3 & Hu3 & Hk3).
  - unfold gen_records in *. rewrite map_app. exact Hr'.
  - done.
  - done.
  - rewrite length_app. simpl length. lia.
  - simpl. lia.
  - by rewrite Hi2.
  - rewrite Hi2. simpl. nia.
  - exists d3. split; [done|]. rewrite Hi2 in Hr3, Hs3.
    change (generation (state (upper d2))) with (g + i) in Hr3, Hs3.
    rewrite <- app_assoc in Hr3. split; [exact Hr3|]. split; [|by rewrite Hb3, Hl3, Hu3, Hk3].
    rewrite Hs3. unfold new. cbn [next_gens]. by rewrite last_cons_default.
Qed.

(** Generations go on increasing. *)
Lemma next_gens_sorted gens g i m :
  StronglySorted Z.lt gens -> Forall (fun x => 0 < x < 2 ^ 31) gens -> g = last_gen gens ->
  0 < i -> g + Z.of_nat m * i < 2 ^ 31 ->
  StronglySorted Z.lt (gens ++ next_gens g i m) /\
  Forall (fun x => 0 < x < 2 ^ 31) (gens ++ next_gens g i m) /\
  Forall (fun x => g < x) (next_gens g i m) /\
  last_gen (gens ++ next_gens g i m) = default g (last (next_gens g i m)).
Proof.
  revert gens g. induction m as [|m IH]; intros gens g Hs Hr Hg Hi Hb.
  { simpl. rewrite app_nil_r. split; [done|]. split; [done|]. split; [constructor|]. done. }
  cbn [next_gens].
  assert (0 <= g < 2 ^ 31) as Hgr by (subst g; by apply last_gen_range).
  destruct (IH (gens ++ [g + i]) (g + i)) as (H1 & H2 & H3 & H4).
  - apply StronglySorted_app_2; [|done|repeat constructor].
    intros x1 x2 Hx ->%list_elem_of_singleton.
    apply list_elem_of_lookup in Hx as [j Hx]. pose proof (lookup_lt_Some _ _ _ Hx) as Hj.
    assert (gens <> []) as Hne by (intros ->; simpl in Hj; lia).
    pose proof (last_gen_lookup gens Hne) as Hl.
    destruct (decide (j = length gens - 1)%nat) as [->|Hj'].
    + rewrite Hl in Hx. injection Hx as <-. lia.
    + pose proof (sorted_lookup gens j _ x1 _ Hs Hx Hl ltac:(lia)). lia.
  - apply Forall_app. split; [done|]. repeat constructor; lia.
  - unfold last_gen. by rewrite last_snoc.
  - done.
  - lia.
  - rewrite <- app_assoc in H1, H2, H4. split; [exact H1|]. split; [exact H2|]. split.
    + constructor; [lia|]. eapply Forall_impl; [exact H3|]. simpl. lia.
    + rewrite last_cons_default. exact H4.
Qed.

Lemma circbuf_init_rec e nb b c :
  0 < e -> (0 < nb)%nat -> Z.of_nat nb * e < 2 ^ 31 -> zlen b = Z.of_nat nb * e ->
  circbuf_init None (u32 (Z.of_nat nb * e)) (Some b) c = (0, mk_circ (Some b) (Z.of_nat nb * e) 0 0 false) /\
  rec_abs e (mk_circ (Some b) (Z.of_nat nb * e) 0 0 false) nb [].
Proof.
  intros He Hnb Hsmall Hb. rewrite u32_small by nia. unfold circbuf_init.
  replace (Z.of_nat nb * e =? 0) with false by (symmetry; nia). split; [done|].
  constructor; simpl; try done; try lia; [|constructor].
  constructor; simpl; try done; try nia; [|right; done]. exists b. done.
Qed.

(** The blocks for the two buffers, needed by the first publication only. *)
Definition blocks_ok (d : dev LS) (hist : list (list Z)) (mem1 mem2 : option (list Z)) : Prop :=
  hist = [] -> exists b1 b2, mem1 = Some b1 /\ mem2 = Some b2 /\
    zlen b1 = nbuffer (lower d) * esize (state (upper d)) /\ zlen b2 = nbuffer (lower d) * 4.

(** The part of [sensor_push_event] that makes the buffers. *)
Lemma push_init d hist gens mem1 mem2 :
  topic_ok d hist gens -> blocks_ok d hist mem1 mem2 ->
  exists b t,
    push_buffers mem1 mem2 d = (0, set_buffers t b d) /\
    rec_abs (esize (state (upper d))) b (Z.to_nat (nbuffer (lower d))) hist /\
    rec_abs 4 t (Z.to_nat (nbuffer (lower d))) (gen_records gens).
Proof.
  intros Ht Hm. unfold push_buffers.
  pose proof (to_nb _ _ _ Ht) as Hnb. pose proof (to_small _ _ _ Ht) as [Hs1 Hs2].
  pose proof (to_esize _ _ _ Ht) as He. pose proof (to_bufs _ _ _ Ht) as Hb.
  destruct hist as [|x hist].
  - destruct Hb as [Hb1 Hb2]. destruct (Hm eq_refl) as (b1 & b2 & -> & -> & L1 & L2).
    assert (gens = []) as -> by (apply nil_length_inv, (to_len _ _ _ Ht)).
    rewrite Hb1. cbn [circbuf_is_init base]. set (nb := Z.to_nat (nbuffer (lower d))) in *.
    assert (nbuffer (lower d) = Z.of_nat nb) as En by lia.
    destruct (circbuf_init_rec (esize (state (upper d))) nb b1 (mk_circ None 0 0 0 false))
      as [E1 R1]; [lia..|].
    destruct (circbuf_init_rec 4 nb b2 (timing (upper d))) as [E2 R2]; [lia..|].
    rewrite En, E1. cbn [Z.ltb Z.compare]. cbv iota zeta.
    change (timing (upper (set_buffers (timing (upper d)) _ d))) with (timing (upper d)).
    change (lower (set_buffers _ _ d)) with (lower d). rewrite En.
    change TIMING_BUF_ESIZE with 4. rewrite E2. cbn [Z.ltb Z.compare]. cbv iota.
    eexists _, _. split; [reflexivity|]. split; [exact R1|exact R2].
  - destruct Hb as [R1 R2]. destruct (ca_base _ _ (ra_abs _ _ _ _ R1)) as (b & Eb & _).
    exists (buffer (upper d)), (timing (upper d)). unfold circbuf_is_init. rewrite Eb.
    split; [|done]. by destruct d as [[] ?].
Qed.

Lemma user_at_frame u u' p gens :
  bufferpos u' = bufferpos u -> ustate u' = ustate u -> user_at u p gens -> user_at u' p gens.
Proof. intros H1 H2 []. constructor; rewrite ?H1, ?H2; done. Qed.

Lemma user_at_extend u p gens new :
  user_at u p gens -> Forall (fun x => last_gen gens < x) new ->
  last_gen gens <= last_gen (gens ++ new) -> user_at u p (gens ++ new).
Proof.
  intros [Hp Hle Hi Hg Ho Hn] Hnew Hlast. constructor; try done.
  - rewrite length_app. lia.
  - lia.
  - by rewrite take_app_le by lia.
  - rewrite drop_app_le by lia. apply Forall_app. split; [done|].
    eapply Forall_impl; [exact Hnew|]. simpl. lia.
Qed.

Lemma wake_reader_frame u :
  bufferpos (wake_reader u) = bufferpos u /\ ustate (wake_reader u) = ustate u.
Proof.
  unfold wake_reader, sensor_pollnotify_one. destruct (buffersem u <? 1); simpl;
    by destruct (Z.land _ _ =? 0).
Qed.

(** What the loop at the end of a publication leaves of a user. *)
Lemma news_frame d u :
  let u' := if sensor_is_updated d u then wake_reader u else u in
  bufferpos u' = bufferpos u /\ ustate u' = ustate u.
Proof. simpl. destruct (sensor_is_updated d u); [apply wake_reader_frame|done]. Qed.

(** The samples and their generations are stored. *)
Lemma push_stores d hist gens mem1 mem2 xs :
  let e := esize (state (upper d)) in
  let new := next_gens (generation (state (upper d))) (step_of d) (length xs) in
  topic_ok d hist gens -> blocks_ok d hist mem1 mem2 ->
  rec_ok e xs -> xs <> [] -> zlen xs <= nbuffer (lower d) ->
  (zlen hist + zlen xs) * Z.max 4 e < 2 ^ 32 ->
  0 < step_of d -> generation (state (upper d)) + zlen xs * step_of d < 2 ^ 31 ->
  exists d4, sensor_push_event mem1 mem2 (concat xs) d =
      Some (zlen (concat xs), upper_unlock
              (map_users (fun _ u => if sensor_is_updated d4 u then wake_reader u else u) d4)) /\
    rec_abs e (buffer (upper d4)) (Z.to_nat (nbuffer (lower d))) (hist ++ xs) /\
    rec_abs 4 (timing (upper d4)) (Z.to_nat (nbuffer (lower d))) (gen_records (gens ++ new)) /\
    state (upper d4) = set_generation (default (generation (state (upper d))) (last new)) (state (upper d)) /\
    lower d4 = lower d /\ userlist (upper d4) = userlist (upper d) /\
    lock (upper d4) = lock (upper d) + 1.
Proof.
  intros e new Ht Hm Hxs Hne Hn Hb Hi Hg.
  pose proof (to_nb _ _ _ Ht) as Hnb. pose proof (to_small _ _ _ Ht) as [Hs1 Hs2].
  pose proof (to_esize _ _ _ Ht) as He. fold e in He, Hs1. pose proof (to_len _ _ _ Ht) as Hl.
  assert (0 < zlen xs) as Hx0 by (destruct xs; [done|simpl; lia]).
  pose proof (zlen_concat e xs Hxs) as Hlx.
  set (d1 := upper_lock d).
  assert (topic_ok d1 hist gens) as Ht1 by (by eapply (topic_frame d)).
  destruct (push_init d1 hist gens mem1 mem2 Ht1 Hm) as (b & t & Ei & Rb & Rt).
  change (lower d1) with (lower d) in Rb, Rt.
  unfold sensor_push_event. fold d1. change (esize (state (upper d1))) with e in *.
  replace (zlen (concat xs) =? 0) with false by (symmetry; nia).
  replace (zlen (concat xs) / e) with (zlen xs) by (rewrite Hlx, Z.mul_comm; by rewrite Z.div_mul by lia).
  replace (zlen (concat xs) =? zlen xs * e) with true by (symmetry; lia).
  cbn [negb]. rewrite Ei. cbn [Z.ltb Z.compare]. set (d2 := set_buffers t b d1).
  change (buffer (upper d2)) with b. change (timing (upper d2)) with t.
  destruct (rec_overwrite e He b _ hist xs Rb Hxs) as (k & b' & Eo & Rb'); [lia|lia|nia|].
  rewrite Eo. cbn [mbind option_bind]. rewrite Nat2Z.id.
  destruct (generate_timing_spec (length xs) (set_buffers t b' d2) (Z.to_nat (nbuffer (lower d))) gens Rt)
    as (d4 & E4 & Rt' & Hs & Hb4 & Hl4 & Hu4 & Hk4); [lia|lia|rewrite Hl; nia| |done|done|].
  { change (0 <= generation (state (upper d))). rewrite (to_gen _ _ _ Ht). apply last_gen_range, Ht. }
  rewrite E4. cbn [mbind option_bind]. exists d4. rewrite Hb4. done.
Qed.

(** Publishing [xs] in one call. *)
Lemma sensor_push_spec d hist gens mem1 mem2 xs :
  let e := esize (state (upper d)) in
  let new := next_gens (generation (state (upper d))) (step_of d) (length xs) in
  topic_ok d hist gens -> blocks_ok d hist mem1 mem2 ->
  rec_ok e xs -> xs <> [] -> zlen xs <= nbuffer (lower d) ->
  (zlen hist + zlen xs) * Z.max 4 e < 2 ^ 32 ->
  0 < step_of d -> generation (state (upper d)) + zlen xs * step_of d < 2 ^ 31 ->
  exists d', sensor_push_event mem1 mem2 (concat xs) d = Some (zlen (concat xs), d') /\
    topic_ok d' (hist ++ xs) (gens ++ new) /\
    lower d' = lower d /\ esize (state (upper d')) = e /\ step_of d' = step_of d /\
    lock (upper d') = lock (upper d) /\
    (forall uid, get_user uid d = None -> get_user uid d' = None) /\
    (forall uid u p, get_user uid d = Some u -> user_at u p gens ->
      exists u', get_user uid d' = Some u' /\ user_at u' p (gens ++ new)).
Proof.
  intros e new Ht Hm Hxs Hne Hn Hb Hi Hg.
  destruct (push_stores d hist gens mem1 mem2 xs Ht Hm Hxs Hne Hn Hb Hi Hg)
    as (d4 & E & Rb & Rt & Hs & Hl4 & Hu4 & Hk4). fold e in Rb. fold new in Rt, Hs.
  destruct (next_gens_sorted gens (generation (state (upper d))) (step_of d) (length xs))
    as (N1 & N2 & N3 & N4); [apply Ht|apply Ht|apply Ht|done|done|]. fold new in N1, N2, N3, N4.
  set (f := fun (_ : Z) u => if sensor_is_updated d4 u then wake_reader u else u) in *.
  assert (forall uid, get_user uid (upper_unlock (map_users f d4)) = f uid <$> get_user uid d) as Hget.
  { intros uid. change (get_user uid (upper_unlock (map_users f d4))) with (get_user uid (map_users f d4)).
    rewrite get_user_map. unfold get_user. by rewrite Hu4. }
  exists (upper_unlock (map_users f d4)). split; [exact E|]. split.
  { constructor; simpl; rewrite ?Hs, ?Hl4; simpl; try done; try apply Ht.
    - rewrite !length_app, (to_len _ _ _ Ht). f_equal. apply length_next_gens.
    - destruct (hist ++ xs) eqn:Eh; [by apply app_eq_nil in Eh as [_ ->]|done]. }
  split; [exact Hl4|]. split; [simpl; by rewrite Hs|]. split; [unfold step_of; simpl; by rewrite Hs|].
  split; [simpl; lia|]. split; intros uid.
  - intros Hu. by rewrite Hget, Hu.
  - intros u p Hu Hua. rewrite Hget, Hu. eexists. split; [reflexivity|].
    destruct (news_frame d4 u) as [F1 F2]. eapply (user_at_frame u); [done|done|].
    apply user_at_extend; [done|by rewrite <- (to_gen _ _ _ Ht)|].
    rewrite N4, <- (to_gen _ _ _ Ht). destruct (last new) as [g|] eqn:El; [|simpl; lia].
    rewrite Forall_forall in N3. apply Z.lt_le_incl, N3. by apply last_Some_elem_of.
Qed.

(** ** Opening and closing *)

(** What the two devices have in common when no sample was published. *)
Record same_topic (d d' : dev LS) : Prop := {
  st_esize : esize (state (upper d')) = esize (state (upper d));
  st_min : min_interval (state (upper d')) = min_interval (state (upper d));
  st_gen : generation (state (upper d')) = generation (state (upper d));
  st_timing : timing (upper d') = timing (upper d);
  st_buffer : buffer (upper d') = buffer (upper d);
  st_nb : nbuffer (lower d') = nbuffer (lower d);
  st_persist : persist (lower d') = persist (lower d)
}.

Lemma same_topic_refl d : same_topic d d.
Proof. done. Qed.

Lemma same_topic_trans d1 d2 d3 : same_topic d1 d2 -> same_topic d2 d3 -> same_topic d1 d3.
Proof. intros [] []. constructor; congruence. Qed.

Lemma same_topic_ok d d' hist gens : same_topic d d' -> topic_ok d hist gens -> topic_ok d' hist gens.
Proof.
  intros [He Hm Hg Ht Hb Hn Hp] []. constructor; rewrite ?He, ?Hg, ?Ht, ?Hb, ?Hn; done.
Qed.

(** The subscribers stand where [pos] says, and there are no others. *)
Record users_at (d : dev LS) (pos : gmap Z nat) (gens : list Z) : Prop := {
  us_some : forall v p, pos !! v = Some p -> exists u, get_user v d = Some u /\ user_at u p gens;
  us_none : forall v, pos !! v = None -> get_user v d = None
}.

Lemma users_at_map f d d' pos gens :
  userlist (upper d') = userlist (upper (map_users f d)) ->
  (forall i u, bufferpos (f i u) = bufferpos u /\ u_interval (ustate (f i u)) = u_interval (ustate u) /\
     u_generation (ustate (f i u)) = u_generation (ustate u)) ->
  users_at d pos gens -> users_at d' pos gens.
Proof.
  intros Hl Hf [Hs Hn].
  assert (forall v, get_user v d' = f v <$> get_user v d) as Hg.
  { intros v. rewrite <- get_user_map. unfold get_user. by rewrite Hl. }
  split; intros v.
  - intros p Hp. destruct (Hs v p Hp) as (u & Hu & []). exists (f v u). rewrite Hg, Hu. split; [done|].
    destruct (Hf v u) as (H1 & H2 & H3). constructor; rewrite ?H1, ?H2, ?H3; done.
  - intros Hp. by rewrite Hg, (Hn v Hp).
Qed.

Lemma users_at_upd uid f d pos gens :
  (forall u, bufferpos (f u) = bufferpos u /\ u_interval (ustate (f u)) = u_interval (ustate u) /\
     u_generation (ustate (f u)) = u_generation (ustate u)) ->
  users_at d pos gens -> users_at (upd_user uid f d) pos gens.
Proof.
  intros Hf. apply (users_at_map (fun i u => if i =? uid then f u else u)); [done|].
  intros i u. by destruct (i =? uid).
Qed.

Lemma users_at_same d d' pos gens :
  userlist (upper d') = userlist (upper d) -> users_at d pos gens -> users_at d' pos gens.
Proof.
  intros Hl. apply (users_at_map (fun _ u => u)); [|done]. rewrite Hl. simpl.
  generalize (userlist (upper d)) as l. induction l as [|[i u] l IH]; [done|]. simpl. by f_equal.
Qed.

Lemma assoc_app v l i u :
  assoc v (l ++ [(i, u)]) = match assoc v l with
                            | Some x => Some x
                            | None => if i =? v then Some u else None
                            end.
Proof. induction l as [|[j x] l IH]; [done|]. simpl. by destruct (j =? v). Qed.

Lemma assoc_filter v uid l :
  assoc v (filter (fun p => fst p <> uid) l) = if v =? uid then None else assoc v l.
Proof.
  induction l as [|[i u] l IH]; [by destruct (v =? uid)|].
  rewrite filter_cons. destruct (decide (fst (i, u) <> uid)) as [Hi|Hi]; simpl in *.
  - rewrite IH. destruct (Z.eqb_spec i v), (Z.eqb_spec v uid); done || lia.
  - rewrite IH. destruct (Z.eqb_spec i v), (Z.eqb_spec v uid); done || lia.
Qed.

(** A new subscriber has read everything. *)
Lemma user_at_new d hist gens u :
  topic_ok d hist gens -> bufferpos u = head (timing (upper d)) / 4 ->
  u_interval (ustate u) = UINT32_MAX -> u_generation (ustate u) = generation (state (upper d)) ->
  user_at u (length hist) gens.
Proof.
  intros Ht Hp Hi Hg. pose proof (to_len _ _ _ Ht) as Hl. rewrite (to_gen _ _ _ Ht) in Hg.
  pose proof (last_gen_range _ (to_range _ _ _ Ht)) as Hr.
  constructor; try done; rewrite ?Hg; try lia.
  - rewrite Hp. destruct (decide (hist = [])) as [Eh|Hne].
    + pose proof (to_bufs _ _ _ Ht) as Hb. subst hist. destruct Hb as [_ ->]. done.
    + destruct (topic_timing d hist gens Ht Hne) as [_ ->].
      rewrite Z.div_mul by lia. by rewrite Hl.
  - rewrite take_ge by lia. apply Forall_forall. intros x Hx.
    apply list_elem_of_lookup in Hx as [i Hx]. pose proof (lookup_lt_Some _ _ _ Hx).
    assert (gens <> []) as Hne by (intros ->; done).
    pose proof (last_gen_lookup gens Hne) as Hlast.
    destruct (decide (i = length gens - 1)%nat) as [->|Hx']; [rewrite Hlast in Hx; injection Hx as ->; lia|].
    apply Z.lt_le_incl. eapply (sorted_lookup gens i (length gens - 1)); [apply Ht|done..|lia].
  - rewrite drop_ge by lia. constructor.
Qed.

(** The driver calls of [sensor_open] touch nothing else. *)
Lemma same_topic_drv x d : same_topic d (set_drv x d).
Proof. done. Qed.

(** A new user at the end of the list. *)
Lemma users_at_insert d d' hist gens pos uid u :
  userlist (upper d') = userlist (upper d) ++ [(uid, u)] ->
  users_at d pos gens -> pos !! uid = None -> user_at u (length hist) gens ->
  users_at d' (<[uid := length hist]> pos) gens.
Proof.
  intros Hl [Hs Hn] Hnew Hu.
  split; intros v; unfold get_user; rewrite Hl, assoc_app; fold (get_user v d).
  - intros p. destruct (decide (v = uid)) as [->|Hv].
    + rewrite lookup_insert_eq. intros [= <-]. rewrite (Hn _ Hnew), Z.eqb_refl. by exists u.
    + rewrite lookup_insert_ne by done. intros Hp. destruct (Hs v p Hp) as (u' & -> & Hu').
      by exists u'.
  - intros Hp. apply lookup_insert_None in Hp as [Hp Hv]. rewrite (Hn v Hp).
    by replace (uid =? v) with false by (symmetry; lia).
Qed.

Lemma users_at_notify ev rl d pos gens :
  users_at d pos gens -> users_at (sensor_pollnotify ev rl d) pos gens.
Proof.
  apply (users_at_map (fun _ => sensor_pollnotify_one ev rl)); [done|].
  intros i u. destruct (pollnotify_one_frame ev rl u) as [-> ->]. done.
Qed.

Lemma sensor_open_spec d hist gens pos mem uid filep :
  topic_ok d hist gens -> users_at d pos gens -> pos !! uid = None ->
  persist (lower d) = false -> f_persist filep = false ->
  let '(r, d') := sensor_open ops mem uid filep d in
  same_topic d d' /\ users_at d' (if 0 <=? r then <[uid := length hist]> pos else pos) gens.
Proof.
  intros Ht Hus Hnew Hper Hfp. unfold sensor_open. set (d0 := upper_lock d).
  destruct mem; cbn [negb]; [|by split; [|apply (users_at_same d)]].
  set (p1 := match op_open ops with Some _ => _ | None => _ end).
  assert (same_topic d (snd p1) /\ userlist (upper (snd p1)) = userlist (upper d)) as [S1 U1].
  { unfold p1. destruct (op_open ops) as [f|]; [|done]. destruct (f_direct filep); [done|].
    by destruct (f _). }
  destruct p1 as [r1 d1]. simpl in S1, U1.
  destruct (Z.ltb_spec r1 0) as [Hr1|Hr1].
  { replace (0 <=? r1) with false by (symmetry; lia). split; [by destruct S1|by apply (users_at_same d)]. }
  set (p2 := match op_activate ops with Some _ => _ | None => _ end).
  assert (same_topic d (snd p2) /\ userlist (upper (snd p2)) = userlist (upper d)) as [S2 U2].
  { unfold p2. destruct (op_activate ops) as [f|]; [|done]. destruct (_ && _); [|done].
    destruct (f _). by split; [destruct S1|]. }
  destruct p2 as [r2 d2]. simpl in S2, U2.
  destruct (Z.ltb_spec r2 0) as [Hr2|Hr2].
  { replace (0 <=? r2) with false by (symmetry; lia).
    destruct (op_close ops); (split; [by destruct S2|by apply (users_at_same d)]). }
  replace (0 <=? r2) with true by (symmetry; lia). rewrite Hfp, andb_false_r.
  set (d3 := if f_rdok filep then _ else d2). set (d4 := if f_wrok filep then _ else d3).
  assert (same_topic d d4 /\ userlist (upper d4) = userlist (upper d)) as [S4 U4].
  { unfold d4, d3. destruct (f_wrok filep), (f_rdok filep); by split; [destruct S2|]. }
  cbv zeta. set (user := mk_user _ _ _ _ _ _ _ _). split; [by destruct S4|].
  apply (users_at_same (sensor_pollnotify POLLPRI SENSOR_ROLE_WR
    (set_users (userlist (upper d4) ++ [(uid, user)]) d4))); [done|].
  apply users_at_notify, (users_at_insert d _ hist gens pos uid user); [simpl; by rewrite U4|done|done|].
  apply (user_at_new d4 hist gens); [by eapply same_topic_ok|..]; unfold user; simpl;
    rewrite ?(st_persist _ _ S4), ?Hper, ?andb_false_r; done.
Qed.

Lemma sensor_close_spec d hist gens pos p filep :
  topic_ok d hist gens -> users_at d pos gens -> pos !! f_priv filep = Some p ->
  exists d', sensor_close ops [] [] filep d = Some (0, d') /\
    same_topic d d' /\ users_at d' (delete (f_priv filep) pos) gens.
Proof.
  intros Ht Hus Hp. set (uid := f_priv filep) in *. unfold sensor_close, close_user. fold uid.
  destruct (us_some _ _ _ Hus uid p Hp) as (u & Hu & Hua).
  unfold sensor_update_interval. rewrite Hu. cbn [mbind option_bind].
  rewrite (ua_interval _ _ _ Hua), Z.eqb_refl. cbn [mbind option_bind].
  assert (exists d2 u2, sensor_update_latency ops [] uid UINT32_MAX d = Some (0, d2) /\
    same_topic d d2 /\ users_at d2 pos gens /\ get_user uid d2 = Some u2) as (d2 & u2 & -> & S2 & U2 & Hu2).
  { unfold sensor_update_latency. rewrite Hu. cbn [mbind option_bind].
    destruct (UINT32_MAX =? _); [by exists d, u|]. rewrite (ua_interval _ _ _ Hua), Z.eqb_refl.
    exists (upd_user uid (set_u_latency UINT32_MAX) d), (set_u_latency UINT32_MAX u).
    split; [done|]. split; [done|]. split; [|by rewrite get_user_upd, Hu].
    by apply users_at_upd. }
  cbn [mbind option_bind].
  assert (exists d3, sensor_update_nonwakeup ops uid true d2 = Some d3 /\
    same_topic d d3 /\ users_at d3 pos gens) as (d3 & -> & S3 & U3).
  { unfold sensor_update_nonwakeup. rewrite Hu2. cbn [mbind option_bind].
    destruct (eqb true _); [by exists d2|].
    set (d2' := upd_user uid (set_u_nonwakeup true) d2).
    assert (users_at d2' pos gens) as U2'.
    { by apply users_at_upd. }
    destruct (eqb _ _); eexists; (split; [done|]).
    - split; [by destruct S2|by apply (users_at_same d2')].
    - destruct (op_set_nonwakeup ops); (split; [by destruct S2|by apply (users_at_same d2')]). }
  cbn [mbind option_bind]. eexists. split; [done|].
  set (d4 := if f_wrok filep then _ else _).
  assert (same_topic d d4 /\ userlist (upper d4) = userlist (upper d3)) as [S4 U4].
  { unfold d4. destruct (op_close ops), (f_direct filep), (f_rdok filep), (op_activate ops), (f_wrok filep);
      simpl; try destruct (_ =? 0); by split; [destruct S3|]. }
  split; [by destruct S4|].
  apply (users_at_same (sensor_pollnotify POLLPRI SENSOR_ROLE_WR
    (set_users (filter (fun p => fst p <> uid) (userlist (upper d4))) d4))); [done|].
  apply users_at_notify.
  destruct U3 as [Hs Hn].
  split; intros v; unfold get_user; cbn [set_users upper userlist]; rewrite assoc_filter, U4;
    fold (get_user v d3).
  - intros q [Hv Hq]%lookup_delete_Some. replace (v =? uid) with false by (symmetry; lia). by apply Hs.
  - intros [->|Hv]%lookup_delete_None; [by rewrite Z.eqb_refl|]. rewrite (Hn v Hv). by destruct (v =? uid).
Qed.
End topic.

(** ** Runs of a topic *)

Inductive top :=
| TOpen (mem : bool) (filep : file)
| TPublish (mem1 mem2 : option (list Z)) (xs : list (list Z))
| TUpdated (filep : file)
| TRead (filep : file) (len : Z)
| TClose (filep : file).

Inductive tres :=
| TInt (r : Z)
| TBool (b : bool)
| TData (r : Z) (l : list Z).

(** The callers of a topic, as one program that goes on with what each call
    returned. *)
Inductive client := Done | Do (op : top) (k : tres -> client).

Section exec.
Context {LS : Type} (ops : sensor_ops_s LS).

(** The calls on the device; the bytes of a publication are its samples one
    after the other. *)
Definition top_exec (op : top) (d : dev LS) : option (tres * dev LS) :=
  match op with
  | TOpen mem filep => let '(r, d) := sensor_open ops mem (f_priv filep) filep d in Some (TInt r, d)
  | TPublish mem1 mem2 xs => '(r, d) ← sensor_write mem1 mem2 (concat xs) d; Some (TInt r, d)
  | TUpdated filep =>
      '(_, o, d) ← sensor_ioctl ops [] filep SNIOC_UPDATED d;
      match o with OutBool b => Some (TBool b, d) | _ => None end
  | TRead filep len =>
      '(r, d) ← sensor_read ops filep true len d;
      match r with RRet r l => Some (TData r l, d) | RWait => None end
  | TClose filep => '(r, d) ← sensor_close ops [] [] filep d; Some (TInt r, d)
  end.

Fixpoint top_run (c : client) (d : dev LS) : option (list (top * tres) * dev LS) :=
  match c with
  | Done => Some ([], d)
  | Do op k =>
      '(r, d) ← top_exec op d;
      '(tr, d) ← top_run (k r) d;
      Some ((op, r) :: tr, d)
  end.
End exec.

(** The specification: the samples published and, per subscriber, how many of
    them it is done with. *)
Record tspec := mk_tspec { t_hist : list (list Z); t_pos : gmap Z nat }.

(** The samples a read at position [p] gets when [nb] are kept and [k] fit. *)
Definition first_kept (nb : nat) (hist : list (list Z)) (p : nat) : nat :=
  Nat.max p (length hist - nb).
Definition taken (nb k : nat) (hist : list (list Z)) (p : nat) : list (list Z) :=
  take (Nat.min (length hist - first_kept nb hist p) k) (drop (first_kept nb hist p) hist).

Section spec.
Context (e : Z) (nb : nat).

Inductive tstep : top -> tspec -> tres -> tspec -> Prop :=
| ts_open mem filep h m r : 0 <= r ->
    tstep (TOpen mem filep) (mk_tspec h m) (TInt r) (mk_tspec h (<[f_priv filep := length h]> m))
| ts_open_failed mem filep h m r : r < 0 ->
    tstep (TOpen mem filep) (mk_tspec h m) (TInt r) (mk_tspec h m)
| ts_publish mem1 mem2 xs h m :
    tstep (TPublish mem1 mem2 xs) (mk_tspec h m) (TInt (zlen xs * e)) (mk_tspec (h ++ xs) m)
| ts_updated filep h m p : m !! f_priv filep = Some p ->
    tstep (TUpdated filep) (mk_tspec h m) (TBool (p <? length h)%nat) (mk_tspec h m)
| ts_read filep len h m p : m !! f_priv filep = Some p -> (p < length h)%nat ->
    tstep (TRead filep len) (mk_tspec h m)
      (TData (zlen (taken nb (Z.to_nat (len / e)) h p) * e)
             (concat (taken nb (Z.to_nat (len / e)) h p)))
      (mk_tspec h (<[f_priv filep :=
        (first_kept nb h p + length (taken nb (Z.to_nat (len / e)) h p))%nat]> m))
| ts_read_none filep len h m : m !! f_priv filep = Some (length h) ->
    tstep (TRead filep len) (mk_tspec h m) (TData (- ENODATA) []) (mk_tspec h m)
| ts_close filep h m :
    tstep (TClose filep) (mk_tspec h m) (TInt 0) (mk_tspec h (delete (f_priv filep) m)).

Inductive truns : client -> tspec -> list (top * tres) -> tspec -> Prop :=
| tr_done s : truns Done s [] s
| tr_do op k s r s1 tr s2 :
    tstep op s r s1 -> truns (k r) s1 tr s2 -> truns (Do op k) s ((op, r) :: tr) s2.

(** What the callers have to respect: one open per file, samples of the size of
    the topic, no more of them at once than the topic keeps, room for a sample
    when reading, and fewer samples in all than the 32-bit positions count. *)
Definition top_ok (op : top) (s : tspec) : Prop :=
  match op with
  | TOpen mem filep => t_pos s !! f_priv filep = None /\ f_persist filep = false
  | TPublish mem1 mem2 xs =>
      rec_ok e xs /\ xs <> [] /\ (length xs <= nb)%nat /\
      (zlen (t_hist s) + zlen xs) * Z.max 4 e < 2 ^ 32 /\ zlen (t_hist s) + zlen xs < 2 ^ 31 /\
      (t_hist s = [] -> exists b1 b2, mem1 = Some b1 /\ mem2 = Some b2 /\
         zlen b1 = Z.of_nat nb * e /\ zlen b2 = Z.of_nat nb * 4)
  | TUpdated filep | TClose filep => is_Some (t_pos s !! f_priv filep)
  | TRead filep len => is_Some (t_pos s !! f_priv filep) /\ e <= len < 2 ^ 32
  end.

Fixpoint client_ok (c : client) (s : tspec) : Prop :=
  match c with
  | Done => True
  | Do op k => top_ok op s /\ forall r s', tstep op s r s' -> client_ok (k r) s'
  end.
End spec.

Section refinement.
Context {LS : Type} (ops : sensor_ops_s LS) (e : Z) (nb : nat).
Hypothesis Hfetch : op_fetch ops = None.

(** The device in a state of the specification. *)
Record trel (d : dev LS) (s : tspec) (gens : list Z) : Prop := {
  tr_topic : topic_ok d (t_hist s) gens;
  tr_users : users_at d (t_pos s) gens;
  tr_count : generation (state (upper d)) = zlen (t_hist s);
  tr_step : step_of d = 1;
  tr_persist : persist (lower d) = false;
  tr_esize : esize (state (upper d)) = e;
  tr_nb : nbuffer (lower d) = Z.of_nat nb;
  tr_lock : lock (upper d) = 0
}.

Lemma trel_same d d' h m m' gens :
  trel d (mk_tspec h m) gens -> same_topic d d' -> users_at d' m' gens -> lock (upper d') = 0 ->
  trel d' (mk_tspec h m') gens.
Proof.
  intros [] Hst Hus Hl. constructor; simpl; try done.
  - by eapply same_topic_ok.
  - by rewrite (st_gen _ _ Hst).
  - unfold step_of in *. by rewrite (st_min _ _ Hst).
  - by rewrite (st_persist _ _ Hst).
  - by rewrite (st_esize _ _ Hst).
  - by rewrite (st_nb _ _ Hst).
Qed.

Lemma last_next_gens g m : default g (last (next_gens g 1 m)) = g + Z.of_nat m.
Proof.
  revert g. induction m as [|m IH]; intros g; [simpl; lia|].
  cbn [next_gens]. rewrite last_cons_default, IH. lia.
Qed.

Lemma taken_length k h p :
  length (taken nb k h p) = Nat.min (length h - first_kept nb h p) k.
Proof. unfold taken. rewrite length_take, length_drop. lia. Qed.

Lemma publish_refines d s gens mem1 mem2 xs :
  trel d s gens -> top_ok e nb (TPublish mem1 mem2 xs) s ->
  exists d' gens', top_exec ops (TPublish mem1 mem2 xs) d = Some (TInt (zlen xs * e), d') /\
    trel d' (mk_tspec (t_hist s ++ xs) (t_pos s)) gens'.
Proof.
  intros [Ht Hus Hc Hst Hper He Hn Hl] (Hxs & Hne & Hlen & Hb1 & Hb2 & Hm).
  rewrite <- He in Hxs.
  destruct (sensor_push_spec d (t_hist s) gens mem1 mem2 xs Ht)
    as (d' & E & Ht' & Hlo & He' & Hst' & Hl' & Hn' & Hu').
  { intros H0. rewrite Hn, He. by apply Hm. }
  { done. } { done. } { lia. } { by rewrite He. } { lia. } { rewrite Hc, Hst. lia. }
  simpl top_exec. unfold sensor_write. rewrite E. cbn [mbind option_bind].
  rewrite (zlen_concat _ _ Hxs), He, Z.mul_comm.
  eexists d', _. split; [done|]. constructor; simpl; try done.
  - split.
    + intros v p Hp. destruct (us_some _ _ _ Hus v p Hp) as (u & Hu & Hua). by apply (Hu' v u p).
    + intros v Hv. apply Hn'. by apply (us_none _ _ _ Hus).
  - rewrite (to_gen _ _ _ Ht'), length_app.
    destruct (next_gens_sorted gens (generation (state (upper d))) (step_of d) (length xs))
      as (_ & _ & _ & ->); [apply Ht|apply Ht|apply Ht|lia|rewrite Hc, Hst; lia|].
    rewrite Hst, last_next_gens. lia.
  - by rewrite Hst'.
  - by rewrite Hlo.
  - by rewrite He'.
  - by rewrite Hlo.
  - by rewrite Hl'.
Qed.

Lemma topic_rec_ok (d : dev LS) h gens : topic_ok d h gens -> rec_ok (esize (state (upper d))) h.
Proof.
  intros Ht. pose proof (to_bufs _ _ _ Ht) as Hb. destruct h; [constructor|].
  apply (ra_ok _ _ _ _ (proj1 Hb)).
Qed.

Lemma read_refines d s gens filep len :
  trel d s gens -> top_ok e nb (TRead filep len) s ->
  exists r d' s', top_exec ops (TRead filep len) d = Some (r, d') /\
    tstep e nb (TRead filep len) s r s' /\ trel d' s' gens.
Proof.
  intros Hrel [[p Hp] Hlen]. destruct s as [h m]. simpl in Hp.
  pose proof Hrel as [Ht Hus Hc Hst Hper He Hn Hl].
  destruct (us_some _ _ _ Hus _ p Hp) as (u & Hu & Hua).
  destruct (sensor_read_spec ops Hfetch d h gens filep u p len Ht Hper Hu Hua)
    as (d' & u' & Hu' & Ht' & Hlo & Hs' & Htm & Hbf & Hl' & Hoth & E); [by rewrite He|].
  rewrite He in E. unfold oldest in E. rewrite Hn, Nat2Z.id, (to_len _ _ _ Ht) in E. simpl in E.
  fold (first_kept nb h p) in E.
  assert (forall q, user_at u' q gens -> trel d' (mk_tspec h (<[f_priv filep := q]> m)) gens) as Hrel'.
  { intros q Hq. eapply (trel_same d); [exact Hrel|..].
    - constructor; rewrite ?Hs', ?Hlo; done.
    - split; intros v.
      + destruct (decide (v = f_priv filep)) as [->|Hv].
        * rewrite lookup_insert_eq. intros p' [= <-]. by exists u'.
        * rewrite lookup_insert_ne by done. rewrite Hoth by done. apply Hus.
      + intros [Hv Hne]%lookup_insert_None. rewrite Hoth by done. by apply Hus.
    - by rewrite Hl'. }
  pose proof (ua_le _ _ _ Hua) as Hle. rewrite (to_len _ _ _ Ht) in Hle. simpl in Hle.
  destruct (Nat.ltb_spec p (length h)) as [Hlt|Hge]; destruct E as [E Hq]; simpl top_exec;
    rewrite E; cbn [mbind option_bind].
  - rewrite <- taken_length in Hq. change (take _ (drop _ h)) with (taken nb (Z.to_nat (len / e)) h p).
    assert (rec_ok e (taken nb (Z.to_nat (len / e)) h p)) as Hok.
    { apply Forall_take, Forall_drop. rewrite <- He. by apply (topic_rec_ok d h gens). }
    rewrite (zlen_concat _ _ Hok), Z.mul_comm.
    eexists _, _, _. split; [reflexivity|]. split; [by apply ts_read|]. by apply Hrel'.
  - assert (p = length h) as -> by lia. eexists _, _, _. split; [reflexivity|].
    split; [by apply ts_read_none|]. rewrite <- (insert_id m (f_priv filep) (length h)) by done.
    by apply Hrel'.
Qed.

Lemma top_refines d s gens op :
  trel d s gens -> top_ok e nb op s ->
  exists r d' s' gens', top_exec ops op d = Some (r, d') /\ tstep e nb op s r s' /\ trel d' s' gens'.
Proof.
  intros Hrel Hok. pose proof Hrel as [Ht Hus Hc Hst Hper He Hn Hl]. destruct s as [h m].
  destruct op as [mem filep|mem1 mem2 xs|filep|filep len|filep].
  - destruct Hok as [Hnew Hfp].
    pose proof (sensor_open_spec ops d h gens m mem (f_priv filep) filep Ht Hus Hnew Hper Hfp) as Ho.
    pose proof (open_lock ops mem (f_priv filep) filep d) as Hlk. simpl top_exec.
    destruct (sensor_open _ _ _ _ _) as [r d']. destruct Ho as [Hst' Hus'].
    simpl in Hlk. destruct (Z.leb_spec 0 r) as [Hr|Hr]; eexists _, _, _, _.
    + split; [reflexivity|]. split; [by apply ts_open|]. eapply (trel_same d); try done. lia.
    + split; [reflexivity|]. split; [by apply ts_open_failed|]. eapply (trel_same d); try done. lia.
  - destruct (publish_refines d _ gens mem1 mem2 xs Hrel Hok) as (d' & gens' & E & Hrel').
    eexists _, _, _, _. split; [exact E|]. split; [constructor|exact Hrel'].
  - destruct Hok as [p Hp]. destruct (us_some _ _ _ Hus _ p Hp) as (u & Hu & Hua).
    eexists _, d, _, gens. split; [|split; [by apply (ts_updated e nb filep h m p)|done]].
    simpl top_exec. change (get_user (f_priv filep) (upper_lock d)) with (get_user (f_priv filep) d).
    rewrite Hu. cbn [mbind option_bind]. rewrite unlock_lock.
    change (sensor_is_updated (upper_lock d) u) with (sensor_is_updated d u).
    rewrite (is_updated_spec d h gens u p Ht Hua). by rewrite (to_len _ _ _ Ht).
  - destruct (read_refines d _ gens filep len Hrel Hok) as (r & d' & s' & H). by exists r, d', s', gens.
  - destruct Hok as [p Hp].
    destruct (sensor_close_spec ops d h gens m p filep Ht Hus Hp) as (d' & E & Hst' & Hus').
    destruct (close_lock ops [] [] filep d) as (d2 & E2 & Hlk); [constructor..| |].
    { destruct (us_some _ _ _ Hus _ p Hp) as (u & Hu & _). by exists u. }
    rewrite E in E2. injection E2 as <-. simpl top_exec. rewrite E. cbn [mbind option_bind].
    eexists _, _, _, _. split; [reflexivity|]. split; [constructor|].
    eapply (trel_same d); try done. lia.
Qed.

Lemma top_run_refines c d s gens :
  trel d s gens -> client_ok e nb c s ->
  exists tr d' s' gens', top_run ops c d = Some (tr, d') /\ truns e nb c s tr s' /\ trel d' s' gens'.
Proof.
  revert d s gens. induction c as [|op k IH]; intros d s gens Hrel Hok.
  { exists [], d, s, gens. split; [done|]. split; [constructor|done]. }
  destruct Hok as [Hop Hok].
  destruct (top_refines d s gens op Hrel Hop) as (r & d1 & s1 & gens1 & E1 & Hs1 & Hrel1).
  destruct (IH r d1 s1 gens1 Hrel1 (Hok r s1 Hs1)) as (tr & d2 & s2 & gens2 & E2 & Hs2 & Hrel2).
  exists ((op, r) :: tr), d2, s2, gens2. split; [|split; [by eapply tr_do|done]].
  simpl. rewrite E1. cbn [mbind option_bind]. by rewrite E2.
Qed.

(** A topic just registered. *)
Lemma registered_rel type_ok mem low d :
  sensor_custom_register ops type_ok mem 0 e low = (0, Some d) ->
  0 < e -> persist low = false -> nb = (if nbuffer low =? 0 then 1%nat else Z.to_nat (nbuffer low)) ->
  0 <= nbuffer low -> Z.of_nat nb * Z.max 4 e < 2 ^ 31 ->
  trel d (mk_tspec [] ∅) [].
Proof.
  intros E He Hper Hnb Hpos Hsmall. unfold sensor_custom_register in E. rewrite Hfetch in E.
  destruct (negb type_ok || (e =? 0)); [discriminate|]. destruct mem; [|discriminate].
  cbn [negb] in E. rewrite Z.eqb_refl in E. cbn [negb] in E. injection E as <-.
  assert ((if nbuffer low =? 0 then 1 else nbuffer low) = Z.of_nat nb) as En.
  { subst nb. destruct (Z.eqb_spec (nbuffer low) 0); lia. }
  rewrite En. constructor; simpl; try done.
  constructor; simpl; try done; try lia; try constructor.
  - subst nb. destruct (Z.eqb_spec (nbuffer low) 0); lia.
  - nia.
  - nia.
Qed.
End refinement.

(** *** What a subscriber gets *)

(** The samples published in a trace, and the bytes [uid] read. *)
Fixpoint published (tr : list (top * tres)) : list (list Z) :=
  match tr with
  | [] => []
  | (TPublish _ _ xs, _) :: tr => xs ++ published tr
  | _ :: tr => published tr
  end.
Fixpoint bytes_read (uid : Z) (tr : list (top * tres)) : list Z :=
  match tr with
  | [] => []
  | (TRead filep _, TData _ l) :: tr =>
      if f_priv filep =? uid then l ++ bytes_read uid tr else bytes_read uid tr
  | _ :: tr => bytes_read uid tr
  end.

Section order.
Context (e : Z) (nb : nat) (uid : Z).

(** The samples the subscriber is done with. *)
Definition done_with (s : tspec) : list (list Z) :=
  match t_pos s !! uid with Some p => take p (t_hist s) | None => t_hist s end.
Definition pos_ok (s : tspec) : Prop :=
  forall v p, t_pos s !! v = Some p -> (p <= length (t_hist s))%nat.

Lemma tstep_hist op s r s' : tstep e nb op s r s' -> t_hist s' = t_hist s ++ published [(op, r)].
Proof. intros []; simpl; by rewrite ?app_nil_r. Qed.

Lemma first_kept_le h p : (p <= length h)%nat -> (p <= first_kept nb h p <= length h)%nat.
Proof. unfold first_kept. lia. Qed.

Lemma tstep_pos_ok op s r s' : tstep e nb op s r s' -> pos_ok s -> pos_ok s'.
Proof.
  intros H Hp. destruct H; intros v q; simpl in *; specialize (Hp v); simpl in Hp.
  - destruct (decide (v = f_priv filep)) as [->|Hv]; [rewrite lookup_insert_eq; intros [= <-]; done|].
    rewrite lookup_insert_ne by done. apply Hp.
  - apply Hp.
  - intros Hq. rewrite length_app. apply Hp in Hq. lia.
  - apply Hp.
  - destruct (decide (v = f_priv filep)) as [->|Hv]; [|rewrite lookup_insert_ne by done; apply Hp].
    rewrite lookup_insert_eq. intros [= <-]. pose proof (first_kept_le h p ltac:(lia)).
    rewrite taken_length. lia.
  - apply Hp.
  - intros [_ Hq]%lookup_delete_Some. by apply Hp.
Qed.

(** One step adds to what was read what it adds to [done_with], except for
    samples that were skipped. *)
Lemma tstep_received op s r s' acc :
  tstep e nb op s r s' -> pos_ok s -> acc `sublist_of` done_with s ->
  exists recs, bytes_read uid [(op, r)] = concat recs /\ (acc ++ recs) `sublist_of` done_with s'.
Proof.
  intros H Hp Hacc. unfold done_with in *. destruct H; simpl in *;
    try (exists []; split; [done|]; rewrite app_nil_r).
  - destruct (decide (uid = f_priv filep)) as [->|Hv].
    + rewrite lookup_insert_eq. rewrite take_ge by lia. etrans; [exact Hacc|].
      destruct (m !! f_priv filep); [apply sublist_take|done].
    + by rewrite lookup_insert_ne by done.
  - done.
  - destruct (m !! uid) as [p|] eqn:E.
    + specialize (Hp uid p E). simpl in Hp. by rewrite take_app_le by lia.
    + etrans; [exact Hacc|]. by apply sublist_inserts_r.
  - done.
  - destruct (Z.eqb_spec (f_priv filep) uid) as [<-|Hv].
    + exists (taken nb (Z.to_nat (len / e)) h p). split; [by rewrite app_nil_r|].
      rewrite lookup_insert_eq. rewrite H in Hacc.
      specialize (Hp _ p H). simpl in Hp. pose proof (first_kept_le h p Hp) as Hk.
      rewrite taken_length.
      replace (take (_ + _) h) with (take (first_kept nb h p) h ++ taken nb (Z.to_nat (len / e)) h p).
      2:{ unfold taken. by rewrite take_take_drop. }
      apply sublist_app; [|done]. etrans; [exact Hacc|].
      replace (first_kept nb h p) with (p + (first_kept nb h p - p))%nat by lia.
      rewrite <- take_take_drop. by apply sublist_inserts_r.
    + exists []. split; [done|]. rewrite app_nil_r. by rewrite lookup_insert_ne by done.
  - destruct (f_priv filep =? uid); exists []; (split; [done|]); by rewrite app_nil_r.
  - destruct (decide (uid = f_priv filep)) as [->|Hv].
    + rewrite lookup_delete_eq. etrans; [exact Hacc|].
      destruct (m !! f_priv filep); [apply sublist_take|done].
    + by rewrite lookup_delete_ne by done.
Qed.

Lemma received_cons op r tr : bytes_read uid ((op, r) :: tr) = bytes_read uid [(op, r)] ++ bytes_read uid tr.
Proof. destruct op, r; simpl; try done. destruct (_ =? uid); simpl; by rewrite ?app_nil_r. Qed.

Lemma published_cons op r tr : published ((op, r) :: tr) = published [(op, r)] ++ published tr.
Proof. destruct op; simpl; by rewrite ?app_nil_r. Qed.

Lemma truns_received c s tr s' acc :
  truns e nb c s tr s' -> pos_ok s -> acc `sublist_of` done_with s ->
  exists recs, bytes_read uid tr = concat recs /\ (acc ++ recs) `sublist_of` t_hist s'.
Proof.
  intros H. revert acc. induction H as [s|op k s r s1 tr s2 Hs Hr IH]; intros acc Hp Hacc.
  { exists []. split; [done|]. rewrite app_nil_r. etrans; [exact Hacc|]. unfold done_with.
    destruct (t_pos s !! uid); [apply sublist_take|done]. }
  destruct (tstep_received op s r s1 acc Hs Hp Hacc) as (recs1 & E1 & Hsub1).
  destruct (IH _ (tstep_pos_ok _ _ _ _ Hs Hp) Hsub1) as (recs2 & E2 & Hsub2).
  exists (recs1 ++ recs2). rewrite received_cons, E1, E2, concat_app. split; [done|].
  by rewrite app_assoc.
Qed.

Lemma truns_hist c s tr s' : truns e nb c s tr s' -> t_hist s' = t_hist s ++ published tr.
Proof.
  induction 1 as [s|op k s r s1 tr s2 Hs Hr IH]; [by rewrite app_nil_r|].
  rewrite IH, (tstep_hist _ _ _ _ Hs), (published_cons op r tr). by rewrite app_assoc.
Qed.

(** How many samples the subscriber is behind at the end of a trace that has it
    [g] behind at the start. *)
Fixpoint lag (g : nat) (tr : list (top * tres)) : nat :=
  match tr with
  | [] => g
  | (TPublish _ _ xs, _) :: tr => lag (g + length xs) tr
  | (TRead filep len, _) :: tr =>
      lag (if f_priv filep =? uid then (g - Nat.min g (Z.to_nat (len / e)))%nat else g) tr
  | _ :: tr => lag g tr
  end.

(** The subscriber stays open and is never more than [nb] samples behind when it
    reads. *)
Fixpoint keeps_up (g : nat) (tr : list (top * tres)) : Prop :=
  match tr with
  | [] => True
  | (TPublish _ _ xs, _) :: tr => keeps_up (g + length xs) tr
  | (TRead filep len, _) :: tr =>
      if f_priv filep =? uid
      then (g <= nb)%nat /\ keeps_up (g - Nat.min g (Z.to_nat (len / e)))%nat tr
      else keeps_up g tr
  | (TOpen _ filep, _) :: tr | (TClose filep, _) :: tr => f_priv filep <> uid /\ keeps_up g tr
  | (TUpdated _, _) :: tr => keeps_up g tr
  end.

(** A read that gets everything from [p] on that fits. *)
Lemma taken_up h p k :
  (p <= length h)%nat -> (length h - p <= nb)%nat ->
  first_kept nb h p = p /\ taken nb k h p = take (Nat.min (length h - p) k) (drop p h).
Proof.
  intros Hp Hn. assert (first_kept nb h p = p) as E by (unfold first_kept; lia).
  split; [done|]. unfold taken. by rewrite E.
Qed.

Lemma slice_app {A} (h x : list A) p j q :
  (p + j <= length h)%nat -> (p + j <= q)%nat ->
  take j (drop p h) ++ take (q - (p + j)) (drop (p + j) (h ++ x)) = take (q - p) (drop p (h ++ x)).
Proof.
  intros Hj Hq. replace (q - p)%nat with (j + (q - (p + j)))%nat by lia.
  rewrite <- take_take_drop, drop_drop. f_equal.
  rewrite (drop_app_le h x p) by lia. rewrite take_app_le; [done|]. rewrite length_drop. lia.
Qed.

Lemma truns_no_loss c s tr s' p :
  truns e nb c s tr s' -> t_pos s !! uid = Some p -> (p <= length (t_hist s))%nat ->
  keeps_up (length (t_hist s) - p) tr ->
  exists q, (p <= q <= length (t_hist s'))%nat /\
    lag (length (t_hist s) - p) tr = (length (t_hist s') - q)%nat /\
    bytes_read uid tr = concat (take (q - p) (drop p (t_hist s'))).
Proof.
  intros H. revert p. induction H as [s|op k s r s1 tr s2 Hs Hr IH]; intros p Hp Hle Hk.
  { exists p. rewrite Nat.sub_diag. split; [lia|done]. }
  pose proof (truns_hist _ _ _ _ Hr) as Hh.
  destruct Hs; cbn [t_hist t_pos keeps_up lag bytes_read] in *.
  - destruct Hk as [Hv Hk]. apply IH; [by rewrite lookup_insert_ne|done|done].
  - destruct Hk as [Hv Hk]. by apply IH.
  - rewrite length_app in IH.
    replace (length h - p + length xs)%nat with (length h + length xs - p)%nat in * by lia.
    apply IH; [done|lia|done].
  - by apply IH.
  - destruct (Z.eqb_spec (f_priv filep) uid) as [<-|Hv].
    2:{ apply IH; [by rewrite lookup_insert_ne|done|done]. }
    rewrite Hp in H. injection H as <-. destruct Hk as [Hn Hk].
    set (j := Nat.min (length h - p) (Z.to_nat (len / e))) in *.
    destruct (taken_up h p (Z.to_nat (len / e)) Hle Hn) as [E1 E2]. fold j in E2.
    assert (length (taken nb (Z.to_nat (len / e)) h p) = j) as E3
      by (rewrite E2, length_take, length_drop; lia).
    rewrite E1, E3 in *. replace (length h - p - j)%nat with (length h - (p + j))%nat in * by lia.
    destruct (IH (p + j)%nat) as (q & Hq & Hlag & Hrec); [by rewrite lookup_insert_eq|lia|done|].
    exists q. split; [lia|]. split; [done|].
    rewrite Hrec, E2, <- concat_app, Hh. f_equal. apply slice_app; lia.
  - destruct (Z.eqb_spec (f_priv filep) uid) as [<-|Hv].
    + rewrite Hp in H. injection H as ->. rewrite Nat.sub_diag in *. simpl in *.
      destruct Hk as [_ Hk]. specialize (IH (length h) Hp Hle). rewrite Nat.sub_diag in IH. by apply IH.
    + by apply IH.
  - destruct Hk as [Hv Hk]. apply IH; [by rewrite lookup_delete_ne|done|done].
Qed.
End order.

(** *** The theorems *)

Section claims.
Context {LS : Type} (ops : sensor_ops_s LS) (e : Z) (low : sensor_lowerhalf_s LS).

(** A topic of [nbuffer] samples of [e] bytes, whose driver has no [fetch]. *)
Record plain_topic : Prop := {
  pt_fetch : op_fetch ops = None;
  pt_esize : 0 < e;
  pt_persist : persist low = false;
  pt_nbuffer : 0 < nbuffer low;
  pt_small : nbuffer low * Z.max 4 e < 2 ^ 31
}.

Definition registered (d : dev LS) : Prop :=
  sensor_custom_register ops true true 0 e low = (0, Some d).

Lemma plain_run d c :
  plain_topic -> registered d -> client_ok e (Z.to_nat (nbuffer low)) c (mk_tspec [] ∅) ->
  exists tr d' s', top_run ops c d = Some (tr, d') /\
    truns e (Z.to_nat (nbuffer low)) c (mk_tspec [] ∅) tr s' /\ lock (upper d') = 0.
Proof.
  intros [Hf He Hper Hnb Hsmall] Hreg Hok.
  assert (trel e (Z.to_nat (nbuffer low)) d (mk_tspec [] ∅) []) as Hrel.
  { eapply registered_rel; try done; try lia.
    by replace (nbuffer low =? 0) with false by (symmetry; lia). }
  destruct (top_run_refines ops e _ Hf c d _ [] Hrel Hok) as (tr & d' & s' & gens' & H1 & H2 & H3).
  exists tr, d', s'. split; [done|]. split; [done|]. apply H3.
Qed.

(** C9: the device of a topic implements the specification of a history with a
    position per subscriber: from registration on, any client that opens,
    publishes, asks for news, reads and closes through any number of files,
    within the limits below, gets the results the specification allows, and the
    lock is free at the end.  A read gets the samples after the reader's
    position, at most as many as fit, from the oldest one that is still kept; a
    reader that is up to date gets [-ENODATA].  The limits: the driver has no
    [fetch], the topic is not persistent and no file is opened as such; a
    publication has at least one sample and no more than the topic keeps; a read
    has room for a sample; there is memory for the buffers at the first
    publication; and fewer samples are published in all than the 32-bit
    positions and the generation count. *)
Theorem topic_refines_history d c :
  plain_topic -> registered d -> client_ok e (Z.to_nat (nbuffer low)) c (mk_tspec [] ∅) ->
  exists tr d' s', top_run ops c d = Some (tr, d') /\
    truns e (Z.to_nat (nbuffer low)) c (mk_tspec [] ∅) tr s' /\ lock (upper d') = 0.
Proof. apply plain_run. Qed.

(** C10: whatever the clients do within the limits of the topic ([client_ok]),
    and however far a subscriber falls behind, what it reads is a subsequence of
    what was published: whole samples, in order, none twice and none that was
    not published. *)
Theorem topic_in_order d c uid :
  plain_topic -> registered d -> client_ok e (Z.to_nat (nbuffer low)) c (mk_tspec [] ∅) ->
  exists tr d' recs, top_run ops c d = Some (tr, d') /\
    bytes_read uid tr = concat recs /\ recs `sublist_of` published tr.
Proof.
  intros Hp Hreg Hok. destruct (plain_run d c Hp Hreg Hok) as (tr & d' & s' & E & Hr & _).
  destruct (truns_received e _ uid c _ tr s' [] Hr) as (recs & Erec & Hsub).
  { intros v p. simpl. by rewrite lookup_empty. }
  { apply sublist_nil_l. }
  exists tr, d', recs. split; [done|]. split; [done|].
  pose proof (truns_hist e _ c _ tr s' Hr) as Hh. simpl in Hh, Hsub. by rewrite Hh in Hsub.
Qed.

(** C11: a subscriber that opens the topic first and is never more than [nbuffer]
    samples behind when it reads gets every sample exactly once and in order, up
    to the [lag] samples it has not asked for yet at the end. *)
Theorem topic_no_loss d mem filep k :
  plain_topic -> registered d ->
  client_ok e (Z.to_nat (nbuffer low)) (Do (TOpen mem filep) k) (mk_tspec [] ∅) ->
  exists r tr d', top_run ops (Do (TOpen mem filep) k) d = Some ((TOpen mem filep, TInt r) :: tr, d') /\
    (0 <= r -> keeps_up e (Z.to_nat (nbuffer low)) (f_priv filep) 0 tr ->
     (lag e (f_priv filep) 0 tr <= length (published tr))%nat /\
     bytes_read (f_priv filep) tr =
       concat (take (length (published tr) - lag e (f_priv filep) 0 tr) (published tr))).
Proof.
  intros Hp Hreg Hok. destruct (plain_run d _ Hp Hreg Hok) as (tr & d' & s' & E & Hr & _).
  inversion Hr as [|op k' s r s1 tr' s2 Hs Hr' E1 E2 E3]; subst.
  inversion Hs; subst; eexists _, tr', d'; (split; [exact E|]); [|lia].
  intros _ Hk. pose proof (truns_hist e _ _ _ _ _ Hr') as Hh. simpl in Hh.
  destruct (truns_no_loss e _ (f_priv filep) _ _ tr' s' 0%nat Hr') as (q & Hq & Hlag & Hrec).
  { simpl. apply lookup_insert_eq. } { simpl. lia. } { done. }
  simpl in Hlag, Hrec. rewrite Hh in *. rewrite Hlag, Hrec. rewrite drop_0. split; [lia|].
  do 2 f_equal. lia.
Qed.
End claims.

(** *** An example: a publisher and a subscriber of a topic that keeps two samples *)

Definition plain_ops : sensor_ops_s unit :=
  mk_ops None None None None None None None None None None None None None.
Definition demo_lower : sensor_lowerhalf_s unit := mk_lower 2 false tt.
Definition reader : file := mk_file true false true false false false 7.

Definition pub (b : Z) : top :=
  TPublish (Some (repeat 0 8)) (Some (repeat 0 8)) [[b; b; b; b]].
Definition demo_client (then_read : bool) : client :=
  Do (TOpen true reader) (fun r =>
    match r with
    | TInt 0 =>
        Do (pub 1) (fun _ =>
          if then_read
          then Do (TRead reader 8) (fun _ => Do (pub 2) (fun _ => Do (TRead reader 8) (fun _ => Done)))
          else Do (pub 2) (fun _ => Do (pub 3) (fun _ => Do (TRead reader 8) (fun _ => Done))))
    | _ => Done
    end).

Lemma demo_plain : plain_topic plain_ops 4 demo_lower.
Proof. constructor; done. Qed.

Ltac client_step :=
  match goal with
  | |- client_ok _ _ Done _ => exact I
  | |- client_ok _ _ (Do _ _) _ => split; [|intros ?r ?s ?H; inversion H; subst; clear H]
  | |- client_ok _ _ (match ?r with _ => _ end) _ => destruct r
  end.

Lemma demo_client_ok b : client_ok 4 2 (demo_client b) (mk_tspec [] ∅).
Proof.
  unfold demo_client, pub. destruct b; repeat client_step; simpl in *; try done; try lia;
    (split; [repeat constructor|]); repeat (split; [done || lia|]); try done;
    intros _; by eexists _, _.
Qed.

(** The device of the topic. *)
Definition demo_dev : dev unit :=
  default (mk_dev (mk_upper (mk_state 0 0 0 0 0 0 0 false 0) (mk_circ None 0 0 0 false)
             (mk_circ None 0 0 0 false) 0 []) demo_lower)
    (snd (sensor_custom_register plain_ops true true 0 4 demo_lower)).

Lemma topic_refines_history_witness :
  exists tr d' s', top_run plain_ops (demo_client false) demo_dev = Some (tr, d') /\
    truns 4 2 (demo_client false) (mk_tspec [] ∅) tr s' /\ lock (upper d') = 0.
Proof.
  apply (topic_refines_history plain_ops 4 demo_lower demo_dev (demo_client false)).
  - exact demo_plain.
  - reflexivity.
  - apply demo_client_ok.
Defined.

(** The subscriber that was overtaken misses the first sample only. *)
Lemma topic_in_order_witness :
  exists tr d' recs, top_run plain_ops (demo_client false) demo_dev = Some (tr, d') /\
    bytes_read 7 tr = concat recs /\ recs `sublist_of` published tr /\
    bytes_read 7 tr = [2; 2; 2; 2; 3; 3; 3; 3].
Proof.
  destruct (topic_in_order plain_ops 4 demo_lower demo_dev (demo_client false) 7)
    as (tr & d' & recs & E & H1 & H2).
  - exact demo_plain.
  - reflexivity.
  - apply demo_client_ok.
  - exists tr, d', recs. split; [exact E|]. split; [exact H1|]. split; [exact H2|].
    vm_compute in E. injection E as <- _. reflexivity.
Defined.

Lemma topic_no_loss_witness :
  exists r tr d',
    top_run plain_ops (demo_client true) demo_dev = Some ((TOpen true reader, TInt r) :: tr, d') /\
    bytes_read 7 tr = [1; 1; 1; 1; 2; 2; 2; 2].
Proof.
  destruct (topic_no_loss plain_ops 4 demo_lower demo_dev true reader
    (fun r => match demo_client true with Do _ k => k r | Done => Done end))
    as (r & tr & d' & E & H).
  - exact demo_plain.
  - reflexivity.
  - exact (demo_client_ok true).
  - exists r, tr, d'. split; [exact E|].
    vm_compute in E. injection E as <- <- _.
    assert (0 <= 0) as H0 by lia. specialize (H H0). simpl in H.
    destruct H as [_ H]; [lia|]. exact H.
Defined.
