(* ===== verification/SensorSteps.v ===== *)
(** The calls on a sensor device that release its lock, as computations that can
    be suspended.

    [sensor_update_interval] and [sensor_update_latency] release the lock around
    the calls of the lower half, and [sensor_close] releases it between its
    parts.  In Sensor.v a list of functions says what other tasks do there; here
    the computation stops at such a point ([AWait]) and is continued later, in
    whatever state the device then is, so that any number of calls can be under
    way at once.  [exec] runs a computation against a list of functions, and the
    lemmas show that this gives back the functions of Sensor.v. *)

From S2P Require Import Prelude.
From stdpp Require Import list.
From S2P Require Import Circbuf Poll Sensor.
Local Open Scope Z_scope.

Section steps.
Context {LS : Type} (ops : sensor_ops_s LS).
Implicit Types (d : dev LS) (win : list (dev LS -> dev LS)).

(** A computation has returned, has released the lock and goes on from the state
    it finds, or has undefined behaviour or no fuel left. *)
Inductive act (A : Type) :=
| ARet (a : A) d
| AWait d (k : dev LS -> act A)
| AErr.
#[global] Arguments ARet {A}.
#[global] Arguments AWait {A}.
#[global] Arguments AErr {A}.

Fixpoint abind {A B} (m : act A) (f : A -> dev LS -> act B) : act B :=
  match m with
  | ARet a d => f a d
  | AWait d k => AWait d (fun d => abind (k d) f)
  | AErr => AErr
  end.

Definition aopt {A} (o : option (A * dev LS)) : act A :=
  match o with Some (a, d) => ARet a d | None => AErr end.

(** ** The calls *)

(** The end of both loops: the new values are stored and the writers notified. *)
Definition interval_commit (uid interval mi ret : Z) d : act Z :=
  let d := set_state (set_min_interval mi) d in
  let d := upd_user uid (set_u_interval interval) d in
  ARet ret (upper_unlock (sensor_pollnotify POLLPRI SENSOR_ROLE_WR d)).

Definition latency_commit (uid latency ml ret : Z) d : act Z :=
  let d := set_state (set_min_latency ml) d in
  let d := upd_user uid (set_u_latency latency) d in
  ARet ret (upper_unlock (sensor_pollnotify POLLPRI SENSOR_ROLE_WR d)).

(** [again] is the jump to the label. *)
Definition batch_steps (again : Z -> Z -> Z -> dev LS -> act Z) (uid interval ret mi ml : Z) d :
    act Z :=
  let ml := if ml =? UINT32_MAX then 0 else ml in
  match op_batch ops with
  | Some batch =>
      if negb (ml =? min_latency (state (upper d))) ||
         (negb (mi =? min_interval (state (upper d))) && negb (ml =? 0)) then
        let orig := min_latency (state (upper d)) in
        let d := upper_unlock d in
        let '(ret, ml, x) := batch ml (drv (lower d)) in
        AWait (set_drv x d) (fun d =>
          let d := upper_lock d in
          if negb (orig =? min_latency (state (upper d))) then again ret mi ml d
          else interval_commit uid interval mi ret
                 (if 0 <=? ret then set_state (set_min_latency ml) d else d))
      else interval_commit uid interval mi ret d
  | None => interval_commit uid interval mi ret d
  end.

Definition interval_steps (again : Z -> Z -> Z -> dev LS -> act Z) (uid interval ret mi ml : Z) d :
    act Z :=
  let '(mi, ml) := min_over uid (userlist (upper d)) mi ml in
  match op_set_interval ops with
  | None => interval_commit uid interval mi ret d
  | Some set_interval =>
      if negb (mi =? UINT32_MAX) && negb (mi =? min_interval (state (upper d))) then
        let orig := min_interval (state (upper d)) in
        let d := upper_unlock d in
        let '(ret, mi', x) := set_interval mi (drv (lower d)) in
        AWait (set_drv x d) (fun d =>
          if ret <? 0 then ARet ret d
          else if mi <? mi' then ARet (- EINVAL) d
          else
            let d := upper_lock d in
            if negb (orig =? min_interval (state (upper d))) then again ret mi' ml d
            else batch_steps again uid interval ret mi' ml d)
      else batch_steps again uid interval ret mi ml d
  end.

Fixpoint interval_runs (fuel : nat) (uid interval ret mi ml : Z) d : act Z :=
  match fuel with
  | O => AErr
  | S fuel => interval_steps (interval_runs fuel uid interval) uid interval ret mi ml d
  end.

Definition update_interval_steps (fuel : nat) (uid interval : Z) d : act Z :=
  match get_user uid d with
  | None => AErr
  | Some user =>
      let ml := if interval =? UINT32_MAX then UINT32_MAX else u_latency (ustate user) in
      if interval =? u_interval (ustate user) then ARet 0 d
      else interval_runs fuel uid interval 0 interval ml (upper_lock d)
  end.

Definition latency_steps (again : Z -> Z -> dev LS -> act Z) (uid latency ret ml : Z) d : act Z :=
  let ml := if latency <=? min_latency (state (upper d)) then ml
            else snd (min_over uid (userlist (upper d)) UINT32_MAX ml) in
  let ml := if ml =? UINT32_MAX then 0 else ml in
  if ml =? min_latency (state (upper d)) then
    ARet ret (upper_unlock (upd_user uid (set_u_latency latency) d))
  else match op_batch ops with
       | None => latency_commit uid latency ml ret d
       | Some batch =>
           let orig := min_latency (state (upper d)) in
           let d := upper_unlock d in
           let '(ret, ml, x) := batch ml (drv (lower d)) in
           AWait (set_drv x d) (fun d =>
             if ret <? 0 then ARet ret d
             else
               let d := upper_lock d in
               if negb (orig =? min_latency (state (upper d))) then again ret ml d
               else latency_commit uid latency ml ret d)
       end.

Fixpoint latency_runs (fuel : nat) (uid latency ret ml : Z) d : act Z :=
  match fuel with
  | O => AErr
  | S fuel => latency_steps (latency_runs fuel uid latency) uid latency ret ml d
  end.

Definition update_latency_steps (fuel : nat) (uid latency : Z) d : act Z :=
  match get_user uid d with
  | None => AErr
  | Some user =>
      if latency =? u_latency (ustate user) then ARet 0 d
      else if u_interval (ustate user) =? UINT32_MAX then
        ARet 0 (upd_user uid (set_u_latency latency) d)
      else latency_runs fuel uid latency 0 latency (upper_lock d)
  end.

(** The lock is free between the four parts of [sensor_close]. *)
Definition close_steps (n1 n2 : nat) (filep : file) d : act Z :=
  let uid := f_priv filep in
  abind (update_interval_steps n1 uid UINT32_MAX d) (fun _ d => AWait d (fun d =>
    abind (update_latency_steps n2 uid UINT32_MAX d) (fun _ d => AWait d (fun d =>
      match sensor_update_nonwakeup ops uid true d with
      | None => AErr
      | Some d => AWait d (fun d => ARet 0 (close_user ops filep d))
      end)))).

(** The result of [sensor_ioctl].  The other commands do not call the lower half
    without the lock and then take it again. *)
Definition ioctl_steps (fuel : nat) (filep : file) (cmd : sensor_cmd) d : act Z :=
  match cmd with
  | SNIOC_SET_INTERVAL arg =>
      update_interval_steps fuel (f_priv filep) (if arg =? 0 then UINT32_MAX else arg) d
  | SNIOC_BATCH arg => update_latency_steps fuel (f_priv filep) arg d
  | _ => aopt ('(ret, _, d) ← sensor_ioctl ops [] filep cmd d; Some (ret, d))
  end.

(** ** The same calls with the other tasks as a list of functions *)

Fixpoint exec {A} win (m : act A) : option (A * dev LS) :=
  match m with
  | ARet a d => Some (a, d)
  | AWait d k => let '(win, d) := window_step win d in exec win (k d)
  | AErr => None
  end.

(** A pass of Sensor.v, with what follows a jump. *)
Definition after_pass (again : list (dev LS -> dev LS) -> Z -> Z -> Z -> dev LS -> option (Z * dev LS))
    (p : pass) : option (Z * dev LS) :=
  match p with
  | PRet ret d => Some (ret, d)
  | PAgain ret mi ml win d => again win ret mi ml d
  end.

Lemma exec_batch again win uid interval ret mi ml d :
  exec win (batch_steps again uid interval ret mi ml d) =
  after_pass (fun win ret mi ml d => exec win (again ret mi ml d))
    (interval_batch ops win uid interval ret mi ml d).
Proof.
  unfold batch_steps, interval_batch. destruct (op_batch ops) as [batch|]; [|done].
  destruct (negb _ || _); [|done]. destruct (batch _ _) as [[r ml'] x]. cbn [exec].
  destruct (window_step win _) as [win' d']. by destruct (negb _).
Qed.

Lemma exec_interval again win uid interval ret mi ml d :
  exec win (interval_steps again uid interval ret mi ml d) =
  after_pass (fun win ret mi ml d => exec win (again ret mi ml d))
    (interval_pass ops win uid interval ret mi ml d).
Proof.
  unfold interval_steps, interval_pass. destruct (min_over _ _ _ _) as [mi1 ml1].
  destruct (op_set_interval ops) as [si|]; [|done].
  destruct (negb _ && _); [|apply exec_batch]. destruct (si _ _) as [[r mi'] x]. cbn [exec].
  destruct (window_step win _) as [win' d'].
  destruct (r <? 0); [done|]. destruct (mi1 <? mi'); [done|]. destruct (negb _); [done|]. apply exec_batch.
Qed.

Lemma exec_interval_runs fuel win uid interval ret mi ml d :
  exec win (interval_runs fuel uid interval ret mi ml d) =
  interval_loop ops fuel win uid interval ret mi ml d.
Proof.
  revert win ret mi ml d. induction fuel as [|fuel IH]; intros win ret mi ml d; [done|].
  cbn [interval_runs interval_loop]. rewrite exec_interval.
  destruct (interval_pass _ _ _ _ _ _ _ _); simpl; [done|]. apply IH.
Qed.

Lemma exec_latency again win uid latency ret ml d :
  exec win (latency_steps again uid latency ret ml d) =
  after_pass (fun win ret _ ml d => exec win (again ret ml d))
    (latency_pass ops win uid latency ret ml d).
Proof.
  unfold latency_steps, latency_pass. destruct (_ =? min_latency _); [done|].
  destruct (op_batch ops) as [batch|]; [|done]. destruct (batch _ _) as [[r ml'] x]. cbn [exec].
  destruct (window_step win _) as [win' d']. destruct (r <? 0); [done|]. by destruct (negb _).
Qed.

Lemma exec_latency_runs fuel win uid latency ret ml d :
  exec win (latency_runs fuel uid latency ret ml d) =
  latency_loop ops fuel win uid latency ret ml d.
Proof.
  revert win ret ml d. induction fuel as [|fuel IH]; intros win ret ml d; [done|].
  cbn [latency_runs latency_loop]. rewrite exec_latency.
  destruct (latency_pass _ _ _ _ _ _ _); simpl; [done|]. apply IH.
Qed.

Lemma exec_update_interval win uid interval d :
  exec win (update_interval_steps (S (length win)) uid interval d) =
  sensor_update_interval ops win uid interval d.
Proof.
  unfold update_interval_steps, sensor_update_interval. destruct (get_user uid d) as [u|]; [|done].
  cbn [mbind option_bind]. destruct (interval =? _); [done|]. apply exec_interval_runs.
Qed.

Lemma exec_update_latency win uid latency d :
  exec win (update_latency_steps (S (length win)) uid latency d) =
  sensor_update_latency ops win uid latency d.
Proof.
  unfold update_latency_steps, sensor_update_latency. destruct (get_user uid d) as [u|]; [|done].
  cbn [mbind option_bind]. destruct (latency =? _); [done|]. destruct (_ =? UINT32_MAX); [done|].
  apply exec_latency_runs.
Qed.

(** Without other tasks a suspended computation just goes on. *)
Lemma exec_bind {A B} (m : act A) (f : A -> dev LS -> act B) :
  exec [] (abind m f) = '(a, d) ← exec [] m; exec [] (f a d).
Proof. induction m as [a d|d k IH|]; simpl; [done|apply IH|done]. Qed.

(** [sensor_ioctl] is [ioctl_steps] run with the windows. *)
Lemma exec_ioctl win filep cmd d :
  exec win (ioctl_steps (S (length win)) filep cmd d) =
  '(ret, _, d) ← sensor_ioctl ops win filep cmd d; Some (ret, d).
Proof.
  assert (forall o : option (Z * dev LS), exec win (aopt o) = o) as Ho by (intros [[r d1]|]; done).
  destruct cmd; cbn [ioctl_steps]; try (rewrite Ho; done).
  - rewrite exec_update_interval. cbn [sensor_ioctl].
    by destruct (sensor_update_interval _ _ _ _ _) as [[r d1]|].
  - rewrite exec_update_latency. cbn [sensor_ioctl].
    by destruct (sensor_update_latency _ _ _ _ _) as [[r d1]|].
Qed.

(** [sensor_close] is [close_steps] run alone. *)
Lemma exec_close filep d : exec [] (close_steps 1 1 filep d) = sensor_close ops [] [] filep d.
Proof.
  pose proof (exec_update_interval [] (f_priv filep) UINT32_MAX) as Hi.
  pose proof (exec_update_latency [] (f_priv filep) UINT32_MAX) as Hl. simpl in Hi, Hl.
  unfold close_steps, sensor_close. rewrite exec_bind, Hi.
  destruct (sensor_update_interval _ _ _ _ _) as [[r1 d1]|]; [|done]. cbn [mbind option_bind exec window_step].
  rewrite exec_bind, Hl.
  destruct (sensor_update_latency _ _ _ _ _) as [[r2 d2]|]; [|done]. cbn [mbind option_bind exec window_step].
  by destruct (sensor_update_nonwakeup _ _ _ _).
Qed.
End steps.

Arguments act LS A : clear implicits.
