(* ===== verification/SensorSpec.v ===== *)
(** The state of a sensor device in every run.

    The upper half keeps counts and summaries of its users: how many subscribers
    and advertisers there are, whether all users allow non-wakeup operation, how
    large the buffers are.  [dev_ok] says that they agree with the list of users
    and that the fields of every user stay in their ranges; the theorem shows it
    for every device that any number of tasks use through any calls.  The calls
    are those of SensorSteps.v: one that has released the lock stays under way
    while others begin, go on and return. *)

From S2P Require Import Prelude.
From stdpp Require Import list relations gmap.
From S2P Require Import Circbuf Poll Sensor Topic SensorSteps.
Local Open Scope Z_scope.

(** The role that [sensor_open] gives the user of a file. *)
Definition file_role (f : file) : Z :=
  Z.lor (if f_rdok f then SENSOR_ROLE_RD else 0) (if f_wrok f then SENSOR_ROLE_WR else 0).

(** The users of a role. *)
Definition role_count (r : Z) (l : list (Z * sensor_user_s)) : Z :=
  foldr (fun p n => (if has_flag (role p.2) r then 1 else 0) + n) 0 l.

Definition all_nonwakeup (l : list (Z * sensor_user_s)) : bool :=
  forallb (fun '(_, u) => u_nonwakeup (ustate u)) l.

(** An interval is never 0, so that rounding a time to it divides by a number
    that is not 0; the semaphore of a user is posted at most once. *)
Definition user_ok (u : sensor_user_s) : Prop :=
  0 < u_interval (ustate u) <= UINT32_MAX /\ 0 <= buffersem u <= 1.

Section devices.
Context {LS : Type} (ops : sensor_ops_s LS).
Implicit Types (d : dev LS) (win : list (dev LS -> dev LS)).

(** What a call of the lower half other than [activate] can do to its state. *)
Inductive driver_step (x : LS) : LS -> Prop :=
| ds_open f : op_open ops = Some f -> driver_step x (f x).2
| ds_close f : op_close ops = Some f -> driver_step x (f x).2
| ds_set_interval f i : op_set_interval ops = Some f -> driver_step x (f i x).2
| ds_batch f l : op_batch ops = Some f -> driver_step x (f l x).2
| ds_fetch f n : op_fetch ops = Some f -> driver_step x (f n x).2
| ds_flush f : op_flush ops = Some f -> driver_step x (f x).2
| ds_set_nonwakeup f b : op_set_nonwakeup ops = Some f -> driver_step x (f b x)
| ds_selftest f a : op_selftest ops = Some f -> driver_step x (f a x).2
| ds_set_calibvalue f a : op_set_calibvalue ops = Some f -> driver_step x (f a x).2
| ds_calibrate f a : op_calibrate ops = Some f -> driver_step x (f a x).2
| ds_get_info f : op_get_info ops = Some f -> driver_step x (f x).2
| ds_control f c a : op_control ops = Some f -> driver_step x (f c a x).2.

(** A lower half that is switched on and off by [activate] only. *)
Class Switch (active : LS -> bool) : Prop := {
  sw_activate f b x : op_activate ops = Some f -> 0 <= (f b x).1 -> active (f b x).2 = b;
  sw_other x y : driver_step x y -> active y = active x
}.

Context (active : LS -> bool) `{!Switch active}.

Record dev_ok (d : dev LS) : Prop := {
  (** The users are different objects with fields in their ranges. *)
  do_names : NoDup (map fst (userlist (upper d)));
  do_users : Forall (fun p => user_ok p.2) (userlist (upper d));
  (** The counts; a lower half with [activate] is an advertiser itself. *)
  do_subs : nsubscribers (state (upper d)) = role_count SENSOR_ROLE_RD (userlist (upper d));
  do_advs : nadvertisers (state (upper d)) =
    match op_activate ops with Some _ => 1 | None => 0 end + role_count SENSOR_ROLE_WR (userlist (upper d));
  do_few : zlen (userlist (upper d)) < UINT32_MAX;
  do_nonwakeup : nonwakeup (state (upper d)) = all_nonwakeup (userlist (upper d));
  (** The buffers are as large as the state says. *)
  do_esize : esize (state (upper d)) <> 0;
  do_nbuffer : s_nbuffer (state (upper d)) = nbuffer (lower d);
  do_sizes : circbuf_is_init (buffer (upper d)) = true ->
    size (buffer (upper d)) = u32 (nbuffer (lower d) * esize (state (upper d))) /\
    size (timing (upper d)) = u32 (nbuffer (lower d) * TIMING_BUF_ESIZE);
  (** The lower half is on while there are subscribers. *)
  do_active : is_Some (op_activate ops) -> 0 < nsubscribers (state (upper d)) ->
    active (drv (lower d)) = true
}.

(** The file belongs to a user of the device. *)
Definition owns (f : file) d : Prop :=
  exists u, get_user (f_priv f) d = Some u /\ role u = file_role f.

(** What a call must not change of the users of others. *)
Definition uview d (v : Z) : option (Z * bool) :=
  (fun u => (role u, u_nonwakeup (ustate u))) <$> get_user v d.

(** The state is in order, and the users in [P] are those of [d0]. *)
Definition kept (P : Z -> Prop) (d0 d : dev LS) : Prop :=
  dev_ok d /\ forall v, P v -> uview d v = uview d0 v.

(** ** Changes that keep the state in order *)

(** Everything [dev_ok] looks at. *)
Definition dview d :=
  let s := state (upper d) in
  (userlist (upper d), nsubscribers s, nadvertisers s, nonwakeup s, (esize s, s_nbuffer s, nbuffer (lower d)),
   (buffer (upper d), timing (upper d)), active (drv (lower d))).

Lemma ok_frame d d' : dview d' = dview d -> dev_ok d -> dev_ok d'.
Proof.
  unfold dview. intros [= H1 H2 H3 H4 H5 H6 H7 H8 H9 H10] [].
  constructor; rewrite ?H1, ?H2, ?H3, ?H4, ?H5, ?H6, ?H7, ?H8, ?H9, ?H10; done.
Qed.

Lemma kept_refl P d : dev_ok d -> kept P d d.
Proof. by intros Hd. Qed.

Lemma kept_trans (P : Z -> Prop) d0 d1 d2 : kept P d0 d1 -> kept P d1 d2 -> kept P d0 d2.
Proof. intros [_ H1] [Hd H2]. split; [done|]. intros v Hv. by rewrite (H2 v Hv), (H1 v Hv). Qed.

Lemma kept_weaken (P Q : Z -> Prop) d0 d : (forall v, Q v -> P v) -> kept P d0 d -> kept Q d0 d.
Proof. intros Hq [Hd H]. split; [done|]. intros v Hv. apply H, Hq, Hv. Qed.

Lemma kept_frame P d0 d d' : dview d' = dview d -> kept P d0 d -> kept P d0 d'.
Proof.
  intros Hv [Hd H]. split; [by apply (ok_frame d)|]. intros v Pv. rewrite <- (H v Pv).
  unfold uview, get_user. by injection Hv as -> _ _ _ _ _ _ _ _ _.
Qed.

Lemma owns_view f d d' : uview d' (f_priv f) = uview d (f_priv f) -> owns f d -> owns f d'.
Proof.
  unfold uview. intros Hv (u & Hu & Hr). rewrite Hu in Hv.
  destruct (get_user (f_priv f) d') as [u'|] eqn:E; [|done]. injection Hv as Hr' _. exists u'.
  split; [done|]. congruence.
Qed.

Lemma kept_owns (P : Z -> Prop) f d0 d : P (f_priv f) -> kept P d0 d -> owns f d0 -> owns f d.
Proof. intros Hp [_ H]. by apply owns_view, H. Qed.

(** A change of the users, one by one. *)
Definition keeps (g : Z -> sensor_user_s -> sensor_user_s) : Prop := forall i u,
  role (g i u) = role u /\ u_nonwakeup (ustate (g i u)) = u_nonwakeup (ustate u) /\
  (user_ok u -> user_ok (g i u)).

Lemma role_count_map r g l : (forall i u, role (g i u) = role u) ->
  role_count r (map (fun '(i, u) => (i, g i u)) l) = role_count r l.
Proof. intros Hg. induction l as [|[i u] l IH]; [done|]. simpl. by rewrite Hg, IH. Qed.

Lemma all_nonwakeup_map g l : (forall i u, u_nonwakeup (ustate (g i u)) = u_nonwakeup (ustate u)) ->
  all_nonwakeup (map (fun '(i, u) => (i, g i u)) l) = all_nonwakeup l.
Proof. intros Hg. induction l as [|[i u] l IH]; [done|]. simpl. f_equal; [apply Hg|apply IH]. Qed.

Lemma map_fst_users (g : Z -> sensor_user_s -> sensor_user_s) l :
  map fst (map (fun '(i, u) => (i, g i u)) l) = map fst l.
Proof. rewrite map_map. apply map_ext. by intros []. Qed.

Lemma users_ok_map g (l : list (Z * sensor_user_s)) : (forall i u, user_ok u -> user_ok (g i u)) ->
  Forall (fun p => user_ok p.2) l -> Forall (fun p => user_ok p.2) (map (fun '(i, u) => (i, g i u)) l).
Proof. intros Hg Hl. apply Forall_map. eapply Forall_impl; [exact Hl|]. intros [i u]. apply Hg. Qed.

Lemma ok_map g d : keeps g -> dev_ok d -> dev_ok (map_users g d).
Proof.
  intros Hg []. constructor; simpl; try done.
  - by rewrite map_fst_users.
  - apply users_ok_map; [intros i u; apply Hg|done].
  - rewrite role_count_map; [done|]. intros i u. apply Hg.
  - rewrite role_count_map; [done|]. intros i u. apply Hg.
  - by rewrite length_map.
  - rewrite all_nonwakeup_map; [done|]. intros i u. apply Hg.
Qed.

Lemma kept_map P d0 g d : keeps g -> kept P d0 d -> kept P d0 (map_users g d).
Proof.
  intros Hg [H1 H2]. split; [by apply ok_map|]. intros v Pv. rewrite <- (H2 v Pv). unfold uview.
  rewrite get_user_map. destruct (get_user v d) as [u|]; [|done]. simpl.
  destruct (Hg v u) as (-> & -> & _). done.
Qed.

Lemma keeps_upd uid h :
  (forall u, role (h u) = role u /\ u_nonwakeup (ustate (h u)) = u_nonwakeup (ustate u) /\
             (user_ok u -> user_ok (h u))) -> keeps (fun i u => if i =? uid then h u else u).
Proof. intros Hh i u. destruct (i =? uid); [apply Hh|done]. Qed.

Lemma kept_upd P d0 uid h d :
  (forall u, role (h u) = role u /\ u_nonwakeup (ustate (h u)) = u_nonwakeup (ustate u) /\
             (user_ok u -> user_ok (h u))) -> kept P d0 d -> kept P d0 (upd_user uid h d).
Proof. intros Hh. by apply kept_map, keeps_upd. Qed.

Lemma keeps_notify e r : keeps (fun _ => sensor_pollnotify_one e r).
Proof.
  intros i u. unfold sensor_pollnotify_one. destruct (_ =? 0); [done|]. by destruct (e =? POLLPRI).
Qed.

Lemma kept_notify P d0 e r d : kept P d0 d -> kept P d0 (sensor_pollnotify e r d).
Proof. apply kept_map, keeps_notify. Qed.

Lemma keeps_wake : keeps (fun _ => wake_reader).
Proof.
  intros i u. unfold wake_reader.
  destruct (keeps_notify POLLIN SENSOR_ROLE_RD i
    (if buffersem u <? 1 then set_buffersem (buffersem u + 1) u else u)) as (-> & -> & H).
  destruct (Z.ltb_spec (buffersem u) 1); (split; [done|]; split; [done|]); [|done].
  intros [H1 H2]. apply H. split; [done|]. simpl. lia.
Qed.

Lemma keeps_flush_done : keeps (fun _ => flush_done).
Proof.
  intros i u. unfold flush_done. by apply (keeps_notify POLLPRI (role u) i (set_event _ false u)).
Qed.

Lemma kept_drv P d0 x d : driver_step (drv (lower d)) x -> kept P d0 d -> kept P d0 (set_drv x d).
Proof. intros Hx. apply kept_frame. unfold dview. simpl. by rewrite (sw_other (active := active) _ _ Hx). Qed.

(** ** Intervals, latencies and non-wakeup operation *)

(** Every part of a computation keeps the users, from whatever state in order it
    is continued. *)
Fixpoint steady {A} (d0 : dev LS) (m : act LS A) : Prop :=
  match m with
  | ARet _ d => kept (fun _ => True) d0 d
  | AWait d k => kept (fun _ => True) d0 d /\ forall d', dev_ok d' -> steady d' (k d')
  | AErr => True
  end.

Abbreviation same d0 := (kept (fun _ => True) d0).

Lemma steady_from {A} d0 d (m : act LS A) : same d0 d -> steady d m -> steady d0 m.
Proof.
  intros H. destruct m as [a d1|d1 k|]; simpl; [by apply kept_trans| |done].
  intros [H1 H2]. split; [by eapply kept_trans|done].
Qed.

(** The end of both loops. *)
Lemma same_commit d0 uid g h d :
  dview (g d) = dview d ->
  (forall u, role (h u) = role u /\ u_nonwakeup (ustate (h u)) = u_nonwakeup (ustate u) /\
             (user_ok u -> user_ok (h u))) -> same d0 d ->
  same d0 (upper_unlock (sensor_pollnotify POLLPRI SENSOR_ROLE_WR (upd_user uid h (g d)))).
Proof.
  intros Hg Hh Hd. eapply kept_frame; [|apply kept_notify, kept_upd, (kept_frame _ d0 d); done]. done.
Qed.

(** A call of the lower half after the lock was released. *)
Lemma same_call d0 x d :
  driver_step (drv (lower d)) x -> same d0 d -> same d0 (set_drv x (upper_unlock d)).
Proof. intros Hx Hd. apply kept_drv; [done|]. by apply (kept_frame _ d0 d). Qed.

Lemma same_lock d : dev_ok d -> same d (upper_lock d).
Proof. intros Hd. apply (kept_frame _ d d); [done|by apply kept_refl]. Qed.

Lemma set_interval_ok i u : 0 < i <= UINT32_MAX ->
  role (set_u_interval i u) = role u /\
  u_nonwakeup (ustate (set_u_interval i u)) = u_nonwakeup (ustate u) /\
  (user_ok u -> user_ok (set_u_interval i u)).
Proof. intros Hi. split; [done|]. split; [done|]. by intros [_ H]. Qed.

Lemma batch_steady again uid i ret mi ml d :
  0 < i <= UINT32_MAX -> (forall r mi ml d, dev_ok d -> steady d (again r mi ml d)) -> dev_ok d ->
  steady d (batch_steps ops again uid i ret mi ml d).
Proof.
  intros Hi Ha Hd. unfold batch_steps, interval_commit. pose proof (fun u => set_interval_ok i u Hi) as Hs.
  pose proof (kept_refl (fun _ => True) d Hd) as H0.
  destruct (op_batch ops) as [batch|] eqn:Eb; [|by apply (same_commit d uid (set_state _))].
  destruct (negb _ || _); [|by apply (same_commit d uid (set_state _))].
  set (ml0 := if ml =? UINT32_MAX then 0 else ml). pose proof (ds_batch (drv (lower d)) batch ml0 Eb) as Hx.
  change (drv (lower (upper_unlock d))) with (drv (lower d)).
  destruct (batch ml0 (drv (lower d))) as [[r ml1] x]. split; [by apply same_call|]. intros d1 Hd1.
  pose proof (same_lock d1 Hd1) as H1.
  destruct (negb _); [by eapply steady_from, Ha, H1|].
  destruct (0 <=? r); [|by apply (same_commit d1 uid (set_state _))].
  by apply (same_commit d1 uid (fun d => set_state (set_min_interval mi) (set_state (set_min_latency ml1) d))).
Qed.

Lemma interval_steady again uid i ret mi ml d :
  0 < i <= UINT32_MAX -> (forall r mi ml d, dev_ok d -> steady d (again r mi ml d)) -> dev_ok d ->
  steady d (interval_steps ops again uid i ret mi ml d).
Proof.
  intros Hi Ha Hd. unfold interval_steps. destruct (min_over _ _ _ _) as [mi1 ml1].
  pose proof (fun u => set_interval_ok i u Hi) as Hs. pose proof (kept_refl (fun _ => True) d Hd) as H0.
  destruct (op_set_interval ops) as [set_interval|] eqn:Eo; [|by apply (same_commit d uid (set_state _))].
  destruct (negb _ && _); [|by apply batch_steady].
  pose proof (ds_set_interval (drv (lower d)) set_interval mi1 Eo) as Hx.
  change (drv (lower (upper_unlock d))) with (drv (lower d)).
  destruct (set_interval mi1 (drv (lower d))) as [[r mi2] x]. split; [by apply same_call|]. intros d1 Hd1.
  destruct (r <? 0); [by apply kept_refl|]. destruct (mi1 <? mi2); [by apply kept_refl|].
  pose proof (same_lock d1 Hd1) as H1. eapply steady_from; [exact H1|].
  destruct (negb _); [by apply Ha, H1|]. by apply batch_steady; [..|apply H1].
Qed.

Lemma interval_runs_steady fuel uid i ret mi ml d :
  0 < i <= UINT32_MAX -> dev_ok d -> steady d (interval_runs ops fuel uid i ret mi ml d).
Proof.
  intros Hi. revert ret mi ml d. induction fuel as [|fuel IH]; intros ret mi ml d Hd; [done|].
  by apply interval_steady.
Qed.

Lemma update_interval_steady fuel uid i d :
  0 < i <= UINT32_MAX -> dev_ok d -> steady d (update_interval_steps ops fuel uid i d).
Proof.
  intros Hi Hd. unfold update_interval_steps. destruct (get_user uid d) as [u|]; [|done].
  destruct (i =? _); [by apply kept_refl|]. pose proof (same_lock d Hd) as H1.
  eapply steady_from; [exact H1|]. by apply interval_runs_steady; [|apply H1].
Qed.

Lemma latency_steady again uid l ret ml d :
  (forall r ml d, dev_ok d -> steady d (again r ml d)) -> dev_ok d ->
  steady d (latency_steps ops again uid l ret ml d).
Proof.
  intros Ha Hd. unfold latency_steps, latency_commit. set (ml1 := if (_ : bool) then 0 else _).
  pose proof (kept_refl (fun _ => True) d Hd) as H0. destruct (ml1 =? _).
  { eapply (kept_frame _ d); [|by apply (kept_upd _ d uid (set_u_latency l) d)]. done. }
  destruct (op_batch ops) as [batch|] eqn:Eb; [|by apply (same_commit d uid (set_state _))].
  pose proof (ds_batch (drv (lower d)) batch ml1 Eb) as Hx.
  change (drv (lower (upper_unlock d))) with (drv (lower d)).
  destruct (batch ml1 (drv (lower d))) as [[r ml2] x]. split; [by apply same_call|]. intros d1 Hd1.
  destruct (r <? 0); [by apply kept_refl|]. pose proof (same_lock d1 Hd1) as H1.
  destruct (negb _); [by eapply steady_from, Ha, H1|]. by apply (same_commit d1 uid (set_state _)).
Qed.

Lemma latency_runs_steady fuel uid l ret ml d :
  dev_ok d -> steady d (latency_runs ops fuel uid l ret ml d).
Proof.
  revert ret ml d. induction fuel as [|fuel IH]; intros ret ml d Hd; [done|]. by apply latency_steady.
Qed.

Lemma update_latency_steady fuel uid l d :
  dev_ok d -> steady d (update_latency_steps ops fuel uid l d).
Proof.
  intros Hd. unfold update_latency_steps. destruct (get_user uid d) as [u|]; [|done].
  pose proof (kept_refl (fun _ => True) d Hd) as H0. pose proof (same_lock d Hd) as H1.
  destruct (l =? _); [done|]. destruct (_ =? UINT32_MAX); [by apply kept_upd|].
  eapply steady_from; [exact H1|]. by apply latency_runs_steady, H1.
Qed.

Lemma all_nonwakeup_false uid l u :
  assoc uid l = Some u -> u_nonwakeup (ustate u) = false -> all_nonwakeup l = false.
Proof.
  induction l as [|[i v] l IH]; [done|]. simpl. destruct (i =? uid); [by intros [= ->] ->|].
  intros H1 H2. rewrite (IH H1 H2). apply andb_false_r.
Qed.

(** A user is changed and the summary computed again. *)
Lemma kept_nonwakeup (P : Z -> Prop) d0 uid nw d :
  let d1 := upd_user uid (set_u_nonwakeup nw) d in
  ~ P uid -> kept P d0 d -> kept P d0 (set_state (set_nonwakeup (all_nonwakeup (userlist (upper d1)))) d1).
Proof.
  intros d1 Hp [[] Ho]. split.
  - assert (forall i u, role (if i =? uid then set_u_nonwakeup nw u else u) = role u) as Hr
      by (intros i u; by destruct (i =? uid)).
    constructor; simpl; try done.
    + by rewrite map_fst_users.
    + apply users_ok_map; [|done]. intros i u. by destruct (i =? uid).
    + by rewrite role_count_map.
    + by rewrite role_count_map.
    + by rewrite length_map.
  - intros v Pv. rewrite <- (Ho v Pv). unfold uview.
    change (get_user v (set_state _ d1)) with (get_user v d1). unfold d1.
    destruct (Z.eq_dec v uid) as [->|Hv]; [done|]. by rewrite get_user_upd_ne.
Qed.

Lemma update_nonwakeup_kept (P : Z -> Prop) d0 uid nw d d' :
  ~ P uid -> kept P d0 d -> sensor_update_nonwakeup ops uid nw d = Some d' ->
  kept P d0 d' /\ exists u u', get_user uid d = Some u /\ get_user uid d' = Some u' /\ role u' = role u /\
    u_nonwakeup (ustate u') = nw.
Proof.
  intros Hp Hd. unfold sensor_update_nonwakeup. destruct (get_user uid d) as [u|] eqn:Hu; [|done].
  cbn [mbind option_bind]. destruct (eqb nw (u_nonwakeup (ustate u))) eqn:E.
  { intros [= <-]. split; [done|]. exists u, u. split; [done|]. split; [done|]. split; [done|].
    by apply eqb_prop in E. }
  set (d1 := upd_user uid (set_u_nonwakeup nw) d).
  assert (get_user uid d1 = Some (set_u_nonwakeup nw u)) as Hu1 by (unfold d1; by rewrite get_user_upd, Hu).
  change (forallb _ (userlist (upper (upper_lock d1)))) with (all_nonwakeup (userlist (upper d1))).
  replace (nw && all_nonwakeup _) with (all_nonwakeup (userlist (upper d1))).
  2:{ destruct nw; [done|]. by eapply all_nonwakeup_false. }
  pose proof (kept_nonwakeup P d0 uid nw d Hp Hd) as Hg. fold d1 in Hg.
  destruct (eqb (all_nonwakeup (userlist (upper d1))) (nonwakeup (state (upper (upper_lock d1))))) eqn:En;
    intros Ed; apply (inj Some) in Ed; subst d';
    (split; [|exists u, (set_u_nonwakeup nw u); split; [done|]; split; [|done]; by repeat case_match]).
  - apply eqb_prop in En. eapply kept_frame; [|exact Hg]. unfold dview. simpl in *. by rewrite En.
  - destruct (op_set_nonwakeup ops) as [g|] eqn:Eg; [|by eapply kept_frame; [|exact Hg]].
    apply kept_drv; [by apply ds_set_nonwakeup|]. by eapply kept_frame; [|exact Hg].
Qed.

(** ** Reading, publishing, polling and control *)

Lemma assoc_users_ok uid l u : Forall (fun p => user_ok p.2) l -> assoc uid l = Some u -> user_ok u.
Proof.
  induction 1 as [|[i v] l Hv _ IH]; [done|]. simpl. destruct (i =? uid); [by intros [= <-]|done].
Qed.

Lemma get_user_ok uid d u : dev_ok d -> get_user uid d = Some u -> user_ok u.
Proof. intros Hd. apply assoc_users_ok, Hd. Qed.

Lemma upd_user_const uid u0 u h d :
  NoDup (map fst (userlist (upper d))) -> get_user uid d = Some u0 -> h u0 = u ->
  upd_user uid (fun _ => u) d = upd_user uid h d.
Proof.
  intros Hn Hu <-. unfold upd_user, map_users. f_equal. unfold get_user in Hu.
  induction (userlist (upper d)) as [|[i v] l IH]; [done|]. simpl in *.
  apply NoDup_cons in Hn as [Hi Hn]. destruct (Z.eqb_spec i uid) as [->|Hne].
  - injection Hu as ->. f_equal. clear IH Hn. induction l as [|[j w] l IH]; [done|]. simpl in *.
    apply not_elem_of_cons in Hi as [Hj Hi]. replace (j =? uid) with false by lia. f_equal. by apply IH.
  - f_equal. by apply IH.
Qed.

(** A read moves the position and the generation of its user only. *)
Definition moved (u u' : sensor_user_s) : Prop :=
  exists p g, u' = set_bufferpos p (set_u_generation g u).

Lemma moved_refl u : moved u u.
Proof. exists (bufferpos u), (u_generation (ustate u)). by destruct u as [? ? ? ? ? ? ? []]. Qed.

Lemma moved_pos p u u' : moved u u' -> moved u (set_bufferpos p u').
Proof. intros (q & g & ->). by exists p, g. Qed.

Lemma moved_gen g u u' : moved u u' -> moved u (set_u_generation g u').
Proof. intros (q & h & ->). by exists q, g. Qed.

Lemma catch_up_moved d u u' : sensor_catch_up d u = Some u' -> moved u u'.
Proof.
  unfold sensor_catch_up. destruct (circbuf_peek _ _) as [l|]; [|done]. cbn [mbind option_bind].
  destruct (read_u32 l) as [g|]; [|done]. cbn [mbind option_bind].
  destruct (0 <? _); [|intros [= <-]; apply moved_refl].
  destruct (_ =? UINT32_MAX); intros [= <-]; apply moved_gen, moved_pos, moved_refl.
Qed.

Lemma one_by_one_moved n d u0 pos g len buf out ret u o r a u' : moved u0 u ->
  one_by_one n d pos g len buf out ret u = Some (o, r, a, u') -> moved u0 u'.
Proof.
  revert pos g out ret u. induction n as [|n IH]; intros pos g out ret u Hm; simpl.
  { by intros [= <- <- <- <-]. }
  destruct (if _ =? _ then _ else _) as [ng|]; [|done]. cbn [mbind option_bind].
  destruct (0 <=? _); [|by apply IH].
  destruct (if buf then _ else _) as [l|]; [|done]. cbn [mbind option_bind].
  destruct (len <=? _); [intros [= _ _ _ <-]|apply IH]; by apply moved_gen, moved_pos.
Qed.

Lemma do_samples_moved d u buf len l r u' :
  sensor_do_samples d u buf len = Some (l, r, u') -> moved u u'.
Proof.
  unfold sensor_do_samples. destruct (sensor_catch_up d u) as [u1|] eqn:E1; [|done].
  apply catch_up_moved in E1. cbn [mbind option_bind].
  destruct (u_interval (ustate u1) =? UINT32_MAX).
  - destruct (if buf then _ else _) as [l1|]; [|done]. cbn [mbind option_bind].
    destruct (peek_u32 _ _ _) as [g|]; [|done]. cbn [mbind option_bind].
    intros [= _ _ <-]. by apply moved_gen, moved_pos.
  - destruct (circbuf_peekat _ _ _) as [l1|]; [|done]. cbn [mbind option_bind].
    destruct (if bufferpos u1 =? _ then _ else _) as [g|]; [|done]. cbn [mbind option_bind].
    destruct (one_by_one _ _ _ _ _ _ _ _ _) as [[[[o r1] all] u2]|] eqn:E2; [|done].
    apply (one_by_one_moved _ _ u) in E2; [|done]. cbn [mbind option_bind].
    destruct (all && _); intros [= _ _ <-]; [by apply moved_gen|done].
Qed.

Lemma kept_moved P d0 uid u0 u d :
  get_user uid d = Some u0 -> moved u0 u -> kept P d0 d -> kept P d0 (upd_user uid (fun _ => u) d).
Proof.
  intros Hu (p & g & ->) Hd. rewrite (upd_user_const uid u0 _ (fun u => set_bufferpos p (set_u_generation g u)));
    [by apply kept_upd|apply Hd|done|done].
Qed.

Lemma read_kept P d0 f buf len d r d' : kept P d0 d -> sensor_read ops f buf len d = Some (r, d') -> kept P d0 d'.
Proof.
  intros Hd. unfold sensor_read. destruct (len =? 0); [by intros [= _ <-]|].
  change (get_user (f_priv f) (upper_lock d)) with (get_user (f_priv f) d).
  destruct (get_user (f_priv f) d) as [u|] eqn:Hu; [|done]. cbn [mbind option_bind].
  assert (kept P d0 (upper_unlock (upper_lock d))) as H0 by by apply (kept_frame P d0 d).
  destruct (op_fetch ops) as [fetch|] eqn:Ef.
  - destruct buf; [|intros [= _ <-]; by apply (kept_frame P d0 d)].
    pose proof (ds_fetch (drv (lower d)) fetch len Ef) as Hx.
    destruct (negb (f_nonblock f)).
    + destruct (Z.ltb_spec (buffersem u) 1) as [Hs|Hs]; [by intros [= _ <-]|].
      simpl. destruct (fetch len (drv (lower d))) as [[r1 l1] x]. intros [= _ <-].
      pose proof (get_user_ok _ _ _ (proj1 Hd) Hu) as [_ Hb].
      apply (kept_drv P d0 x (upd_user (f_priv f) (set_buffersem (buffersem u - 1)) d)) in Hx;
        [by eapply (kept_frame P d0); [|exact Hx]|].
      apply kept_upd; [|done]. intros v. split; [done|]. split; [done|]. intros [H1 H2]. split; [done|]. simpl. lia.
    + destruct (_ =? 0); [by intros [= _ <-]|]. simpl. destruct (fetch len (drv (lower d))) as [[r1 l1] x].
      intros [= _ <-]. apply (kept_drv P d0 x d) in Hx; [|done]. by eapply (kept_frame P d0); [|exact Hx].
  - destruct (circbuf_is_empty _); [by intros [= _ <-]|]. destruct (sensor_is_updated _ u).
    + destruct (sensor_do_samples _ u buf len) as [[[l1 r1] u1]|] eqn:Es; [|done]. cbn [mbind option_bind].
      intros [= _ <-]. apply do_samples_moved in Es.
      eapply (kept_frame P d0); [|apply (kept_moved P d0 (f_priv f) u u1 d); done]. done.
    + destruct (persist _); [|by intros [= _ <-]]. destruct buf; simpl negb; cbv iota; [|by intros [= _ <-]].
      destruct (circbuf_peekat _ _ _) as [l1|]; [|done]. cbn [mbind option_bind]. by intros [= _ <-].
Qed.

Lemma overwrite_size src c n c' : circbuf_overwrite src c = Some (n, c') ->
  size c' = size c /\ circbuf_is_init c' = circbuf_is_init c.
Proof.
  unfold circbuf_overwrite. destruct (size c =? 0); [by intros [= _ <-]|].
  set (skip := if _ <? zlen src then _ else 0). unfold circbuf_is_init. destruct (base c) as [b|]; [|done].
  cbn [mbind option_bind]. destruct (copy_in _ _ _ _ _) as [b'|]; [|done].
  cbn [mbind option_bind]. by intros [= _ <-].
Qed.

Lemma kept_buffers P d0 t b d :
  (circbuf_is_init b = true -> size b = u32 (nbuffer (lower d) * esize (state (upper d))) /\
                               size t = u32 (nbuffer (lower d) * TIMING_BUF_ESIZE)) ->
  kept P d0 d -> kept P d0 (set_buffers t b d).
Proof. intros H [[] Hv]. split; [by constructor|done]. Qed.

Lemma init_ok sz mem c r b : circbuf_init None sz mem c = (r, b) ->
  (0 <= r -> size b = sz) /\ (circbuf_is_init c = false -> r < 0 -> circbuf_is_init b = false).
Proof.
  unfold circbuf_init. destruct (sz =? 0); [|destruct mem]; intros [= <- <-];
    (split; [|done || by intros ? []]); [done..|]. by intros [].
Qed.

Lemma push_buffers_kept P d0 mem1 mem2 d r d' :
  kept P d0 d -> push_buffers mem1 mem2 d = (r, d') -> kept P d0 d'.
Proof.
  intros Hd. unfold push_buffers. destruct (circbuf_is_init (buffer (upper d))) eqn:Ei; [by intros [= _ <-]|].
  destruct (circbuf_init None _ mem1 _) as [r1 b] eqn:E1. apply init_ok in E1 as [Hb Hb'].
  destruct (Z.ltb_spec r1 0) as [Hr|Hr].
  { intros [= _ <-]. apply kept_buffers; [|done]. by rewrite Hb'. }
  specialize (Hb Hr). cbn [set_buffers upper lower timing buffer state]. destruct (circbuf_init None _ mem2 _) as [r2 t] eqn:E2.
  apply init_ok in E2 as [Ht _].
  destruct (Z.ltb_spec r2 0) as [Hr2|Hr2]; intros [= _ <-].
  - by apply (kept_buffers P d0 t (circbuf_uninit b) d).
  - apply (kept_buffers P d0 t b d); [|done]. intros _. by rewrite Ht.
Qed.

Lemma generate_timing_kept P d0 n d d' : sensor_generate_timing n d = Some d' -> kept P d0 d -> kept P d0 d'.
Proof.
  revert d. induction n as [|n IH]; intros d; simpl; [by intros [= <-]|].
  destruct (circbuf_overwrite _ _) as [[m t]|] eqn:E; [|done]. cbn [mbind option_bind]. intros E2 Hd.
  apply (IH _ E2). apply overwrite_size in E as [Hs _].
  apply (kept_buffers P d0 t (buffer (upper d)) (set_state _ d)); [|by apply (kept_frame P d0 d)].
  simpl. rewrite Hs. apply (proj1 Hd).
Qed.

Lemma push_kept P d0 mem1 mem2 data d r d' :
  kept P d0 d -> sensor_push_event mem1 mem2 data d = Some (r, d') -> kept P d0 d'.
Proof.
  intros Hd. unfold sensor_push_event. destruct (zlen data =? 0).
  { intros [= _ <-]. eapply kept_frame; [|apply (kept_map P d0 (fun _ u => if flushing u then flush_done u else u) d); [|done]]; [done|].
    intros i u. destruct (flushing u); [apply (keeps_flush_done i)|done]. }
  destruct (negb _); [intros [= _ <-]; by apply (kept_frame P d0 d)|].
  destruct (push_buffers mem1 mem2 (upper_lock d)) as [r1 d1] eqn:E1.
  apply (push_buffers_kept P d0) in E1; [|by apply (kept_frame P d0 d)].
  destruct (r1 <? 0); [intros [= _ <-]; by apply (kept_frame P d0 d1)|].
  destruct (circbuf_overwrite data (buffer (upper d1))) as [[n b]|] eqn:E2; [|done]. cbn [mbind option_bind].
  destruct (sensor_generate_timing _ _) as [d2|] eqn:E3; [|done]. cbn [mbind option_bind]. intros [= _ <-].
  apply (generate_timing_kept P d0) in E3.
  - eapply kept_frame; [|apply (kept_map P d0 (fun _ u => if sensor_is_updated d2 u then wake_reader u else u) d2); [|done]]; [done|].
    intros i u. destruct (sensor_is_updated d2 u); [apply (keeps_wake i)|done].
  - apply kept_buffers; [|done]. apply overwrite_size in E2 as [-> ->]. apply (proj1 E1).
Qed.

Lemma notify_kept P d0 d : kept P d0 d -> kept P d0 (sensor_notify_event d).
Proof.
  intros Hd. eapply kept_frame; [|apply (kept_map P d0 (fun _ => wake_reader) d); [apply keeps_wake|done]]. done.
Qed.

Lemma poll_kept P d0 f p setup d r d' : kept P d0 d -> sensor_poll ops f p setup d = Some (r, d') -> kept P d0 d'.
Proof.
  intros Hd. unfold sensor_poll. destruct (get_user (f_priv f) (upper_lock d)) as [u|]; [|done].
  cbn [mbind option_bind].
  assert (forall x, kept P d0 (upper_unlock (upd_user (f_priv f) (set_fds x) (upper_lock d)))) as Hx.
  { intros x. eapply (kept_frame P d0); [|by apply (kept_upd P d0 (f_priv f) (set_fds x) d)]. done. }
  destruct setup; [|intros [= _ <-]; apply Hx].
  destruct (fds u); intros [= _ <-]; [by apply (kept_frame P d0 d)|apply Hx].
Qed.

(** Arguments of the right type. *)
Definition cmd_ok (c : sensor_cmd) : Prop :=
  match c with SNIOC_SET_INTERVAL arg => 0 <= arg <= UINT32_MAX | _ => True end.

Lemma driver_op_kept P d0 g d r d' :
  (forall h x, g = Some h -> driver_step x (h x).2) -> kept P d0 d -> driver_op g d = (r, d') -> kept P d0 d'.
Proof.
  intros Hg Hd. unfold driver_op. destruct g as [h|]; [|by intros [= _ <-]].
  specialize (Hg h (drv (lower d)) eq_refl). destruct (h (drv (lower d))) as [r1 x]. intros [= _ <-].
  by apply kept_drv.
Qed.

Lemma flush_kept P d0 f d r d' : kept P d0 d -> sensor_flush ops f d = (r, d') -> kept P d0 d'.
Proof.
  intros Hd. unfold sensor_flush. destruct (_ =? 0); [by intros [= _ <-]|].
  destruct (driver_op (op_flush ops) d) as [r1 d1] eqn:E1.
  apply (driver_op_kept P d0) in E1; [|intros h x Eh; by apply ds_flush|done].
  set (d2 := if 0 <=? r1 then _ else d1).
  assert (kept P d0 d2) as H2 by (unfold d2; destruct (0 <=? r1); [by apply kept_upd|done]).
  destruct (r1 =? - ENOTSUP); intros [= _ <-]; [|done].
  apply kept_upd; [|done]. intros u. apply (keeps_flush_done 0).
Qed.

Lemma buffer_number_kept P d0 arg d r d' :
  kept P d0 d -> sensor_set_buffer_number arg d = (r, d') -> kept P d0 d'.
Proof.
  intros [Hd Ho]. unfold sensor_set_buffer_number.
  change (circbuf_is_init (buffer (upper (upper_lock d)))) with (circbuf_is_init (buffer (upper d))).
  destruct (circbuf_is_init (buffer (upper d))) eqn:Ei; [intros [= _ <-]; by apply (kept_frame P d0 d)|].
  destruct (_ <=? arg); intros [= _ <-]; [|by apply (kept_frame P d0 d)].
  split; [|exact Ho]. destruct Hd. constructor; simpl; try done. by rewrite Ei.
Qed.

(** The commands that keep the lock until they are done, or never take it. *)
Lemma ioctl_kept f c d r o d' :
  match c with SNIOC_SET_INTERVAL _ | SNIOC_BATCH _ => False | _ => True end -> dev_ok d -> owns f d ->
  sensor_ioctl ops [] f c d = Some (r, o, d') -> kept (fun v => v <> f_priv f) d d' /\ owns f d'.
Proof.
  intros Hc Hd Ho E. pose proof (kept_refl (fun _ => True) d Hd) as H0.
  assert (same d d' \/ exists nw, sensor_update_nonwakeup ops (f_priv f) nw d = Some d') as [H|[nw En]].
  { revert E. unfold sensor_ioctl.
    assert (forall g, (forall h x, g = Some h -> driver_step x (h x).2) ->
      (let '(ret, d) := driver_op g d in Some (ret, OutNone, d)) = Some (r, o, d') -> same d d') as Hdrv.
    { intros g Hg. destruct (driver_op g d) as [r1 d1] eqn:E. intros [= _ _ <-]. by apply (driver_op_kept _ d g d r1). }
    destruct c; try done.
    - intros [= _ _ <-]. left. eapply (kept_frame _ d); [|by apply (kept_upd _ d (f_priv f) (set_changed false) d)]. done.
    - cbv zeta. destruct (get_user _ (upper_lock d)); [|done]. intros [= _ _ <-]. left. by rewrite unlock_lock.
    - intros E. left. revert E. apply Hdrv. intros h x [g [Eg ->]]%fmap_Some. by apply ds_selftest.
    - intros E. left. revert E. apply Hdrv. intros h x [g [Eg ->]]%fmap_Some. by apply ds_set_calibvalue.
    - intros E. left. revert E. apply Hdrv. intros h x [g [Eg ->]]%fmap_Some. by apply ds_calibrate.
    - intros [= _ _ <-]. left. by apply (kept_frame _ d d).
    - destruct (sensor_update_nonwakeup _ _ _ _) as [d1|] eqn:E; [|done]. intros [= _ _ <-]. right. by exists arg.
    - destruct (sensor_set_buffer_number arg d) as [r1 d1] eqn:E. intros [= _ _ <-]. left.
      by apply (buffer_number_kept (fun _ => True) d) in E.
    - cbv zeta. destruct (get_user _ (upper_lock d)); [|done]. intros [= _ _ <-]. left. by rewrite unlock_lock.
    - intros E. left. revert E. apply Hdrv. intros h x Eh. by apply ds_get_info.
    - cbv zeta. destruct (get_user _ (upper_lock d)); [|done]. intros [= _ _ <-]. left.
      eapply (kept_frame _ d); [|by apply (kept_upd _ d (f_priv f) (fun u => set_changed false (set_event 0 (flushing u) u)) d)].
      done.
    - destruct (sensor_flush ops f d) as [r1 d1] eqn:E. intros [= _ _ <-]. left. by apply (flush_kept (fun _ => True) d) in E.
    - destruct (op_control ops) as [g|] eqn:Eg; [|intros [= _ _ <-]; by left].
      pose proof (ds_control (drv (lower d)) g cmd arg Eg) as Hx.
      destruct (g cmd arg (drv (lower d))) as [r1 x]. intros [= _ _ <-]. left. by apply kept_drv. }
  - split; [by eapply kept_weaken, H|by apply (kept_owns (fun _ => True) f d)].
  - apply (update_nonwakeup_kept (fun v => v <> f_priv f) d) in En as (Hk & u & u' & Hu & Hu' & Hr & _);
      [|naive_solver|by apply kept_refl].
    split; [done|]. exists u'. split; [done|]. destruct Ho as (u1 & Hu1 & ?). congruence.
Qed.

(** ** Opening *)

Lemma role_count_bounds r l : 0 <= role_count r l <= zlen l.
Proof. induction l as [|p l IH]; simpl; [done|]. destruct (has_flag _ _); lia. Qed.

Lemma role_count_app r l i u :
  role_count r (l ++ [(i, u)]) = role_count r l + if has_flag (role u) r then 1 else 0.
Proof. induction l as [|p l IH]; simpl; [lia|]. rewrite IH. lia. Qed.

Lemma file_role_flags f : has_flag (file_role f) SENSOR_ROLE_RD = f_rdok f /\
  has_flag (file_role f) SENSOR_ROLE_WR = f_wrok f.
Proof. unfold file_role. by destruct (f_rdok f), (f_wrok f). Qed.

(** The state before and after the lower half is opened and activated. *)
Lemma ok_drv x d : (0 < nsubscribers (state (upper d)) -> active x = active (drv (lower d))) ->
  dev_ok d -> dev_ok (set_drv x d).
Proof. intros Hx []. constructor; try done. simpl. intros H1 H2. rewrite Hx; auto. Qed.

Lemma few_subs d : dev_ok d -> 0 <= nsubscribers (state (upper d)) /\
  nsubscribers (state (upper d)) < UINT32_MAX /\ 0 <= nadvertisers (state (upper d)) <= UINT32_MAX.
Proof.
  intros []. rewrite do_subs0, do_advs0. pose proof (role_count_bounds SENSOR_ROLE_RD (userlist (upper d))).
  pose proof (role_count_bounds SENSOR_ROLE_WR (userlist (upper d))). destruct (op_activate ops); lia.
Qed.

(** A user added to the list, with the counts. *)
Lemma ok_add uid u f persist x d :
  dev_ok d -> uid ∉ map fst (userlist (upper d)) -> zlen (userlist (upper d)) + 1 < UINT32_MAX ->
  user_ok u -> role u = file_role f -> u_nonwakeup (ustate u) = true ->
  (is_Some (op_activate ops) -> f_rdok f = true -> active x = true) ->
  (0 < nsubscribers (state (upper d)) -> active x = active (drv (lower d))) ->
  let up := upper d in
  let s := state up in
  let s := if f_rdok f then set_nsubscribers (u32 (nsubscribers s + 1)) s else s in
  let s := if f_wrok f then set_nadvertisers (u32 (nadvertisers s + 1)) s else s in
  dev_ok (mk_dev (mk_upper s (timing up) (buffer up) (lock up) (userlist up ++ [(uid, u)]))
            (mk_lower (nbuffer (lower d)) persist x)).
Proof.
  intros Hd Hf Hn Hu Hr Hw Ha Hx up s s1 s2. destruct (few_subs d Hd) as (B1 & B2 & B3). destruct Hd.
  destruct (file_role_flags f) as [R1 R2]. rewrite <- Hr in R1, R2.
  assert (nsubscribers s2 = nsubscribers s + if f_rdok f then 1 else 0) as Es.
  { unfold s2, s1, s, up. destruct (f_wrok f), (f_rdok f); simpl; rewrite ?u32_small; unfold UINT32_MAX in *; lia. }
  assert (nadvertisers s2 = nadvertisers s + if f_wrok f then 1 else 0) as Ea.
  { unfold s2, s1, s, up. pose proof (role_count_bounds SENSOR_ROLE_WR (userlist (upper d))).
    assert (nadvertisers (state (upper d)) < UINT32_MAX)
      by (destruct (op_activate ops); lia).
    destruct (f_wrok f), (f_rdok f); simpl; rewrite ?u32_small; unfold UINT32_MAX in *; lia. }
  assert (nonwakeup s2 = nonwakeup s /\ esize s2 = esize s /\ s_nbuffer s2 = s_nbuffer s) as (E1 & E2 & E3).
  { unfold s2, s1. by destruct (f_wrok f), (f_rdok f). }
  constructor; simpl; rewrite ?E1, ?E2, ?E3; try done.
  - rewrite map_app. apply NoDup_app. split; [done|]. split; [|apply NoDup_singleton].
    intros y Hy ->%list_elem_of_singleton. done.
  - apply Forall_app. split; [done|]. by constructor.
  - rewrite Es, role_count_app, R1. unfold s, up. lia.
  - rewrite Ea, role_count_app, R2. unfold s, up. lia.
  - rewrite length_app. unfold up. simpl. lia.
  - unfold all_nonwakeup in *. rewrite forallb_app. simpl. rewrite Hw, andb_true_r. done.
  - rewrite Es. intros Hi Hp. destruct (f_rdok f) eqn:Er; [by apply Ha|].
    rewrite Hx by (unfold s, up in Hp; lia). apply do_active0; [done|]. unfold s, up in Hp. lia.
Qed.

(** The first two steps of [sensor_open] reach the state of the lower half only. *)
Lemma open_driver f d r1 d1 :
  match op_open ops with
  | Some g => if f_direct f then (0, upper_lock d)
              else let '(ret, x) := g (drv (lower (upper_lock d))) in (ret, set_drv x (upper_lock d))
  | None => (0, upper_lock d)
  end = (r1, d1) ->
  exists x, d1 = set_drv x (upper_lock d) /\ active x = active (drv (lower d)).
Proof.
  assert (upper_lock d = set_drv (drv (lower d)) (upper_lock d)) as Hd by by destruct d as [? []].
  destruct (op_open ops) as [g|] eqn:Eo; [|intros [= _ <-]; by eexists].
  destruct (f_direct f); [intros [= _ <-]; by eexists|].
  pose proof (ds_open (drv (lower d)) g Eo) as Hx. simpl.
  destruct (g (drv (lower d))) as [r x]. intros [= _ <-]. exists x. split; [done|].
  apply (sw_other (active := active) _ _ Hx).
Qed.

Lemma activate_driver f d x1 r1 r2 d2 :
  dev_ok d -> active x1 = active (drv (lower d)) -> 0 <= r1 ->
  match op_activate ops with
  | Some g => if f_rdok f && (nsubscribers (state (upper (set_drv x1 (upper_lock d)))) =? 0)
              then let '(ret, x) := g true (drv (lower (set_drv x1 (upper_lock d)))) in
                   (ret, set_drv x (set_drv x1 (upper_lock d)))
              else (r1, set_drv x1 (upper_lock d))
  | None => (r1, set_drv x1 (upper_lock d))
  end = (r2, d2) ->
  exists x, d2 = set_drv x (upper_lock d) /\
    (0 < nsubscribers (state (upper d)) -> active x = active (drv (lower d))) /\
    (0 <= r2 -> is_Some (op_activate ops) -> f_rdok f = true -> active x = true).
Proof.
  intros Hd Hx Hr. destruct (few_subs d Hd) as (B1 & _).
  destruct (op_activate ops) as [g|] eqn:Eg; [|intros [= _ <-]; exists x1; split; [done|]; split; [done|]; by intros _ []].
  simpl. destruct (f_rdok f && (nsubscribers (state (upper d)) =? 0)) eqn:Ec.
  - pose proof (sw_activate (active := active) g true x1 Eg) as Ha. destruct (g true x1) as [r x].
    intros [= <- <-]. exists x. split; [done|]. apply andb_true_iff in Ec as [_ Ec]. split; [lia|]. by intros Hr2 _ _; apply Ha.
  - intros [= _ <-]. exists x1. split; [done|]. split; [done|]. intros _ _ Hf. rewrite Hf in Ec. simpl in Ec.
    rewrite Hx. apply (do_active _ Hd); [by rewrite Eg|]. lia.
Qed.

Lemma assoc_fresh uid l : uid ∉ map fst l -> assoc uid l = None.
Proof.
  induction l as [|[i u] l IH]; [done|]. simpl. intros [H1 H2]%not_elem_of_cons.
  replace (i =? uid) with false by lia. by apply IH.
Qed.

Lemma open_ok mem uid f d r d' :
  dev_ok d -> uid ∉ map fst (userlist (upper d)) -> zlen (userlist (upper d)) + 1 < UINT32_MAX ->
  sensor_open ops mem uid f d = (r, d') ->
  dev_ok d' /\ (0 <= r -> exists u, get_user uid d' = Some u /\ role u = file_role f).
Proof.
  intros Hd Hf Hn. unfold sensor_open. destruct mem; simpl negb; cbv iota.
  2:{ intros [= <- <-]. split; [by apply (ok_frame d)|]. by intros []. }
  destruct (match op_open ops with Some _ => _ | None => _ end) as [r1 d1] eqn:E1.
  apply open_driver in E1 as (x1 & -> & Hx1). destruct (Z.ltb_spec r1 0) as [Hr1|Hr1].
  { intros [= <- <-]. split; [|lia]. apply (ok_frame (set_drv x1 d)); [done|]. by apply ok_drv. }
  destruct (match op_activate ops with Some _ => _ | None => _ end) as [r2 d2] eqn:E2.
  apply (activate_driver f d x1 r1 r2 d2 Hd Hx1 Hr1) in E2 as (x2 & -> & Hx2 & Ha).
  destruct (Z.ltb_spec r2 0) as [Hr2|Hr2].
  { intros [= <- <-]. split; [|lia]. destruct (op_close ops) as [g|] eqn:Eg.
    - apply (ok_frame (set_drv (g x2).2 d)); [done|]. apply ok_drv; [|done]. intros Hp.
      rewrite <- Hx2 by done. apply (sw_other (active := active)). by apply ds_close.
    - apply (ok_frame (set_drv x2 d)); [done|]. by apply ok_drv. }
  intros [= <- <-]. set (u := mk_user _ _ _ _ _ _ _ _). split.
  - eapply ok_frame; [|eapply (ok_map (fun _ => sensor_pollnotify_one POLLPRI SENSOR_ROLE_WR)); [apply keeps_notify|]].
    2: eapply (ok_add uid u f (if f_wrok f && f_persist f then true else persist (lower d)) x2 d Hd Hf Hn); [|reflexivity|reflexivity|by auto|exact Hx2].
    + by destruct (f_rdok f), (f_wrok f), (f_persist f).
    + split; [simpl; unfold UINT32_MAX; lia|simpl; lia].
  - intros _. exists (sensor_pollnotify_one POLLPRI SENSOR_ROLE_WR u). split; [|apply (keeps_notify POLLPRI SENSOR_ROLE_WR 0)].
    assert (forall v, assoc uid (userlist (upper d) ++ [(uid, v)]) = Some v) as Hv.
    { intros v. by rewrite assoc_app, assoc_fresh, Z.eqb_refl. }
    unfold get_user. destruct (f_rdok f), (f_wrok f), (f_persist f); simpl; by rewrite assoc_map_users, Hv.
Qed.

(** The other users stay as they are. *)
Lemma open_view mem uid f d r d' v :
  sensor_open ops mem uid f d = (r, d') -> v <> uid -> uview d' v = uview d v.
Proof.
  intros E Hv. unfold sensor_open in E. destruct mem; simpl negb in E; cbv iota in E; [|by injection E as _ <-].
  destruct (match op_open ops with Some _ => _ | None => _ end) as [r1 d1] eqn:E1.
  apply open_driver in E1 as (x1 & -> & _). destruct (r1 <? 0); [by injection E as _ <-|].
  destruct (match op_activate ops with Some _ => _ | None => _ end) as [r2 d2] eqn:E2.
  assert (userlist (upper d2) = userlist (upper d)) as El.
  { destruct (op_activate ops) as [g|]; [|by injection E2 as _ <-].
    destruct (_ && _); [|by injection E2 as _ <-]. destruct (g _ _). by injection E2 as _ <-. }
  destruct (r2 <? 0).
  { destruct (op_close ops); injection E as _ <-; unfold uview, get_user; simpl; by rewrite El. }
  injection E as _ <-. set (u := mk_user _ _ _ _ _ _ _ _).
  assert (forall w, assoc v (userlist (upper d2) ++ [(uid, w)]) = assoc v (userlist (upper d))) as Ha.
  { intros w. rewrite assoc_app, El. simpl. replace (uid =? v) with false by lia. by destruct (assoc v _). }
  unfold uview, get_user, sensor_pollnotify, map_users.
  destruct (f_rdok f), (f_wrok f), (f_persist f); simpl; rewrite assoc_map_users, Ha;
    destruct (assoc v (userlist (upper d))) as [w|]; try done; simpl;
    destruct (keeps_notify POLLPRI SENSOR_ROLE_WR v w) as (-> & -> & _); done.
Qed.

(** ** Closing *)

Definition others (uid : Z) (l : list (Z * sensor_user_s)) := filter (fun p => fst p <> uid) l.

Lemma others_fresh uid l : uid ∉ map fst l -> others uid l = l.
Proof.
  induction l as [|[i u] l IH]; [done|]. simpl. intros [H1 H2]%not_elem_of_cons. unfold others.
  rewrite filter_cons_True by (simpl; auto). f_equal. by apply IH.
Qed.

(** The list with and without a user. *)
Lemma others_split uid l u : NoDup (map fst l) -> assoc uid l = Some u ->
  exists l1 l2, l = l1 ++ (uid, u) :: l2 /\ others uid l = l1 ++ l2 /\ NoDup (map fst (l1 ++ l2)).
Proof.
  induction l as [|[i v] l IH]; [done|]. simpl. intros [Hi Hn]%NoDup_cons. destruct (Z.eqb_spec i uid) as [->|Hne].
  - intros [= ->]. exists [], l. split; [done|]. split; [|done]. unfold others. rewrite filter_cons_False by (simpl; auto).
    by apply others_fresh.
  - intros Hu. destruct (IH Hn Hu) as (l1 & l2 & -> & Ho & Hn'). exists ((i, v) :: l1), l2.
    split; [done|]. split; [unfold others; rewrite filter_cons_True by (simpl; auto); simpl; f_equal; exact Ho|].
    simpl. apply NoDup_cons. split; [|done]. contradict Hi. rewrite !map_app in *. simpl.
    rewrite elem_of_app in *. rewrite elem_of_cons. tauto.
Qed.

Lemma role_count_split r l1 l2 : role_count r (l1 ++ l2) = role_count r l1 + role_count r l2.
Proof. induction l1 as [|p l1 IH]; simpl; [done|]. rewrite IH. lia. Qed.

Lemma ok_remove f u x d :
  dev_ok d -> get_user (f_priv f) d = Some u -> role u = file_role f -> u_nonwakeup (ustate u) = true ->
  let up := upper d in
  let s := state up in
  let s := if f_rdok f then set_nsubscribers (u32 (nsubscribers s - 1)) s else s in
  let s := if f_wrok f then set_nadvertisers (u32 (nadvertisers s - 1)) s else s in
  (0 < nsubscribers s -> active x = active (drv (lower d))) ->
  dev_ok (mk_dev (mk_upper s (timing up) (buffer up) (lock up) (others (f_priv f) (userlist up)))
            (mk_lower (nbuffer (lower d)) (persist (lower d)) x)).
Proof.
  intros Hd Hu Hr Hw up s s1 s2 Hx. destruct (few_subs d Hd) as (B1 & B2 & B3). destruct Hd.
  destruct (others_split _ _ _ do_names0 Hu) as (l1 & l2 & El & Eo & Hn).
  destruct (file_role_flags f) as [R1 R2]. rewrite <- Hr in R1, R2.
  assert (forall r, role_count r (userlist (upper d)) =
    (if has_flag (role u) r then 1 else 0) + role_count r (l1 ++ l2)) as Hc.
  { intros r. rewrite El, !role_count_split. simpl. lia. }
  assert (nsubscribers s2 = role_count SENSOR_ROLE_RD (l1 ++ l2)) as Es.
  { rewrite (Hc SENSOR_ROLE_RD), R1 in do_subs0. pose proof (role_count_bounds SENSOR_ROLE_RD (l1 ++ l2)).
    unfold s2, s1, s, up. destruct (f_wrok f), (f_rdok f); simpl; rewrite ?u32_small; unfold UINT32_MAX in *; lia. }
  assert (nadvertisers s2 = match op_activate ops with Some _ => 1 | None => 0 end +
    role_count SENSOR_ROLE_WR (l1 ++ l2)) as Ea.
  { rewrite (Hc SENSOR_ROLE_WR), R2 in do_advs0. pose proof (role_count_bounds SENSOR_ROLE_WR (l1 ++ l2)).
    unfold s2, s1, s, up. destruct (op_activate ops), (f_wrok f), (f_rdok f); simpl; rewrite ?u32_small; unfold UINT32_MAX in *; lia. }
  assert (nonwakeup s2 = nonwakeup s /\ esize s2 = esize s /\ s_nbuffer s2 = s_nbuffer s) as (E1 & E2 & E3).
  { unfold s2, s1. by destruct (f_wrok f), (f_rdok f). }
  constructor; simpl; fold up in Eo |- *; rewrite ?E1, ?E2, ?E3, ?Eo; try done.
  - rewrite El in do_users0. apply Forall_app in do_users0 as [H1 H2]. apply Forall_cons in H2 as [_ H2].
    by apply Forall_app.
  - rewrite El in do_few0. rewrite length_app in *. simpl in do_few0. lia.
  - unfold s, up. rewrite do_nonwakeup0, El. unfold all_nonwakeup. rewrite !forallb_app. simpl. by rewrite Hw.
  - intros Hi Hp. rewrite (Hx Hp). apply do_active0; [done|]. rewrite do_subs0, Hc.
    pose proof (role_count_bounds SENSOR_ROLE_RD (l1 ++ l2)). destruct (has_flag _ _); lia.
Qed.

(** The lower half is closed and, with the last subscriber, switched off. *)
Definition close_driver (f : file) (n : Z) (x : LS) : LS :=
  let x := match op_close ops with Some g => if f_direct f then x else (g x).2 | None => x end in
  match op_activate ops with
  | Some g => if f_rdok f && (n =? 0) then (g false x).2 else x
  | None => x
  end.

Lemma close_driver_active f n x : 0 < n -> active (close_driver f n x) = active x.
Proof.
  intros Hn. unfold close_driver. replace (n =? 0) with false by lia. rewrite andb_false_r.
  assert (active (match op_close ops with Some g => if f_direct f then x else (g x).2 | None => x end) = active x) as H.
  { destruct (op_close ops) as [g|] eqn:Eg; [|done]. destruct (f_direct f); [done|].
    apply (sw_other (active := active)). by apply ds_close. }
  by destruct (op_activate ops).
Qed.

(** The last part of a close: the user leaves, the others stay. *)
Lemma close_user_kept f d u :
  dev_ok d -> get_user (f_priv f) d = Some u -> role u = file_role f -> u_nonwakeup (ustate u) = true ->
  kept (fun v => v <> f_priv f) d (close_user ops f d).
Proof.
  intros Hd Hu Hr Hw.
  set (n := if f_rdok f then u32 (nsubscribers (state (upper d)) - 1) else nsubscribers (state (upper d))).
  pose proof (ok_remove f u (close_driver f n (drv (lower d))) d Hd Hu Hr Hw) as H. cbv zeta in H.
  assert (forall d1, userlist (upper d1) = others (f_priv f) (userlist (upper d)) -> dev_ok d1 ->
    kept (fun v => v <> f_priv f) d d1) as Hk.
  { intros d1 El Hd1. split; [done|]. intros v Hv. unfold uview, get_user. rewrite El. unfold others.
    rewrite assoc_filter. by replace (v =? f_priv f) with false by lia. }
  eapply kept_frame; [|apply (kept_notify _ d POLLPRI SENSOR_ROLE_WR), Hk; [|apply H]].
  - unfold dview, close_user, close_driver, n.
    destruct (op_close ops), (f_direct f), (f_rdok f), (op_activate ops), (f_wrok f);
      simpl; try destruct (_ =? 0); done.
  - done.
  - intros Hp. apply close_driver_active. unfold n. by destruct (f_rdok f), (f_wrok f).
Qed.

(** ** Runs *)

(** A call of a task that has released the lock: its file, whether it is a close,
    and how it goes on. *)
Record pcall := mk_pcall {
  pc_file : file;
  pc_closing : bool;
  pc_go : dev LS -> act LS Z
}.

(** The device and the calls that are under way, by task. *)
Record dsys := mk_dsys { sys_dev : dev LS; sys_calls : gmap Z pcall }.

(** A part of a call of task [t] has run to its return or to the next point where
    the lock is free. *)
Inductive settle (t : Z) (f : file) (closing : bool) (cs : gmap Z pcall) : act LS Z -> dsys -> Prop :=
| st_ret r d : settle t f closing cs (ARet r d) (mk_dsys d (delete t cs))
| st_wait d k : settle t f closing cs (AWait d k) (mk_dsys d (<[t := mk_pcall f closing k]> cs)).

(** Nobody else is closing [f]; a file is closed with its last reference, so a
    close finds no other call on it. *)
Definition not_closing (f : file) (cs : gmap Z pcall) : Prop :=
  forall t p, cs !! t = Some p -> pc_closing p = true -> f_priv (pc_file p) <> f_priv f.
Definition unused (f : file) (cs : gmap Z pcall) : Prop :=
  forall t p, cs !! t = Some p -> f_priv (pc_file p) <> f_priv f.

(** What can happen: a task opens the device, or makes a call on a file of a
    user, which runs until the lock is free; a call that has released the lock
    goes on; a publication comes, of a task or of the lower half.  [uid] is the
    address of the new user, which the allocator has not given away; a device
    has fewer than 2^32 - 1 users; the fuel of a call is any number of jumps. *)
Inductive dstep : dsys -> dsys -> Prop :=
| dv_new mem uid f d cs r d' :
    uid ∉ map fst (userlist (upper d)) -> zlen (userlist (upper d)) + 1 < UINT32_MAX ->
    sensor_open ops mem uid f d = (r, d') -> dstep (mk_dsys d cs) (mk_dsys d' cs)
| dv_start_close t f n1 n2 d cs s :
    cs !! t = None -> owns f d -> unused f cs ->
    settle t f true cs (close_steps ops n1 n2 f d) s -> dstep (mk_dsys d cs) s
| dv_start_ioctl t f n c d cs s :
    cs !! t = None -> cmd_ok c -> owns f d -> not_closing f cs ->
    settle t f false cs (ioctl_steps ops n f c d) s -> dstep (mk_dsys d cs) s
| dv_go t p d cs s :
    cs !! t = Some p -> settle t (pc_file p) (pc_closing p) cs (pc_go p d) s -> dstep (mk_dsys d cs) s
| dv_poll f p setup d cs r d' :
    owns f d -> not_closing f cs -> sensor_poll ops f p setup d = Some (r, d') ->
    dstep (mk_dsys d cs) (mk_dsys d' cs)
| dv_read f buf len d cs r d' :
    owns f d -> not_closing f cs -> sensor_read ops f buf len d = Some (r, d') ->
    dstep (mk_dsys d cs) (mk_dsys d' cs)
| dv_write mem1 mem2 data d cs r d' :
    sensor_write mem1 mem2 data d = Some (r, d') -> dstep (mk_dsys d cs) (mk_dsys d' cs)
| dv_notify d cs : dstep (mk_dsys d cs) (mk_dsys (sensor_notify_event d) cs).

(** Every part of a call on [f] keeps the state in order and the users of other
    files, from whatever state it is continued; while a close is under way, no
    other call changes the user of its file. *)
Fixpoint act_ok {A} (closing : bool) (f : file) (d0 : dev LS) (m : act LS A) : Prop :=
  match m with
  | ARet _ d => kept (fun v => v <> f_priv f) d0 d /\ (closing = false -> owns f d)
  | AWait d k =>
      kept (fun v => v <> f_priv f) d0 d /\ owns f d /\
      forall d', dev_ok d' -> owns f d' ->
        (closing = true -> uview d' (f_priv f) = uview d (f_priv f)) -> act_ok closing f d' (k d')
  | AErr => True
  end.

Lemma act_ok_from {A} closing f d0 d (m : act LS A) :
  kept (fun v => v <> f_priv f) d0 d -> act_ok closing f d m -> act_ok closing f d0 m.
Proof.
  intros H. destruct m as [a d1|d1 k|]; simpl; [| |done]; intros [H1 H2]; (split; [by eapply kept_trans|done]).
Qed.

Lemma steady_bind {A B} closing f d0 (m : act LS A) (g : A -> dev LS -> act LS B) :
  owns f d0 -> steady d0 m -> (forall a d, dev_ok d -> owns f d -> act_ok closing f d (g a d)) ->
  act_ok closing f d0 (abind m g).
Proof.
  intros Ho Hm Hg. revert d0 Ho Hm. induction m as [a d|d k IH|]; intros d0 Ho Hm; simpl in *; [| |done].
  - pose proof (kept_owns _ f _ _ I Hm Ho) as Ho'. eapply act_ok_from; [by eapply kept_weaken, Hm|].
    apply Hg; [apply Hm|done].
  - destruct Hm as [Hk Hs]. split; [by eapply kept_weaken, Hk|]. split; [by apply (kept_owns _ f _ _ I Hk)|].
    intros d' Hd' Ho' _. apply IH; [done|]. by apply Hs.
Qed.

Lemma steady_ok {A} f d0 (m : act LS A) : owns f d0 -> steady d0 m -> act_ok false f d0 m.
Proof.
  revert d0. induction m as [a d|d k IH|]; intros d0 Ho; simpl; [| |done].
  - intros Hk. split; [by eapply kept_weaken, Hk|]. intros _. by apply (kept_owns _ f _ _ I Hk).
  - intros [Hk Hs]. split; [by eapply kept_weaken, Hk|]. split; [by apply (kept_owns _ f _ _ I Hk)|].
    intros d' Hd' Ho' _. apply IH; [done|]. by apply Hs.
Qed.

Lemma ioctl_ok n f c d : cmd_ok c -> dev_ok d -> owns f d -> act_ok false f d (ioctl_steps ops n f c d).
Proof.
  intros Hc Hd Ho.
  assert (match c with SNIOC_SET_INTERVAL _ | SNIOC_BATCH _ => False | _ => True end ->
    act_ok false f d (aopt ('(ret, _, d) ← sensor_ioctl ops [] f c d; Some (ret, d)))) as Hopt.
  { intros Hn. destruct (sensor_ioctl ops [] f c d) as [[[r o] d1]|] eqn:E; [|done]. simpl.
    destruct (ioctl_kept f c d r o d1 Hn Hd Ho E). done. }
  destruct c; cbn [ioctl_steps]; try (by apply Hopt).
  - apply steady_ok; [done|]. apply update_interval_steady; [|done]. unfold cmd_ok, UINT32_MAX in *.
    destruct (Z.eqb_spec arg 0); lia.
  - apply steady_ok; [done|]. by apply update_latency_steady.
Qed.

Lemma close_ok n1 n2 f d : dev_ok d -> owns f d -> act_ok true f d (close_steps ops n1 n2 f d).
Proof.
  intros Hd Ho. unfold close_steps. apply steady_bind; [done| |].
  { by apply update_interval_steady; [unfold UINT32_MAX; lia|]. }
  intros _ d1 Hd1 Ho1. split; [by apply kept_refl|]. split; [done|]. intros d2 Hd2 Ho2 _.
  apply steady_bind; [done|by apply update_latency_steady|].
  intros _ d3 Hd3 Ho3. split; [by apply kept_refl|]. split; [done|]. intros d4 Hd4 Ho4 _.
  destruct (sensor_update_nonwakeup ops (f_priv f) true d4) as [d5|] eqn:E; [|done].
  apply (update_nonwakeup_kept (fun v => v <> f_priv f) d4) in E as (Hk & u & u' & Hu & Hu' & Hr & Hw);
    [|naive_solver|by apply kept_refl].
  assert (owns f d5) as Ho5.
  { exists u'. split; [done|]. destruct Ho4 as (u1 & Hu1 & ?). congruence. }
  split; [done|]. split; [done|]. intros d6 Hd6 (u6 & Hu6 & Hr6) Hv. specialize (Hv eq_refl). simpl.
  split; [|done]. apply (close_user_kept f d6 u6); [done..|].
  unfold uview in Hv. rewrite Hu6, Hu' in Hv. simpl in Hv. congruence.
Qed.

(** The invariant of the runs. *)
Definition call_ok (d : dev LS) (p : pcall) : Prop :=
  owns (pc_file p) d /\
  forall d', dev_ok d' -> owns (pc_file p) d' ->
    (pc_closing p = true -> uview d' (f_priv (pc_file p)) = uview d (f_priv (pc_file p))) ->
    act_ok (pc_closing p) (pc_file p) d' (pc_go p d').

Record sys_ok (s : dsys) : Prop := {
  so_dev : dev_ok (sys_dev s);
  so_calls t p : sys_calls s !! t = Some p -> call_ok (sys_dev s) p;
  so_alone t u p q : sys_calls s !! t = Some p -> sys_calls s !! u = Some q -> t <> u ->
    pc_closing p = true -> f_priv (pc_file p) <> f_priv (pc_file q)
}.

(** A change that keeps the users of the calls under way. *)
Lemma sys_ok_change d d' cs :
  sys_ok (mk_dsys d cs) -> dev_ok d' ->
  (forall t p, cs !! t = Some p -> uview d' (f_priv (pc_file p)) = uview d (f_priv (pc_file p))) ->
  sys_ok (mk_dsys d' cs).
Proof.
  intros [Hd Hc Ha] Hd' Hv. constructor; simpl in *; [done| |done].
  intros t p Hp. specialize (Hv t p Hp). destruct (Hc t p Hp) as [Ho Hk]. split; [by eapply owns_view|].
  intros d1 Hd1 Ho1 Hv1. apply Hk; [done..|]. intros Hcl. by rewrite (Hv1 Hcl).
Qed.

(** A part of the call of task [t] has run. *)
Lemma settle_ok t f closing d cs m s :
  sys_ok (mk_dsys d (delete t cs)) -> owns f d ->
  (forall u q, u <> t -> cs !! u = Some q ->
     (closing = true \/ pc_closing q = true) -> f_priv (pc_file q) <> f_priv f) ->
  act_ok closing f d m -> settle t f closing cs m s -> sys_ok s.
Proof.
  intros Hs Ho Ha Hm Hst.
  assert (forall d1, kept (fun v => v <> f_priv f) d d1 -> (owns f d1 \/ closing = true) ->
    sys_ok (mk_dsys d1 (delete t cs))) as Hdel.
  { intros d1 [Hd1 Hv] Ho1. pose proof Hs as [Hd Hc Hal]. constructor; simpl in *; [done| |done].
    intros u q Hq. pose proof (Hc u q Hq) as [Hoq Hkq]. apply lookup_delete_Some in Hq as [Hne Hq].
    destruct (Z.eq_dec (f_priv (pc_file q)) (f_priv f)) as [E|E].
    - assert (closing = false /\ pc_closing q = false) as [-> Hcq].
      { specialize (Ha u q (not_eq_sym Hne) Hq). destruct closing, (pc_closing q); try done;
          exfalso; apply Ha; auto. }
      destruct Ho1 as [(u1 & Hu1 & Hr1)|]; [|done]. destruct Ho as (u0 & Hu0 & Hr0), Hoq as (uq & Huq & Hrq).
      split.
      + exists u1. rewrite E in *. split; [done|]. congruence.
      + intros d2 Hd2 Ho2 _. apply Hkq; [done..|]. by rewrite Hcq.
    - split; [by eapply owns_view, Hoq; apply Hv|]. intros d2 Hd2 Ho2 Hv2. apply Hkq; [done..|].
      intros Hcl. rewrite (Hv2 Hcl). by apply Hv. }
  destruct Hst as [r d1|d1 k]; simpl in Hm.
  - destruct Hm as [Hk Ho1]. apply Hdel; [done|]. destruct closing; [by right|left; auto].
  - destruct Hm as (Hk & Ho1 & Hgo). destruct (Hdel d1 Hk (or_introl Ho1)) as [Hd1 Hc1 Ha1].
    simpl in *. rewrite <- insert_delete_eq. constructor; simpl; [done|..].
    + intros u q [[<- <-]|[Hne Hq]]%lookup_insert_Some; [by split|]. by apply (Hc1 u).
    + intros u v p q Hp Hq Hne Hcl. apply lookup_insert_Some in Hp as [[<- <-]|[H1 Hp]];
        apply lookup_insert_Some in Hq as [[<- <-]|[H2 Hq]]; simpl in *; [done|..].
      * apply lookup_delete_Some in Hq as [_ Hq]. apply not_eq_sym, (Ha v q); auto.
      * apply lookup_delete_Some in Hp as [_ Hp]. apply (Ha u p); auto.
      * by apply (Ha1 u v).
Qed.

Lemma dstep_ok s s' : dstep s s' -> sys_ok s -> sys_ok s'.
Proof.
  intros Hst Hs. destruct Hst as [mem uid f d cs r d' Hf Hn E|t f n1 n2 d cs s Ht Ho Hun Hse
    |t f n c d cs s Ht Hc Ho Hnc Hse|t p d cs s Hp Hse|f p setup d cs r d' Ho Hnc E
    |f buf len d cs r d' Ho Hnc E|mem1 mem2 data d cs r d' E|d cs].
  - pose proof Hs as [Hd Hcs _]. simpl in *. apply (sys_ok_change d); [done|by eapply open_ok|].
    intros t p Hp. destruct (Hcs t p Hp) as [(u & Hu & _) _]. eapply open_view; [done|].
    intros E2. rewrite E2 in Hu. unfold get_user in Hu. by rewrite (assoc_fresh uid _ Hf) in Hu.
  - eapply settle_ok; [by rewrite delete_id|exact Ho| |by apply close_ok; [apply Hs|]|exact Hse].
    intros u q _ Hq _. by apply (Hun u).
  - eapply settle_ok; [by rewrite delete_id|exact Ho| |by apply ioctl_ok; [|apply Hs|]|exact Hse].
    intros u q _ Hq [|Hcl]; [done|]. by apply (Hnc u).
  - pose proof Hs as [Hd Hcs Ha]. simpl in *. destruct (Hcs t p Hp) as [Ho Hk].
    eapply settle_ok; [|exact Ho| |by apply Hk|exact Hse].
    + constructor; simpl; [done|..].
      * intros u q [_ Hq]%lookup_delete_Some. by apply (Hcs u).
      * intros u v q1 q2 [_ H1]%lookup_delete_Some [_ H2]%lookup_delete_Some. by apply Ha.
    + intros u q Hne Hq [Hcl|Hcl]; [apply not_eq_sym|]; [apply (Ha t u)|apply (Ha u t)]; auto.
  - apply (poll_kept (fun _ => True) d) in E as [Hd Hv]; [|by apply kept_refl, Hs].
    apply (sys_ok_change d); [done|done|]. intros t q _. by apply Hv.
  - apply (read_kept (fun _ => True) d) in E as [Hd Hv]; [|by apply kept_refl, Hs].
    apply (sys_ok_change d); [done|done|]. intros t q _. by apply Hv.
  - apply (push_kept (fun _ => True) d) in E as [Hd Hv]; [|by apply kept_refl, Hs].
    apply (sys_ok_change d); [done|done|]. intros t q _. by apply Hv.
  - destruct (notify_kept (fun _ => True) d d) as [Hd Hv]; [by apply kept_refl, Hs|].
    apply (sys_ok_change d); [done|done|]. intros t q _. by apply Hv.
Qed.

Lemma register_ok type_ok mem reg esz low r d :
  sensor_custom_register ops type_ok mem reg esz low = (r, Some d) -> dev_ok d.
Proof.
  unfold sensor_custom_register. destruct (negb type_ok || (esz =? 0)) eqn:E; [done|].
  apply orb_false_iff in E as [_ E]. destruct mem; [|done]. simpl. destruct (negb (reg =? 0)); [done|].
  intros [= _ <-]. constructor; simpl; try done; [constructor|lia|lia].
Qed.

End devices.

(** A lower half that is on or off and two tasks.  Task 1 sets its interval; while
    it has released the lock, task 2 opens the device and starts to close its
    file again; task 1 goes on and is done, and then task 2 is. *)
Definition switch_ops : sensor_ops_s bool :=
  mk_ops None None (Some (fun b _ => (0, b))) (Some (fun i x => (0, i, x)))
    None None None None None None None None None.

#[export] Instance switch_ok : Switch switch_ops id.
Proof.
  split.
  - intros f b x [= <-] _. done.
  - intros x y Hs. destruct Hs; simpl in *; simplify_eq; done.
Qed.

Definition rd_file : file := mk_file true false false false false false 1.
Definition wr_file : file := mk_file false true false false false false 2.
Definition topic0 : dev bool :=
  mk_dev (mk_upper (mk_state 4 2 0 UINT32_MAX 0 1 0 true 0) (mk_circ None 0 0 0 false)
            (mk_circ None 0 0 0 false) 0 []) (mk_lower 2 false false).

(** The steps of the run, as far as they are functions. *)
Definition started (t : Z) (f : file) (closing : bool) (m : act bool Z) (cs : gmap Z pcall) : dsys :=
  match m with
  | ARet _ d => mk_dsys d (delete t cs)
  | AWait d k => mk_dsys d (<[t := mk_pcall f closing k]> cs)
  | AErr => mk_dsys topic0 cs
  end.
Definition continued (t : Z) (s : dsys) : dsys :=
  match sys_calls s !! t with
  | Some p => started t (pc_file p) (pc_closing p) (pc_go p (sys_dev s)) (sys_calls s)
  | None => s
  end.
Definition run1 : dsys := mk_dsys (sensor_open switch_ops true 1 rd_file topic0).2 ∅.
Definition run2 : dsys := started 1 rd_file false
  (ioctl_steps switch_ops 3 rd_file (SNIOC_SET_INTERVAL 10) (sys_dev run1)) (sys_calls run1).
Definition run3 : dsys := mk_dsys (sensor_open switch_ops true 2 wr_file (sys_dev run2)).2 (sys_calls run2).
Definition run4 : dsys := started 2 wr_file true (close_steps switch_ops 1 1 wr_file (sys_dev run3)) (sys_calls run3).
Definition run5 : dsys := continued 1 run4.
Definition run6 : dsys := continued 2 (continued 2 (continued 2 run5)).

Lemma started_settle t f closing m cs :
  (match m with AErr => False | _ => True end) -> settle t f closing cs m (started t f closing m cs).
Proof. destruct m; [constructor|constructor|done]. Qed.

Lemma continued_step t s :
  (match sys_calls s !! t with
   | Some p => match pc_go p (sys_dev s) with AErr => False | _ => True end
   | None => False
   end) -> dstep switch_ops s (continued t s).
Proof.
  unfold continued. destruct s as [d cs]. simpl. destruct (cs !! t) as [p|] eqn:E; [|done].
  intros Hm. eapply dv_go; [exact E|]. by apply started_settle.
Qed.

Lemma begin_close t f s :
  sys_calls s !! t = None -> owns f (sys_dev s) -> unused f (sys_calls s) ->
  (match close_steps switch_ops 1 1 f (sys_dev s) with AErr => False | _ => True end) ->
  dstep switch_ops s (started t f true (close_steps switch_ops 1 1 f (sys_dev s)) (sys_calls s)).
Proof.
  destruct s as [d cs]. simpl. intros Ht Ho Hu Hm. by eapply dv_start_close, started_settle.
Qed.

Lemma topic_run : rtc (dstep switch_ops) (mk_dsys topic0 ∅) run6 /\
  map fst (userlist (upper (sys_dev run6))) = [1] /\ drv (lower (sys_dev run6)) = true /\
  nadvertisers (state (upper (sys_dev run6))) = 1 /\ min_interval (state (upper (sys_dev run6))) = 10.
Proof.
  split; [|vm_compute; done].
  eapply (rtc_l _ _ run1).
  { eapply (dv_new _ true 1 rd_file); [apply not_elem_of_nil|done|vm_compute; reflexivity]. }
  eapply (rtc_l _ _ run2).
  { eapply (dv_start_ioctl _ 1 rd_file 3 (SNIOC_SET_INTERVAL 10)); [done|done|by eexists|by intros t p|].
    apply started_settle. vm_compute. exact I. }
  eapply (rtc_l _ _ run3).
  { eapply (dv_new _ true 2 wr_file); [|done|vm_compute; reflexivity].
    vm_compute. by intros [H|H]%elem_of_cons; [|apply not_elem_of_nil in H]. }
  eapply (rtc_l _ _ run4).
  { apply (begin_close 2 wr_file run3).
    - vm_compute. reflexivity.
    - eexists. split; vm_compute; reflexivity.
    - intros t p. assert (exists q, sys_calls run3 = {[1 := q]} /\ pc_file q = rd_file) as (q & -> & Hq)
        by (by eexists).
      intros [<- <-]%lookup_singleton_Some. by rewrite Hq.
    - vm_compute. exact I. }
  eapply (rtc_l _ _ run5). { by apply continued_step; vm_compute. }
  eapply (rtc_l _ _ (continued 2 run5)). { by apply continued_step; vm_compute. }
  eapply (rtc_l _ _ (continued 2 (continued 2 run5))). { by apply continued_step; vm_compute. }
  eapply (rtc_l _ _ run6). { by apply continued_step; vm_compute. }
  apply rtc_refl.
Qed.

