(* ===== verification/Inode.v ===== *)
(** The pseudo file system: the tree of inodes that names every device.

    Models fs/inode/fs_inodesearch.c, fs_inodereserve.c, fs_inoderemove.c,
    fs_inodefree.c, fs_inodefind.c, fs_inodeaddref.c, fs_inoderelease.c and the
    driver registration of fs/driver on a heap of inodes: [inodes] maps an
    address to the [struct inode] there, and the address 0 is the null pointer.
    A path is the list of its characters before the terminating NUL, a pointer
    into it the list of those that follow.  Soft links are not configured.  Every
    operation runs with the lock of the tree held.  [None] is undefined behaviour:
    an access through a null or dangling pointer. *)

From S2P Require Import Prelude.
From stdpp Require Import gmap list.
Local Open Scope Z_scope.

Definition NULL : Z := 0.
Definition SLASH : Z := 47.
Definition DOT : Z := 46.

Definition FSNODEFLAG_TYPE_PSEUDODIR : Z := 0.
Definition FSNODEFLAG_TYPE_DRIVER : Z := 1.
Definition FSNODEFLAG_TYPE_BLOCK : Z := 2.
Definition FSNODEFLAG_TYPE_MOUNTPT : Z := 3.
Definition FSNODEFLAG_TYPE_SHM : Z := 6.
Definition FSNODEFLAG_TYPE_PIPE : Z := 10.

(** [i_flags] is the type of the inode, [i_ops] stands for the table of its
    operations. *)
Record inode := mk_inode {
  i_parent : Z;
  i_peer : Z;
  i_child : Z;
  i_crefs : Z;
  i_flags : Z;
  i_ops : Z;
  i_ino : Z;
  i_private : Z;
  i_name : list Z
}.

Record pseudofs := mk_fs {
  g_root_inode : Z;
  g_ino : Z;
  inodes : gmap Z inode
}.

Definition INODE_IS_MOUNTPT (i : inode) : bool := i_flags i =? FSNODEFLAG_TYPE_MOUNTPT.

Definition set_peer (x : Z) (i : inode) : inode :=
  mk_inode (i_parent i) x (i_child i) (i_crefs i) (i_flags i) (i_ops i) (i_ino i) (i_private i)
    (i_name i).
Definition set_child (x : Z) (i : inode) : inode :=
  mk_inode (i_parent i) (i_peer i) x (i_crefs i) (i_flags i) (i_ops i) (i_ino i) (i_private i)
    (i_name i).
Definition set_parent (x : Z) (i : inode) : inode :=
  mk_inode x (i_peer i) (i_child i) (i_crefs i) (i_flags i) (i_ops i) (i_ino i) (i_private i)
    (i_name i).
Definition set_crefs (x : Z) (i : inode) : inode :=
  mk_inode (i_parent i) (i_peer i) (i_child i) x (i_flags i) (i_ops i) (i_ino i) (i_private i)
    (i_name i).
Definition set_driver (ops priv : Z) (i : inode) : inode :=
  mk_inode (i_parent i) (i_peer i) (i_child i) (i_crefs i) FSNODEFLAG_TYPE_DRIVER ops (i_ino i)
    priv (i_name i).

Definition heap_upd (a : Z) (f : inode -> inode) (h : gmap Z inode) : option (gmap Z inode) :=
  i ← h !! a; Some (<[a := f i]> h).
Definition with_inodes (fs : pseudofs) (h : gmap Z inode) : pseudofs :=
  mk_fs (g_root_inode fs) (g_ino fs) h.

(** ** Paths *)

(** The name ends at a slash or at the end of the path. *)
Definition at_end (name : list Z) : bool :=
  match name with [] => true | c :: _ => c =? SLASH end.

Definition is_nul (name : list Z) : bool := match name with [] => true | _ => false end.

(** [_inode_compare]: the first name of the path against the name of a node. *)
Fixpoint inode_compare (fname nname : list Z) : Z :=
  match nname with
  | [] => if at_end fname then 0 else 1
  | n :: nname =>
      match fname with
      | [] => -1
      | f :: fname =>
          if f =? SLASH then -1
          else if n <? f then 1
          else if f <? n then -1
          else inode_compare fname nname
      end
  end.

(** The two loops of [inode_nextname]. *)
Fixpoint skip_name (name : list Z) : list Z :=
  match name with
  | [] => []
  | c :: l => if c =? SLASH then name else skip_name l
  end.
Fixpoint skip_slash (name : list Z) : list Z :=
  match name with
  | [] => []
  | c :: l => if c =? SLASH then skip_slash l else name
  end.

(** The call of itself is on a shorter path. *)
Fixpoint nextname_loop (fuel : nat) (name : list Z) : list Z :=
  let name := skip_slash (skip_name name) in
  match fuel, name with
  | S fuel, c1 :: c2 :: _ =>
      if (c1 =? DOT) && (c2 =? SLASH) then nextname_loop fuel name else name
  | _, _ => name
  end.
Definition inode_nextname (name : list Z) : list Z := nextname_loop (length name) name.

(** ** Search *)

(** What [_inode_search] leaves in the search descriptor, and its result. *)
Record search := mk_search {
  s_ret : Z;
  s_path : list Z;
  s_node : Z;
  s_peer : Z;
  s_parent : Z;
  s_relpath : option (list Z)
}.

(** The loop over the nodes; [fuel] bounds the number of nodes visited. *)
Fixpoint search_loop (fuel : nat) (h : gmap Z inode) (name : list Z) (node left above : Z) :
    option search :=
  if node =? NULL then Some (mk_search (- ENOENT) name NULL left above None)
  else
    match fuel with
    | O => None
    | S fuel =>
        i ← h !! node;
        let result := inode_compare name (i_name i) in
        if result <? 0 then Some (mk_search (- ENOENT) name NULL left above None)
        else if 0 <? result then search_loop fuel h name (i_peer i) node above
        else
          let name := inode_nextname name in
          if is_nul name || INODE_IS_MOUNTPT i
          then Some (mk_search OK name node left above (Some name))
          else search_loop fuel h name (i_child i) NULL node
    end.

Definition inode_search' (fs : pseudofs) (path : list Z) : option search :=
  match path with
  | c :: _ =>
      if c =? SLASH
      then search_loop (S (size (inodes fs))) (inodes fs) path (g_root_inode fs) NULL NULL
      else Some (mk_search (- EINVAL) path NULL NULL NULL None)
  | [] => Some (mk_search (- EINVAL) path NULL NULL NULL None)
  end.

(** [inode_search]: a relative path is one below the working directory [cwd];
    [mem] says whether the memory for it is there. *)
Definition inode_search (mem : bool) (cwd path : list Z) (fs : pseudofs) : option search :=
  match path with
  | c :: _ =>
      if c =? SLASH then inode_search' fs path
      else if mem then inode_search' fs (cwd ++ SLASH :: path)
      else Some (mk_search (- ENOMEM) path NULL NULL NULL None)
  | [] => if mem then inode_search' fs (cwd ++ SLASH :: path)
          else Some (mk_search (- ENOMEM) path NULL NULL NULL None)
  end.

(** ** Insertion *)

(** [inode_namecpy]: the characters of the first name of the path. *)
Fixpoint inode_namecpy (src : list Z) : list Z :=
  match src with
  | [] => []
  | c :: l => if c =? SLASH then [] else c :: inode_namecpy l
  end.

(** The new inode at address [a]. *)
Definition inode_alloc (a : Z) (name : list Z) (fs : pseudofs) : pseudofs :=
  mk_fs (g_root_inode fs) (u16 (g_ino fs + 1))
    (<[a := mk_inode NULL NULL NULL 1 FSNODEFLAG_TYPE_PSEUDODIR NULL (g_ino fs) NULL
              (inode_namecpy name)]> (inodes fs)).

(** [inode_root_reserve]; [a] is the block allocated. *)
Definition inode_root_reserve (a : Z) (fs : pseudofs) : pseudofs :=
  let fs := inode_alloc a [] fs in mk_fs a (g_ino fs) (inodes fs).

Definition inode_insert (a peer parent : Z) (h : gmap Z inode) : option (gmap Z inode) :=
  if negb (peer =? NULL) then
    p ← h !! peer;
    h ← heap_upd a (fun i => set_parent parent (set_peer (i_peer p) i)) h;
    heap_upd peer (set_peer a) h
  else
    p ← h !! parent;
    h ← heap_upd a (fun i => set_parent parent (set_peer (i_child p) i)) h;
    heap_upd parent (set_child a) h.

(** The loop of [inode_reserve]; [mem] are the blocks the allocator returns, as
    many as there are.  Each round consumes a name of the path. *)
Fixpoint reserve_loop (fuel : nat) (mem : list Z) (name : list Z) (left parent : Z)
    (fs : pseudofs) : option (Z * Z * pseudofs) :=
  match fuel, mem with
  | O, _ => None
  | _, [] => Some (- ENOMEM, NULL, fs)
  | S fuel, a :: mem =>
      let nextname := inode_nextname name in
      let fs := inode_alloc a name fs in
      h ← inode_insert a left parent (inodes fs);
      let fs := with_inodes fs h in
      match nextname with
      | [] => Some (OK, a, fs)
      | _ => reserve_loop fuel mem nextname NULL a fs
      end
  end.

(** The result and the node; [mem0] is the memory for a relative path. *)
Definition inode_reserve (mem0 : bool) (mem : list Z) (cwd path : list Z) (fs : pseudofs) :
    option (Z * Z * pseudofs) :=
  match path with
  | [] => Some (- EINVAL, NULL, fs)
  | _ =>
      s ← inode_search mem0 cwd path fs;
      if 0 <=? s_ret s then Some (- EEXIST, NULL, fs)
      else reserve_loop (S (length (s_path s))) mem (s_path s) (s_peer s) (s_parent s) fs
  end.

(** ** Removal *)

(** [inode_free]: the node, its peers and everything below. *)
Fixpoint free_loop (fuel : nat) (a : Z) (h : gmap Z inode) : option (gmap Z inode) :=
  if a =? NULL then Some h
  else
    match fuel with
    | O => None
    | S fuel =>
        i ← h !! a;
        h ← free_loop fuel (i_peer i) h;
        h ← free_loop fuel (i_child i) h;
        Some (delete a h)
    end.
Definition inode_free (a : Z) (h : gmap Z inode) : option (gmap Z inode) :=
  free_loop (S (size h)) a h.

(** The node removed from the tree, [NULL] when there is none. *)
Definition inode_unlink (mem0 : bool) (cwd path : list Z) (fs : pseudofs) :
    option (Z * pseudofs) :=
  s ← inode_search mem0 cwd path fs;
  if s_ret s <? 0 then Some (NULL, fs)
  else
    i ← inodes fs !! s_node s;
    let finish h :=
      h ← heap_upd (s_node s)
            (fun i => set_crefs (i_crefs i - 1) (set_parent NULL (set_peer NULL i))) h;
      Some (s_node s, with_inodes fs h) in
    if negb (s_peer s =? NULL) then
      h ← heap_upd (s_peer s) (set_peer (i_peer i)) (inodes fs); finish h
    else if s_parent s =? NULL then Some (NULL, fs)
    else h ← heap_upd (s_parent s) (set_child (i_peer i)) (inodes fs); finish h.

Definition inode_remove (mem0 : bool) (cwd path : list Z) (fs : pseudofs) :
    option (Z * pseudofs) :=
  '(a, fs) ← inode_unlink mem0 cwd path fs;
  if a =? NULL then Some (- ENOENT, fs)
  else
    i ← inodes fs !! a;
    if negb (i_crefs i =? 0) then Some (- EBUSY, fs)
    else h ← inode_free a (inodes fs); Some (OK, with_inodes fs h).

(** ** References *)

Definition inode_addref (a : Z) (fs : pseudofs) : option pseudofs :=
  if a =? NULL then Some fs
  else h ← heap_upd a (fun i => set_crefs (i_crefs i + 1) i) (inodes fs); Some (with_inodes fs h).

Definition inode_find (mem0 : bool) (cwd path : list Z) (fs : pseudofs) :
    option (search * pseudofs) :=
  s ← inode_search mem0 cwd path fs;
  if 0 <=? s_ret s then
    h ← heap_upd (s_node s) (fun i => set_crefs (i_crefs i + 1) i) (inodes fs);
    Some (s, with_inodes fs h)
  else Some (s, fs).

Definition inode_release (a : Z) (fs : pseudofs) : option pseudofs :=
  if a =? NULL then Some fs
  else
    i ← inodes fs !! a;
    h ← heap_upd a (fun i => set_crefs (i_crefs i - 1) i) (inodes fs);
    if i_crefs i <=? 1 then h ← inode_free a h; Some (with_inodes fs h)
    else Some (with_inodes fs h).

(** ** Drivers *)

Definition register_driver (mem0 : bool) (mem : list Z) (cwd path : list Z) (ops priv : Z)
    (fs : pseudofs) : option (Z * pseudofs) :=
  '(ret, a, fs) ← inode_reserve mem0 mem cwd path fs;
  if 0 <=? ret then
    h ← heap_upd a (set_driver ops priv) (inodes fs); Some (OK, with_inodes fs h)
  else Some (ret, fs).

(** [nx_unlink]; [unlink] is the result of the unlink method of the driver or of
    the mounted file system, [None] when it has none. *)
Definition nx_unlink (unlink : inode -> option Z) (mem0 : bool) (cwd path : list Z)
    (fs : pseudofs) : option (Z * pseudofs) :=
  '(s, fs) ← inode_find mem0 cwd path fs;
  if s_ret s <? 0 then Some (s_ret s, fs)
  else
    let a := s_node s in
    i ← inodes fs !! a;
    let out ret fs := fs ← inode_release a fs; Some (ret, fs) in
    let rm fs :=
      '(ret, fs) ← inode_remove mem0 cwd path fs;
      if (ret <? 0) && negb (ret =? - EBUSY) then out ret fs else out OK fs in
    if INODE_IS_MOUNTPT i && negb (i_ops i =? NULL) then
      match unlink i with
      | Some ret => if ret <? 0 then out ret fs else out OK fs
      | None => out (- ENOSYS) fs
      end
    else if negb (i_child i =? NULL) then out (- ENOTEMPTY) fs
    else if (i_flags i =? FSNODEFLAG_TYPE_DRIVER) || (i_flags i =? FSNODEFLAG_TYPE_SHM) ||
            (i_flags i =? FSNODEFLAG_TYPE_PIPE) || (i_flags i =? FSNODEFLAG_TYPE_BLOCK) then
      match unlink i with
      | Some ret => if ret <? 0 then out ret fs else rm fs
      | None => out (- ENXIO) fs
      end
    else if i_flags i =? FSNODEFLAG_TYPE_PSEUDODIR then rm fs
    else out (- ENXIO) fs.

Definition unregister_driver (unlink : inode -> option Z) (mem0 : bool) (cwd path : list Z)
    (fs : pseudofs) : option (Z * pseudofs) :=
  '(ret, fs) ← nx_unlink unlink mem0 cwd path fs;
  if 0 <=? ret then Some (ret, fs) else inode_remove mem0 cwd path fs.

(** ** The tree in the heap

    A tree of nodes with the peer to the right and the children below, as the
    pointers link them, and with the fields the links do not need. *)

Record idata := mk_idata { d_crefs : Z; d_flags : Z; d_ops : Z; d_ino : Z; d_priv : Z }.

Inductive itree :=
| INull
| INode (a : Z) (n : list Z) (dat : idata) (peer child : itree).

Definition ptr (t : itree) : Z := match t with INull => NULL | INode a _ _ _ _ => a end.

Definition to_inode (parent peer child : Z) (n : list Z) (dat : idata) : inode :=
  mk_inode parent peer child (d_crefs dat) (d_flags dat) (d_ops dat) (d_ino dat) (d_priv dat) n.

Fixpoint rep (h : gmap Z inode) (parent : Z) (t : itree) : Prop :=
  match t with
  | INull => True
  | INode a n dat peer child =>
      h !! a = Some (to_inode parent (ptr peer) (ptr child) n dat) /\
      rep h parent peer /\ rep h a child
  end.

Fixpoint addrs (t : itree) : list Z :=
  match t with
  | INull => []
  | INode a _ _ peer child => a :: addrs peer ++ addrs child
  end.

Fixpoint nodes (t : itree) : list (Z * idata) :=
  match t with
  | INull => []
  | INode a _ dat peer child => (a, dat) :: nodes peer ++ nodes child
  end.

(** *** Names *)

(** Node names are compared as lists of characters. *)
Fixpoint name_lt (a b : list Z) : Prop :=
  match a, b with
  | _, [] => False
  | [], _ :: _ => True
  | x :: a, y :: b => x < y \/ (x = y /\ name_lt a b)
  end.

Definition name_ok (n : list Z) : Prop := n <> [] /\ Forall (fun c => c <> SLASH) n.

Definition right_of (n : list Z) (t : itree) : Prop :=
  match t with INull => True | INode _ m _ _ _ => name_lt n m end.

(** The type invariant of the tree: proper names, in order along the peers. *)
Fixpoint tree_ok (t : itree) : Prop :=
  match t with
  | INull => True
  | INode a n dat peer child => name_ok n /\ right_of n peer /\ tree_ok peer /\ tree_ok child
  end.

(** The names of a path. *)
Fixpoint segs_loop (fuel : nat) (name : list Z) : list (list Z) :=
  match fuel, name with
  | S fuel, _ :: _ => inode_namecpy name :: segs_loop fuel (inode_nextname name)
  | _, _ => []
  end.
Definition segs (name : list Z) : list (list Z) := segs_loop (length name) name.

(** *** The specification: a walk along the names

    The node, and the names left for a mountpoint to resolve. *)
Fixpoint find (t : itree) (q : list (list Z)) : option (Z * idata * list (list Z)) :=
  match t, q with
  | INull, _ | _, [] => None
  | INode a n dat peer child, x :: q' =>
      if decide (x = n)
      then if decide (q' = [] \/ d_flags dat = FSNODEFLAG_TYPE_MOUNTPT)
           then Some (a, dat, q') else find child q'
      else find peer q
  end.

(** ** Names and paths *)

Lemma name_lt_irrefl a : ~ name_lt a a.
Proof. induction a as [|x a IH]; simpl; [tauto|]. intros [?|[_ ?]]; [lia|tauto]. Qed.

Lemma name_lt_trans a b c : name_lt a b -> name_lt b c -> name_lt a c.
Proof.
  revert b c. induction a as [|x a IH]; intros [|y b] [|z c]; simpl; try done.
  intros [H1|[-> H1]] [H2|[-> H2]]; [left; lia|by left|by left|]. right. split; [done|by eapply IH].
Qed.

Lemma compare_spec name n :
  Forall (fun c => c <> SLASH) n ->
  (inode_compare name n = 0 /\ inode_namecpy name = n) \/
  (inode_compare name n = 1 /\ name_lt n (inode_namecpy name)) \/
  (inode_compare name n = -1 /\ name_lt (inode_namecpy name) n).
Proof.
  revert name. induction n as [|c n IH]; intros [|f name] Hn; simpl.
  - by left.
  - destruct (f =? SLASH); [by left|]. right. by left.
  - right. by right.
  - apply Forall_cons in Hn as [Hc Hn]. destruct (f =? SLASH); [right; by right|].
    destruct (Z.ltb_spec c f); [right; left; simpl; split; [done|by left]|].
    destruct (Z.ltb_spec f c); [right; right; simpl; split; [done|by left]|].
    assert (f = c) as -> by lia. destruct (IH name Hn) as [[E1 E2]|[[E1 E2]|[E1 E2]]].
    + left. split; [done|]. by rewrite E2.
    + right; left. split; [done|]. simpl. by right.
    + right; right. split; [done|]. simpl. by right.
Qed.

Lemma skip_name_len name : (length (skip_name name) <= length name)%nat.
Proof. induction name as [|c l IH]; simpl; [lia|]. destruct (c =? SLASH); simpl; lia. Qed.
Lemma skip_slash_len name : (length (skip_slash name) <= length name)%nat.
Proof. induction name as [|c l IH]; simpl; [lia|]. destruct (c =? SLASH); simpl; lia. Qed.
Lemma skip_len name : (length (skip_slash (skip_name name)) <= length name - 1)%nat.
Proof.
  destruct name as [|c l]; simpl; [lia|]. pose proof (skip_name_len l). destruct (c =? SLASH) eqn:E.
  - simpl. rewrite E. pose proof (skip_slash_len l). lia.
  - pose proof (skip_slash_len (skip_name l)). lia.
Qed.

Lemma nextname_loop_len fuel name : (length (nextname_loop fuel name) <= length name - 1)%nat.
Proof.
  revert name. induction fuel as [|fuel IH]; intros name; simpl; pose proof (skip_len name) as H.
  { destruct (skip_slash (skip_name name)); done. }
  destruct (skip_slash (skip_name name)) as [|c1 [|c2 l]] eqn:E; try done.
  destruct ((c1 =? DOT) && (c2 =? SLASH)); [|done].
  etrans; [apply IH|]. simpl in *. lia.
Qed.

Lemma nextname_len name : (length (inode_nextname name) <= length name - 1)%nat.
Proof. apply nextname_loop_len. Qed.

(** A name starts here: the end of the path, or something else than a slash. *)
Definition starts (name : list Z) : Prop :=
  match name with [] => True | c :: _ => c <> SLASH end.

Lemma skip_slash_starts name : starts (skip_slash name).
Proof. induction name as [|c l IH]; simpl; [done|]. destruct (Z.eqb_spec c SLASH); done. Qed.

Lemma nextname_starts name : starts (inode_nextname name).
Proof.
  unfold inode_nextname. generalize (length name). intros fuel. revert name.
  induction fuel as [|fuel IH]; intros name; simpl;
    pose proof (skip_slash_starts (skip_name name)) as H;
    destruct (skip_slash (skip_name name)) as [|c1 [|c2 l]]; try done.
  destruct ((c1 =? DOT) && (c2 =? SLASH)); [apply IH|done].
Qed.

Lemma namecpy_ok name : starts name -> name <> [] -> name_ok (inode_namecpy name).
Proof.
  intros Hs Hne. destruct name as [|c l]; [done|]. simpl in *.
  destruct (Z.eqb_spec c SLASH); [done|]. split; [done|]. constructor; [done|].
  clear. induction l as [|d l IH]; simpl; [constructor|].
  destruct (Z.eqb_spec d SLASH); constructor; done.
Qed.

Lemma segs_loop_fuel fuel name : (length name <= fuel)%nat -> segs_loop fuel name = segs name.
Proof.
  enough (forall f1 f2 name, (length name <= f1)%nat -> (length name <= f2)%nat ->
    segs_loop f1 name = segs_loop f2 name) as H by (intros; by apply H).
  clear. induction f1 as [|f1 IH]; intros [|f2] [|c l] H1 H2; simpl in H1, H2; try done; try lia.
  cbn [segs_loop]. f_equal. pose proof (nextname_len (c :: l)). simpl in *. apply IH; lia.
Qed.

Lemma segs_cons name : name <> [] -> segs name = inode_namecpy name :: segs (inode_nextname name).
Proof.
  intros Hne. destruct name as [|c l]; [done|]. unfold segs at 1. cbn [length segs_loop].
  f_equal. apply segs_loop_fuel. pose proof (nextname_len (c :: l)). simpl in *. lia.
Qed.

Lemma segs_nil name : segs name = [] <-> name = [].
Proof. destruct name; [done|]. split; [|done]. by rewrite segs_cons. Qed.

(** ** Contexts

    A place in the tree: the nodes passed on the way to it, the last one first.
    In [FPeer] the place is to the right of the node, in [FChild] below it. *)

Inductive frame :=
| FPeer (a : Z) (n : list Z) (dat : idata) (child : itree)
| FChild (a : Z) (n : list Z) (dat : idata) (peer : itree).

Definition fill (f : frame) (u : itree) : itree :=
  match f with
  | FPeer a n dat child => INode a n dat u child
  | FChild a n dat peer => INode a n dat peer u
  end.
Fixpoint plug (C : list frame) (u : itree) : itree :=
  match C with [] => u | f :: C => plug C (fill f u) end.

Definition f_addr (f : frame) : Z := match f with FPeer a _ _ _ | FChild a _ _ _ => a end.
Definition left_of (C : list frame) : Z :=
  match C with FPeer a _ _ _ :: _ => a | _ => NULL end.
Fixpoint parent_of (p : Z) (C : list frame) : Z :=
  match C with
  | [] => p
  | FPeer _ _ _ _ :: C => parent_of p C
  | FChild a _ _ _ :: _ => a
  end.

Definition f_addrs (f : frame) : list Z :=
  match f with FPeer a _ _ t | FChild a _ _ t => a :: addrs t end.
Fixpoint ctx_addrs (C : list frame) : list Z :=
  match C with [] => [] | f :: C => f_addrs f ++ ctx_addrs C end.

Lemma addrs_plug C u : addrs (plug C u) ≡ₚ ctx_addrs C ++ addrs u.
Proof.
  revert u. induction C as [|f C IH]; intros u; simpl; [done|]. rewrite IH.
  destruct f as [a n dat t|a n dat t]; simpl; solve_Permutation.
Qed.

Definition f_nodes (f : frame) : list (Z * idata) :=
  match f with FPeer a _ dat t | FChild a _ dat t => (a, dat) :: nodes t end.
Fixpoint ctx_nodes (C : list frame) : list (Z * idata) :=
  match C with [] => [] | f :: C => f_nodes f ++ ctx_nodes C end.

Lemma nodes_plug C u : nodes (plug C u) ≡ₚ ctx_nodes C ++ nodes u.
Proof.
  revert u. induction C as [|f C IH]; intros u; simpl; [done|]. rewrite IH.
  destruct f as [a n dat t|a n dat t]; simpl; solve_Permutation.
Qed.

Lemma addrs_nodes t : addrs t = fst <$> nodes t.
Proof. induction t as [|a n dat p IH1 c IH2]; simpl; [done|]. by rewrite IH1, IH2, fmap_app. Qed.

Definition f_rep (h : gmap Z inode) (p : Z) (f : frame) (x : Z) : Prop :=
  match f with
  | FPeer a n dat child => h !! a = Some (to_inode p x (ptr child) n dat) /\ rep h a child
  | FChild a n dat peer => h !! a = Some (to_inode p (ptr peer) x n dat) /\ rep h p peer
  end.
Fixpoint ctx_rep (h : gmap Z inode) (p : Z) (C : list frame) (x : Z) : Prop :=
  match C with
  | [] => True
  | f :: C => f_rep h (parent_of p C) f x /\ ctx_rep h p C (f_addr f)
  end.

Lemma rep_plug h p C u : rep h p (plug C u) <-> ctx_rep h p C (ptr u) /\ rep h (parent_of p C) u.
Proof.
  revert u. induction C as [|f C IH]; intros u; simpl; [naive_solver|]. rewrite IH.
  destruct f; simpl; naive_solver.
Qed.

Lemma rep_ext h h' p t :
  (forall a, a ∈ addrs t -> h' !! a = h !! a) -> rep h p t -> rep h' p t.
Proof.
  revert p. induction t as [|a n dat peer IH1 child IH2]; intros p He; simpl in *; [done|].
  intros (H1 & H2 & H3). rewrite (He a) by set_solver. split; [done|].
  split; [apply IH1|apply IH2]; try done; intros b Hb; apply He; set_solver.
Qed.

Lemma ctx_rep_ext h h' p C x :
  (forall a, a ∈ ctx_addrs C -> h' !! a = h !! a) -> ctx_rep h p C x -> ctx_rep h' p C x.
Proof.
  revert x. induction C as [|f C IH]; intros x He; simpl in *; [done|]. intros [H1 H2]. split.
  - destruct f; simpl in *; rewrite He by set_solver; (split; [tauto|]);
      (eapply rep_ext; [|apply H1]); intros b Hb; apply He; set_solver.
  - apply IH; [|done]. intros b Hb. apply He. set_solver.
Qed.

(** Change the pointer of the last node passed. *)
Definition f_link (f : frame) (y : Z) : inode -> inode :=
  match f with FPeer _ _ _ _ => set_peer y | FChild _ _ _ _ => set_child y end.

Lemma ctx_rep_link h p f C x y :
  NoDup (ctx_addrs (f :: C)) -> ctx_rep h p (f :: C) x ->
  exists i, h !! f_addr f = Some i /\ (match f with FPeer _ _ _ _ => i_peer i | _ => i_child i end) = x /\
    ctx_rep (<[f_addr f := f_link f y i]> h) p (f :: C) y.
Proof.
  intros Hnd [Hf Hc]. simpl in Hnd. apply NoDup_app in Hnd as (Hd1 & Hd2 & _).
  assert (f_addr f ∉ ctx_addrs C) as Hni by (apply Hd2; destruct f; set_solver).
  destruct f as [a n dat t|a n dat t]; simpl in *; destruct Hf as [Ha Ht];
    apply NoDup_cons in Hd1 as [Hat _]; rewrite Ha; eexists; (split; [done|]); (split; [done|]);
    (split; [|eapply ctx_rep_ext; [|exact Hc]; intros b Hb; apply lookup_insert_ne; set_solver]);
    (split; [by rewrite lookup_insert_eq|]);
    (eapply rep_ext; [|exact Ht]); intros b Hb; apply lookup_insert_ne; set_solver.
Qed.

(** The names left when the walk along [q] reaches the place. *)
Definition route1 (f : frame) (q : list (list Z)) : option (list (list Z)) :=
  match f, q with
  | FPeer _ n _ _, x :: _ => if decide (x = n) then None else Some q
  | FChild _ n dat _, x :: (_ :: _) as q' =>
      if decide (x = n /\ d_flags dat <> FSNODEFLAG_TYPE_MOUNTPT) then Some (tail q) else None
  | _, _ => None
  end.
Fixpoint route (C : list frame) (q : list (list Z)) : option (list (list Z)) :=
  match C with [] => Some q | f :: C => route C q ≫= route1 f end.

Lemma find_fill f u q :
  find (fill f u) q = match route1 f q with Some q' => find u q' | None => find (fill f INull) q end.
Proof.
  destruct f as [a n dat t|a n dat t], q as [|x q]; simpl; try done.
  - by case_decide.
  - destruct q as [|y q]; simpl; repeat case_decide; try done; try tauto.
    match goal with H : _ :: _ = [] \/ _ |- _ => destruct H; [done|tauto] end.
Qed.

Lemma find_plug C u q q' : route C q = Some q' -> find (plug C u) q = find u q'.
Proof.
  revert u q'. induction C as [|f C IH]; intros u q'; simpl; [by intros [= ->]|].
  destruct (route C q) as [q1|] eqn:E; simpl; [|done]. intros Hf.
  rewrite (IH _ q1) by done. by rewrite find_fill, Hf.
Qed.

Lemma find_plug_off C u u' q : route C q = None -> find (plug C u) q = find (plug C u') q.
Proof.
  revert u u'. induction C as [|f C IH]; intros u u'; simpl; [done|].
  destruct (route C q) as [q1|] eqn:E; simpl; [|intros _; by apply IH].
  intros Hf. rewrite !(find_plug _ _ _ q1) by done. by rewrite (find_fill f u), (find_fill f u'), Hf.
Qed.

Fixpoint ctx_path (C : list frame) : list (list Z) :=
  match C with
  | [] => []
  | FPeer _ _ _ _ :: C => ctx_path C
  | FChild _ n _ _ :: C => ctx_path C ++ [n]
  end.

Lemma route_path C q q' : route C q = Some q' -> q = ctx_path C ++ q'.
Proof.
  revert q'. induction C as [|f C IH]; intros q'; simpl; [by intros [= ->]|].
  destruct (route C q) as [q1|]; simpl; [|done]. specialize (IH q1 eq_refl).
  destruct f as [a n dat t|a n dat t]; simpl.
  - destruct q1 as [|x q1]; [done|]. destruct (decide (x = n)); [done|]. by intros [= <-].
  - destruct q1 as [|x [|y q1]]; [done|done|]. destruct (decide _) as [[-> _]|]; [|done].
    intros [= <-]. by rewrite <- app_assoc.
Qed.

Lemma route_ext C x r r' :
  route C (ctx_path C ++ x :: r) = Some (x :: r) -> route C (ctx_path C ++ x :: r') = Some (x :: r').
Proof.
  revert x r r'. induction C as [|f C IH]; intros x r r'; simpl; [done|].
  destruct f as [a n dat t|a n dat t].
  - destruct (route C _) as [q1|] eqn:E; simpl; [|done]. intros Hf.
    assert (q1 = x :: r) as ->.
    { destruct q1 as [|y q1]; simpl in Hf; [done|]. by destruct (decide (y = n)); simplify_eq. }
    rewrite (IH x r r') by done. simpl in *. by destruct (decide (x = n)); simplify_eq.
  - rewrite <- !app_assoc. simpl. destruct (route C _) as [q1|] eqn:E; simpl; [|done]. intros Hf.
    pose proof (route_path _ _ _ E) as Hp. apply app_inv_head in Hp as <-.
    rewrite (IH n (x :: r) (x :: r')) by done. simpl in *. by destruct (decide (n = n /\ _)).
Qed.

Definition f_ok (f : frame) : Prop :=
  match f with
  | FPeer a n dat child => name_ok n /\ tree_ok child
  | FChild a n dat peer => name_ok n /\ right_of n peer /\ tree_ok peer
  end.
Definition hole_right (C : list frame) (u : itree) : Prop :=
  match C with FPeer _ n _ _ :: _ => right_of n u | _ => True end.
Fixpoint ctx_ok (C : list frame) : Prop :=
  match C with [] => True | f :: C => f_ok f /\ hole_right C (fill f INull) /\ ctx_ok C end.

Lemma hole_right_fill C f u : hole_right C (fill f u) <-> hole_right C (fill f INull).
Proof. destruct C as [|[] C], f; done. Qed.

Lemma tree_ok_plug C u : tree_ok (plug C u) <-> ctx_ok C /\ hole_right C u /\ tree_ok u.
Proof.
  revert u. induction C as [|f C IH]; intros u; simpl; [tauto|].
  rewrite IH, hole_right_fill. destruct f; simpl; tauto.
Qed.

(** The names are in order, so a smaller one is not there. *)
Lemma find_right t x q : tree_ok t -> right_of x t -> find t (x :: q) = None.
Proof.
  revert x q. induction t as [|a n dat peer IH1 child IH2]; intros x q; simpl; [done|].
  intros (Hn & Hr & Hp & Hc) Hx. rewrite decide_False.
  - apply IH1; [done|]. destruct peer; simpl in *; [done|]. by eapply name_lt_trans.
  - intros ->. by eapply name_lt_irrefl.
Qed.

(** The name is greater than those of the peers passed. *)
Definition passed (C : list frame) (x : list Z) : Prop :=
  match C with FPeer _ n _ _ :: _ => name_lt n x | _ => True end.

(** What the search leaves in its descriptor: the place, and what is there. *)
Definition search_at (r : Z) (T t : itree) (Q q : list (list Z)) (s : search) (C : list frame)
    (u : itree) : Prop :=
  plug C u = T /\ s_peer s = left_of C /\ s_parent s = parent_of r C /\
  match find t q with
  | Some (a, dat, q') =>
      s_ret s = OK /\ s_node s = a /\ (exists rel, s_relpath s = Some rel /\ segs rel = q') /\
      exists n peer child, u = INode a n dat peer child /\ route C Q = Some (n :: q')
  | None =>
      s_ret s = - ENOENT /\ s_node s = NULL /\ s_path s <> [] /\ starts (s_path s) /\
      route C Q = Some (segs (s_path s)) /\ right_of (inode_namecpy (s_path s)) u /\
      passed C (inode_namecpy (s_path s))
  end.

Lemma search_loop_spec h r t : forall fuel C name Q,
  rep h (parent_of r C) t -> tree_ok t -> NULL ∉ addrs t -> (length (addrs t) <= fuel)%nat ->
  starts name -> name <> [] -> route C Q = Some (segs name) -> passed C (inode_namecpy name) ->
  exists s C' u, search_loop fuel h name (ptr t) (left_of C) (parent_of r C) = Some s /\
    search_at r (plug C t) t Q (segs name) s C' u.
Proof.
  induction t as [|a n dat peer IH1 child IH2]; intros fuel C name Q Hrep Hok Hnull Hfuel Hst Hne Hro Hpa.
  { destruct fuel; eexists _, C, INull; (split; [reflexivity|]); by repeat split. }
  simpl in Hrep, Hok, Hfuel. destruct Hrep as (Ha & Hrp & Hrc), Hok as (Hn & Hr & Hop & Hoc).
  destruct fuel as [|fuel]; [lia|]. rewrite length_app in Hfuel.
  assert (a <> NULL) as Ha0 by (intros ->; apply Hnull; simpl; set_solver).
  cbn [search_loop ptr]. replace (a =? NULL) with false by lia. rewrite Ha. cbn [mbind option_bind].
  change (i_name (to_inode _ _ _ n dat)) with n. rewrite segs_cons in * by done.
  destruct (compare_spec name n (proj2 Hn)) as [[E Ex]|[[E Ex]|[E Ex]]]; rewrite E; simpl (_ <? _).
  - change (i_child (to_inode _ _ _ n dat)) with (ptr child). cbn [search_at find]. unfold search_at.
    cbn [find]. rewrite Ex in *. rewrite (decide_True (P := n = n)) by done.
    change (INODE_IS_MOUNTPT (to_inode _ _ _ n dat)) with (d_flags dat =? FSNODEFLAG_TYPE_MOUNTPT).
    destruct (decide (segs (inode_nextname name) = [] \/ d_flags dat = FSNODEFLAG_TYPE_MOUNTPT)) as [Hm|Hm].
    + replace (is_nul (inode_nextname name) || (d_flags dat =? FSNODEFLAG_TYPE_MOUNTPT)) with true.
      2:{ symmetry. apply orb_true_iff. destruct Hm as [Hm|Hm]; [left|right; lia].
          apply segs_nil in Hm. by rewrite Hm. }
      eexists _, C, (INode a n dat peer child). split; [reflexivity|].
      repeat split; try done; [by eexists|]. by eexists _, _, _.
    + assert (inode_nextname name <> []) as Hnn by (intros H; apply Hm; left; by rewrite H).
      replace (is_nul (inode_nextname name) || (d_flags dat =? FSNODEFLAG_TYPE_MOUNTPT)) with false.
      2:{ symmetry. apply orb_false_iff. split; [by destruct (inode_nextname name)|].
          apply Z.eqb_neq. tauto. }
      apply (IH2 fuel (FChild a n dat peer :: C)); try done.
      * intros H. apply Hnull. simpl. set_solver.
      * lia.
      * apply nextname_starts.
      * simpl. rewrite Hro. simpl. rewrite segs_cons by done.
        rewrite decide_True; [done|]. tauto.
  - change (i_peer (to_inode _ _ _ n dat)) with (ptr peer).
    assert (inode_namecpy name <> n) as Hx by (intros H; rewrite H in Ex; by eapply name_lt_irrefl).
    destruct (IH1 fuel (FPeer a n dat child :: C) name Q) as (s & C' & u & Hs & Hat); try done.
    * intros H. apply Hnull. simpl. set_solver.
    * lia.
    * simpl. rewrite Hro. simpl. rewrite decide_False by done. by rewrite (segs_cons name).
    * exists s, C', u. split; [done|]. unfold search_at in *. cbn [find].
      rewrite (decide_False (P := inode_namecpy name = n)) by done. by rewrite <- (segs_cons name).
  - eexists _, C, (INode a n dat peer child). split; [reflexivity|]. unfold search_at.
    rewrite (find_right (INode a n dat peer child) _ _) by done.
    repeat split; try done. simpl. by rewrite (segs_cons name).
Qed.

(** ** Changing the tree in one place *)

(** A new node without children. *)
Lemma find_insert C u a x dat rest q :
  tree_ok u -> right_of x u -> route C (ctx_path C ++ x :: rest) = Some (x :: rest) ->
  d_flags dat <> FSNODEFLAG_TYPE_MOUNTPT ->
  find (plug C (INode a x dat u INull)) q =
  if decide (q = ctx_path C ++ [x]) then Some (a, dat, []) else find (plug C u) q.
Proof.
  intros Hok Hr Hro Hm. case_decide as Hq.
  { subst q. rewrite (find_plug _ _ _ [x]) by (by eapply route_ext). simpl.
    by rewrite !decide_True by (done || by left). }
  destruct (route C q) as [q'|] eqn:E; [|by apply find_plug_off].
  pose proof (route_path _ _ _ E) as ->. rewrite !(find_plug _ _ _ q') by done.
  destruct q' as [|y q']; simpl; [by destruct u|].
  destruct (decide (y = x)) as [->|Hy]; [|done].
  rewrite decide_False; [by rewrite find_right|]. intros [->|?]; done.
Qed.

(** Other data in a node that is no mountpoint. *)
Lemma find_update C a n dat dat' peer child rest q :
  route C (ctx_path C ++ n :: rest) = Some (n :: rest) ->
  d_flags dat <> FSNODEFLAG_TYPE_MOUNTPT -> d_flags dat' <> FSNODEFLAG_TYPE_MOUNTPT ->
  find (plug C (INode a n dat' peer child)) q =
  if decide (q = ctx_path C ++ [n]) then Some (a, dat', [])
  else find (plug C (INode a n dat peer child)) q.
Proof.
  intros Hro Hm Hm'. case_decide as Hq.
  { subst q. rewrite (find_plug _ _ _ [n]) by (by eapply route_ext). simpl.
    by rewrite !decide_True by (done || by left). }
  destruct (route C q) as [q'|] eqn:E; [|by apply find_plug_off].
  pose proof (route_path _ _ _ E) as ->. rewrite !(find_plug _ _ _ q') by done.
  destruct q' as [|y q']; simpl; [done|]. destruct (decide (y = n)) as [->|Hy]; [|done].
  assert (q' <> []) by (intros ->; done). by rewrite !decide_False by tauto.
Qed.

(** A node and what is below it taken out. *)
Lemma find_remove C a n dat peer child rest q :
  tree_ok (INode a n dat peer child) -> route C (ctx_path C ++ n :: rest) = Some (n :: rest) ->
  find (plug C peer) q =
  if decide (ctx_path C ++ [n] `prefix_of` q) then None
  else find (plug C (INode a n dat peer child)) q.
Proof.
  intros (Hn & Hr & Hp & Hc) Hro. case_decide as Hq.
  { destruct Hq as [k ->]. rewrite <- app_assoc. simpl.
    rewrite (find_plug _ _ _ (n :: k)) by (by eapply route_ext). by apply find_right. }
  destruct (route C q) as [q'|] eqn:E; [|by apply find_plug_off].
  pose proof (route_path _ _ _ E) as ->. rewrite !(find_plug _ _ _ q') by done.
  destruct q' as [|y q']; simpl; [by destruct peer|]. destruct (decide (y = n)) as [->|Hy]; [|done].
  destruct Hq. exists q'. by rewrite <- app_assoc.
Qed.

(** [inode_insert] puts the node in the place the search found. *)
Lemma insert_rep h p f C u a n dat :
  rep h p (plug (f :: C) u) -> NoDup (a :: addrs (plug (f :: C) u)) ->
  NULL ∉ addrs (plug (f :: C) u) ->
  exists h', inode_insert a (left_of (f :: C)) (parent_of p (f :: C))
               (<[a := to_inode NULL NULL NULL n dat]> h) = Some h' /\
    rep h' p (plug (f :: C) (INode a n dat u INull)) /\
    forall b, b <> a -> b ∉ addrs (plug (f :: C) u) -> h' !! b = h !! b.
Proof.
  intros Hrep [Ha Hnd]%NoDup_cons Hnull. rewrite addrs_plug in Ha, Hnd, Hnull.
  apply rep_plug in Hrep as [Hc Hu].
  assert (f_addr f ∈ ctx_addrs (f :: C)) as Hf by (destruct f; simpl; set_solver).
  assert (f_addr f <> a) as Hfa by set_solver.
  assert (f_addr f <> NULL) as Hf0 by (intros E; apply Hnull, elem_of_app; left; by rewrite <- E).
  apply NoDup_app in Hnd as (Hnd1 & Hnd2 & Hnd3).
  set (h1 := <[a := to_inode (parent_of p (f :: C)) (ptr u) NULL n dat]> h).
  assert (ctx_rep h1 p (f :: C) (ptr u)) as Hc1.
  { eapply ctx_rep_ext; [|exact Hc]. intros b Hb. apply lookup_insert_ne. set_solver. }
  destruct (ctx_rep_link _ _ _ _ _ a Hnd1 Hc1) as (i & Hi & Hx & Hc2).
  assert (h !! f_addr f = Some i) as Hi' by (unfold h1 in Hi; by rewrite lookup_insert_ne in Hi).
  exists (<[f_addr f := f_link f a i]> h1). split; [|split].
  - unfold inode_insert. destruct f as [b m d t|b m d t]; simpl left_of; simpl f_addr in *.
    + replace (negb (b =? NULL)) with true by lia. rewrite lookup_insert_ne by done.
      rewrite Hi'. cbn [mbind option_bind]. unfold heap_upd. rewrite lookup_insert_eq.
      cbn [mbind option_bind]. rewrite Hx, insert_insert_eq.
      change (<[a := set_parent _ _]> h) with h1. by rewrite Hi.
    + simpl parent_of. rewrite Z.eqb_refl. cbn [negb]. rewrite lookup_insert_ne by done.
      rewrite Hi'. cbn [mbind option_bind]. unfold heap_upd. rewrite lookup_insert_eq.
      cbn [mbind option_bind]. rewrite Hx, insert_insert_eq.
      change (<[a := set_parent _ _]> h) with h1. by rewrite Hi.
  - apply rep_plug. split; [done|]. cbn [rep]. split; [|split; [|done]].
    + rewrite lookup_insert_ne by done. unfold h1. by rewrite lookup_insert_eq.
    + eapply rep_ext; [|exact Hu]. intros b Hb.
      rewrite lookup_insert_ne by (intros <-; by eapply Hnd2).
      unfold h1. apply lookup_insert_ne. set_solver.
  - intros b Hb1 Hb2. rewrite addrs_plug in Hb2. rewrite lookup_insert_ne by set_solver.
    by apply lookup_insert_ne.
Qed.

(** ** The file system *)

(** The heap holds the tree [t] below the root. *)
Record fs_ok (fs : pseudofs) (rdat : idata) (t : itree) : Prop := {
  fo_rep : rep (inodes fs) NULL (INode (g_root_inode fs) [] rdat INull t);
  fo_tree : tree_ok t;
  fo_nodup : NoDup (g_root_inode fs :: addrs t);
  fo_null : NULL ∉ g_root_inode fs :: addrs t;
  fo_root : d_flags rdat <> FSNODEFLAG_TYPE_MOUNTPT
}.

Definition abs_path (path : list Z) : Prop :=
  match path with c :: _ => c = SLASH | [] => False end.
Definition names (path : list Z) : list (list Z) := segs (inode_nextname path).
Definition full_path (cwd path : list Z) : list Z :=
  match path with
  | c :: _ => if c =? SLASH then path else cwd ++ SLASH :: path
  | [] => cwd ++ SLASH :: path
  end.

Lemma nodup_size (h : gmap Z inode) l :
  NoDup l -> (forall a, a ∈ l -> is_Some (h !! a)) -> (length l <= size h)%nat.
Proof.
  intros Hnd Hl. rewrite <- size_dom. rewrite <- (size_list_to_set (C := gset Z) l Hnd).
  apply subseteq_size. intros a. rewrite elem_of_list_to_set, elem_of_dom. apply Hl.
Qed.

Lemma rep_dom h p t a : rep h p t -> a ∈ addrs t -> is_Some (h !! a).
Proof.
  revert p. induction t as [|b n dat peer IH1 child IH2]; intros p; simpl; [set_solver|].
  intros (H1 & H2 & H3) [->|[Ha|Ha]%elem_of_app]%elem_of_cons; eauto.
Qed.

Lemma fs_fuel fs rdat t : fs_ok fs rdat t -> (length (addrs t) < size (inodes fs))%nat.
Proof.
  intros []. apply (nodup_size (inodes fs) (g_root_inode fs :: addrs t)) in fo_nodup0; [done|].
  intros a Ha. apply (rep_dom _ _ _ a fo_rep0). done.
Qed.

Lemma search_abs fs rdat t path :
  fs_ok fs rdat t -> abs_path path -> names path <> [] ->
  exists s C u, inode_search' fs path = Some s /\
    search_at (g_root_inode fs) t t (names path) (names path) s C u.
Proof.
  intros Hfs Hp Hn. pose proof (fs_fuel _ _ _ Hfs) as Hfuel.
  destruct Hfs as [(Hr & _ & Hrep) Hok Hnd Hnull Hm].
  destruct path as [|c l]; [done|]. simpl in Hp. subst c. unfold inode_search'. rewrite Z.eqb_refl.
  cbn [search_loop]. rewrite (proj2 (Z.eqb_neq (g_root_inode fs) NULL)).
  2:{ intros H. apply Hnull. rewrite H. by left. }
  rewrite Hr. cbn [mbind option_bind]. change (i_name (to_inode _ _ _ [] rdat)) with (@nil Z).
  change (inode_compare (SLASH :: l) []) with 0. simpl (_ <? _).
  change (INODE_IS_MOUNTPT (to_inode _ _ _ _ rdat)) with (d_flags rdat =? FSNODEFLAG_TYPE_MOUNTPT).
  unfold names in *.
  assert (inode_nextname (SLASH :: l) <> []) as Hne by (intros H; apply Hn; by rewrite H).
  replace (is_nul _ || _) with false.
  2:{ symmetry. apply orb_false_iff. split; [by destruct (inode_nextname (SLASH :: l))|lia]. }
  apply (search_loop_spec _ (g_root_inode fs) t (size (inodes fs)) []); try done.
  - intros H. apply Hnull. by right.
  - lia.
  - apply nextname_starts.
Qed.

Lemma search_spec fs rdat t cwd path :
  fs_ok fs rdat t -> abs_path (full_path cwd path) -> names (full_path cwd path) <> [] ->
  exists s C u, inode_search true cwd path fs = Some s /\
    search_at (g_root_inode fs) t t (names (full_path cwd path)) (names (full_path cwd path)) s C u.
Proof.
  intros Hfs Ha Hn. destruct (search_abs fs rdat t _ Hfs Ha Hn) as (s & C & u & Hs & Hat).
  exists s, C, u. split; [|done]. unfold inode_search, full_path in *.
  destruct path as [|c l]; [done|]. by destruct (c =? SLASH).
Qed.

(** The root is a frame below every place. *)
Lemma plug_snoc C f u : plug (C ++ [f]) u = fill f (plug C u).
Proof. revert u. induction C as [|g C IH]; intros u; simpl; [done|]. apply IH. Qed.
Lemma parent_snoc p C r n dat peer : parent_of p (C ++ [FChild r n dat peer]) = parent_of r C.
Proof. induction C as [|[] C IH]; simpl; done. Qed.
Lemma left_snoc C r n dat peer : left_of (C ++ [FChild r n dat peer]) = left_of C.
Proof. by destruct C. Qed.

Definition new_data (ino : Z) : idata := mk_idata 1 FSNODEFLAG_TYPE_PSEUDODIR NULL ino NULL.

(** One round of the loop of [inode_reserve]. *)
Lemma reserve_step fs rdat C u a name :
  fs_ok fs rdat (plug C u) -> inodes fs !! a = None -> a <> NULL -> starts name -> name <> [] ->
  right_of (inode_namecpy name) u -> passed C (inode_namecpy name) ->
  exists h, inode_insert a (left_of C) (parent_of (g_root_inode fs) C)
              (inodes (inode_alloc a name fs)) = Some h /\
    fs_ok (with_inodes (inode_alloc a name fs) h) rdat
      (plug C (INode a (inode_namecpy name) (new_data (g_ino fs)) u INull)) /\
    forall b, b <> a -> inodes fs !! b = None \/ b ∉ g_root_inode fs :: addrs (plug C u) ->
      h !! b = inodes fs !! b.
Proof.
  intros [Hrep Hok Hnd Hnull Hm] Ha Ha0 Hst Hne Hr Hpa.
  set (rf := FChild (g_root_inode fs) [] rdat INull).
  assert (forall v, INode (g_root_inode fs) [] rdat INull (plug C v) = plug (C ++ [rf]) v) as Hpl
    by (intros v; by rewrite plug_snoc).
  rewrite Hpl in Hrep.
  assert (addrs (plug (C ++ [rf]) u) = g_root_inode fs :: addrs (plug C u)) as Had
    by (by rewrite <- Hpl).
  destruct (C ++ [rf]) as [|f C0] eqn:EC; [by destruct C|].
  destruct (insert_rep (inodes fs) NULL f C0 u a (inode_namecpy name) (new_data (g_ino fs)) Hrep)
    as (h & Hins & Hrep' & Hoth).
  { rewrite Had. constructor; [|done]. intros Hin. rewrite <- Had in Hin.
    destruct (rep_dom _ _ _ _ Hrep Hin) as [i Hi]. by rewrite Hi in Ha. }
  { by rewrite Had. }
  rewrite <- EC in Hins. unfold rf in Hins.
  rewrite left_snoc, parent_snoc in Hins. fold rf in Hins.
  assert (a ∉ g_root_inode fs :: addrs (plug C u)) as Hna.
  { rewrite <- Had. intros Hin. destruct (rep_dom _ _ _ _ Hrep Hin) as [i Hi]. by rewrite Hi in Ha. }
  exists h. split; [done|]. split.
  - assert (addrs (plug C (INode a (inode_namecpy name) (new_data (g_ino fs)) u INull)) ≡ₚ
            a :: addrs (plug C u)) as Hp.
    { rewrite !addrs_plug. simpl. rewrite app_nil_r. solve_Permutation. }
    constructor; simpl; try done.
    + rewrite <- Hpl in Hrep'. apply Hrep'.
    + apply tree_ok_plug in Hok as (Hc & Hh & Hu). apply tree_ok_plug. split; [done|]. split.
      * destruct C as [|[] C]; simpl in *; done.
      * simpl. split; [by apply namecpy_ok|]. done.
    + rewrite Hp. rewrite Permutation_swap. by constructor.
    + rewrite Hp. rewrite Permutation_swap. intros [?|?]%elem_of_cons; [by subst|done].
  - intros b Hb1 Hb2. rewrite Hoth; [done|done|]. intros Hin. destruct Hb2 as [Hb2|Hb2].
    + destruct (rep_dom _ _ _ _ Hrep Hin) as [i Hi]. by rewrite Hi in Hb2.
    + apply Hb2. by rewrite <- Had.
Qed.

(** The tree has [t]'s names with their nodes, and of the names on the way to
    [Q] those that were missing, as new nodes in [mem]. *)
Definition grown (mem : list Z) (t t' : itree) (Q : list (list Z)) : Prop :=
  (forall q x, find t q = Some x -> find t' q = Some x) /\
  (forall q x, find t' q = Some x ->
     find t q = Some x \/ (q `prefix_of` Q /\ exists a ino, a ∈ mem /\ x = (a, new_data ino, []))) /\
  (forall p, p ∈ nodes t -> p ∈ nodes t') /\
  (forall p, p ∈ nodes t' -> p ∈ nodes t \/ exists a ino, a ∈ mem /\ p = (a, new_data ino)).

Lemma grown_refl mem t Q : grown mem t t Q.
Proof. split; [done|]. split; [by left|]. split; [done|]. by left. Qed.

Lemma grown_mono mem mem' t t' Q : mem ⊆ mem' -> grown mem t t' Q -> grown mem' t t' Q.
Proof.
  intros Hm (H1 & H2 & H3 & H4). split; [done|]. split; [|split; [done|]].
  - intros q x Hq. destruct (H2 q x Hq) as [?|(? & a & ino & ? & ?)]; [by left|].
    right. split; [done|]. exists a, ino. by split; [apply Hm|].
  - intros p Hp. destruct (H4 p Hp) as [?|(a & ino & ? & ?)]; [by left|].
    right. exists a, ino. by split; [apply Hm|].
Qed.

Lemma grown_trans mem t1 t2 t3 Q : grown mem t1 t2 Q -> grown mem t2 t3 Q -> grown mem t1 t3 Q.
Proof.
  intros (H1 & H2 & H3 & H4) (K1 & K2 & K3 & K4). split; [auto|]. split; [|split; [auto|]].
  - intros q x Hq. destruct (K2 q x Hq) as [?|?]; [|by right]. by apply H2.
  - intros p Hp. destruct (K4 p Hp) as [?|?]; [|by right]. by apply H4.
Qed.

Lemma grown_insert mem C u a x ino rest :
  a ∈ mem -> tree_ok u -> right_of x u -> route C (ctx_path C ++ x :: rest) = Some (x :: rest) ->
  grown mem (plug C u) (plug C (INode a x (new_data ino) u INull)) (ctx_path C ++ x :: rest).
Proof.
  intros Ha Hok Hr Hro. pose proof (fun q => find_insert C u a x (new_data ino) rest q Hok Hr Hro) as Hf.
  split; [|split; [|split]].
  - intros q y. rewrite Hf by done. case_decide as Hq; [|done].
    subst q. rewrite (find_plug _ _ _ [x]) by (by eapply route_ext). by rewrite find_right.
  - intros q y. rewrite Hf by done. case_decide as Hq; [|by left].
    intros [= <-]. right. split; [|by eexists _, _; split]. subst q. exists rest. by rewrite <- app_assoc.
  - intros p. rewrite !nodes_plug. simpl. rewrite app_nil_r. set_solver.
  - intros p. rewrite !nodes_plug. simpl. rewrite app_nil_r.
    intros [?|[->|?]%elem_of_cons]%elem_of_app; [left; set_solver|right; by exists a, ino|left; set_solver].
Qed.

(** The node at the place of the names [Q], without children. *)
Definition leaf_at (t : itree) (Q : list (list Z)) (a : Z) (dat : idata) : Prop :=
  exists C n u, t = plug C (INode a n dat u INull) /\ Q = ctx_path C ++ [n] /\ route C Q = Some [n].

Lemma reserve_loop_spec fuel : forall mem fs rdat C u name,
  fs_ok fs rdat (plug C u) -> starts name -> name <> [] -> (length name <= fuel)%nat ->
  right_of (inode_namecpy name) u -> passed C (inode_namecpy name) ->
  route C (ctx_path C ++ segs name) = Some (segs name) ->
  NoDup mem -> NULL ∉ mem -> (forall a, a ∈ mem -> inodes fs !! a = None) ->
  exists ret a fs' t',
    reserve_loop (S fuel) mem name (left_of C) (parent_of (g_root_inode fs) C) fs = Some (ret, a, fs') /\
    g_root_inode fs' = g_root_inode fs /\ fs_ok fs' rdat t' /\
    grown mem (plug C u) t' (ctx_path C ++ segs name) /\
    (forall b, b ∉ g_root_inode fs :: addrs t' -> inodes fs' !! b = inodes fs !! b) /\
    if (length (segs name) <=? length mem)%nat
    then ret = OK /\ a ∈ mem /\ exists ino, leaf_at t' (ctx_path C ++ segs name) a (new_data ino)
    else ret = - ENOMEM /\ a = NULL.
Proof.
  induction fuel as [|fuel IH]; intros mem fs rdat C u name Hfs Hst Hne Hlen Hr Hpa Hro Hnd Hnull Hmem.
  { destruct name; [done|]. simpl in Hlen. lia. }
  destruct mem as [|a mem].
  { eexists _, _, fs, (plug C u). split; [reflexivity|]. split; [done|]. split; [done|].
    split; [apply grown_refl|]. split; [done|]. by rewrite segs_cons. }
  apply NoDup_cons in Hnd as [Ham Hnd].
  assert (a <> NULL) as Ha0 by (intros ->; apply Hnull; by left).
  destruct (reserve_step fs rdat C u a name) as (h & Hins & Hfs1 & Hoth); try done.
  { apply Hmem. by left. }
  rewrite segs_cons in * by done. set (x := inode_namecpy name) in *.
  set (t1 := plug C (INode a x (new_data (g_ino fs)) u INull)) in *.
  set (fs1 := with_inodes (inode_alloc a name fs) h) in *.
  assert (tree_ok u) as Hu by (by apply (tree_ok_plug C), Hfs).
  assert (grown (a :: mem) (plug C u) t1 (ctx_path C ++ x :: segs (inode_nextname name))) as Hg
    by (apply grown_insert; [by left|done..]).
  assert (forall b, b ∉ g_root_inode fs :: addrs t1 -> inodes fs1 !! b = inodes fs !! b) as Hout.
  { intros b Hb. apply Hoth.
    - intros ->. apply Hb. right. unfold t1. rewrite addrs_plug. simpl. set_solver.
    - right. intros Hb'. apply Hb. apply elem_of_cons in Hb' as [->|Hb']; [by left|right].
      unfold t1. rewrite addrs_plug in *. simpl. set_solver. }
  cbn [reserve_loop]. rewrite Hins. cbn [mbind option_bind]. fold fs1.
  destruct (inode_nextname name) as [|c l] eqn:En.
  - eexists _, a, fs1, t1. split; [reflexivity|]. split; [done|]. split; [done|]. split; [done|].
    split; [done|]. simpl. split; [done|]. split; [by left|]. exists (g_ino fs), C, x, u. done.
  - assert (c :: l <> []) as Hne' by done. rewrite <- En in *.
    set (dat := new_data (g_ino fs)) in *.
    destruct (IH mem fs1 rdat (FChild a x dat u :: C) INull (inode_nextname name))
      as (ret & a' & fs' & t' & Hrun & Hroot & Hfs' & Hg' & Hout' & Hret); try done.
    + apply nextname_starts.
    + pose proof (nextname_len name). lia.
    + simpl. rewrite <- app_assoc. simpl. rewrite Hro. simpl. rewrite segs_cons by done.
      rewrite decide_True; [done|]. by split.
    + intros H. apply Hnull. by right.
    + intros b Hb. simpl. assert (inodes fs !! b = None) as Hb0 by (apply Hmem; by right).
      rewrite Hoth; [done|intros ->; done|by left].
    + simpl in Hg', Hret. rewrite <- app_assoc in Hg', Hret. simpl in Hg', Hret.
      exists ret, a', fs', t'. split; [exact Hrun|]. split; [done|]. split; [done|].
      split; [eapply grown_trans; [done|]; by eapply grown_mono; [|exact Hg']; right|].
      split.
      { intros b Hb. rewrite Hout' by done. apply Hout. intros Hb'. apply Hb.
        apply elem_of_cons in Hb' as [->|Hb']; [by left|right].
        rewrite addrs_nodes in *. apply list_elem_of_fmap in Hb' as (p & -> & Hp).
        apply list_elem_of_fmap. exists p. split; [done|]. by apply Hg'. }
      simpl. destruct (_ <=? _)%nat; [|done]. destruct Hret as (? & ? & ?).
      split; [done|]. by split; [right|].
Qed.

(** Change the data of a node. *)
Lemma update_rep h p C a n dat dat' peer child f :
  rep h p (plug C (INode a n dat peer child)) ->
  NoDup (addrs (plug C (INode a n dat peer child))) ->
  (forall q x y, f (to_inode q x y n dat) = to_inode q x y n dat') ->
  exists h', heap_upd a f h = Some h' /\ rep h' p (plug C (INode a n dat' peer child)) /\
    forall b, b <> a -> h' !! b = h !! b.
Proof.
  intros Hrep Hnd Hf. rewrite addrs_plug in Hnd. apply NoDup_app in Hnd as (_ & Hnd1 & Hnd2).
  apply rep_plug in Hrep as [Hc (Ha & Hp & Hch)]. simpl in Hnd1, Hnd2.
  apply NoDup_cons in Hnd2 as [Hna _].
  unfold heap_upd. rewrite Ha. eexists. split; [reflexivity|]. split.
  - apply rep_plug. split.
    + eapply ctx_rep_ext; [|exact Hc]. intros b Hb. apply lookup_insert_ne. set_solver.
    + simpl. rewrite lookup_insert_eq, Hf. split; [done|].
      split; (eapply rep_ext; [|eassumption]); intros b Hb; apply lookup_insert_ne; set_solver.
  - intros b Hb. by apply lookup_insert_ne.
Qed.

Lemma fs_update fs rdat C a n dat dat' peer child f :
  fs_ok fs rdat (plug C (INode a n dat peer child)) ->
  (forall q x y, f (to_inode q x y n dat) = to_inode q x y n dat') ->
  exists h, heap_upd a f (inodes fs) = Some h /\
    fs_ok (with_inodes fs h) rdat (plug C (INode a n dat' peer child)) /\
    forall b, b <> a -> h !! b = inodes fs !! b.
Proof.
  intros [Hrep Hok Hnd Hnull Hm] Hf.
  set (rf := FChild (g_root_inode fs) [] rdat INull).
  assert (forall v, INode (g_root_inode fs) [] rdat INull (plug C v) = plug (C ++ [rf]) v) as Hpl
    by (intros v; by rewrite plug_snoc).
  assert (forall d, addrs (plug C (INode a n d peer child)) ≡ₚ
                    addrs (plug C (INode a n dat peer child))) as Had
    by (intros d; by rewrite !addrs_plug).
  rewrite Hpl in Hrep.
  destruct (update_rep (inodes fs) NULL (C ++ [rf]) a n dat dat' peer child f Hrep)
    as (h & Hh & Hrep' & Hoth); [rewrite <- Hpl; exact Hnd|done|].
  rewrite <- Hpl in Hrep'. exists h. split; [done|]. split; [|done]. constructor; simpl; try done.
  - apply tree_ok_plug in Hok. by apply tree_ok_plug.
  - by rewrite Had.
  - by rewrite Had.
Qed.

Definition driver_data (ops ino priv : Z) : idata := mk_idata 1 FSNODEFLAG_TYPE_DRIVER ops ino priv.

Lemma register_spec fs rdat t mem cwd path ops priv :
  let Q := names (full_path cwd path) in
  fs_ok fs rdat t -> abs_path (full_path cwd path) -> path <> [] -> Q <> [] ->
  NoDup mem -> NULL ∉ mem -> (forall a, a ∈ mem -> inodes fs !! a = None) ->
  exists ret fs' t', register_driver true mem cwd path ops priv fs = Some (ret, fs') /\
    g_root_inode fs' = g_root_inode fs /\ fs_ok fs' rdat t' /\
    (forall b, b ∉ g_root_inode fs :: addrs t' -> inodes fs' !! b = inodes fs !! b) /\
    match find t Q with
    | Some _ => ret = - EEXIST /\ fs' = fs /\ t' = t
    | None =>
        (ret = OK /\ exists a ino t1, a ∈ mem /\ grown mem t t1 Q /\
           (forall p, p ∈ nodes t' -> p ∈ nodes t1 \/ p = (a, driver_data ops ino priv)) /\
           (forall p, p ∈ nodes t1 -> p ∈ nodes t' \/ exists ino, p = (a, new_data ino)) /\
           forall q, find t' q = if decide (q = Q) then Some (a, driver_data ops ino priv, [])
                                 else find t1 q) \/
        (ret = - ENOMEM /\ (length mem < length Q)%nat /\ grown mem t t' Q)
    end.
Proof.
  intros Q Hfs Hab Hne HQ Hnd Hnull Hmem.
  destruct (search_spec fs rdat t cwd path Hfs Hab HQ) as (s & C & u & Hs & Hpl & Hpe & Hpa & Hf).
  fold Q in Hs, Hf. unfold register_driver, inode_reserve.
  assert (exists c l, path = c :: l) as (c & l & ->) by (destruct path; [done|by eexists _, _]).
  rewrite Hs. cbn [mbind option_bind].
  destruct (find t Q) as [[[a d] q]|] eqn:Ef.
  - destruct Hf as (-> & _). simpl. exists (- EEXIST), fs, t. done.
  - destruct Hf as (-> & _ & Hne' & Hst & Hro & Hr & Hp). change (0 <=? - ENOENT) with false. cbv iota.
    rewrite Hpe, Hpa, <- Hpl. rewrite <- Hpl in Hfs.
    pose proof (route_path _ _ _ Hro) as HQ'. rewrite HQ' in Hro.
    destruct (reserve_loop_spec (length (s_path s)) mem fs rdat C u (s_path s))
      as (ret & a & fs' & t' & Hrun & Hroot & Hfs' & Hg & Hout & Hret); try done.
    rewrite Hrun. cbn [mbind option_bind]. rewrite <- HQ' in Hg, Hret.
    destruct (Nat.leb_spec (length (segs (s_path s))) (length mem)).
    + destruct Hret as (-> & Hin & ino & C' & n & u' & -> & HC & Hro').
      change (0 <=? OK) with true. cbv iota.
      destruct (fs_update fs' rdat C' a n (new_data ino) (driver_data ops ino priv) u' INull
        (set_driver ops priv) Hfs') as (h & Hh & Hfs2 & Hoth); [done|].
      rewrite Hh. cbn [mbind option_bind].
      eexists _, _, _. split; [reflexivity|]. split; [done|]. split; [done|]. split.
      { intros b Hb. simpl. assert (b <> a) as Hba.
        { intros ->. apply Hb. right. rewrite addrs_plug. simpl. set_solver. }
        rewrite Hoth by done. apply Hout. rewrite addrs_plug in *. simpl in *. set_solver. }
      left. split; [done|]. exists a, ino, (plug C' (INode a n (new_data ino) u' INull)).
      split; [done|]. split; [done|]. split; [|split].
      * intros p. rewrite !nodes_plug. simpl. set_solver.
      * intros p. rewrite !nodes_plug. simpl.
        intros [?|[->|?]%elem_of_cons]%elem_of_app; [left; set_solver|right; by exists ino|left; set_solver].
      * intros q. rewrite HC in *. by eapply find_update.
    + destruct Hret as [-> ->]. change (0 <=? - ENOMEM) with false. cbv iota.
      eexists _, _, _. split; [reflexivity|]. split; [done|]. split; [done|]. split; [done|]. right.
      split; [done|]. split; [|done]. rewrite HQ', length_app. lia.
Qed.

(** *** Removal *)

Lemma free_loop_spec fuel h p t :
  rep h p t -> NoDup (addrs t) -> NULL ∉ addrs t -> (length (addrs t) <= fuel)%nat ->
  exists h', free_loop fuel (ptr t) h = Some h' /\
    forall b, h' !! b = if decide (b ∈ addrs t) then None else h !! b.
Proof.
  revert fuel h p. induction t as [|a n dat peer IH1 child IH2]; intros fuel h p Hrep Hnd Hnull Hfuel.
  { exists h. split; [by destruct fuel|]. intros b. rewrite decide_False; [done|]. set_solver. }
  simpl in *. destruct Hrep as (Ha & Hp & Hc). apply NoDup_cons in Hnd as [Hna Hnd].
  apply NoDup_app in Hnd as (Hn1 & Hd & Hn2). rewrite length_app in Hfuel.
  destruct fuel as [|fuel]; [lia|]. cbn [free_loop].
  replace (a =? NULL) with false by (symmetry; apply Z.eqb_neq; intros ->; apply Hnull; by left).
  rewrite Ha. cbn [mbind option_bind].
  change (i_peer (to_inode _ _ _ n dat)) with (ptr peer).
  change (i_child (to_inode _ _ _ n dat)) with (ptr child).
  destruct (IH1 fuel h p) as (h1 & E1 & H1); [done|done| |lia|].
  { intros H. apply Hnull. right. set_solver. }
  rewrite E1. cbn [mbind option_bind].
  destruct (IH2 fuel h1 a) as (h2 & E2 & H2); [|done| |lia|].
  { eapply rep_ext; [|exact Hc]. intros b Hb. rewrite H1, decide_False; [done|]. intros Hb'. by eapply Hd. }
  { intros H. apply Hnull. right. set_solver. }
  rewrite E2. cbn [mbind option_bind]. eexists. split; [reflexivity|]. intros b.
  destruct (decide (b = a)) as [->|Hb].
  { rewrite lookup_delete_eq, decide_True; [done|]. by left. }
  rewrite lookup_delete_ne by done. rewrite H2, H1. repeat case_decide; set_solver.
Qed.

Definition drop_ref (dat : idata) : idata :=
  mk_idata (d_crefs dat - 1) (d_flags dat) (d_ops dat) (d_ino dat) (d_priv dat).

(** The heap after [inode_unlink] took the node out. *)
Lemma unlink_rep h p f C a n dat peer child :
  rep h p (plug (f :: C) (INode a n dat peer child)) ->
  NoDup (addrs (plug (f :: C) (INode a n dat peer child))) ->
  exists h1 h2, heap_upd (f_addr f) (f_link f (ptr peer)) h = Some h1 /\
    heap_upd a (fun i => set_crefs (i_crefs i - 1) (set_parent NULL (set_peer NULL i))) h1 = Some h2 /\
    rep h2 p (plug (f :: C) peer) /\
    rep h2 NULL (INode a n (drop_ref dat) INull child) /\
    forall b, b <> a -> b <> f_addr f -> h2 !! b = h !! b.
Proof.
  intros Hrep Hnd. rewrite addrs_plug in Hnd. apply NoDup_app in Hnd as (Hn1 & Hd & Hn2).
  simpl in Hn2. apply NoDup_cons in Hn2 as [Hna Hn2]. apply NoDup_app in Hn2 as (Hn3 & Hd2 & Hn4).
  apply rep_plug in Hrep as [Hc (Ha & Hp & Hch)].
  destruct (ctx_rep_link h p f C a (ptr peer) Hn1 Hc) as (i & Hi & _ & Hc1).
  assert (f_addr f ∈ ctx_addrs (f :: C)) as Hf by (destruct f; simpl; set_solver).
  pose proof (Hd _ Hf) as Hf'. simpl in Hf'.
  set (h1 := <[f_addr f := f_link f (ptr peer) i]> h) in *.
  assert (h1 !! a = Some (to_inode (parent_of p (f :: C)) (ptr peer) (ptr child) n dat)) as Ha1.
  { unfold h1. rewrite lookup_insert_ne; [done|]. intros E. apply Hf'. rewrite E. by left. }
  exists h1. unfold heap_upd at 1. rewrite Hi. cbn [mbind option_bind].
  unfold heap_upd. rewrite Ha1. eexists. split; [done|]. split; [reflexivity|]. split; [|split].
  - apply rep_plug. split.
    + eapply ctx_rep_ext; [|exact Hc1]. intros b Hb. apply lookup_insert_ne.
      intros <-. apply (Hd _ Hb). by left.
    + eapply rep_ext; [|exact Hp]. intros b Hb.
      rewrite lookup_insert_ne by (intros <-; set_solver). apply lookup_insert_ne. set_solver.
  - cbn [rep]. rewrite lookup_insert_eq. split; [done|]. split; [done|].
    eapply rep_ext; [|exact Hch]. intros b Hb.
    rewrite lookup_insert_ne by (intros <-; set_solver). apply lookup_insert_ne. set_solver.
  - intros b Hb1 Hb2. rewrite lookup_insert_ne by done. by apply lookup_insert_ne.
Qed.

Lemma fs_ok_ext fs rdat t h :
  fs_ok fs rdat t -> (forall b, b ∈ g_root_inode fs :: addrs t -> h !! b = inodes fs !! b) ->
  fs_ok (with_inodes fs h) rdat t.
Proof.
  intros [] He. constructor; simpl; try done.
  apply (rep_ext (inodes fs) h NULL (INode (g_root_inode fs) [] rdat INull t)); [|done].
  intros b Hb. by apply He.
Qed.

Lemma unlink_spec fs rdat t cwd path :
  let Q := names (full_path cwd path) in
  fs_ok fs rdat t -> abs_path (full_path cwd path) -> Q <> [] ->
  match find t Q with
  | None => inode_unlink true cwd path fs = Some (NULL, fs)
  | Some (a, dat, rest) =>
      exists P h t' n child, Q = P ++ rest /\
        inode_unlink true cwd path fs = Some (a, with_inodes fs h) /\
        fs_ok (with_inodes fs h) rdat t' /\
        (forall q, find t' q = if decide (P `prefix_of` q) then None else find t q) /\
        nodes t ≡ₚ (a, dat) :: nodes child ++ nodes t' /\
        (forall b, b ∉ g_root_inode fs :: addrs t -> h !! b = inodes fs !! b) /\
        (rest = [] -> d_flags dat <> FSNODEFLAG_TYPE_MOUNTPT ->
           (forall x q, find t (Q ++ x :: q) = None) -> child = INull) /\
        (let x := INode a n (drop_ref dat) INull child in
         rep h NULL x /\ NoDup (addrs x) /\ (NULL ∉ addrs x) /\
         forall b, b ∈ g_root_inode fs :: addrs t' -> b ∉ addrs x)
  end.
Proof.
  intros Q Hfs Hab HQ.
  destruct (search_spec fs rdat t cwd path Hfs Hab HQ) as (s & C & u & Hs & Hpl & Hpe & Hpa & Hf).
  fold Q in Hs, Hf. unfold inode_unlink. rewrite Hs. cbn [mbind option_bind].
  destruct (find t Q) as [[[a dat] rest]|] eqn:Ef; [|by destruct Hf as (-> & _)].
  destruct Hf as (-> & -> & _ & n & peer & child & -> & Hro). change (OK <? 0) with false. cbv iota.
  pose proof (route_path _ _ _ Hro) as HQ'. rewrite HQ' in Hro.
  destruct Hfs as [Hrep Hok Hnd Hnull Hm]. rewrite <- Hpl in *.
  set (rf := FChild (g_root_inode fs) [] rdat INull).
  assert (forall v, INode (g_root_inode fs) [] rdat INull (plug C v) = plug (C ++ [rf]) v) as Hpr
    by (intros v; by rewrite plug_snoc).
  assert (forall v, g_root_inode fs :: addrs (plug C v) = addrs (plug (C ++ [rf]) v)) as Har
    by (intros v; by rewrite <- Hpr).
  rewrite Hpr in Hrep. rewrite Har in Hnd, Hnull.
  assert (left_of (C ++ [rf]) = s_peer s) as Hl by (unfold rf; by rewrite left_snoc).
  assert (parent_of NULL (C ++ [rf]) = s_parent s) as Hpp by (unfold rf; by rewrite parent_snoc).
  destruct (C ++ [rf]) as [|f C0] eqn:EC; [by destruct C|].
  pose proof Hrep as Hu. apply rep_plug in Hu as [_ (Ha & _)].
  destruct (unlink_rep _ _ _ _ _ _ _ _ _ Hrep Hnd) as (h1 & h2 & E1 & E2 & Hrep2 & Hrest & Hoth).
  rewrite addrs_plug in Hnd, Hnull. apply NoDup_app in Hnd as (Hn1 & Hd & Hn2).
  pose proof Hn2 as Hn3. simpl in Hn3. apply NoDup_cons in Hn3 as [Hna Hn3].
  apply NoDup_app in Hn3 as (Hn3 & Hd2 & Hn4).
  assert (f_addr f <> NULL) as Hf0.
  { intros E. apply Hnull, elem_of_app. left. rewrite <- E. destruct f; simpl; set_solver. }
  eexists (ctx_path C ++ [n]), h2, (plug C peer), n, child. split; [by rewrite <- app_assoc|]. split.
  { rewrite Ha. cbn [mbind option_bind]. rewrite <- Hl, <- Hpp.
    change (i_peer (to_inode _ _ _ n dat)) with (ptr peer).
    destruct f as [b m d v|b m d v]; simpl left_of; simpl f_addr in *; simpl f_link in *.
    - replace (negb (b =? NULL)) with true by lia. rewrite E1. cbn [mbind option_bind]. by rewrite E2.
    - rewrite Z.eqb_refl. cbn [negb]. simpl parent_of. replace (b =? NULL) with false by lia.
      rewrite E1. cbn [mbind option_bind]. by rewrite E2. }
  apply tree_ok_plug in Hok as (Hoc & Hoh & Hou). split; [|split].
  - constructor; simpl; try done.
    + rewrite <- Hpr in Hrep2. apply Hrep2.
    + apply tree_ok_plug. split; [done|]. simpl in Hou. split; [|tauto].
      destruct C as [|[] C]; simpl in *; [done| |done]. destruct peer; [done|].
      simpl in *. eapply name_lt_trans; [exact Hoh|tauto].
    + rewrite Har, addrs_plug. apply NoDup_app. split; [done|]. split; [|done].
      intros b Hb Hb'. apply (Hd b Hb). simpl. set_solver.
    + rewrite Har, addrs_plug. intros Hb. apply Hnull. simpl.
      apply elem_of_app in Hb as [?|?]; apply elem_of_app; [by left|right; right; set_solver].
  - intros q. by eapply find_remove.
  - split; [rewrite !nodes_plug; simpl; solve_Permutation|]. split.
    { intros b Hb. rewrite Har, addrs_plug in Hb. simpl in Hb.
      apply Hoth; intros ->; apply Hb, elem_of_app; [right; by left|left].
      destruct f; simpl; set_solver. }
    split.
    { intros -> Hfl Hno. destruct child as [|c m d cp cc]; [done|]. specialize (Hno m []).
      rewrite HQ', <- app_assoc in Hno. simpl in Hno.
      rewrite (find_plug _ _ _ (n :: [m])) in Hno by (by eapply route_ext). simpl in Hno.
      rewrite decide_True in Hno by done. rewrite decide_False in Hno by (intros [?|?]; done).
      rewrite !decide_True in Hno by (done || by left). done. }
    split; [done|]. simpl. rewrite ?app_nil_l. split; [by constructor; [set_solver|]|]. split.
    + intros Hb. apply Hnull, elem_of_app. right. simpl.
      apply elem_of_cons in Hb as [E|?]; [rewrite E; by left|right; set_solver].
    + intros b. rewrite Har, addrs_plug. intros [Hb|Hb]%elem_of_app.
      * intros Hb'. apply (Hd b Hb). simpl. set_solver.
      * intros [->|Hb']%elem_of_cons; [set_solver|]. by apply (Hd2 b).
Qed.

Lemma remove_spec fs rdat t cwd path :
  let Q := names (full_path cwd path) in
  fs_ok fs rdat t -> abs_path (full_path cwd path) -> Q <> [] ->
  match find t Q with
  | None => inode_remove true cwd path fs = Some (- ENOENT, fs)
  | Some (a, dat, rest) =>
      exists P fs' t', Q = P ++ rest /\
        inode_remove true cwd path fs = Some (if d_crefs dat =? 1 then OK else - EBUSY, fs') /\
        g_root_inode fs' = g_root_inode fs /\ fs_ok fs' rdat t' /\
        (forall q, find t' q = if decide (P `prefix_of` q) then None else find t q)
  end.
Proof.
  intros Q Hfs Hab HQ. pose proof (unlink_spec fs rdat t cwd path Hfs Hab HQ) as Hul. fold Q in Hul.
  unfold inode_remove. destruct (find t Q) as [[[a dat] rest]|]; [|by rewrite Hul].
  destruct Hul as (P & h & t' & n & child & HP & Hul & Hfs' & Hfind & _ & _ & _ & Hx & Hnd & Hnull & Hdis).
  exists P. rewrite Hul. cbn [mbind option_bind].
  replace (a =? NULL) with false by (symmetry; apply Z.eqb_neq; intros ->; apply Hnull; by left).
  cbn [inodes with_inodes]. pose proof Hx as (Ha & _). rewrite Ha. cbn [mbind option_bind].
  change (i_crefs (to_inode _ _ _ _ _)) with (d_crefs dat - 1).
  replace (d_crefs dat =? 1) with (d_crefs dat - 1 =? 0)
    by (destruct (Z.eqb_spec (d_crefs dat - 1) 0), (Z.eqb_spec (d_crefs dat) 1); lia || done).
  destruct (d_crefs dat - 1 =? 0); cbn [negb].
  - destruct (free_loop_spec (S (size h)) h NULL (INode a n (drop_ref dat) INull child))
      as (h' & Eh & Hh'); try done.
    { etrans; [apply (nodup_size h)|]; [done| |lia]. intros b Hb. by eapply rep_dom. }
    unfold inode_free. change a with (ptr (INode a n (drop_ref dat) INull child)). rewrite Eh.
    cbn [mbind option_bind]. eexists _, t'. split; [done|]. split; [reflexivity|]. split; [done|].
    split; [|done].
    apply fs_ok_ext; [done|]. intros b Hb. simpl in *. rewrite Hh', decide_False; [done|].
    by apply Hdis.
  - eexists _, t'. done.
Qed.
