(* ===== verification/Namespace.v ===== *)
(** The contract of the pseudo file system and its proof.

    The specification [nspec] is a name space: what is found under each list of
    names, and how many references callers hold on each node.  [nstep] says what
    the calls of drivers (register, unregister) and of the file descriptor layer
    (find, release) do to it.  The heap of Inode implements it: besides the tree
    it holds exactly the nodes that were unregistered while referenced, so the
    allocator may hand out every other address again. *)

From S2P Require Import Prelude.
From stdpp Require Import gmap list.
From S2P Require Import Inode.
Local Open Scope Z_scope.

(** A path names a directory or a driver with its operations and private data. *)
Record nspec := mk_nspec {
  sp_find : list (list Z) -> option (Z * option (Z * Z));
  sp_refs : Z -> nat
}.

Inductive nop :=
| NRegister (mem : list Z) (path : list Z) (ops priv : Z)
| NUnregister (unl : option Z) (path : list Z)
| NFind (path : list Z)
| NRelease (a : Z).

(** The result, and the node found. *)
Inductive nres := NInt (r : Z) | NNode (r a : Z).

Definition nop_exec (cwd : list Z) (op : nop) (fs : pseudofs) : option (nres * pseudofs) :=
  match op with
  | NRegister mem path ops priv =>
      '(r, fs) ← register_driver true mem cwd path ops priv fs; Some (NInt r, fs)
  | NUnregister unl path =>
      '(r, fs) ← unregister_driver (fun _ => unl) true cwd path fs; Some (NInt r, fs)
  | NFind path => '(s, fs) ← inode_find true cwd path fs; Some (NNode (s_ret s) (s_node s), fs)
  | NRelease a => fs ← inode_release a fs; Some (NInt 0, fs)
  end.

Fixpoint nop_run (cwd : list Z) (ops : list nop) (fs : pseudofs) : option (list nres * pseudofs) :=
  match ops with
  | [] => Some ([], fs)
  | op :: ops =>
      '(r, fs) ← nop_exec cwd op fs;
      '(rs, fs) ← nop_run cwd ops fs;
      Some (r :: rs, fs)
  end.

(** ** Specification *)

(** Missing directories on the way to [Q] appear; everything else stays. *)
Definition dirs_added (mem : list Z) (f f' : list (list Z) -> option (Z * option (Z * Z)))
    (Q : list (list Z)) : Prop :=
  (forall q x, f q = Some x -> f' q = Some x) /\
  (forall q x, f' q = Some x -> f q = Some x \/ (q <> [] /\ q `prefix_of` Q /\ fst x ∈ mem /\ snd x = None)).

Definition add_ref (r : Z -> nat) (a : Z) : Z -> nat := fun b => if decide (b = a) then S (r b) else r b.
Definition del_ref (r : Z -> nat) (a : Z) : Z -> nat :=
  fun b => if decide (b = a) then pred (r b) else r b.

Section spec.
Context (cwd : list Z).
Let nm (path : list Z) := names (full_path cwd path).

(** The driver takes part in the unregistration when it has an unlink method. *)
Definition unlinked (unl : option Z) (v : option (Z * Z)) : bool :=
  match v, unl with
  | None, _ => true
  | Some _, Some r => 0 <=? r
  | Some _, None => false
  end.

Inductive nstep : nop -> nspec -> nres -> nspec -> Prop :=
| ns_register mem path ops priv f r a f1 f' :
    f (nm path) = None -> dirs_added mem f f1 (nm path) -> a ∈ mem ->
    (forall q, f' q = if decide (q = nm path) then Some (a, Some (ops, priv)) else f1 q) ->
    nstep (NRegister mem path ops priv) (mk_nspec f r) (NInt OK) (mk_nspec f' r)
| ns_register_exists mem path ops priv f r x :
    f (nm path) = Some x ->
    nstep (NRegister mem path ops priv) (mk_nspec f r) (NInt (- EEXIST)) (mk_nspec f r)
| ns_register_nomem mem path ops priv f r f' :
    f (nm path) = None -> (length mem < length (nm path))%nat -> dirs_added mem f f' (nm path) ->
    nstep (NRegister mem path ops priv) (mk_nspec f r) (NInt (- ENOMEM)) (mk_nspec f' r)
| ns_unregister unl path f r a v f' :
    f (nm path) = Some (a, v) ->
    (forall q, f' q = if decide (nm path `prefix_of` q) then None else f q) ->
    nstep (NUnregister unl path) (mk_nspec f r)
      (NInt (if unlinked unl v || (r a =? 0)%nat then OK else - EBUSY)) (mk_nspec f' r)
| ns_unregister_none unl path f r :
    f (nm path) = None ->
    nstep (NUnregister unl path) (mk_nspec f r) (NInt (- ENOENT)) (mk_nspec f r)
| ns_find path f r a v :
    f (nm path) = Some (a, v) ->
    nstep (NFind path) (mk_nspec f r) (NNode OK a) (mk_nspec f (add_ref r a))
| ns_find_none path f r :
    f (nm path) = None ->
    nstep (NFind path) (mk_nspec f r) (NNode (- ENOENT) NULL) (mk_nspec f r)
| ns_release a f r :
    nstep (NRelease a) (mk_nspec f r) (NInt 0) (mk_nspec f (del_ref r a)).

(** What the callers and the allocator have to respect: a block handed out is
    neither in the name space nor referenced, only nodes without children are
    unregistered, only references that are held are released. *)
Definition fresh (root : Z) (s : nspec) (a : Z) : Prop :=
  a <> NULL /\ a <> root /\ sp_refs s a = O /\ forall q x, sp_find s q = Some x -> fst x <> a.

Definition path_ok (path : list Z) : Prop :=
  path <> [] /\ abs_path (full_path cwd path) /\ nm path <> [].

Definition nop_ok (root : Z) (op : nop) (s : nspec) : Prop :=
  match op with
  | NRegister mem path ops priv => path_ok path /\ NoDup mem /\ Forall (fresh root s) mem
  | NUnregister unl path =>
      path_ok path /\ forall x q, sp_find s (nm path ++ x :: q) = None
  | NFind path => path_ok path
  | NRelease a => (0 < sp_refs s a)%nat
  end.

Inductive nruns (root : Z) : list nop -> nspec -> list nres -> nspec -> Prop :=
| nr_nil s : nruns root [] s [] s
| nr_cons op ops s r s1 rs s2 :
    nstep op s r s1 -> nruns root ops s1 rs s2 -> nruns root (op :: ops) s (r :: rs) s2.

Fixpoint nops_ok (root : Z) (ops : list nop) (s : nspec) : Prop :=
  match ops with
  | [] => True
  | op :: ops => nop_ok root op s /\ forall r s', nstep op s r s' -> nops_ok root ops s'
  end.
End spec.

(** ** The heap implements the specification *)

Definition view (x : Z * idata * list (list Z)) : Z * option (Z * Z) :=
  let '(a, dat, _) := x in
  (a, if d_flags dat =? FSNODEFLAG_TYPE_DRIVER then Some (d_ops dat, d_priv dat) else None).

Definition plain (dat : idata) : Prop :=
  d_flags dat = FSNODEFLAG_TYPE_PSEUDODIR \/ d_flags dat = FSNODEFLAG_TYPE_DRIVER.

(** Nodes in the tree have the reference of the tree and those of the callers;
    the other nodes of the heap are those that callers still hold. *)
Record nrel (fs : pseudofs) (rdat : idata) (t : itree) (s : nspec) : Prop := {
  nr_fs : fs_ok fs rdat t;
  nr_find : forall q, sp_find s q = view <$> find t q;
  nr_nodes : forall a dat, (a, dat) ∈ nodes t -> d_crefs dat = 1 + Z.of_nat (sp_refs s a) /\ plain dat;
  nr_out : forall a i, inodes fs !! a = Some i -> a ∉ g_root_inode fs :: addrs t ->
    (0 < sp_refs s a)%nat /\ i_crefs i = Z.of_nat (sp_refs s a) /\ i_peer i = NULL /\ i_child i = NULL;
  nr_refs : forall a, (0 < sp_refs s a)%nat -> is_Some (inodes fs !! a) /\ a <> g_root_inode fs;
  nr_null : inodes fs !! NULL = None
}.

Lemma plain_no_mount dat : plain dat -> d_flags dat <> FSNODEFLAG_TYPE_MOUNTPT.
Proof. by intros [-> | ->]. Qed.

Lemma nrel_ext fs rdat t f r r' :
  (forall a, r a = r' a) -> nrel fs rdat t (mk_nspec f r) -> nrel fs rdat t (mk_nspec f r').
Proof.
  intros He []. constructor; simpl in *; try done; intros; rewrite <- ?He in *; eauto.
Qed.

Lemma find_nodes t q a dat rest :
  find t q = Some (a, dat, rest) ->
  (a, dat) ∈ nodes t /\ (d_flags dat <> FSNODEFLAG_TYPE_MOUNTPT -> rest = []).
Proof.
  revert q. induction t as [|b n d peer IH1 child IH2]; intros [|x q]; simpl; try done.
  case_decide; [case_decide as Hd|].
  - intros [= <- <- <-]. split; [by left|]. intros Hm. by destruct Hd.
  - intros Hf. apply IH2 in Hf as [? ?]. split; [set_solver|done].
  - intros Hf. apply IH1 in Hf as [? ?]. split; [set_solver|done].
Qed.

Lemma ctx_addrs_nodes C : ctx_addrs C = fst <$> ctx_nodes C.
Proof.
  induction C as [|f C IH]; simpl; [done|]. rewrite fmap_app, IH.
  by destruct f; simpl; rewrite addrs_nodes.
Qed.

(** Every node of the tree is in some place. *)
Lemma node_place t a :
  a ∈ addrs t -> exists C n dat peer child, t = plug C (INode a n dat peer child).
Proof.
  induction t as [|b n d peer IH1 child IH2]; simpl; [set_solver|].
  intros [->|[Ha|Ha]%elem_of_app]%elem_of_cons.
  - by exists [], n, d, peer, child.
  - destruct (IH1 Ha) as (C & m & dat & p & c & ->).
    exists (C ++ [FPeer b n d child]), m, dat, p, c. by rewrite plug_snoc.
  - destruct (IH2 Ha) as (C & m & dat & p & c & ->).
    exists (C ++ [FChild b n d peer]), m, dat, p, c. by rewrite plug_snoc.
Qed.

Lemma route_place C x r :
  ctx_ok C -> (forall p, p ∈ ctx_nodes C -> d_flags (snd p) <> FSNODEFLAG_TYPE_MOUNTPT) ->
  passed C x -> route C (ctx_path C ++ x :: r) = Some (x :: r).
Proof.
  revert x r. induction C as [|f C IH]; intros x r; simpl; [done|].
  intros (Hf & Hh & Hok) Hm Hp. destruct f as [a n dat t|a n dat t]; simpl in *.
  - rewrite IH; [|done|set_solver|].
    + simpl. rewrite decide_False; [done|]. intros ->. by eapply name_lt_irrefl.
    + destruct C as [|[] C]; simpl in *; try done. by eapply name_lt_trans.
  - rewrite <- app_assoc. simpl. rewrite IH; [|done|set_solver|].
    + simpl. rewrite decide_True; [done|]. split; [done|]. apply (Hm (a, dat)). by left.
    + by destruct C as [|[] C].
Qed.

(** The place of a node and its names. *)
Lemma place_path fs rdat s C a n dat peer child :
  nrel fs rdat (plug C (INode a n dat peer child)) s ->
  (forall r, route C (ctx_path C ++ n :: r) = Some (n :: r)) /\
  find (plug C (INode a n dat peer child)) (ctx_path C ++ [n]) = Some (a, dat, []) /\
  d_crefs dat = 1 + Z.of_nat (sp_refs s a) /\ plain dat.
Proof.
  intros Hrel. pose proof (fo_tree _ _ _ (nr_fs _ _ _ _ Hrel)) as Hok.
  apply tree_ok_plug in Hok as (Hc & Hh & Hu).
  assert (forall r, route C (ctx_path C ++ n :: r) = Some (n :: r)) as Hro.
  { intros r. apply route_place; [done| |by destruct C as [|[] C]].
    intros [b d] Hb. apply plain_no_mount. apply (nr_nodes _ _ _ _ Hrel b).
    rewrite nodes_plug. set_solver. }
  split; [done|]. split.
  - rewrite (find_plug _ _ _ [n]) by done. simpl. by rewrite !decide_True by (done || by left).
  - apply (nr_nodes _ _ _ _ Hrel). rewrite nodes_plug. simpl. set_solver.
Qed.

Lemma fresh_none fs rdat t s a : nrel fs rdat t s -> fresh (g_root_inode fs) s a -> inodes fs !! a = None.
Proof.
  intros Hrel (Ha0 & Har & Hr & Hf). destruct (inodes fs !! a) as [i|] eqn:Ei; [|done]. exfalso.
  destruct (decide (a ∈ addrs t)) as [Hin|Hout].
  - destruct (node_place t a Hin) as (C & n & dat & peer & child & ->).
    destruct (place_path _ _ _ _ _ _ _ _ _ Hrel) as (_ & Hfi & _).
    pose proof (nr_find _ _ _ _ Hrel (ctx_path C ++ [n])) as Hs. rewrite Hfi in Hs. simpl in Hs.
    by apply (Hf _ _ Hs).
  - destruct (nr_out _ _ _ _ Hrel a i Ei) as [H _]; [|lia].
    intros [?|?]%elem_of_cons; done.
Qed.

(** The data of a node in the tree changes with the references to it. *)
Lemma update_step fs rdat C a n dat peer child f r f' d r' :
  let dat' := mk_idata (d_crefs dat + d) (d_flags dat) (d_ops dat) (d_ino dat) (d_priv dat) in
  nrel fs rdat (plug C (INode a n dat peer child)) (mk_nspec f r) ->
  (forall q x y, f' (to_inode q x y n dat) = to_inode q x y n dat') ->
  (forall b, b <> a -> r' b = r b) -> Z.of_nat (r' a) = Z.of_nat (r a) + d ->
  exists h, heap_upd a f' (inodes fs) = Some h /\
    nrel (with_inodes fs h) rdat (plug C (INode a n dat' peer child)) (mk_nspec f r').
Proof.
  intros dat' Hrel Hf' Hr Ha. destruct (place_path _ _ _ _ _ _ _ _ _ Hrel) as (Hro & Hfi & Hcr & Hpl).
  pose proof Hrel as [Hfs Hfind Hnodes Hout Hrefs Hnull].
  destruct (fs_update fs rdat C a n dat dat' peer child f' Hfs Hf') as (h & Hh & Hfs' & Hoth).
  pose proof (fo_nodup _ _ _ Hfs) as Hnd. apply NoDup_cons in Hnd as [Hna Hnd].
  rewrite addrs_plug in Hna, Hnd. apply NoDup_app in Hnd as (_ & Hd & Hnd). simpl in Hd, Hnd.
  apply NoDup_cons in Hnd as [Hnac _].
  exists h. split; [done|]. constructor; simpl in *; try done.
  - intros q. rewrite Hfind. rewrite (find_update C a n dat dat' peer child [] q (Hro [])).
    + case_decide as Hq; [|done]. subst q. by rewrite Hfi.
    + by apply plain_no_mount.
    + by apply (plain_no_mount dat).
  - intros b db. rewrite nodes_plug. simpl. intros Hb.
    rewrite <- Permutation_middle in Hb. apply elem_of_cons in Hb as [[= -> ->]|Hb].
    { simpl. split; [lia|done]. }
    assert (b <> a) as Hba.
    { intros ->. assert (a ∈ fst <$> ctx_nodes C ++ nodes peer ++ nodes child) as Hin
        by (apply list_elem_of_fmap; by exists (a, db)).
      rewrite !fmap_app, <- ctx_addrs_nodes, <- !addrs_nodes in Hin. set_solver. }
    rewrite Hr by done. apply Hnodes. rewrite nodes_plug. simpl. set_solver.
  - intros b i Hi Hb. assert (b <> a) as Hba.
    { intros ->. apply Hb. right. rewrite addrs_plug. simpl. set_solver. }
    rewrite Hr by done. rewrite Hoth in Hi by done. apply Hout; [done|].
    rewrite addrs_plug in *. done.
  - intros b Hb. destruct (decide (b = a)) as [->|Hba].
    + split; [|set_solver]. unfold heap_upd in Hh.
      destruct (inodes fs !! a) as [i|]; [|done]. simpl in Hh. injection Hh as <-.
      by rewrite lookup_insert_eq.
    + rewrite Hr in Hb by done. rewrite Hoth by done. by apply Hrefs.
  - rewrite Hoth; [done|]. intros <-. pose proof (fo_null _ _ _ Hfs) as H0. apply H0. right.
    rewrite addrs_plug. simpl. set_solver.
Qed.

Section steps.
Context (cwd : list Z).

Lemma sp_find_some fs rdat t s q a v :
  nrel fs rdat t s -> sp_find s q = Some (a, v) ->
  exists dat, find t q = Some (a, dat, []) /\ d_crefs dat = 1 + Z.of_nat (sp_refs s a) /\ plain dat /\
    v = if d_flags dat =? FSNODEFLAG_TYPE_DRIVER then Some (d_ops dat, d_priv dat) else None.
Proof.
  intros Hrel. rewrite (nr_find _ _ _ _ Hrel). destruct (find t q) as [[[b dat] rest]|] eqn:Ef; [|done].
  intros [= -> <-]. exists dat. destruct (find_nodes _ _ _ _ _ Ef) as [Hin Hr].
  destruct (nr_nodes _ _ _ _ Hrel _ _ Hin) as [Hc Hp].
  by rewrite (Hr (plain_no_mount _ Hp)).
Qed.

Lemma sp_find_none fs rdat t s q : nrel fs rdat t s -> sp_find s q = None -> find t q = None.
Proof. intros Hrel. rewrite (nr_find _ _ _ _ Hrel). by destruct (find t q). Qed.

Lemma find_step fs rdat t f r path :
  nrel fs rdat t (mk_nspec f r) -> path_ok cwd path ->
  match f (names (full_path cwd path)) with
  | None => exists s, inode_find true cwd path fs = Some (s, fs) /\ s_ret s = - ENOENT /\ s_node s = NULL
  | Some (a, v) => exists s fs' t', inode_find true cwd path fs = Some (s, fs') /\ s_ret s = OK /\
      s_node s = a /\ nrel fs' rdat t' (mk_nspec f (add_ref r a)) /\
      g_root_inode fs' = g_root_inode fs
  end.
Proof.
  intros Hrel (_ & Hab & HQ).
  destruct (search_spec fs rdat t cwd path (nr_fs _ _ _ _ Hrel) Hab HQ)
    as (s & C & u & Hs & Hpl & _ & _ & Hf).
  unfold inode_find. rewrite Hs. cbn [mbind option_bind]. destruct (f (names (full_path cwd path))) as [[a v]|] eqn:Ef.
  - destruct (sp_find_some _ _ _ _ _ _ _ Hrel Ef) as (dat & Hfi & _). rewrite Hfi in Hf.
    destruct Hf as (Hsr & Hsn & _ & n & peer & child & -> & _). rewrite Hsr, Hsn.
    change (0 <=? OK) with true. cbv iota. rewrite <- Hpl in Hrel.
    destruct (update_step fs rdat C a n dat peer child f r
      (fun i => set_crefs (i_crefs i + 1) i) 1 (add_ref r a) Hrel) as (h & Hh & Hrel'); [done| | |].
    { intros b Hb. unfold add_ref. by rewrite decide_False. }
    { unfold add_ref. rewrite decide_True by done. lia. }
    rewrite Hh. cbn [mbind option_bind]. eexists s, _, _. split; [reflexivity|]. done.
  - rewrite (sp_find_none _ _ _ _ _ Hrel Ef) in Hf. destruct Hf as (Hr & Hn & _).
    rewrite Hr. change (0 <=? - ENOENT) with false. by exists s.
Qed.

(** A node outside the tree that a caller holds. *)
Lemma orphan_step fs rdat t f r a i h r' :
  nrel fs rdat t (mk_nspec f r) -> inodes fs !! a = Some i -> a ∉ g_root_inode fs :: addrs t ->
  (forall b, b <> a -> h !! b = inodes fs !! b) -> (forall b, b <> a -> r' b = r b) ->
  match h !! a with
  | None => r' a = O
  | Some j => (0 < r' a)%nat /\ i_crefs j = Z.of_nat (r' a) /\ i_peer j = NULL /\ i_child j = NULL
  end -> nrel (with_inodes fs h) rdat t (mk_nspec f r').
Proof.
  intros [Hfs Hfind Hnodes Hout Hrefs Hnull] Hi Hna Hh Hr Ha. constructor; simpl in *; try done.
  - apply fs_ok_ext; [done|]. intros b Hb. apply Hh. intros ->. done.
  - intros b dat Hb. rewrite Hr; [by apply Hnodes|]. intros ->. apply Hna. right.
    rewrite addrs_nodes. apply list_elem_of_fmap. by exists (a, dat).
  - intros b j Hj Hb. destruct (decide (b = a)) as [->|Hba].
    + by rewrite Hj in Ha.
    + rewrite Hr by done. rewrite Hh in Hj by done. by apply Hout.
  - intros b Hb. destruct (decide (b = a)) as [->|Hba].
    + destruct (h !! a); [|lia]. split; [done|]. intros E. apply Hna. rewrite E. by left.
    + rewrite Hr in Hb by done. rewrite Hh by done. by apply Hrefs.
  - rewrite Hh; [done|]. intros <-. by rewrite Hnull in Hi.
Qed.

Lemma release_step fs rdat t f r a :
  nrel fs rdat t (mk_nspec f r) -> (0 < r a)%nat ->
  exists fs' t', inode_release a fs = Some fs' /\ nrel fs' rdat t' (mk_nspec f (del_ref r a)) /\
    g_root_inode fs' = g_root_inode fs.
Proof.
  intros Hrel Ha. destruct (nr_refs _ _ _ _ Hrel a Ha) as [[i Hi] Hroot].
  assert (forall b, b <> a -> del_ref r a b = r b) as Hdel
    by (intros b Hb; unfold del_ref; by rewrite decide_False).
  assert (del_ref r a a = pred (r a)) as Hdela by (unfold del_ref; by rewrite decide_True).
  unfold inode_release. replace (a =? NULL) with false.
  2:{ symmetry. apply Z.eqb_neq. intros ->. by rewrite (nr_null _ _ _ _ Hrel) in Hi. }
  rewrite Hi. cbn [mbind option_bind]. destruct (decide (a ∈ addrs t)) as [Hin|Hout].
  - destruct (node_place t a Hin) as (C & n & dat & peer & child & ->).
    destruct (place_path _ _ _ _ _ _ _ _ _ Hrel) as (_ & _ & Hcr & _).
    pose proof (fo_rep _ _ _ (nr_fs _ _ _ _ Hrel)) as (_ & _ & Hrep).
    apply rep_plug in Hrep as [_ (Hai & _)]. rewrite Hi in Hai. injection Hai as ->. simpl in Hcr.
    destruct (update_step fs rdat C a n dat peer child f r
      (fun i => set_crefs (i_crefs i - 1) i) (-1) (del_ref r a) Hrel) as (h & Hh & Hrel');
      [done|done|rewrite Hdela; lia|].
    rewrite Hh. cbn [mbind option_bind]. change (i_crefs (to_inode _ _ _ n dat)) with (d_crefs dat).
    replace (d_crefs dat <=? 1) with false by lia. by eexists _, _.
  - assert (a ∉ g_root_inode fs :: addrs t) as Hna by (by intros [?|?]%elem_of_cons).
    destruct (nr_out _ _ _ _ Hrel a i Hi Hna) as (_ & Hc & Hp & Hch). simpl in Hc.
    set (j := set_crefs (i_crefs i - 1) i). unfold heap_upd. rewrite Hi. cbn [mbind option_bind].
    fold j. destruct (Z.leb_spec (i_crefs i) 1).
    + assert (inode_free a (<[a := j]> (inodes fs)) = Some (delete a (<[a := j]> (inodes fs)))) as ->.
      { unfold inode_free. cbn [free_loop]. replace (a =? NULL) with false.
        2:{ symmetry. apply Z.eqb_neq. intros ->. by rewrite (nr_null _ _ _ _ Hrel) in Hi. }
        rewrite lookup_insert_eq. cbn [mbind option_bind].
        change (i_peer j) with (i_peer i). change (i_child j) with (i_child i). rewrite Hp, Hch.
        by destruct (size _). }
      cbn [mbind option_bind]. eexists _, t. split; [reflexivity|]. split; [|done].
      eapply (orphan_step fs rdat t f r a i); try done.
      * intros b Hb. rewrite lookup_delete_ne by done. by apply lookup_insert_ne.
      * rewrite lookup_delete_eq. rewrite Hdela. lia.
    + eexists _, t. split; [reflexivity|]. split; [|done].
      eapply (orphan_step fs rdat t f r a i); try done.
      * intros b Hb. by apply lookup_insert_ne.
      * rewrite lookup_insert_eq, Hdela. simpl. split; [lia|]. split; [lia|done].
Qed.

Definition cut (f : list (list Z) -> option (Z * option (Z * Z))) (Q q : list (list Z)) :=
  if decide (Q `prefix_of` q) then None else f q.

(** The relation after the node at [a] was taken out of the tree: outside it the
    heap [h'] is that after [inode_unlink], [h]. *)
Lemma removed_rel fs rdat t f r Q a dat h t' h' :
  nrel fs rdat t (mk_nspec f r) -> fs_ok (with_inodes fs h) rdat t' ->
  (forall q, find t' q = if decide (Q `prefix_of` q) then None else find t q) ->
  nodes t ≡ₚ (a, dat) :: nodes t' ->
  (forall b, b ∉ g_root_inode fs :: addrs t -> h !! b = inodes fs !! b) ->
  a ∉ g_root_inode fs :: addrs t' ->
  (forall b, b <> a -> h' !! b = h !! b) ->
  match h' !! a with
  | None => r a = O
  | Some j => (0 < r a)%nat /\ i_crefs j = Z.of_nat (r a) /\ i_peer j = NULL /\ i_child j = NULL
  end -> nrel (with_inodes fs h') rdat t' (mk_nspec (cut f Q) r).
Proof.
  intros Hrel Hfs' Hfind Hnodes Hoth Hna Hh' Ha.
  pose proof Hrel as [Hfs Hff Hnd Hout Hrefs Hnull]. simpl in *.
  assert (forall b, b ∈ addrs t <-> b = a \/ b ∈ addrs t') as Hadd.
  { intros b. rewrite !addrs_nodes, Hnodes. simpl. by rewrite elem_of_cons. }
  assert (a <> NULL) as Ha0.
  { intros ->. apply (fo_null _ _ _ Hfs). right. apply Hadd. by left. }
  constructor; simpl.
  - apply (fs_ok_ext (with_inodes fs h)); [done|]. intros b Hb. apply Hh'. by intros ->.
  - intros q. unfold cut. rewrite Hfind, Hff. by case_decide.
  - intros b d Hb. apply Hnd. rewrite Hnodes. by right.
  - intros b i Hi Hb. destruct (decide (b = a)) as [->|Hba]; [by rewrite Hi in Ha|].
    assert (b ∉ g_root_inode fs :: addrs t) as Hb'.
    { intros [->|[?|?]%Hadd]%elem_of_cons; [apply Hb; by left|done|apply Hb; by right]. }
    rewrite Hh', Hoth in Hi by done. by apply Hout.
  - intros b Hb. destruct (Hrefs b Hb) as [Hb1 Hb2]. split; [|done].
    destruct (decide (b = a)) as [->|Hba]; [destruct (h' !! a); [done|lia]|].
    rewrite Hh' by done. destruct (decide (b ∈ addrs t)) as [Hin|Hin].
    + apply (rep_dom h NULL (INode (g_root_inode fs) [] rdat INull t')); [apply Hfs'|].
      simpl. apply Hadd in Hin as [?|?]; [done|by right].
    + rewrite Hoth; [done|]. by intros [?|?]%elem_of_cons.
  - rewrite Hh', Hoth by done || apply Hfs. done.
Qed.

Lemma remove_step fs rdat t f r path a v :
  nrel fs rdat t (mk_nspec f r) -> path_ok cwd path ->
  f (names (full_path cwd path)) = Some (a, v) ->
  (forall x q, f (names (full_path cwd path) ++ x :: q) = None) ->
  exists fs' t', inode_remove true cwd path fs = Some (if (r a =? 0)%nat then OK else - EBUSY, fs') /\
    nrel fs' rdat t' (mk_nspec (cut f (names (full_path cwd path))) r) /\
    g_root_inode fs' = g_root_inode fs.
Proof.
  intros Hrel (_ & Hab & HQ) Hf Hno. set (Q := names (full_path cwd path)) in *.
  destruct (sp_find_some _ _ _ _ _ _ _ Hrel Hf) as (dat & Hfi & Hcr & Hpl & Hv). simpl in Hcr.
  pose proof (unlink_spec fs rdat t cwd path (nr_fs _ _ _ _ Hrel) Hab HQ) as Hul. fold Q in Hul.
  rewrite Hfi in Hul.
  destruct Hul as (P & h & t' & n & child & HP & Hul & Hfs' & Hfind & Hnodes & Hoth & Hch & Hx & _ & Hx0 & Hdis).
  rewrite app_nil_r in HP. subst P.
  assert (child = INull) as ->.
  { apply Hch; [done|by apply plain_no_mount|]. intros x q. eapply sp_find_none; [exact Hrel|apply Hno]. }
  simpl in Hnodes. destruct Hx as (Ha & _ & _).
  assert (a ∉ g_root_inode fs :: addrs t') as Hna by (intros H; apply (Hdis a H); by left).
  assert ((a =? NULL) = false) as Ha0 by (apply Z.eqb_neq; intros ->; apply Hx0; by left).
  pose proof (fun h' => removed_rel fs rdat t f r Q a dat h t' h' Hrel Hfs' Hfind Hnodes Hoth Hna) as Hgo.
  unfold inode_remove. rewrite Hul. cbn [mbind option_bind]. rewrite Ha0.
  cbn [inodes with_inodes]. rewrite Ha. cbn [mbind option_bind].
  change (i_crefs (to_inode _ _ _ _ _)) with (d_crefs dat - 1).
  replace (d_crefs dat - 1 =? 0) with (r a =? 0)%nat
    by (destruct (Nat.eqb_spec (r a) 0), (Z.eqb_spec (d_crefs dat - 1) 0); lia || done).
  destruct (Nat.eqb_spec (r a) 0) as [Hr0|Hr0]; cbn [negb].
  - assert (inode_free a h = Some (delete a h)) as ->.
    { unfold inode_free. cbn [free_loop]. rewrite Ha0, Ha. cbn [mbind option_bind].
      simpl i_peer. simpl i_child. by destruct (size h). }
    cbn [mbind option_bind]. eexists _, t'. split; [reflexivity|]. split; [|done].
    apply (Hgo (delete a h)); [intros b Hb; by rewrite lookup_delete_ne|]. by rewrite lookup_delete_eq.
  - eexists _, t'. split; [reflexivity|]. split; [|done]. apply Hgo; [done|].
    rewrite Ha. simpl. split; [lia|]. split; [lia|done].
Qed.

Lemma leaf_fields fs rdat t f r path a v :
  nrel fs rdat t (mk_nspec f r) -> path_ok cwd path ->
  f (names (full_path cwd path)) = Some (a, v) ->
  (forall x q, f (names (full_path cwd path) ++ x :: q) = None) ->
  exists i, inodes fs !! a = Some i /\ i_child i = NULL /\
    i_flags i = match v with Some _ => FSNODEFLAG_TYPE_DRIVER | None => FSNODEFLAG_TYPE_PSEUDODIR end.
Proof.
  intros Hrel (_ & Hab & HQ) Hf Hno.
  destruct (sp_find_some _ _ _ _ _ _ _ Hrel Hf) as (dat & Hfi & _ & Hpl & Hv).
  destruct (search_spec fs rdat t cwd path (nr_fs _ _ _ _ Hrel) Hab HQ)
    as (s & C & u & _ & Ht & _ & _ & Hs).
  rewrite Hfi in Hs. destruct Hs as (_ & _ & _ & n & peer & child & -> & Hro).
  pose proof (fo_rep _ _ _ (nr_fs _ _ _ _ Hrel)) as (_ & _ & Hrep). rewrite <- Ht in Hrep.
  apply rep_plug in Hrep as [_ (Ha & _)]. eexists. split; [exact Ha|]. simpl. split.
  - destruct child as [|c m d cp cc]; [done|]. exfalso. specialize (Hno m []).
    apply (sp_find_none _ _ _ _ _ Hrel) in Hno. rewrite <- Ht in Hno.
    pose proof (route_path _ _ _ Hro) as HQ'. rewrite HQ' in Hno, Hro.
    rewrite <- app_assoc, (find_plug _ _ _ (n :: [m])) in Hno by (by eapply route_ext). simpl in Hno.
    rewrite decide_True in Hno by done. rewrite decide_False in Hno.
    + rewrite !decide_True in Hno by (done || by left). done.
    + intros [?|?]; [done|]. by apply (plain_no_mount dat).
  - subst v. destruct Hpl as [E|E]; by rewrite E.
Qed.

Lemma add_del_ref r a b : del_ref (add_ref r a) a b = r b.
Proof. unfold del_ref, add_ref. by case_decide. Qed.

Lemma nx_unlink_step fs rdat t f r path a v unl :
  nrel fs rdat t (mk_nspec f r) -> path_ok cwd path ->
  f (names (full_path cwd path)) = Some (a, v) ->
  (forall x q, f (names (full_path cwd path) ++ x :: q) = None) ->
  exists ret fs' t', nx_unlink (fun _ => unl) true cwd path fs = Some (ret, fs') /\
    g_root_inode fs' = g_root_inode fs /\
    if unlinked unl v
    then ret = OK /\ nrel fs' rdat t' (mk_nspec (cut f (names (full_path cwd path))) r)
    else ret < 0 /\ nrel fs' rdat t' (mk_nspec f r).
Proof.
  intros Hrel Hp Hf Hno. pose proof (find_step fs rdat t f r path Hrel Hp) as Hfs. rewrite Hf in Hfs.
  destruct Hfs as (s & fs1 & t1 & Ef & Hsr & Hsn & Hrel1 & Hroot1).
  unfold nx_unlink. rewrite Ef. cbn [mbind option_bind]. rewrite Hsr, Hsn.
  change (OK <? 0) with false. cbv iota.
  destruct (leaf_fields fs1 rdat t1 f _ path a v Hrel1 Hp Hf Hno) as (i & Hi & Hch & Hfl).
  rewrite Hi. cbn [mbind option_bind]. rewrite Hch. unfold INODE_IS_MOUNTPT. rewrite Hfl.
  assert (0 < add_ref r a a)%nat as Hpos by (unfold add_ref; rewrite decide_True by done; lia).
  (* the node is taken out and the reference released *)
  destruct (remove_step fs1 rdat t1 f _ path a v Hrel1 Hp Hf Hno) as (fs2 & t2 & Er & Hrel2 & Hroot2).
  replace (add_ref r a a =? 0)%nat with false in Er by (symmetry; apply Nat.eqb_neq; lia).
  destruct (release_step fs2 rdat t2 _ _ a Hrel2 Hpos) as (fs3 & t3 & Erel & Hrel3 & Hroot3).
  apply (nrel_ext _ _ _ _ _ r (add_del_ref r a)) in Hrel3.
  (* or only released *)
  destruct (release_step fs1 rdat t1 _ _ a Hrel1 Hpos) as (fs4 & t4 & Erel4 & Hrel4 & Hroot4).
  apply (nrel_ext _ _ _ _ _ r (add_del_ref r a)) in Hrel4.
  destruct v as [v|]; simpl.
  - destruct unl as [ret|]; simpl.
    + destruct (Z.ltb_spec ret 0).
      * replace (0 <=? ret) with false by lia. rewrite Erel4. eexists _, _, _.
        split; [reflexivity|]. split; [congruence|done].
      * replace (0 <=? ret) with true by lia. rewrite Er. cbn [mbind option_bind]. simpl.
        rewrite Erel. eexists _, _, _. split; [reflexivity|]. split; [congruence|done].
    + rewrite Erel4. eexists _, _, _. split; [reflexivity|]. split; [congruence|done].
  - rewrite Er. cbn [mbind option_bind]. simpl. rewrite Erel. eexists _, _, _.
    split; [reflexivity|]. split; [congruence|done].
Qed.

Lemma unregister_step fs rdat t f r path unl :
  nrel fs rdat t (mk_nspec f r) -> path_ok cwd path ->
  (forall x q, f (names (full_path cwd path) ++ x :: q) = None) ->
  exists ret fs' t' s', unregister_driver (fun _ => unl) true cwd path fs = Some (ret, fs') /\
    nstep cwd (NUnregister unl path) (mk_nspec f r) (NInt ret) s' /\ nrel fs' rdat t' s' /\
    g_root_inode fs' = g_root_inode fs.
Proof.
  intros Hrel Hp Hno. unfold unregister_driver.
  destruct (f (names (full_path cwd path))) as [[a v]|] eqn:Hf.
  - destruct (nx_unlink_step fs rdat t f r path a v unl Hrel Hp Hf Hno)
      as (ret & fs' & t' & E & Hroot & Hu).
    rewrite E. cbn [mbind option_bind].
    pose proof (fun f' => ns_unregister cwd unl path f r a v f' Hf) as Hst.
    destruct (unlinked unl v) eqn:Eu; destruct Hu as [Hret Hrel'].
    + rewrite Hret. eexists _, _, _, _. split; [reflexivity|]. split; [|done].
      rewrite ?Eu in Hst. apply Hst. done.
    + replace (0 <=? ret) with false by lia.
      destruct (remove_step fs' rdat t' f r path a v Hrel' Hp Hf Hno) as (fs2 & t2 & Er & Hrel2 & Hroot2).
      rewrite Er. eexists _, _, _, _. split; [reflexivity|]. split; [apply Hst; done|].
      split; [done|]. congruence.
  - pose proof (find_step fs rdat t f r path Hrel Hp) as Hfs. rewrite Hf in Hfs.
    destruct Hfs as (s & Ef & Hsr & _). unfold nx_unlink. rewrite Ef. cbn [mbind option_bind].
    rewrite Hsr. change (- ENOENT <? 0) with true. cbv iota. cbn [mbind option_bind].
    change (0 <=? - ENOENT) with false. cbv iota.
    destruct Hp as (_ & Hab & HQ).
    pose proof (remove_spec fs rdat t cwd path (nr_fs _ _ _ _ Hrel) Hab HQ) as Hr.
    rewrite (sp_find_none _ _ _ _ _ Hrel Hf) in Hr. rewrite Hr.
    eexists _, _, t, _. split; [reflexivity|]. split; [by apply ns_unregister_none|done].
Qed.

(** The relation after new nodes were linked in. *)
Lemma grown_rel mem fs rdat t f r fs' t' :
  nrel fs rdat t (mk_nspec f r) -> Forall (fresh (g_root_inode fs) (mk_nspec f r)) mem ->
  fs_ok fs' rdat t' -> g_root_inode fs' = g_root_inode fs ->
  (forall b, b ∉ g_root_inode fs :: addrs t' -> inodes fs' !! b = inodes fs !! b) ->
  (forall b d, (b, d) ∈ nodes t' -> (b, d) ∈ nodes t \/ (b ∈ mem /\ d_crefs d = 1 /\ plain d)) ->
  (forall b, b ∈ addrs t -> b ∈ addrs t') ->
  nrel fs' rdat t' (mk_nspec (fun q => view <$> find t' q) r).
Proof.
  intros [Hfs Hfind Hnodes Hout Hrefs Hnull] Hmem Hfs' Hroot Hh Hn Ha. simpl in *.
  rewrite Forall_forall in Hmem. constructor; simpl; try done.
  - intros b d Hb. destruct (Hn b d Hb) as [?|(Hbm & Hc & Hp)]; [by apply Hnodes|].
    destruct (Hmem b Hbm) as (_ & _ & Hr & _). simpl in Hr. rewrite Hr. split; [lia|done].
  - intros b i Hi Hb. rewrite Hroot in Hb. rewrite Hh in Hi by done. apply Hout; [done|].
    intros [->|?]%elem_of_cons; apply Hb; [by left|right; by apply Ha].
  - intros b Hb. destruct (Hrefs b Hb) as [Hb1 Hb2]. rewrite Hroot. split; [|done].
    destruct (decide (b ∈ addrs t')) as [Hin|Hin].
    + apply (rep_dom _ NULL (INode (g_root_inode fs') [] rdat INull t')); [apply Hfs'|]. by right.
    + rewrite Hh; [done|]. by intros [?|?]%elem_of_cons.
  - rewrite Hh; [done|]. pose proof (fo_null _ _ _ Hfs') as H0. by rewrite Hroot in H0.
Qed.

Lemma register_step fs rdat t f r mem path ops priv :
  nrel fs rdat t (mk_nspec f r) -> path_ok cwd path -> NoDup mem ->
  Forall (fresh (g_root_inode fs) (mk_nspec f r)) mem ->
  exists ret fs' t' s', register_driver true mem cwd path ops priv fs = Some (ret, fs') /\
    nstep cwd (NRegister mem path ops priv) (mk_nspec f r) (NInt ret) s' /\ nrel fs' rdat t' s' /\
    g_root_inode fs' = g_root_inode fs.
Proof.
  intros Hrel (Hpn & Hab & HQ) Hnd Hmem. pose proof (proj1 (Forall_forall _ _) Hmem) as Hm.
  destruct (register_spec fs rdat t mem cwd path ops priv (nr_fs _ _ _ _ Hrel) Hab Hpn HQ Hnd)
    as (ret & fs' & t' & E & Hroot & Hfs' & Hh & Hcase).
  { intros H0. by destruct (Hm _ H0) as [? _]. }
  { intros a Ha. eapply fresh_none; [exact Hrel|]. by apply Hm. }
  pose proof (nr_find _ _ _ _ Hrel) as Hfind. simpl in Hfind. rewrite E.
  set (Q := names (full_path cwd path)) in *.
  assert (forall t1, grown mem t t1 Q -> dirs_added mem f (fun q => view <$> find t1 q) Q) as Hadd.
  { intros t1 (H1 & H2 & _). split; intros q x; rewrite Hfind.
    - destruct (find t q) as [y|] eqn:Ey; [|done]. intros <-. by rewrite (H1 _ _ Ey).
    - destruct (find t1 q) as [y|] eqn:Ey; simpl; [|done]. intros [= <-].
      destruct (H2 _ _ Ey) as [->|(Hp & a & ino & Ha & ->)]; [by left|right].
      split; [|done]. intros ->. by destruct t1. }
  destruct (find t Q) as [x|] eqn:Ef.
  - destruct Hcase as (-> & -> & ->). eexists _, fs, t, _. split; [reflexivity|].
    split; [|done]. eapply ns_register_exists. fold Q. by rewrite Hfind, Ef.
  - destruct Hcase as [(-> & a & ino & t1 & Ha & Hg & Hn1 & Hn2 & Hfi)|(-> & Hlen & Hg)].
    + assert (nrel fs' rdat t' (mk_nspec (fun q => view <$> find t' q) r)) as Hrel'.
      { eapply (grown_rel mem fs rdat t f r); try done.
        - intros b d Hb. destruct Hg as (_ & _ & _ & Hg). destruct (Hn1 _ Hb) as [Hb1|[= -> ->]].
          + destruct (Hg _ Hb1) as [?|(? & ? & ? & [= -> ->])]; [by left|right]. by repeat split; [|left].
          + right. by repeat split; [|right].
        - intros b. rewrite !addrs_nodes. intros ((b' & d) & -> & Hb)%list_elem_of_fmap.
          destruct Hg as (_ & _ & Hg & _). destruct (Hn2 _ (Hg _ Hb)) as [Hin|(ino' & [= -> ->])].
          + apply list_elem_of_fmap. by exists (b', d).
          + exfalso. destruct (Hm a Ha) as (_ & _ & _ & Hfr). simpl in Hfr.
            assert (a ∈ addrs t) as Hat by (rewrite addrs_nodes; apply list_elem_of_fmap; by exists (a, new_data ino')).
            destruct (node_place t a Hat) as (C & n & dat & peer & child & ->).
            destruct (place_path _ _ _ _ _ _ _ _ _ Hrel) as (_ & Hp & _).
            specialize (Hfind (ctx_path C ++ [n])). rewrite Hp in Hfind. by apply (Hfr _ _ Hfind). }
      eexists _, fs', t', _. split; [reflexivity|]. split; [|done].
      apply (ns_register cwd mem path ops priv f r a (fun q => view <$> find t1 q)); try done.
      * fold Q. by rewrite Hfind, Ef.
      * by apply Hadd.
      * intros q. rewrite Hfi. fold Q. by case_decide.
    + eexists _, fs', t', _. split; [reflexivity|]. split; [|split; [|done]].
      * eapply ns_register_nomem; [fold Q; by rewrite Hfind, Ef|done|by apply Hadd].
      * eapply (grown_rel mem fs rdat t f r); try done.
        -- intros b d Hb. destruct Hg as (_ & _ & _ & Hg).
           destruct (Hg _ Hb) as [?|(? & ? & ? & [= -> ->])]; [by left|right]. by repeat split; [|left].
        -- intros b. rewrite !addrs_nodes. intros ((b' & d) & -> & Hb)%list_elem_of_fmap.
           apply list_elem_of_fmap. exists (b', d). split; [done|]. by apply Hg.
Qed.
End steps.

(** ** Runs *)

Definition empty_ns : nspec := mk_nspec (fun _ => None) (fun _ => O).
Definition boot_fs (root : Z) : pseudofs := inode_root_reserve root (mk_fs NULL 0 ∅).

Lemma nop_refines cwd fs rdat t s op :
  nrel fs rdat t s -> nop_ok cwd (g_root_inode fs) op s ->
  exists r fs' t' s', nop_exec cwd op fs = Some (r, fs') /\ nstep cwd op s r s' /\
    nrel fs' rdat t' s' /\ g_root_inode fs' = g_root_inode fs.
Proof.
  destruct s as [f r]. intros Hrel Hok. destruct op as [mem path ops priv|unl path|path|a]; simpl in Hok.
  - destruct Hok as (Hp & Hnd & Hm).
    destruct (register_step cwd fs rdat t f r mem path ops priv Hrel Hp Hnd Hm)
      as (ret & fs' & t' & s' & E & H). simpl. rewrite E. by exists (NInt ret), fs', t', s'.
  - destruct Hok as [Hp Hno].
    destruct (unregister_step cwd fs rdat t f r path unl Hrel Hp Hno)
      as (ret & fs' & t' & s' & E & H). simpl. rewrite E. by exists (NInt ret), fs', t', s'.
  - pose proof (find_step cwd fs rdat t f r path Hrel Hok) as Hf. simpl.
    destruct (f (names (full_path cwd path))) as [[a v]|] eqn:Ef.
    + destruct Hf as (s & fs' & t' & E & Hr & Hn & Hrel' & Hroot). rewrite E. simpl. rewrite Hr, Hn.
      eexists _, fs', t', _. split; [done|]. split; [by eapply ns_find|done].
    + destruct Hf as (s & E & Hr & Hn). rewrite E. simpl. rewrite Hr, Hn.
      eexists _, fs, t, _. split; [done|]. split; [by apply ns_find_none|done].
  - destruct (release_step fs rdat t f r a Hrel Hok) as (fs' & t' & E & Hrel' & Hroot).
    simpl. rewrite E. eexists _, fs', t', _. split; [done|]. split; [by apply ns_release|done].
Qed.

Lemma nops_refine cwd fs rdat t s ops :
  nrel fs rdat t s -> nops_ok cwd (g_root_inode fs) ops s ->
  exists rs fs' t' s', nop_run cwd ops fs = Some (rs, fs') /\
    nruns cwd (g_root_inode fs) ops s rs s' /\ nrel fs' rdat t' s' /\
    g_root_inode fs' = g_root_inode fs.
Proof.
  revert fs t s. induction ops as [|op ops IH]; intros fs t s Hrel Hok.
  { exists [], fs, t, s. split; [done|]. split; [constructor|done]. }
  destruct Hok as [Hop Hok].
  destruct (nop_refines cwd fs rdat t s op Hrel Hop) as (r & fs1 & t1 & s1 & E1 & Hs1 & Hrel1 & Hr1).
  specialize (Hok r s1 Hs1). rewrite <- Hr1 in Hok.
  destruct (IH fs1 t1 s1 Hrel1 Hok) as (rs & fs2 & t2 & s2 & E2 & Hs2 & Hrel2 & Hr2).
  exists (r :: rs), fs2, t2, s2. simpl. rewrite E1. cbn [mbind option_bind]. rewrite E2.
  split; [done|]. split; [|split; [done|congruence]]. econstructor; [done|]. by rewrite Hr1 in Hs2.
Qed.

Lemma boot_rel root : root <> NULL -> nrel (boot_fs root) (new_data 0) INull empty_ns.
Proof.
  intros Hr. constructor; simpl; try done.
  - constructor; simpl; try done.
    + by rewrite lookup_insert_eq.
    + by constructor; [set_solver|constructor].
    + intros [E|E]%elem_of_cons; [by rewrite E in Hr|set_solver].
  - set_solver.
  - intros a i. rewrite lookup_insert_Some. intros [[<- _]|[_ H]]; [set_solver|done].
  - lia.
  - by rewrite lookup_insert_ne.
Qed.

(** The nodes that exist are those with a name and those a caller holds. *)
Lemma nrel_alive fs rdat t s a :
  nrel fs rdat t s ->
  is_Some (inodes fs !! a) <->
  a = g_root_inode fs \/ (exists q v, sp_find s q = Some (a, v)) \/ (0 < sp_refs s a)%nat.
Proof.
  intros Hrel. split.
  - intros [i Hi]. destruct (decide (a = g_root_inode fs)) as [?|Hr]; [by left|right].
    destruct (decide (a ∈ addrs t)) as [Hin|Hout].
    + left. destruct (node_place t a Hin) as (C & n & dat & peer & child & ->).
      destruct (place_path _ _ _ _ _ _ _ _ _ Hrel) as (_ & Hf & _).
      eexists _, _. rewrite (nr_find _ _ _ _ Hrel), Hf. done.
    + right. eapply nr_out; [exact Hrel|exact Hi|]. by intros [?|?]%elem_of_cons.
  - pose proof (fo_rep _ _ _ (nr_fs _ _ _ _ Hrel)) as Hrep.
    intros [->|[(q & v & Hq)|Hr]]; [by destruct Hrep as [-> _]| |by eapply nr_refs].
    destruct (sp_find_some _ _ _ _ _ _ _ Hrel Hq) as (dat & Hf & _).
    apply find_nodes in Hf as [Hf _]. eapply (rep_dom _ _ _ a); [exact Hrep|]. right.
    rewrite addrs_nodes. apply list_elem_of_fmap. by exists (a, dat).
Qed.

(** C33: the pseudo file system implements the name space.  For any drivers that
    are registered, and unregistered when there is nothing below them, and any
    nodes that are looked up and released as often as they were found, by paths
    that are not empty, every call returns without undefined behaviour, with a
    result the specification allows: a driver is found under its path until it
    is unregistered, nothing else appears but the directories on the way, and a
    node that a caller holds stays allocated.  The nodes allocated are exactly
    the root, those with a name and those held. *)
Theorem pseudofs_refines_namespace cwd root ops :
  root <> NULL -> nops_ok cwd root ops empty_ns ->
  exists rs fs s, nop_run cwd ops (boot_fs root) = Some (rs, fs) /\
    nruns cwd root ops empty_ns rs s /\
    forall a, is_Some (inodes fs !! a) <->
      a = root \/ (exists q v, sp_find s q = Some (a, v)) \/ (0 < sp_refs s a)%nat.
Proof.
  intros Hr Hok. destruct (nops_refine cwd _ _ _ _ ops (boot_rel root Hr) Hok)
    as (rs & fs & t & s & E & Hs & Hrel & Hroot).
  exists rs, fs, s. split; [done|]. split; [done|]. intros a.
  change root with (g_root_inode (boot_fs root)). rewrite <- Hroot. by eapply nrel_alive.
Qed.

(** A device is registered, looked up, unregistered while it is held, released,
    and its memory used for another device. *)
Definition dev_a : list Z := [47; 97].
Definition dev_b : list Z := [47; 98].
Definition demo_nops : list nop :=
  [NRegister [2] dev_a 1 7; NFind dev_a; NUnregister None dev_a; NRelease 2;
   NRegister [2] dev_b 1 8].

Lemma prefix_single {A} (q : list A) x : q `prefix_of` [x] -> q = [] \/ q = [x].
Proof. intros [k Hk]. destruct q as [|y q]; [by left|]. right. destruct q; [by simplify_eq/=|done]. Qed.

Lemma demo_nops_ok : nops_ok [] 1 demo_nops empty_ns.
Proof.
  assert (path_ok [] dev_a /\ path_ok [] dev_b) as [Pa Pb] by done.
  split; [split; [done|]; by repeat constructor; try set_solver|].
  intros r1 s1 H1. inversion H1 as [mem path ops priv f r a f1 f' Hn Hd Ha Hf'| |? ? ? ? ? ? ? ? Hlen| | | | |];
    subst; [|done|by simpl in Hlen; lia].
  apply list_elem_of_singleton in Ha as ->. change (names (full_path [] dev_a)) with [[97]] in *.
  assert (forall q, f' q = if decide (q = [[97]]) then Some (2, Some (1, 7)) else None) as Hf.
  { intros q. rewrite Hf'. case_decide as Hq; [done|]. destruct Hd as [_ Hd].
    destruct (f1 q) as [x|] eqn:E; [|done]. exfalso. destruct (Hd q x E) as [?|(Hne & Hp & _)]; [done|].
    by destruct (prefix_single _ _ Hp). }
  clear H1 Hf' Hd Hn f1. split; [done|]. intros r2 s2 H2.
  inversion H2 as [| | | | |path f r a v Hfa|path f r Hfa|]; subst;
    change (names (full_path [] dev_a)) with [[97]] in *; rewrite Hf in Hfa; [|done].
  injection Hfa as <- <-. clear H2. split.
  { split; [done|]. intros x q. simpl. rewrite Hf. by rewrite decide_False. }
  intros r3 s3 H3. inversion H3 as [| | |unl path f r a v f'' Hfa Hcut|unl path f r Hfa| | |]; subst;
    change (names (full_path [] dev_a)) with [[97]] in *; rewrite Hf in Hfa; [|done].
  clear H3 Hfa. split; [simpl; unfold add_ref; rewrite decide_True by done; lia|].
  intros r4 s4 H4. inversion H4; subst. split; [|done]. split; [done|].
  split; [by repeat constructor; set_solver|]. repeat constructor; try done.
  intros q x. simpl. rewrite Hcut. case_decide; [done|]. rewrite Hf. by case_decide; subst.
Qed.

Lemma pseudofs_refines_namespace_witness :
  nops_ok [] 1 demo_nops empty_ns /\
  exists rs fs s, nop_run [] demo_nops (boot_fs 1) = Some (rs, fs) /\
    nruns [] 1 demo_nops empty_ns rs s /\
    forall a, is_Some (inodes fs !! a) <->
      a = 1 \/ (exists q v, sp_find s q = Some (a, v)) \/ (0 < sp_refs s a)%nat.
Proof.
  split; [exact demo_nops_ok|].
  apply (pseudofs_refines_namespace [] 1 demo_nops); [done|exact demo_nops_ok].
Defined.

(** ** Defects *)

(** [nx_unlink] refuses a node with children, but [unregister_driver] then calls
    [inode_remove], which frees the whole subtree, also nodes that are held: the
    release of such a node is a use after free. *)
Definition dev_ab : list Z := [47; 97; 47; 98].
Theorem unregister_frees_held_child :
  exists rs fs,
    nop_run [] [NRegister [2] dev_a 1 7; NRegister [3] dev_ab 1 8; NFind dev_ab; NUnregister None dev_a]
      (boot_fs 1) = Some (rs ++ [NNode OK 3; NInt OK], fs) /\
    inodes fs !! 3 = None /\ nop_exec [] (NRelease 3) fs = None.
Proof. eexists [_; _], _. split; [vm_compute; reflexivity|]. done. Qed.

(** A relative path for which the buffer cannot be allocated makes
    [inode_reserve] go on with a null parent. *)
Theorem reserve_null_parent a mem cwd c path fs :
  inodes fs !! NULL = None -> a <> NULL -> c <> SLASH ->
  inode_reserve false (a :: mem) cwd (c :: path) fs = None.
Proof.
  intros H0 Ha Hc. unfold inode_reserve, inode_search.
  replace (c =? SLASH) with false by (symmetry; by apply Z.eqb_neq). cbn [mbind option_bind s_ret].
  change (0 <=? - ENOMEM) with false. cbv iota. cbn [s_path s_peer s_parent length reserve_loop].
  unfold inode_insert. rewrite Z.eqb_refl. cbn [negb]. simpl inodes.
  rewrite lookup_insert_ne by done. by rewrite H0.
Qed.
