(* ===== verification/Files.v ===== *)
(** File descriptors: open files, the descriptor lists of the tasks and the
    counted references between them.

    Models fs/inode/fs_files.c, and of fs/vfs fs_open.c, fs_close.c, fs_dup.c,
    fs_read.c, fs_write.c and fs_ioctl.c as far as character drivers go.  The
    drivers and the inodes are below an interface [vfs_ops].  [files] maps an
    address to the [struct file] there, [lists] a task group to its list.  The
    calls of the tasks are modelled one after the other; the code between
    [spin_lock_irqsave] and [spin_unlock_irqrestore] is one of them.  [None] is
    undefined behaviour. *)

From S2P Require Import Prelude.
From stdpp Require Import gmap list.
From S2P Require Import Inode.
Local Open Scope Z_scope.

Definition CONFIG_NFILE_DESCRIPTORS_PER_BLOCK : Z := 8.
Definition OPEN_MAX : Z := 256.
Definition O_RDONLY : Z := 1.
Definition O_WRONLY : Z := 2.
Definition O_NONBLOCK : Z := 64.
Definition O_CLOEXEC : Z := 1024.
Definition O_DIRECTORY : Z := 2048.

(** [struct file]: the count of references, and what the driver gets to see. *)
Record finfo := mk_finfo { fp_oflags : Z; fp_inode : Z; fp_priv : Z }.
Record filp := mk_filp { fp_refs : Z; fp_info : finfo }.
Record fdslot := mk_fdslot { f_file : Z; f_cloexec : bool }.
Record fdlist := mk_fdlist { fl_rows : Z; fl_fds : list (list fdslot) }.

Definition empty_row : list fdslot :=
  replicate (Z.to_nat CONFIG_NFILE_DESCRIPTORS_PER_BLOCK) (mk_fdslot NULL false).

Definition fdlist_init : fdlist := mk_fdlist 1 [empty_row].
Definition fdlist_count (list : fdlist) : Z := fl_rows list * CONFIG_NFILE_DESCRIPTORS_PER_BLOCK.

(** What the layer calls: the inode of a path with a reference to it, the release
    of it, [inode_checkperm], [dir_allocate], which binds the file to a
    directory, and the operations of the driver behind an inode.  [vo_open] is
    given the flags and returns the [f_priv] the driver chose, or -ENXIO when the
    inode is no driver; [vo_close] does nothing and returns 0 for a driver without
    a close method. *)
Record vfs_ops (W : Type) := mk_vfs_ops {
  vo_find : list Z -> W -> option (Z * Z * W);
  vo_release : Z -> W -> option W;
  vo_checkperm : Z -> Z -> W -> Z;
  vo_opendir : finfo -> W -> option (Z * finfo * W);
  vo_open : Z -> Z -> W -> option (Z * Z * W);
  vo_close : finfo -> W -> option (Z * W);
  vo_read : finfo -> Z -> W -> option (Z * list Z * W);
  vo_write : finfo -> list Z -> W -> option (Z * W)
}.
Arguments vo_find {W}. Arguments vo_release {W}. Arguments vo_checkperm {W}.
Arguments vo_opendir {W}. Arguments vo_open {W}. Arguments vo_close {W}.
Arguments vo_read {W}. Arguments vo_write {W}.

Record vfs (W : Type) := mk_vfs { lists : gmap Z fdlist; files : gmap Z filp; world : W }.
Arguments mk_vfs {W}. Arguments lists {W}. Arguments files {W}. Arguments world {W}.

(** [fdlist_extend]: [mem] says whether the allocations succeed. *)
Definition fdlist_extend (mem : bool) (row : Z) (list : fdlist) : Z * fdlist :=
  let orig_rows := fl_rows list in
  if row <=? orig_rows then (0, list)
  else if OPEN_MAX <? CONFIG_NFILE_DESCRIPTORS_PER_BLOCK * (orig_rows + 1) then (- EMFILE, list)
  else if negb mem then (- ENFILE, list)
  else (OK, mk_fdlist (u8 row)
              (take (Z.to_nat orig_rows) (fl_fds list) ++
               replicate (Z.to_nat (row - orig_rows)) empty_row)).

(** The slot of a descriptor, and the list with another one there. *)
Definition slot_at (list : fdlist) (l1 l2 : Z) : option fdslot :=
  row ← load (fl_fds list) l1; load row l2.
Definition slot_put (list : fdlist) (l1 l2 : Z) (f : fdslot) : option fdlist :=
  row ← load (fl_fds list) l1;
  row ← store row l2 f;
  fds ← store (fl_fds list) l1 row;
  Some (mk_fdlist (fl_rows list) fds).

Section files.
Context {W : Type} (ops : vfs_ops W).
Implicit Types s : vfs W.

Definition with_files s (f : gmap Z filp) : vfs W := mk_vfs (lists s) f (world s).
Definition with_list s (l : Z) (x : fdlist) : vfs W := mk_vfs (<[l := x]> (lists s)) (files s) (world s).
Definition with_world s (w : W) : vfs W := mk_vfs (lists s) (files s) w.

Definition upd_refs (a d : Z) s : option (vfs W) :=
  f ← files s !! a;
  Some (with_files s (<[a := mk_filp (fp_refs f + d) (fp_info f)]> (files s))).

Definition file_ref (a : Z) s : option (vfs W) := upd_refs a 1 s.

(** [file_close]; the caller frees the file. *)
Definition file_close (f : finfo) (w : W) : option (Z * W) :=
  if fp_inode f =? NULL then Some (OK, w)
  else
    '(ret, w) ← vo_close ops f w;
    if 0 <=? ret then w ← vo_release ops (fp_inode f) w; Some (ret, w)
    else Some (ret, w).

Definition file_put (a : Z) s : option (Z * vfs W) :=
  if a =? NULL then Some (0, s)
  else
    s ← upd_refs a (-1) s;
    f ← files s !! a;
    if fp_refs f =? 0 then
      '(ret, w) ← file_close (fp_info f) (world s);
      Some (ret, mk_vfs (lists s) (delete a (files s)) w)
    else Some (0, s).

(** [fdlist_get2]: the result and the file, with a reference for the caller. *)
Definition fdlist_get2 (l fd : Z) s : option (Z * Z * vfs W) :=
  list ← lists s !! l;
  if (fd <? 0) || (fdlist_count list <=? fd) then Some (- EBADF, NULL, s)
  else
    f ← slot_at list (fd / CONFIG_NFILE_DESCRIPTORS_PER_BLOCK) (fd mod CONFIG_NFILE_DESCRIPTORS_PER_BLOCK);
    if f_file f =? NULL then Some (- EBADF, NULL, s)
    else s ← upd_refs (f_file f) 1 s; Some (0, f_file f, s).

Definition fdlist_uninstall (l fd : Z) s : option (vfs W) :=
  list ← lists s !! l;
  let l1 := fd / CONFIG_NFILE_DESCRIPTORS_PER_BLOCK in
  let l2 := fd mod CONFIG_NFILE_DESCRIPTORS_PER_BLOCK in
  f ← slot_at list l1 l2;
  list ← slot_put list l1 l2 (mk_fdslot NULL (f_cloexec f));
  '(_, s) ← file_put (f_file f) (with_list s l list);
  Some s.

Definition fdlist_install (l fd a oflags : Z) s : option (vfs W) :=
  list ← lists s !! l;
  let l1 := fd / CONFIG_NFILE_DESCRIPTORS_PER_BLOCK in
  let l2 := fd mod CONFIG_NFILE_DESCRIPTORS_PER_BLOCK in
  f ← slot_at list l1 l2;
  list ← slot_put list l1 l2 (mk_fdslot a (has_flag oflags O_CLOEXEC));
  s ← file_ref a (with_list s l list);
  '(_, s) ← file_put (f_file f) s;
  Some s.

(** The search of [fdlist_dupfile] for a free slot from row [i] and column [j]
    on; a row behind the last one is added first.  [fuel] bounds the slots. *)
Fixpoint dupfile_loop (fuel : nat) (mem : bool) (oflags a i j : Z) (list : fdlist) :
    option (Z * fdlist) :=
  match fuel with
  | O => None
  | S fuel =>
      let '(ret, list) := if fl_rows list <=? i then fdlist_extend mem (i + 1) list else (0, list) in
      if ret <? 0 then Some (ret, list)
      else
        f ← slot_at list i j;
        if f_file f =? NULL then
          list ← slot_put list i j (mk_fdslot a (has_flag oflags O_CLOEXEC));
          Some (i * CONFIG_NFILE_DESCRIPTORS_PER_BLOCK + j, list)
        else if j + 1 <? CONFIG_NFILE_DESCRIPTORS_PER_BLOCK
             then dupfile_loop fuel mem oflags a i (j + 1) list
             else dupfile_loop fuel mem oflags a (i + 1) 0 list
  end.

Definition fdlist_dupfile (mem : bool) (l oflags minfd a : Z) s : option (Z * vfs W) :=
  list ← lists s !! l;
  '(ret, list) ← dupfile_loop (S (S (Z.to_nat (fdlist_count list)))) mem oflags a
                   (minfd / CONFIG_NFILE_DESCRIPTORS_PER_BLOCK)
                   (minfd mod CONFIG_NFILE_DESCRIPTORS_PER_BLOCK) list;
  let s := with_list s l list in
  if ret <? 0 then Some (ret, s) else s ← file_ref a s; Some (ret, s).

Definition fdlist_close (l fd : Z) s : option (Z * vfs W) :=
  '(ret, a, s) ← fdlist_get2 l fd s;
  if ret <? 0 then Some (ret, s)
  else s ← fdlist_uninstall l fd s; file_put a s.

Definition fdlist_dup3 (mem : bool) (l fd1 fd2 flags : Z) s : option (Z * vfs W) :=
  if fd1 =? fd2 then Some (- EINVAL, s)
  else if fd2 <? 0 then Some (- EBADF, s)
  else
    list ← lists s !! l;
    let '(ret, list) :=
      if fdlist_count list <=? fd2
      then fdlist_extend mem (fd2 / CONFIG_NFILE_DESCRIPTORS_PER_BLOCK + 1) list else (0, list) in
    let s := with_list s l list in
    if ret <? 0 then Some (ret, s)
    else
      '(ret, a, s) ← fdlist_get2 l fd1 s;
      if ret <? 0 then Some (ret, s)
      else
        s ← fdlist_install l fd2 a flags s;
        '(_, s) ← file_put a s;
        Some (fd2, s).

(** When the descriptors are equal, [file_get] looks it up in the list [cur] of
    the calling task. *)
Definition fdlist_dup2 (mem : bool) (cur l fd1 fd2 : Z) s : option (Z * vfs W) :=
  if fd1 =? fd2 then
    '(ret, a, s) ← fdlist_get2 cur fd1 s;
    if ret <? 0 then Some (ret, s) else '(_, s) ← file_put a s; Some (fd2, s)
  else fdlist_dup3 mem l fd1 fd2 0 s.

Definition dup (mem : bool) (l fd : Z) s : option (Z * vfs W) :=
  '(ret, a, s) ← fdlist_get2 l fd s;
  if ret <? 0 then Some (ret, s)
  else '(ret, s) ← fdlist_dupfile mem l 0 0 a s; '(_, s) ← file_put a s; Some (ret, s).

(** [fdlist_copy] to the list of a new task, from descriptor [fd] on for [n]
    descriptors; without spawn actions. *)
Fixpoint copy_loop (n : nat) (mem : bool) (p c fd : Z) (cloexec : bool) s : option (Z * vfs W) :=
  match n with
  | O => Some (OK, s)
  | S n =>
      plist ← lists s !! p;
      let l1 := fd / CONFIG_NFILE_DESCRIPTORS_PER_BLOCK in
      f ← slot_at plist l1 (fd mod CONFIG_NFILE_DESCRIPTORS_PER_BLOCK);
      if f_file f =? NULL then copy_loop n mem p c (fd + 1) cloexec s
      else
        s ← upd_refs (f_file f) 1 s;
        if cloexec && f_cloexec f then
          '(_, s) ← file_put (f_file f) s; copy_loop n mem p c (fd + 1) cloexec s
        else
          clist ← lists s !! c;
          let '(ret, clist) := fdlist_extend mem (l1 + 1) clist in
          let s := with_list s c clist in
          if ret <? 0 then '(_, s) ← file_put (f_file f) s; Some (ret, s)
          else
            s ← fdlist_install c fd (f_file f) 0 s;
            '(_, s) ← file_put (f_file f) s;
            copy_loop n mem p c (fd + 1) cloexec s
  end.
Definition fdlist_copy (mem : bool) (p c : Z) (cloexec : bool) s : option (Z * vfs W) :=
  plist ← lists s !! p;
  copy_loop (Z.to_nat (fdlist_count plist)) mem p c 0 cloexec s.

(** [fdlist_free]: the descriptors are closed from the last one down. *)
Fixpoint free_fds (n : nat) (l : Z) s : option (vfs W) :=
  match n with
  | O => Some s
  | S n => '(_, s) ← fdlist_close l (Z.of_nat n) s; free_fds n l s
  end.
Definition fdlist_free (l : Z) s : option (vfs W) :=
  list ← lists s !! l;
  s ← free_fds (Z.to_nat (fdlist_count list)) l s;
  Some (mk_vfs (delete l (lists s)) (files s) (world s)).

(** ** System calls *)

(** [file_vopen] on a path that is not null: the result and the file. *)
Definition file_vopen (path : list Z) (oflags : Z) (w : W) : option (Z * finfo * W) :=
  '(ret, i, w) ← vo_find ops path w;
  let f := mk_finfo oflags i NULL in
  if ret <? 0 then Some (ret, f, w)
  else
    let ret := vo_checkperm ops i oflags w in
    '(ret, f, w) ←
      (if ret <? 0 then Some (ret, f, w)
       else
         '(ret, f, w) ←
           (if has_flag oflags O_DIRECTORY then vo_opendir ops f w
            else '(ret, priv, w) ← vo_open ops i oflags w; Some (ret, mk_finfo oflags i priv, w));
         if (ret =? - EISDIR) && negb (has_flag oflags O_WRONLY) then vo_opendir ops f w
         else Some (ret, f, w));
    if ret <? 0 then w ← vo_release ops i w; Some (ret, f, w)
    else Some (ret, f, w).

(** [nx_vopen] with [a] the block allocated for the file. *)
Definition nx_vopen (mem : bool) (a : option Z) (l : Z) (path : list Z) (oflags : Z) s :
    option (Z * vfs W) :=
  match a with
  | None => Some (- ENOMEM, s)
  | Some a =>
      '(ret, f, w) ← file_vopen path oflags (world s);
      if ret <? 0 then Some (ret, with_world s w)
      else
        let s := mk_vfs (lists s) (<[a := mk_filp 0 f]> (files s)) w in
        '(fd, s) ← fdlist_dupfile mem l oflags 0 a s;
        if fd <? 0 then
          '(_, w) ← file_close f (world s);
          Some (fd, mk_vfs (lists s) (delete a (files s)) w)
        else Some (fd, s)
  end.

(** [file_readv] with one buffer of [len] bytes, null when [buf] is false. *)
Definition file_read (f : finfo) (buf : bool) (len : Z) (w : W) : option (Z * list Z * W) :=
  if negb buf && negb (len =? 0) then Some (- EFAULT, [], w)
  else if negb (has_flag (fp_oflags f) O_RDONLY) then Some (- EACCES, [], w)
  else if fp_inode f =? NULL then Some (- EBADF, [], w)
  else if len =? 0 then Some (0, [], w)
  else if 2 ^ 31 - 1 <? len then Some (- EINVAL, [], w)
  else vo_read ops f len w.

Definition nx_read (l fd : Z) (buf : bool) (len : Z) s : option (Z * list Z * vfs W) :=
  '(ret, a, s) ← fdlist_get2 l fd s;
  if ret <? 0 then Some (ret, [], s)
  else
    f ← files s !! a;
    '(ret, data, w) ← file_read (fp_info f) buf len (world s);
    '(_, s) ← file_put a (with_world s w);
    Some (ret, data, s).

Definition file_write (f : finfo) (data : list Z) (w : W) : option (Z * W) :=
  if negb (has_flag (fp_oflags f) O_WRONLY) then Some (- EACCES, w)
  else if fp_inode f =? NULL then Some (- EBADF, w)
  else if zlen data =? 0 then Some (0, w)
  else if 2 ^ 31 - 1 <? zlen data then Some (- EINVAL, w)
  else vo_write ops f data w.

Definition nx_write (l fd : Z) (data : list Z) s : option (Z * vfs W) :=
  '(ret, a, s) ← fdlist_get2 l fd s;
  if ret <? 0 then Some (ret, s)
  else
    f ← files s !! a;
    '(ret, w) ← file_write (fp_info f) data (world s);
    '(_, s) ← file_put a (with_world s w);
    Some (ret, s).

(** [nx_vioctl] with a command for the driver, whose operation is [ioctl]; [none]
    is what is stored for the caller when there is no such descriptor. *)
Definition nx_ioctl {A} (none : A) (ioctl : finfo -> W -> option (Z * A * W)) (l fd : Z) s :
    option (Z * A * vfs W) :=
  '(ret, a, s) ← fdlist_get2 l fd s;
  if ret <? 0 then Some (ret, none, s)
  else
    f ← files s !! a;
    '(ret, out, w) ← ioctl (fp_info f) (world s);
    '(_, s) ← file_put a (with_world s w);
    Some (ret, out, s).
End files.

(** ** Descriptor lists *)

Definition PB : Z := CONFIG_NFILE_DESCRIPTORS_PER_BLOCK.

Record list_ok (x : fdlist) : Prop := {
  lo_len : zlen (fl_fds x) = fl_rows x;
  lo_rows : 1 <= fl_rows x <= 32;
  lo_row : Forall (fun r => zlen r = PB) (fl_fds x)
}.

Lemma row_load x l1 :
  list_ok x -> 0 <= l1 < fl_rows x -> exists r, load (fl_fds x) l1 = Some r /\ zlen r = PB.
Proof.
  intros [Hl Hr Hrow] H. destruct (load_in_range (fl_fds x) l1) as [r E]; [lia|].
  exists r. split; [done|]. apply load_Some in E as [_ E].
  by apply (Forall_lookup_1 _ _ _ _ Hrow E).
Qed.

Lemma fd_split fd : 0 <= fd -> 0 <= fd / PB /\ 0 <= fd mod PB < PB /\ fd = PB * (fd / PB) + fd mod PB.
Proof. unfold PB, CONFIG_NFILE_DESCRIPTORS_PER_BLOCK. intros. zlia. Qed.

Lemma slot_at_some x fd :
  list_ok x -> 0 <= fd < fdlist_count x -> is_Some (slot_at x (fd / PB) (fd mod PB)).
Proof.
  intros Hx Hfd. destruct (fd_split fd) as (H1 & H2 & H3); [lia|]. unfold fdlist_count in Hfd.
  destruct (row_load x (fd / PB) Hx) as (r & E & Hr); [unfold PB, CONFIG_NFILE_DESCRIPTORS_PER_BLOCK in *; lia|].
  unfold slot_at. rewrite E. simpl. apply load_in_range. lia.
Qed.

Lemma slot_put_spec x fd f :
  list_ok x -> 0 <= fd < fdlist_count x ->
  exists x', slot_put x (fd / PB) (fd mod PB) f = Some x' /\ list_ok x' /\ fl_rows x' = fl_rows x /\
    forall g, 0 <= g < fdlist_count x ->
      slot_at x' (g / PB) (g mod PB) = if g =? fd then Some f else slot_at x (g / PB) (g mod PB).
Proof.
  intros Hx Hfd. destruct (fd_split fd) as (H1 & H2 & H3); [lia|]. unfold fdlist_count in *.
  change CONFIG_NFILE_DESCRIPTORS_PER_BLOCK with PB in *.
  assert (0 <= fd / PB < fl_rows x) as Hrow by (unfold PB, CONFIG_NFILE_DESCRIPTORS_PER_BLOCK in *; lia).
  destruct (row_load x (fd / PB) Hx Hrow) as (r & E & Hr). unfold slot_put. rewrite E.
  cbn [mbind option_bind]. rewrite store_in_range by lia. cbn [mbind option_bind].
  pose proof (lo_len _ Hx) as Hl. rewrite store_in_range by lia. cbn [mbind option_bind].
  eexists. split; [reflexivity|]. split; [|split; [done|]].
  - constructor; simpl.
    + by rewrite length_insert.
    + apply Hx.
    + apply Forall_insert; [apply Hx|]. by rewrite length_insert.
  - intros g Hg. destruct (fd_split g) as (G1 & G2 & G3); [lia|].
    assert (0 <= g / PB < fl_rows x) as Hgr by (unfold PB, CONFIG_NFILE_DESCRIPTORS_PER_BLOCK in *; lia).
    unfold slot_at, load. simpl. rewrite length_insert.
    replace ((0 <=? g / PB) && (g / PB <? zlen (fl_fds x))) with true by lia.
    apply load_Some in E as [_ E].
    destruct (decide (g / PB = fd / PB)) as [Eq|Hne].
    + rewrite Eq, list_lookup_insert_eq by lia. rewrite E. simpl. rewrite length_insert.
      replace ((0 <=? g mod PB) && (g mod PB <? zlen r)) with true by lia.
      destruct (Z.eqb_spec g fd) as [->|Hgf]; [by rewrite list_lookup_insert_eq by lia|].
      rewrite list_lookup_insert_ne; [done|]. rewrite Eq in G3. lia.
    + rewrite list_lookup_insert_ne by lia. destruct (Z.eqb_spec g fd) as [->|Hgf]; [lia|done].
Qed.

Lemma extend_spec mem row x ret x' :
  fdlist_extend mem row x = (ret, x') -> list_ok x -> row <= 32 ->
  (ret < 0 /\ x' = x /\ mem = false) \/
  (ret = 0 /\ list_ok x' /\ fl_rows x' = Z.max (fl_rows x) row /\
   forall g, 0 <= g < fdlist_count x' ->
     slot_at x' (g / PB) (g mod PB) =
     if g <? fdlist_count x then slot_at x (g / PB) (g mod PB) else Some (mk_fdslot NULL false)).
Proof.
  unfold fdlist_extend. intros E Hx Hr. pose proof Hx as [Hl Hrows Hrow].
  destruct (Z.leb_spec row (fl_rows x)).
  { injection E as <- <-. right. split; [done|]. split; [done|]. split; [lia|]. intros g Hg.
    by replace (g <? fdlist_count x) with true by lia. }
  replace (OPEN_MAX <? _) with false in E
    by (unfold OPEN_MAX, CONFIG_NFILE_DESCRIPTORS_PER_BLOCK; lia).
  destruct mem; cbn [negb] in E; [|injection E as <- <-; by left].
  injection E as <- <-. right. split; [done|]. rewrite take_ge by lia.
  assert (u8 row = row) as Hu by (apply u8_small; lia).
  assert (zlen empty_row = PB) as He by done.
  split; [|split; [simpl; lia|]].
  - constructor; simpl.
    + rewrite length_app, length_replicate. lia.
    + lia.
    + apply Forall_app. split; [done|]. by apply Forall_replicate.
  - unfold fdlist_count. cbn [fl_rows]. rewrite Hu. intros g Hg.
    destruct (fd_split g) as (G1 & G2 & G3); [lia|].
    change CONFIG_NFILE_DESCRIPTORS_PER_BLOCK with PB in *.
    unfold slot_at, load. cbn [fl_fds]. rewrite length_app, length_replicate.
    assert (0 <= g / PB < row) as Hgr by (unfold PB, CONFIG_NFILE_DESCRIPTORS_PER_BLOCK in *; lia).
    replace (Z.of_nat (length (fl_fds x) + Z.to_nat (row - fl_rows x))) with row by (clear -Hl H; lia).
    replace ((0 <=? g / PB) && (g / PB <? row)) with true
      by (clear -Hgr; generalize dependent (g / PB); lia).
    destruct (Z.ltb_spec g (fl_rows x * PB)).
    + assert (g / PB < fl_rows x) by (unfold PB, CONFIG_NFILE_DESCRIPTORS_PER_BLOCK in *; lia).
      rewrite lookup_app_l by lia. by replace ((0 <=? g / PB) && _) with true by lia.
    + assert (fl_rows x <= g / PB) by (unfold PB, CONFIG_NFILE_DESCRIPTORS_PER_BLOCK in *; lia).
      rewrite lookup_app_r by lia. rewrite lookup_replicate_2 by lia. cbn [mbind option_bind].
      rewrite He. replace ((0 <=? g mod PB) && _) with true by lia.
      apply lookup_replicate_2. unfold PB in *. lia.
Qed.

(** What a descriptor names. *)
Definition sview (f : fdslot) : option (Z * bool) :=
  if f_file f =? NULL then None else Some (f_file f, f_cloexec f).
Definition lview (x : fdlist) (fd : Z) : option (Z * bool) :=
  if (0 <=? fd) && (fd <? fdlist_count x) then slot_at x (fd / PB) (fd mod PB) ≫= sview else None.

Lemma lview_extend mem row x ret x' :
  fdlist_extend mem row x = (ret, x') -> list_ok x -> row <= 32 ->
  list_ok x' /\ (forall g, lview x' g = lview x g) /\
  ((ret < 0 /\ x' = x /\ mem = false) \/ (ret = 0 /\ fl_rows x' = Z.max (fl_rows x) row)).
Proof.
  intros E Hx Hr. destruct (extend_spec _ _ _ _ _ E Hx Hr) as [(? & -> & ?)|(? & Hx' & Hrows & Hs)].
  { split; [done|]. split; [done|]. by left. }
  split; [done|]. split; [|by right]. intros g. unfold lview.
  assert (fdlist_count x <= fdlist_count x') as Hc
    by (unfold fdlist_count, CONFIG_NFILE_DESCRIPTORS_PER_BLOCK; lia).
  destruct (Z.leb_spec 0 g); simpl; [|done].
  destruct (Z.ltb_spec g (fdlist_count x')).
  - rewrite Hs by lia. by destruct (g <? fdlist_count x).
  - by replace (g <? fdlist_count x) with false by lia.
Qed.

Lemma lview_put x fd f :
  list_ok x -> 0 <= fd < fdlist_count x ->
  exists x', slot_put x (fd / PB) (fd mod PB) f = Some x' /\ list_ok x' /\ fl_rows x' = fl_rows x /\
    forall g, lview x' g = if g =? fd then sview f else lview x g.
Proof.
  intros Hx Hfd. destruct (slot_put_spec x fd f Hx Hfd) as (x' & E & Hx' & Hr & Hs).
  exists x'. split; [done|]. split; [done|]. split; [done|]. intros g. unfold lview.
  assert (fdlist_count x' = fdlist_count x) as Hc by (unfold fdlist_count; by rewrite Hr).
  rewrite Hc. destruct (Z.eqb_spec g fd) as [->|Hg].
  - replace ((0 <=? fd) && (fd <? fdlist_count x)) with true by lia.
    rewrite Hs by lia. by rewrite Z.eqb_refl.
  - destruct ((0 <=? g) && (g <? fdlist_count x)) eqn:Eg; [|done]. zbool. rewrite Hs by lia.
    by replace (g =? fd) with false by lia.
Qed.

Lemma lview_at x fd v :
  list_ok x -> 0 <= fd < fdlist_count x -> lview x fd = v ->
  exists f, slot_at x (fd / PB) (fd mod PB) = Some f /\ sview f = v.
Proof.
  intros Hx Hfd Hv. destruct (slot_at_some x fd Hx Hfd) as [f Ef]. exists f. split; [done|].
  unfold lview in Hv. replace ((0 <=? fd) && (fd <? fdlist_count x)) with true in Hv by lia.
  by rewrite Ef in Hv.
Qed.

Lemma lview_range x fd v : lview x fd = Some v -> 0 <= fd < fdlist_count x.
Proof. unfold lview. destruct (_ && _) eqn:E; [|done]. zbool. lia. Qed.

(** ** The table of descriptors

    The specification: for each task and descriptor the file it names and its
    close-on-exec flag, what is known of each open file, and the drivers. *)

Abbreviation ftab := (gmap (Z * Z) (Z * bool)).

Definition names_file (a : Z) (kv : (Z * Z) * (Z * bool)) : Prop := kv.2.1 = a.
#[export] Instance names_file_dec a kv : Decision (names_file a kv).
Proof. unfold names_file. apply _. Defined.

(** How many descriptors name a file. *)
Definition count (a : Z) (tb : ftab) : nat := size (filter (names_file a) tb).

Lemma count_insert a tb k v :
  tb !! k = None -> count a (<[k := v]> tb) = ((if decide (v.1 = a) then 1 else 0) + count a tb)%nat.
Proof.
  intros Hk. unfold count. rewrite map_filter_insert. unfold names_file at 1. simpl.
  assert (filter (names_file a) tb !! k = None) as Hf by (by apply map_lookup_filter_None_2; left).
  case_decide as Hv.
  - rewrite map_size_insert_None by done. by rewrite decide_True.
  - rewrite delete_id by done. by rewrite decide_False.
Qed.

Lemma count_delete a tb k v :
  tb !! k = Some v -> count a tb = ((if decide (v.1 = a) then 1 else 0) + count a (delete k tb))%nat.
Proof.
  intros Hk. rewrite <- (insert_delete_id tb k v) at 1 by done. apply count_insert.
  apply lookup_delete_eq.
Qed.

Lemma count_pos a tb : (0 < count a tb)%nat <-> exists k c, tb !! k = Some (a, c).
Proof.
  split.
  - intros H. destruct (map_choose (filter (names_file a) tb)) as (k & v & Hk).
    { intros E. unfold count in H. rewrite E, map_size_empty in H. lia. }
    apply map_lookup_filter_Some in Hk as [Hk Hv]. destruct v as [b c]. compute in Hv. subst b. by exists k, c.
  - intros (k & c & Hk). rewrite (count_delete a tb k (a, c) Hk). rewrite decide_True by done. lia.
Qed.

Section refs.
Context {W : Type} (ops : vfs_ops W).
Implicit Types s : vfs W.

Definition slot_of s (l fd : Z) : option (Z * bool) := x ← lists s !! l; lview x fd.

(** [ex] are the references that calls under way hold. *)
Record frel (s : vfs W) (tb : ftab) (fi : gmap Z finfo) (ex : Z -> nat) : Prop := {
  fr_lists : forall l x, lists s !! l = Some x -> list_ok x;
  fr_tab : forall l fd, tb !! (l, fd) = slot_of s l fd;
  fr_info : forall a, fi !! a = fp_info <$> files s !! a;
  fr_refs : forall a f, files s !! a = Some f -> fp_refs f = Z.of_nat (count a tb + ex a);
  fr_named : forall k a c, tb !! k = Some (a, c) -> is_Some (files s !! a);
  fr_held : forall a, (0 < ex a)%nat -> is_Some (files s !! a);
  fr_null : files s !! NULL = None
}.

Definition none : Z -> nat := fun _ => O.
Definition more (ex : Z -> nat) (a : Z) : Z -> nat := fun b => if decide (b = a) then S (ex b) else ex b.
Definition less (ex : Z -> nat) (a : Z) : Z -> nat := fun b => if decide (b = a) then pred (ex b) else ex b.

Lemma frel_ext s tb fi ex ex' : (forall a, ex a = ex' a) -> frel s tb fi ex -> frel s tb fi ex'.
Proof. intros He []. constructor; try done; intros; rewrite <- ?He in *; eauto. Qed.

Lemma less_more ex a b : less (more ex a) a b = ex b.
Proof. unfold less, more. by case_decide. Qed.

Lemma frel_world s tb fi ex w : frel s tb fi ex -> frel (with_world s w) tb fi ex.
Proof. intros []. by constructor. Qed.

(** What a call that lets a reference go does: the last one closes the file. *)
Definition close_spec (a : Z) (n : nat) (tb : ftab) (fi : gmap Z finfo) (w : W) :
    option (Z * gmap Z finfo * W) :=
  if (n =? 0)%nat && (count a tb =? 0)%nat then
    i ← fi !! a; '(ret, w) ← file_close ops i w; Some (ret, delete a fi, w)
  else Some (0, fi, w).

Lemma ref_step s tb fi ex a :
  frel s tb fi ex -> is_Some (files s !! a) ->
  exists s', upd_refs a 1 s = Some s' /\ frel s' tb fi (more ex a) /\ world s' = world s /\
    lists s' = lists s.
Proof.
  intros Hr [f Hf]. unfold upd_refs. rewrite Hf. cbn [mbind option_bind]. eexists.
  split; [reflexivity|]. split; [|done]. destruct Hr as [H1 H2 H3 H4 H5 H6 H7].
  constructor; simpl; try done.
  - intros b. rewrite H3. destruct (decide (b = a)) as [->|Hb].
    + by rewrite lookup_insert_eq, Hf.
    + by rewrite lookup_insert_ne.
  - intros b g. unfold more. destruct (decide (b = a)) as [->|Hb].
    + rewrite lookup_insert_eq. intros [= <-]. simpl. rewrite (H4 a f Hf). lia.
    + rewrite lookup_insert_ne by done. apply H4.
  - intros k b c Hk. destruct (H5 k b c Hk) as [g Hg]. destruct (decide (b = a)) as [->|Hb].
    + by rewrite lookup_insert_eq.
    + rewrite lookup_insert_ne by done. by exists g.
  - intros b Hb. destruct (decide (b = a)) as [->|Hba]; [by rewrite lookup_insert_eq|].
    rewrite lookup_insert_ne by done. apply H6. unfold more in Hb. by rewrite decide_False in Hb.
  - rewrite lookup_insert_ne; [done|]. intros ->. by rewrite Hf in H7.
Qed.

Lemma put_step s tb fi ex a :
  frel s tb fi ex -> (0 < ex a)%nat ->
  match close_spec a (pred (ex a)) tb fi (world s) with
  | None => file_put ops a s = None
  | Some (ret, fi', w) => exists s', file_put ops a s = Some (ret, s') /\
      frel s' tb fi' (less ex a) /\ world s' = w /\ lists s' = lists s
  end.
Proof.
  intros Hr Ha. destruct (fr_held _ _ _ _ Hr a Ha) as [f Hf]. pose proof Hr as [H1 H2 H3 H4 H5 H6 H7].
  pose proof (H4 a f Hf) as Hrefs. unfold file_put.
  replace (a =? NULL) with false by (symmetry; apply Z.eqb_neq; intros ->; by rewrite Hf in H7).
  unfold upd_refs. rewrite Hf. cbn [mbind option_bind files with_files]. rewrite lookup_insert_eq.
  cbn [mbind option_bind fp_refs]. unfold close_spec. rewrite H3, Hf. cbn [fmap option_fmap mbind option_bind].
  replace (fp_refs f + -1 =? 0) with ((pred (ex a) =? 0)%nat && (count a tb =? 0)%nat).
  2:{ destruct (Nat.eqb_spec (pred (ex a)) 0), (Nat.eqb_spec (count a tb) 0),
        (Z.eqb_spec (fp_refs f + -1) 0); simpl; lia || done. }
  destruct ((pred (ex a) =? 0)%nat && (count a tb =? 0)%nat) eqn:El.
  - apply andb_true_iff in El as [E1%Nat.eqb_eq E2%Nat.eqb_eq].
    simpl option_map. cbn [mbind option_bind fp_info].
    change (world (with_files s _)) with (world s).
    destruct (file_close ops (fp_info f) (world s)) as [[ret w]|]; [|done].
    cbn [mbind option_bind]. eexists. split; [reflexivity|]. split; [|done]. constructor; simpl; try done.
    + intros b. destruct (decide (b = a)) as [->|Hb]; [by rewrite !lookup_delete_eq|].
      rewrite !lookup_delete_ne by done. rewrite lookup_insert_ne by done. apply H3.
    + intros b g Hg. destruct (decide (b = a)) as [->|Hb]; [by rewrite lookup_delete_eq in Hg|].
      rewrite lookup_delete_ne, lookup_insert_ne in Hg by done. unfold less.
      rewrite decide_False by done. by apply H4.
    + intros k b c Hk. assert (b <> a) as Hb.
      { intros ->. assert (0 < count a tb)%nat by (apply count_pos; by exists k, c). lia. }
      rewrite lookup_delete_ne, lookup_insert_ne by done. by eapply H5.
    + intros b. unfold less. case_decide as Hb; [subst; lia|]. intros Hp.
      rewrite lookup_delete_ne, lookup_insert_ne by done. by apply H6.
    + rewrite lookup_delete_ne, lookup_insert_ne; [done| |]; intros ->; by rewrite Hf in H7.
  - eexists. split; [reflexivity|]. split; [|done]. constructor; simpl; try done.
    + intros b. rewrite H3. destruct (decide (b = a)) as [->|Hb].
      * by rewrite lookup_insert_eq, Hf.
      * by rewrite lookup_insert_ne.
    + intros b g. unfold less. destruct (decide (b = a)) as [->|Hb].
      * rewrite lookup_insert_eq. intros [= <-]. simpl. lia.
      * rewrite lookup_insert_ne by done. apply H4.
    + intros k b c Hk. destruct (decide (b = a)) as [->|Hb]; [by rewrite lookup_insert_eq|].
      rewrite lookup_insert_ne by done. by eapply H5.
    + intros b. unfold less. destruct (decide (b = a)) as [->|Hb]; [by rewrite lookup_insert_eq|].
      rewrite lookup_insert_ne by done. apply H6.
    + rewrite lookup_insert_ne; [done|]. intros ->. by rewrite Hf in H7.
Qed.

Lemma get_step s tb fi ex l fd :
  frel s tb fi ex -> is_Some (lists s !! l) ->
  match tb !! (l, fd) with
  | None => fdlist_get2 l fd s = Some (- EBADF, NULL, s)
  | Some (a, _) => exists s', fdlist_get2 l fd s = Some (0, a, s') /\ frel s' tb fi (more ex a) /\
      world s' = world s /\ lists s' = lists s
  end.
Proof.
  intros Hr [x Hx]. pose proof (fr_lists _ _ _ _ Hr l x Hx) as Hok.
  pose proof (fr_tab _ _ _ _ Hr l fd) as Ht. unfold slot_of in Ht. rewrite Hx in Ht. simpl in Ht.
  unfold fdlist_get2. rewrite Hx. cbn [mbind option_bind].
  destruct ((fd <? 0) || (fdlist_count x <=? fd)) eqn:E.
  { replace (lview x fd) with (@None (Z * bool)) in Ht; [by rewrite Ht|]. unfold lview.
    replace ((0 <=? fd) && (fd <? fdlist_count x)) with false; [done|].
    symmetry. zbool. apply andb_false_iff. destruct E; [left|right]; lia. }
  zbool. destruct (lview_at x fd (lview x fd) Hok) as (f & Ef & Ev); [lia|done|].
  rewrite <- Ev in Ht. change CONFIG_NFILE_DESCRIPTORS_PER_BLOCK with PB. rewrite Ef.
  cbn [mbind option_bind]. unfold sview in Ht. destruct (f_file f =? NULL); [by rewrite Ht|].
  rewrite Ht. destruct (ref_step s tb fi ex (f_file f) Hr) as (s' & Es & Hr' & Hw & Hl).
  { by eapply fr_named. }
  rewrite Es. by exists s'.
Qed.

(** A slot is written: the reference of the old file goes to the call, and one
    that the call held on the new file is now that of the slot. *)
Lemma slot_step s tb fi ex l fd x f x' :
  frel s tb fi ex -> lists s !! l = Some x -> list_ok x' ->
  (forall g, lview x' g = if g =? fd then sview f else lview x g) ->
  (f_file f <> NULL -> (0 < ex (f_file f))%nat) ->
  let tb' := match sview f with Some v => <[(l, fd) := v]> (delete (l, fd) tb)
             | None => delete (l, fd) tb end in
  let ex1 := match sview f with Some (b, _) => less ex b | None => ex end in
  frel (with_list s l x') tb' fi
    (match tb !! (l, fd) with Some (a, _) => more ex1 a | None => ex1 end).
Proof.
  intros Hr Hx Hok Hv Hf tb' ex1. pose proof Hr as [H1 H2 H3 H4 H5 H6 H7].
  assert (forall k, tb' !! k = if decide (k = (l, fd)) then sview f else tb !! k) as Htb.
  { intros k. unfold tb'. destruct (sview f) as [v|]; case_decide as Hk.
    - subst k. apply lookup_insert_eq.
    - rewrite lookup_insert_ne by done. by apply lookup_delete_ne.
    - subst k. apply lookup_delete_eq.
    - by apply lookup_delete_ne. }
  assert (forall a, (count a tb' + (match tb !! (l, fd) with Some (b, _) => more ex1 b | None => ex1 end) a
                     = count a tb + ex a)%nat) as Hcnt.
  { intros a.
    assert (count a tb' = ((match sview f with Some v => if decide (v.1 = a) then 1 else 0 | None => 0 end)
                           + count a (delete (l, fd) tb)))%nat as ->.
    { unfold tb'. destruct (sview f); [|done]. apply count_insert, lookup_delete_eq. }
    assert (ex a = ((match sview f with Some v => if decide (v.1 = a) then 1 else 0 | None => 0 end)
                    + ex1 a))%nat as ->.
    { unfold ex1, sview in *. destruct (Z.eqb_spec (f_file f) NULL) as [_|Hn]; [done|].
      simpl. unfold less. specialize (Hf Hn). do 2 case_decide; subst; try done. lia. }
    destruct (tb !! (l, fd)) as [[b c]|] eqn:Eo.
    - rewrite (count_delete a tb _ _ Eo). simpl. unfold more. do 2 case_decide; subst; try done; lia.
    - rewrite (delete_id tb) by done. lia. }
  constructor; simpl; try done.
  - intros l' y. rewrite lookup_insert_Some. intros [[<- <-]|[_ ?]]; [done|by eapply H1].
  - intros l' g. rewrite Htb. unfold slot_of. simpl. destruct (decide (l' = l)) as [->|Hl].
    + rewrite lookup_insert_eq. simpl. rewrite Hv. pose proof (H2 l g) as Hg. unfold slot_of in Hg.
      rewrite Hx in Hg. simpl in Hg. destruct (Z.eqb_spec g fd) as [->|Hgf].
      * by rewrite decide_True.
      * rewrite decide_False; [done|]. by intros [= ->].
    + rewrite lookup_insert_ne by done. rewrite decide_False; [apply H2|]. by intros [= -> _].
  - intros a g Hg. rewrite Hcnt. by apply H4.
  - intros k a c. rewrite Htb. case_decide as Hk; [|apply H5].
    unfold sview in *. destruct (Z.eqb_spec (f_file f) NULL); [done|]. intros [= <- _]. apply H6, Hf, n.
  - intros a Ha. destruct (decide (0 < ex a)%nat) as [He|He]; [by apply H6|].
    assert (0 < count a tb)%nat as Hc.
    { pose proof (Hcnt a). lia. }
    apply count_pos in Hc as (k & c & Hk). by eapply H5.
Qed.

(** *** Closing *)

Lemma uninstall_step s tb fi ex l fd a c :
  frel s tb fi ex -> tb !! (l, fd) = Some (a, c) ->
  match close_spec a (ex a) (delete (l, fd) tb) fi (world s) with
  | None => fdlist_uninstall ops l fd s = None
  | Some (ret, fi', w) => exists s', fdlist_uninstall ops l fd s = Some s' /\
      frel s' (delete (l, fd) tb) fi' ex /\ world s' = w /\ dom (lists s') = dom (lists s)
  end.
Proof.
  intros Hr Hk. pose proof (fr_tab _ _ _ _ Hr l fd) as Ht. rewrite Hk in Ht. unfold slot_of in Ht.
  destruct (lists s !! l) as [x|] eqn:Hx; [|done]. simpl in Ht. symmetry in Ht.
  pose proof (fr_lists _ _ _ _ Hr l x Hx) as Hok. pose proof (lview_range _ _ _ Ht) as Hfd.
  destruct (lview_at x fd _ Hok Hfd Ht) as (f & Ef & Ev).
  destruct (lview_put x fd (mk_fdslot NULL (f_cloexec f)) Hok Hfd) as (x' & Ep & Hok' & _ & Hv).
  pose proof (slot_step s tb fi ex l fd x _ x' Hr Hx Hok' Hv) as Hr1. simpl in Hr1. rewrite Hk in Hr1.
  specialize (Hr1 ltac:(done)).
  unfold fdlist_uninstall. rewrite Hx. cbn [mbind option_bind].
  change CONFIG_NFILE_DESCRIPTORS_PER_BLOCK with PB. rewrite Ef. cbn [mbind option_bind].
  rewrite Ep. cbn [mbind option_bind].
  assert (f_file f = a) as ->.
  { unfold sview in Ev. by destruct (f_file f =? NULL); simplify_eq. }
  assert (more ex a a = S (ex a)) as Hm by (unfold more; by rewrite decide_True).
  pose proof (put_step _ _ _ _ a Hr1) as Hp. rewrite Hm in Hp. specialize (Hp ltac:(lia)).
  simpl in Hp. destruct (close_spec a (ex a) _ fi (world s)) as [[[ret fi'] w]|]; [|by rewrite Hp].
  destruct Hp as (s' & Es & Hr2 & Hw & Hl). rewrite Es. cbn [mbind option_bind]. exists s'.
  split; [done|]. split; [|split; [done|]].
  - eapply frel_ext; [|exact Hr2]. intros b. apply less_more.
  - rewrite Hl. simpl. rewrite dom_insert_L. apply elem_of_dom_2 in Hx. set_solver.
Qed.

Lemma close_step s tb fi l fd :
  frel s tb fi none -> is_Some (lists s !! l) ->
  match tb !! (l, fd) with
  | None => fdlist_close ops l fd s = Some (- EBADF, s)
  | Some (a, _) =>
      match close_spec a 0 (delete (l, fd) tb) fi (world s) with
      | None => fdlist_close ops l fd s = None
      | Some (ret, fi', w) => exists s', fdlist_close ops l fd s = Some (ret, s') /\
          frel s' (delete (l, fd) tb) fi' none /\ world s' = w /\ dom (lists s') = dom (lists s)
      end
  end.
Proof.
  intros Hr Hl. pose proof (get_step s tb fi none l fd Hr Hl) as Hg. unfold fdlist_close.
  destruct (tb !! (l, fd)) as [[a c]|] eqn:Hk; [|by rewrite Hg].
  destruct Hg as (s1 & Eg & Hr1 & Hw1 & Hl1). rewrite Eg. cbn [mbind option_bind]. simpl.
  pose proof (uninstall_step s1 tb fi _ l fd a c Hr1 Hk) as Hu.
  assert (more none a a = 1%nat) as Hm by (unfold more, none; by rewrite decide_True).
  rewrite Hm in Hu. unfold close_spec at 1 in Hu. simpl in Hu.
  destruct Hu as (s2 & Eu & Hr2 & Hw2 & Hl2). rewrite Eu. cbn [mbind option_bind].
  pose proof (put_step s2 _ fi _ a Hr2) as Hp. rewrite Hm in Hp. specialize (Hp ltac:(lia)).
  simpl in Hp. rewrite Hw2, Hw1 in Hp.
  destruct (close_spec a 0 _ fi (world s)) as [[[ret fi'] w]|]; [|done].
  destruct Hp as (s3 & Ep & Hr3 & Hw3 & Hl3). exists s3. split; [done|]. split; [|split; [done|]].
  - eapply frel_ext; [|exact Hr3]. intros b. apply less_more.
  - by rewrite Hl3, Hl2, Hl1.
Qed.

(** *** A free descriptor *)

(** The first free descriptor from [from] on now names [a], or there was none and
    there could be no more rows. *)
Definition took (mem : bool) (x : fdlist) (from a : Z) (c : bool) (ret : Z) (x' : fdlist) : Prop :=
  list_ok x' /\
  ((ret < 0 /\ x' = x /\ (mem = false \/ fl_rows x = 32) /\
    forall g, from <= g < fdlist_count x -> lview x g <> None) \/
   (from <= ret /\ (forall g, from <= g < ret -> lview x g <> None) /\ lview x ret = None /\
    forall g, lview x' g = if g =? ret then Some (a, c) else lview x g)).

Lemma count_PB x : fdlist_count x = PB * fl_rows x.
Proof. unfold fdlist_count. change CONFIG_NFILE_DESCRIPTORS_PER_BLOCK with PB. lia. Qed.

Lemma slot_pos i j : 0 <= j < PB -> (PB * i + j) / PB = i /\ (PB * i + j) mod PB = j.
Proof. unfold PB, CONFIG_NFILE_DESCRIPTORS_PER_BLOCK. zlia. Qed.

(** The slot at row [i] and column [j] is free; [y] is [x] with rows added. *)
Lemma take_slot mem x y f i j a c :
  list_ok y -> (forall g, lview y g = lview x g) -> 0 <= i -> 0 <= j < PB ->
  PB * i + j < fdlist_count y -> slot_at y i j = Some f -> f_file f = NULL -> a <> NULL ->
  exists ret x', (l ← slot_put y i j (mk_fdslot a c); Some (i * PB + j, l)) = Some (ret, x') /\
    took mem x (PB * i + j) a c ret x'.
Proof.
  intros Hy Hvy Hi Hj Hc Ef Hf Ha. destruct (slot_pos i j Hj) as [Hdiv Hmod].
  assert (sview (mk_fdslot a c) = Some (a, c)) as Hsv
    by (unfold sview; simpl; by replace (a =? NULL) with false by (symmetry; by apply Z.eqb_neq)).
  destruct (lview_put y (PB * i + j) (mk_fdslot a c) Hy) as (x' & Ep & Hok' & _ & Hv).
  { unfold PB, CONFIG_NFILE_DESCRIPTORS_PER_BLOCK in *. lia. }
  rewrite Hdiv, Hmod in Ep. rewrite Ep. eexists _, x'. split; [reflexivity|]. split; [done|]. right.
  replace (i * PB + j) with (PB * i + j) by lia. split; [lia|]. split; [intros; lia|]. split.
  - rewrite <- Hvy. unfold lview. rewrite Hdiv, Hmod, Ef. simpl. unfold sview. rewrite Hf. simpl.
    by destruct (_ && _).
  - intros g. rewrite Hv, Hsv. by rewrite Hvy.
Qed.

Lemma dupfile_loop_spec mem oflags a fuel : forall i j x,
  list_ok x -> 0 <= i <= fl_rows x -> 0 <= j < PB -> (i = fl_rows x -> j = 0) ->
  PB * fl_rows x + 1 < Z.of_nat fuel + (PB * i + j) -> a <> NULL ->
  exists ret x', dupfile_loop fuel mem oflags a i j x = Some (ret, x') /\
    took mem x (PB * i + j) a (has_flag oflags O_CLOEXEC) ret x'.
Proof.
  induction fuel as [|fuel IH]; intros i j x Hok Hi Hj Hij Hfuel Ha.
  { exfalso. assert (i = fl_rows x \/ i < fl_rows x) as [->|?] by lia.
    - rewrite Hij in Hfuel by done. lia.
    - unfold PB, CONFIG_NFILE_DESCRIPTORS_PER_BLOCK in *. lia. }
  cbn [dupfile_loop]. change CONFIG_NFILE_DESCRIPTORS_PER_BLOCK with PB.
  destruct (slot_pos i j Hj) as [Hdiv Hmod].
  destruct (Z.leb_spec (fl_rows x) i) as [Hge|Hlt].
  - assert (i = fl_rows x) as -> by lia. rewrite (Hij eq_refl) in *. pose proof (lo_rows _ Hok) as Hrows.
    destruct (fdlist_extend mem (fl_rows x + 1) x) as [ret y] eqn:Ee.
    destruct (decide (fl_rows x = 32)) as [H32|H32].
    { unfold fdlist_extend in Ee. rewrite H32 in Ee. simpl in Ee. injection Ee as <- <-.
      eexists _, _. split; [reflexivity|]. split; [done|]. left. split; [done|]. split; [done|].
      split; [by right|]. rewrite count_PB. lia. }
    destruct (lview_extend _ _ _ _ _ Ee Hok) as (Hy & Hvy & [(Hr & -> & Hm)|[-> Hr]]); [lia|..].
    { replace (ret <? 0) with true by lia. eexists _, _. split; [reflexivity|]. split; [done|]. left.
      split; [done|]. split; [done|]. split; [by left|]. rewrite count_PB. lia. }
    assert (PB * fl_rows x + 0 < fdlist_count y) as Hc
      by (rewrite count_PB, Hr; unfold PB, CONFIG_NFILE_DESCRIPTORS_PER_BLOCK; lia).
    destruct (lview_at y (PB * fl_rows x + 0) None Hy) as (f & Ef & Ev).
    { unfold PB, CONFIG_NFILE_DESCRIPTORS_PER_BLOCK in *. lia. }
    { rewrite Hvy. destruct (lview x _) eqn:El; [|done]. apply lview_range in El. rewrite count_PB in El. lia. }
    rewrite Hdiv, Hmod in Ef. simpl (0 <? 0). cbv iota. rewrite Ef. cbn [mbind option_bind].
    assert (f_file f = NULL) as Hf by (unfold sview in Ev; destruct (Z.eqb_spec (f_file f) NULL); done).
    rewrite Hf, Z.eqb_refl. apply (take_slot mem x y f); done || lia.
  - simpl (0 <? 0). cbv iota.
    assert (PB * i + j < fdlist_count x) as Hc
      by (rewrite count_PB; unfold PB, CONFIG_NFILE_DESCRIPTORS_PER_BLOCK in *; lia).
    destruct (lview_at x (PB * i + j) (lview x (PB * i + j)) Hok) as (f & Ef & Ev); [|done|].
    { unfold PB, CONFIG_NFILE_DESCRIPTORS_PER_BLOCK in *. lia. }
    rewrite Hdiv, Hmod in Ef. rewrite Ef. cbn [mbind option_bind].
    destruct (Z.eqb_spec (f_file f) NULL) as [Hf|Hf]; [apply (take_slot mem x x f); done || lia|].
    assert (lview x (PB * i + j) <> None) as Hocc.
    { rewrite <- Ev. unfold sview. by replace (f_file f =? NULL) with false by (symmetry; by apply Z.eqb_neq). }
    assert (forall i' j', PB * i' + j' = PB * i + j + 1 -> 0 <= i' <= fl_rows x -> 0 <= j' < PB ->
      (i' = fl_rows x -> j' = 0) ->
      exists ret x', dupfile_loop fuel mem oflags a i' j' x = Some (ret, x') /\
        took mem x (PB * i + j) a (has_flag oflags O_CLOEXEC) ret x') as Hnext.
    { intros i' j' Hs Hi' Hj' Hij'. destruct (IH i' j' x Hok Hi' Hj' Hij') as (ret & x' & E & Hx' & Hc'); [lia|done|].
      exists ret, x'. split; [done|]. split; [done|]. destruct Hc' as [(F1 & F2 & F3 & F4)|(G1 & G2 & G3)].
      { left. split; [done|]. split; [done|]. split; [done|]. intros g Hg.
        destruct (decide (g = PB * i + j)) as [->|?]; [done|]. apply F4. lia. }
      right.
      split; [lia|]. split; [|done]. intros g Hg. destruct (decide (g = PB * i + j)) as [->|?]; [done|].
      apply G2. lia. }
    destruct (Z.ltb_spec (j + 1) PB); apply Hnext; unfold PB, CONFIG_NFILE_DESCRIPTORS_PER_BLOCK in *; lia.
Qed.

Lemma more_pos ex a : (0 < more ex a a)%nat.
Proof. unfold more. rewrite decide_True by done. lia. Qed.

Lemma files_nonnull s tb fi ex a : frel s tb fi ex -> is_Some (files s !! a) -> a <> NULL.
Proof. intros Hr [f Hf] ->. by rewrite (fr_null _ _ _ _ Hr) in Hf. Qed.

(** A slot is made to name [a], which gets a reference. *)
Lemma name_step s tb fi ex l fd x x' a c :
  frel s tb fi ex -> lists s !! l = Some x -> list_ok x' -> is_Some (files s !! a) ->
  (forall g, lview x' g = if g =? fd then Some (a, c) else lview x g) ->
  exists s', file_ref a (with_list s l x') = Some s' /\ world s' = world s /\
    lists s' = <[l := x']> (lists s) /\
    frel s' (<[(l, fd) := (a, c)]> (delete (l, fd) tb)) fi
      (match tb !! (l, fd) with Some (b, _) => more ex b | None => ex end).
Proof.
  intros Hr Hx Hok Ha Hv. pose proof (files_nonnull _ _ _ _ _ Hr Ha) as Hn.
  destruct (ref_step s tb fi ex a Hr Ha) as (s1 & E1 & Hr1 & Hw & Hl).
  assert (sview (mk_fdslot a c) = Some (a, c)) as Hsv
    by (unfold sview; simpl; by replace (a =? NULL) with false by (symmetry; by apply Z.eqb_neq)).
  pose proof (slot_step s1 tb fi _ l fd x (mk_fdslot a c) x' Hr1) as Hs. rewrite Hsv in Hs.
  rewrite Hl in Hs. specialize (Hs Hx Hok Hv (fun _ => more_pos ex a)). simpl in Hs.
  exists (with_list s1 l x'). split; [|split; [done|split; [simpl; by rewrite Hl|]]].
  - unfold file_ref, upd_refs in *. simpl. destruct (files s !! a); [|done]. simpl in *.
    injection E1 as <-. done.
  - eapply frel_ext; [|exact Hs]. intros b. destruct (tb !! (l, fd)) as [[d e]|].
    + unfold more at 1 3. by rewrite less_more.
    + apply less_more.
Qed.

Lemma dupfile_step mem oflags s tb fi ex l x a :
  frel s tb fi ex -> lists s !! l = Some x -> is_Some (files s !! a) ->
  exists ret s', fdlist_dupfile mem l oflags 0 a s = Some (ret, s') /\ world s' = world s /\
    dom (lists s') = dom (lists s) /\
    ((ret < 0 /\ frel s' tb fi ex /\
      exists n, PB <= n /\ (mem = false \/ n = OPEN_MAX) /\ forall g, 0 <= g < n -> tb !! (l, g) <> None) \/
     (0 <= ret /\ tb !! (l, ret) = None /\ (forall g, 0 <= g < ret -> tb !! (l, g) <> None) /\
      frel s' (<[(l, ret) := (a, has_flag oflags O_CLOEXEC)]> tb) fi ex)).
Proof.
  intros Hr Hx Ha. pose proof (files_nonnull _ _ _ _ _ Hr Ha) as Hn.
  pose proof (fr_lists _ _ _ _ Hr l x Hx) as Hok. pose proof (lo_rows _ Hok) as Hrows.
  unfold fdlist_dupfile. rewrite Hx. cbn [mbind option_bind].
  destruct (dupfile_loop_spec mem oflags a (S (S (Z.to_nat (fdlist_count x)))) 0 0 x)
    as (ret & x' & E & Hx' & Hc); try done.
  { lia. }
  { rewrite count_PB. unfold PB, CONFIG_NFILE_DESCRIPTORS_PER_BLOCK. lia. }
  change (0 / _) with 0. change (0 mod _) with 0. rewrite E. cbn [mbind option_bind].
  assert (forall g, lview x g = tb !! (l, g)) as Ht.
  { intros g. rewrite (fr_tab _ _ _ _ Hr). unfold slot_of. by rewrite Hx. }
  assert (dom (<[l := x']> (lists s)) = dom (lists s)) as Hd.
  { rewrite dom_insert_L. apply elem_of_dom_2 in Hx. set_solver. }
  destruct Hc as [(Hlt & -> & Hm & Hall)|(Hge & Hocc & Hfree & Hv)].
  - replace (ret <? 0) with true by lia. eexists _, _. split; [reflexivity|]. split; [done|].
    split; [done|]. left. split; [lia|]. split; [unfold with_list; rewrite insert_id by done; by destruct s|].
    exists (fdlist_count x). rewrite count_PB in *. unfold OPEN_MAX, PB, CONFIG_NFILE_DESCRIPTORS_PER_BLOCK in *.
    split; [lia|]. split; [destruct Hm; [by left|right; lia]|]. intros g Hg. rewrite <- Ht. apply Hall. lia.
  - replace (ret <? 0) with false by (unfold PB in Hge; lia).
    destruct (name_step s tb fi ex l ret x x' a (has_flag oflags O_CLOEXEC) Hr Hx Hx' Ha Hv)
      as (s' & Es & Hw & Hl & Hr'). rewrite Es. cbn [mbind option_bind].
    exists ret, s'. split; [done|]. split; [done|]. split; [by rewrite Hl|]. right.
    rewrite Ht in Hfree. rewrite Hfree in Hr'. rewrite delete_id in Hr' by done.
    split; [lia|]. split; [done|]. split; [|done]. intros g Hg. rewrite <- Ht. apply Hocc. lia.
Qed.

Lemma install_step s tb fi ex l fd x a oflags :
  frel s tb fi ex -> lists s !! l = Some x -> 0 <= fd < fdlist_count x -> is_Some (files s !! a) ->
  let tb' := <[(l, fd) := (a, has_flag oflags O_CLOEXEC)]> (delete (l, fd) tb) in
  let r := match tb !! (l, fd) with
           | Some (b, _) => close_spec b (ex b) tb' fi (world s)
           | None => Some (0, fi, world s)
           end in
  match r with
  | None => fdlist_install ops l fd a oflags s = None
  | Some (_, fi', w) => exists s', fdlist_install ops l fd a oflags s = Some s' /\
      frel s' tb' fi' ex /\ world s' = w /\ dom (lists s') = dom (lists s)
  end.
Proof.
  intros Hr Hx Hfd Ha tb' r. pose proof (fr_lists _ _ _ _ Hr l x Hx) as Hok.
  pose proof (files_nonnull _ _ _ _ _ Hr Ha) as Hn.
  destruct (lview_at x fd (lview x fd) Hok Hfd eq_refl) as (f & Ef & Ev).
  destruct (lview_put x fd (mk_fdslot a (has_flag oflags O_CLOEXEC)) Hok Hfd) as (x' & Ep & Hok' & _ & Hv).
  assert (sview (mk_fdslot a (has_flag oflags O_CLOEXEC)) = Some (a, has_flag oflags O_CLOEXEC)) as Hsv
    by (unfold sview; simpl; by replace (a =? NULL) with false by (symmetry; by apply Z.eqb_neq)).
  rewrite Hsv in Hv. destruct (name_step s tb fi ex l fd x x' a _ Hr Hx Hok' Ha Hv) as (s1 & E1 & Hw1 & Hl1 & Hr1).
  fold tb' in Hr1. unfold fdlist_install. rewrite Hx. cbn [mbind option_bind].
  change CONFIG_NFILE_DESCRIPTORS_PER_BLOCK with PB. rewrite Ef. cbn [mbind option_bind].
  rewrite Ep. cbn [mbind option_bind]. rewrite E1. cbn [mbind option_bind].
  assert (dom (<[l := x']> (lists s)) = dom (lists s)) as Hd.
  { rewrite dom_insert_L. apply elem_of_dom_2 in Hx. set_solver. }
  assert (tb !! (l, fd) = sview f) as Ht.
  { rewrite (fr_tab _ _ _ _ Hr). unfold slot_of. by rewrite Hx, Ev. }
  unfold r. rewrite Ht in *. unfold sview in *. destruct (Z.eqb_spec (f_file f) NULL) as [Hf|Hf].
  - unfold file_put. rewrite Hf, Z.eqb_refl. cbn [mbind option_bind]. exists s1.
    split; [done|]. split; [done|]. split; [done|]. by rewrite Hl1.
  - pose proof (put_step s1 tb' fi _ (f_file f) Hr1 (more_pos ex _)) as Hp.
    assert (pred (more ex (f_file f) (f_file f)) = ex (f_file f)) as Hm
      by (unfold more; by rewrite decide_True).
    rewrite Hm, Hw1 in Hp.
    destruct (close_spec (f_file f) _ tb' fi (world s)) as [[[ret fi'] w]|]; [|by rewrite Hp].
    destruct Hp as (s2 & E2 & Hr2 & Hw2 & Hl2). rewrite E2. cbn [mbind option_bind]. exists s2.
    split; [done|]. split; [|split; [done|]].
    + eapply frel_ext; [|exact Hr2]. intros b. apply less_more.
    + by rewrite Hl2, Hl1.
Qed.
End refs.
