(* ===== verification/Descriptors.v ===== *)
(** The contract of the file descriptors and its proof.

    In the specification a task's descriptor names an open file, and there are no
    reference counts: a file is closed when the last descriptor that names it
    goes.  [fstep] says what each system call does to the table, to the open
    files and to the drivers; a result [None] is a driver operation without a
    defined result.  The lists and counted references of Files implement it. *)

From S2P Require Import Prelude.
From stdpp Require Import gmap list.
From S2P Require Import Inode Files.
Local Open Scope Z_scope.

Inductive fop :=
| FTask (l : Z)
| FOpen (mem : bool) (a : option Z) (l : Z) (path : list Z) (oflags : Z)
| FClose (l fd : Z)
| FDup (mem : bool) (l fd : Z)
| FDup2 (mem : bool) (cur l fd1 fd2 : Z)
| FDup3 (mem : bool) (l fd1 fd2 flags : Z)
| FRead (l fd : Z) (buf : bool) (len : Z)
| FWrite (l fd : Z) (data : list Z)
| FCopy (mem : bool) (p c : Z) (cloexec : bool)
| FExit (l : Z).

Inductive fres := FInt (r : Z) | FData (r : Z) (data : list Z).

Record fspec (W : Type) := mk_fspec {
  t_tab : gmap (Z * Z) (Z * bool);
  t_info : gmap Z finfo;
  t_tasks : gset Z;
  t_world : W
}.
Arguments mk_fspec {W}. Arguments t_tab {W}. Arguments t_info {W}. Arguments t_tasks {W}.
Arguments t_world {W}.

Section descriptors.
Context {W : Type} (ops : vfs_ops W).

Definition fop_exec (op : fop) (s : vfs W) : option (fres * vfs W) :=
  let int r := '(r, s) ← r; Some (FInt r, s) in
  match op with
  | FTask l => Some (FInt 0, with_list s l fdlist_init)
  | FOpen mem a l path oflags => int (nx_vopen ops mem a l path oflags s)
  | FClose l fd => int (fdlist_close ops l fd s)
  | FDup mem l fd => int (dup ops mem l fd s)
  | FDup2 mem cur l fd1 fd2 => int (fdlist_dup2 ops mem cur l fd1 fd2 s)
  | FDup3 mem l fd1 fd2 flags => int (fdlist_dup3 ops mem l fd1 fd2 flags s)
  | FRead l fd buf len => '(r, data, s) ← nx_read ops l fd buf len s; Some (FData r data, s)
  | FWrite l fd data => int (nx_write ops l fd data s)
  | FCopy mem p c cloexec => int (fdlist_copy ops mem p c cloexec s)
  | FExit l => s ← fdlist_free ops l s; Some (FInt 0, s)
  end.

Fixpoint fop_run (l : list fop) (s : vfs W) : option (list fres * vfs W) :=
  match l with
  | [] => Some ([], s)
  | op :: l => '(r, s) ← fop_exec op s; '(rs, s) ← fop_run l s; Some (r :: rs, s)
  end.

(** What the callers and the allocator have to respect: calls come from tasks
    that exist, a block for a file is not in use, and a descriptor to be set is
    below [OPEN_MAX], which the code does not check. *)
Definition call_ok (op : fop) (s : vfs W) : bool :=
  let task l := bool_decide (l ∈ dom (lists s)) in
  match op with
  | FTask l => negb (task l)
  | FOpen _ a l _ _ =>
      task l && match a with
                | Some b => negb (b =? NULL) && bool_decide (files s !! b = None)
                | None => true
                end
  | FClose l _ | FDup _ l _ | FRead l _ _ _ | FWrite l _ _ | FExit l => task l
  | FCopy _ p c _ => task p && task c && negb (p =? c)
  | FDup2 _ cur l _ fd2 => task cur && task l && (fd2 <? OPEN_MAX)
  | FDup3 _ l _ fd2 _ => task l && (fd2 <? OPEN_MAX)
  end.
Fixpoint calls_ok (l : list fop) (s : vfs W) : bool :=
  match l with
  | [] => true
  | op :: l => call_ok op s && match fop_exec op s with Some (_, s) => calls_ok l s | None => true end
  end.

(** ** Specification *)

Definition with_w (t : fspec W) (w : W) : fspec W := mk_fspec (t_tab t) (t_info t) (t_tasks t) w.

(** A descriptor stops naming [a]; [tb] is the table without it. *)
Definition let_go (a : Z) (tb : gmap (Z * Z) (Z * bool)) (t : fspec W) : option (Z * fspec W) :=
  if decide (map_Forall (fun _ v => v.1 <> a) tb) then
    f ← t_info t !! a;
    '(ret, w) ← file_close ops f (t_world t);
    Some (ret, mk_fspec tb (delete a (t_info t)) (t_tasks t) w)
  else Some (0, mk_fspec tb (t_info t) (t_tasks t) (t_world t)).

Definition s_close (l fd : Z) (t : fspec W) : option (Z * fspec W) :=
  match t_tab t !! (l, fd) with
  | None => Some (- EBADF, t)
  | Some (a, _) => let_go a (delete (l, fd) (t_tab t)) t
  end.

(** The descriptors of a task are closed from the last one down. *)
Fixpoint s_exit (n : nat) (l : Z) (t : fspec W) : option (fspec W) :=
  match n with
  | O => Some t
  | S n => '(_, t) ← s_close l (Z.of_nat n) t; s_exit n l t
  end.

(** The descriptor [fd] is made to name [a]. *)
Definition s_name (l fd a : Z) (c : bool) (t : fspec W) : option (fspec W) :=
  let tb := <[(l, fd) := (a, c)]> (t_tab t) in
  match t_tab t !! (l, fd) with
  | None => Some (mk_fspec tb (t_info t) (t_tasks t) (t_world t))
  | Some (b, _) => '(_, t) ← let_go b tb t; Some t
  end.

(** [n] descriptors of [p] from [fd] on are given to [c]. *)
Fixpoint s_copy (n : nat) (fd p c : Z) (cloexec : bool) (t : fspec W) : option (fspec W) :=
  match n with
  | O => Some t
  | S n =>
      t ← match t_tab t !! (p, fd) with
          | Some (a, f) => if cloexec && f then Some t else s_name c fd a false t
          | None => Some t
          end;
      s_copy n (fd + 1) p c cloexec t
  end.

Definition lowest (tb : gmap (Z * Z) (Z * bool)) (l fd : Z) : Prop :=
  0 <= fd /\ tb !! (l, fd) = None /\ forall g, 0 <= g < fd -> tb !! (l, g) <> None.

(** A task has no free descriptor left: all of them, or the first ones with no
    memory for more. *)
Definition no_free (mem : bool) (tb : gmap (Z * Z) (Z * bool)) (l : Z) : Prop :=
  exists n, PB <= n /\ (mem = false \/ n = OPEN_MAX) /\ forall fd, 0 <= fd < n -> tb !! (l, fd) <> None.

Definition int_res (r : option (Z * fspec W)) : option (fres * fspec W) :=
  '(r, t) ← r; Some (FInt r, t).

Inductive fstep : fop -> fspec W -> option (fres * fspec W) -> Prop :=
| fs_task l t :
    fstep (FTask l) t
      (Some (FInt 0, mk_fspec (t_tab t) (t_info t) ({[l]} ∪ t_tasks t) (t_world t)))
| fs_close l fd t : fstep (FClose l fd) t (int_res (s_close l fd t))
| fs_dup_bad mem l fd t :
    t_tab t !! (l, fd) = None -> fstep (FDup mem l fd) t (Some (FInt (- EBADF), t))
| fs_dup mem l fd t a c fd' :
    t_tab t !! (l, fd) = Some (a, c) -> lowest (t_tab t) l fd' ->
    fstep (FDup mem l fd) t
      (Some (FInt fd', mk_fspec (<[(l, fd') := (a, false)]> (t_tab t)) (t_info t) (t_tasks t) (t_world t)))
| fs_dup_full mem l fd t a c r :
    t_tab t !! (l, fd) = Some (a, c) -> no_free mem (t_tab t) l -> r < 0 ->
    fstep (FDup mem l fd) t (Some (FInt r, t))
| fs_dup2_same mem cur l fd t v :
    t_tab t !! (cur, fd) = Some v -> fstep (FDup2 mem cur l fd fd) t (Some (FInt fd, t))
| fs_dup2_bad mem cur l fd t :
    t_tab t !! (cur, fd) = None -> fstep (FDup2 mem cur l fd fd) t (Some (FInt (- EBADF), t))
| fs_dup2 mem cur l fd1 fd2 t r :
    fd1 <> fd2 -> fstep (FDup3 mem l fd1 fd2 0) t r -> fstep (FDup2 mem cur l fd1 fd2) t r
| fs_dup3_same mem l fd flags t : fstep (FDup3 mem l fd fd flags) t (Some (FInt (- EINVAL), t))
| fs_dup3_bad mem l fd1 fd2 flags t :
    fd1 <> fd2 -> fd2 < 0 \/ t_tab t !! (l, fd1) = None ->
    fstep (FDup3 mem l fd1 fd2 flags) t (Some (FInt (- EBADF), t))
| fs_dup3 mem l fd1 fd2 flags t a c :
    fd1 <> fd2 -> 0 <= fd2 -> t_tab t !! (l, fd1) = Some (a, c) ->
    fstep (FDup3 mem l fd1 fd2 flags) t
      (t ← s_name l fd2 a (has_flag flags O_CLOEXEC) t; Some (FInt fd2, t))
| fs_dup3_full l fd1 fd2 flags t r :
    fd1 <> fd2 -> t_tab t !! (l, fd2) = None -> r < 0 ->
    fstep (FDup3 false l fd1 fd2 flags) t (Some (FInt r, t))
| fs_read_bad l fd buf len t :
    t_tab t !! (l, fd) = None -> fstep (FRead l fd buf len) t (Some (FData (- EBADF) [], t))
| fs_read l fd buf len t a c f :
    t_tab t !! (l, fd) = Some (a, c) -> t_info t !! a = Some f ->
    fstep (FRead l fd buf len) t
      ('(r, data, w) ← file_read ops f buf len (t_world t); Some (FData r data, with_w t w))
| fs_write_bad l fd data t :
    t_tab t !! (l, fd) = None -> fstep (FWrite l fd data) t (Some (FInt (- EBADF), t))
| fs_write l fd data t a c f :
    t_tab t !! (l, fd) = Some (a, c) -> t_info t !! a = Some f ->
    fstep (FWrite l fd data) t
      ('(r, w) ← file_write ops f data (t_world t); Some (FInt r, with_w t w))
| fs_copy mem p c cloexec n t :
    (forall fd v, t_tab t !! (p, fd) = Some v -> 0 <= fd < Z.of_nat n) ->
    fstep (FCopy mem p c cloexec) t (t ← s_copy n 0 p c cloexec t; Some (FInt OK, t))
| fs_copy_full p c cloexec n t r :
    r < 0 -> fstep (FCopy false p c cloexec) t (t ← s_copy n 0 p c cloexec t; Some (FInt r, t))
| fs_exit l n t :
    (forall fd v, t_tab t !! (l, fd) = Some v -> 0 <= fd < Z.of_nat n) ->
    fstep (FExit l) t
      (t ← s_exit n l t;
       Some (FInt 0, mk_fspec (t_tab t) (t_info t) (t_tasks t ∖ {[l]}) (t_world t)))
| fs_open_nomem mem l path oflags t :
    fstep (FOpen mem None l path oflags) t (Some (FInt (- ENOMEM), t))
| fs_open mem a l path oflags t fd :
    lowest (t_tab t) l fd ->
    fstep (FOpen mem (Some a) l path oflags) t
      ('(ret, f, w) ← file_vopen ops path oflags (t_world t);
       if ret <? 0 then Some (FInt ret, with_w t w)
       else Some (FInt fd, mk_fspec (<[(l, fd) := (a, has_flag oflags O_CLOEXEC)]> (t_tab t))
                             (<[a := f]> (t_info t)) (t_tasks t) w))
| fs_open_full mem a l path oflags t r :
    no_free mem (t_tab t) l -> r < 0 ->
    fstep (FOpen mem (Some a) l path oflags) t
      ('(ret, f, w) ← file_vopen ops path oflags (t_world t);
       if ret <? 0 then Some (FInt ret, with_w t w)
       else '(_, w) ← file_close ops f w; Some (FInt r, with_w t w)).

Inductive fruns : list fop -> fspec W -> option (list fres * fspec W) -> Prop :=
| fruns_nil t : fruns [] t (Some ([], t))
| fruns_undef op l t : fstep op t None -> fruns (op :: l) t None
| fruns_step op l t r t' o :
    fstep op t (Some (r, t')) -> fruns l t' o ->
    fruns (op :: l) t ('(rs, t) ← o; Some (r :: rs, t)).

(** [call_ok] in terms of the table. *)
Definition fop_ok (op : fop) (t : fspec W) : Prop :=
  match op with
  | FTask l => l ∉ t_tasks t
  | FOpen _ a l _ _ => l ∈ t_tasks t /\ forall b, a = Some b -> b <> NULL /\ t_info t !! b = None
  | FClose l _ | FDup _ l _ | FRead l _ _ _ | FWrite l _ _ | FExit l => l ∈ t_tasks t
  | FCopy _ p c _ => p ∈ t_tasks t /\ c ∈ t_tasks t /\ p <> c
  | FDup2 _ cur l _ fd2 => cur ∈ t_tasks t /\ l ∈ t_tasks t /\ fd2 < OPEN_MAX
  | FDup3 _ l _ fd2 _ => l ∈ t_tasks t /\ fd2 < OPEN_MAX
  end.

(** ** Simulation *)

Record drel (s : vfs W) (t : fspec W) : Prop := {
  td_rel : frel s (t_tab t) (t_info t) none;
  td_tasks : dom (lists s) = t_tasks t;
  td_world : world s = t_world t
}.

Lemma drel_list s t l : drel s t -> l ∈ t_tasks t -> exists x, lists s !! l = Some x.
Proof. intros [_ Hd _] Hl. rewrite <- Hd in Hl. apply elem_of_dom in Hl as [x Hx]. by exists x. Qed.

(** Closing is what the counts of references say. *)
Lemma let_go_spec a tb t :
  let_go a tb t =
  match close_spec ops a 0 tb (t_info t) (t_world t) with
  | None => None
  | Some (ret, fi, w) => Some (ret, mk_fspec tb fi (t_tasks t) w)
  end.
Proof.
  unfold let_go, close_spec. simpl. case_decide as Hd.
  - replace (count a tb =? 0)%nat with true.
    2:{ symmetry. apply Nat.eqb_eq. destruct (decide (0 < count a tb)%nat) as [Hc|]; [|lia].
        apply count_pos in Hc as (k & c & Hk). by specialize (Hd k _ Hk). }
    destruct (t_info t !! a) as [f|]; [|done]. simpl. by destruct (file_close ops f (t_world t)) as [[]|].
  - replace (count a tb =? 0)%nat with false; [done|]. symmetry. apply Nat.eqb_neq.
    apply map_not_Forall in Hd as (k & v & Hk & Hv); [|apply _].
    apply dec_stable in Hv. destruct v as [b c]. simpl in Hv. subst b.
    assert (0 < count a tb)%nat by (apply count_pos; by exists k, c). lia.
Qed.

(** The outcome of a call against that of the specification. *)
Definition matches (e : option (fres * vfs W)) (o : option (fres * fspec W)) : Prop :=
  match o with
  | None => e = None
  | Some (r, t) => exists s, e = Some (r, s) /\ drel s t
  end.

Lemma close_matches s t l fd :
  drel s t -> l ∈ t_tasks t ->
  match s_close l fd t with
  | None => fdlist_close ops l fd s = None
  | Some (r, t') => exists s', fdlist_close ops l fd s = Some (r, s') /\ drel s' t'
  end.
Proof.
  intros Hr Hl. destruct (drel_list _ _ _ Hr Hl) as [x Hx]. pose proof Hr as [Hf Hd Hw].
  pose proof (close_step ops s _ _ l fd Hf (ex_intro _ x Hx)) as Hc. unfold s_close.
  destruct (t_tab t !! (l, fd)) as [[a c]|]; [|by exists s].
  rewrite let_go_spec. rewrite Hw in Hc.
  destruct (close_spec ops a 0 _ (t_info t) (t_world t)) as [[[ret fi] w]|]; [|done].
  destruct Hc as (s' & E & Hf' & Hw' & Hd'). exists s'. split; [done|]. constructor; simpl; try done.
  by rewrite Hd'.
Qed.

(** The reference of a call goes while a descriptor still names the file. *)
Lemma put_named (s : vfs W) tb fi a :
  frel s tb fi (more none a) -> (0 < count a tb)%nat ->
  exists s', file_put ops a s = Some (0, s') /\ frel s' tb fi none /\ world s' = world s /\
    lists s' = lists s.
Proof.
  intros Hf Hc. pose proof (put_step ops s tb fi _ a Hf (more_pos none a)) as Hp. unfold close_spec in Hp.
  replace (count a tb =? 0)%nat with false in Hp by (symmetry; apply Nat.eqb_neq; lia).
  rewrite andb_false_r in Hp. destruct Hp as (s' & E & Hf' & Hw & Hl). exists s'. split; [done|].
  split; [|done]. eapply frel_ext; [|exact Hf']. intros b. apply less_more.
Qed.

Lemma dup_matches s t mem l fd :
  drel s t -> l ∈ t_tasks t ->
  exists o, fstep (FDup mem l fd) t o /\ matches (fop_exec (FDup mem l fd) s) o.
Proof.
  intros Hr Hl. destruct (drel_list _ _ _ Hr Hl) as [x Hx]. pose proof Hr as [Hf Hd Hw].
  pose proof (get_step s _ _ none l fd Hf (ex_intro _ x Hx)) as Hg. simpl. unfold dup.
  destruct (t_tab t !! (l, fd)) as [[a c]|] eqn:Ht.
  2:{ rewrite Hg. eexists. split; [by apply fs_dup_bad|]. simpl. by exists s. }
  destruct Hg as (s1 & E1 & Hf1 & Hw1 & Hl1). rewrite E1. cbn [mbind option_bind]. simpl.
  rewrite <- Hl1 in Hx.
  assert (is_Some (files s1 !! a)) as Ha by (by eapply fr_named).
  destruct (dupfile_step mem 0 s1 _ _ _ l x a Hf1 Hx Ha) as (ret & s2 & E2 & Hw2 & Hd2 & Hc).
  rewrite E2. cbn [mbind option_bind].
  (* the reference of the call goes *)
  assert (forall tb, tb !! (l, fd) = Some (a, c) -> frel s2 tb (t_info t) (more none a) ->
    exists s3, file_put ops a s2 = Some (0, s3) /\ frel s3 tb (t_info t) none /\ world s3 = world s2 /\
      lists s3 = lists s2) as Hput.
  { intros tb Htb Hf2. apply put_named; [done|]. apply count_pos. by exists (l, fd), c. }
  destruct Hc as [(Hlt & Hf2 & Hno)|(Hge & Hfree & Hocc & Hf2)].
  - destruct (Hput _ Ht Hf2) as (s3 & E3 & Hf3 & Hw3 & Hl3). rewrite E3. cbn [mbind option_bind].
    eexists. split; [eapply (fs_dup_full mem l fd t a c ret); [done|done|lia]|]. simpl. exists s3. split; [done|].
    constructor; [done| |congruence]. by rewrite Hl3, Hd2, Hl1.
  - destruct (Hput (<[(l, ret) := (a, false)]> (t_tab t))) as (s3 & E3 & Hf3 & Hw3 & Hl3).
    { rewrite lookup_insert_ne; [done|]. intros [= ->]. by rewrite Ht in Hfree. }
    { exact Hf2. }
    rewrite E3. cbn [mbind option_bind].
    eexists. split; [by eapply (fs_dup mem l fd t a c ret)|]. simpl. exists s3. split; [done|].
    constructor; simpl; [done| |congruence]. by rewrite Hl3, Hd2, Hl1.
Qed.

(** A call that uses the file and lets it go. *)
Lemma use_step s t l fd :
  drel s t -> l ∈ t_tasks t ->
  match t_tab t !! (l, fd) with
  | None => fdlist_get2 l fd s = Some (- EBADF, NULL, s)
  | Some (a, _) => exists s1 f, fdlist_get2 l fd s = Some (0, a, s1) /\ t_info t !! a = Some (fp_info f) /\
      files s1 !! a = Some f /\ world s1 = t_world t /\
      forall w, exists s2, file_put ops a (with_world s1 w) = Some (0, s2) /\ drel s2 (with_w t w)
  end.
Proof.
  intros Hr Hl. destruct (drel_list _ _ _ Hr Hl) as [x Hx]. pose proof Hr as [Hf Hd Hw].
  pose proof (get_step s _ _ none l fd Hf (ex_intro _ x Hx)) as Hg.
  destruct (t_tab t !! (l, fd)) as [[a c]|] eqn:Ht; [|done].
  destruct Hg as (s1 & E1 & Hf1 & Hw1 & Hl1).
  destruct (fr_named _ _ _ _ Hf1 _ _ _ Ht) as [f Ef]. exists s1, f. split; [done|].
  split; [by rewrite (fr_info _ _ _ _ Hf1), Ef|]. split; [done|]. split; [congruence|]. intros w.
  destruct (put_named (with_world s1 w) _ _ a (frel_world _ _ _ _ w Hf1)) as (s3 & E3 & Hf3 & Hw3 & Hl3).
  { apply count_pos. by exists (l, fd), c. }
  exists s3. split; [done|]. constructor; simpl; [done|by rewrite Hl3; simpl; rewrite Hl1|done].
Qed.

Lemma read_matches s t l fd buf len :
  drel s t -> l ∈ t_tasks t ->
  exists o, fstep (FRead l fd buf len) t o /\ matches (fop_exec (FRead l fd buf len) s) o.
Proof.
  intros Hr Hl. pose proof (use_step s t l fd Hr Hl) as Hu. simpl. unfold nx_read.
  destruct (t_tab t !! (l, fd)) as [[a c]|] eqn:Ht.
  2:{ rewrite Hu. eexists. split; [by apply fs_read_bad|]. simpl. by exists s. }
  destruct Hu as (s1 & f & E & Hi & Ef & Hw & Hp). rewrite E. cbn [mbind option_bind]. simpl.
  rewrite Ef. cbn [mbind option_bind]. rewrite Hw.
  eexists. split; [by eapply fs_read|].
  destruct (file_read ops (fp_info f) buf len (t_world t)) as [[[r data] w]|]; [|done].
  cbn [mbind option_bind]. destruct (Hp w) as (s2 & E2 & Hr2). rewrite E2. simpl. by exists s2.
Qed.

Lemma write_matches s t l fd data :
  drel s t -> l ∈ t_tasks t ->
  exists o, fstep (FWrite l fd data) t o /\ matches (fop_exec (FWrite l fd data) s) o.
Proof.
  intros Hr Hl. pose proof (use_step s t l fd Hr Hl) as Hu. simpl. unfold nx_write.
  destruct (t_tab t !! (l, fd)) as [[a c]|] eqn:Ht.
  2:{ rewrite Hu. eexists. split; [by apply fs_write_bad|]. simpl. by exists s. }
  destruct Hu as (s1 & f & E & Hi & Ef & Hw & Hp). rewrite E. cbn [mbind option_bind]. simpl.
  rewrite Ef. cbn [mbind option_bind]. rewrite Hw.
  eexists. split; [by eapply fs_write|].
  destruct (file_write ops (fp_info f) data (t_world t)) as [[r w]|]; [|done].
  cbn [mbind option_bind]. destruct (Hp w) as (s2 & E2 & Hr2). rewrite E2. simpl. by exists s2.
Qed.

(** Rows are added to a list. *)
Lemma rows_step (s : vfs W) tb fi ex l x x' :
  frel s tb fi ex -> lists s !! l = Some x -> list_ok x' -> (forall g, lview x' g = lview x g) ->
  frel (with_list s l x') tb fi ex.
Proof.
  intros [H1 H2 H3 H4 H5 H6 H7] Hx Hok Hv. constructor; simpl; try done.
  - intros l' y. rewrite lookup_insert_Some. intros [[<- <-]|[_ ?]]; [done|by eapply H1].
  - intros l' g. rewrite H2. unfold slot_of. simpl. destruct (decide (l' = l)) as [->|Hl].
    + rewrite lookup_insert_eq, Hx. simpl. by rewrite Hv.
    + by rewrite lookup_insert_ne.
Qed.

(** The descriptor [fd2] is made to name the file the call holds. *)
Lemma install_matches (s : vfs W) t l fd2 a flags x :
  frel s (t_tab t) (t_info t) (more none a) -> world s = t_world t -> dom (lists s) = t_tasks t ->
  lists s !! l = Some x -> 0 <= fd2 < fdlist_count x -> is_Some (files s !! a) ->
  matches (s ← fdlist_install ops l fd2 a flags s; '(_, s) ← file_put ops a s; Some (FInt fd2, s))
    (t ← s_name l fd2 a (has_flag flags O_CLOEXEC) t; Some (FInt fd2, t)).
Proof.
  intros Hf Hw Hd Hx Hfd Ha.
  pose proof (install_step ops s _ _ _ l fd2 x a flags Hf Hx Hfd Ha) as Hi.
  simpl in Hi. rewrite insert_delete_eq in Hi. rewrite Hw in Hi. unfold s_name.
  set (tb := <[(l, fd2) := (a, has_flag flags O_CLOEXEC)]> (t_tab t)) in *.
  assert (0 < count a tb)%nat as Hc.
  { apply count_pos. exists (l, fd2), (has_flag flags O_CLOEXEC). apply lookup_insert_eq. }
  (* the reference of the call goes *)
  assert (forall s2 fi w, fdlist_install ops l fd2 a flags s = Some s2 ->
    frel s2 tb fi (more none a) -> world s2 = w -> dom (lists s2) = dom (lists s) ->
    matches (s ← fdlist_install ops l fd2 a flags s; '(_, s) ← file_put ops a s; Some (FInt fd2, s))
      (Some (FInt fd2, mk_fspec tb fi (t_tasks t) w))) as Hfin.
  { intros s2 fi w E2 Hf2 Hw2 Hd2. rewrite E2. cbn [mbind option_bind].
    destruct (put_named s2 tb fi a Hf2 Hc) as (s3 & E3 & Hf3 & Hw3 & Hl3). rewrite E3. simpl.
    exists s3. split; [done|]. constructor; simpl; [done|congruence|congruence]. }
  destruct (t_tab t !! (l, fd2)) as [[b d]|] eqn:E2.
  - rewrite let_go_spec.
    replace (close_spec ops b (more none a b) tb (t_info t) (t_world t))
      with (close_spec ops b 0 tb (t_info t) (t_world t)) in Hi.
    2:{ unfold close_spec, more, none. destruct (decide (b = a)) as [->|]; [|done].
        replace (count a tb =? 0)%nat with false by (symmetry; apply Nat.eqb_neq; lia).
        by rewrite !andb_false_r. }
    destruct (close_spec ops b 0 tb (t_info t) (t_world t)) as [[[r fi] w]|]; simpl; [|by rewrite Hi].
    destruct Hi as (s2 & Ei & Hf2 & Hw2 & Hd2). by apply (Hfin s2).
  - destruct Hi as (s2 & Ei & Hf2 & Hw2 & Hd2). by apply (Hfin s2).
Qed.

Lemma dup3_matches s t mem l fd1 fd2 flags :
  drel s t -> l ∈ t_tasks t -> fd2 < OPEN_MAX ->
  exists o, fstep (FDup3 mem l fd1 fd2 flags) t o /\ matches (fop_exec (FDup3 mem l fd1 fd2 flags) s) o.
Proof.
  intros Hr Hl Hmax. destruct (drel_list _ _ _ Hr Hl) as [x Hx]. pose proof Hr as [Hf Hd Hw].
  simpl. unfold fdlist_dup3. destruct (Z.eqb_spec fd1 fd2) as [->|Hne].
  { eexists. split; [apply fs_dup3_same|]. by exists s. }
  destruct (Z.ltb_spec fd2 0) as [Hneg|Hpos].
  { eexists. split; [apply fs_dup3_bad; [done|by left]|]. by exists s. }
  rewrite Hx. cbn [mbind option_bind]. change CONFIG_NFILE_DESCRIPTORS_PER_BLOCK with PB.
  pose proof (fr_lists _ _ _ _ Hf l x Hx) as Hok. unfold OPEN_MAX in Hmax.
  destruct (fd_split fd2 Hpos) as (D1 & D2 & D3).
  assert (exists ret x1, (if fdlist_count x <=? fd2 then fdlist_extend mem (fd2 / PB + 1) x else (0, x)) =
    (ret, x1) /\ list_ok x1 /\ (forall g, lview x1 g = lview x g) /\
    ((ret < 0 /\ fdlist_count x <= fd2 /\ mem = false) \/ (ret = 0 /\ fd2 < fdlist_count x1)))
    as (ret & x1 & -> & Hok1 & Hv1 & Hc).
  { destruct (Z.leb_spec (fdlist_count x) fd2) as [Hle|Hlt].
    - destruct (fdlist_extend mem (fd2 / PB + 1) x) as [ret x1] eqn:Ee. exists ret, x1. split; [done|].
      destruct (lview_extend _ _ _ _ _ Ee Hok) as (Hok1 & Hv1 & Hc).
      { unfold PB, CONFIG_NFILE_DESCRIPTORS_PER_BLOCK in *. zlia. }
      split; [done|]. split; [done|]. destruct Hc as [(? & _ & ?)|[? Hrow]]; [by left|right]. split; [done|].
      rewrite count_PB, Hrow. unfold PB, CONFIG_NFILE_DESCRIPTORS_PER_BLOCK in *. lia.
    - exists 0, x. split; [done|]. split; [done|]. split; [done|]. right. done. }
  pose proof (rows_step s _ _ _ l x x1 Hf Hx Hok1 Hv1) as Hf1.
  assert (dom (<[l := x1]> (lists s)) = t_tasks t) as Hd1.
  { rewrite dom_insert_L, <- Hd. apply elem_of_dom_2 in Hx. set_solver. }
  assert (drel (with_list s l x1) t) as Hr1 by (by constructor).
  destruct Hc as [(Hlt & Hle & ->)|[-> Hlt]].
  { replace (ret <? 0) with true by lia. exists (Some (FInt ret, t)). split; [|by exists (with_list s l x1)].
    apply fs_dup3_full; [done| |lia]. rewrite (fr_tab _ _ _ _ Hf). unfold slot_of. rewrite Hx. simpl.
    destruct (lview x fd2) eqn:El; [|done]. apply lview_range in El. lia. }
  simpl (0 <? 0). cbv iota.
  pose proof (get_step (with_list s l x1) _ _ none l fd1 Hf1) as Hg. simpl in Hg.
  rewrite lookup_insert_eq in Hg. specialize (Hg (mk_is_Some _ _ eq_refl)).
  destruct (t_tab t !! (l, fd1)) as [[a c]|] eqn:Ht.
  - destruct Hg as (s2 & E2 & Hf2 & Hw2 & Hl2). rewrite E2. cbn [mbind option_bind]. simpl (0 <? 0). cbv iota.
    eexists. split; [by eapply fs_dup3|]. simpl in Hl2, Hw2.
    pose proof (install_matches s2 t l fd2 a flags x1 Hf2) as Hm.
    rewrite Hl2, lookup_insert_eq in Hm.
    specialize (Hm ltac:(congruence) Hd1 eq_refl ltac:(lia) (fr_named _ _ _ _ Hf2 _ _ _ Ht)).
    clear -Hm. unfold matches in *. destruct (s_name l fd2 a _ t) as [t'|]; simpl in *.
    + destruct Hm as (s' & E & Hr). exists s'. split; [|done].
      destruct (fdlist_install ops l fd2 a flags s2) as [s3|]; [|done]. simpl in *.
      destruct (file_put ops a s3) as [[r s4]|]; [|done]. simpl in *. done.
    + destruct (fdlist_install ops l fd2 a flags s2) as [s3|]; [|done]. simpl in *.
      by destruct (file_put ops a s3) as [[r s4]|].
  - rewrite Hg. eexists. split; [apply fs_dup3_bad; [done|by right]|].
    simpl. by exists (with_list s l x1).
Qed.

Lemma dup2_matches s t mem cur l fd1 fd2 :
  drel s t -> cur ∈ t_tasks t -> l ∈ t_tasks t -> fd2 < OPEN_MAX ->
  exists o, fstep (FDup2 mem cur l fd1 fd2) t o /\ matches (fop_exec (FDup2 mem cur l fd1 fd2) s) o.
Proof.
  intros Hr Hcur Hl Hmax. simpl. unfold fdlist_dup2. destruct (Z.eqb_spec fd1 fd2) as [->|Hne].
  - pose proof (use_step s t cur fd2 Hr Hcur) as Hu.
    destruct (t_tab t !! (cur, fd2)) as [[a c]|] eqn:Ht.
    + destruct Hu as (s1 & f & E & _ & _ & Hw & Hp). rewrite E. cbn [mbind option_bind].
      simpl (0 <? 0). cbv iota. destruct (Hp (t_world t)) as (s2 & E2 & Hr2).
      replace (with_world s1 (t_world t)) with s1 in E2 by (rewrite <- Hw; by destruct s1).
      rewrite E2. eexists. split; [by eapply fs_dup2_same|]. simpl. exists s2. split; [done|].
      by destruct t.
    + rewrite Hu. eexists. split; [by apply fs_dup2_bad|]. simpl. by exists s.
  - destruct (dup3_matches s t mem l fd1 fd2 0 Hr Hl Hmax) as (o & Ho & Hm).
    exists o. split; [by apply fs_dup2|]. exact Hm.
Qed.

Lemma tasks_let_go a tb t r t' : let_go a tb t = Some (r, t') -> t_tasks t' = t_tasks t.
Proof.
  unfold let_go. case_decide; [|by intros [= _ <-]]. destruct (t_info t !! a) as [f|]; [|done]. simpl.
  destruct (file_close ops f (t_world t)) as [[? ?]|]; [|done]. simpl. by intros [= _ <-].
Qed.

Lemma tasks_s_name l fd a c t t' : s_name l fd a c t = Some t' -> t_tasks t' = t_tasks t.
Proof.
  unfold s_name. destruct (t_tab t !! (l, fd)) as [[b d]|]; [|by intros [= <-]].
  destruct (let_go b _ t) as [[r t1]|] eqn:E; [|done]. intros [= <-]. by eapply tasks_let_go.
Qed.

Lemma file_put_lists a (s s' : vfs W) r : file_put ops a s = Some (r, s') -> lists s' = lists s.
Proof.
  unfold file_put, upd_refs. destruct (a =? NULL); [by intros [= _ <-]|].
  destruct (files s !! a) as [f|]; [|done]. simpl. rewrite lookup_insert_eq. simpl.
  destruct (fp_refs f + -1 =? 0); [|by intros [= _ <-]].
  destruct (file_close ops (fp_info f) (world s)) as [[? ?]|]; [|done]. by intros [= _ <-].
Qed.

Lemma install_lists l fd a flags (s s' : vfs W) l' :
  fdlist_install ops l fd a flags s = Some s' -> l' <> l -> lists s' !! l' = lists s !! l'.
Proof.
  unfold fdlist_install, file_ref, upd_refs. intros E Hl.
  destruct (lists s !! l) as [x|]; [|done]. simpl in E.
  destruct (slot_at x _ _) as [f|]; [|done]. simpl in E.
  destruct (slot_put x _ _ _) as [x'|]; [|done]. simpl in E.
  destruct (files s !! a) as [g|]; [|done]. simpl in E.
  destruct (file_put ops (f_file f) _) as [[r s1]|] eqn:Ep; [|done]. injection E as <-.
  rewrite (file_put_lists _ _ _ _ Ep). simpl. by rewrite lookup_insert_ne.
Qed.

Lemma copy_loop_matches mem p c cl x n : forall fd s t,
  drel s t -> lists s !! p = Some x -> p <> c -> c ∈ t_tasks t -> 0 <= fd ->
  fd + Z.of_nat n <= fdlist_count x ->
  exists m r, ((r < 0 /\ mem = false) \/ (r = OK /\ m = n)) /\
    matches ('(r, s) ← copy_loop ops n mem p c fd cl s; Some (FInt r, s))
      (t ← s_copy m fd p c cl t; Some (FInt r, t)).
Proof.
  induction n as [|n IH]; intros fd s t Hr Hx Hpc Hc Hfd Hn.
  { exists O, OK. split; [by right|]. simpl. by exists s. }
  pose proof Hr as [Hf Hd Hw]. pose proof (fr_lists _ _ _ _ Hf p x Hx) as Hok.
  destruct (slot_at_some x fd Hok ltac:(lia)) as [f Ef].
  assert (t_tab t !! (p, fd) = sview f) as Ht.
  { rewrite (fr_tab _ _ _ _ Hf). unfold slot_of. rewrite Hx. simpl. unfold lview.
    replace ((0 <=? fd) && (fd <? fdlist_count x)) with true by lia. by rewrite Ef. }
  cbn [copy_loop]. rewrite Hx. cbn [mbind option_bind].
  change CONFIG_NFILE_DESCRIPTORS_PER_BLOCK with PB. rewrite Ef. cbn [mbind option_bind].
  unfold sview in Ht. destruct (f_file f =? NULL).
  { destruct (IH (fd + 1) s t Hr Hx Hpc Hc ltac:(lia) ltac:(lia)) as (m & r & Hm & HM).
    exists (S m), r. split; [destruct Hm as [?|[? ->]]; auto|]. simpl. by rewrite Ht. }
  set (a := f_file f) in *.
  destruct (ref_step s _ _ none a Hf (fr_named _ _ _ _ Hf _ _ _ Ht)) as (s1 & E1 & Hf1 & Hw1 & Hl1).
  rewrite E1. cbn [mbind option_bind].
  assert (0 < count a (t_tab t))%nat as Hcnt by (apply count_pos; by exists (p, fd), (f_cloexec f)).
  destruct (cl && f_cloexec f) eqn:Ecl.
  { destruct (put_named s1 _ _ a Hf1 Hcnt) as (s2 & E2 & Hf2 & Hw2 & Hl2). rewrite E2. cbn [mbind option_bind].
    assert (drel s2 t) as Hr2 by (constructor; congruence).
    destruct (IH (fd + 1) s2 t Hr2 ltac:(congruence) Hpc Hc ltac:(lia) ltac:(lia)) as (m & r & Hm & HM).
    exists (S m), r. split; [destruct Hm as [?|[? ->]]; auto|]. simpl. by rewrite Ht, Ecl. }
  destruct (drel_list _ _ _ Hr Hc) as [y Hy]. rewrite Hl1, Hy. cbn [mbind option_bind].
  pose proof (fr_lists _ _ _ _ Hf c y Hy) as Hyok.
  destruct (fd_split fd Hfd) as (D1 & D2 & D3). pose proof (lo_rows _ Hok) as Hrows.
  destruct (fdlist_extend mem (fd / PB + 1) y) as [ret y1] eqn:Ee.
  destruct (lview_extend _ _ _ _ _ Ee Hyok) as (Hyok1 & Hyv & Hcase).
  { rewrite count_PB in Hn. unfold PB, CONFIG_NFILE_DESCRIPTORS_PER_BLOCK in *. zlia. }
  rewrite <- Hl1 in Hy. pose proof (rows_step s1 _ _ _ c y y1 Hf1 Hy Hyok1 Hyv) as Hf2.
  assert (dom (<[c := y1]> (lists s1)) = t_tasks t) as Hd2.
  { rewrite dom_insert_L, Hl1, Hd. set_solver. }
  destruct Hcase as [(Hneg & _ & Hmem)|[-> Hrow]].
  { replace (ret <? 0) with true by lia.
    destruct (put_named (with_list s1 c y1) _ _ a Hf2 Hcnt) as (s3 & E3 & Hf3 & Hw3 & Hl3).
    exists O, ret. split; [by left|]. rewrite E3. simpl. exists s3. split; [done|].
    constructor; [done|by rewrite Hl3|by rewrite Hw3; simpl; congruence]. }
  change (0 <? 0) with false. cbv iota.
  assert (lists (with_list s1 c y1) !! c = Some y1) as Hy2 by apply lookup_insert_eq.
  pose proof (install_matches (with_list s1 c y1) t c fd a 0 y1 Hf2 ltac:(simpl; congruence) Hd2 Hy2) as Hm.
  specialize (Hm ltac:(rewrite count_PB, Hrow; unfold PB, CONFIG_NFILE_DESCRIPTORS_PER_BLOCK in *; zlia)
                 (fr_named _ _ _ _ Hf2 _ _ _ Ht)).
  change (has_flag 0 O_CLOEXEC) with false in Hm.
  destruct (s_name c fd a false t) as [t'|] eqn:Es; simpl in Hm.
  - destruct Hm as (s4 & E4 & Hr4).
    destruct (fdlist_install ops c fd a 0 (with_list s1 c y1)) as [s3|] eqn:Ei; [|done]. simpl in E4 |- *.
    destruct (file_put ops a s3) as [[r4 s4']|] eqn:Ep; [|done]. simpl in E4 |- *. injection E4 as ->.
    assert (lists s4 !! p = Some x) as Hx4.
    { rewrite (file_put_lists _ _ _ _ Ep), (install_lists _ _ _ _ _ _ _ Ei Hpc). simpl.
      rewrite lookup_insert_ne by done. congruence. }
    assert (t_tasks t' = t_tasks t) as Htt by (by eapply tasks_s_name).
    destruct (IH (fd + 1) s4 t' Hr4 Hx4 Hpc ltac:(by rewrite Htt) ltac:(lia) ltac:(lia)) as (m & r & Hm' & HM).
    exists (S m), r. split; [destruct Hm' as [?|[? ->]]; auto|]. simpl. rewrite Ht, Ecl, Es. done.
  - exists (S n), OK. split; [by right|]. simpl. rewrite Ht, Ecl, Es. simpl.
    destruct (fdlist_install ops c fd a 0 (with_list s1 c y1)) as [s3|]; [|done]. simpl in Hm |- *.
    by destruct (file_put ops a s3) as [[r4 s4']|].
Qed.

Lemma copy_matches s t mem p c cl :
  drel s t -> p ∈ t_tasks t -> c ∈ t_tasks t -> p <> c ->
  exists o, fstep (FCopy mem p c cl) t o /\ matches (fop_exec (FCopy mem p c cl) s) o.
Proof.
  intros Hr Hp Hc Hpc. destruct (drel_list _ _ _ Hr Hp) as [x Hx].
  pose proof (fr_lists _ _ _ _ (td_rel _ _ Hr) p x Hx) as [_ Hrows _]. simpl. unfold fdlist_copy. rewrite Hx.
  destruct (copy_loop_matches mem p c cl x (Z.to_nat (fdlist_count x)) 0 s t Hr Hx Hpc Hc) as (m & r & Hm & HM);
    [lia|rewrite count_PB; unfold PB, CONFIG_NFILE_DESCRIPTORS_PER_BLOCK; lia|].
  eexists. split; [|exact HM]. destruct Hm as [[? ->]|[-> ->]]; [by apply fs_copy_full|]. apply fs_copy.
  intros fd v. rewrite (fr_tab _ _ _ _ (td_rel _ _ Hr)). unfold slot_of. rewrite Hx. simpl.
  intros Hv%lview_range. lia.
Qed.

Lemma tasks_s_close l fd t r t' : s_close l fd t = Some (r, t') -> t_tasks t' = t_tasks t.
Proof.
  unfold s_close. destruct (t_tab t !! (l, fd)) as [[a c]|]; [|by intros [= _ <-]]. apply tasks_let_go.
Qed.

Lemma free_matches n : forall s t l,
  drel s t -> l ∈ t_tasks t ->
  match s_exit n l t with
  | None => free_fds ops n l s = None
  | Some t' => exists s', free_fds ops n l s = Some s' /\ drel s' t' /\ t_tasks t' = t_tasks t
  end.
Proof.
  induction n as [|n IH]; intros s t l Hr Hl; simpl; [by exists s|].
  pose proof (close_matches s t l (Z.of_nat n) Hr Hl) as Hc.
  destruct (s_close l (Z.of_nat n) t) as [[r t1]|] eqn:Es; simpl; [|by rewrite Hc].
  destruct Hc as (s1 & E1 & Hr1). rewrite E1. simpl. pose proof (tasks_s_close _ _ _ _ _ Es) as Ht.
  rewrite <- Ht in Hl. specialize (IH s1 t1 l Hr1 Hl).
  destruct (s_exit n l t1) as [t2|]; [|done]. destruct IH as (s2 & E2 & Hr2 & Ht2).
  exists s2. split; [done|]. split; [done|congruence].
Qed.

(** After its descriptors are closed, no entry of the task is left. *)
Lemma s_close_tab l fd t r t' k :
  s_close l fd t = Some (r, t') -> t_tab t' !! k = if decide (k = (l, fd)) then None else t_tab t !! k.
Proof.
  unfold s_close, let_go. destruct (t_tab t !! (l, fd)) as [[a c]|] eqn:Ht.
  - case_decide as Hd; [destruct (t_info t !! a) as [f|]; [|done]; simpl;
      destruct (file_close ops f (t_world t)) as [[? ?]|]; [|done]; simpl|];
    intros [= _ <-]; simpl; (case_decide as Hk; [subst; apply lookup_delete_eq|by apply lookup_delete_ne]).
  - intros [= _ <-]. case_decide as Hk; [by subst|done].
Qed.

Lemma s_exit_tab n : forall l t t' fd,
  s_exit n l t = Some t' -> (0 <= fd < Z.of_nat n -> t_tab t' !! (l, fd) = None) /\
    (t_tab t !! (l, fd) = None -> t_tab t' !! (l, fd) = None).
Proof.
  induction n as [|n IH]; intros l t t' fd; simpl.
  { intros [= <-]. split; [lia|done]. }
  destruct (s_close l (Z.of_nat n) t) as [[r t1]|] eqn:E; [|done]. simpl. intros He.
  pose proof (s_close_tab _ _ _ _ _ (l, fd) E) as Hk. destruct (IH l t1 t' fd He) as [H1 H2].
  split.
  - intros Hfd. destruct (decide (fd = Z.of_nat n)) as [->|]; [|apply H1; lia].
    apply H2. by rewrite Hk, decide_True.
  - intros Ht. apply H2. rewrite Hk. by case_decide.
Qed.

Lemma exit_matches s t l :
  drel s t -> l ∈ t_tasks t ->
  exists o, fstep (FExit l) t o /\ matches (fop_exec (FExit l) s) o.
Proof.
  intros Hr Hl. destruct (drel_list _ _ _ Hr Hl) as [x Hx]. pose proof Hr as [Hf Hd Hw].
  simpl. unfold fdlist_free. rewrite Hx. cbn [mbind option_bind].
  set (n := Z.to_nat (fdlist_count x)).
  assert (forall fd v, t_tab t !! (l, fd) = Some v -> 0 <= fd < Z.of_nat n) as Hn.
  { intros fd v. rewrite (fr_tab _ _ _ _ Hf). unfold slot_of. rewrite Hx. simpl.
    intros Hv%lview_range. unfold n. lia. }
  eexists. split; [by apply fs_exit|]. pose proof (free_matches n s t l Hr Hl) as Hm.
  destruct (s_exit n l t) as [t'|] eqn:Ee; simpl; [|by rewrite Hm].
  destruct Hm as (s' & E & [Hf' Hd' Hw'] & Ht'). rewrite E. simpl. eexists. split; [reflexivity|].
  assert (forall fd, t_tab t' !! (l, fd) = None) as Hnone.
  { intros fd. destruct (s_exit_tab n l t t' fd Ee) as [H1 H2].
    destruct (t_tab t !! (l, fd)) as [v|] eqn:Ek; [|by apply H2]. apply H1. by eapply Hn. }
  constructor; simpl; [|by rewrite dom_delete_L, Hd', Ht'|done].
  destruct Hf' as [H1 H2 H3 H4 H5 H6 H7]. constructor; simpl; try done.
  - intros l' y. rewrite lookup_delete_Some. intros [_ ?]. by eapply H1.
  - intros l' fd. unfold slot_of. simpl. destruct (decide (l' = l)) as [->|Hne].
    + by rewrite lookup_delete_eq, Hnone.
    + rewrite lookup_delete_ne by done. apply H2.
Qed.

(** A file no descriptor names yet. *)
Lemma new_file_step (s : vfs W) tb fi a f (w : W) :
  frel s tb fi none -> a <> NULL -> fi !! a = None ->
  frel (mk_vfs (lists s) (<[a := mk_filp 0 f]> (files s)) w) tb (<[a := f]> fi) none /\ count a tb = O.
Proof.
  intros [H1 H2 H3 H4 H5 H6 H7] Ha Hfi.
  assert (files s !! a = None) as Hfa by (rewrite H3 in Hfi; by destruct (files s !! a)).
  assert (count a tb = O) as Hc.
  { destruct (decide (0 < count a tb)%nat) as [Hp|]; [|lia]. apply count_pos in Hp as (k & c & Hk).
    destruct (H5 _ _ _ Hk) as [g Hg]. by rewrite Hfa in Hg. }
  split; [|done]. constructor; simpl; try done.
  - intros b. destruct (decide (b = a)) as [->|Hb]; [by rewrite !lookup_insert_eq|].
    rewrite !lookup_insert_ne by done. apply H3.
  - intros b g. destruct (decide (b = a)) as [->|Hb].
    + rewrite lookup_insert_eq. intros [= <-]. simpl. rewrite Hc. done.
    + rewrite lookup_insert_ne by done. apply H4.
  - intros k b c Hk. destruct (decide (b = a)) as [->|Hb]; [by rewrite lookup_insert_eq|].
    rewrite lookup_insert_ne by done. by eapply H5.
  - unfold none. intros b. lia.
  - by rewrite lookup_insert_ne.
Qed.

Lemma drop_file_step (s : vfs W) tb fi a f (w : W) :
  frel s tb (<[a := f]> fi) none -> fi !! a = None -> count a tb = O ->
  frel (mk_vfs (lists s) (delete a (files s)) w) tb fi none.
Proof.
  intros [H1 H2 H3 H4 H5 H6 H7] Hfi Hc. constructor; simpl; try done.
  - intros b. destruct (decide (b = a)) as [->|Hb]; [by rewrite lookup_delete_eq|].
    rewrite lookup_delete_ne by done. rewrite <- H3. by rewrite lookup_insert_ne.
  - intros b g. rewrite lookup_delete_Some. intros [_ ?]. by apply H4.
  - intros k b c Hk. assert (b <> a).
    { intros ->. assert (0 < count a tb)%nat by (apply count_pos; by exists k, c). lia. }
    rewrite lookup_delete_ne by done. by eapply H5.
  - unfold none. intros b. lia.
  - destruct (decide (a = NULL)) as [->|]; [by rewrite lookup_delete_eq|by rewrite lookup_delete_ne].
Qed.

Lemma lowest_exists s t l x :
  drel s t -> lists s !! l = Some x -> exists fd, lowest (t_tab t) l fd.
Proof.
  intros [Hf _ _] Hx.
  assert (forall n, (exists fd, lowest (t_tab t) l fd) \/
    forall g, 0 <= g < Z.of_nat n -> t_tab t !! (l, g) <> None) as Hn.
  { induction n as [|n [IH|IH]]; [right; lia|by left|].
    destruct (t_tab t !! (l, Z.of_nat n)) eqn:E; [right|left; exists (Z.of_nat n); by split; [lia|]].
    intros g Hg. destruct (decide (g = Z.of_nat n)) as [->|]; [by rewrite E|apply IH; lia]. }
  destruct (Hn (S (Z.to_nat (Z.max 0 (fdlist_count x))))) as [?|H]; [done|]. destruct (H (Z.max 0 (fdlist_count x))); [lia|].
  rewrite (fr_tab _ _ _ _ Hf). unfold slot_of. rewrite Hx. simpl.
  destruct (lview x _) eqn:El; [|done]. apply lview_range in El. lia.
Qed.

Lemma open_matches s t mem a l path oflags :
  drel s t -> l ∈ t_tasks t -> (forall b, a = Some b -> b <> NULL /\ t_info t !! b = None) ->
  exists o, fstep (FOpen mem a l path oflags) t o /\ matches (fop_exec (FOpen mem a l path oflags) s) o.
Proof.
  intros Hr Hl Ha. destruct (drel_list _ _ _ Hr Hl) as [x Hx]. pose proof Hr as [Hf Hd Hw]. simpl.
  destruct a as [a|]; [|eexists; split; [apply fs_open_nomem|]; simpl; by exists s].
  destruct (Ha a eq_refl) as [Ha0 Hai]. unfold nx_vopen. rewrite Hw.
  assert (forall w, drel (with_world s w) (with_w t w)) as Hrw.
  { intros w. constructor; simpl; [by apply frel_world|done|done]. }
  destruct (lowest_exists s t l x Hr Hx) as [fd0 Hlow].
  pose proof (fs_open mem a l path oflags t fd0 Hlow) as Hearly.
  pose proof (fun fd H => fs_open mem a l path oflags t fd H) as Hgood.
  pose proof (fun r N H => fs_open_full mem a l path oflags t r N H) as Hfull.
  destruct (file_vopen ops path oflags (t_world t)) as [[[ret f] w2]|]; simpl in *; [|by eexists].
  destruct (ret <? 0); simpl in *; [eexists; split; [exact Hearly|]; by exists (with_world s w2)|].
  destruct (new_file_step s _ _ a f w2 Hf Ha0 Hai) as [Hf1 Hc].
  set (s1 := mk_vfs (lists s) (<[a := mk_filp 0 f]> (files s)) w2) in *.
  destruct (dupfile_step mem oflags s1 _ _ none l x a Hf1 Hx) as (fd & s2 & E2 & Hw2 & Hd2 & Hcase).
  { simpl. by rewrite lookup_insert_eq. }
  change (lists s1) with (lists s) in Hd2. change (world s1) with w2 in Hw2.
  rewrite E2. simpl. destruct Hcase as [(Hneg & Hf2 & Hno)|(Hpos & Hfree & Hocc & Hf2)].
  - replace (fd <? 0) with true by lia. rewrite Hw2. simpl.
    specialize (Hfull fd Hno ltac:(lia)).
    destruct (file_close ops f w2) as [[r w3]|]; simpl in *; [|by eexists].
    eexists. split; [exact Hfull|]. simpl. eexists. split; [reflexivity|].
    constructor; simpl; [by eapply drop_file_step|congruence|done].
  - replace (fd <? 0) with false by lia. simpl. clear Hearly. eexists. split; [by apply (Hgood fd)|]. simpl.
    exists s2. split; [done|]. constructor; simpl; [done|congruence|done].
Qed.

Lemma fop_refines s t op :
  drel s t -> fop_ok op t -> exists o, fstep op t o /\ matches (fop_exec op s) o.
Proof.
  intros Hr Hok. destruct op; simpl in Hok.
  - eexists. split; [apply fs_task|]. simpl. eexists. split; [reflexivity|].
    destruct Hr as [[H1 H2 H3 H4 H5 H6 H7] Hd Hw]. constructor; simpl; [|by rewrite dom_insert_L, Hd|done].
    assert (lists s !! l = None) as Hn by (apply not_elem_of_dom; by rewrite Hd).
    constructor; simpl; try done.
    + intros l' y. rewrite lookup_insert_Some. intros [[<- <-]|[_ ?]]; [|by eapply H1]. by repeat constructor.
    + intros l' fd. rewrite H2. unfold slot_of. simpl. destruct (decide (l' = l)) as [->|].
      * rewrite lookup_insert_eq, Hn. simpl. unfold lview, fdlist_count.
        change (fl_rows fdlist_init * CONFIG_NFILE_DESCRIPTORS_PER_BLOCK) with 8.
        destruct ((0 <=? fd) && (fd <? 8)) eqn:E; [|done]. zbool.
        assert (fd = 0 \/ fd = 1 \/ fd = 2 \/ fd = 3 \/ fd = 4 \/ fd = 5 \/ fd = 6 \/ fd = 7) as Hc by lia.
        by destruct Hc as [->|[->|[->|[->|[->|[->|[->| ->]]]]]]].
      * by rewrite lookup_insert_ne.
  - destruct Hok. by apply open_matches.
  - eexists. split; [apply fs_close|]. pose proof (close_matches s t l fd Hr Hok) as Hm. simpl.
    unfold int_res. destruct (s_close l fd t) as [[r t']|]; simpl; [|by rewrite Hm].
    destruct Hm as (s' & E & Hr'). rewrite E. simpl. by exists s'.
  - by apply dup_matches.
  - destruct Hok as (? & ? & ?). by apply dup2_matches.
  - destruct Hok. by apply dup3_matches.
  - by apply read_matches.
  - by apply write_matches.
  - destruct Hok as (? & ? & ?). by apply copy_matches.
  - by apply exit_matches.
Qed.

Lemma call_ok_fop s t op : drel s t -> call_ok op s = true -> fop_ok op t.
Proof.
  intros [Hf Hd _] Hok. destruct op; simpl in *; rewrite ?Hd in Hok; zbool;
    repeat match goal with H : bool_decide _ = _ |- _ => apply bool_decide_eq_true in H end; try done.
  - by apply bool_decide_eq_false in Hok.
  - destruct Hok as [Hl Ha]. apply bool_decide_eq_true in Hl. split; [done|]. intros b ->. zbool.
    destruct Ha as [Hb Ha]. apply bool_decide_eq_true in Ha. split; [done|].
    by rewrite (fr_info _ _ _ _ Hf), Ha.
  - destruct Hok as [[?%bool_decide_eq_true ?%bool_decide_eq_true] ?]. done.
  - destruct Hok as [?%bool_decide_eq_true ?]. done.
  - destruct Hok as [[?%bool_decide_eq_true ?%bool_decide_eq_true] ?]. done.
Qed.

Lemma fops_refine l : forall s t,
  drel s t -> calls_ok l s = true ->
  exists o, fruns l t o /\
    match o with
    | None => fop_run l s = None
    | Some (rs, t') => exists s', fop_run l s = Some (rs, s') /\ drel s' t'
    end.
Proof.
  induction l as [|op l IH]; intros s t Hr Hok.
  { eexists. split; [apply fruns_nil|]. by exists s. }
  simpl in Hok. zbool. destruct Hok as [Hop Hok].
  destruct (fop_refines s t op Hr (call_ok_fop _ _ _ Hr Hop)) as (o & Hs & Hm). simpl.
  destruct o as [[r t1]|]; simpl in Hm.
  2:{ eexists. split; [by apply fruns_undef|]. simpl. by rewrite Hm. }
  destruct Hm as (s1 & E1 & Hr1). rewrite E1 in Hok |- *. simpl.
  destruct (IH s1 t1 Hr1 Hok) as (o & Hruns & Ho). eexists. split; [by eapply fruns_step|].
  destruct o as [[rs t2]|]; simpl; [|by rewrite Ho].
  destruct Ho as (s2 & E2 & Hr2). rewrite E2. by exists s2.
Qed.
End descriptors.

Definition no_files {W} (w : W) : vfs W := mk_vfs ∅ ∅ w.
Definition no_descriptors {W} (w : W) : fspec W := mk_fspec ∅ ∅ ∅ w.

Lemma no_files_rel {W} (w : W) : drel (no_files w) (no_descriptors w).
Proof. constructor; [|done|done]. constructor; simpl; try done. unfold none. intros a. lia. Qed.

(** C32: descriptor lists and counted references implement descriptors that name
    files.  For any drivers and any sequence of the calls that create a task's
    list, open, close, duplicate (to a given descriptor only below [OPEN_MAX]),
    read, write, hand descriptors to a new task and end a task, made by tasks
    that exist, the results and what the drivers get to see are those of the
    specification, in which a new descriptor is the lowest free one, a call
    fails for want of descriptors only when none is free or there is no memory
    for more, and a file is closed exactly when the last descriptor that names
    it goes; the only undefined behaviour is that of a driver.  Afterwards each
    list holds the descriptors of the specification and the count of each file
    is the number of descriptors that name it, so no file leaks and none is
    freed while in use. *)
Theorem descriptors_refine_table W (ops : vfs_ops W) l (w : W) :
  calls_ok ops l (no_files w) = true ->
  exists o, fruns ops l (no_descriptors w) o /\
    match o with
    | None => fop_run ops l (no_files w) = None
    | Some (rs, t) => exists s, fop_run ops l (no_files w) = Some (rs, s) /\ world s = t_world t /\
        (forall l fd, t_tab t !! (l, fd) = slot_of s l fd) /\
        (forall a f, files s !! a = Some f ->
           t_info t !! a = Some (fp_info f) /\ fp_refs f = Z.of_nat (count a (t_tab t)))
    end.
Proof.
  intros Hok. destruct (fops_refine ops l _ _ (no_files_rel w) Hok) as (o & Hr & Ho).
  exists o. split; [done|]. destruct o as [[rs t]|]; [|done]. destruct Ho as (s & E & [Hf Hd Hw]).
  exists s. split; [done|]. split; [done|]. split; [apply (fr_tab _ _ _ _ Hf)|]. intros a f Ha.
  split; [by rewrite (fr_info _ _ _ _ Hf), Ha|]. rewrite (fr_refs _ _ _ _ Hf a f Ha). unfold none. lia.
Qed.

(** A driver that keeps what is written and counts how often it is open. *)
Definition log_ops : vfs_ops (Z * list Z) :=
  {| vo_find := fun path w => Some (if decide (path = chars "/dev/log") then (0, 7, w) else (- ENOENT, NULL, w));
     vo_release := fun _ w => Some w;
     vo_checkperm := fun _ _ _ => 0;
     vo_opendir := fun f w => Some (- ENOTDIR, f, w);
     vo_open := fun _ _ '(n, d) => Some (0, 0, (n + 1, d));
     vo_close := fun _ '(n, d) => Some (0, (n - 1, d));
     vo_read := fun _ len '(n, d) => Some (zlen (take (Z.to_nat len) d), take (Z.to_nat len) d, (n, d));
     vo_write := fun _ data '(n, d) => Some (zlen data, (n, d ++ data)) |}.

(** A task opens a file, duplicates it, closes the first descriptor and hands the
    other one to a new task, which writes to it. *)
Definition demo_calls : list fop :=
  [FTask 1; FOpen true (Some 100) 1 (chars "/dev/log") 3; FDup true 1 0; FClose 1 0; FTask 2;
   FCopy true 1 2 false; FExit 1; FWrite 2 1 [5; 6]; FRead 2 1 true 2; FExit 2].

Lemma descriptors_refine_table_witness :
  calls_ok log_ops demo_calls (no_files (0, [])) = true /\
  exists o, fruns log_ops demo_calls (no_descriptors (0, [])) o /\
    match o with
    | None => fop_run log_ops demo_calls (no_files (0, [])) = None
    | Some (rs, t) => exists s, fop_run log_ops demo_calls (no_files (0, [])) = Some (rs, s) /\
        world s = t_world t /\ (forall l fd, t_tab t !! (l, fd) = slot_of s l fd) /\
        (forall a f, files s !! a = Some f ->
           t_info t !! a = Some (fp_info f) /\ fp_refs f = Z.of_nat (count a (t_tab t)))
    end.
Proof.
  split; [vm_compute; reflexivity|].
  apply (descriptors_refine_table _ log_ops demo_calls (0, [])). vm_compute. reflexivity.
Defined.

Lemma demo_calls_run :
  fop_run log_ops demo_calls (no_files (0, [])) =
  Some ([FInt 0; FInt 0; FInt 1; FInt 0; FInt 0; FInt 0; FInt 0; FInt 2; FData 2 [5; 6]; FInt 0],
        no_files (0, [5; 6])).
Proof. vm_compute. reflexivity. Qed.

(** ** A defect *)

(** [fdlist_dup3] does not compare [fd2] with [OPEN_MAX], and [fl_rows] is a
    [uint8_t]: descriptor 2040 is in row 255, the list gets 256 rows and counts
    none.  The call fails, and after it the task has no descriptors; its file
    stays open. *)
Theorem dup3_loses_descriptors :
  exists s, fop_run log_ops [FTask 1; FOpen true (Some 100) 1 (chars "/dev/log") 3; FDup2 true 1 1 0 2040]
      (no_files (0, [])) = Some ([FInt 0; FInt 0; FInt (- EBADF)], s) /\
    (forall fd, fdlist_get2 1 fd s = Some (- EBADF, NULL, s)) /\
    fp_refs <$> files s !! 100 = Some 1 /\ world s = (1, []).
Proof.
  assert (forall (s : vfs (Z * list Z)) x, lists s !! 1 = Some x -> fl_rows x = 0 ->
    forall fd, fdlist_get2 1 fd s = Some (- EBADF, NULL, s)) as Hnone.
  { intros s x Hx Hr fd. unfold fdlist_get2, fdlist_count. rewrite Hx. simpl. rewrite Hr.
    by replace ((fd <? 0) || (0 * _ <=? fd)) with true by lia. }
  eexists. split; [vm_compute; reflexivity|]. split; [|done]. by eapply Hnone.
Qed.
