(* ===== verification/Serial.v ===== *)
(** The serial driver: drivers/serial/serial.c and serial_io.c.

    The ring buffers of a UART, the calls of the tasks and the interrupt handlers
    that empty and fill the rings.  A call of a task is a computation of the
    monad [M]: it can be interrupted before each access to what the handlers
    share with it ([tick]), by the next one of the events in [u_evs]; a wait for a
    semaphore goes on with the events until one posts it.  An event is one run of
    the handler, of which there is one because the configuration has no SMP.
    [Block] is a wait that no event ends, [Bad] undefined behaviour.

    The configuration is that of the board: no termios, DMA, flow control,
    removable devices, signals from the terminal or cancellation points, and a
    lower half without [sendbuf], [recvbuf] and [release].  The receive buffer has
    one reader. *)

From S2P Require Import Prelude.
From stdpp Require Import list.
From S2P Require Import Inode Files Poll.
Local Open Scope Z_scope.

(** ** Constants *)

Definition CR : Z := 13.
Definition NL : Z := 10.
Definition ASCII_BS : Z := 8.
Definition ASCII_ESC : Z := 27.
Definition ASCII_LBRACKET : Z := 91.
Definition ASCII_DEL : Z := 127.
Definition INLCR : Z := 2 ^ 6.
Definition IGNCR : Z := 2 ^ 7.
Definition ICRNL : Z := 2 ^ 8.
Definition OPOST : Z := 2 ^ 0.
Definition ONLCR : Z := 2 ^ 2.
Definition OCRNL : Z := 2 ^ 3.
Definition ONLRET : Z := 2 ^ 5.
Definition ISIG : Z := 2 ^ 0.
Definition ICANON : Z := 2 ^ 1.
Definition ECHO : Z := 2 ^ 3.
Definition CONFIG_SERIAL_NPOLLWAITERS : Z := 4.

(** ** State *)

(** [struct uart_buffer_s]; the indices are [int16_t]. *)
Record uart_buffer_s := mk_ubuf {
  b_lock : bool;
  b_head : Z;
  b_tail : Z;
  b_size : Z;
  b_buffer : list Z
}.

(** What happens at a point where interrupts are enabled: the transmitter takes
    up to [n] bytes, bytes arrive, a signal is sent to the task, or another task
    echoes a character. *)
Inductive uart_ev :=
| EvNone
| EvTx (n : nat)
| EvRx (l : list Z)
| EvSig
| EvEcho (ch : Z).

(** [struct uart_dev_s], the interrupt enables and lines of the hardware, and the
    events to come.  [u_xmitsem] and [u_recvsem] are the counts of the
    semaphores, negative when tasks wait.  [u_wire] is what was sent, [u_in] what
    was put into the receive buffer, [u_lost] what was dropped because it was
    full; nothing reads them.  [u_crit] is how deep the task is in critical
    sections. *)
Record uart := mk_uart {
  u_open_count : Z;
  u_escape : Z;
  u_isconsole : bool;
  u_unlinked : bool;
  u_iflag : Z;
  u_oflag : Z;
  u_lflag : Z;
  u_xmitsem : Z;
  u_recvsem : Z;
  u_closelock : bool;
  u_xmit : uart_buffer_s;
  u_recv : uart_buffer_s;
  u_fds : list (option pollfd);
  u_attached : bool;
  u_txint : bool;
  u_rxint : bool;
  u_crit : Z;
  u_wire : list Z;
  u_in : list Z;
  u_lost : list Z;
  u_evs : list uart_ev
}.

Definition u_set_open_count (x : Z) (u : uart) : uart :=
  mk_uart x (u_escape u) (u_isconsole u) (u_unlinked u) (u_iflag u) (u_oflag u) (u_lflag u)
    (u_xmitsem u) (u_recvsem u) (u_closelock u) (u_xmit u) (u_recv u) (u_fds u) (u_attached u)
    (u_txint u) (u_rxint u) (u_crit u) (u_wire u) (u_in u) (u_lost u) (u_evs u).
Definition u_set_escape (x : Z) (u : uart) : uart :=
  mk_uart (u_open_count u) x (u_isconsole u) (u_unlinked u) (u_iflag u) (u_oflag u) (u_lflag u)
    (u_xmitsem u) (u_recvsem u) (u_closelock u) (u_xmit u) (u_recv u) (u_fds u) (u_attached u)
    (u_txint u) (u_rxint u) (u_crit u) (u_wire u) (u_in u) (u_lost u) (u_evs u).
Definition u_set_isconsole (x : bool) (u : uart) : uart :=
  mk_uart (u_open_count u) (u_escape u) x (u_unlinked u) (u_iflag u) (u_oflag u) (u_lflag u)
    (u_xmitsem u) (u_recvsem u) (u_closelock u) (u_xmit u) (u_recv u) (u_fds u) (u_attached u)
    (u_txint u) (u_rxint u) (u_crit u) (u_wire u) (u_in u) (u_lost u) (u_evs u).
Definition u_set_unlinked (x : bool) (u : uart) : uart :=
  mk_uart (u_open_count u) (u_escape u) (u_isconsole u) x (u_iflag u) (u_oflag u) (u_lflag u)
    (u_xmitsem u) (u_recvsem u) (u_closelock u) (u_xmit u) (u_recv u) (u_fds u) (u_attached u)
    (u_txint u) (u_rxint u) (u_crit u) (u_wire u) (u_in u) (u_lost u) (u_evs u).
Definition u_set_iflag (x : Z) (u : uart) : uart :=
  mk_uart (u_open_count u) (u_escape u) (u_isconsole u) (u_unlinked u) x (u_oflag u) (u_lflag u)
    (u_xmitsem u) (u_recvsem u) (u_closelock u) (u_xmit u) (u_recv u) (u_fds u) (u_attached u)
    (u_txint u) (u_rxint u) (u_crit u) (u_wire u) (u_in u) (u_lost u) (u_evs u).
Definition u_set_oflag (x : Z) (u : uart) : uart :=
  mk_uart (u_open_count u) (u_escape u) (u_isconsole u) (u_unlinked u) (u_iflag u) x (u_lflag u)
    (u_xmitsem u) (u_recvsem u) (u_closelock u) (u_xmit u) (u_recv u) (u_fds u) (u_attached u)
    (u_txint u) (u_rxint u) (u_crit u) (u_wire u) (u_in u) (u_lost u) (u_evs u).
Definition u_set_lflag (x : Z) (u : uart) : uart :=
  mk_uart (u_open_count u) (u_escape u) (u_isconsole u) (u_unlinked u) (u_iflag u) (u_oflag u) x
    (u_xmitsem u) (u_recvsem u) (u_closelock u) (u_xmit u) (u_recv u) (u_fds u) (u_attached u)
    (u_txint u) (u_rxint u) (u_crit u) (u_wire u) (u_in u) (u_lost u) (u_evs u).
Definition u_set_xmitsem (x : Z) (u : uart) : uart :=
  mk_uart (u_open_count u) (u_escape u) (u_isconsole u) (u_unlinked u) (u_iflag u) (u_oflag u)
    (u_lflag u) x (u_recvsem u) (u_closelock u) (u_xmit u) (u_recv u) (u_fds u) (u_attached u)
    (u_txint u) (u_rxint u) (u_crit u) (u_wire u) (u_in u) (u_lost u) (u_evs u).
Definition u_set_recvsem (x : Z) (u : uart) : uart :=
  mk_uart (u_open_count u) (u_escape u) (u_isconsole u) (u_unlinked u) (u_iflag u) (u_oflag u)
    (u_lflag u) (u_xmitsem u) x (u_closelock u) (u_xmit u) (u_recv u) (u_fds u) (u_attached u)
    (u_txint u) (u_rxint u) (u_crit u) (u_wire u) (u_in u) (u_lost u) (u_evs u).
Definition u_set_closelock (x : bool) (u : uart) : uart :=
  mk_uart (u_open_count u) (u_escape u) (u_isconsole u) (u_unlinked u) (u_iflag u) (u_oflag u)
    (u_lflag u) (u_xmitsem u) (u_recvsem u) x (u_xmit u) (u_recv u) (u_fds u) (u_attached u)
    (u_txint u) (u_rxint u) (u_crit u) (u_wire u) (u_in u) (u_lost u) (u_evs u).
Definition u_set_xmit (x : uart_buffer_s) (u : uart) : uart :=
  mk_uart (u_open_count u) (u_escape u) (u_isconsole u) (u_unlinked u) (u_iflag u) (u_oflag u)
    (u_lflag u) (u_xmitsem u) (u_recvsem u) (u_closelock u) x (u_recv u) (u_fds u) (u_attached u)
    (u_txint u) (u_rxint u) (u_crit u) (u_wire u) (u_in u) (u_lost u) (u_evs u).
Definition u_set_recv (x : uart_buffer_s) (u : uart) : uart :=
  mk_uart (u_open_count u) (u_escape u) (u_isconsole u) (u_unlinked u) (u_iflag u) (u_oflag u)
    (u_lflag u) (u_xmitsem u) (u_recvsem u) (u_closelock u) (u_xmit u) x (u_fds u) (u_attached u)
    (u_txint u) (u_rxint u) (u_crit u) (u_wire u) (u_in u) (u_lost u) (u_evs u).
Definition u_set_fds (x : list (option pollfd)) (u : uart) : uart :=
  mk_uart (u_open_count u) (u_escape u) (u_isconsole u) (u_unlinked u) (u_iflag u) (u_oflag u)
    (u_lflag u) (u_xmitsem u) (u_recvsem u) (u_closelock u) (u_xmit u) (u_recv u) x (u_attached u)
    (u_txint u) (u_rxint u) (u_crit u) (u_wire u) (u_in u) (u_lost u) (u_evs u).
Definition u_set_attached (x : bool) (u : uart) : uart :=
  mk_uart (u_open_count u) (u_escape u) (u_isconsole u) (u_unlinked u) (u_iflag u) (u_oflag u)
    (u_lflag u) (u_xmitsem u) (u_recvsem u) (u_closelock u) (u_xmit u) (u_recv u) (u_fds u) x
    (u_txint u) (u_rxint u) (u_crit u) (u_wire u) (u_in u) (u_lost u) (u_evs u).
Definition u_set_txint (x : bool) (u : uart) : uart :=
  mk_uart (u_open_count u) (u_escape u) (u_isconsole u) (u_unlinked u) (u_iflag u) (u_oflag u)
    (u_lflag u) (u_xmitsem u) (u_recvsem u) (u_closelock u) (u_xmit u) (u_recv u) (u_fds u)
    (u_attached u) x (u_rxint u) (u_crit u) (u_wire u) (u_in u) (u_lost u) (u_evs u).
Definition u_set_rxint (x : bool) (u : uart) : uart :=
  mk_uart (u_open_count u) (u_escape u) (u_isconsole u) (u_unlinked u) (u_iflag u) (u_oflag u)
    (u_lflag u) (u_xmitsem u) (u_recvsem u) (u_closelock u) (u_xmit u) (u_recv u) (u_fds u)
    (u_attached u) (u_txint u) x (u_crit u) (u_wire u) (u_in u) (u_lost u) (u_evs u).
Definition u_set_crit (x : Z) (u : uart) : uart :=
  mk_uart (u_open_count u) (u_escape u) (u_isconsole u) (u_unlinked u) (u_iflag u) (u_oflag u)
    (u_lflag u) (u_xmitsem u) (u_recvsem u) (u_closelock u) (u_xmit u) (u_recv u) (u_fds u)
    (u_attached u) (u_txint u) (u_rxint u) x (u_wire u) (u_in u) (u_lost u) (u_evs u).
Definition u_set_wire (x : list Z) (u : uart) : uart :=
  mk_uart (u_open_count u) (u_escape u) (u_isconsole u) (u_unlinked u) (u_iflag u) (u_oflag u)
    (u_lflag u) (u_xmitsem u) (u_recvsem u) (u_closelock u) (u_xmit u) (u_recv u) (u_fds u)
    (u_attached u) (u_txint u) (u_rxint u) (u_crit u) x (u_in u) (u_lost u) (u_evs u).
Definition u_set_in (x : list Z) (u : uart) : uart :=
  mk_uart (u_open_count u) (u_escape u) (u_isconsole u) (u_unlinked u) (u_iflag u) (u_oflag u)
    (u_lflag u) (u_xmitsem u) (u_recvsem u) (u_closelock u) (u_xmit u) (u_recv u) (u_fds u)
    (u_attached u) (u_txint u) (u_rxint u) (u_crit u) (u_wire u) x (u_lost u) (u_evs u).
Definition u_set_lost (x : list Z) (u : uart) : uart :=
  mk_uart (u_open_count u) (u_escape u) (u_isconsole u) (u_unlinked u) (u_iflag u) (u_oflag u)
    (u_lflag u) (u_xmitsem u) (u_recvsem u) (u_closelock u) (u_xmit u) (u_recv u) (u_fds u)
    (u_attached u) (u_txint u) (u_rxint u) (u_crit u) (u_wire u) (u_in u) x (u_evs u).
Definition u_set_evs (x : list uart_ev) (u : uart) : uart :=
  mk_uart (u_open_count u) (u_escape u) (u_isconsole u) (u_unlinked u) (u_iflag u) (u_oflag u)
    (u_lflag u) (u_xmitsem u) (u_recvsem u) (u_closelock u) (u_xmit u) (u_recv u) (u_fds u)
    (u_attached u) (u_txint u) (u_rxint u) (u_crit u) (u_wire u) (u_in u) (u_lost u) x.
Definition b_set_lock (x : bool) (b : uart_buffer_s) : uart_buffer_s :=
  mk_ubuf x (b_head b) (b_tail b) (b_size b) (b_buffer b).
Definition b_set_head (x : Z) (b : uart_buffer_s) : uart_buffer_s :=
  mk_ubuf (b_lock b) x (b_tail b) (b_size b) (b_buffer b).
Definition b_set_tail (x : Z) (b : uart_buffer_s) : uart_buffer_s :=
  mk_ubuf (b_lock b) (b_head b) x (b_size b) (b_buffer b).
Definition b_set_buffer (x : list Z) (b : uart_buffer_s) : uart_buffer_s :=
  mk_ubuf (b_lock b) (b_head b) (b_tail b) (b_size b) x.

(** ** Interrupt handlers *)

Section handlers.
Implicit Types u : uart.

(** [uart_poll_notify] of the slots from [min] to [max]. *)
Definition uart_poll_notify (min max : Z) (eventset : Z) u : uart :=
  u_set_fds (imap (fun i f => if (min <=? Z.of_nat i) && (Z.of_nat i <? max)
                              then poll_notify eventset f else f) (u_fds u)) u.

(** [uart_wakeup]: the count after [n] posts. *)
Fixpoint sem_posts (n : nat) (count : Z) : Z :=
  match n with O => count | S n => sem_posts n (count + 1) end.
Definition uart_wakeup (sval : Z) : Z := sem_posts (Z.to_nat (1 - sval)) sval.

Definition uart_datareceived u : uart :=
  let u := uart_poll_notify 0 CONFIG_SERIAL_NPOLLWAITERS POLLIN u in
  u_set_recvsem (uart_wakeup (u_recvsem u)) u.

Definition uart_datasent u : uart :=
  let u := uart_poll_notify 0 CONFIG_SERIAL_NPOLLWAITERS POLLOUT u in
  u_set_xmitsem (uart_wakeup (u_xmitsem u)) u.

(** [uart_xmitchars]: the hardware is ready for [n] bytes.  The second result of
    the loop is [nbytes]. *)
Fixpoint xmitchars_loop (n : nat) (nbytes : Z) u : option (uart * Z) :=
  match n with
  | O => Some (u, nbytes)
  | S n =>
      let b := u_xmit u in
      if b_head b =? b_tail b then Some (u, nbytes)
      else
        ch ← load (b_buffer b) (b_tail b);
        let tail := b_tail b + 1 in
        let tail := if b_size b <=? tail then 0 else tail in
        xmitchars_loop n (u16 (nbytes + 1))
          (u_set_wire (u_wire u ++ [ch]) (u_set_xmit (b_set_tail tail b) u))
  end.
Definition uart_xmitchars (n : nat) u : option uart :=
  '(u, nbytes) ← xmitchars_loop n 0 u;
  let u := if b_head (u_xmit u) =? b_tail (u_xmit u) then u_set_txint false u else u in
  Some (if nbytes =? 0 then u else uart_datasent u).

(** [uart_recvchars]: the hardware has the bytes [l]. *)
Definition next_index (size i : Z) : Z := if i + 1 <? size then i + 1 else 0.
Fixpoint recvchars_loop (l : list Z) u : option uart :=
  match l with
  | [] => Some u
  | ch :: l =>
      let b := u_recv u in
      let nexthead := next_index (b_size b) (b_head b) in
      if nexthead =? b_tail b then recvchars_loop l (u_set_lost (u_lost u ++ [ch]) u)
      else
        buffer ← store (b_buffer b) (b_head b) ch;
        recvchars_loop l
          (u_set_in (u_in u ++ [ch]) (u_set_recv (b_set_head nexthead (b_set_buffer buffer b)) u))
  end.

(** The bytes buffered, as counted in several places. *)
Definition nbuffered (b : uart_buffer_s) : Z :=
  if b_tail b <=? b_head b then b_head b - b_tail b else b_size b - b_tail b + b_head b.

Definition uart_recvchars (l : list Z) u : option uart :=
  u ← recvchars_loop l u;
  Some (if u16 (nbuffered (u_recv u)) =? 0 then u else uart_datareceived u).

(** The body of [uart_putxmitchar] when there is room: two writes. *)
Definition xmit_store (ch : Z) u : option uart :=
  let b := u_xmit u in
  buffer ← store (b_buffer b) (b_head b) ch;
  Some (u_set_xmit (b_set_buffer buffer b) u).
Definition xmit_head (nexthead : Z) u : uart := u_set_xmit (b_set_head nexthead (u_xmit u)) u.
Definition xmit_next u : Z :=
  let nexthead := b_head (u_xmit u) + 1 in
  if b_size (u_xmit u) <=? nexthead then 0 else nexthead.

(** An event, as far as the interrupt enables let it happen. *)
Definition handle (e : uart_ev) u : option uart :=
  match e with
  | EvNone | EvSig => Some u
  | EvTx n => if u_attached u && u_txint u then uart_xmitchars n u else Some u
  | EvRx l => if u_attached u && u_rxint u then uart_recvchars l u else Some u
  | EvEcho ch =>
      let nexthead := xmit_next u in
      if nexthead =? b_tail (u_xmit u) then Some u
      else u ← xmit_store ch u; Some (xmit_head nexthead u)
  end.
End handlers.

(** ** Computations of a task *)

Inductive out (A : Type) := Done (a : A) (u : uart) | Block | Bad.
Arguments Done {A}. Arguments Block {A}. Arguments Bad {A}.

Definition M (A : Type) : Type := uart -> out A.
#[export] Instance M_ret : MRet M := fun A a u => Done a u.
#[export] Instance M_bind : MBind M := fun A B k m u =>
  match m u with Done a u => k a u | Block => Block | Bad => Bad end.

Definition get : M uart := fun u => Done u u.
Definition modify (f : uart -> uart) : M unit := fun u => Done tt (f u).
Definition attempt (f : uart -> option uart) : M unit := fun u =>
  match f u with Some u => Done tt u | None => Bad end.
Definition bad {A} : M A := fun _ => Bad.

(** The next event, if there is one left. *)
Definition tick : M unit := fun u =>
  match u_evs u with
  | [] => Done tt u
  | e :: evs => match handle e (u_set_evs evs u) with Some u => Done tt u | None => Bad end
  end.

Definition enter_critical_section : M unit := modify (fun u => u_set_crit (u_crit u + 1) u).
Definition leave_critical_section : M unit := modify (fun u => u_set_crit (u_crit u - 1) u).
Definition txint (x : bool) : M unit := modify (u_set_txint x).
Definition rxint (x : bool) : M unit := modify (u_set_rxint x).

(** [nxsem_wait] on one of the two semaphores.  Interrupts are enabled while the
    task sleeps; a signal ends the wait. *)
Inductive uart_sem := XMITSEM | RECVSEM.
Definition sem_count (w : uart_sem) (u : uart) : Z :=
  match w with XMITSEM => u_xmitsem u | RECVSEM => u_recvsem u end.
Definition set_count (w : uart_sem) (x : Z) (u : uart) : uart :=
  match w with XMITSEM => u_set_xmitsem x u | RECVSEM => u_set_recvsem x u end.

Fixpoint sem_sleep (w : uart_sem) (evs : list uart_ev) (u : uart) : out Z :=
  match evs with
  | [] => Block
  | EvSig :: evs => Done (- EINTR) (u_set_evs evs (set_count w (sem_count w u + 1) u))
  | e :: evs =>
      match handle e (u_set_evs evs u) with
      | None => Bad
      | Some u => if 0 <=? sem_count w u then Done OK u else sem_sleep w evs u
      end
  end.
Definition sem_wait (w : uart_sem) : M Z := fun u =>
  let u := set_count w (sem_count w u - 1) u in
  if 0 <=? sem_count w u then Done OK u else sem_sleep w (u_evs u) u.

(** A null result is undefined behaviour. *)
Definition olift {A} (o : option A) : M A := fun u => match o with Some a => Done a u | None => Bad end.

(** [nxmutex_lock] with its result [lret], negative when a signal ended the wait
    for the holder, and [nxmutex_unlock]. *)
Definition lock_xmit (lret : Z) : M Z :=
  if lret <? 0 then mret lret
  else modify (fun u => u_set_xmit (b_set_lock true (u_xmit u)) u);; mret OK.
Definition unlock_xmit : M unit := modify (fun u => u_set_xmit (b_set_lock false (u_xmit u)) u).
Definition lock_recv (lret : Z) : M Z :=
  if lret <? 0 then mret lret
  else modify (fun u => u_set_recv (b_set_lock true (u_recv u)) u);; mret OK.
Definition unlock_recv : M unit := modify (fun u => u_set_recv (b_set_lock false (u_recv u)) u).
Definition lock_close (lret : Z) : M Z :=
  if lret <? 0 then mret lret else modify (u_set_closelock true);; mret OK.
Definition unlock_close : M unit := modify (u_set_closelock false).

(** ** Transmission *)

(** [uart_putxmitchar].  An iteration either ends, takes a count of the semaphore
    or has used an event, so that [put_fuel] is enough. *)
Fixpoint putxmitchar_loop (fuel : nat) (ch : Z) (oktoblock : bool) : M Z :=
  match fuel with
  | O => bad
  | S fuel =>
      tick;; u ← get;
      let nexthead := xmit_next u in
      tick;; u ← get;
      if negb (nexthead =? b_tail (u_xmit u)) then
        tick;; attempt (xmit_store ch);;
        tick;; modify (xmit_head nexthead);;
        mret OK
      else if oktoblock then
        tick;; enter_critical_section;;
        u ← get;
        ret ← (if negb (nexthead =? b_tail (u_xmit u)) then mret OK
               else txint true;; ret ← sem_wait XMITSEM; txint false;; mret ret);
        leave_critical_section;;
        if ret <? 0 then mret (- EINTR) else putxmitchar_loop fuel ch oktoblock
      else mret (- EAGAIN)
  end.
Definition put_fuel (u : uart) : nat := (2 * length (u_evs u) + Z.to_nat (u_xmitsem u) + 1)%nat.
Definition uart_putxmitchar (ch : Z) (oktoblock : bool) : M Z := fun u =>
  putxmitchar_loop (put_fuel u) ch oktoblock u.

(** [uart_putchars]: each byte is sent when the hardware is ready. *)
Definition uart_putchars (l : list Z) : M unit := modify (fun u => u_set_wire (u_wire u ++ l) u).

(** [uart_irqwrite] from position [head] on, with [pending] the bytes between
    [tail] and [head]. *)
Fixpoint irqwrite_loop (oflag : Z) (pending l : list Z) : M unit :=
  match l with
  | [] => uart_putchars pending
  | ch :: l =>
      pending ← (if (ch =? CR) && has_flag oflag OCRNL
                 then uart_putchars pending;; uart_putchars [NL];; mret []
                 else if (ch =? NL) && has_flag oflag (Z.lor ONLCR ONLRET)
                 then uart_putchars pending;; uart_putchars [CR];; mret [ch]
                 else mret (pending ++ [ch]));
      irqwrite_loop oflag pending l
  end.
Definition uart_irqwrite (l : list Z) : M Z :=
  u ← get;
  (if has_flag (u_oflag u) OPOST then irqwrite_loop (u_oflag u) [] l else uart_putchars l);;
  mret (zlen l).

Definition SSIZE_MAX : Z := 2 ^ 31 - 1.
Fixpoint irqwritev_loop (total : Z) (iov : list (list Z)) : M Z :=
  match iov with
  | [] => mret total
  | l :: iov =>
      if zlen l =? 0 then irqwritev_loop total iov
      else
        written ← uart_irqwrite l;
        if written <? 0 then mret (if total =? 0 then written else total)
        else if SSIZE_MAX - total <? written then mret (if total =? 0 then - EOVERFLOW else total)
        else irqwritev_loop (total + written) iov
  end.
Definition uart_irqwritev (iov : list (list Z)) : M Z := irqwritev_loop 0 iov.

(** The loop of [uart_writev]: one character, and all of [data] when [nwritten]
    bytes were asked for. *)
Definition writev_char (oktoblock : bool) (ch : Z) : M Z :=
  u ← get;
  let post := has_flag (u_oflag u) OPOST in
  let ch := if post && (ch =? CR) && has_flag (u_oflag u) OCRNL then NL else ch in
  ret ← (if post && (ch =? NL) && has_flag (u_oflag u) (Z.lor ONLCR ONLRET)
         then uart_putxmitchar CR oktoblock else mret OK);
  if 0 <=? ret then uart_putxmitchar ch oktoblock else mret ret.
Fixpoint writev_loop (oktoblock : bool) (nwritten : Z) (data : list Z) : M Z :=
  match data with
  | [] => mret nwritten
  | ch :: rest =>
      ret ← writev_char oktoblock ch;
      if ret <? 0 then mret (if zlen data <? nwritten then nwritten - zlen data else ret)
      else writev_loop oktoblock nwritten rest
  end.

(** [uart_writev]; [irq] says whether the caller is an interrupt handler or the
    idle task, [lret] is the result of the lock. *)
Definition uart_writev (irq : bool) (oflags lret : Z) (iov : list (list Z)) : M Z :=
  if irq then
    enter_critical_section;; ret ← uart_irqwritev iov; leave_critical_section;; mret ret
  else
    let data := concat iov in
    ret ← lock_xmit lret;
    if ret <? 0 then mret ret
    else
      tick;; txint false;;
      nwritten ← writev_loop (negb (has_flag oflags O_NONBLOCK)) (zlen data) data;
      u ← get;
      (if negb (b_head (u_xmit u) =? b_tail (u_xmit u)) then txint true else mret ());;
      unlock_xmit;;
      mret nwritten.

(** [uart_tcdrain]; [drained] says whether the transmitter is empty before the
    timeout. *)
Fixpoint tcdrain_loop (fuel : nat) : M Z :=
  match fuel with
  | O => bad
  | S fuel =>
      u ← get;
      if b_head (u_xmit u) =? b_tail (u_xmit u) then mret OK
      else
        txint true;; ret ← sem_wait XMITSEM; txint false;;
        if ret <? 0 then mret ret else tcdrain_loop fuel
  end.
Definition uart_tcdrain (lret : Z) (drained : bool) : M Z :=
  ret ← lock_xmit lret;
  if ret <? 0 then mret ret
  else
    tick;; enter_critical_section;;
    ret ← (fun u => tcdrain_loop (put_fuel u) u);
    leave_critical_section;;
    if (0 <=? ret) && negb drained then unlock_xmit;; mret (- ETIMEDOUT)
    else unlock_xmit;; mret ret.

(** ** Reception *)

(** The input processing of one character; [None] when it is discarded. *)
Definition input_char (iflag ch : Z) : option Z :=
  if has_flag iflag (Z.lor INLCR (Z.lor IGNCR ICRNL)) then
    let ch := if (ch =? NL) && has_flag iflag INLCR then CR
              else if (ch =? CR) && has_flag iflag ICRNL then NL else ch in
    if (ch =? CR) && has_flag iflag IGNCR then None else Some ch
  else Some ch.

Definition iscntrl (c : Z) : bool := (c <? 0x20) || (c =? 0x7f).

(** The echo of a character that was stored: whether the loop continues at its
    head, and the new [echoed]. *)
Definition echo_char (ch : Z) (echoed : bool) : M (bool * bool) :=
  u ← get;
  if negb (has_flag (u_lflag u) ECHO) then mret (false, echoed)
  else if ch =? ASCII_ESC then modify (u_set_escape 2);; mret (true, echoed)
  else if (0 <? u_escape u) && negb ((u_escape u =? 2) && negb (ch =? ASCII_LBRACKET)) then
    modify (u_set_escape (u_escape u - 1));; mret (true, echoed)
  else
    (if u_escape u =? 2 then modify (u_set_escape 0) else mret ());;
    if negb (iscntrl (Z.land ch 0xff)) || (ch =? NL) then
      (if ch =? NL then uart_putxmitchar CR true;; mret () else mret ());;
      uart_putxmitchar ch true;;
      if has_flag (u_lflag u) ICANON then txint true;; mret (false, echoed)
      else mret (false, true)
    else mret (false, echoed).

(** The rubout of a character in canonical mode. *)
Definition echo_erase : M unit :=
  u ← get;
  if has_flag (u_lflag u) ECHO then
    uart_putxmitchar ASCII_BS true;; uart_putxmitchar 32 true;; uart_putxmitchar ASCII_BS true;;
    txint true
  else mret ().

(** The loop of [uart_readv] on a buffer of [zlen buf] bytes, of which [recvd] are
    filled.  A file is not closed while a call uses it, so [f_inode] stays. *)
Fixpoint readv_loop (fuel : nat) (oflags recvd : Z) (echoed : bool) (buf : list Z) :
    M (Z * bool * list Z) :=
  match fuel with
  | O => bad
  | S fuel =>
      if zlen buf <=? recvd then mret (recvd, echoed, buf)
      else
        tick;; u ← get;
        let tail := b_tail (u_recv u) in
        tick;; u ← get;
        if negb (b_head (u_recv u) =? tail) then
          tick;; u ← get;
          ch ← olift (load (b_buffer (u_recv u)) tail);
          let tail := if b_size (u_recv u) <=? tail + 1 then 0 else tail + 1 in
          tick;; modify (fun u => u_set_recv (b_set_tail tail (u_recv u)) u);;
          match input_char (u_iflag u) ch with
          | None => readv_loop fuel oflags recvd echoed buf
          | Some ch =>
              if has_flag (u_lflag u) ICANON && ((ch =? ASCII_BS) || (ch =? ASCII_DEL)) then
                if 0 <? recvd then
                  buf ← olift (store buf recvd 0);
                  echo_erase;;
                  readv_loop fuel oflags (recvd - 1) echoed buf
                else readv_loop fuel oflags recvd echoed buf
              else
                buf ← olift (store buf recvd ch);
                '(next, echoed) ← echo_char ch echoed;
                if negb next && has_flag (u_lflag u) ICANON && (ch =? NL)
                then mret (recvd + 1, echoed, buf)
                else readv_loop fuel oflags (recvd + 1) echoed buf
          end
        else
          tick;; enter_critical_section;; rxint false;;
          u ← get;
          if b_head (u_recv u) =? b_tail (u_recv u) then
            rxint true;; u ← get;
            if negb (b_head (u_recv u) =? b_tail (u_recv u)) then
              leave_critical_section;; readv_loop fuel oflags recvd echoed buf
            else if (0 <? recvd) && negb (has_flag (u_lflag u) ICANON) then
              leave_critical_section;; mret (recvd, echoed, buf)
            else if has_flag oflags O_NONBLOCK then
              leave_critical_section;; mret (- EAGAIN, echoed, buf)
            else
              unlock_recv;;
              ret ← sem_wait RECVSEM;
              lock_recv OK;;
              leave_critical_section;;
              if ret <? 0 then mret (if recvd =? 0 then ret else recvd, echoed, buf)
              else readv_loop fuel oflags recvd echoed buf
          else
            leave_critical_section;; rxint true;;
            readv_loop fuel oflags recvd echoed buf
  end.

(** The bytes an event can bring, and the fuel of the loop: each iteration takes
    a byte, takes a count of the semaphore or has used an event. *)
Definition ev_bytes (e : uart_ev) : nat := match e with EvRx l => length l | _ => O end.
Definition read_fuel (u : uart) : nat :=
  (Z.to_nat (nbuffered (u_recv u)) + sum_list (map (fun e => 2 + ev_bytes e) (u_evs u)) +
   Z.to_nat (u_recvsem u) + 1)%nat.

(** [uart_readv] into a buffer of [buflen] bytes; [lret] is the result of the
    lock.  The first [recvd] bytes of the buffer are what was read. *)
Definition uart_readv (oflags lret : Z) (buf : list Z) : M (Z * list Z) :=
  ret ← lock_recv lret;
  if ret <? 0 then mret (ret, buf)
  else
    '(recvd, echoed, buf) ← (fun u => readv_loop (read_fuel u) oflags 0 false buf u);
    (if echoed : bool then txint true else mret ());;
    rxint true;;
    unlock_recv;;
    mret (recvd, buf).

(** ** Control *)

Record termios := mk_termios { c_iflag : Z; c_oflag : Z; c_lflag : Z; c_speed : Z; c_cflag : Z }.
Definition TC_SOFT : Z := Z.lor (2 ^ 10) (Z.lor (2 ^ 7) (2 ^ 11)).   (* HUPCL, CREAD, CLOCAL *)

(** [uart_is_termios_hw_change]; [old] is what the lower half has, if it says. *)
Definition uart_is_termios_hw_change (old : option termios) (new : option termios) : bool :=
  match new, old with
  | Some new, Some old =>
      negb (c_speed old =? c_speed new) ||
      negb (Z.ldiff (Z.lxor (c_cflag old) (c_cflag new)) TC_SOFT =? 0)
  | _, _ => false
  end.

(** [uart_tcsendbreak]: the results of the lock and of the two calls of the lower
    half. *)
Definition uart_tcsendbreak (lret : Z) (sbrk cbrk : Z) : M Z :=
  ret ← lock_xmit lret;
  let ret := if 0 <=? ret then if 0 <=? sbrk then cbrk else sbrk else ret in
  unlock_xmit;;
  mret ret.

Definition TCIFLUSH : Z := 0.
Definition TCOFLUSH : Z := 1.
Definition TCIOFLUSH : Z := 2.

Inductive uart_cmd :=
| FIONREAD
| FIONWRITE
| FIONSPACE
| TCFLSH (arg : Z)
| TCDRN (lret : Z) (drained : bool)
| TCSBRK (lret sbrk cbrk : Z)
| TCGETS (termiosp : bool)
| TCSETS (old : option termios) (new : option termios)
| TCOTHER.

(** What an ioctl stores for its caller. *)
Inductive uart_out := ONone | OCount (n : Z) | OFlags (iflag oflag lflag : Z).

Definition tcflush (arg : Z) : M unit :=
  enter_critical_section;;
  (if (arg =? TCIFLUSH) || (arg =? TCIOFLUSH)
   then modify (fun u => u_set_recv (b_set_tail (b_head (u_recv u)) (u_recv u)) u) else mret ());;
  (if (arg =? TCOFLUSH) || (arg =? TCIOFLUSH)
   then modify (fun u => uart_datasent (u_set_xmit (b_set_tail (b_head (u_xmit u)) (u_xmit u)) u))
   else mret ());;
  leave_critical_section.

(** The commands that this layer handles when the lower half does not. *)
Definition uart_tty_ioctl (cmd : uart_cmd) : M (Z * uart_out) :=
  u ← get;
  match cmd with
  | FIONREAD =>
      let b := u_recv u in
      mret (0, OCount (if b_tail b <=? b_head b then b_head b - b_tail b
                       else b_size b - (b_tail b - b_head b)))
  | FIONWRITE =>
      let b := u_xmit u in
      mret (0, OCount (if b_tail b <=? b_head b then b_head b - b_tail b
                       else b_size b - (b_tail b - b_head b)))
  | FIONSPACE =>
      let b := u_xmit u in
      mret (0, OCount (if b_head b <? b_tail b then b_tail b - b_head b - 1
                       else b_size b - (b_head b - b_tail b) - 1))
  | TCFLSH arg => tcflush arg;; mret (0, ONone)
  | TCDRN lret drained => ret ← uart_tcdrain lret drained; mret (ret, ONone)
  | TCSBRK lret sbrk cbrk => ret ← uart_tcsendbreak lret sbrk cbrk; mret (ret, ONone)
  | TCGETS _ | TCSETS _ _ | TCOTHER => mret (- ENOTTY, ONone)
  end.

(** [uart_ioctl]; [low] is the answer of the lower half. *)
Definition uart_ioctl (cmd : uart_cmd) (low : Z) : M (Z * uart_out) :=
  tick;;
  let ret := match cmd with
             | TCSETS old new => if uart_is_termios_hw_change old new then low else - ENOTTY
             | _ => low
             end in
  '(ret, o) ← (if ret =? - ENOTTY then uart_tty_ioctl cmd else mret (ret, ONone));
  if (ret =? OK) || (ret =? - ENOTTY) then
    u ← get;
    match cmd with
    | TCGETS false => mret (- EINVAL, o)
    | TCGETS true => mret (0, OFlags (u_iflag u) (u_oflag u) (u_lflag u))
    | TCSETS _ None => mret (- EINVAL, o)
    | TCSETS _ (Some t) =>
        modify (u_set_iflag (c_iflag t));; modify (u_set_oflag (c_oflag t));;
        modify (u_set_lflag (c_lflag t));; mret (0, o)
    | _ => mret (ret, o)
    end
  else mret (ret, o).

(** ** Opening, closing, polling and registration *)

(** [uart_open]: the results of the lock, of [setup] and of [attach]. *)
Definition uart_open (lret setup attach : Z) : M Z :=
  ret ← lock_close lret;
  if ret <? 0 then mret ret
  else
    tick;; u ← get;
    let tmp := u8 (u_open_count u + 1) in
    if tmp =? 0 then unlock_close;; mret (- EMFILE)
    else
      ret ← (if tmp =? 1 then
               if negb (u_isconsole u) && (setup <? 0) then mret setup
               else if attach <? 0 then mret attach
               else
                 enter_critical_section;; modify (u_set_attached true);; rxint true;;
                 leave_critical_section;; mret attach
             else mret ret);
      (if ret <? 0 then mret () else modify (u_set_open_count tmp));;
      unlock_close;;
      mret ret.

Definition uart_reset_sem : M unit :=
  modify (u_set_xmitsem 0);; modify (u_set_recvsem 0);; unlock_xmit;; unlock_recv.

(** [uart_close]: [cret] is the result of the lock, which is not looked at;
    [lret] and [drained] are for the draining.  The second result says whether
    the device was released. *)
Definition uart_close (oflags cret lret : Z) (drained : bool) : M (Z * bool) :=
  lock_close cret;;
  tick;; u ← get;
  if 1 <? u_open_count u
  then modify (u_set_open_count (u_open_count u - 1));; unlock_close;; mret (OK, false)
  else
    modify (u_set_open_count 0);;
    rxint false;;
    (if has_flag oflags O_NONBLOCK then mret 0 else uart_tcdrain lret drained);;
    modify (u_set_attached false);;
    modify uart_datareceived;;
    uart_reset_sem;;
    unlock_close;;
    mret (OK, u_unlinked u).

(** [uart_poll]: [priv] is the slot that the request is in, [lx] and [lr] are the
    results of the locks, which are not looked at; the results are those of the
    call, the new slot and the request. *)
Fixpoint free_slot (l : list (option pollfd)) : nat :=
  match l with Some _ :: l => S (free_slot l) | _ => O end.

Definition uart_poll (f : pollfd) (setup : bool) (priv : option nat) (lx lr : Z) :
    M (Z * option nat * pollfd) :=
  enter_critical_section;;
  u ← get;
  if setup then
    let i := free_slot (u_fds u) in
    if (length (u_fds u) <=? i)%nat then leave_critical_section;; mret (- EBUSY, None, f)
    else
      modify (u_set_fds (<[i := Some f]> (u_fds u)));;
      leave_critical_section;;
      lock_xmit lx;;
      tick;; u ← get;
      let ndx := b_head (u_xmit u) + 1 in
      let ndx := if b_size (u_xmit u) <=? ndx then 0 else ndx in
      let out := if ndx =? b_tail (u_xmit u) then 0 else POLLOUT in
      unlock_xmit;;
      lock_recv lr;;
      tick;; u ← get;
      let inp := if b_head (u_recv u) =? b_tail (u_recv u) then 0 else POLLIN in
      unlock_recv;;
      modify (uart_poll_notify (Z.of_nat i) (Z.of_nat i + 1) (Z.lor out inp));;
      mret (OK, Some i, f)
  else
    match priv with
    | Some slot =>
        let f := default f (mjoin (u_fds u !! slot)) in
        modify (u_set_fds (<[slot := None]> (u_fds u)));;
        leave_critical_section;; mret (OK, None, f)
    | None => mret (OK, None, f)
    end.

(** [uart_unlink]; the result says whether the device was released. *)
Definition uart_unlink (lret : Z) : M (Z * bool) :=
  ret ← lock_close lret;
  if ret <? 0 then mret (ret, false)
  else
    u ← get;
    if u_open_count u <=? 0 then unlock_close;; mret (OK, true)
    else modify (u_set_unlinked true);; unlock_close;; mret (OK, false).

(** [uart_register] of a device whose buffers the lower half provides, before the
    driver is given its name. *)
Definition uart_register (u : uart) : uart :=
  let u := if u_isconsole u
           then u_set_escape 0 (u_set_iflag (Z.lor (u_iflag u) ICRNL)
                  (u_set_oflag (Z.lor OPOST ONLCR)
                     (u_set_lflag (Z.lor (u_lflag u) (Z.lor ISIG (Z.lor ECHO ICANON))) u)))
           else u in
  let u := u_set_xmit (b_set_lock false (u_xmit u)) (u_set_recv (b_set_lock false (u_recv u)) u) in
  u_set_closelock false (u_set_xmitsem 0 (u_set_recvsem 0 u)).

(** ** Rings *)

Record ring_ok (b : uart_buffer_s) : Prop := {
  ro_size : 0 < b_size b < 2 ^ 15;
  ro_buffer : zlen (b_buffer b) = b_size b;
  ro_head : 0 <= b_head b < b_size b;
  ro_tail : 0 <= b_tail b < b_size b
}.

(** The bytes in a ring, the oldest first. *)
Definition bq (b : uart_buffer_s) : list Z := window (b_buffer b) (b_tail b) (nbuffered b).

Lemma nbuffered_mod b : ring_ok b -> nbuffered b = (b_head b - b_tail b) mod b_size b.
Proof.
  intros [H1 H2 H3 H4]. unfold nbuffered. case_match; zbool; [by rewrite Z.mod_small by lia|].
  rewrite <- (Z_mod_plus_full _ 1), Z.mod_small by lia. lia.
Qed.

Lemma nbuffered_range b : ring_ok b -> 0 <= nbuffered b < b_size b.
Proof. intros Hb. rewrite nbuffered_mod by done. apply Z.mod_pos_bound. apply Hb. Qed.

Lemma length_bq b : ring_ok b -> zlen (bq b) = nbuffered b.
Proof. intros Hb. unfold bq. rewrite length_window. pose proof (nbuffered_range b Hb). lia. Qed.

Lemma bq_nil b : ring_ok b -> b_head b = b_tail b <-> bq b = [].
Proof.
  intros Hb. rewrite <- length_zero_iff_nil. pose proof (length_bq b Hb). destruct Hb. unfold nbuffered in *.
  destruct (Z.leb_spec (b_tail b) (b_head b)); lia.
Qed.

(** The index after the head, and when it is the tail. *)
Definition next_head (b : uart_buffer_s) : Z := next_index (b_size b) (b_head b).

Lemma next_head_full b : ring_ok b -> next_head b = b_tail b <-> nbuffered b = b_size b - 1.
Proof.
  intros []. unfold next_head, next_index, nbuffered.
  destruct (Z.ltb_spec (b_head b + 1) (b_size b)), (Z.leb_spec (b_tail b) (b_head b)); lia.
Qed.

Lemma next_head_range b : ring_ok b -> 0 <= next_head b < b_size b.
Proof. intros []. unfold next_head, next_index. case_match; zbool; lia. Qed.

Lemma xmit_next_eq u : xmit_next u = next_head (u_xmit u).
Proof. unfold xmit_next, next_head, next_index. do 2 case_match; zbool; lia. Qed.

Lemma ring_take b :
  ring_ok b -> b_head b <> b_tail b ->
  let tail := if b_size b <=? b_tail b + 1 then 0 else b_tail b + 1 in
  exists ch, load (b_buffer b) (b_tail b) = Some ch /\
    ring_ok (b_set_tail tail b) /\ bq b = ch :: bq (b_set_tail tail b) /\
    nbuffered (b_set_tail tail b) = nbuffered b - 1.
Proof.
  intros Hb Hne. pose proof Hb as [H1 H2 H3 H4].
  set (tail := if b_size b <=? b_tail b + 1 then 0 else b_tail b + 1).
  assert (0 <= tail < b_size b /\ tail = (b_tail b + 1) mod b_size b) as [Ht Htm].
  { unfold tail. case_match; zbool; [|rewrite Z.mod_small by lia; lia].
    replace (b_tail b + 1) with (b_size b) by lia. rewrite Z_mod_same_full. lia. }
  assert (ring_ok (b_set_tail tail b)) as Hb' by (by constructor).
  assert (nbuffered (b_set_tail tail b) = nbuffered b - 1) as Hn.
  { unfold nbuffered. simpl. unfold tail in *.
    destruct (Z.leb_spec (b_size b) (b_tail b + 1)), (Z.leb_spec (b_tail b) (b_head b));
      repeat case_match; zbool; lia. }
  pose proof (nbuffered_range _ Hb'). simpl in *.
  destruct (load_in_range (b_buffer b) (b_tail b)) as [ch Hch]; [lia|].
  exists ch. split; [done|]. split; [done|]. split; [|done]. unfold bq at 1.
  replace (nbuffered b) with (1 + (nbuffered b - 1)) by lia. rewrite window_S_l by lia.
  apply load_Some in Hch as [_ Hch]. f_equal.
  - rewrite Z.mod_small by lia. by apply list_lookup_total_correct.
  - unfold bq. rewrite Hn. simpl. apply window_mod. rewrite Htm, H2. by rewrite Zmod_mod.
Qed.

(** Writing at the head, and moving it. *)
Lemma ring_store b ch :
  ring_ok b ->
  let b' := b_set_buffer (<[Z.to_nat (b_head b) := ch]> (b_buffer b)) b in
  store (b_buffer b) (b_head b) ch = Some (b_buffer b') /\ ring_ok b' /\ bq b' = bq b /\
  nbuffered b' = nbuffered b /\ b_buffer b' !! Z.to_nat (b_head b) = Some ch.
Proof.
  intros Hb b'. pose proof Hb as [H1 H2 H3 H4]. pose proof (nbuffered_range b Hb) as Hn.
  split; [apply store_in_range; lia|]. split; [constructor; simpl; rewrite ?length_insert; done|].
  split; [|split; [done|simpl; apply list_lookup_insert_eq; lia]].
  unfold bq. change (nbuffered b') with (nbuffered b). simpl.
  replace (b_head b) with ((b_tail b + nbuffered b) mod zlen (b_buffer b)) at 1.
  { apply window_insert_out; lia. }
  rewrite nbuffered_mod by done. rewrite H2, Zplus_mod_idemp_r.
  replace (b_tail b + (b_head b - b_tail b)) with (b_head b) by lia. by apply Z.mod_small.
Qed.

Lemma ring_advance b ch :
  ring_ok b -> next_head b <> b_tail b -> b_buffer b !! Z.to_nat (b_head b) = Some ch ->
  let b' := b_set_head (next_head b) b in
  ring_ok b' /\ bq b' = bq b ++ [ch] /\ nbuffered b' = nbuffered b + 1.
Proof.
  intros Hb Hne Hch b'. pose proof Hb as [H1 H2 H3 H4]. pose proof (nbuffered_range b Hb) as Hn.
  pose proof (next_head_range b Hb).
  assert (nbuffered b' = nbuffered b + 1) as Hn'.
  { unfold b', nbuffered, next_head, next_index in *. simpl.
    destruct (Z.ltb_spec (b_head b + 1) (b_size b)), (Z.leb_spec (b_tail b) (b_head b));
      repeat case_match; zbool; lia. }
  split; [by constructor|]. split; [|done]. unfold bq. rewrite Hn'. simpl. rewrite window_S_r by lia.
  f_equal. f_equal. rewrite H2. rewrite nbuffered_mod by done. rewrite Zplus_mod_idemp_r.
  replace (b_tail b + (b_head b - b_tail b)) with (b_head b) by lia. rewrite Z.mod_small by done.
  by apply list_lookup_total_correct.
Qed.
