(* ===== verification/SerialSpec.v ===== *)
(** The serial driver against byte queues.

    What an interrupt leaves alone ([adv]), and from it: a write puts its bytes
    on the line in order whenever the interrupts come, a write that waits
    returns when the transmitter goes on, and a read returns the bytes that were
    received, in order, after the input processing. *)

From S2P Require Import Prelude.
From stdpp Require Import list.
From S2P Require Import Files Poll Serial.
Local Open Scope Z_scope.

(** ** Interrupts *)

Definition not_echo (e : uart_ev) : Prop := match e with EvEcho _ => False | _ => True end.

Record u_ok (u : uart) : Prop := {
  uo_xmit : ring_ok (u_xmit u);
  uo_recv : ring_ok (u_recv u);
  uo_evs : Forall not_echo (u_evs u)
}.

(** What was sent and what is to be sent. *)
Definition txlog (u : uart) : list Z := u_wire u ++ bq (u_xmit u).

(** The measures of the loops. *)
Definition mu_x (u : uart) : nat := (2 * length (u_evs u) + Z.to_nat (u_xmitsem u))%nat.
Definition mu_evs (l : list uart_ev) : nat := sum_list (map (fun e => 2 + ev_bytes e) l)%nat.
Definition mu_r (u : uart) : nat :=
  (length (bq (u_recv u)) + mu_evs (u_evs u) + Z.to_nat (u_recvsem u))%nat.

(** The fields no handler writes. *)
Definition own (u : uart) :=
  (u_open_count u, u_escape u, u_isconsole u, u_unlinked u, u_iflag u, u_oflag u, u_lflag u,
   (u_closelock u, u_attached u, u_rxint u, u_crit u, b_size (u_xmit u), b_lock (u_xmit u)),
   (b_size (u_recv u), b_lock (u_recv u))).

(** Bytes arrive; the reader owns the tail. *)
Record rx_adv (u u' : uart) : Prop := {
  ra_tail : b_tail (u_recv u') = b_tail (u_recv u);
  ra_new : exists new, bq (u_recv u') = bq (u_recv u) ++ new /\ u_in u' = u_in u ++ new;
  ra_mu : (mu_r u' <= mu_r u)%nat
}.

Record adv (u u' : uart) : Prop := {
  ad_own : own u' = own u;
  ad_head : b_head (u_xmit u') = b_head (u_xmit u);
  ad_buffer : b_buffer (u_xmit u') = b_buffer (u_xmit u);
  ad_log : txlog u' = txlog u;
  ad_count : nbuffered (u_xmit u') <= nbuffered (u_xmit u);
  ad_txint : u_txint u' = true -> u_txint u = true;
  ad_mu : (mu_x u' <= mu_x u)%nat;
  ad_rx : rx_adv u u'
}.

(** With its interrupt disabled the transmitter does nothing. *)
Definition quiet (u u' : uart) : Prop :=
  u_txint u = false -> u_txint u' = false /\ u_xmit u' = u_xmit u /\ u_xmitsem u' = u_xmitsem u.

Lemma rx_adv_refl u : rx_adv u u.
Proof. constructor; [done| |done]. exists []. by rewrite !app_nil_r. Qed.
Lemma adv_refl u : adv u u.
Proof. constructor; try done. apply rx_adv_refl. Qed.

Lemma rx_adv_trans u1 u2 u3 : rx_adv u1 u2 -> rx_adv u2 u3 -> rx_adv u1 u3.
Proof.
  intros [A1 (n1 & B1 & C1) D1] [A2 (n2 & B2 & C2) D2]. constructor; [congruence| |lia].
  exists (n1 ++ n2). by rewrite B2, B1, C2, C1, !app_assoc.
Qed.
Lemma adv_trans u1 u2 u3 : adv u1 u2 -> adv u2 u3 -> adv u1 u3.
Proof.
  intros [A1 B1 C1 D1 E1 F1 G1 H1] [A2 B2 C2 D2 E2 F2 G2 H2].
  constructor; try congruence; try lia; [tauto|by eapply rx_adv_trans].
Qed.

Lemma wakeup_value v : uart_wakeup v = Z.max v 1.
Proof.
  unfold uart_wakeup. assert (forall n c, sem_posts n c = c + Z.of_nat n) as E.
  { induction n as [|n IH]; intros c; simpl; [lia|]. rewrite IH. lia. }
  rewrite E. lia.
Qed.

(** The loop of [uart_xmitchars]: [k] bytes leave the ring. *)
Lemma xmitchars_loop_spec n : forall u c,
  ring_ok (u_xmit u) -> 0 <= c -> c + nbuffered (u_xmit u) < 2 ^ 15 ->
  exists k x, xmitchars_loop n c u =
      Some (u_set_wire (u_wire u ++ take k (bq (u_xmit u))) (u_set_xmit x u), c + Z.of_nat k) /\
    k = Nat.min n (length (bq (u_xmit u))) /\ ring_ok x /\ bq x = drop k (bq (u_xmit u)) /\
    b_head x = b_head (u_xmit u) /\ b_buffer x = b_buffer (u_xmit u) /\
    b_size x = b_size (u_xmit u) /\ b_lock x = b_lock (u_xmit u).
Proof.
  induction n as [|n IH]; intros u c Hb Hc Hsum; cbn [xmitchars_loop].
  { exists O, (u_xmit u). rewrite Z.add_0_r, app_nil_r. by destruct u. }
  destruct (Z.eqb_spec (b_head (u_xmit u)) (b_tail (u_xmit u))) as [E|Hne].
  { apply bq_nil in E; [|done]. exists O, (u_xmit u). rewrite E, Z.add_0_r, app_nil_r. by destruct u. }
  destruct (ring_take _ Hb Hne) as (ch & -> & Hb1 & Hq & Hn). cbn [mbind option_bind].
  set (tail := if b_size (u_xmit u) <=? _ then _ else _) in *.
  pose proof (nbuffered_range _ Hb) as Hr. rewrite u16_small by lia.
  destruct (IH (u_set_wire (u_wire u ++ [ch]) (u_set_xmit (b_set_tail tail (u_xmit u)) u)) (c + 1))
    as (k & x & E & Hk & Hx & Hbq & H1 & H2 & H3 & H4); simpl; [done|lia|lia|].
  exists (S k), x. rewrite E, Hq. split; [|split; [simpl in *; lia|done]].
  unfold u_set_wire, u_set_xmit. simpl. rewrite <- app_assoc. simpl. do 2 f_equal. lia.
Qed.

(** The loop of [uart_recvchars]: the bytes that fit enter the ring. *)
Lemma recvchars_loop_spec l : forall u,
  ring_ok (u_recv u) ->
  exists x new lost, recvchars_loop l u =
      Some (u_set_lost (u_lost u ++ lost) (u_set_in (u_in u ++ new) (u_set_recv x u))) /\
    new = take (Z.to_nat (b_size (u_recv u) - 1 - nbuffered (u_recv u))) l /\ new ++ lost = l /\
    ring_ok x /\ bq x = bq (u_recv u) ++ new /\
    b_tail x = b_tail (u_recv u) /\ b_size x = b_size (u_recv u) /\ b_lock x = b_lock (u_recv u).
Proof.
  induction l as [|ch l IH]; intros u Hb; cbn [recvchars_loop].
  { exists (u_recv u), [], []. rewrite take_nil, !app_nil_r. by destruct u. }
  change (next_index (b_size (u_recv u)) (b_head (u_recv u))) with (next_head (u_recv u)).
  pose proof (next_head_full _ Hb) as Hfull. pose proof (nbuffered_range _ Hb) as Hr.
  destruct (Z.eqb_spec (next_head (u_recv u)) (b_tail (u_recv u))) as [E|Hne].
  - apply Hfull in E. destruct (IH (u_set_lost (u_lost u ++ [ch]) u)) as
      (x & new & lost & -> & Hnew & Happ & Hx); [done|]. simpl in Hnew, Hx.
    rewrite E in *. replace (b_size (u_recv u) - 1 - (b_size (u_recv u) - 1)) with 0 in * by lia.
    simpl in Hnew |- *. subst new. simpl in *. exists x, [], (ch :: lost). rewrite <- app_assoc. subst l.
    split; [done|]. split; [done|]. split; [done|]. exact Hx.
  - destruct (ring_store (u_recv u) ch Hb) as (-> & Hb1 & Hq1 & Hn1 & Hch). cbn [mbind option_bind].
    set (b1 := b_set_buffer _ _) in *.
    destruct (ring_advance b1 ch Hb1 Hne Hch) as (Hb2 & Hq2 & Hn2).
    destruct (IH (u_set_in (u_in u ++ [ch]) (u_set_recv (b_set_head (next_head (u_recv u)) b1) u)))
      as (x & new & lost & E & Hnew & Happ & Hx & Hqx & H1 & H2 & H3); [done|].
    exists x, (ch :: new), lost. change (next_head b1) with (next_head (u_recv u)) in *.
    change (b_buffer b1) with (<[Z.to_nat (b_head (u_recv u)) := ch]> (b_buffer (u_recv u))) in *.
    simpl in E |- *. split.
    { rewrite E. unfold u_set_lost, u_set_in, u_set_recv. simpl. by rewrite <- app_assoc. }
    simpl in Hnew, Hqx. rewrite Hn2, Hn1 in Hnew. rewrite Hq2, Hq1, <- app_assoc in Hqx. split; [|split; [by f_equal|done]].
    destruct (Z.to_nat (b_size (u_recv u) - 1 - nbuffered (u_recv u))) as [|m] eqn:Em; [lia|].
    simpl. f_equal. rewrite Hnew. f_equal. lia.
Qed.

Lemma u_ok_evs u evs e : u_ok u -> u_evs u = e :: evs -> u_ok (u_set_evs evs u).
Proof. intros [H1 H2 H3] E. rewrite E in H3. inversion H3. by constructor. Qed.

(** An event that has no effect. *)
Lemma idle_adv u evs e :
  u_evs u = e :: evs ->
  adv u (u_set_evs evs u) /\ (mu_x (u_set_evs evs u) < mu_x u)%nat /\ (mu_r (u_set_evs evs u) < mu_r u)%nat.
Proof.
  intros E. assert ((mu_x (u_set_evs evs u) < mu_x u)%nat /\ (mu_r (u_set_evs evs u) < mu_r u)%nat) as [Hx Hr].
  { unfold mu_x, mu_r, mu_evs. rewrite E. simpl. lia. }
  split; [|done]. constructor; try done; [lia|]. constructor; [done| |lia].
  exists []. by rewrite !app_nil_r.
Qed.

(** The transmitter interrupt, after the event was taken. *)
Lemma xmitchars_adv n u :
  u_ok u ->
  exists u', uart_xmitchars n u = Some u' /\ u_ok u' /\ own u' = own u /\
    b_head (u_xmit u') = b_head (u_xmit u) /\ b_buffer (u_xmit u') = b_buffer (u_xmit u) /\
    txlog u' = txlog u /\
    nbuffered (u_xmit u') = nbuffered (u_xmit u) - Z.of_nat (Nat.min n (length (bq (u_xmit u)))) /\
    (u_txint u' = true -> u_txint u = true) /\ u_evs u' = u_evs u /\
    u_xmitsem u' = (if decide (0 < n /\ bq (u_xmit u) <> [])%nat then Z.max (u_xmitsem u) 1 else u_xmitsem u) /\
    u_recv u' = u_recv u /\ u_in u' = u_in u /\ u_recvsem u' = u_recvsem u.
Proof.
  intros [Hx Hr He]. pose proof (nbuffered_range _ Hx) as Hn. pose proof (length_bq _ Hx) as Hl.
  destruct (xmitchars_loop_spec n u 0 Hx) as (k & x & E & Hk & Hxo & Hq & H1 & H2 & H3 & H4);
    [lia|destruct Hx; lia|].
  unfold uart_xmitchars. rewrite E. cbn [mbind option_bind]. simpl.
  set (u1 := u_set_wire _ _). assert (u_ok u1) as Hok1 by (by constructor).
  eexists. split; [reflexivity|].
  set (u2 := if b_head x =? b_tail x then u_set_txint false u1 else u1).
  assert (u2 = u_set_txint (if b_head x =? b_tail x then false else u_txint u1) u1) as Eu2.
  { unfold u2. case_match; [done|]. by destruct u1. }
  assert ((Z.of_nat k =? 0) = negb (bool_decide (0 < n /\ bq (u_xmit u) <> [])%nat)) as Ek.
  { rewrite Hk. case_bool_decide as Hd; simpl.
    - destruct Hd as [? Hne]. destruct (bq (u_xmit u)); [done|]. apply Z.eqb_neq. cbn [length]. lia.
    - destruct n; [done|]. destruct (bq (u_xmit u)); [done|]. exfalso. apply Hd. split; [lia|done]. }
  assert (forall v, u_ok (u_set_txint v u1)) as Hokv by (intros v; by constructor).
  assert (txlog u1 = txlog u) as Hlog.
  { unfold txlog, u1. simpl. rewrite Hq, <- app_assoc. by rewrite take_drop. }
  assert (nbuffered x = nbuffered (u_xmit u) - Z.of_nat k) as Hnb.
  { rewrite <- (length_bq x), <- Hl, Hq by done. rewrite length_drop. lia. }
  replace (0 + Z.of_nat k =? 0) with (Z.of_nat k =? 0) by done. rewrite Ek, Eu2.
  assert (own u1 = own u) as Hown by (unfold own, u1; simpl; by rewrite H3, H4).
  rewrite decide_bool_decide. rewrite <- Hk.
  case_bool_decide; simpl; (split; [by constructor; try apply (Hokv _)|]); split_and!; try done;
    rewrite ?wakeup_value; try done; by case_match.
Qed.

Lemma recvchars_adv l u :
  u_ok u ->
  exists u', uart_recvchars l u = Some u' /\ u_ok u' /\ own u' = own u /\ u_xmit u' = u_xmit u /\
    u_wire u' = u_wire u /\ u_txint u' = u_txint u /\ u_xmitsem u' = u_xmitsem u /\ u_evs u' = u_evs u /\
    b_tail (u_recv u') = b_tail (u_recv u) /\
    (exists new, bq (u_recv u') = bq (u_recv u) ++ new /\ u_in u' = u_in u ++ new /\
       (length new <= length l)%nat) /\
    u_recvsem u' <= Z.max (u_recvsem u) 1.
Proof.
  intros [Hx Hr He].
  destruct (recvchars_loop_spec l u Hr) as (x & new & lost & E & _ & Happ & Hxo & Hq & H1 & H2 & H3).
  unfold uart_recvchars. rewrite E. cbn [mbind option_bind].
  set (u1 := u_set_lost _ _). assert (u_ok u1) as Hok1 by (by constructor).
  assert (own u1 = own u) as Hown by (unfold own, u1; simpl; by rewrite H2, H3).
  assert (exists new0, bq x = bq (u_recv u) ++ new0 /\ u_in u1 = u_in u ++ new0 /\
    (length new0 <= length l)%nat) as Hnew.
  { exists new. subst l. rewrite length_app. split; [done|]. split; [done|lia]. }
  eexists. split; [reflexivity|]. case_match; simpl.
  - split; [done|]. split_and!; try done. lia.
  - split; [by constructor|]. split_and!; try done. rewrite wakeup_value. lia.
Qed.

Lemma handle_adv e evs u :
  u_ok u -> u_evs u = e :: evs ->
  exists u', handle e (u_set_evs evs u) = Some u' /\ u_ok u' /\ adv u u' /\ u_evs u' = evs /\
    (mu_x u' < mu_x u)%nat /\ (mu_r u' < mu_r u)%nat /\ quiet u u'.
Proof.
  intros Hok E. pose proof (u_ok_evs _ _ _ Hok E) as Hok1. destruct (idle_adv u evs e E) as (Ha1 & Hx1 & Hr1).
  pose proof (uo_evs _ Hok) as He. rewrite E in He. inversion He as [|? ? Hne _]; subst.
  assert (exists u', Some (u_set_evs evs u) = Some u' /\ u_ok u' /\ adv u u' /\ u_evs u' = evs /\
    (mu_x u' < mu_x u)%nat /\ (mu_r u' < mu_r u)%nat /\ quiet u u') as Hidle.
  { by exists (u_set_evs evs u). }
  destruct e as [|n|l| |ch]; simpl; try done.
  - destruct (u_attached u && u_txint u) eqn:Et; [|done].
    destruct (xmitchars_adv n _ Hok1) as (u' & Eu & Hok' & A1 & A2 & A3 & A4 & A5 & A6 & A7 & A8 & A9 & A10 & A11).
    exists u'. split; [done|]. simpl in *. split; [done|].
    assert (rx_adv u u') as Hrx.
    { constructor; [by rewrite A9| |unfold mu_r, mu_evs; rewrite A9, A11, A7, E; simpl; lia].
      exists []. by rewrite A9, A10, !app_nil_r. }
    assert (mu_x u' < mu_x u)%nat as Hx by (unfold mu_x; rewrite A7, A8, E; simpl; case_decide; lia).
    assert (mu_r u' < mu_r u)%nat as Hr by (unfold mu_r, mu_evs; rewrite A9, A11, A7, E; simpl; lia).
    split; [constructor; try done; lia|]. split_and!; try done.
    intros Hf. zbool. destruct Et as [_ Et]. congruence.
  - destruct (u_attached u && u_rxint u); [|done].
    destruct (recvchars_adv l _ Hok1) as (u' & Eu & Hok' & A1 & A2 & A3 & A4 & A5 & A6 & A7 & (new & N1 & N2 & N3) & A8).
    exists u'. split; [done|]. simpl in *. split; [done|].
    assert (mu_r u' < mu_r u)%nat as Hr.
    { unfold mu_r, mu_evs. rewrite N1, A6, E, length_app. simpl. lia. }
    assert (mu_x u' < mu_x u)%nat as Hx by (unfold mu_x; rewrite A5, A6, E; simpl; lia).
    split; [|split_and!; try done; intros Hf; by rewrite A4, A5].
    constructor; rewrite ?A2; try done; try lia; try congruence.
    + unfold txlog. by rewrite A2, A3.
    + constructor; [done| |lia]. by exists new.
Qed.

(** ** Computations *)

(** A computation has no undefined behaviour, ends as [Q] says or, if [B] allows,
    waits. *)
Definition safe {A} (B : Prop) (m : M A) (Q : A -> uart -> Prop) (u : uart) : Prop :=
  match m u with Done a u' => Q a u' | Block => B | Bad => False end.

Lemma safe_bind {A C} B (m : M A) (k : A -> M C) Q u :
  safe B m (fun a => safe B (k a) Q) u -> safe B (m ≫= k) Q u.
Proof. unfold safe, mbind, M_bind. by destruct (m u). Qed.
Lemma safe_ret {A} B (a : A) Q u : Q a u -> safe B (mret a) Q u.
Proof. done. Qed.
Lemma safe_get B Q u : Q u u -> safe B get Q u.
Proof. done. Qed.
Lemma safe_modify B f Q u : Q tt (f u) -> safe B (modify f) Q u.
Proof. done. Qed.
Lemma safe_mono {A} B (m : M A) (P Q : A -> uart -> Prop) u :
  safe B m P u -> (forall a u', P a u' -> Q a u') -> safe B m Q u.
Proof. unfold safe. destruct (m u); auto. Qed.

Lemma safe_tick B Q u :
  u_ok u -> (forall u', adv u u' -> u_ok u' -> (u' = u \/ (mu_x u' < mu_x u /\ mu_r u' < mu_r u)%nat) ->
    Q tt u') -> safe B tick Q u.
Proof.
  intros Hok HQ. unfold safe, tick. destruct (u_evs u) as [|e evs] eqn:E.
  { apply HQ; [apply adv_refl|done|by left]. }
  destruct (handle_adv e evs u Hok E) as (u' & -> & Hok' & Ha & He & Hx & Hr & _).
  apply HQ; [done|done|by right].
Qed.

(** A wait: interrupts come, and the count is back. *)
Lemma sem_sleep_spec w evs : forall u,
  u_ok u -> u_evs u = evs -> sem_count w u < 0 ->
  match sem_sleep w evs u with
  | Done r u' => u_ok u' /\ adv u u' /\ (r = OK \/ r = - EINTR) /\
      (mu_x u' < mu_x u)%nat /\ (mu_r u' < mu_r u)%nat
  | Block => True
  | Bad => False
  end.
Proof.
  induction evs as [|e evs IH]; intros u Hok E Hc; [done|]. cbn [sem_sleep].
  destruct (handle_adv e evs u Hok E) as (u1 & E1 & Hok1 & Ha1 & He1 & Hx1 & Hr1 & _).
  assert (match (match handle e (u_set_evs evs u) with
     | None => Bad
     | Some u => if 0 <=? sem_count w u then Done OK u else sem_sleep w evs u
     end) with
     | Done r u' => u_ok u' /\ adv u u' /\ (r = OK \/ r = - EINTR) /\
         (mu_x u' < mu_x u)%nat /\ (mu_r u' < mu_r u)%nat
     | Block => True | Bad => False end) as Hgo.
  { rewrite E1. destruct (Z.leb_spec 0 (sem_count w u1)).
    - split; [done|]. split; [done|]. split; [by left|done].
    - specialize (IH u1 Hok1 He1 ltac:(done)). destruct (sem_sleep w evs u1) as [r u2| |]; [|done|done].
      destruct IH as (? & ? & ? & ? & ?). split; [done|]. split; [by eapply adv_trans|]. split; [done|lia]. }
  destruct e; try exact Hgo. clear Hgo. simpl in E1. injection E1 as <-.
  set (u2 := u_set_evs evs (set_count w (sem_count w u + 1) u)).
  assert (u_ok u2 /\ adv (u_set_evs evs u) u2 /\ mu_x u2 = mu_x (u_set_evs evs u) /\
    mu_r u2 = mu_r (u_set_evs evs u)) as (H1 & H2 & H3 & H4).
  { assert (mu_x u2 = mu_x (u_set_evs evs u) /\ mu_r u2 = mu_r (u_set_evs evs u)) as [Hx Hr].
    { unfold u2, mu_x, mu_r. destruct w; simpl in *; lia. }
    destruct Hok1 as [? ? ?]. split; [unfold u2; destruct w; by constructor|]. split; [|done].
    assert (rx_adv (u_set_evs evs u) u2) as Hrx.
    { constructor; [unfold u2; by destruct w| |lia]. exists []. rewrite !app_nil_r. unfold u2. by destruct w. }
    constructor; try done; try lia; unfold u2; by destruct w. }
  split; [done|]. split; [by eapply adv_trans|]. split; [by right|lia].
Qed.

(** The state of a task that waits for [w] but for the count. *)
Lemma safe_wait (B : Prop) w Q u :
  B -> u_ok u ->
  (forall r u', u_ok u' -> adv u u' -> (r = OK \/ r = - EINTR) ->
     (match w with XMITSEM => mu_x u' < mu_x u | RECVSEM => mu_r u' < mu_r u end)%nat -> Q r u') ->
  safe B (sem_wait w) Q u.
Proof.
  intros HB Hok HQ. unfold safe, sem_wait. set (u1 := set_count w (sem_count w u - 1) u).
  assert (u_ok u1) as Hok1 by (destruct Hok; unfold u1; destruct w; by constructor).
  assert (sem_count w u1 = sem_count w u - 1) as Hc by (unfold u1; by destruct w).
  assert (adv u u1) as Ha1.
  { constructor; try (unfold u1, mu_x; destruct w; simpl; done || lia).
    constructor; [by unfold u1; destruct w| |unfold u1, mu_r; destruct w; simpl; lia].
    exists []. rewrite !app_nil_r. unfold u1. by destruct w. }
  destruct (Z.leb_spec 0 (sem_count w u1)) as [Hle|Hlt].
  - apply HQ; [done|done|by left|]. unfold u1, mu_x, mu_r in *. destruct w; simpl in *; lia.
  - pose proof (sem_sleep_spec w (u_evs u1) u1 Hok1 eq_refl Hlt) as Hs.
    destruct (sem_sleep w (u_evs u1) u1) as [r u'| |]; [|done|done].
    destruct Hs as (H1 & H2 & H3 & H4 & H5). pose proof (ad_mu _ _ Ha1). pose proof (ra_mu _ _ (ad_rx _ _ Ha1)).
    apply HQ; [done|by eapply adv_trans|done|]. destruct w; lia.
Qed.

(** One step of a computation; [tick]s introduce the state after the event. *)
Ltac sstep :=
  match goal with
  | |- safe _ (mbind _ _) _ _ => apply safe_bind
  | |- safe _ (mret _) _ _ => apply safe_ret
  | |- safe _ get _ _ => apply safe_get
  | |- safe _ (modify _) _ _ => apply safe_modify
  | |- safe _ (txint _) _ _ => apply safe_modify
  | |- safe _ (rxint _) _ _ => apply safe_modify
  | |- safe _ enter_critical_section _ _ => apply safe_modify
  | |- safe _ leave_critical_section _ _ => apply safe_modify
  end; cbv beta.

(** ** Output *)

(** A change of the task's own fields and interrupts before or after it. *)
Lemma rx_adv_same u u1 :
  u_recv u1 = u_recv u -> u_in u1 = u_in u -> u_evs u1 = u_evs u -> u_recvsem u1 = u_recvsem u -> rx_adv u u1.
Proof.
  intros E1 E2 E3 E4. constructor; [by rewrite E1| |unfold mu_r; by rewrite E1, E3, E4].
  exists []. by rewrite E1, E2, !app_nil_r.
Qed.

Definition put_post (blk : bool) (ch : Z) (u : uart) (r : Z) (u' : uart) : Prop :=
  u_ok u' /\ own u' = own u /\ rx_adv u u' /\
  ((r = OK /\ txlog u' = txlog u ++ [ch]) \/
   (r = (if blk then - EINTR else - EAGAIN) /\ txlog u' = txlog u)).

Lemma put_post_trans blk ch u u1 r u' :
  own u1 = own u -> rx_adv u u1 -> txlog u1 = txlog u -> put_post blk ch u1 r u' -> put_post blk ch u r u'.
Proof.
  intros Ho Hr Hl (H1 & H2 & H3 & H4). split; [done|]. split; [congruence|].
  split; [by eapply rx_adv_trans|]. by rewrite <- Hl.
Qed.

Lemma crit_balance u u1 u2 :
  own u1 = own (u_set_crit (u_crit u + 1) u) -> u2 = u_set_crit (u_crit u1 - 1) u1 -> own u2 = own u.
Proof.
  intros Ho ->. unfold own in *. simpl in *. injection Ho. intros.
  replace (u_crit u1 - 1) with (u_crit u) by lia. congruence.
Qed.

(** There is room: the byte is stored and the head moves, whatever comes between. *)
Lemma put_room B blk ch u :
  u_ok u -> nbuffered (u_xmit u) <> b_size (u_xmit u) - 1 ->
  safe B (tick;; attempt (xmit_store ch);; tick;; modify (xmit_head (next_head (u_xmit u)));; mret OK)
    (put_post blk ch u) u.
Proof.
  intros Hok Hroom. sstep. apply safe_tick; [done|]. intros u1 Ha1 Hok1 _.
  destruct (ring_store (u_xmit u1) ch (uo_xmit _ Hok1)) as (Es & Hb & Hq & Hn & Hch).
  sstep. unfold safe, attempt, xmit_store. rewrite Es. simpl.
  set (b2 := b_set_buffer _ _) in *. change (b_set_buffer _ _) with b2. set (u2 := u_set_xmit b2 u1).
  assert (u_ok u2) as Hok2 by (destruct Hok1; by constructor).
  change (match (tick;; modify (xmit_head (next_head (u_xmit u)));; mret OK) u2 with
    | Done a u' => put_post blk ch u a u' | Block => B | Bad => False end)
    with (safe B (tick;; modify (xmit_head (next_head (u_xmit u)));; mret OK) (put_post blk ch u) u2).
  sstep. apply safe_tick; [done|]. intros u3 Ha3 Hok3 _. do 3 sstep.
  assert (own u3 = own u) as Hown by (rewrite (ad_own _ _ Ha3), <- (ad_own _ _ Ha1); done).
  assert (b_size (u_xmit u3) = b_size (u_xmit u)) as Hsz.
  { unfold own in Hown. injection Hown. done. }
  assert (next_head (u_xmit u) = next_head (u_xmit u3)) as Enh.
  { unfold next_head. rewrite Hsz, (ad_head _ _ Ha3). simpl. by rewrite (ad_head _ _ Ha1). }
  assert (nbuffered (u_xmit u3) <= nbuffered (u_xmit u)) as Hcnt.
  { pose proof (ad_count _ _ Ha3). pose proof (ad_count _ _ Ha1). simpl in *. lia. }
  pose proof (nbuffered_range _ (uo_xmit _ Hok)).
  destruct (ring_advance (u_xmit u3) ch (uo_xmit _ Hok3)) as (Hb3 & Hq3 & _).
  { rewrite (next_head_full _ (uo_xmit _ Hok3)). rewrite Hsz. lia. }
  { rewrite (ad_buffer _ _ Ha3), (ad_head _ _ Ha3). done. }
  rewrite Enh. split; [destruct Hok3; by constructor|]. split; [exact Hown|]. split.
  - eapply rx_adv_trans; [apply Ha1|]. eapply rx_adv_trans; [|eapply rx_adv_trans; [apply Ha3|]];
      by apply rx_adv_same.
  - left. split; [done|]. unfold txlog, xmit_head. simpl. rewrite Hq3, app_assoc. f_equal.
    rewrite (ad_log _ _ Ha3 : u_wire u3 ++ bq (u_xmit u3) = _). unfold txlog. simpl. rewrite Hq.
    apply (ad_log _ _ Ha1).
Qed.

Lemma putxmitchar_loop_spec ch blk fuel : forall u,
  u_ok u -> (mu_x u < fuel)%nat ->
  safe (blk = true) (putxmitchar_loop fuel ch blk) (put_post blk ch u) u.
Proof.
  induction fuel as [|fuel IH]; intros u Hok Hmu; [lia|]. cbn [putxmitchar_loop].
  sstep. apply safe_tick; [done|]. intros u1 Ha1 Hok1 _. do 2 sstep.
  rewrite xmit_next_eq.
  sstep. apply safe_tick; [done|]. intros u2 Ha2 Hok2 _. do 2 sstep.
  pose proof (adv_trans _ _ _ Ha1 Ha2) as Ha.
  assert (next_head (u_xmit u1) = next_head (u_xmit u2)) as ->.
  { unfold next_head. rewrite (ad_head _ _ Ha2). pose proof (ad_own _ _ Ha2) as Ho. injection Ho. congruence. }
  pose proof (next_head_full _ (uo_xmit _ Hok2)) as Hfull.
  destruct (Z.eqb_spec (next_head (u_xmit u2)) (b_tail (u_xmit u2))) as [E|Hne]; cbn [negb].
  - destruct blk; [|apply safe_ret; split; [done|]; split; [apply Ha|]; split; [apply Ha|];
      right; split; [done|apply Ha]].
    sstep. apply safe_tick; [done|]. intros u3 Ha3 Hok3 Hev. sstep. sstep. sstep. sstep.
    set (u4 := u_set_crit (u_crit u3 + 1) u3). simpl.
    assert (u_ok u4) as Hok4 by (destruct Hok3; by constructor).
    assert (forall r u5, u_ok u5 -> own u5 = own u4 -> rx_adv u4 u5 -> txlog u5 = txlog u4 ->
      (r = OK /\ (mu_x u5 < mu_x u)%nat \/ r = - EINTR) ->
      safe (true = true) (leave_critical_section;; if r <? 0 then mret (- EINTR) else putxmitchar_loop fuel ch true)
        (put_post true ch u) u5) as Hloop.
    { intros r u5 Hok5 Ho5 Hr5 Hl5 Hc. sstep. sstep. set (u6 := u_set_crit (u_crit u5 - 1) u5).
      assert (own u6 = own u) as Ho6.
      { rewrite (crit_balance u3 u5 u6 Ho5 eq_refl), (ad_own _ _ Ha3). apply Ha. }
      assert (rx_adv u u6) as Hr6.
      { eapply rx_adv_trans; [apply Ha|]. eapply rx_adv_trans; [apply Ha3|].
        eapply rx_adv_trans; [by apply (rx_adv_same u3 u4)|]. eapply rx_adv_trans; [exact Hr5|].
        by apply rx_adv_same. }
      assert (txlog u6 = txlog u) as Hl6.
      { change (txlog u6) with (txlog u5). rewrite Hl5. change (txlog u4) with (txlog u3).
        rewrite (ad_log _ _ Ha3). apply Ha. }
      assert (u_ok u6) as Hok6 by (destruct Hok5; by constructor).
      destruct Hc as [[-> Hlt]| ->].
      - change (OK <? 0) with false. cbv iota.
        eapply safe_mono; [apply IH; [done|change (mu_x u6) with (mu_x u5); lia]|].
        intros r' u' Hp. by apply (put_post_trans _ _ u u6).
      - change (- EINTR <? 0) with true. apply safe_ret. split; [done|]. split; [done|]. split; [done|].
        by right. }
    pose proof (ad_mu _ _ Ha) as M1. pose proof (ad_mu _ _ Ha3) as M2.
    destruct (Z.eqb_spec (next_head (u_xmit u2)) (b_tail (u_xmit u3))) as [E3|Hne3]; cbn [negb].
    + do 3 sstep. set (u5 := u_set_txint true u4).
      assert (u_ok u5) as Hok5 by (destruct Hok4; by constructor).
      sstep. apply safe_wait; [done|done|]. intros r u6 Hok6 Ha6 Hr Hlt. do 3 sstep.
      apply Hloop; [destruct Hok6; by constructor|apply (ad_own _ _ Ha6)| |apply (ad_log _ _ Ha6)|].
      * eapply rx_adv_trans; [by apply (rx_adv_same u4 u5)|].
        eapply rx_adv_trans; [apply Ha6|]. by apply rx_adv_same.
      * destruct Hr as [->| ->]; [left|by right]. split; [done|].
        change (mu_x (u_set_txint false u6)) with (mu_x u6). change (mu_x u5) with (mu_x u3) in Hlt. lia.
    + sstep. apply Hloop; [done|done|apply rx_adv_refl|done|]. left. split; [done|].
      change (mu_x u4) with (mu_x u3).
      destruct Hev as [->|[? _]]; [done|lia].
  - rewrite Hfull in Hne. apply (safe_mono _ _ (put_post blk ch u2)); [by apply put_room|].
    intros r u'. apply put_post_trans; apply Ha.
Qed.

Lemma safe_put ch blk u :
  u_ok u -> safe (blk = true) (uart_putxmitchar ch blk) (put_post blk ch u) u.
Proof.
  intros Hok. apply (putxmitchar_loop_spec ch blk (put_fuel u) u Hok). unfold put_fuel, mu_x. lia.
Qed.

(** What the output processing makes of a character. *)
Definition opost (oflag ch : Z) : list Z :=
  if has_flag oflag OPOST then
    let ch := if (ch =? CR) && has_flag oflag OCRNL then NL else ch in
    if (ch =? NL) && has_flag oflag (Z.lor ONLCR ONLRET) then [CR; ch] else [ch]
  else [ch].

(** The first [k] characters are in the log; a character of two bytes may have
    its first one there too. *)
Definition wrote (oflag : Z) (data : list Z) (k : nat) (log log' : list Z) : Prop :=
  exists extra, log' = log ++ concat (opost oflag <$> take k data) ++ extra /\
    (extra = [] \/ exists ch c, data !! k = Some ch /\ opost oflag ch = [CR; c] /\ extra = [CR]).

Lemma wrote_cons oflag ch data k log log' :
  wrote oflag data k (log ++ opost oflag ch) log' -> wrote oflag (ch :: data) (S k) log log'.
Proof. intros (extra & -> & He). exists extra. split; [by rewrite <- app_assoc; simpl; rewrite <- app_assoc|done]. Qed.

Lemma wrote_none oflag data log : wrote oflag data 0 log log.
Proof. exists []. split; [by rewrite !app_nil_r|by left]. Qed.

(** One character of a write. *)
Lemma writev_char_spec blk ch u :
  u_ok u ->
  safe (blk = true) (writev_char blk ch)
    (fun r u' => u_ok u' /\ own u' = own u /\ rx_adv u u' /\
       ((r = OK /\ txlog u' = txlog u ++ opost (u_oflag u) ch) \/
        (r = (if blk then - EINTR else - EAGAIN) /\ wrote (u_oflag u) [ch] 0 (txlog u) (txlog u')))) u.
Proof.
  intros Hok. unfold writev_char. do 2 sstep. cbv zeta.
  assert (forall c, opost (u_oflag u) ch = [c] ->
    safe (blk = true) (ret ← mret OK; if 0 <=? ret then uart_putxmitchar c blk else mret ret)
      (fun r u' => u_ok u' /\ own u' = own u /\ rx_adv u u' /\
       ((r = OK /\ txlog u' = txlog u ++ opost (u_oflag u) ch) \/
        (r = (if blk then - EINTR else - EAGAIN) /\ wrote (u_oflag u) [ch] 0 (txlog u) (txlog u')))) u) as Hone.
  { intros c Hc. do 2 sstep. change (0 <=? OK) with true. cbv iota. eapply safe_mono; [by apply safe_put|].
    intros r u1 (H1 & H2 & H3 & Hl). split; [done|]. split; [done|]. split; [done|]. rewrite Hc.
    destruct Hl as [?|[-> ->]]; [by left|right]. split; [done|apply wrote_none]. }
  unfold opost in Hone at 1. destruct (has_flag (u_oflag u) OPOST) eqn:Ep; cbn [andb]; [|by apply Hone].
  set (c := if (ch =? CR) && has_flag (u_oflag u) OCRNL then NL else ch) in *.
  destruct ((c =? NL) && has_flag (u_oflag u) (Z.lor ONLCR ONLRET)) eqn:En; [|by apply Hone].
  assert (opost (u_oflag u) ch = [CR; c]) as Ho by (unfold opost; rewrite Ep; fold c; by rewrite En).
  clear Hone. sstep. eapply safe_mono; [by apply safe_put|]. rewrite Ho.
  intros r u1 (H1 & H2 & H3 & [[-> Hl]|[-> Hl]]).
  - change (0 <=? OK) with true. cbv iota. eapply safe_mono; [by apply safe_put|].
    intros r u2 (G1 & G2 & G3 & Hc). split; [done|]. split; [congruence|].
    split; [by eapply rx_adv_trans|]. destruct Hc as [[-> Hl2]|[-> Hl2]]; rewrite Hl2, Hl.
    + left. split; [done|]. by rewrite <- app_assoc.
    + right. split; [done|]. exists [CR]. split; [done|]. right. by exists ch, c.
  - replace (0 <=? (if blk then - EINTR else - EAGAIN)) with false by (by destruct blk).
    sstep. rewrite Hl. split; [done|]. split; [done|]. split; [done|]. right. split; [done|apply wrote_none].
Qed.

Lemma writev_loop_spec blk N data : forall u,
  u_ok u -> zlen data <= N ->
  safe (blk = true) (writev_loop blk N data)
    (fun r u' => u_ok u' /\ own u' = own u /\ rx_adv u u' /\
       exists k, wrote (u_oflag u) data k (txlog u) (txlog u') /\
         ((k = length data /\ r = N) \/
          ((k < length data)%nat /\
           r = if zlen data - Z.of_nat k <? N then N - (zlen data - Z.of_nat k)
               else if blk then - EINTR else - EAGAIN))) u.
Proof.
  induction data as [|ch data IH]; intros u Hok HN; cbn [writev_loop].
  { sstep. split; [done|]. split; [done|]. split; [apply rx_adv_refl|]. exists O.
    split; [apply wrote_none|by left]. }
  sstep. eapply safe_mono; [by apply writev_char_spec|].
  intros r u1 (H1 & H2 & H3 & [[-> Hl]|[-> Hl]]).
  - change (OK <? 0) with false. cbv iota. cbn [length] in HN.
    eapply safe_mono; [apply IH; [done|lia]|]. intros r u2 (G1 & G2 & G3 & k & Hw & Hc).
    split; [done|]. split; [congruence|]. split; [by eapply rx_adv_trans|]. exists (S k).
    replace (u_oflag u1) with (u_oflag u) in Hw by (injection H2; congruence).
    split; [apply wrote_cons; by rewrite <- Hl|]. cbn [length].
    destruct Hc as [[-> ->]|[Hk ->]]; [by left|right]. split; [lia|].
    replace (Z.of_nat (S (length data)) - Z.of_nat (S k)) with (zlen data - Z.of_nat k) by lia. done.
  - replace ((if blk then - EINTR else - EAGAIN) <? 0) with true by (by destruct blk). sstep.
    split; [done|]. split; [done|]. split; [done|]. exists O. split.
    + destruct Hl as (extra & -> & He). exists extra. split; [done|].
      destruct He as [?|(c & d & Hc & Hd)]; [by left|right]. exists c, d. by injection Hc as ->.
    + right. split; [cbn [length]; lia|]. by rewrite Z.sub_0_r.
Qed.

Lemma ring_ok_lock v b : ring_ok b -> ring_ok (b_set_lock v b).
Proof. intros []. by constructor. Qed.

(** What is left to send has its interrupt enabled, and the lock is free. *)
Definition write_post (oflags : Z) (data : list Z) (u : uart) (r : Z) (u' : uart) : Prop :=
  u_ok u' /\ rx_adv u u' /\ b_lock (u_xmit u') = false /\ (bq (u_xmit u') <> [] -> u_txint u' = true) /\
  exists k, wrote (u_oflag u) data k (txlog u) (txlog u') /\ (k <= length data)%nat /\
    (r = Z.of_nat k \/
     k = O /\ data <> [] /\ r = if has_flag oflags O_NONBLOCK then - EAGAIN else - EINTR).

Lemma write_finish B oflags data u u4 r k v :
  u_ok u4 -> rx_adv u u4 -> (b_head (u_xmit u4) <> b_tail (u_xmit u4) -> v = true) ->
  wrote (u_oflag u) data k (txlog u) (txlog u4) ->
  ((k = length data /\ r = zlen data) \/
   ((k < length data)%nat /\
    r = if zlen data - Z.of_nat k <? zlen data then zlen data - (zlen data - Z.of_nat k)
        else if has_flag oflags O_NONBLOCK then - EAGAIN else - EINTR)) ->
  safe B (unlock_xmit;; mret r) (write_post oflags data u) (u_set_txint v u4).
Proof.
  intros Hok4 Hr Hv Hw Hc. unfold unlock_xmit. do 3 sstep. set (u5 := u_set_xmit _ _).
  assert (u_ok u5) as Hok5 by (destruct Hok4; constructor; try done; by apply ring_ok_lock).
  split; [done|]. split; [eapply rx_adv_trans; [exact Hr|]; by apply rx_adv_same|]. split; [done|].
  split; [change (bq (u_xmit u5)) with (bq (u_xmit u4)); rewrite <- bq_nil by apply Hok4; done|].
  exists k. split; [done|]. destruct Hc as [[-> ->]|[Hk ->]]; [split; [done|by left]|split; [lia|]].
  destruct (Z.ltb_spec (zlen data - Z.of_nat k) (zlen data)) as [|]; [left; lia|right].
  split; [lia|]. split; [|done]. intros E. rewrite E in Hk. simpl in Hk. lia.
Qed.

Lemma writev_spec oflags lret iov u :
  u_ok u -> 0 <= lret ->
  safe (negb (has_flag oflags O_NONBLOCK) = true) (uart_writev false oflags lret iov)
    (write_post oflags (concat iov) u) u.
Proof.
  intros Hok Hl. unfold uart_writev, lock_xmit. replace (lret <? 0) with false by lia.
  set (data := concat iov). do 4 sstep. change (OK <? 0) with false. cbv iota. set (u1 := u_set_xmit _ u).
  assert (u_ok u1) as Hok1 by (destruct Hok; constructor; try done; by apply ring_ok_lock).
  sstep. apply safe_tick; [done|]. intros u2 Ha2 Hok2 _. do 3 sstep. set (u3 := u_set_txint false u2).
  assert (u_ok u3) as Hok3 by (destruct Hok2; by constructor).
  eapply safe_mono; [apply (writev_loop_spec _ (zlen data) data u3 Hok3); lia|].
  intros r u4 (Hok4 & Ho4 & Hr4 & k & Hw & Hc). cbv beta.
  replace (u_oflag u3) with (u_oflag u) in Hw
    by (pose proof (ad_own _ _ Ha2) as Ho; injection Ho; simpl; congruence).
  replace (txlog u3) with (txlog u) in Hw by (symmetry; apply (ad_log _ _ Ha2)).
  assert (rx_adv u u4) as Hr.
  { eapply rx_adv_trans; [by apply (rx_adv_same u u1)|]. eapply rx_adv_trans; [apply Ha2|].
    eapply rx_adv_trans; [by apply (rx_adv_same u2 u3)|done]. }
  rewrite if_negb in Hc. do 3 sstep.
  destruct (Z.eqb_spec (b_head (u_xmit u4)) (b_tail (u_xmit u4))); cbn [negb]; sstep.
  - pose proof (fun B H => write_finish B oflags data u u4 r k (u_txint u4) Hok4 Hr H Hw Hc) as Hf.
    destruct u4. by apply Hf.
  - by apply (write_finish _ oflags data u u4 r k true).
Qed.

(** C29: what a write puts on the line.  Wherever the interrupts come, and when
    no read of another task echoes meanwhile, a write has no undefined behaviour
    and leaves the bytes sent and to be sent as those from before, followed by
    the first [k] characters of the data after output processing, and possibly
    by one carriage return more: the first of the two bytes of the character at
    which the write stopped.  It returns [k], or the error when [k] is 0; the
    lock is free again, what is left to send has the interrupt enabled, and
    bytes that arrived meanwhile are in the receive buffer.  It waits only if
    that is allowed. *)
Theorem uart_write_in_order oflags lret iov u :
  u_ok u ->
  match uart_writev false oflags lret iov u with
  | Done r u' =>
      u_ok u' /\ rx_adv u u' /\
      if lret <? 0 then r = lret /\ u' = u
      else
        b_lock (u_xmit u') = false /\ (bq (u_xmit u') <> [] -> u_txint u' = true) /\
        exists k, wrote (u_oflag u) (concat iov) k (txlog u) (txlog u') /\ (k <= length (concat iov))%nat /\
          (r = Z.of_nat k \/
           k = O /\ concat iov <> [] /\ r = if has_flag oflags O_NONBLOCK then - EAGAIN else - EINTR)
  | Block => 0 <= lret /\ has_flag oflags O_NONBLOCK = false
  | Bad => False
  end.
Proof.
  intros Hok. destruct (Z.ltb_spec lret 0) as [Hl|Hl].
  - unfold uart_writev, lock_xmit, mbind, M_bind, mret, M_ret. replace (lret <? 0) with true by lia.
    replace (lret <? 0) with true by lia. split; [done|]. split; [apply rx_adv_refl|done].
  - pose proof (writev_spec oflags lret iov u Hok Hl) as Hs. unfold safe in Hs.
    destruct (uart_writev false oflags lret iov u) as [r u'| |]; [|by destruct (has_flag oflags O_NONBLOCK)|done].
    by destruct Hs as (H1 & H2 & H3).
Qed.

(** ** A write that waits returns *)

(** How often the transmitter is ready. *)
Definition ev_tx (e : uart_ev) : nat := match e with EvTx (S _) => 1 | _ => 0 end.
Definition txs (u : uart) : nat := sum_list (map ev_tx (u_evs u)).
Definition no_sig (u : uart) : Prop := Forall (fun e => e <> EvSig) (u_evs u).

(** A task between two waits. *)
Record writing (u : uart) : Prop := {
  wr_ok : u_ok u;
  wr_attached : u_attached u = true;
  wr_sig : no_sig u;
  wr_quiet : u_txint u = false;
  wr_sem : u_xmitsem u <= 1
}.

Lemma ev_tx_le e : (ev_tx e <= 1)%nat.
Proof. destruct e as [|[]| | |]; simpl; lia. Qed.

Lemma attached_own u u' : own u' = own u -> u_attached u' = u_attached u.
Proof. intros Ho. injection Ho. congruence. Qed.

Lemma size_own u u' : own u' = own u -> b_size (u_xmit u') = b_size (u_xmit u).
Proof. intros Ho. injection Ho. congruence. Qed.

Lemma tick_writing B Q u :
  writing u ->
  (forall u', writing u' -> own u' = own u -> u_xmit u' = u_xmit u -> u_xmitsem u' = u_xmitsem u ->
     (mu_x u' <= mu_x u)%nat -> (txs u <= txs u' + 1)%nat -> Q tt u') ->
  safe B tick Q u.
Proof.
  intros [Hok Hat Hsig Hq Hsem] HQ. unfold safe, tick. destruct (u_evs u) as [|e evs] eqn:E.
  { apply HQ; try done; lia. }
  destruct (handle_adv e evs u Hok E) as (u' & -> & Hok' & Ha & He & Hx & Hr & Hqt).
  destruct (Hqt Hq) as (Q1 & Q2 & Q3). unfold no_sig in Hsig. rewrite E in Hsig. inversion Hsig; subst.
  apply HQ; try done; [|apply Ha|lia|].
  - constructor; [done|by rewrite (attached_own _ _ (ad_own _ _ Ha))|done|done|lia].
  - unfold txs. rewrite E. simpl. pose proof (ev_tx_le e). lia.
Qed.

Lemma sleep_writing evs : forall u,
  u_ok u -> u_evs u = evs -> u_attached u = true -> no_sig u -> u_txint u = true ->
  bq (u_xmit u) <> [] -> u_xmitsem u < 0 -> (1 <= txs u)%nat ->
  exists u', sem_sleep XMITSEM evs u = Done OK u' /\ u_ok u' /\ own u' = own u /\ no_sig u' /\
    nbuffered (u_xmit u') < nbuffered (u_xmit u) /\ u_xmitsem u' = 1 /\ (txs u <= txs u' + 1)%nat /\
    (mu_x u' < mu_x u)%nat.
Proof.
  induction evs as [|e evs IH]; intros u Hok E Hat Hsig Ht Hq Hsem Htx.
  { unfold txs in Htx. rewrite E in Htx. simpl in Htx. lia. }
  destruct (handle_adv e evs u Hok E) as (u1 & E1 & Hok1 & Ha1 & He1 & Hx1 & _).
  pose proof (u_ok_evs _ _ _ Hok E) as Hok0.
  pose proof (uo_evs _ Hok) as Hec. rewrite E in Hec. apply Forall_cons in Hec as [Hec _].
  unfold no_sig in Hsig. rewrite E in Hsig. apply Forall_cons in Hsig as [Hne Hsig'].
  assert (no_sig u1) as Hsig1 by (unfold no_sig; by rewrite He1).
  assert (txs u = ev_tx e + txs u1)%nat as Htx1 by (unfold txs; by rewrite E, He1).
  pose proof (attached_own _ _ (ad_own _ _ Ha1)) as Hat1.
  (* an event that sends nothing *)
  assert (ev_tx e = O -> u_txint u1 = true -> u_xmit u1 = u_xmit u -> u_xmitsem u1 = u_xmitsem u ->
    exists u', sem_sleep XMITSEM evs u1 = Done OK u' /\ u_ok u' /\ own u' = own u /\ no_sig u' /\
    nbuffered (u_xmit u') < nbuffered (u_xmit u) /\ u_xmitsem u' = 1 /\ (txs u <= txs u' + 1)%nat /\
    (mu_x u' < mu_x u)%nat) as Hgo.
  { intros Hz H1 H2 H3. destruct (IH u1) as (u' & A1 & A2 & A3 & A4 & A5 & A6 & A7 & A8);
      rewrite ?H2, ?H3, ?Hat1; try done; [lia|].
    exists u'. rewrite H2 in A5. split; [done|]. split; [done|]. split; [rewrite A3; apply Ha1|].
    split; [done|]. split; [done|]. split; [done|]. split; lia. }
  destruct e as [|n|l| |ch]; try done; cbn [sem_sleep]; rewrite E1; cbn [sem_count].
  - injection E1 as <-. replace (0 <=? _) with false by (simpl; lia). by apply Hgo.
  - simpl in E1. rewrite Hat, Ht in E1. simpl in E1.
    destruct (xmitchars_adv n _ Hok0) as (u' & Eu & _ & B1 & B2 & B3 & B4 & B5 & B6 & B7 & B8 & _).
    rewrite Eu in E1. injection E1 as <-. simpl in *. destruct n as [|n].
    + rewrite decide_False in B8 by lia. rewrite B8. replace (0 <=? u_xmitsem u) with false by lia.
      unfold uart_xmitchars in Eu. simpl in Eu. apply Hgo; try done.
      * injection Eu as <-. case_match eqn:Eh; [|done]. zbool.
        apply bq_nil in Eh; [done|apply Hok].
      * injection Eu as <-. by case_match.
    + rewrite decide_True in B8 by (split; [lia|done]). rewrite B8. replace (0 <=? Z.max _ 1) with true by lia.
      exists u'. split; [done|]. split; [done|]. split; [done|]. split; [done|].
      destruct (bq (u_xmit u)) as [|c q] eqn:Eq; [done|]. cbn [length] in B5.
      split; [lia|]. split; [lia|]. split; [simpl in Htx1; lia|done].
  - simpl in E1. rewrite Hat in E1. simpl in E1. destruct (u_rxint u).
    + destruct (recvchars_adv l _ Hok0) as (u' & Eu & _ & B1 & B2 & B3 & B4 & B5 & _).
      rewrite Eu in E1. injection E1 as <-. simpl in *. rewrite B5. replace (0 <=? u_xmitsem u) with false by lia.
      apply Hgo; try done. by rewrite B4.
    + injection E1 as <-. replace (0 <=? _) with false by (simpl; lia). by apply Hgo.
Qed.

(** The number of interrupts one byte needs. *)
Definition put_cost (u : uart) : nat :=
  if decide (nbuffered (u_xmit u) = b_size (u_xmit u) - 1) then if decide (0 < u_xmitsem u) then 11 else 8
  else 4.

Lemma writing_xmit x u : writing u -> ring_ok x -> writing (u_set_xmit x u).
Proof. intros [[] ? ? ? ?] Hx. by repeat (constructor; try done). Qed.

Lemma put_room_writing ch u :
  writing u -> nbuffered (u_xmit u) <> b_size (u_xmit u) - 1 ->
  safe False (tick;; attempt (xmit_store ch);; tick;; modify (xmit_head (next_head (u_xmit u)));; mret OK)
    (fun r u' => r = OK /\ writing u' /\ own u' = own u /\ (txs u <= txs u' + 2)%nat) u.
Proof.
  intros Hu Hroom. sstep. apply tick_writing; [done|]. intros u1 Hu1 O1 X1 S1 M1 T1.
  destruct (ring_store (u_xmit u1) ch (uo_xmit _ (wr_ok _ Hu1))) as (Es & Hb & Hq & Hn & Hch).
  sstep. unfold safe at 1, attempt, xmit_store. rewrite Es. cbn [mbind option_bind].
  set (b2 := b_set_buffer _ _) in *. change (b_set_buffer _ _) with b2.
  pose proof (writing_xmit b2 u1 Hu1 Hb) as Hu2. set (u2 := u_set_xmit b2 u1) in *.
  sstep. apply tick_writing; [done|]. intros u3 Hu3 O3 X3 S3 M3 T3. do 3 sstep.
  assert (next_head (u_xmit u) = next_head b2) as -> by (unfold next_head; rewrite <- X1; done).
  destruct (ring_advance b2 ch Hb) as (Hb3 & _).
  { rewrite (next_head_full _ Hb), Hn, X1. simpl. by rewrite X1. }
  { done. }
  split; [done|]. unfold xmit_head. rewrite X3. change (u_xmit u2) with b2.
  split; [by apply writing_xmit|].
  split; [|unfold txs in *; simpl in *; lia].
  rewrite <- O1. change (own u1) with (own u2). rewrite <- O3. unfold own. simpl. rewrite X3. done.
Qed.

Lemma put_writing ch fuel : forall u,
  writing u -> 1 < b_size (u_xmit u) -> (mu_x u < fuel)%nat -> (put_cost u <= txs u)%nat ->
  safe False (putxmitchar_loop fuel ch true)
    (fun r u' => r = OK /\ writing u' /\ own u' = own u /\ (txs u <= txs u' + put_cost u)%nat) u.
Proof.
  induction fuel as [|fuel IH]; intros u Hu Hsz Hmu Hc; [lia|]. cbn [putxmitchar_loop].
  sstep. apply tick_writing; [done|]. intros u1 Hu1 O1 X1 S1 M1 T1. do 2 sstep. rewrite xmit_next_eq.
  sstep. apply tick_writing; [done|]. intros u2 Hu2 O2 X2 S2 M2 T2. do 2 sstep.
  assert (u_xmit u2 = u_xmit u) as X by congruence. rewrite X1, <- X.
  pose proof (next_head_full _ (uo_xmit _ (wr_ok _ Hu2))) as Hfull.
  destruct (Z.eqb_spec (next_head (u_xmit u2)) (b_tail (u_xmit u2))) as [E|Hne]; cbn [negb].
  2:{ rewrite Hfull in Hne. eapply safe_mono; [by apply put_room_writing|].
      intros r u' (H1 & H2 & H3 & H4). split; [done|]. split; [done|]. split; [congruence|].
      unfold put_cost. rewrite <- X, decide_False by done. lia. }
  pose proof E as Ef. apply Hfull in Ef. rewrite X in E, Ef.
  sstep. apply tick_writing; [done|]. intros u3 Hu3 O3 X3 S3 M3 T3. do 4 sstep. simpl.
  rewrite X3, X, E, Z.eqb_refl. cbn [negb]. do 4 sstep. set (u4 := u_set_txint true _).
  (* what is left after the wait *)
  assert (forall u6, u_ok u6 -> own u6 = own u4 -> no_sig u6 -> u_xmitsem u6 <= 1 ->
    (mu_x u6 < mu_x u)%nat -> (put_cost u6 <= txs u6)%nat -> (txs u + put_cost u6 <= txs u6 + put_cost u)%nat ->
    safe False (txint false;; mret OK) (fun ret => safe False
      (leave_critical_section;; if ret <? 0 then mret (- EINTR) else putxmitchar_loop fuel ch true)
      (fun r u' => r = OK /\ writing u' /\ own u' = own u /\ (txs u <= txs u' + put_cost u)%nat)) u6) as Hloop.
  { intros u6 Hok6 Ho6 Hs6 Hle6 Hm6 Hc6 Ht6. do 5 sstep. change (OK <? 0) with false. cbv iota.
    set (u7 := u_set_crit _ _).
    assert (own u7 = own u) as Ho7.
    { rewrite (crit_balance u3 (u_set_txint false u6) u7 Ho6 eq_refl). congruence. }
    assert (writing u7) as Hu7.
    { destruct Hok6. constructor; [by constructor| |done|done|done].
      rewrite (attached_own _ _ Ho7). apply Hu. }
    eapply safe_mono; [apply IH; [done| |change (mu_x u7) with (mu_x u6); lia|exact Hc6]|].
    { by rewrite (size_own _ _ Ho7). }
    intros r u' (H1 & H2 & H3 & H4). split; [done|]. split; [done|]. split; [congruence|].
    change (put_cost u7) with (put_cost u6) in H4. change (txs u7) with (txs u6) in H4. lia. }
  assert (u_xmitsem u4 = u_xmitsem u) as S4 by (simpl; congruence).
  assert (u_xmit u4 = u_xmit u) as X4 by (simpl; congruence).
  assert (txs u <= txs u4 + 3)%nat as T4 by (change (txs u4) with (txs u3); lia).
  assert (mu_x u4 <= mu_x u)%nat as M4 by (change (mu_x u4) with (mu_x u3); lia).
  assert (u_ok u4) as Hok4 by (destruct Hu3 as [[] ? ? ? ?]; by constructor).
  assert (no_sig u4 /\ u_attached u4 = true) as [Hs4 Hat4] by (by destruct Hu3).
  unfold safe at 1, sem_wait. set (u5 := set_count XMITSEM _ u4).
  assert (u_ok u5) as Hok5 by (destruct Hok4; by constructor).
  assert (u_xmitsem u5 = u_xmitsem u - 1) as S5 by (simpl; congruence).
  pose proof (wr_sem _ Hu) as Hsem. change (sem_count XMITSEM u5) with (u_xmitsem u4 - 1).
  destruct (Z.leb_spec 0 (u_xmitsem u4 - 1)) as [Hp|Hn].
  - assert (put_cost u = 11%nat) as Cu by (unfold put_cost; rewrite !decide_True by (done || lia); done).
    assert (put_cost u5 = 8%nat) as C5.
    { unfold put_cost. change (u_xmit u5) with (u_xmit u4). by rewrite X4, decide_True, decide_False by (done || lia). }
    apply Hloop; try done; [simpl; lia|unfold mu_x in *; simpl in *; lia| |].
    + rewrite C5. change (txs u5) with (txs u4). lia.
    + rewrite C5, Cu. change (txs u5) with (txs u4). lia.
  - assert (put_cost u = 8%nat) as Cu.
    { unfold put_cost. by rewrite decide_True, decide_False by (done || lia). }
    pose proof (nbuffered_range _ (uo_xmit _ (wr_ok _ Hu))) as Hnb.
    destruct (sleep_writing (u_evs u5) u5) as (u6 & E6 & H1 & H2 & H3 & H4 & H5 & H6 & H7); try done.
    { change (u_xmit u5) with (u_xmit u4). rewrite X4, <- length_zero_iff_nil.
      pose proof (length_bq _ (uo_xmit _ (wr_ok _ Hu))). lia. }
    { change (txs u5) with (txs u4). lia. }
    rewrite E6. change (u_xmit u5) with (u_xmit u4) in H4. rewrite X4 in H4.
    change (txs u5) with (txs u4) in H6. assert (mu_x u5 = mu_x u4) as M5 by (unfold mu_x; simpl; lia).
    assert (b_size (u_xmit u6) = b_size (u_xmit u)) as Hs6.
    { rewrite (size_own _ _ H2). change (u_xmit u5) with (u_xmit u4). by rewrite X4. }
    assert (put_cost u6 = 4%nat) as C6 by (unfold put_cost; rewrite decide_False by lia; done).
    apply Hloop; try done; lia.
Qed.

Lemma tick_sem B Q u :
  u_ok u -> no_sig u -> u_xmitsem u <= 1 ->
  (forall u', u_ok u' -> own u' = own u -> no_sig u' -> u_xmitsem u' <= 1 -> (txs u <= txs u' + 1)%nat -> Q tt u') ->
  safe B tick Q u.
Proof.
  intros Hok Hsig Hsem HQ. unfold safe, tick. destruct (u_evs u) as [|e evs] eqn:E.
  { apply HQ; try done. lia. }
  destruct (handle_adv e evs u Hok E) as (u' & E1 & Hok' & Ha & He & _). rewrite E1.
  unfold no_sig in Hsig. rewrite E in Hsig. apply Forall_cons in Hsig as [Hne Hsig].
  apply HQ; [done|apply Ha|unfold no_sig; by rewrite He| |].
  - pose proof (u_ok_evs _ _ _ Hok E) as Hok0. destruct e as [|n|l| |ch]; simpl in E1.
    1,4: by injection E1 as <-.
    + case_match; [|by injection E1 as <-].
      destruct (xmitchars_adv n _ Hok0) as (u2 & Eu & _ & _ & _ & _ & _ & _ & _ & _ & B8 & _).
      rewrite Eu in E1. injection E1 as <-. rewrite B8.
      change (u_xmitsem (u_set_evs evs u)) with (u_xmitsem u). case_decide; lia.
    + case_match; [|by injection E1 as <-].
      destruct (recvchars_adv l _ Hok0) as (u2 & Eu & _ & _ & _ & _ & _ & B5 & _).
      rewrite Eu in E1. injection E1 as <-. by rewrite B5.
    + pose proof (uo_evs _ Hok) as Hec. rewrite E in Hec. by apply Forall_cons in Hec as [Hec _].
  - unfold txs. rewrite E, He. simpl. pose proof (ev_tx_le e). lia.
Qed.

Lemma put_cost_le u : (put_cost u <= 11)%nat.
Proof. unfold put_cost. repeat case_decide; lia. Qed.

Lemma put_completes ch u :
  writing u -> 1 < b_size (u_xmit u) -> (11 <= txs u)%nat ->
  safe False (uart_putxmitchar ch true)
    (fun r u' => r = OK /\ writing u' /\ own u' = own u /\ (txs u <= txs u' + 11)%nat) u.
Proof.
  intros Hu Hsz Ht. pose proof (put_cost_le u).
  eapply safe_mono; [apply (put_writing ch (put_fuel u) u); [done|done|unfold put_fuel, mu_x; lia|lia]|].
  intros r u' (H1 & H2 & H3 & H4). split; [done|]. split; [done|]. split; [done|lia].
Qed.

Lemma writev_char_completes ch u :
  writing u -> 1 < b_size (u_xmit u) -> (22 <= txs u)%nat ->
  safe False (writev_char true ch)
    (fun r u' => r = OK /\ writing u' /\ own u' = own u /\ (txs u <= txs u' + 22)%nat) u.
Proof.
  intros Hu Hsz Ht. unfold writev_char. do 2 sstep. cbv zeta.
  match goal with |- context [uart_putxmitchar (if ?b then NL else ch) true] => set (c := if b then NL else ch) end.
  assert (forall u1, writing u1 -> own u1 = own u -> (txs u <= txs u1 + 11)%nat ->
    safe False (uart_putxmitchar c true)
      (fun r u' => r = OK /\ writing u' /\ own u' = own u /\ (txs u <= txs u' + 22)%nat) u1) as Hput.
  { intros u1 Hu1 Ho Ht1. eapply safe_mono; [apply put_completes; [done|by rewrite (size_own _ _ Ho)|lia]|].
    intros r u' (H1 & H2 & H3 & H4). split; [done|]. split; [done|]. split; [congruence|lia]. }
  sstep. case_match.
  - eapply safe_mono; [apply put_completes; [done|done|lia]|]. intros r u1 (-> & H2 & H3 & H4). by apply Hput.
  - sstep. change (0 <=? OK) with true. cbv iota. apply Hput; [done|done|lia].
Qed.

Lemma writev_loop_completes N data : forall u,
  writing u -> 1 < b_size (u_xmit u) -> (22 * length data <= txs u)%nat ->
  safe False (writev_loop true N data) (fun r u' => r = N) u.
Proof.
  induction data as [|ch data IH]; intros u Hu Hsz Ht; cbn [writev_loop]; [by sstep|].
  cbn [length] in Ht. sstep. eapply safe_mono; [apply writev_char_completes; [done|done|lia]|].
  intros r u1 (-> & H2 & H3 & H4). change (OK <? 0) with false. cbv iota.
  apply IH; [done|by rewrite (size_own _ _ H3)|lia].
Qed.

(** C30: a write that may wait returns.  On an open device whose transmit buffer
    has room for a byte, when no signal comes and the transmitter gets ready
    often enough, 22 times per character plus one, a blocking write of any data
    returns and has written all of it; where the interrupts come does not
    matter.  So no wake-up is lost between the test of the buffer and the wait. *)
Theorem uart_write_completes oflags lret iov u :
  u_ok u -> u_attached u = true -> 1 < b_size (u_xmit u) -> u_xmitsem u <= 1 -> no_sig u ->
  0 <= lret -> has_flag oflags O_NONBLOCK = false ->
  (22 * length (concat iov) + 1 <= txs u)%nat ->
  exists u', uart_writev false oflags lret iov u = Done (zlen (concat iov)) u'.
Proof.
  intros Hok Hat Hsz Hsem Hsig Hl Hnb Ht.
  assert (safe False (uart_writev false oflags lret iov) (fun r _ => r = zlen (concat iov)) u) as Hs.
  2:{ unfold safe in Hs. destruct (uart_writev false oflags lret iov u) as [r u'| |]; [|done|done].
      subst r. by exists u'. }
  unfold uart_writev, lock_xmit. replace (lret <? 0) with false by lia. rewrite Hnb. cbn [negb].
  set (data := concat iov) in *. do 4 sstep. change (OK <? 0) with false. cbv iota. set (u1 := u_set_xmit _ u).
  assert (u_ok u1) as Hok1 by (destruct Hok; constructor; try done; by apply ring_ok_lock).
  sstep. apply tick_sem; try done. intros u2 Hok2 O2 Hs2 S2 T2. do 3 sstep.
  set (u3 := u_set_txint false u2).
  assert (writing u3) as Hu3.
  { destruct Hok2. constructor; [by constructor|by rewrite (attached_own u2 u3 eq_refl), (attached_own _ _ O2)|done..]. }
  eapply safe_mono; [apply (writev_loop_completes (zlen data) data u3 Hu3)|].
  { by rewrite (size_own u2 u3 eq_refl), (size_own _ _ O2). }
  { change (txs u3) with (txs u2). change (txs u1) with (txs u) in T2. lia. }
  intros r u4 ->. do 3 sstep. unfold unlock_xmit. case_match; by do 4 sstep.
Qed.

(** ** Input *)

(** What a character does to the line read so far. *)
Definition line_char (iflag lflag : Z) (line : list Z) (ch : Z) : list Z :=
  match input_char iflag ch with
  | None => line
  | Some ch =>
      if has_flag lflag ICANON && ((ch =? ASCII_BS) || (ch =? ASCII_DEL)) then removelast line
      else line ++ [ch]
  end.
Definition line_of (u : uart) (line consumed : list Z) : list Z :=
  foldl (line_char (u_iflag u) (u_lflag u)) line consumed.

(** The reader takes [consumed] from the receive buffer while bytes arrive. *)
Record reads (u : uart) (consumed : list Z) (u' : uart) : Prop := {
  rd_ok : u_ok u';
  rd_iflag : u_iflag u' = u_iflag u;
  rd_lflag : u_lflag u' = u_lflag u;
  rd_rx : exists new, bq (u_recv u) ++ new = consumed ++ bq (u_recv u') /\ u_in u' = u_in u ++ new;
  rd_mu : (length consumed + mu_r u' <= mu_r u)%nat;
  rd_tx : txlog u `prefix_of` txlog u';
  rd_quiet : has_flag (u_lflag u) ECHO = false -> txlog u' = txlog u
}.

Lemma reads_trans u c1 u1 c2 u2 : reads u c1 u1 -> reads u1 c2 u2 -> reads u (c1 ++ c2) u2.
Proof.
  intros [A1 A2 A3 (n1 & A4 & A5) A6 A7 A8] [B1 B2 B3 (n2 & B4 & B5) B6 B7 B8]. constructor; try done.
  - congruence.
  - congruence.
  - exists (n1 ++ n2). rewrite app_assoc, A4, <- app_assoc, B4, B5, A5, !app_assoc. done.
  - rewrite length_app. lia.
  - by transitivity (txlog u1).
  - intros He. rewrite B8 by (by rewrite A3). auto.
Qed.

Lemma reads_same u u1 :
  u_ok u1 -> u_iflag u1 = u_iflag u -> u_lflag u1 = u_lflag u -> rx_adv u u1 ->
  (txlog u1 = txlog u \/ has_flag (u_lflag u) ECHO = true /\ txlog u `prefix_of` txlog u1) -> reads u [] u1.
Proof.
  intros Hok Hi Hl [_ (new & H1 & H2) H3] Ht. constructor; try done.
  - exists new. by rewrite H1.
  - destruct Ht as [->|[_ ?]]; done.
  - intros He. destruct Ht as [?|[? _]]; congruence.
Qed.

Lemma reads_adv u u1 : adv u u1 -> u_ok u1 -> reads u [] u1.
Proof.
  intros Ha Hok. pose proof (ad_own _ _ Ha) as Ho. injection Ho. intros.
  apply reads_same; [done|done|done|apply Ha|left; apply Ha].
Qed.

(** A change of fields that neither reader nor queues depend on. *)
Lemma reads_frame u u1 :
  u_ok u -> (u_iflag u1, u_lflag u1, u_in u1, u_evs u1, u_recvsem u1, u_wire u1, u_xmit u1) =
    (u_iflag u, u_lflag u, u_in u, u_evs u, u_recvsem u, u_wire u, u_xmit u) ->
  (exists v, u_recv u1 = b_set_lock v (u_recv u)) -> reads u [] u1.
Proof.
  intros Hok E [v Ev]. simplify_eq. constructor; try done.
  - destruct Hok. constructor; [congruence|rewrite Ev; by apply ring_ok_lock|congruence].
  - exists []. rewrite Ev, !app_nil_r. by split; [|congruence].
  - unfold mu_r. rewrite Ev. simpl. replace (u_evs u1) with (u_evs u) by congruence.
    replace (u_recvsem u1) with (u_recvsem u) by congruence. done.
  - unfold txlog. replace (u_wire u1) with (u_wire u) by congruence.
    by replace (u_xmit u1) with (u_xmit u) by congruence.
  - intros _. unfold txlog. congruence.
Qed.

Lemma safe_weaken {A} (B B' : Prop) (m : M A) Q u : (B -> B') -> safe B m Q u -> safe B' m Q u.
Proof. unfold safe. destruct (m u); auto. Qed.

(** The echo of a character. *)
Lemma safe_echo_put (B : Prop) ch u :
  (has_flag (u_lflag u) ECHO = true -> B) -> u_ok u -> has_flag (u_lflag u) ECHO = true ->
  safe B (uart_putxmitchar ch true) (fun _ u' => reads u [] u') u.
Proof.
  intros HB Hok He. apply (safe_weaken (true = true)); [auto|].
  eapply safe_mono; [by apply safe_put|]. intros r u' (H1 & H2 & H3 & Hc). injection H2. intros.
  apply reads_same; try done. right. split; [done|].
  destruct Hc as [[_ ->]|[_ ->]]; [by apply prefix_app_r|done].
Qed.

Lemma safe_reads {A} (B : Prop) (m : M A) u u1 c (P : A -> list Z -> uart -> Prop) :
  reads u c u1 ->
  safe B m (fun a u' => exists c', reads u1 c' u' /\ P a (c ++ c') u') u1 ->
  safe B m (fun a u' => exists c', reads u c' u' /\ P a c' u') u1.
Proof.
  intros Hr Hs. eapply safe_mono; [exact Hs|]. intros a u' (c' & H1 & H2).
  exists (c ++ c'). split; [by eapply reads_trans|done].
Qed.

Lemma same_recv u f :
  u_recv (f u) = u_recv u -> exists v, u_recv (f u) = b_set_lock v (u_recv u).
Proof. intros ->. exists (b_lock (u_recv u)). by destruct (u_recv u). Qed.

Lemma echo_char_spec (B : Prop) ch echoed u :
  (has_flag (u_lflag u) ECHO = true -> B) -> u_ok u ->
  safe B (echo_char ch echoed) (fun _ u' => reads u [] u') u.
Proof.
  intros HB Hok. unfold echo_char. do 2 sstep.
  destruct (has_flag (u_lflag u) ECHO) eqn:He; cbn [negb].
  2:{ sstep. apply reads_adv; [apply adv_refl|done]. }
  assert (forall f, (u_iflag (f u), u_lflag (f u), u_in (f u), u_evs (f u), u_recvsem (f u), u_wire (f u), u_xmit (f u)) =
    (u_iflag u, u_lflag u, u_in u, u_evs u, u_recvsem u, u_wire u, u_xmit u) ->
    u_recv (f u) = u_recv u -> reads u [] (f u)) as Hf.
  { intros f H1 H2. apply reads_frame; [done|done|by apply same_recv]. }
  destruct (ch =? ASCII_ESC); [do 3 sstep; by apply (Hf (u_set_escape 2))|].
  destruct (_ && _); [do 3 sstep; by apply (Hf (u_set_escape (u_escape u - 1)))|].
  sstep. set (K := fun _ : unit => _).
  assert (forall u1, reads u [] u1 -> K tt u1) as HK.
  2:{ destruct (u_escape u =? 2); [sstep; apply HK; by apply (Hf (u_set_escape 0))|].
      sstep. apply HK. apply reads_adv; [apply adv_refl|done]. }
  intros u1 H1. unfold K. destruct (negb _ || _); [|by sstep].
  assert (forall u2 c, reads u [] u2 -> safe B (uart_putxmitchar c true) (fun _ u' => reads u [] u') u2) as Hput.
  { intros u2 c H2. pose proof (rd_lflag _ _ _ H2) as Hl.
    eapply safe_mono; [apply safe_echo_put; [auto|apply H2|congruence]|].
    intros r u3 H3. apply (reads_trans _ [] _ [] _ H2 H3). }
  assert (forall u2, reads u [] u2 -> safe B
    (uart_putxmitchar ch true;;
     if has_flag (u_lflag u) ICANON then txint true;; mret (false, echoed) else mret (false, true))
    (fun _ u' => reads u [] u') u2) as Htail.
  { intros u2 H2. sstep. eapply safe_mono; [by apply Hput|]. intros r u3 H3. cbv beta.
    case_match; [|by sstep]. do 3 sstep. apply (reads_trans _ [] _ [] _ H3).
    apply reads_frame; [apply H3|done|by apply (same_recv u3 (u_set_txint true))]. }
  sstep. destruct (ch =? NL).
  - sstep. eapply safe_mono; [by apply Hput|]. intros r u2 H2. sstep. by apply Htail.
  - sstep. by apply Htail.
Qed.

Lemma echo_erase_spec (B : Prop) u :
  (has_flag (u_lflag u) ECHO = true -> B) -> u_ok u ->
  safe B echo_erase (fun _ u' => reads u [] u') u.
Proof.
  intros HB Hok. unfold echo_erase. do 2 sstep. destruct (has_flag (u_lflag u) ECHO) eqn:He.
  2:{ sstep. apply reads_adv; [apply adv_refl|done]. }
  assert (forall u2 c, reads u [] u2 -> safe B (uart_putxmitchar c true) (fun _ u' => reads u [] u') u2) as Hput.
  { intros u2 c H2. pose proof (rd_lflag _ _ _ H2) as Hl.
    eapply safe_mono; [apply safe_echo_put; [auto|apply H2|congruence]|].
    intros r u3 H3. apply (reads_trans _ [] _ [] _ H2 H3). }
  sstep. eapply safe_mono; [apply Hput, reads_adv; [apply adv_refl|done]|]. intros ? u1 H1.
  sstep. eapply safe_mono; [by apply Hput|]. intros ? u2 H2.
  sstep. eapply safe_mono; [by apply Hput|]. intros ? u3 H3. sstep. apply (reads_trans _ [] _ [] _ H3).
  apply reads_frame; [apply H3|done|by apply (same_recv u3 (u_set_txint true))].
Qed.

(** The outcome of the loop with [line] read so far. *)
Definition read_post (oflags : Z) (n : Z) (line : list Z) (u : uart) (res : Z * bool * list Z) (u' : uart) : Prop :=
  zlen res.2 = n /\ exists c, reads u c u' /\
  ((0 <= res.1.1 <= n /\ take (Z.to_nat res.1.1) res.2 = line_of u line c) \/
   (res.1.1 = - EAGAIN /\ has_flag oflags O_NONBLOCK = true /\
    (has_flag (u_lflag u) ICANON = false -> line_of u line c = [])) \/
   (res.1.1 = - EINTR /\ line_of u line c = [])).

Lemma read_post_trans oflags n line u c u1 res u' :
  reads u c u1 -> read_post oflags n (line_of u line c) u1 res u' -> read_post oflags n line u res u'.
Proof.
  intros Hr (H1 & c' & H2 & H3). split; [done|]. exists (c ++ c'). split; [by eapply reads_trans|].
  rewrite <- (rd_lflag _ _ _ Hr).
  assert (line_of u line (c ++ c') = line_of u1 (line_of u line c) c') as ->; [|done].
  unfold line_of. by rewrite foldl_app, (rd_iflag _ _ _ Hr), (rd_lflag _ _ _ Hr).
Qed.

Lemma read_post_end oflags n line u res e u1 u2 :
  read_post oflags n line u res u1 -> (u_ok u1 -> reads u1 [] u2) ->
  read_post oflags n line u (res.1.1, e, res.2) u2.
Proof.
  intros (H1 & c & H2 & H3) Hr. split; [done|]. exists c. split; [|done].
  rewrite <- (app_nil_r c). eapply reads_trans; [done|apply Hr, H2].
Qed.

Lemma take_store (buf : list Z) i x buf' :
  store buf i x = Some buf' -> zlen buf' = zlen buf /\ 0 <= i < zlen buf /\
    take (Z.to_nat i) buf' = take (Z.to_nat i) buf /\
    take (Z.to_nat (i + 1)) buf' = take (Z.to_nat i) buf ++ [x].
Proof.
  unfold store. case_match; [|done]. zbool. intros [= <-]. rewrite length_insert.
  split; [done|]. split; [lia|]. rewrite take_insert_ge by lia. split; [done|].
  replace (Z.to_nat (i + 1)) with (S (Z.to_nat i)) by lia.
  rewrite (take_S_r _ _ x), take_insert_ge; [done|lia|]. apply list_lookup_insert_eq. lia.
Qed.

Lemma removelast_take {A} (l : list A) n : (S n <= length l)%nat -> removelast (take (S n) l) = take n l.
Proof.
  intros Hn. destruct (lookup_lt_is_Some_2 l n) as [x Hx]; [lia|].
  rewrite (take_S_r _ _ x Hx). by rewrite removelast_last.
Qed.

(** A byte leaves the receive buffer. *)
Lemma reads_byte u ch :
  u_ok u -> head (bq (u_recv u)) = Some ch ->
  let tail := if b_size (u_recv u) <=? b_tail (u_recv u) + 1 then 0 else b_tail (u_recv u) + 1 in
  reads u [ch] (u_set_recv (b_set_tail tail (u_recv u)) u).
Proof.
  intros Hok Hh tail.
  assert (b_head (u_recv u) <> b_tail (u_recv u)) as Hne.
  { intros E. apply bq_nil in E; [|apply Hok]. by rewrite E in Hh. }
  destruct (ring_take _ (uo_recv _ Hok) Hne) as (ch' & _ & Hb & Hq & _). fold tail in Hb, Hq.
  rewrite Hq in Hh. injection Hh as ->. constructor; try done.
  - destruct Hok. by constructor.
  - exists []. rewrite !app_nil_r. by rewrite Hq.
  - unfold mu_r. simpl. rewrite Hq. simpl. lia.
Qed.

Lemma bool_cases (b : bool) : b = true \/ b = false.
Proof. destruct b; auto. Qed.

Section reading.
Context (B : Prop) (oflags lflag : Z).
Hypothesis B_block : has_flag oflags O_NONBLOCK = false -> B.
Hypothesis B_echo : has_flag lflag ECHO = true -> B.

(** The wait of the reader, in its critical section. *)
Lemma read_wait fuel n recvd echoed buf u :
  (forall u1, u_ok u1 -> u_lflag u1 = lflag -> (mu_r u1 < mu_r u)%nat ->
     safe B (readv_loop fuel oflags recvd echoed buf) (read_post oflags n (take (Z.to_nat recvd) buf) u1) u1) ->
  u_ok u -> u_lflag u = lflag -> zlen buf = n -> 0 <= recvd < n ->
  has_flag oflags O_NONBLOCK = false ->
  safe B
    (unlock_recv;; ret ← sem_wait RECVSEM; lock_recv OK;; leave_critical_section;;
     if ret <? 0 then mret (if recvd =? 0 then ret else recvd, echoed, buf)
     else readv_loop fuel oflags recvd echoed buf)
    (read_post oflags n (take (Z.to_nat recvd) buf) u) u.
Proof.
  intros IH Hok Hl Hbuf Hrec Hnb. unfold unlock_recv, lock_recv. do 2 sstep. set (u1 := u_set_recv _ u).
  assert (reads u [] u1) as H1 by (apply reads_frame; [done|done|by exists false]).
  sstep. apply safe_wait; [auto|apply H1|]. intros r u2 Hok2 Ha2 Hr Hmu.
  pose proof (reads_trans _ _ _ _ _ H1 (reads_adv _ _ Ha2 Hok2)) as H2.
  change (OK <? 0) with false. cbv iota. do 6 sstep. set (u3 := u_set_crit _ _).
  assert (reads u [] u3) as H3.
  { apply (reads_trans _ [] _ [] _ H2). apply reads_frame; [done|done|by exists true]. }
  assert ((mu_r u3 < mu_r u)%nat) as Hm.
  { change (mu_r u1) with (mu_r u) in Hmu. by change (mu_r u3) with (mu_r u2). }
  destruct Hr as [->| ->].
  - change (OK <? 0) with false. cbv iota.
    eapply safe_mono; [apply IH; [apply H3|rewrite (rd_lflag _ _ _ H3); done|done]|].
    intros res u'. by apply (read_post_trans oflags n _ u [] u3).
  - change (- EINTR <? 0) with true. cbv iota. sstep. split; [done|]. exists []. split; [done|].
    destruct (Z.eqb_spec recvd 0) as [->|]; [by right; right|left]. cbn [fst snd]. split; [lia|done].
Qed.

(** What follows after a character was taken. *)
Lemma read_char fuel n recvd echoed buf ch u :
  (forall u1 recvd' echoed' buf', u_ok u1 -> u_lflag u1 = lflag -> (mu_r u1 <= mu_r u)%nat ->
     zlen buf' = n -> 0 <= recvd' <= n ->
     safe B (readv_loop fuel oflags recvd' echoed' buf') (read_post oflags n (take (Z.to_nat recvd') buf') u1) u1) ->
  u_ok u -> u_lflag u = lflag -> zlen buf = n -> 0 <= recvd < n ->
  safe B
    (match input_char (u_iflag u) ch with
     | None => readv_loop fuel oflags recvd echoed buf
     | Some ch =>
         if has_flag (u_lflag u) ICANON && ((ch =? ASCII_BS) || (ch =? ASCII_DEL)) then
           if 0 <? recvd then
             buf ← olift (store buf recvd 0);
             echo_erase;;
             readv_loop fuel oflags (recvd - 1) echoed buf
           else readv_loop fuel oflags recvd echoed buf
         else
           buf ← olift (store buf recvd ch);
           '(next, echoed) ← echo_char ch echoed;
           if negb next && has_flag (u_lflag u) ICANON && (ch =? NL)
           then mret (recvd + 1, echoed, buf)
           else readv_loop fuel oflags (recvd + 1) echoed buf
     end)
    (read_post oflags n (line_char (u_iflag u) (u_lflag u) (take (Z.to_nat recvd) buf) ch) u) u.
Proof.
  intros IH Hok Hl Hbuf Hrec. unfold line_char.
  destruct (input_char (u_iflag u) ch) as [c|]; [|apply IH; [done|done|done|done|lia]].
  assert (forall x, exists buf', store buf recvd x = Some buf') as Hst.
  { intros x. rewrite store_in_range by lia. by eexists. }
  destruct (has_flag (u_lflag u) ICANON && ((c =? ASCII_BS) || (c =? ASCII_DEL))).
  - destruct (Z.ltb_spec 0 recvd) as [Hp|Hz].
    + destruct (Hst 0) as [buf' Eb]. destruct (take_store _ _ _ _ Eb) as (L1 & L2 & L3 & L4). rewrite Eb.
      sstep. change (olift (Some buf') u) with (Done buf' u). unfold safe at 1. cbn [olift].
      sstep. eapply safe_mono; [apply echo_erase_spec; [by rewrite Hl|done]|]. intros ? u1 H1. cbv beta.
      eapply safe_mono; [apply IH; [apply H1|by rewrite (rd_lflag _ _ _ H1)| |lia|lia]|].
      { pose proof (rd_mu _ _ _ H1). simpl in *. lia. }
      intros res u' Hp'. apply (read_post_trans oflags n _ u [] u1); [done|].
      replace (take (Z.to_nat (recvd - 1)) buf') with (line_of u (removelast (take (Z.to_nat recvd) buf)) []) in Hp'; [done|].
      simpl. rewrite <- L3. replace (Z.to_nat recvd) with (S (Z.to_nat (recvd - 1))) by lia.
      apply removelast_take. lia.
    + replace recvd with 0 by lia. eapply safe_mono; [apply IH; [done|done|done|done|lia]|]. done.
  - destruct (Hst c) as [buf' Eb]. destruct (take_store _ _ _ _ Eb) as (L1 & L2 & L3 & L4). rewrite Eb.
    sstep. unfold safe at 1. cbn [olift]. rewrite <- L4.
    sstep. eapply safe_mono; [apply echo_char_spec; [by rewrite Hl|done]|].
    intros [next echoed'] u1 H1. cbv beta iota. destruct (_ && _ && _).
    + sstep. split; [simpl; lia|]. exists []. split; [done|]. left. cbn [fst snd]. split; [lia|done].
    + eapply safe_mono; [apply IH; [apply H1|by rewrite (rd_lflag _ _ _ H1)| |lia|lia]|].
      { pose proof (rd_mu _ _ _ H1). simpl in *. lia. }
      intros res u' Hp'. by apply (read_post_trans oflags n _ u [] u1).
Qed.

Lemma reads_set u u5 u6 :
  reads u [] u5 -> u_recv u6 = u_recv u5 ->
  (u_iflag u6, u_lflag u6, u_in u6, u_evs u6, u_recvsem u6, u_wire u6, u_xmit u6) =
  (u_iflag u5, u_lflag u5, u_in u5, u_evs u5, u_recvsem u5, u_wire u5, u_xmit u5) -> reads u [] u6.
Proof.
  intros H5 E1 E2. apply (reads_trans _ [] _ [] _ H5). apply reads_frame; [apply H5|done|].
  by apply (same_recv u5 (fun _ => u6)).
Qed.

(** The buffer was seen empty; the rest of the iteration is a critical section. *)
Lemma read_empty fuel n recvd echoed buf u :
  (forall u1, u_ok u1 -> u_lflag u1 = lflag -> (mu_r u1 < fuel)%nat ->
     safe B (readv_loop fuel oflags recvd echoed buf) (read_post oflags n (take (Z.to_nat recvd) buf) u1) u1) ->
  u_ok u -> u_lflag u = lflag -> zlen buf = n -> 0 <= recvd < n -> (mu_r u <= fuel)%nat ->
  (b_head (u_recv u) <> b_tail (u_recv u) -> (mu_r u < fuel)%nat) ->
  safe B
    (u ← get;
     if b_head (u_recv u) =? b_tail (u_recv u) then
       rxint true;; u ← get;
       if negb (b_head (u_recv u) =? b_tail (u_recv u)) then
         leave_critical_section;; readv_loop fuel oflags recvd echoed buf
       else if (0 <? recvd) && negb (has_flag (u_lflag u) ICANON) then
         leave_critical_section;; mret (recvd, echoed, buf)
       else if has_flag oflags O_NONBLOCK then
         leave_critical_section;; mret (- EAGAIN, echoed, buf)
       else
         unlock_recv;;
         ret ← sem_wait RECVSEM;
         lock_recv OK;;
         leave_critical_section;;
         if ret <? 0 then mret (if recvd =? 0 then ret else recvd, echoed, buf)
         else readv_loop fuel oflags recvd echoed buf
     else
       leave_critical_section;; rxint true;;
       readv_loop fuel oflags recvd echoed buf)
    (read_post oflags n (take (Z.to_nat recvd) buf) u) u.
Proof.
  intros IH Hok Hl Hbuf Hrec Hmu Hd. do 2 sstep.
  pose proof (reads_adv u u (adv_refl u) Hok) as H0.
  destruct (Z.eqb_spec (b_head (u_recv u)) (b_tail (u_recv u))) as [E|Hne].
  2:{ do 4 sstep. set (u1 := u_set_rxint true _).
      assert (reads u [] u1) as H1 by (by apply (reads_set u u)).
      eapply safe_mono; [apply IH; [apply H1|done|by apply Hd]|].
      intros res u'. by apply (read_post_trans oflags n _ u [] u1). }
  do 4 sstep. set (u1 := u_set_rxint true u). assert (reads u [] u1) as H1 by (by apply (reads_set u u)).
  change (u_recv u1) with (u_recv u). rewrite E, Z.eqb_refl. cbn [negb].
  destruct ((0 <? recvd) && negb (has_flag (u_lflag u1) ICANON)) eqn:Eic.
  { do 3 sstep. split; [done|]. exists []. split; [by apply (reads_set u u)|]. left. cbn [fst snd]. split; [lia|done]. }
  destruct (bool_cases (has_flag oflags O_NONBLOCK)) as [Hnb|Hnb]; rewrite Hnb.
  { do 3 sstep. split; [done|]. exists []. split; [by apply (reads_set u u)|]. right. left.
    split; [done|]. split; [done|]. intros Hic. change (u_lflag u1) with (u_lflag u) in Eic. rewrite Hic in Eic.
    zbool. destruct Eic; [|done]. by replace recvd with 0 by lia. }
  eapply safe_mono; [apply (read_wait fuel n recvd echoed buf u1)|]; try done.
  - intros u2 Hok2 Hl2 Hm2. apply IH; [done|done|]. change (mu_r u1) with (mu_r u) in Hm2. lia.
  - apply H1.
  - intros res u'. by apply (read_post_trans oflags n _ u [] u1).
Qed.

(** A character is there: it is taken, whatever arrives meanwhile. *)
Lemma read_take {A} (K : Z -> M A) Q u :
  u_ok u -> b_head (u_recv u) <> b_tail (u_recv u) ->
  (forall ch u', reads u [ch] u' -> safe B (K ch) Q u') ->
  safe B
    (ch ← olift (load (b_buffer (u_recv u)) (b_tail (u_recv u)));
     tick;;
     modify (fun u0 => u_set_recv
       (b_set_tail (if b_size (u_recv u) <=? b_tail (u_recv u) + 1 then 0 else b_tail (u_recv u) + 1)
          (u_recv u0)) u0);;
     K ch) Q u.
Proof.
  intros Hok Hne HK. destruct (ring_take _ (uo_recv _ Hok) Hne) as (ch & Hch & _ & Hq & _).
  rewrite Hch. sstep. unfold safe at 1. cbn [olift].
  sstep. apply safe_tick; [done|]. intros u1 Ha Hok1 _. do 2 sstep.
  pose proof (ad_rx _ _ Ha) as [Ht (new & Hn & _) _].
  replace (b_size (u_recv u)) with (b_size (u_recv u1))
    by (pose proof (ad_own _ _ Ha) as Ho; injection Ho; congruence).
  rewrite <- Ht. apply HK.
  apply (reads_trans _ [] u1 [ch]); [by apply reads_adv|].
  apply reads_byte; [done|]. by rewrite Hn, Hq.
Qed.

Lemma readv_loop_spec n fuel : forall u recvd echoed buf,
  u_ok u -> u_lflag u = lflag -> (mu_r u < fuel)%nat -> zlen buf = n -> 0 <= recvd <= n ->
  safe B (readv_loop fuel oflags recvd echoed buf) (read_post oflags n (take (Z.to_nat recvd) buf) u) u.
Proof.
  induction fuel as [|fuel IH]; intros u recvd echoed buf Hok Hl Hmu Hbuf Hrec; [lia|].
  cbn [readv_loop]. destruct (Z.leb_spec (zlen buf) recvd) as [Hge|Hlt].
  { sstep. split; [done|]. exists []. split; [apply reads_adv; [apply adv_refl|done]|]. by left. }
  sstep. apply safe_tick; [done|]. intros u1 Ha1 Hok1 _. do 2 sstep.
  sstep. apply safe_tick; [done|]. intros u2 Ha2 Hok2 _. do 2 sstep.
  pose proof (reads_adv _ _ (adv_trans _ _ _ Ha1 Ha2) Hok2) as H2.
  rewrite <- (ra_tail _ _ (ad_rx _ _ Ha2)).
  destruct (Z.eqb_spec (b_head (u_recv u2)) (b_tail (u_recv u2))) as [E|Hne]; cbn [negb]; sstep;
    (apply safe_tick; [done|]); intros u3 Ha3 Hok3 Hev;
    pose proof (reads_trans _ _ _ _ _ H2 (reads_adv _ _ Ha3 Hok3)) as H3;
    pose proof (rd_mu _ _ _ H3) as M3; simpl in M3.
  - do 4 sstep. set (u4 := u_set_rxint false _).
    assert (reads u [] u4) as H4 by (by apply (reads_set u u3)).
    eapply safe_mono; [apply (read_empty fuel n recvd echoed buf u4)|].
    + intros u5 Hok5 Hl5 Hm5. by apply IH.
    + apply H4.
    + by rewrite (rd_lflag _ _ _ H4).
    + done.
    + lia.
    + change (mu_r u4) with (mu_r u3). lia.
    + intros Hd. change (mu_r u4) with (mu_r u3). destruct Hev as [->|[_ ?]]; [done|].
      pose proof (rd_mu _ _ _ H2). simpl in *. lia.
    + intros res u'. by apply (read_post_trans oflags n _ u [] u4).
  - do 2 sstep. rewrite <- (ra_tail _ _ (ad_rx _ _ Ha3)).
    assert (b_head (u_recv u3) <> b_tail (u_recv u3)) as Hne3.
    { intros E. apply bq_nil in E; [|apply Hok3]. destruct (ra_new _ _ (ad_rx _ _ Ha3)) as (new & Hn & _).
      rewrite E in Hn. symmetry in Hn. apply app_eq_nil in Hn as [Hn _]. by apply bq_nil in Hn; [|apply Hok2]. }
    apply read_take; [done|done|]. intros ch u4 H4.
    pose proof (reads_trans _ _ _ _ _ H3 H4) as H5. simpl in H5.
    rewrite <- (rd_iflag _ _ _ H4), <- (rd_lflag _ _ _ H4).
    eapply safe_mono; [apply (read_char fuel n recvd echoed buf ch u4)|]; try done.
    + intros u5 recvd' echoed' buf' Hok5 Hl5 Hm5 Hb5 Hr5. apply IH; try done.
      pose proof (rd_mu _ _ _ H5). simpl in *. lia.
    + apply H4.
    + by rewrite (rd_lflag _ _ _ H5).
    + lia.
    + intros res u' Hp. apply (read_post_trans oflags n _ u [ch] u4); [done|].
      by rewrite (rd_iflag _ _ _ H5), (rd_lflag _ _ _ H5) in Hp.
Qed.
End reading.

(** C31: what a read returns, when it is the only reader.  Wherever the
    interrupts come, it has no undefined behaviour, takes the oldest bytes [c]
    of the receive buffer, while bytes [new] that arrive enter it behind the
    others, and returns [c] after input processing and erasing, up to the size
    of its buffer.  It returns -EINTR only with nothing read.  It returns
    -EAGAIN only when it may not wait: in raw mode with nothing read, in
    canonical mode possibly after it has taken bytes [c] of an unfinished line,
    which are then lost.  The lock is free and the receiver enabled again.
    Without echo nothing is sent.  It waits only where it may, or for the echo.
    *)
Theorem uart_read_in_order oflags lret buf u :
  u_ok u -> 0 <= lret ->
  match uart_readv oflags lret buf u with
  | Done (r, buf') u' =>
      u_ok u' /\ b_lock (u_recv u') = false /\ u_rxint u' = true /\ zlen buf' = zlen buf /\
      (has_flag (u_lflag u) ECHO = false -> txlog u' = txlog u) /\
      exists c new, bq (u_recv u) ++ new = c ++ bq (u_recv u') /\ u_in u' = u_in u ++ new /\
        ((0 <= r <= zlen buf /\ take (Z.to_nat r) buf' = line_of u [] c) \/
         (r = - EAGAIN /\ has_flag oflags O_NONBLOCK = true /\
          (has_flag (u_lflag u) ICANON = false -> line_of u [] c = [])) \/
         (r = - EINTR /\ line_of u [] c = []))
  | Block => has_flag oflags O_NONBLOCK = false \/ has_flag (u_lflag u) ECHO = true
  | Bad => False
  end.
Proof.
  intros Hok Hl. set (B := has_flag oflags O_NONBLOCK = false \/ has_flag (u_lflag u) ECHO = true).
  assert (safe B (uart_readv oflags lret buf) (fun '(r, buf') u' =>
    b_lock (u_recv u') = false /\ u_rxint u' = true /\
    read_post oflags (zlen buf) [] u (r, false, buf') u') u) as Hs.
  { unfold uart_readv, lock_recv. replace (lret <? 0) with false by lia. do 4 sstep.
    change (OK <? 0) with false. cbv iota. set (u1 := u_set_recv _ u).
    assert (reads u [] u1) as H1 by (apply reads_frame; [done|done|by exists true]).
    sstep. eapply (safe_mono B (readv_loop (read_fuel u1) oflags 0 false buf)).
    { apply (readv_loop_spec B oflags (u_lflag u) ltac:(by left) ltac:(by right) (zlen buf)); try done; [apply H1| |lia].
      unfold read_fuel, mu_r, mu_evs. pose proof (length_bq _ (uo_recv _ (rd_ok _ _ _ H1))). lia. }
    intros [[r echoed] buf'] u2 Hp. cbv beta iota.
    apply (read_post_trans oflags _ [] u [] u1 _ _ H1) in Hp.
    sstep. unfold unlock_recv.
    assert (exists u3, (if echoed then txint true else mret ()) u2 = Done () u3 /\ u_recv u3 = u_recv u2 /\
      (u_iflag u3, u_lflag u3, u_in u3, u_evs u3, u_recvsem u3, u_wire u3, u_xmit u3) =
      (u_iflag u2, u_lflag u2, u_in u2, u_evs u2, u_recvsem u2, u_wire u2, u_xmit u2)) as (u3 & E3 & R3 & F3).
    { destruct echoed; by eexists. }
    unfold safe at 1. rewrite E3. do 5 sstep. split; [done|]. split; [done|].
    apply (read_post_end _ _ _ _ (r, echoed, buf') _ u2); [done|]. intros Hok2.
    apply reads_frame; [done|done|]. exists false. by rewrite <- R3. }
  unfold safe in Hs. destruct (uart_readv oflags lret buf u) as [[r buf'] u'| |]; [|done|done].
  destruct Hs as (H1 & H2 & H3 & c & Hr & Hc). pose proof Hr as [A1 _ _ (new & A2 & A3) _ _ A4].
  split; [done|]. split; [done|]. split; [done|]. split; [done|]. split; [done|]. by exists c, new.
Qed.

(** ** Examples *)

(** An open device with buffers of [n] bytes. *)
Definition demo_uart (n : nat) (oflag lflag : Z) (evs : list uart_ev) : uart :=
  let b := mk_ubuf false 0 0 (Z.of_nat n) (replicate n 0) in
  mk_uart 1 0 false false 0 oflag lflag 0 0 false b b (replicate 4 None) true false true 0 [] [] [] evs.

Lemma demo_uart_ok n oflag lflag evs :
  0 < Z.of_nat n < 2 ^ 15 -> Forall not_echo evs -> u_ok (demo_uart n oflag lflag evs).
Proof.
  intros Hn He. assert (ring_ok (u_xmit (demo_uart n oflag lflag evs))) as Hb.
  { constructor; simpl; rewrite ?length_replicate; lia. }
  by constructor.
Qed.

(** Three characters, one of which becomes two bytes, through a ring for three. *)
Definition demo_events : list uart_ev :=
  EvNone :: EvRx [9] :: repeat (EvTx 1) 70.
Definition demo_writer : uart := demo_uart 4 (Z.lor OPOST ONLCR) 0 demo_events.

Lemma demo_writer_ok : u_ok demo_writer.
Proof.
  apply demo_uart_ok; [lia|]. unfold demo_events. do 2 (constructor; [done|]). apply Forall_forall.
  intros e He. apply list_elem_of_In, repeat_spec in He. by subst.
Qed.

Lemma uart_write_in_order_witness :
  u_ok demo_writer /\
  match uart_writev false 0 0 [[65; 10]; [66]] demo_writer with
  | Done r u' =>
      u_ok u' /\ rx_adv demo_writer u' /\
      if 0 <? 0 then r = 0 /\ u' = demo_writer
      else
        b_lock (u_xmit u') = false /\ (bq (u_xmit u') <> [] -> u_txint u' = true) /\
        exists k, wrote (u_oflag demo_writer) (concat [[65; 10]; [66]]) k (txlog demo_writer) (txlog u') /\
          (k <= length (concat [[65; 10]; [66]]))%nat /\
          (r = Z.of_nat k \/
           k = O /\ concat [[65; 10]; [66]] <> [] /\ r = if has_flag 0 O_NONBLOCK then - EAGAIN else - EINTR)
  | Block => 0 <= 0 /\ has_flag 0 O_NONBLOCK = false
  | Bad => False
  end.
Proof.
  split; [exact demo_writer_ok|]. apply (uart_write_in_order 0 0 [[65; 10]; [66]] demo_writer).
  exact demo_writer_ok.
Defined.

Lemma uart_write_completes_witness :
  (22 * length (concat [[65; 10]; [66]]) + 1 <= txs demo_writer)%nat /\
  exists u', uart_writev false 0 0 [[65; 10]; [66]] demo_writer = Done (zlen (concat [[65; 10]; [66]])) u'.
Proof.
  split; [vm_compute; lia|].
  apply (uart_write_completes 0 0 [[65; 10]; [66]] demo_writer);
    [exact demo_writer_ok|reflexivity|vm_compute; reflexivity|vm_compute; discriminate| |lia|reflexivity|vm_compute; lia].
  apply Forall_cons. split; [discriminate|]. apply Forall_cons. split; [discriminate|].
  apply Forall_forall. intros e He. apply list_elem_of_In, repeat_spec in He. subst. discriminate.
Defined.

Lemma demo_write_run :
  match uart_writev false 0 0 [[65; 10]; [66]] demo_writer with
  | Done r u' => r = 3 /\ txlog u' = [65; 13; 10; 66]
  | _ => False
  end.
Proof. vm_compute. done. Qed.

(** A line with an erased character that arrives in two pieces. *)
Definition demo_reader : uart :=
  demo_uart 8 0 ICANON [EvNone; EvRx [65; 66; 8]; EvNone; EvNone; EvNone; EvNone; EvRx [67; 10; 68]].

Lemma demo_reader_ok : u_ok demo_reader.
Proof. apply demo_uart_ok; [lia|]. by repeat constructor. Qed.

Lemma uart_read_in_order_witness :
  u_ok demo_reader /\
  match uart_readv 0 0 (replicate 5 0) demo_reader with
  | Done (r, buf') u' =>
      u_ok u' /\ b_lock (u_recv u') = false /\ u_rxint u' = true /\ zlen buf' = zlen (replicate 5 0) /\
      (has_flag (u_lflag demo_reader) ECHO = false -> txlog u' = txlog demo_reader) /\
      exists c new, bq (u_recv demo_reader) ++ new = c ++ bq (u_recv u') /\ u_in u' = u_in demo_reader ++ new /\
        ((0 <= r <= zlen (replicate 5 0) /\ take (Z.to_nat r) buf' = line_of demo_reader [] c) \/
         (r = - EAGAIN /\ has_flag 0 O_NONBLOCK = true /\
          (has_flag (u_lflag demo_reader) ICANON = false -> line_of demo_reader [] c = [])) \/
         (r = - EINTR /\ line_of demo_reader [] c = []))
  | Block => has_flag 0 O_NONBLOCK = false \/ has_flag (u_lflag demo_reader) ECHO = true
  | Bad => False
  end.
Proof.
  split; [exact demo_reader_ok|].
  apply (uart_read_in_order 0 0 (replicate 5 0) demo_reader); [exact demo_reader_ok|lia].
Defined.

Lemma demo_read_run :
  match uart_readv 0 0 (replicate 5 0) demo_reader with
  | Done (r, buf) u' => r = 3 /\ take 3 buf = [65; 67; 10] /\ bq (u_recv u') = [68]
  | _ => False
  end.
Proof. vm_compute. done. Qed.

(** ** Defects *)

(** The echo of [uart_readv] puts characters into the transmit buffer without the
    lock that writers hold.  When it comes between the test and the store of a
    write, the byte of the write is lost and the write says it was written. *)
Theorem echo_loses_write :
  match uart_writev false 0 0 [[65]] (demo_uart 8 0 0 [EvNone; EvNone; EvNone; EvEcho 66]) with
  | Done r u' => r = 1 /\ txlog u' = [66]
  | _ => False
  end.
Proof. vm_compute. done. Qed.

(** A signal that ends [uart_tcdrain] leaves data in the transmit buffer with
    the interrupt disabled: no interrupt sends it any more. *)
Theorem tcdrain_signal_stalls :
  match (uart_writev false 0 0 [[65; 66]];; uart_tcdrain 0 true)
          (demo_uart 8 0 0 (repeat EvNone 10 ++ [EvSig])) with
  | Done r u' => r = - EINTR /\ bq (u_xmit u') = [65; 66] /\ forall n, handle (EvTx n) u' = Some u'
  | _ => False
  end.
Proof. vm_compute. done. Qed.

(** A nonblocking read in canonical mode that finds the start of a line takes it
    and returns -EAGAIN: the bytes are gone. *)
Theorem canonical_nonblock_loses_line :
  match uart_readv O_NONBLOCK 0 (replicate 5 0) (demo_uart 8 0 ICANON [EvRx [65; 66]]) with
  | Done (r, _) u' => r = - EAGAIN /\ u_in u' = [65; 66] /\ bq (u_recv u') = []
  | _ => False
  end.
Proof. vm_compute. done. Qed.

(** [uart_tcsendbreak] unlocks the transmit buffer also when it did not get the
    lock: that of another task is released. *)
Theorem tcsendbreak_unlocks_other lret sbrk cbrk u :
  lret < 0 -> exists u', uart_tcsendbreak lret sbrk cbrk u = Done lret u' /\ b_lock (u_xmit u') = false.
Proof.
  intros Hl. unfold uart_tcsendbreak, lock_xmit, mbind, M_bind, mret, M_ret.
  replace (lret <? 0) with true by lia. replace (0 <=? lret) with false by lia. by eexists.
Qed.

(** A poll that is torn down without having been set up leaves interrupts
    disabled. *)
Theorem poll_teardown_keeps_critical f lx lr u :
  exists u', uart_poll f false None lx lr u = Done (OK, None, f) u' /\ u_crit u' = u_crit u + 1.
Proof. by eexists. Qed.
