(* ===== verification/Printf.v ===== *)
(** Formatted output: [vsprintf_internal] of libs/libc/stream/lib_libvsprintf.c
    and [__ultoa_invert] of lib_ultoa_invert.c.

    The configuration is that of the board, without floating point, numbered
    arguments and extensions of [%p].  A format is the list of its characters
    with the terminating zero.  [PBad] is undefined behaviour, [PLoop] a loop
    that does not end.  [int] and [long] have 32 bits, [long long] 64. *)

From S2P Require Import Prelude.
From stdpp Require Import list.
Local Open Scope Z_scope.

Definition FL_ZFILL : Z := 0x0001.
Definition FL_PLUS : Z := 0x0002.
Definition FL_SPACE : Z := 0x0004.
Definition FL_LPAD : Z := 0x0008.
Definition FL_ALT : Z := 0x0010.
Definition FL_ASTERISK : Z := 0x0040.
Definition FL_WIDTH : Z := 0x0080.
Definition FL_PREC : Z := 0x0100.
Definition FL_LONG : Z := 0x0200.
Definition FL_SHORT : Z := 0x0400.
Definition FL_REPD_TYPE : Z := 0x0800.
Definition FL_NEGATIVE : Z := 0x1000.
Definition FL_ALTUPP : Z := 0x2000.
Definition FL_ALTHEX : Z := 0x4000.

(** The arguments: 32-bit words, 64-bit words, pointers to strings, doubles. *)
Inductive parg := AWord (z : Z) | ALong (z : Z) | AStr (s : option (list Z)) | ADbl.

Inductive pres (A : Type) := POk (a : A) | PBad | PLoop.
Arguments POk {A}. Arguments PBad {A}. Arguments PLoop {A}.
#[export] Instance pres_bind : MBind pres := fun A B k m =>
  match m with POk a => k a | PBad => PBad | PLoop => PLoop end.
Definition popt {A} (o : option A) : pres A := match o with Some a => POk a | None => PBad end.

(** ** Digits *)

Definition digit_char (upper : bool) (v : Z) : Z :=
  if v <=? 9 then v + 48 else if upper then v + (65 - 10) else v + (97 - 10).

(** [__ultoa_invert]: the digits from the last one on; at most one round per bit. *)
Fixpoint ultoa_loop (fuel : nat) (val base : Z) (upper : bool) : list Z :=
  match fuel with
  | O => []
  | S fuel =>
      let ch := digit_char upper (val mod base) in
      let val := val / base in
      if val =? 0 then [ch] else ch :: ultoa_loop fuel val base upper
  end.

(** Into the buffer of 22 characters. *)
Definition ultoa_invert (val base : Z) (upper : bool) : pres (list Z) :=
  let l := ultoa_loop 64 val base upper in if 22 <? zlen l then PBad else POk l.

(** ** Conversion specifications *)

(** One round of the loop that reads a specification: it goes on with the next
    character, stops, or returns from the function. *)
Inductive pstep :=
| PNext (flags width prec : Z) (args : list parg)
| PStop (c flags : Z)
| PRet
| PUndef.

Definition int_ok (z : Z) : bool := (- 2 ^ 31 <=? z) && (z <? 2 ^ 31).

Definition parse_char (c flags width prec : Z) (args : list parg) : pstep :=
  let next f := PNext f width prec args in
  if (flags <? FL_ASTERISK) && (c =? 48) then next (Z.lor flags FL_ZFILL)
  else if (flags <? FL_ASTERISK) && (c =? 43) then next (Z.lor (Z.lor flags FL_PLUS) FL_SPACE)
  else if (flags <? FL_ASTERISK) && (c =? 32) then next (Z.lor flags FL_SPACE)
  else if (flags <? FL_ASTERISK) && (c =? 45) then next (Z.lor flags FL_LPAD)
  else if (flags <? FL_ASTERISK) && (c =? 35) then next (Z.lor flags FL_ALT)
  else if (flags <? FL_LONG) && ((48 <=? c) && (c <=? 57)) then
    let c := c - 48 in
    if has_flag flags FL_PREC
    then if int_ok (10 * prec + c) then PNext flags width (10 * prec + c) args else PUndef
    else if int_ok (10 * width + c) then PNext (Z.lor flags FL_WIDTH) (10 * width + c) prec args else PUndef
  else if (flags <? FL_LONG) && (c =? 42) then
    match args with
    | AWord z :: args =>
        let z := s32 z in
        if has_flag flags FL_PREC then PNext flags width (if z <? 0 then 0 else z) args
        else if z =? - 2 ^ 31 then PUndef
        else if z <? 0 then PNext (Z.lor (Z.lor flags FL_WIDTH) FL_LPAD) (- z) prec args
        else PNext (Z.lor flags FL_WIDTH) z prec args
    | _ => PUndef
    end
  else if (flags <? FL_LONG) && (c =? 46) then
    if has_flag flags FL_PREC then PRet else next (Z.lor flags FL_PREC)
  else
    let c := if (c =? 122) || (c =? 116) then 108 else c in
    if c =? 106 then next (Z.ldiff (Z.lor (Z.lor flags FL_REPD_TYPE) FL_LONG) FL_SHORT)
    else if (c =? 108) || (c =? 76) then
      next (Z.ldiff (Z.lor flags (if has_flag flags FL_LONG then FL_REPD_TYPE else FL_LONG)) FL_SHORT)
    else if c =? 104 then
      next (Z.ldiff (Z.lor flags (if has_flag flags FL_SHORT then FL_REPD_TYPE else FL_SHORT)) FL_LONG)
    else PStop c flags.

(** The loop, from character [c] on with [fmt] behind it.  [None] as a result is
    the return from the function. *)
Fixpoint parse_spec (c : Z) (fmt : list Z) (flags width prec : Z) (args : list parg) :
    pres (option (Z * list Z * Z * Z * Z * list parg)) :=
  match parse_char c flags width prec args with
  | PUndef => PBad
  | PRet => POk None
  | PStop c flags => POk (Some (c, fmt, flags, width, prec, args))
  | PNext flags width prec args =>
      match fmt with
      | [] => PBad
      | c :: fmt =>
          if c =? 0 then POk (Some (0, fmt, flags, width, prec, args))
          else parse_spec c fmt flags width prec args
      end
  end.

(** ** Output of a conversion *)

Definition spaces (n : Z) : list Z := replicate (Z.to_nat n) 32.
Definition zeros (n : Z) : list Z := replicate (Z.to_nat n) 48.

(** [str_lpad] and [tail]: [size] characters of a string in [width]. *)
Definition emit_str (flags width : Z) (s : list Z) : list Z :=
  let size := zlen s in
  if has_flag flags FL_LPAD then s ++ spaces (if size <=? width then width - size else 0)
  else
    let pad := if size <? width then width - size else 0 in
    let width := width - pad in
    spaces pad ++ s ++ spaces (if size <=? width then width - size else 0).

(** [while (len < width)] with the [unsigned char] [len]: how many rounds, and
    [len] after them.  The 256 values of [len] bound the rounds. *)
Fixpoint pad_loop (fuel : nat) (len width : Z) : pres (Z * Z) :=
  if len <? width then
    match fuel with
    | O => PLoop
    | S fuel => '(n, len) ← pad_loop fuel (u8 (len + 1)) width; POk (n + 1, len)
    end
  else POk (0, len).

(** From [len = c] to [tail] for the digits [buf], which are reversed. *)
Definition emit_int (flags width prec : Z) (buf : list Z) : pres (list Z) :=
  let c := zlen buf in
  let len := u8 c in
  let '(flags, len) :=
    if has_flag flags FL_PREC then
      let flags := Z.ldiff flags FL_ZFILL in
      if len <? prec then
        (if has_flag flags FL_ALT && negb (has_flag flags FL_ALTHEX) then Z.ldiff flags FL_ALT else flags,
         u8 prec)
      else (flags, len)
    else (flags, len) in
  '(flags, len) ←
    (if has_flag flags FL_ALT then
       top ← popt (load buf (c - 1));
       if top =? 48 then POk (Z.ldiff flags (Z.lor FL_ALT (Z.lor FL_ALTHEX FL_ALTUPP)), len)
       else POk (flags, if has_flag flags FL_ALTHEX then u8 (u8 (len + 1) + 1) else u8 (len + 1))
     else if has_flag flags (Z.lor FL_NEGATIVE (Z.lor FL_PLUS FL_SPACE)) then POk (flags, u8 (len + 1))
     else POk (flags, len));
  let '(prec, len) :=
    if negb (has_flag flags FL_LPAD) && has_flag flags FL_ZFILL then
      if len <? width then (c + (width - len), u8 width) else (c, len)
    else (prec, len) in
  '(pad, len) ← (if has_flag flags FL_LPAD then POk (0, len) else pad_loop 256 len width);
  let width := if len <? width then width - len else 0 in
  let prefix :=
    if has_flag flags FL_ALT then
      48 :: (if has_flag flags FL_ALTHEX then [if has_flag flags FL_ALTUPP then 88 else 120] else [])
    else if has_flag flags (Z.lor FL_NEGATIVE (Z.lor FL_PLUS FL_SPACE)) then
      [if has_flag flags FL_NEGATIVE then 45 else if has_flag flags FL_PLUS then 43 else 32]
    else [] in
  POk (spaces pad ++ prefix ++ zeros (prec - c) ++ rev buf ++ spaces width).

(** The argument of a signed and of an unsigned conversion. *)
Definition s64 (z : Z) : Z := (z + 2 ^ 63) mod 2 ^ 64 - 2 ^ 63.
Definition signed_arg (flags : Z) (args : list parg) : pres (Z * list parg) :=
  match args with
  | ALong z :: args =>
      if has_flag flags FL_LONG && has_flag flags FL_REPD_TYPE then POk (s64 z, args) else PBad
  | AWord z :: args =>
      if has_flag flags FL_LONG && has_flag flags FL_REPD_TYPE then PBad
      else if has_flag flags FL_LONG then POk (s32 z, args)
      else if has_flag flags FL_SHORT then
        if has_flag flags FL_REPD_TYPE then POk ((s32 z + 2 ^ 7) mod 2 ^ 8 - 2 ^ 7, args)
        else POk ((s32 z + 2 ^ 15) mod 2 ^ 16 - 2 ^ 15, args)
      else POk (s32 z, args)
  | _ => PBad
  end.
Definition unsigned_arg (flags : Z) (args : list parg) : pres (Z * list parg) :=
  match args with
  | ALong z :: args =>
      if has_flag flags FL_LONG && has_flag flags FL_REPD_TYPE then POk (z mod 2 ^ 64, args) else PBad
  | AWord z :: args =>
      if has_flag flags FL_LONG && has_flag flags FL_REPD_TYPE then PBad
      else if has_flag flags FL_LONG then POk (u32 z, args)
      else if has_flag flags FL_SHORT then
        if has_flag flags FL_REPD_TYPE then POk (u8 z, args) else POk (u16 z, args)
      else POk (u32 z, args)
  | _ => PBad
  end.

(** The digits, none for a zero with precision zero. *)
Definition int_digits (flags prec x base : Z) (upper : bool) : pres (list Z) :=
  if has_flag flags FL_PREC && (prec =? 0) && (x =? 0) then POk [] else ultoa_invert x base upper.

Definition conv_signed (flags width prec : Z) (args : list parg) : pres (list Z * list parg) :=
  '(x, args) ← signed_arg flags args;
  let flags := Z.ldiff flags (Z.lor FL_NEGATIVE FL_ALT) in
  let flags := if x <? 0 then Z.lor flags FL_NEGATIVE else flags in
  buf ← int_digits flags prec (Z.abs x) 10 false;
  o ← emit_int flags width prec buf;
  POk (o, args).

Definition conv_unsigned (c flags width prec : Z) (args : list parg) : pres (list Z * list parg) :=
  '(x, args) ← unsigned_arg flags args;
  let flags := Z.ldiff flags (Z.lor FL_PLUS FL_SPACE) in
  let finish flags base upper :=
    buf ← int_digits flags prec x base upper;
    o ← emit_int (Z.ldiff flags FL_NEGATIVE) width prec buf;
    POk (o, args) in
  let hex flags := finish (if has_flag flags FL_ALT then Z.lor flags FL_ALTHEX else flags) 16 false in
  if c =? 117 then finish (Z.ldiff flags FL_ALT) 10 false
  else if c =? 111 then finish flags 8 false
  else if c =? 112 then hex (Z.lor flags FL_ALT)
  else if c =? 120 then hex flags
  else if c =? 88 then
    finish (if has_flag flags FL_ALT then Z.lor flags (Z.lor FL_ALTHEX FL_ALTUPP) else flags) 16 true
  else POk ([37; c], args).

Definition conv (c flags width prec : Z) (args : list parg) : pres (list Z * list parg) :=
  let flags := if c =? 112 then Z.lor (Z.ldiff flags (Z.lor FL_LONG FL_REPD_TYPE)) FL_LONG else flags in
  if ((69 <=? c) && (c <=? 71)) || ((101 <=? c) && (c <=? 103)) then
    match args with
    | ADbl :: args => POk (emit_str flags width (chars "*float*"), args)
    | _ => PBad
    end
  else if c =? 99 then
    match args with AWord z :: args => POk (emit_str flags width [u8 z], args) | _ => PBad end
  else if (c =? 115) || (c =? 83) then
    match args with
    | AStr s :: args =>
        let s := default (chars "(null)") s in
        POk (emit_str flags width (if has_flag flags FL_PREC then take (Z.to_nat prec) s else s), args)
    | _ => PBad
    end
  else if (c =? 100) || (c =? 105) then conv_signed flags width prec args
  else conv_unsigned c flags width prec args.

(** [vsprintf_internal]: what is written; its length is the result.  Every round
    takes a character of the format. *)
Fixpoint vsprintf_loop (fuel : nat) (fmt : list Z) (args : list parg) : pres (list Z) :=
  match fuel, fmt with
  | O, _ | _, [] => PBad
  | S fuel, c :: fmt =>
      if c =? 0 then POk []
      else if c =? 37 then
        match fmt with
        | [] => PBad
        | c :: fmt =>
            if c =? 37 then o ← vsprintf_loop fuel fmt args; POk (c :: o)
            else
              r ← parse_spec c fmt 0 0 0 args;
              match r with
              | None => POk []
              | Some (c, fmt, flags, width, prec, args) =>
                  '(o1, args) ← conv c flags width prec args;
                  o2 ← vsprintf_loop fuel fmt args;
                  POk (o1 ++ o2)
              end
        end
      else o ← vsprintf_loop fuel fmt args; POk (c :: o)
  end.
Definition vsprintf_internal (fmt : list Z) (args : list parg) : pres (list Z) :=
  vsprintf_loop (length fmt) fmt args.

Example printf_examples :
  vsprintf_internal (chars "%02X|%-5d|%+d|%#x|%5.3u|%s|%c%%" ++ [0])
    [AWord 10; AWord 42; AWord 7; AWord 255; AWord 5; AStr (Some (chars "ab")); AWord 33] =
  POk (chars "0A|42   |+7|0xff|  005|ab|!%").
Proof. vm_compute. reflexivity. Qed.
