(* ===== verification/PrintfSpec.v ===== *)
(** Formatted output against the C standard.

    [ispec] is an integer conversion specification and [int_text] the text that
    the standard (C11 7.21.6.1) asks for; [vsprintf_internal] on a format that is
    written out from such specifications and ordinary characters gives these
    texts. *)

From S2P Require Import Prelude.
From stdpp Require Import list.
From S2P Require Import Printf.
Local Open Scope Z_scope.

(** ** Specification *)

Inductive lenmod := LNone | LHH | LH | LL | LLL | LJ | LZ | LT.
Inductive iconv := Cd | Ci | Cu | Co | Cx | CX.

Record ispec := mk_ispec {
  i_left : bool; i_plus : bool; i_space : bool; i_alt : bool; i_zero : bool;
  i_width : option Z; i_prec : option Z; i_len : lenmod; i_conv : iconv
}.

Definition i_signed (s : ispec) : bool := match i_conv s with Cd | Ci => true | _ => false end.
Definition i_base (s : ispec) : Z := match i_conv s with Co => 8 | Cx | CX => 16 | _ => 10 end.
Definition i_upper (s : ispec) : bool := match i_conv s with CX => true | _ => false end.

(** The value of digits, the most significant first, and the numeral of a
    number: the digits without leading zeros. *)
Definition num_value (base : Z) (vs : list Z) : Z := foldl (fun a v => a * base + v) 0 vs.
Definition numeral (base : Z) (upper : bool) (x : Z) (ds : list Z) : Prop :=
  exists vs, ds = map (digit_char upper) vs /\ Forall (fun v => 0 <= v < base) vs /\
    num_value base vs = x /\ vs <> [] /\ (forall v vs', vs = v :: vs' -> vs' <> [] -> v <> 0).

(** The argument as its type says. *)
Definition arg_value (s : ispec) (z : Z) : Z :=
  let bits := match i_len s with LHH => 8 | LH => 16 | LLL | LJ => 64 | _ => 32 end in
  if i_signed s then (z + 2 ^ (bits - 1)) mod 2 ^ bits - 2 ^ (bits - 1) else z mod 2 ^ bits.

(** The text of a conversion with the digits [ds] of the value [x]. *)
Definition int_layout (s : ispec) (x : Z) (ds : list Z) : list Z :=
  let sign := if i_signed s then if x <? 0 then [45] else if i_plus s then [43]
                                 else if i_space s then [32] else [] else [] in
  let body := zeros (default 0 (i_prec s) - zlen ds) ++ ds in
  let prefix :=
    if i_alt s then
      match i_conv s with
      | Co => match body with 48 :: _ => [] | _ => [48] end
      | Cx => if x =? 0 then [] else [48; 120]
      | CX => if x =? 0 then [] else [48; 88]
      | _ => []
      end
    else [] in
  let fill := default 0 (i_width s) - zlen (sign ++ prefix ++ body) in
  if i_left s then sign ++ prefix ++ body ++ spaces fill
  else if i_zero s && bool_decide (i_prec s = None) then sign ++ prefix ++ zeros fill ++ body
  else spaces fill ++ sign ++ prefix ++ body.

Definition int_text (s : ispec) (z : Z) (t : list Z) : Prop :=
  let x := arg_value s z in
  exists ds, t = int_layout s x ds /\
    if bool_decide (i_prec s = Some 0) && (x =? 0) then ds = [] else numeral (i_base s) (i_upper s) (Z.abs x) ds.

(** The format that is written for a specification. *)
Definition dec (n : Z) : list Z :=
  if n <? 10 then [48 + n] else if n <? 100 then [48 + n / 10; 48 + n mod 10]
  else [48 + n / 100; 48 + n / 10 mod 10; 48 + n mod 10].

Definition flag_chars (s : ispec) : list Z :=
  (if i_left s then [45] else []) ++ (if i_plus s then [43] else []) ++ (if i_space s then [32] else []) ++
  (if i_alt s then [35] else []) ++ (if i_zero s then [48] else []).
Definition len_chars (s : ispec) : list Z :=
  match i_len s with
  | LNone => [] | LHH => [104; 104] | LH => [104] | LL => [108] | LLL => [108; 108]
  | LJ => [106] | LZ => [122] | LT => [116]
  end.
Definition conv_char (s : ispec) : Z :=
  match i_conv s with Cd => 100 | Ci => 105 | Cu => 117 | Co => 111 | Cx => 120 | CX => 88 end.
Definition spec_chars (s : ispec) : list Z :=
  flag_chars s ++ (match i_width s with Some w => dec w | None => [] end) ++
  (match i_prec s with Some p => 46 :: dec p | None => [] end) ++ len_chars s ++ [conv_char s].

(** What the code handles: [len] is an [unsigned char], and [%#.0x] of zero reads
    in front of the digits. *)
Definition ispec_ok (s : ispec) (z : Z) : Prop :=
  (forall w, i_width s = Some w -> 0 < w < 256) /\ (forall p, i_prec s = Some p -> 0 <= p < 254) /\
  (i_alt s = true -> i_signed s = false -> i_conv s <> Cu -> i_prec s = Some 0 -> arg_value s z <> 0).

(** ** Bits *)

Lemma has_flag_pow f k : 0 <= k -> has_flag f (2 ^ k) = Z.testbit f k.
Proof.
  intros Hk. unfold has_flag. assert (Z.land f (2 ^ k) = if Z.testbit f k then 2 ^ k else 0) as ->.
  { apply Z.bits_inj'. intros n Hn. rewrite Z.land_spec, Z.pow2_bits_eqb by done.
    destruct (Z.eqb_spec k n) as [->|Hne].
    - destruct (Z.testbit f n) eqn:E; [by rewrite Z.pow2_bits_true|by rewrite Z.bits_0].
    - rewrite andb_false_r. destruct (Z.testbit f k); [by rewrite Z.pow2_bits_false|by rewrite Z.bits_0]. }
  destruct (Z.testbit f k); [|done]. pose proof (Z.pow_pos_nonneg 2 k). apply negb_true_iff, Z.eqb_neq. lia.
Qed.

Lemma has_flag_lor f a b : has_flag f (Z.lor a b) = has_flag f a || has_flag f b.
Proof.
  unfold has_flag. rewrite Z.land_lor_distr_r.
  destruct (Z.eqb_spec (Z.lor (Z.land f a) (Z.land f b)) 0) as [E|E].
  - apply Z.lor_eq_0_iff in E as [-> ->]. done.
  - destruct (Z.eqb_spec (Z.land f a) 0) as [E1|]; [|done].
    destruct (Z.eqb_spec (Z.land f b) 0) as [E2|]; [|done]. by rewrite E1, E2 in E.
Qed.

Lemma hf_zfill f : has_flag f FL_ZFILL = Z.testbit f 0. Proof. exact (has_flag_pow f 0 ltac:(done)). Qed.
Lemma hf_plus f : has_flag f FL_PLUS = Z.testbit f 1. Proof. exact (has_flag_pow f 1 ltac:(done)). Qed.
Lemma hf_space f : has_flag f FL_SPACE = Z.testbit f 2. Proof. exact (has_flag_pow f 2 ltac:(done)). Qed.
Lemma hf_lpad f : has_flag f FL_LPAD = Z.testbit f 3. Proof. exact (has_flag_pow f 3 ltac:(done)). Qed.
Lemma hf_alt f : has_flag f FL_ALT = Z.testbit f 4. Proof. exact (has_flag_pow f 4 ltac:(done)). Qed.
Lemma hf_prec f : has_flag f FL_PREC = Z.testbit f 8. Proof. exact (has_flag_pow f 8 ltac:(done)). Qed.
Lemma hf_long f : has_flag f FL_LONG = Z.testbit f 9. Proof. exact (has_flag_pow f 9 ltac:(done)). Qed.
Lemma hf_short f : has_flag f FL_SHORT = Z.testbit f 10. Proof. exact (has_flag_pow f 10 ltac:(done)). Qed.
Lemma hf_repd f : has_flag f FL_REPD_TYPE = Z.testbit f 11. Proof. exact (has_flag_pow f 11 ltac:(done)). Qed.
Lemma hf_neg f : has_flag f FL_NEGATIVE = Z.testbit f 12. Proof. exact (has_flag_pow f 12 ltac:(done)). Qed.
Lemma hf_altupp f : has_flag f FL_ALTUPP = Z.testbit f 13. Proof. exact (has_flag_pow f 13 ltac:(done)). Qed.
Lemma hf_althex f : has_flag f FL_ALTHEX = Z.testbit f 14. Proof. exact (has_flag_pow f 14 ltac:(done)). Qed.

Create HintDb bits.
Create Rewrite HintDb bits.
#[export] Hint Rewrite has_flag_lor hf_zfill hf_plus hf_space hf_lpad hf_alt hf_prec hf_long hf_short hf_repd
  hf_neg hf_altupp hf_althex Z.lor_spec Z.ldiff_spec : bits.

(** Tests of flags become tests of the bits of the variables. *)
Ltac bits :=
  autorewrite with bits;
  repeat match goal with
  | |- context [Z.testbit ?m ?k] =>
      let b := eval vm_compute in (Z.testbit m k) in
      match b with true => change (Z.testbit m k) with true | false => change (Z.testbit m k) with false end
  end;
  cbn [negb]; rewrite ?andb_true_r, ?andb_false_r, ?orb_false_r, ?orb_true_r.

(** ** The text of an integer *)

Lemma pad_loop_spec fuel : forall len width,
  0 <= len < 256 -> 0 <= width < 256 -> width - len <= Z.of_nat fuel ->
  pad_loop fuel len width = POk (Z.max 0 (width - len), Z.max len width).
Proof.
  induction fuel as [|fuel IH]; intros len width Hl Hw Hf; cbn [pad_loop].
  - replace (len <? width) with false by lia. f_equal. f_equal; lia.
  - destruct (Z.ltb_spec len width); [|f_equal; f_equal; lia].
    rewrite u8_small by lia. rewrite IH by lia. cbn [mbind pres_bind]. f_equal. f_equal; lia.
Qed.

(** The result for a prefix [P], digits with [prec] as their least number, and
    the room that is left. *)
Definition emit_form (lpad zfill : bool) (P : list Z) (width prec : Z) (ds : list Z) : list Z :=
  let fill := width - zlen P - Z.max prec (zlen ds) in
  if lpad then P ++ zeros (prec - zlen ds) ++ ds ++ spaces fill
  else if zfill then P ++ zeros fill ++ ds
  else spaces fill ++ P ++ zeros (prec - zlen ds) ++ ds.

(** What follows after the prefix is known. *)
Lemma emit_tail (lpad zfill : bool) P width prec buf len :
  0 <= width < 256 -> 0 <= prec -> (zfill = true -> prec = 0) -> 0 <= len < 256 ->
  len = zlen P + Z.max prec (zlen buf) ->
  ('(prec, len) ← POk (if negb lpad && zfill
                       then if len <? width then (zlen buf + (width - len), u8 width) else (zlen buf, len)
                       else (prec, len));
   '(pad, len) ← (if lpad then POk (0, len) else pad_loop 256 len width);
   let width := if len <? width then width - len else 0 in
   POk (spaces pad ++ P ++ zeros (prec - zlen buf) ++ rev buf ++ spaces width)) =
  POk (emit_form lpad zfill P width prec (rev buf)).
Proof.
  intros Hw Hp Hz Hl El. unfold emit_form. rewrite length_rev.
  assert (forall n, n <= 0 -> spaces n = []) as Hsp.
  { intros n Hn. unfold spaces. by replace (Z.to_nat n) with O by lia. }
  assert (forall n, n <= 0 -> zeros n = []) as Hze.
  { intros n Hn. unfold zeros. by replace (Z.to_nat n) with O by lia. }
  destruct lpad; cbn [negb andb mbind pres_bind].
  - rewrite (Hsp 0) by done. cbn [app].
    assert (spaces (if len <? width then width - len else 0) = spaces (width - zlen P - Z.max prec (zlen buf)))
      as ->; [|done].
    destruct (Z.ltb_spec len width); [f_equal; lia|]. rewrite !Hsp by lia. done.
  - destruct zfill.
    + rewrite Hz in * by done. destruct (Z.ltb_spec len width).
      * cbn [mbind pres_bind]. rewrite u8_small by lia. rewrite pad_loop_spec by lia. cbn [mbind pres_bind].
        replace (Z.max width width <? width) with false by lia. rewrite !Hsp by lia.
        rewrite app_nil_r. cbn [app].
        by replace (zlen buf + (width - len) - zlen buf) with (width - zlen P - Z.max 0 (zlen buf)) by lia.
      * cbn [mbind pres_bind]. rewrite pad_loop_spec by lia. cbn [mbind pres_bind].
        replace (Z.max len width <? width) with false by lia. rewrite !Hsp by lia. rewrite !Hze by lia.
        by rewrite app_nil_r.
    + cbn [mbind pres_bind]. rewrite pad_loop_spec by lia. cbn [mbind pres_bind].
      replace (Z.max len width <? width) with false by lia. rewrite (Hsp 0) by done. rewrite app_nil_r.
      assert (spaces (Z.max 0 (width - len)) = spaces (width - zlen P - Z.max prec (zlen buf))) as ->; [|done].
      destruct (decide (len <= width)); [f_equal; lia|]. rewrite !Hsp by lia. done.
Qed.

Definition emit_prefix (f prec : Z) (buf : list Z) : list Z :=
  if Z.testbit f 4 then
    if (Z.testbit f 8 && (zlen buf <? prec) && negb (Z.testbit f 14)) ||
       bool_decide (load buf (zlen buf - 1) = Some 48) then []
    else 48 :: (if Z.testbit f 14 then [if Z.testbit f 13 then 88 else 120] else [])
  else if Z.testbit f 12 || (Z.testbit f 1 || Z.testbit f 2) then
    [if Z.testbit f 12 then 45 else if Z.testbit f 1 then 43 else 32]
  else [].

(** After the precision was looked at, with the flags [f] and the length [len]. *)
Lemma emit_rest f width prec buf len :
  0 <= width < 256 -> 0 <= prec -> (Z.testbit f 0 = true -> prec = 0) ->
  (Z.testbit f 4 = true -> Z.testbit f 12 = false /\ Z.testbit f 1 = false /\ Z.testbit f 2 = false) ->
  (Z.testbit f 4 = true -> is_Some (load buf (zlen buf - 1))) ->
  len = Z.max prec (zlen buf) -> 0 <= len < 254 ->
  let P := if Z.testbit f 4 then
             if bool_decide (load buf (zlen buf - 1) = Some 48) then []
             else 48 :: (if Z.testbit f 14 then [if Z.testbit f 13 then 88 else 120] else [])
           else if Z.testbit f 12 || (Z.testbit f 1 || Z.testbit f 2) then
             [if Z.testbit f 12 then 45 else if Z.testbit f 1 then 43 else 32] else [] in
  ('(flags, len) ←
    (if has_flag f FL_ALT then
       top ← popt (load buf (zlen buf - 1));
       if top =? 48 then POk (Z.ldiff f (Z.lor FL_ALT (Z.lor FL_ALTHEX FL_ALTUPP)), len)
       else POk (f, if has_flag f FL_ALTHEX then u8 (u8 (len + 1) + 1) else u8 (len + 1))
     else if has_flag f (Z.lor FL_NEGATIVE (Z.lor FL_PLUS FL_SPACE)) then POk (f, u8 (len + 1))
     else POk (f, len));
  let '(prec, len) :=
    if negb (has_flag flags FL_LPAD) && has_flag flags FL_ZFILL then
      if len <? width then (zlen buf + (width - len), u8 width) else (zlen buf, len)
    else (prec, len) in
  '(pad, len) ← (if has_flag flags FL_LPAD then POk (0, len) else pad_loop 256 len width);
  let width := if len <? width then width - len else 0 in
  let prefix :=
    if has_flag flags FL_ALT then
      48 :: (if has_flag flags FL_ALTHEX then [if has_flag flags FL_ALTUPP then 88 else 120] else [])
    else if has_flag flags (Z.lor FL_NEGATIVE (Z.lor FL_PLUS FL_SPACE)) then
      [if has_flag flags FL_NEGATIVE then 45 else if has_flag flags FL_PLUS then 43 else 32]
    else [] in
  POk (spaces pad ++ prefix ++ zeros (prec - zlen buf) ++ rev buf ++ spaces width)) =
  POk (emit_form (Z.testbit f 3) (Z.testbit f 0) P width prec (rev buf)).
Proof.
  intros Hw Hp Hz Hs Htop El Hl P.
  (* the flags and the length after the prefix *)
  assert (forall g len', Z.testbit g 3 = Z.testbit f 3 -> Z.testbit g 0 = Z.testbit f 0 ->
    P = (if has_flag g FL_ALT then
           48 :: (if has_flag g FL_ALTHEX then [if has_flag g FL_ALTUPP then 88 else 120] else [])
         else if has_flag g (Z.lor FL_NEGATIVE (Z.lor FL_PLUS FL_SPACE)) then
           [if has_flag g FL_NEGATIVE then 45 else if has_flag g FL_PLUS then 43 else 32]
         else []) ->
    len' = zlen P + len -> 0 <= len' < 256 ->
    ('(prec, len) ← POk (if negb (has_flag g FL_LPAD) && has_flag g FL_ZFILL then
        if len' <? width then (zlen buf + (width - len'), u8 width) else (zlen buf, len')
      else (prec, len'));
     '(pad, len) ← (if has_flag g FL_LPAD then POk (0, len) else pad_loop 256 len width);
     let width := if len <? width then width - len else 0 in
     POk (spaces pad ++ P ++ zeros (prec - zlen buf) ++ rev buf ++ spaces width)) =
    POk (emit_form (Z.testbit f 3) (Z.testbit f 0) P width prec (rev buf))) as Hgo.
  { intros g len' E3 E0 EP El' Hl'. rewrite hf_lpad, hf_zfill, E3, E0. apply emit_tail; [done|done|done|done|lia]. }
  rewrite hf_alt. unfold P in *. clear P. destruct (Z.testbit f 4) eqn:E4.
  - destruct (Hs eq_refl) as (S1 & S2 & S3). destruct (Htop eq_refl) as [top Et]. rewrite Et in *.
    cbn [popt mbind pres_bind]. destruct (Z.eqb_spec top 48) as [->|Hne].
    + rewrite bool_decide_true in * by done. cbn [mbind pres_bind].
      specialize (Hgo (Z.ldiff f (Z.lor FL_ALT (Z.lor FL_ALTHEX FL_ALTUPP))) len).
      match type of Hgo with ?A -> ?B -> ?C -> _ =>
        assert A as Ha by (by bits); assert B as Hb by (by bits); assert C as Hc by (bits; by rewrite S1, S2, S3) end.
      specialize (Hgo Ha Hb Hc ltac:(simpl; lia) ltac:(lia)). rewrite <- Hc. exact Hgo.
    + rewrite bool_decide_false in * by congruence. cbn [mbind pres_bind].
      set (len' := if has_flag f FL_ALTHEX then u8 (u8 (len + 1) + 1) else u8 (len + 1)).
      assert (len' = len + if Z.testbit f 14 then 2 else 1) as El'.
      { unfold len'. rewrite hf_althex, (u8_small (len + 1)) by lia.
        destruct (Z.testbit f 14); [|done]. rewrite u8_small by lia. lia. }
      specialize (Hgo f len' eq_refl eq_refl).
      match type of Hgo with ?C -> _ => assert C as Hc by (bits; by rewrite E4) end.
      rewrite <- Hc. apply Hgo; [done| |]; rewrite El'; destruct (Z.testbit f 14); simpl; lia.
  - specialize (Hgo f). rewrite hf_alt, E4 in Hgo.
    assert (has_flag f (Z.lor FL_NEGATIVE (Z.lor FL_PLUS FL_SPACE)) =
      Z.testbit f 12 || (Z.testbit f 1 || Z.testbit f 2)) as Es by (by bits).
    rewrite Es in *. rewrite !hf_neg, !hf_plus in *.
    destruct (Z.testbit f 12 || (Z.testbit f 1 || Z.testbit f 2)) eqn:E; cbn [mbind pres_bind].
    + rewrite hf_alt, E4, Es, hf_neg, hf_plus.
      apply (Hgo (u8 (len + 1)) eq_refl eq_refl eq_refl); rewrite u8_small; simpl; lia.
    + rewrite hf_alt, E4, Es. apply (Hgo len eq_refl eq_refl eq_refl); simpl; lia.
Qed.

Lemma emit_int_spec f width prec buf :
  0 <= width < 256 -> 0 <= prec < 254 -> (Z.testbit f 8 = false -> prec = 0) -> zlen buf <= 22 ->
  (Z.testbit f 4 = true -> Z.testbit f 12 = false /\ Z.testbit f 1 = false /\ Z.testbit f 2 = false) ->
  (Z.testbit f 4 = true -> is_Some (load buf (zlen buf - 1))) ->
  emit_int f width prec buf =
  POk (emit_form (Z.testbit f 3) (Z.testbit f 0 && negb (Z.testbit f 8)) (emit_prefix f prec buf) width prec (rev buf)).
Proof.
  intros Hw Hp Hp0 Hb Hs Htop. unfold emit_int, emit_prefix. rewrite hf_prec, u8_small by lia.
  destruct (Z.testbit f 8) eqn:E8.
  - destruct (Z.ltb_spec (zlen buf) prec) as [Hlt|Hge].
    + assert (has_flag (Z.ldiff f FL_ZFILL) FL_ALT && negb (has_flag (Z.ldiff f FL_ZFILL) FL_ALTHEX) =
        Z.testbit f 4 && negb (Z.testbit f 14)) as -> by (by bits). rewrite (u8_small prec) by lia.
      destruct (Z.testbit f 4 && negb (Z.testbit f 14)) eqn:E; cbv iota beta.
      * apply andb_true_iff in E as [E4 E14]. destruct (Hs E4) as (S1 & S2 & S3).
        rewrite emit_rest; [|done|lia|bits; done|bits; done|bits; done|lia|lia].
        f_equal. bits. rewrite E4, E14, S1, S2, S3. done.
      * rewrite emit_rest; [|done|lia|bits; done|bits; tauto|bits; tauto|lia|lia].
        f_equal. bits. cbn [andb]. destruct (Z.testbit f 4) eqn:E4; [|done]. cbn [andb] in E. by rewrite E.
    + rewrite emit_rest; [|done|lia|bits; done|bits; tauto|bits; tauto|lia|lia].
      f_equal. by bits.
  - rewrite Hp0 by done. rewrite emit_rest; [|done|lia|done|done|done|lia|lia].
    rewrite andb_true_r. cbn [andb orb]. by destruct (Z.testbit f 4).
Qed.

(** ** Digits *)

Lemma num_value_snoc base vs v : num_value base (vs ++ [v]) = num_value base vs * base + v.
Proof. unfold num_value. by rewrite foldl_app. Qed.

Lemma ultoa_loop_spec base upper fuel : forall val,
  8 <= base <= 16 -> 0 <= val < base ^ Z.of_nat fuel -> (0 < fuel)%nat ->
  exists vs, ultoa_loop fuel val base upper = map (digit_char upper) vs /\
    Forall (fun v => 0 <= v < base) vs /\ num_value base (rev vs) = val /\ vs <> [] /\
    (forall vs' v, vs = vs' ++ [v] -> vs' <> [] -> v <> 0) /\
    ((1 < length vs)%nat -> base ^ (zlen vs - 1) <= val).
Proof.
  induction fuel as [|fuel IH]; intros val Hb Hv Hf; [lia|]. cbn [ultoa_loop].
  pose proof (Z.mod_pos_bound val base ltac:(lia)) as Hm.
  pose proof (Z.div_mod val base ltac:(lia)) as Hdm. pose proof (Z.div_pos val base ltac:(lia) ltac:(lia)) as Hd.
  destruct (Z.eqb_spec (val / base) 0) as [E|Hne].
  { exists [val mod base]. split; [done|]. split; [by apply Forall_singleton|].
    split; [unfold num_value; simpl; lia|]. split; [done|]. split; [|simpl; lia].
    intros [|? vs'] v [=] ?; [done|]. by destruct vs'. }
  rewrite Nat2Z.inj_succ, Z.pow_succ_r in Hv by lia.
  assert (0 <= val / base < base ^ Z.of_nat fuel) as Hv'.
  { split; [done|]. apply Z.div_lt_upper_bound; lia. }
  destruct fuel as [|fuel]; [simpl in Hv'; lia|].
  destruct (IH (val / base) Hb Hv' ltac:(lia)) as (vs & -> & H1 & H2 & H3 & H4 & H5).
  exists (val mod base :: vs). split; [done|]. split; [by constructor|].
  split; [simpl; rewrite num_value_snoc, H2; lia|]. split; [done|].
  assert (base ^ (zlen vs - 1) <= val / base) as Hlen.
  { destruct (decide (1 < length vs)%nat) as [Hl|Hl]; [by apply H5|].
    destruct vs as [|v [|]]; [done|simpl; lia|simpl in Hl; lia]. }
  split.
  - intros vs' v E Hvs'. destruct vs' as [|a vs']; [done|]. injection E as _ E.
    destruct vs' as [|b vs'].
    + simpl in E. subst vs. unfold num_value in H2. simpl in H2. lia.
    + by eapply H4.
  - intros _. simpl length. replace (Z.of_nat (S (length vs)) - 1) with (Z.succ (zlen vs - 1)) by lia.
    assert (0 < length vs)%nat by (destruct vs; simpl; [done|lia]).
    rewrite Z.pow_succ_r by lia. nia.
Qed.

Lemma ultoa_spec base upper x :
  8 <= base <= 16 -> 0 <= x < 2 ^ 64 ->
  exists buf, ultoa_invert x base upper = POk buf /\ numeral base upper x (rev buf) /\ zlen buf <= 22 /\
    exists top, load buf (zlen buf - 1) = Some top /\ (top = 48 <-> x = 0).
Proof.
  intros Hb Hx. destruct (ultoa_loop_spec base upper 64 x Hb) as (vs & E & H1 & H2 & H3 & H4 & H5).
  { split; [lia|]. apply Z.lt_le_trans with (2 ^ Z.of_nat 64); [apply Hx|]. apply Z.pow_le_mono_l. lia. }
  { lia. }
  unfold ultoa_invert. rewrite E, length_map.
  assert (zlen vs <= 22) as Hl.
  { destruct (decide (zlen vs <= 22)) as [|Hn]; [done|exfalso].
    assert (8 ^ 22 <= base ^ (zlen vs - 1)).
    { transitivity (8 ^ (zlen vs - 1)); [apply Z.pow_le_mono_r; lia|apply Z.pow_le_mono_l; lia]. }
    assert (base ^ (zlen vs - 1) <= x) by (apply H5; lia).
    assert (2 ^ 64 < 8 ^ 22) by reflexivity. lia. }
  replace (22 <? zlen vs) with false by lia. eexists. split; [done|].
  destruct (exists_last H3) as (vs' & v & Evs). split; [|split; [by rewrite length_map|]].
  - exists (rev vs). split; [by rewrite map_rev|]. split; [by apply Forall_rev|]. split; [done|].
    split; [intros Er; apply H3; rewrite <- (rev_involutive vs), Er; done|].
    intros a as' Ea Has. apply (H4 (rev as') a).
    + rewrite <- (rev_involutive vs), Ea. done.
    + intros Er. apply Has. rewrite <- (rev_involutive as'), Er. done.
  - rewrite length_map. exists (digit_char upper v). split.
    { apply load_Some. rewrite length_map, Evs, map_app, length_app. simpl. split; [lia|].
      rewrite lookup_app_r by (rewrite length_map; lia). rewrite length_map.
      by replace (Z.to_nat (Z.of_nat (length vs' + 1) - 1) - length vs')%nat with O by lia. }
    rewrite Evs in H1. apply Forall_app in H1 as [_ H1]. apply Forall_cons in H1 as [Hv _].
    assert (digit_char upper v = 48 <-> v = 0) as ->.
    { unfold digit_char. destruct upper; case_match; zbool; lia. }
    split.
    + intros ->. destruct vs' as [|a vs']; [|by destruct (H4 (a :: vs') 0)].
      subst vs. unfold num_value in H2. simpl in H2. done.
    + intros ->. destruct (decide (vs' = [])) as [->|Hne].
      * subst vs. unfold num_value in H2. simpl in H2. lia.
      * assert (base ^ (zlen vs - 1) <= 0).
        { apply H5. rewrite Evs, length_app. destruct vs'; [done|]. simpl. lia. }
        pose proof (Z.pow_pos_nonneg base (zlen vs - 1) ltac:(lia)). rewrite Evs, length_app in *. simpl in *. lia.
Qed.

(** ** Reading a specification *)

Definition parse_list (l : list Z) (f w p : Z) (a : list parg) :=
  match l with
  | [] => PBad
  | c :: l => if c =? 0 then POk (Some (0, l, f, w, p, a)) else parse_spec c l f w p a
  end.

Lemma parse_list_cons c l f w p a :
  c <> 0 ->
  parse_list (c :: l) f w p a =
  match parse_char c f w p a with
  | PUndef => PBad
  | PRet => POk None
  | PStop c f => POk (Some (c, l, f, w, p, a))
  | PNext f w p a => parse_list l f w p a
  end.
Proof. intros Hc. cbn [parse_list]. apply Z.eqb_neq in Hc. rewrite Hc. by destruct l. Qed.

Definition bflags (s : ispec) : Z :=
  Z.b2z (i_zero s) + 2 * Z.b2z (i_plus s) + 4 * Z.b2z (i_plus s || i_space s) + 8 * Z.b2z (i_left s) +
  16 * Z.b2z (i_alt s).

Lemma parse_flags s l a : parse_list (flag_chars s ++ l) 0 0 0 a = parse_list l (bflags s) 0 0 a.
Proof.
  destruct s as [[] [] [] [] [] w p n c]; destruct l; reflexivity.
Qed.

Lemma bflags_range s : 0 <= bflags s < 32.
Proof. unfold bflags, Z.b2z. repeat case_match; lia. Qed.

Lemma lor_add f k : 0 <= k -> 0 <= f < 2 ^ k -> Z.lor f (2 ^ k) = f + 2 ^ k.
Proof.
  intros Hk Hf. rewrite <- (Z.shiftl_1_l k), lor_shiftl_add by done. rewrite Z.shiftl_1_l. lia.
Qed.

(** The characters that are not flags. *)
Lemma digit_width c f w p a :
  f < 512 -> Z.testbit f 8 = false -> (f < 64 -> c <> 48) -> 48 <= c <= 57 -> 0 <= w < 256 ->
  parse_char c f w p a = PNext (Z.lor f FL_WIDTH) (10 * w + (c - 48)) p a.
Proof.
  intros Hf H8 H0 Hc Hw. unfold parse_char, FL_ASTERISK, FL_LONG. rewrite hf_prec, H8.
  replace ((f <? 64) && (c =? 48)) with false by lia. replace (c =? 43) with false by lia.
  replace (c =? 32) with false by lia. replace (c =? 45) with false by lia. replace (c =? 35) with false by lia.
  rewrite !andb_false_r. replace ((f <? 512) && ((48 <=? c) && (c <=? 57))) with true by lia.
  unfold int_ok. by replace (_ && _) with true by lia.
Qed.

Lemma digit_prec c f w p a :
  64 <= f < 512 -> Z.testbit f 8 = true -> 48 <= c <= 57 -> 0 <= p < 256 ->
  parse_char c f w p a = PNext f w (10 * p + (c - 48)) a.
Proof.
  intros Hf H8 Hc Hp. unfold parse_char, FL_ASTERISK, FL_LONG. rewrite hf_prec, H8.
  replace (f <? 64) with false by lia. cbn [andb].
  replace ((f <? 512) && ((48 <=? c) && (c <=? 57))) with true by lia.
  unfold int_ok. by replace (_ && _) with true by lia.
Qed.

Lemma parse_dot f w p a :
  f < 512 -> Z.testbit f 8 = false -> parse_char 46 f w p a = PNext (Z.lor f FL_PREC) w p a.
Proof.
  intros Hf H8. unfold parse_char, FL_LONG. rewrite hf_prec, H8. cbn. rewrite !andb_false_r.
  by replace (f <? 512) with true by lia.
Qed.

Lemma bits_small f k n : 0 <= f < 2 ^ k -> k <= n -> Z.testbit f n = false.
Proof.
  intros Hf Hn. destruct (decide (f = 0)) as [->|]; [apply Z.bits_0|].
  apply Z.bits_above_log2; [lia|]. apply Z.lt_le_trans with k; [|done]. apply Z.log2_lt_pow2; lia.
Qed.

Lemma parse_width s l a w :
  0 < w < 256 -> parse_list (dec w ++ l) (bflags s) 0 0 a = parse_list l (Z.lor (bflags s) FL_WIDTH) w 0 a.
Proof.
  intros Hw. pose proof (bflags_range s) as Hf.
  assert (Z.testbit (bflags s) 8 = false) as H8 by (apply (bits_small _ 5); [lia|done]).
  set (f1 := Z.lor (bflags s) FL_WIDTH).
  assert (f1 = bflags s + 128) as E1 by (apply (lor_add _ 7); [done|lia]).
  assert (Z.testbit f1 8 = false) as H18 by (unfold f1; bits; done).
  assert (Z.lor f1 FL_WIDTH = f1) as Hi by (unfold f1; by rewrite <- Z.lor_assoc, Z.lor_diag).
  unfold dec. destruct (Z.ltb_spec w 10); [|destruct (Z.ltb_spec w 100)]; cbn [app];
    rewrite parse_list_cons by zlia; rewrite digit_width by (done || zlia); fold f1;
    [f_equal; lia|..]; rewrite parse_list_cons by zlia; rewrite digit_width by (done || zlia); rewrite Hi;
    [f_equal; zlia|]; rewrite parse_list_cons by zlia; rewrite digit_width by (done || zlia); rewrite Hi;
    f_equal; zlia.
Qed.

Lemma parse_prec f l a w p :
  64 <= f < 512 -> Z.testbit f 8 = true -> 0 <= p < 256 ->
  parse_list (dec p ++ l) f w 0 a = parse_list l f w p a.
Proof.
  intros Hf H8 Hp. unfold dec. destruct (Z.ltb_spec p 10); [|destruct (Z.ltb_spec p 100)]; cbn [app];
    rewrite parse_list_cons by zlia; rewrite digit_prec by (done || zlia);
    [f_equal; lia|..]; rewrite parse_list_cons by zlia; rewrite digit_prec by (done || zlia);
    [f_equal; zlia|]; rewrite parse_list_cons by zlia; rewrite digit_prec by (done || zlia);
    f_equal; zlia.
Qed.

(** The flags a specification leads to. *)
Record flags_of (s : ispec) (f : Z) : Prop := {
  fo_zero : Z.testbit f 0 = i_zero s;
  fo_plus : Z.testbit f 1 = i_plus s;
  fo_space : Z.testbit f 2 = i_plus s || i_space s;
  fo_left : Z.testbit f 3 = i_left s;
  fo_alt : Z.testbit f 4 = i_alt s;
  fo_prec : Z.testbit f 8 = bool_decide (is_Some (i_prec s));
  fo_long : Z.testbit f 9 = match i_len s with LL | LLL | LJ | LZ | LT => true | _ => false end;
  fo_short : Z.testbit f 10 = match i_len s with LHH | LH => true | _ => false end;
  fo_repd : Z.testbit f 11 = match i_len s with LHH | LLL | LJ => true | _ => false end;
  fo_neg : Z.testbit f 12 = false;
  fo_upp : Z.testbit f 13 = false;
  fo_hex : Z.testbit f 14 = false
}.

(** A character that is neither flag nor digit. *)
Lemma parse_letter c f w p a :
  c ∈ [104; 108; 106; 122; 116; 100; 105; 117; 111; 120; 88] ->
  parse_char c f w p a =
  (let c := if (c =? 122) || (c =? 116) then 108 else c in
   if c =? 106 then PNext (Z.ldiff (Z.lor (Z.lor f FL_REPD_TYPE) FL_LONG) FL_SHORT) w p a
   else if (c =? 108) || (c =? 76) then
     PNext (Z.ldiff (Z.lor f (if has_flag f FL_LONG then FL_REPD_TYPE else FL_LONG)) FL_SHORT) w p a
   else if c =? 104 then
     PNext (Z.ldiff (Z.lor f (if has_flag f FL_SHORT then FL_REPD_TYPE else FL_SHORT)) FL_LONG) w p a
   else PStop c f).
Proof.
  intros Hc. unfold parse_char. repeat (apply elem_of_cons in Hc as [->|Hc]; [cbn; by rewrite !andb_false_r|]).
  by apply elem_of_nil in Hc.
Qed.

Lemma parse_tail s f w p l a :
  0 <= f < 512 -> Z.testbit f 8 = bool_decide (is_Some (i_prec s)) -> Z.testbit f 0 = i_zero s ->
  Z.testbit f 1 = i_plus s -> Z.testbit f 2 = i_plus s || i_space s -> Z.testbit f 3 = i_left s ->
  Z.testbit f 4 = i_alt s ->
  exists g, parse_list (len_chars s ++ conv_char s :: l) f w p a = POk (Some (conv_char s, l, g, w, p, a)) /\
    flags_of s g.
Proof.
  intros Hf H8 H0 H1 H2 H3 H4.
  assert (Z.testbit f 9 = false /\ Z.testbit f 10 = false /\ Z.testbit f 11 = false /\ Z.testbit f 12 = false /\
    Z.testbit f 13 = false /\ Z.testbit f 14 = false) as (H9 & H10 & H11 & H12 & H13 & H14).
  { repeat split; by apply (bits_small _ 9). }
  assert (forall g, parse_list (conv_char s :: l) g w p a = POk (Some (conv_char s, l, g, w, p, a))) as Hend.
  { intros g. unfold conv_char. destruct (i_conv s);
      (rewrite parse_list_cons by done; rewrite parse_letter by (rewrite !elem_of_cons; tauto); reflexivity). }
  unfold len_chars. destruct (i_len s) eqn:El; cbn [app];
    repeat (rewrite parse_list_cons by done; rewrite parse_letter by (rewrite !elem_of_cons; tauto);
            cbn [Z.eqb Pos.eqb orb]; cbv zeta iota);
    rewrite ?hf_long, ?hf_short, Hend; eexists; (split; [reflexivity|]);
    constructor; rewrite ?El; bits; rewrite ?H9, ?H10; bits; try done.
Qed.

Lemma bflags_bits s :
  Z.testbit (bflags s) 0 = i_zero s /\ Z.testbit (bflags s) 1 = i_plus s /\
  Z.testbit (bflags s) 2 = i_plus s || i_space s /\ Z.testbit (bflags s) 3 = i_left s /\
  Z.testbit (bflags s) 4 = i_alt s /\ Z.testbit (bflags s) 8 = false.
Proof. by destruct s as [[] [] [] [] [] w p n c]. Qed.

Lemma parse_ok s z l a :
  ispec_ok s z ->
  exists g, parse_list (spec_chars s ++ l) 0 0 0 a =
      POk (Some (conv_char s, l, g, default 0 (i_width s), default 0 (i_prec s), a)) /\ flags_of s g.
Proof.
  intros (Hw & Hp & _). destruct (bflags_bits s) as (B0 & B1 & B2 & B3 & B4 & B8).
  pose proof (bflags_range s) as Hb. unfold spec_chars. rewrite <- !app_assoc, parse_flags. cbn [app].
  assert (exists f1, 0 <= f1 < 256 /\ (i_width s = None -> f1 = bflags s) /\
    (forall k, k <> 7 -> Z.testbit f1 k = Z.testbit (bflags s) k) /\
    forall l, parse_list (match i_width s with Some w => dec w | None => [] end ++ l) (bflags s) 0 0 a =
      parse_list l f1 (default 0 (i_width s)) 0 a) as (f1 & R1 & _ & T1 & ->).
  { destruct (i_width s) as [w|]; [|by exists (bflags s); split; [lia|]].
    exists (Z.lor (bflags s) FL_WIDTH). split.
    { unfold FL_WIDTH. rewrite (lor_add _ 7) by lia. lia. }
    split; [done|]. split; [|intros l'; apply parse_width; auto]. intros k Hk. rewrite Z.lor_spec.
    change FL_WIDTH with (2 ^ 7). rewrite Z.pow2_bits_false by done. by rewrite orb_false_r. }
  assert (exists f2, 0 <= f2 < 512 /\ Z.testbit f2 8 = bool_decide (is_Some (i_prec s)) /\
    (forall k, k <> 8 -> Z.testbit f2 k = Z.testbit f1 k) /\
    forall l, parse_list (match i_prec s with Some p => 46 :: dec p | None => [] end ++ l) f1 (default 0 (i_width s)) 0 a =
      parse_list l f2 (default 0 (i_width s)) (default 0 (i_prec s)) a) as (f2 & R2 & T8 & T2 & ->).
  { destruct (i_prec s) as [p|].
    2:{ exists f1. split; [lia|]. split; [|done]. rewrite T1 by done. by rewrite B8. }
    exists (Z.lor f1 FL_PREC). assert (Z.lor f1 FL_PREC = f1 + 256) as E by (apply (lor_add _ 8); lia).
    split; [lia|]. split; [by bits|]. split.
    - intros k Hk. rewrite Z.lor_spec. change FL_PREC with (2 ^ 8). rewrite Z.pow2_bits_false by done.
      by rewrite orb_false_r.
    - intros l'. cbn [app]. rewrite parse_list_cons by done. rewrite parse_dot; [|lia|by rewrite T1].
      rewrite parse_prec; [done|lia|by bits|]. specialize (Hp p eq_refl). lia. }
  apply parse_tail; [lia|done|..]; rewrite T2, T1 by done; done.
Qed.

(** ** The conversions *)

Lemma zeros_nil n : n <= 0 -> zeros n = [].
Proof. intros Hn. unfold zeros. by replace (Z.to_nat n) with O by lia. Qed.
Lemma length_zeros n : zlen (zeros n) = Z.max 0 n.
Proof. unfold zeros. rewrite length_replicate. lia. Qed.

(** The layout for a sign and a prefix. *)
Lemma layout_form s P w ds body :
  0 <= default 0 (i_prec s) -> body = zeros (default 0 (i_prec s) - zlen ds) ++ ds ->
  emit_form (i_left s) (i_zero s && negb (bool_decide (is_Some (i_prec s)))) P w (default 0 (i_prec s)) ds =
  (let fill := w - zlen (P ++ body) in
   if i_left s then P ++ body ++ spaces fill
   else if i_zero s && bool_decide (i_prec s = None) then P ++ zeros fill ++ body
   else spaces fill ++ P ++ body).
Proof.
  intros Hp ->. unfold emit_form. rewrite !length_app, Nat2Z.inj_add, Nat2Z.inj_add, length_zeros.
  replace (w - (zlen P + (Z.max 0 (default 0 (i_prec s) - zlen ds) + zlen ds)))
    with (w - zlen P - Z.max (default 0 (i_prec s)) (zlen ds)) by lia.
  destruct (i_left s); [by rewrite <- !app_assoc|].
  assert (negb (bool_decide (is_Some (i_prec s))) = bool_decide (i_prec s = None)) as ->.
  { destruct (i_prec s); [by rewrite bool_decide_true, bool_decide_false|by rewrite bool_decide_false, bool_decide_true]. }
  destruct (i_zero s && bool_decide (i_prec s = None)) eqn:E; [|done].
  apply andb_true_iff in E as [_ E]. apply bool_decide_eq_true in E. rewrite E. simpl.
  rewrite (zeros_nil (0 - zlen ds)) by lia. done.
Qed.

(** The argument a length modifier asks for. *)
Definition arg_of (s : ispec) (z : Z) : parg :=
  match i_len s with LLL | LJ => ALong z | _ => AWord z end.

Lemma signed_arg_spec s f z a :
  flags_of s f -> i_signed s = true -> signed_arg f (arg_of s z :: a) = POk (arg_value s z, a).
Proof.
  intros [] Hs. unfold signed_arg, arg_of, arg_value, s32, s64. rewrite Hs, hf_long, hf_short, hf_repd.
  destruct (i_len s); cbn [mbind]; rewrite ?fo_long0, ?fo_short0, ?fo_repd0; cbn [andb]; try done.
  - do 2 f_equal. f_equal. change (8 - 1) with 7. zlia.
  - do 2 f_equal. f_equal. change (16 - 1) with 15. zlia.
Qed.

Lemma unsigned_arg_spec s f z a :
  flags_of s f -> i_signed s = false -> unsigned_arg f (arg_of s z :: a) = POk (arg_value s z, a).
Proof.
  intros [] Hs. unfold unsigned_arg, arg_of, arg_value. rewrite Hs, hf_long, hf_short, hf_repd.
  destruct (i_len s); rewrite ?fo_long0, ?fo_short0, ?fo_repd0; by cbn [andb].
Qed.

Lemma arg_value_range s z :
  if i_signed s then - 2 ^ 63 <= arg_value s z < 2 ^ 63 else 0 <= arg_value s z < 2 ^ 64.
Proof. unfold arg_value. destruct (i_signed s), (i_len s); zlia. Qed.

Lemma int_digits_spec s f x base upper :
  Z.testbit f 8 = bool_decide (is_Some (i_prec s)) -> 8 <= base <= 16 -> 0 <= x < 2 ^ 64 ->
  exists buf, int_digits f (default 0 (i_prec s)) x base upper = POk buf /\ zlen buf <= 22 /\
    if bool_decide (i_prec s = Some 0) && (x =? 0) then buf = []
    else numeral base upper x (rev buf) /\
      exists top, load buf (zlen buf - 1) = Some top /\ (top = 48 <-> x = 0).
Proof.
  intros Hf Hb Hx. unfold int_digits. rewrite hf_prec, Hf.
  assert (bool_decide (is_Some (i_prec s)) && (default 0 (i_prec s) =? 0) = bool_decide (i_prec s = Some 0)) as ->.
  { destruct (i_prec s) as [p|]; [|done]. rewrite bool_decide_true by done. simpl.
    destruct (Z.eqb_spec p 0); [subst; by rewrite bool_decide_true|].
    rewrite bool_decide_false; congruence. }
  destruct (bool_decide (i_prec s = Some 0) && (x =? 0)); [by exists []|].
  destruct (ultoa_spec base upper x Hb Hx) as (buf & -> & H1 & H2 & H3). exists buf. by split; [|split].
Qed.

(** [int_layout] with its sign and prefix named. *)
Lemma int_layout_eq s x ds P :
  0 <= default 0 (i_prec s) ->
  P = (if i_signed s then if x <? 0 then [45] else if i_plus s then [43]
                          else if i_space s then [32] else [] else []) ++
      (if i_alt s then
         match i_conv s with
         | Co => match zeros (default 0 (i_prec s) - zlen ds) ++ ds with 48 :: _ => [] | _ => [48] end
         | Cx => if x =? 0 then [] else [48; 120]
         | CX => if x =? 0 then [] else [48; 88]
         | _ => []
         end else []) ->
  emit_form (i_left s) (i_zero s && negb (bool_decide (is_Some (i_prec s)))) P (default 0 (i_width s))
    (default 0 (i_prec s)) ds = int_layout s x ds.
Proof.
  intros Hp ->. rewrite (layout_form s _ _ ds _ Hp eq_refl). unfold int_layout. cbv zeta.
  by rewrite <- !app_assoc.
Qed.

Lemma conv_signed_ok s f z a :
  ispec_ok s z -> flags_of s f -> i_signed s = true ->
  exists t, conv_signed f (default 0 (i_width s)) (default 0 (i_prec s)) (arg_of s z :: a) = POk (t, a) /\
    int_text s z t.
Proof.
  intros (Hw & Hp & _) Hf Hs. unfold conv_signed. rewrite signed_arg_spec by done. cbn [mbind pres_bind].
  pose proof (arg_value_range s z) as Hr. rewrite Hs in Hr. set (x := arg_value s z) in *.
  set (g := Z.ldiff f (Z.lor FL_NEGATIVE FL_ALT)). set (h := if x <? 0 then Z.lor g FL_NEGATIVE else g).
  assert (Z.testbit h 8 = bool_decide (is_Some (i_prec s)) /\ Z.testbit h 4 = false /\ Z.testbit h 12 = (x <? 0) /\
    Z.testbit h 1 = i_plus s /\ Z.testbit h 2 = i_plus s || i_space s /\ Z.testbit h 3 = i_left s /\
    Z.testbit h 0 = i_zero s) as (T8 & T4 & T12 & T1 & T2 & T3 & T0).
  { destruct Hf. unfold h, g. destruct (x <? 0); bits; by rewrite ?fo_prec0, ?fo_plus0, ?fo_space0, ?fo_left0, ?fo_zero0. }
  assert (0 <= default 0 (i_width s) < 256) as Hw' by (destruct (i_width s); simpl; [specialize (Hw _ eq_refl)|]; lia).
  assert (0 <= default 0 (i_prec s) < 254) as Hp' by (destruct (i_prec s); simpl; [specialize (Hp _ eq_refl)|]; lia).
  destruct (int_digits_spec s h (Z.abs x) 10 false T8) as (buf & Eb & Hl & Hd); [lia|lia|].
  rewrite Eb. cbn [mbind pres_bind]. rewrite emit_int_spec; try done.
  2:{ rewrite T8. intros Hn. apply bool_decide_eq_false in Hn. destruct (i_prec s); [|done]. by destruct Hn. }
  2,3: by rewrite T4.
  cbn [mbind pres_bind]. eexists. split; [reflexivity|]. exists (rev buf). fold x. split.
  - rewrite T3, T0, T8. apply int_layout_eq; [lia|]. unfold emit_prefix. rewrite T4, T12, T1, T2, Hs.
    assert ((if i_alt s then match i_conv s with
      | Co => match zeros (default 0 (i_prec s) - zlen (rev buf)) ++ rev buf with 48 :: _ => [] | _ => [48] end
      | Cx => if x =? 0 then [] else [48; 120] | CX => if x =? 0 then [] else [48; 88] | _ => [] end else []) = []) as ->.
    { unfold i_signed in Hs. destruct (i_alt s); [|done]. by destruct (i_conv s). }
    rewrite app_nil_r. destruct (x <? 0), (i_plus s), (i_space s); done.
  - replace (Z.abs x =? 0) with (x =? 0) in Hd by lia.
    assert (i_base s = 10 /\ i_upper s = false) as [-> ->] by (unfold i_signed, i_base, i_upper in *; by destruct (i_conv s)).
    destruct (bool_decide (i_prec s = Some 0) && (x =? 0)); [by subst buf|apply Hd].
Qed.

Lemma load_last (buf : list Z) top : load buf (zlen buf - 1) = Some top -> exists l, rev buf = top :: l.
Proof.
  intros [Hr Hl]%load_Some. destruct (exists_last (l := buf)) as (l & x & ->); [by destruct buf|].
  rewrite length_app in Hl. simpl in Hl. rewrite lookup_app_r in Hl by lia.
  replace (Z.to_nat (Z.of_nat (length l + 1) - 1) - length l)%nat with O in Hl by lia. injection Hl as ->.
  exists (rev l). by rewrite rev_app_distr.
Qed.

(** The tail of an unsigned conversion with the flags [g]. *)
Lemma unsigned_finish s z g base upper (alt hex upp : bool) :
  ispec_ok s z -> i_signed s = false -> base = i_base s -> upper = i_upper s -> 8 <= base <= 16 ->
  Z.testbit g 8 = bool_decide (is_Some (i_prec s)) -> Z.testbit g 4 = alt ->
  Z.testbit g 1 = false -> Z.testbit g 2 = false -> Z.testbit g 3 = i_left s -> Z.testbit g 0 = i_zero s ->
  Z.testbit g 14 = hex -> Z.testbit g 13 = upp ->
  alt = (i_alt s && match i_conv s with Co | Cx | CX => true | _ => false end) ->
  hex = (i_alt s && match i_conv s with Cx | CX => true | _ => false end) ->
  upp = (i_alt s && match i_conv s with CX => true | _ => false end) ->
  exists buf t,
    int_digits g (default 0 (i_prec s)) (arg_value s z) base upper = POk buf /\
    emit_int (Z.ldiff g FL_NEGATIVE) (default 0 (i_width s)) (default 0 (i_prec s)) buf = POk t /\ int_text s z t.
Proof.
  intros (Hw & Hp & Hub) Hs Eb Eu Hb G8 G4 G1 G2 G3 G0 G14 G13 Ea Eh Eupp.
  pose proof (arg_value_range s z) as Hr. rewrite Hs in Hr. specialize (fun H1 H2 => Hub H1 Hs H2).
  unfold int_text. set (x := arg_value s z) in *.
  destruct (int_digits_spec s g x base upper G8 Hb Hr) as (buf & E & Hl & Hd). exists buf.
  set (h := Z.ldiff g FL_NEGATIVE).
  assert (Z.testbit h 8 = bool_decide (is_Some (i_prec s)) /\ Z.testbit h 4 = alt /\ Z.testbit h 12 = false /\
    Z.testbit h 1 = false /\ Z.testbit h 2 = false /\ Z.testbit h 3 = i_left s /\ Z.testbit h 0 = i_zero s /\
    Z.testbit h 14 = hex /\ Z.testbit h 13 = upp) as (T8 & T4 & T12 & T1 & T2 & T3 & T0 & T14 & T13).
  { unfold h. bits. rewrite G8, G4, G1, G2, G3, G0, G14, G13. done. }
  assert (0 <= default 0 (i_width s) < 256) as Hw' by (destruct (i_width s); simpl; [specialize (Hw _ eq_refl)|]; lia).
  assert (0 <= default 0 (i_prec s) < 254) as Hp' by (destruct (i_prec s); simpl; [specialize (Hp _ eq_refl)|]; lia).
  (* a prefix means that there are digits *)
  assert (alt = true -> exists top, load buf (zlen buf - 1) = Some top /\ (top = 48 <-> x = 0)) as Htop.
  { intros ->. symmetry in Ea. apply andb_true_iff in Ea as [Ea1 Ea2].
    destruct (bool_decide (i_prec s = Some 0) && (x =? 0)) eqn:E0; [|apply Hd].
    apply andb_true_iff in E0 as [E1%bool_decide_eq_true E2%Z.eqb_eq]. exfalso. apply Hub; try done.
    intros Ec. by rewrite Ec in Ea2. }
  rewrite emit_int_spec; try done.
  2:{ rewrite T8. intros Hn. apply bool_decide_eq_false in Hn. destruct (i_prec s); [|done]. by destruct Hn. }
  2:{ rewrite T4. intros Ht. by destruct (Htop Ht) as (top & -> & _). }
  eexists. split; [done|]. split; [reflexivity|]. exists (rev buf). split.
  2:{ rewrite Z.abs_eq by lia. rewrite <- Eb, <- Eu.
      destruct (bool_decide (i_prec s = Some 0) && (x =? 0)); [by subst buf|apply Hd]. }
  rewrite T3, T0, T8. apply int_layout_eq; [lia|]. unfold emit_prefix. rewrite T4, T12, T1, T2, T14, T13, T8, Hs.
  cbn [orb app]. destruct alt.
  2:{ destruct (i_alt s); [|done]. by destruct (i_conv s). }
  symmetry in Ea. apply andb_true_iff in Ea as [Ea1 Ea2]. rewrite Ea1 in *. cbn [andb] in *.
  destruct (Htop eq_refl) as (top & Et & H0). rewrite Et.
  assert (bool_decide (Some top = Some 48) = (x =? 0)) as ->.
  { destruct (Z.eqb_spec x 0) as [Hx|Hx]; [apply bool_decide_true; f_equal; tauto|].
    apply bool_decide_false. intros [=]. tauto. }
  destruct (load_last _ _ Et) as [l El]. rewrite length_rev, Eh, Eupp.
  destruct (i_conv s); try done; rewrite ?andb_false_r, ?andb_true_r; cbn [negb orb];
    rewrite ?andb_false_r, ?andb_true_r; cbn [orb]; [|by destruct (x =? 0)..].
  destruct (Z.ltb_spec (zlen buf) (default 0 (i_prec s))) as [Hlt|Hge].
  - assert (bool_decide (is_Some (i_prec s)) = true) as ->.
    { apply bool_decide_true. destruct (i_prec s); [done|]. simpl in Hlt. lia. }
    simpl. unfold zeros. destruct (Z.to_nat (default 0 (i_prec s) - zlen buf)) eqn:En; [lia|]. done.
  - rewrite andb_false_r, zeros_nil by lia. cbn [orb app]. rewrite El.
    destruct (Z.eqb_spec x 0) as [Hx|Hx]; [by replace top with 48 by (symmetry; tauto)|].
    assert (top <> 48) as Hn by tauto. clear -Hn.
    destruct top as [|p|p]; try done. repeat (destruct p as [p|p|]; try done).
Qed.

Lemma conv_ok s z f a :
  ispec_ok s z -> flags_of s f ->
  exists t, conv (conv_char s) f (default 0 (i_width s)) (default 0 (i_prec s)) (arg_of s z :: a) = POk (t, a) /\
    int_text s z t.
Proof.
  intros Hok Hf. destruct (i_signed s) eqn:Hs.
  { destruct (conv_signed_ok s f z a Hok Hf Hs) as (t & E & Ht). exists t. split; [|done].
    rewrite <- E. unfold i_signed in Hs. unfold conv_char. by destruct (i_conv s). }
  assert (conv (conv_char s) f (default 0 (i_width s)) (default 0 (i_prec s)) (arg_of s z :: a) =
    conv_unsigned (conv_char s) f (default 0 (i_width s)) (default 0 (i_prec s)) (arg_of s z :: a)) as ->.
  { unfold i_signed in Hs. unfold conv_char. by destruct (i_conv s). }
  unfold conv_unsigned. rewrite unsigned_arg_spec by done. cbn [mbind pres_bind]. cbv zeta.
  set (g := Z.ldiff f (Z.lor FL_PLUS FL_SPACE)).
  assert (Z.testbit g 8 = bool_decide (is_Some (i_prec s)) /\ Z.testbit g 4 = i_alt s /\ Z.testbit g 1 = false /\
    Z.testbit g 2 = false /\ Z.testbit g 3 = i_left s /\ Z.testbit g 0 = i_zero s /\
    Z.testbit g 14 = false /\ Z.testbit g 13 = false) as (G8 & G4 & G1 & G2 & G3 & G0 & G14 & G13).
  { destruct Hf. unfold g. bits. by rewrite fo_prec0, fo_alt0, fo_left0, fo_zero0, fo_upp0, fo_hex0. }
  pose proof (unsigned_finish s z) as Hfin. unfold conv_char.
  assert (forall g' base upper,
    (exists buf t, int_digits g' (default 0 (i_prec s)) (arg_value s z) base upper = POk buf /\
      emit_int (Z.ldiff g' FL_NEGATIVE) (default 0 (i_width s)) (default 0 (i_prec s)) buf = POk t /\ int_text s z t) ->
    exists t, (buf ← int_digits g' (default 0 (i_prec s)) (arg_value s z) base upper;
      o ← emit_int (Z.ldiff g' FL_NEGATIVE) (default 0 (i_width s)) (default 0 (i_prec s)) buf;
      POk (o, a)) = POk (t, a) /\ int_text s z t) as Hgo.
  { intros g' base upper (buf & t & E1 & E2 & Ht). exists t. rewrite E1. cbn [mbind pres_bind]. by rewrite E2. }
  unfold i_signed, i_base, i_upper in Hs, Hfin. destruct (i_conv s) eqn:Ec; try done;
    cbn [Z.eqb Pos.eqb]; rewrite ?hf_alt, ?G4; apply Hgo; eapply Hfin; try reflexivity; try done; try lia;
    destruct (i_alt s) eqn:Ea; bits; rewrite ?G8, ?G4, ?G1, ?G2, ?G3, ?G0, ?G14, ?G13; bits; done.
Qed.

(** ** Formats *)

Inductive directive := DChar (c : Z) | DInt (s : ispec).

Definition fmt_of (d : directive) : list Z :=
  match d with
  | DChar c => if c =? 37 then [37; 37] else [c]
  | DInt s => 37 :: spec_chars s
  end.

(** The arguments fit the format. *)
Inductive dirs_ok : list directive -> list parg -> Prop :=
| do_nil a : dirs_ok [] a
| do_char c ds a : c <> 0 -> dirs_ok ds a -> dirs_ok (DChar c :: ds) a
| do_int s z ds a : ispec_ok s z -> dirs_ok ds a -> dirs_ok (DInt s :: ds) (arg_of s z :: a).

(** The text for a format. *)
Inductive printed : list directive -> list parg -> list Z -> Prop :=
| pr_nil a : printed [] a []
| pr_char c ds a t : printed ds a t -> printed (DChar c :: ds) a (c :: t)
| pr_int s z ds a t1 t2 : int_text s z t1 -> printed ds a t2 -> printed (DInt s :: ds) (arg_of s z :: a) (t1 ++ t2).

Lemma spec_chars_head s z : ispec_ok s z -> exists c l, spec_chars s = c :: l /\ c <> 37 /\ c <> 0.
Proof.
  intros (Hw & Hp & _). unfold spec_chars, flag_chars.
  destruct (i_left s); [by eexists _, _|]. destruct (i_plus s); [by eexists _, _|].
  destruct (i_space s); [by eexists _, _|]. destruct (i_alt s); [by eexists _, _|].
  destruct (i_zero s); [by eexists _, _|]. cbn [app].
  destruct (i_width s) as [w|].
  { specialize (Hw w eq_refl). unfold dec. case_match; [|case_match]; eexists _, _; (split; [reflexivity|]); zlia. }
  destruct (i_prec s); [by eexists _, _|]. cbn [app].
  unfold len_chars, conv_char. destruct (i_len s), (i_conv s); by eexists _, _.
Qed.

Lemma vsprintf_loop_ok ds a : dirs_ok ds a -> forall fuel,
  (length (concat (map fmt_of ds) ++ [0%Z]) <= fuel)%nat ->
  exists t, vsprintf_loop fuel (concat (map fmt_of ds) ++ [0%Z]) a = POk t /\ printed ds a t.
Proof.
  induction 1 as [a|c ds a Hc _ IH|s z ds a Hs _ IH]; intros [|fuel] Hf; try (rewrite length_app in Hf; simpl in Hf; lia).
  - exists []. split; [done|constructor].
  - cbn [map concat fmt_of] in *. rewrite <- app_assoc in *. destruct (Z.eqb_spec c 37) as [->|Hn]; cbn [app length] in *.
    + destruct (IH fuel ltac:(lia)) as (t & E & Ht). exists (37 :: t). split; [|by constructor].
      cbn [vsprintf_loop Z.eqb Pos.eqb]. by rewrite E.
    + destruct (IH fuel ltac:(lia)) as (t & E & Ht). exists (c :: t). split; [|by constructor].
      cbn [vsprintf_loop]. apply Z.eqb_neq in Hc, Hn. by rewrite Hc, Hn, E.
  - cbn [map concat fmt_of] in *. rewrite <- app_assoc in *. cbn [app length] in Hf |- *.
    destruct (spec_chars_head s z Hs) as (c & l & Ec & Hc37 & Hc0).
    destruct (parse_ok s z (concat (map fmt_of ds) ++ [0]) (arg_of s z :: a) Hs) as (g & Ep & Hg).
    destruct (conv_ok s z g a Hs Hg) as (t1 & E1 & Ht1).
    destruct (IH fuel) as (t2 & E2 & Ht2). { rewrite length_app in Hf. lia. }
    exists (t1 ++ t2). split; [|by constructor].
    cbn [vsprintf_loop Z.eqb Pos.eqb]. rewrite Ec in Ep |- *. cbn [app] in Ep |- *. cbn [parse_list] in Ep.
    apply Z.eqb_neq in Hc37, Hc0. rewrite Hc0 in Ep. rewrite Hc37, Ep. cbn [mbind pres_bind].
    rewrite E1. cbn [mbind pres_bind]. by rewrite E2.
Qed.

(** C34: formatted output is what the C standard asks for.  On every format made
    of characters and integer conversions, with any flags, length modifier,
    width below 256 and precision below 254, and with arguments of the right
    types, except for the conversions [%#.0x], [%#.0X] and [%#.0o] of zero,
    [vsprintf_internal] writes the characters and for each conversion the
    numeral of the argument, with the sign, prefix, leading zeros and padding of
    the standard; the format is read as it was written. *)
Theorem vsprintf_conforms ds a :
  dirs_ok ds a ->
  exists t, vsprintf_internal (concat (map fmt_of ds) ++ [0]) a = POk t /\ printed ds a t.
Proof. intros Hd. by apply vsprintf_loop_ok. Qed.

Definition demo_format : list directive :=
  [DInt (mk_ispec false false false true true (Some 8) None LNone Cx); DChar 37;
   DInt (mk_ispec true true false false false (Some 5) (Some 2) LHH Cd)].

Lemma demo_format_ok : dirs_ok demo_format [AWord 255; AWord 7].
Proof.
  apply (do_int (mk_ispec false false false true true (Some 8) None LNone Cx) 255).
  { split; [by intros w [= <-]|]. by split. }
  apply do_char; [done|].
  apply (do_int (mk_ispec true true false false false (Some 5) (Some 2) LHH Cd) 7); [|constructor].
  split; [by intros w [= <-]|]. split; [by intros p [= <-]|done].
Qed.

Lemma vsprintf_conforms_witness :
  dirs_ok demo_format [AWord 255; AWord 7] /\
  concat (map fmt_of demo_format) = chars "%#08x%%%-+5.2hhd" /\
  exists t, vsprintf_internal (concat (map fmt_of demo_format) ++ [0]) [AWord 255; AWord 7] = POk t /\
    printed demo_format [AWord 255; AWord 7] t.
Proof.
  split; [exact demo_format_ok|]. split; [vm_compute; reflexivity|].
  apply (vsprintf_conforms demo_format [AWord 255; AWord 7]). exact demo_format_ok.
Defined.

Lemma demo_format_run :
  vsprintf_internal (concat (map fmt_of demo_format) ++ [0]) [AWord 255; AWord 7] = POk (chars "0x0000ff%+07  ").
Proof. vm_compute. reflexivity. Qed.

(** ** Defects *)

(** [len] is an [unsigned char], so that [while (len < width)] does not end for a
    width above 255. *)
Theorem printf_wide_field_loops fuel width len :
  255 < width -> 0 <= len < 256 -> pad_loop fuel len width = PLoop.
Proof.
  intros Hw. revert len. induction fuel as [|fuel IH]; intros len Hl; cbn [pad_loop];
    replace (len <? width) with true by lia; [done|].
  rewrite IH; [done|]. pose proof (u8_range (len + 1)). lia.
Qed.

(** [%#.0x] of zero reads the character in front of the digits. *)
Theorem printf_alt_zero_reads_before :
  vsprintf_internal (chars "%#.0x" ++ [0]) [AWord 0] = PBad /\
  vsprintf_internal (chars "%300d" ++ [0]) [AWord 7] = PLoop.
Proof. by vm_compute. Qed.
