(* ===== verification/Uorb.v ===== *)
(** The uORB library and user sensors.

    Models apps/system/uorb/uORB/uORB.c, the inline functions of uORB.h and
    drivers/sensors/usensor.c on top of the system calls of Files.v, the tree of
    inodes of Inode.v, the sensor upper half of Sensor.v and the formatter of
    Printf.v: a topic is a device below /dev/uorb/ that the library registers
    through the device /dev/usensor when it is opened for the first time.

    The calls are those of one task; what the allocator returns is the list of
    blocks [uw_heap], and a call that gets none fails as the code says. *)

From S2P Require Import Prelude.
From stdpp Require Import gmap list.
From S2P Require Import Circbuf Poll Sensor Inode Files Printf.
Local Open Scope Z_scope.

Definition NAME_MAX : Z := 32.
Definition ORB_PATH_MAX : Z := NAME_MAX + 16.
Definition ORB_USENSOR_PATH : list Z := chars "/dev/usensor".
Definition SENSOR_PERSIST : Z := 2 ^ 30.
Definition SENSOR_REMOTE : Z := 2 ^ 31.
Definition O_DIRECT : Z := 2 ^ 9.

(** The tables of operations of the two drivers. *)
Definition SENSOR_FOPS : Z := 1.
Definition USENSOR_FOPS : Z := 2.

(** ** User sensors *)

(** The lower half of a user sensor; its state is the first character of the name
    in the device information. *)
Definition usensor_get_info (name : Z) : Z * Z := (if name =? 0 then - ENOTTY else 0, name).
Definition usensor_ops : sensor_ops_s Z :=
  mk_ops None None None None None None None None None None None (Some usensor_get_info) None.

(** The tree of inodes, the sensor devices by the address of their upper half,
    the list of user sensors, each with its upper half and its path, and the
    blocks the allocator will return. *)
Record uworld := mk_uw {
  uw_fs : pseudofs;
  uw_devs : gmap Z (dev Z);
  uw_list : list (Z * list Z);
  uw_heap : list Z
}.

Definition set_fs (x : pseudofs) (w : uworld) : uworld := mk_uw x (uw_devs w) (uw_list w) (uw_heap w).
Definition set_devs (x : gmap Z (dev Z)) (w : uworld) : uworld := mk_uw (uw_fs w) x (uw_list w) (uw_heap w).
Definition set_list (x : list (Z * list Z)) (w : uworld) : uworld := mk_uw (uw_fs w) (uw_devs w) x (uw_heap w).
Definition set_heap (x : list Z) (w : uworld) : uworld := mk_uw (uw_fs w) (uw_devs w) (uw_list w) x.

(** [struct sensor_reginfo_s]. *)
Record reginfo := mk_reginfo {
  r_path : list Z;
  r_esize : Z;
  r_nbuffer : Z;
  r_devname : Z;
  r_persist : bool
}.

(** The task that makes the calls: its working directory and list of
    descriptors, whether there is memory for more descriptors, and the block the
    allocator has for the buffers of a topic. *)
Record task := mk_task {
  k_cwd : list Z;
  k_list : Z;
  k_rows : bool;
  k_malloc : Z -> option (list Z)
}.

Section uorb.
Context (K : task).
Let cwd := k_cwd K.
Let l := k_list K.
Let rows := k_rows K.
Let kmalloc := k_malloc K.

(** [sensor_custom_register] with the registration of the driver. *)
Definition custom_register (info : reginfo) (w : uworld) : option (Z * Z * uworld) :=
  let low := mk_lower (r_nbuffer info) (r_persist info) (r_devname info) in
  if r_esize info =? 0 then Some ((sensor_custom_register usensor_ops true true 0 0 low).1, NULL, w)
  else
    match uw_heap w with
    | [] => Some ((sensor_custom_register usensor_ops true false 0 (r_esize info) low).1, NULL, w)
    | upper :: heap =>
        '(reg, fs) ← register_driver true heap cwd (r_path info) SENSOR_FOPS upper (uw_fs w);
        let used := (base.size (inodes fs) - base.size (inodes (uw_fs w)))%nat in
        let w := set_heap (drop used heap) (set_fs fs w) in
        let '(ret, d) := sensor_custom_register usensor_ops true true reg (r_esize info) low in
        Some (ret, upper, match d with Some d => set_devs (<[upper := d]> (uw_devs w)) w | None => w end)
    end.

Definition custom_unregister (upper : Z) (path : list Z) (w : uworld) : option uworld :=
  '(_, fs) ← unregister_driver (fun _ => None) true cwd path (uw_fs w);
  Some (set_devs (delete upper (uw_devs w)) (set_fs fs w)).

(** [lret] is the result of the lock of the list. *)
Definition usensor_register (lret : Z) (info : reginfo) (w : uworld) : option (Z * uworld) :=
  match uw_heap w with
  | [] => Some (- ENOMEM, w)
  | _ :: heap =>
      '(ret, upper, w) ← custom_register info (set_heap heap w);
      if ret <? 0 then Some (ret, w)
      else if lret <? 0 then w ← custom_unregister upper (r_path info) w; Some (lret, w)
      else Some (lret, set_list (uw_list w ++ [(upper, r_path info)]) w)
  end.

Definition usensor_unregister (lret : Z) (path : list Z) (w : uworld) : option (Z * uworld) :=
  if lret <? 0 then Some (lret, w)
  else
    match list_find (fun p => p.2 = path) (uw_list w) with
    | Some (i, (upper, _)) =>
        w ← custom_unregister upper path (set_list (delete i (uw_list w)) w); Some (0, w)
    | None => Some (- ENOENT, w)
    end.

(** ** The drivers behind the system calls *)

(** The file that the sensor driver sees. *)
Definition sensor_file (oflags priv : Z) : file :=
  mk_file (has_flag oflags O_RDONLY) (has_flag oflags O_WRONLY) (has_flag oflags O_NONBLOCK)
    (has_flag oflags O_DIRECT) (has_flag oflags SENSOR_PERSIST) (has_flag oflags SENSOR_REMOTE) priv.

Definition uv_find (path : list Z) (w : uworld) : option (Z * Z * uworld) :=
  '(s, fs) ← inode_find true cwd path (uw_fs w); Some (s_ret s, s_node s, set_fs fs w).

Definition uv_release (i : Z) (w : uworld) : option uworld :=
  fs ← inode_release i (uw_fs w); Some (set_fs fs w).

(** An operation of the driver behind an inode: on the device [d] with the upper
    half [upper], or on /dev/usensor. *)
Definition dispatch {A} (i : Z) (w : uworld) (sensor : Z -> dev Z -> option A) (usensor : option A) :
    option A :=
  n ← inodes (uw_fs w) !! i;
  if i_ops n =? SENSOR_FOPS then d ← uw_devs w !! i_private n; sensor (i_private n) d
  else if i_ops n =? USENSOR_FOPS then usensor
  else None.

(** [inode_checkperm] without users and groups: the two drivers have a method for
    reading, for writing and for ioctl, so that only the first tests are left. *)
Definition uv_checkperm (i oflags : Z) (w : uworld) : Z :=
  match inodes (uw_fs w) !! i with
  | Some n => if i_flags n =? FSNODEFLAG_TYPE_PSEUDODIR then OK
              else if i_ops n =? NULL then - ENXIO else OK
  | None => OK
  end.

(** No path of the library is opened with [O_DIRECTORY], and no driver below
    returns -EISDIR. *)
Definition uv_opendir (f : finfo) (w : uworld) : option (Z * finfo * uworld) := None.

Definition uv_open (i oflags : Z) (w : uworld) : option (Z * Z * uworld) :=
  n ← inodes (uw_fs w) !! i;
  if i_flags n =? FSNODEFLAG_TYPE_DRIVER then
    dispatch i w
      (fun upper d =>
        let put r uid d heap := Some (r, uid, set_heap heap (set_devs (<[upper := d]> (uw_devs w)) w)) in
        match uw_heap w with
        | [] => let '(r, d) := sensor_open usensor_ops false NULL (sensor_file oflags NULL) d in
                put r NULL d []
        | uid :: heap => let '(r, d) := sensor_open usensor_ops true uid (sensor_file oflags NULL) d in
                         put r uid d heap
        end)
      (Some (OK, NULL, w))
  else Some (- ENXIO, NULL, w).

Definition fi_file (f : finfo) : file := sensor_file (fp_oflags f) (fp_priv f).
Definition put_dev (upper : Z) (d : dev Z) (w : uworld) : uworld := set_devs (<[upper := d]> (uw_devs w)) w.

Definition uv_close (f : finfo) (w : uworld) : option (Z * uworld) :=
  dispatch (fp_inode f) w
    (fun upper d => '(r, d) ← sensor_close usensor_ops [] [] (fi_file f) d; Some (r, put_dev upper d w))
    (Some (0, w)).

(** A user sensor has no [fetch], so that no read waits. *)
Definition uv_read (f : finfo) (len : Z) (w : uworld) : option (Z * list Z * uworld) :=
  dispatch (fp_inode f) w
    (fun upper d =>
      '(r, d) ← sensor_read usensor_ops (fi_file f) true len d;
      match r with RRet r data => Some (r, data, put_dev upper d w) | RWait => None end)
    (Some (len, [], w)).

Definition uv_write (f : finfo) (data : list Z) (w : uworld) : option (Z * uworld) :=
  dispatch (fp_inode f) w
    (fun upper d =>
      '(r, d) ← sensor_write (kmalloc (u32 (nbuffer (lower d) * esize (state (Sensor.upper d)))))
                  (kmalloc (u32 (nbuffer (lower d) * TIMING_BUF_ESIZE))) data d;
      Some (r, put_dev upper d w))
    (Some (zlen data, w)).

Definition uorb_ops : vfs_ops uworld := 
  mk_vfs_ops _ uv_find uv_release uv_checkperm uv_opendir uv_open uv_close uv_read uv_write.

Inductive ucmd :=
| SNIOC_REGISTER (lret : Z) (info : reginfo)
| SNIOC_UNREGISTER (lret : Z) (path : list Z)
| SNIOC (cmd : sensor_cmd).

Definition uv_ioctl (c : ucmd) (f : finfo) (w : uworld) : option (Z * ioctl_out * uworld) :=
  dispatch (fp_inode f) w
    (fun upper d =>
      match c with
      | SNIOC cmd =>
          '(r, o, d) ← sensor_ioctl usensor_ops [] (fi_file f) cmd d; Some (r, o, put_dev upper d w)
      | _ => Some (- ENOTTY, OutNone, w)
      end)
    (match c with
     | SNIOC_REGISTER lret info => '(r, w) ← usensor_register lret info w; Some (r, OutNone, w)
     | SNIOC_UNREGISTER lret path => '(r, w) ← usensor_unregister lret path w; Some (r, OutNone, w)
     | SNIOC _ => Some (- ENOTTY, OutNone, w)
     end).

(** [usensor_initialize]; the result of the registration. *)
Definition usensor_initialize (w : uworld) : option (Z * uworld) :=
  match uw_heap w with
  | [] => Some (- ENOMEM, w)
  | usensor :: heap =>
      '(ret, fs) ← register_driver true heap cwd ORB_USENSOR_PATH USENSOR_FOPS usensor (uw_fs w);
      let used := (base.size (inodes fs) - base.size (inodes (uw_fs w)))%nat in
      Some (ret, set_heap (drop used heap) (set_fs fs w))
  end.

(** ** System calls of the task *)

Record sys := mk_sys { sys_vfs : vfs uworld; sys_errno : Z }.

Definition U (A : Type) : Type := sys -> option (A * sys).
#[local] Instance U_ret : MRet U := fun A a s => Some (a, s).
#[local] Instance U_bind : MBind U := fun A B k m s =>
  match m s with Some (a, s) => k a s | None => None end.

(** A negative result becomes -1 and the error number. *)
Definition result {A} (f : A -> Z) (g : Z -> A -> A) (m : vfs uworld -> option (A * vfs uworld)) : U A :=
  fun s =>
    '(a, v) ← m (sys_vfs s);
    Some (if f a <? 0 then (g (-1) a, mk_sys v (- f a)) else (a, mk_sys v (sys_errno s))).
Definition int_result : (vfs uworld -> option (Z * vfs uworld)) -> U Z := result id (fun r _ => r).

Definition open (path : list Z) (oflags : Z) : U Z :=
  int_result (fun v =>
    let w := world v in
    match uw_heap w with
    | [] => nx_vopen uorb_ops rows None l path oflags v
    | a :: heap => nx_vopen uorb_ops rows (Some a) l path oflags (Files.with_world v (set_heap heap w))
    end).
Definition close (fd : Z) : U Z := int_result (fdlist_close uorb_ops l fd).
Definition ioctl (fd : Z) (c : ucmd) : U (Z * ioctl_out) :=
  result fst (fun r a => (r, a.2)) (nx_ioctl uorb_ops OutNone (uv_ioctl c) l fd).
Definition write (fd : Z) (data : list Z) : U Z := int_result (nx_write uorb_ops l fd data).
(** [buf] is false for a null pointer. *)
Definition read (fd : Z) (buf : bool) (len : Z) : U (Z * list Z) :=
  result fst (fun r a => (r, a.2)) (nx_read uorb_ops l fd buf len).
Definition get_errno : U Z := fun s => Some (sys_errno s, s).
Definition undef {A} : U A := fun _ => None.
Definition lift {A} (o : option A) : U A := fun s => a ← o; Some (a, s).

(** ** The library *)

(** [o_addr] is the address of the description, which the driver keeps. *)
Record orb_metadata := mk_meta { o_addr : Z; o_name : list Z; o_size : Z }.

(** [snprintf] of the path of a topic into [ORB_PATH_MAX] characters. *)
Definition orb_path (name : list Z) (instance : Z) : option (list Z) :=
  match vsprintf_internal (chars "/dev/uorb/%s%d" ++ [0]) [AStr (Some name); AWord instance] with
  | POk t => Some (take (Z.to_nat (ORB_PATH_MAX - 1)) t)
  | _ => None
  end.
Definition path_of (name : list Z) (instance : Z) : U (list Z) := lift (orb_path name instance).

(** What [strlcpy] leaves in [reginfo.path], and the rest of the request;
    [junk] is in the device information, which is not set. *)
Definition reginfo_of (junk : Z) (meta : orb_metadata) (path : list Z) (flags queue_size : Z) : reginfo :=
  mk_reginfo (take (Z.to_nat (NAME_MAX - 1)) path) (o_size meta) queue_size junk
    (has_flag flags SENSOR_PERSIST).

Definition orb_advsub_open (junk lret : Z) (meta : orb_metadata) (flags instance queue_size : Z) : U Z :=
  path ← path_of (o_name meta) instance;
  let flags := Z.lor flags O_CLOEXEC in
  let finish fd : U Z :=
    (if queue_size =? 0 then mret () else ioctl fd (SNIOC (SNIOC_SET_BUFFER_NUMBER queue_size));; mret ());;
    mret fd in
  fd ← open path flags;
  if 0 <=? fd then finish fd
  else
    fd ← open ORB_USENSOR_PATH O_WRONLY;
    if fd <? 0 then mret fd
    else
      '(ret, _) ← ioctl fd (SNIOC_REGISTER lret (reginfo_of junk meta path flags queue_size));
      err ← get_errno;
      close fd;;
      if (ret <? 0) && negb (err =? EEXIST) then mret ret
      else
        fd ← open path flags;
        if fd <? 0 then mret fd
        else
          (if err =? EEXIST then mret () else ioctl fd (SNIOC (SNIOC_SET_USERPRIV (o_addr meta)));; mret ());;
          finish fd.

Definition orb_publish_multi (fd : Z) (data : list Z) : U Z := write fd data.
Definition orb_copy_multi (fd : Z) (buf : bool) (len : Z) : U (Z * list Z) := read fd buf len.
Definition orb_close (fd : Z) : U Z := close fd.
Definition orb_ioctl (fd : Z) (c : ucmd) : U (Z * ioctl_out) := ioctl fd c.

Definition orb_open (name : list Z) (instance flags : Z) : U Z :=
  path ← path_of name instance; open path (Z.lor O_CLOEXEC flags).

Definition orb_exists (meta : orb_metadata) (instance : Z) : U Z :=
  path ← path_of (o_name meta) instance;
  fd ← open path 0;
  if fd <? 0 then mret (-1)
  else
    '(ret, o) ← ioctl fd (SNIOC SNIOC_GET_STATE);
    close fd;;
    if ret <? 0 then mret (-1)
    else match o with OutState s => mret (if 0 <? nadvertisers s then 0 else -1) | _ => undef end.

(** The loop of [orb_group_count]: a round for every instance there is; [None]
    when the paths do not tell the instances apart. *)
Fixpoint group_count_loop (fuel : nat) (meta : orb_metadata) (instance : Z) : U Z :=
  match fuel with
  | O => undef
  | S fuel =>
      r ← orb_exists meta instance;
      if r =? 0 then group_count_loop fuel meta (u32 (instance + 1)) else mret (s32 instance)
  end.
Definition orb_group_count (meta : orb_metadata) : U Z := fun s =>
  group_count_loop (S (base.size (uw_devs (world (sys_vfs s))))) meta 0 s.

Definition orb_advertise_multi_queue_flags (junk lret : Z) (meta : orb_metadata)
    (data : option (list Z)) (instance : option Z) (queue_size flags : Z) : U Z :=
  inst ← match instance with Some i => mret i | None => orb_group_count meta end;
  fd ← orb_advsub_open junk lret meta flags inst queue_size;
  if fd <? 0 then mret (-1)
  else
    match data with
    | None => mret fd
    | Some data =>
        data ← lift (loads data 0 (o_size meta));
        ret ← orb_publish_multi fd data;
        if ret =? o_size meta then mret fd else close fd;; mret (-1)
    end.
Definition orb_advertise_multi_queue junk lret meta data instance queue_size : U Z :=
  orb_advertise_multi_queue_flags junk lret meta data instance queue_size O_WRONLY.
Definition orb_advertise_multi_queue_persist junk lret meta data instance queue_size : U Z :=
  orb_advertise_multi_queue_flags junk lret meta data instance queue_size (Z.lor O_WRONLY SENSOR_PERSIST).
Definition orb_advertise junk lret meta data : U Z :=
  orb_advertise_multi_queue junk lret meta data (Some 0) 1.
Definition orb_advertise_queue junk lret meta data queue_size : U Z :=
  orb_advertise_multi_queue junk lret meta data (Some 0) queue_size.
Definition orb_advertise_multi junk lret meta data instance : U Z :=
  orb_advertise_multi_queue junk lret meta data instance 1.
Definition orb_unadvertise (fd : Z) : U Z := orb_close fd.
Definition orb_unsubscribe (fd : Z) : U Z := orb_close fd.
Definition orb_subscribe_multi (junk lret : Z) (meta : orb_metadata) (instance : Z) : U Z :=
  orb_advsub_open junk lret meta O_RDONLY instance 0.
Definition orb_subscribe (junk lret : Z) (meta : orb_metadata) : U Z := orb_subscribe_multi junk lret meta 0.

Definition orb_publish (meta : orb_metadata) (fd : Z) (data : list Z) : U Z :=
  data ← lift (loads data 0 (o_size meta));
  ret ← orb_publish_multi fd data;
  mret (if ret =? o_size meta then 0 else -1).
(** [fd] is what the caller's variable holds, [None] for a null pointer; the
    second result is what it holds afterwards. *)
Definition orb_publish_auto (junk lret : Z) (meta : orb_metadata) (fd : option Z) (data : list Z)
    (instance : option Z) : U (Z * option Z) :=
  match fd with
  | Some (Zpos _ as x) | Some (Zneg _ as x) => r ← orb_publish meta x data; mret (r, fd)
  | _ =>
      tmp ← orb_advertise_multi_queue_persist junk lret meta (Some data) instance 1;
      if tmp <? 0 then mret (tmp, fd)
      else match fd with
           | Some _ => mret (tmp, Some tmp)
           | None => r ← orb_close tmp; mret (r, None)
           end
  end.
Definition orb_copy (meta : orb_metadata) (fd : Z) (buf : bool) : U (Z * list Z) :=
  '(ret, data) ← orb_copy_multi fd buf (o_size meta);
  mret (if ret =? o_size meta then 0 else -1, data).

(** [struct orb_state]. *)
Record orb_state := mk_orb_state {
  max_frequency : Z;
  min_batch_interval : Z;
  queue_size : Z;
  o_nsubscribers : Z;
  o_generation : Z
}.

Definition frequency_of (interval : Z) : Z := if interval =? 0 then 0 else 1000000 / interval.

(** The state as the driver stored it, for a call that did not fail. *)
Definition get_state {A} (fd : Z) (none : A) (f : sensor_state_s -> A) : U (Z * A) :=
  '(ret, o) ← ioctl fd (SNIOC SNIOC_GET_STATE);
  if ret <? 0 then mret (ret, none)
  else match o with OutState s => mret (ret, f s) | _ => undef end.

(** [state] is false for a null pointer. *)
Definition orb_get_state (fd : Z) (state : bool) : U (Z * option orb_state) :=
  if negb state then mret (- EINVAL, None)
  else get_state fd None (fun s => Some (mk_orb_state (frequency_of (min_interval s)) (min_latency s)
         (s_nbuffer s) (nsubscribers s) (generation s))).

Definition orb_check (fd : Z) : U (Z * ioctl_out) := ioctl fd (SNIOC SNIOC_UPDATED).
Definition orb_set_interval (fd interval : Z) : U (Z * ioctl_out) :=
  ioctl fd (SNIOC (SNIOC_SET_INTERVAL interval)).
Definition orb_set_frequency (fd frequency : Z) : U (Z * ioctl_out) :=
  orb_set_interval fd (frequency_of frequency).
Definition orb_set_batch_interval (fd interval : Z) : U (Z * ioctl_out) :=
  ioctl fd (SNIOC (SNIOC_BATCH interval)).
Definition orb_get_interval (fd : Z) : U (Z * option Z) := get_state fd None (fun s => Some (min_interval s)).
Definition orb_get_frequency (fd : Z) : U (Z * option Z) :=
  '(ret, interval) ← orb_get_interval fd;
  if ret <? 0 then mret (ret, None)
  else match interval with Some i => mret (0, Some (frequency_of i)) | None => undef end.
Definition orb_get_batch_interval (fd : Z) : U (Z * option Z) :=
  get_state fd None (fun s => Some (min_latency s)).
End uorb.
