(* ===== verification/UorbWorld.v ===== *)
(** The world below the uORB library: paths of topics, the name space, the
    sensor devices and the descriptors together.

    [wrel] relates the tree of inodes, the devices and the supply of memory of
    Uorb.v to a map of topics, each with its node, its device and the history of
    its samples, and the lemmas say what the operations of the drivers and the
    system calls do to it, from the theorems about the name space
    (Namespace.v), the devices (Topic.v) and the descriptors (Descriptors.v). *)

From S2P Require Import Prelude.
From stdpp Require Import gmap list.
From S2P Require Import Circbuf Poll Sensor Topic Inode Namespace Files Descriptors Printf PrintfSpec Uorb.
Local Open Scope Z_scope.

(** ** Paths *)

(** The format [%d] of an instance. *)
Definition d_spec : ispec := mk_ispec false false false false false None None LNone Cd.

Lemma d_text fuel i : 0 <= i < 2 ^ 31 -> (3 <= fuel)%nat ->
  exists ds, vsprintf_loop fuel [37; 100; 0] [AWord i] = POk ds /\ numeral 10 false i ds.
Proof.
  intros Hi Hf. destruct (vsprintf_loop_ok [DInt d_spec] [AWord i]) with (fuel := fuel) as (t & E & Ht); [|done|].
  { apply (do_int d_spec i); [done|apply do_nil]. }
  exists t. split; [done|]. inversion Ht as [| |s z ds a t1 t2 Hi1 Ht2 Es Ea]; subst.
  inversion Ht2; subst. unfold int_text in Hi1.
  assert (arg_value d_spec i = i) as Ha by (unfold arg_value; simpl; zlia).
  rewrite Ha in Hi1. destruct Hi1 as (ds & -> & Hn).
  simpl in Hn. rewrite Z.abs_eq in Hn by lia. unfold int_layout. simpl.
  rewrite (proj2 (Z.ltb_ge i 0)) by lia. rewrite (zeros_nil (0 - zlen ds)) by lia. simpl.
  assert (spaces (0 - zlen ds) = []) as -> by (unfold spaces; by replace (Z.to_nat (0 - zlen ds)) with O by lia).
  simpl. by rewrite app_nil_r.
Qed.

Lemma loop_chars l fuel fmt a : Forall (fun c => c <> 0 /\ c <> 37) l ->
  vsprintf_loop (length l + fuel) (l ++ fmt) a = (o ← vsprintf_loop fuel fmt a; POk (l ++ o)).
Proof.
  induction 1 as [|c l [H0 H37] _ IH]; cbn [app length Nat.add].
  - by destruct (vsprintf_loop fuel fmt a).
  - cbn [vsprintf_loop]. apply Z.eqb_neq in H0, H37. rewrite H0, H37, IH. by destruct (vsprintf_loop fuel fmt a).
Qed.

Lemma s_text fuel name fmt a :
  vsprintf_loop (S fuel) (37 :: 115 :: fmt) (AStr (Some name) :: a) = (o ← vsprintf_loop fuel fmt a; POk (name ++ o)).
Proof.
  assert (emit_str 0 0 name = name) as E.
  { unfold emit_str. change (has_flag 0 FL_LPAD) with false. cbv iota.
    rewrite (proj2 (Z.ltb_ge (zlen name) 0)) by lia. replace (if _ <=? 0 - 0 then 0 - 0 - zlen name else 0) with 0; [by rewrite app_nil_r|].
    destruct (zlen name <=? 0 - 0) eqn:E; zlia. }
  cbn [vsprintf_loop]. change (37 =? 0) with false. change (37 =? 37) with true. change (115 =? 37) with false.
  cbv iota. assert (parse_spec 115 fmt 0 0 0 (AStr (Some name) :: a) =
    POk (Some (115, fmt, 0, 0, 0, AStr (Some name) :: a))) as -> by (by destruct fmt).
  cbn [mbind pres_bind]. change (conv 115 0 0 0 _) with (POk (emit_str 0 0 name, a)). by rewrite E.
Qed.

Lemma orb_path_text name i : 0 <= i < 2 ^ 31 ->
  exists ds, orb_path name i = Some (take (Z.to_nat (ORB_PATH_MAX - 1)) (chars "/dev/uorb/" ++ name ++ ds)) /\
    numeral 10 false i ds.
Proof.
  intros Hi. destruct (d_text 4 i Hi ltac:(lia)) as (ds & E & Hn). exists ds. split; [|done].
  unfold orb_path, vsprintf_internal.
  change (chars "/dev/uorb/%s%d" ++ [0]) with (chars "/dev/uorb/" ++ 37 :: 115 :: [37; 100; 0]).
  change (length _) with (length (chars "/dev/uorb/") + 5)%nat.
  rewrite loop_chars by (repeat constructor; done). rewrite s_text, E. done.
Qed.

(** A topic's node in /dev/uorb. *)
Definition topic_path (nm : list Z) : list Z := chars "/dev/uorb/" ++ nm.
Definition topic_names (nm : list Z) : list (list Z) := [chars "dev"; chars "uorb"; nm].
Definition usensor_names : list (list Z) := [chars "dev"; chars "usensor"].

Lemma skip_no_slash nm : Forall (fun c => c <> SLASH) nm -> skip_name nm = [].
Proof. induction 1 as [|c nm Hc _ IH]; simpl; [done|]. by rewrite (proj2 (Z.eqb_neq _ _) Hc). Qed.
Lemma namecpy_no_slash nm : Forall (fun c => c <> SLASH) nm -> inode_namecpy nm = nm.
Proof. induction 1 as [|c nm Hc _ IH]; simpl; [done|]. by rewrite (proj2 (Z.eqb_neq _ _) Hc), IH. Qed.

Lemma nextname_last nm : Forall (fun c => c <> SLASH) nm -> inode_nextname nm = [].
Proof.
  intros H. unfold inode_nextname. pose proof (skip_no_slash nm H) as E.
  destruct (length nm); simpl; by rewrite E.
Qed.
Lemma nextname_name nm x l : name_ok nm -> skip_slash (skip_name x) = nm -> l = length x ->
  nextname_loop l x = nm.
Proof.
  intros [Hne Hns] E ->. destruct (length x); simpl; rewrite E; [done|].
  destruct nm as [|c1 [|c2 nm]]; try done. apply Forall_cons in Hns as [_ [H2 _]%Forall_cons].
  by rewrite (proj2 (Z.eqb_neq _ _) H2), andb_false_r.
Qed.

Lemma topic_path_names cwd nm : name_ok nm -> names (full_path cwd (topic_path nm)) = topic_names nm.
Proof.
  intros Hnm. change (full_path cwd (topic_path nm)) with (topic_path nm). unfold names.
  change (inode_nextname (topic_path nm)) with (chars "dev/uorb/" ++ nm).
  rewrite segs_cons by done. change (inode_namecpy _) with (chars "dev").
  change (inode_nextname _) with (chars "uorb/" ++ nm).
  rewrite segs_cons by done. change (inode_namecpy _) with (chars "uorb").
  assert (skip_slash nm = nm) as Es.
  { destruct Hnm as [_ Hns]. destruct nm as [|c nm]; [done|]. apply Forall_cons in Hns as [Hc _]. simpl.
    by rewrite (proj2 (Z.eqb_neq _ _) Hc). }
  assert (inode_nextname (chars "uorb/" ++ nm) = nm) as -> by (by apply nextname_name).
  destruct Hnm as [Hne Hns].
  by rewrite segs_cons, nextname_last, namecpy_no_slash.
Qed.

Lemma topic_path_ok cwd nm : name_ok nm -> path_ok cwd (topic_path nm).
Proof. intros H. split; [done|]. split; [done|]. by rewrite topic_path_names. Qed.

Lemma usensor_path_names cwd : names (full_path cwd ORB_USENSOR_PATH) = usensor_names.
Proof. reflexivity. Qed.
Lemma usensor_path_ok cwd : path_ok cwd ORB_USENSOR_PATH.
Proof. done. Qed.

(** The node of an instance of a topic. *)
Definition node (name : list Z) (i : Z) : list Z := drop 10 (default [] (orb_path name i)).
#[global] Arguments node : simpl never.

Lemma numeral_no_slash i ds : numeral 10 false i ds -> name_ok ds.
Proof.
  intros (vs & -> & Hv & _ & Hne & _). split; [by destruct vs|].
  induction Hv as [|v vs Hv _ IH]; simpl; [constructor|]. destruct vs as [|v' vs].
  - repeat constructor. unfold digit_char, SLASH. destruct (v <=? 9) eqn:E; lia.
  - constructor; [unfold digit_char, SLASH; destruct (v <=? 9) eqn:E; lia|by apply IH].
Qed.

Lemma orb_path_node name i : Forall (fun c => c <> SLASH) name -> 0 <= i < 2 ^ 31 ->
  orb_path name i = Some (topic_path (node name i)) /\ name_ok (node name i).
Proof.
  intros Hn Hi. destruct (orb_path_text name i Hi) as (ds & E & [Hne Hds]%numeral_no_slash).
  assert (node name i = take 37 (name ++ ds)) as En by (unfold node; by rewrite E).
  rewrite En. split; [by rewrite E|]. split; [|by apply Forall_take, Forall_app].
  destruct name; [by destruct ds|done].
Qed.

(** ** Blocks taken by a registration *)

Lemma heap_upd_dom a f (h h' : gmap Z inode) : heap_upd a f h = Some h' -> dom h' = dom h.
Proof.
  unfold heap_upd. destruct (h !! a) as [i|] eqn:E; [|done]. intros [= <-]. apply dom_insert_lookup_L. by exists i.
Qed.

Lemma insert_dom a left parent h h' : inode_insert a left parent h = Some h' -> dom h' = dom h.
Proof.
  unfold inode_insert. destruct (negb _).
  - destruct (h !! left) as [p|]; [|done]. simpl. destruct (heap_upd a _ h) as [h1|] eqn:E1; [|done]. simpl.
    intros E2. by rewrite (heap_upd_dom _ _ _ _ E2), (heap_upd_dom _ _ _ _ E1).
  - destruct (h !! parent) as [p|]; [|done]. simpl. destruct (heap_upd a _ h) as [h1|] eqn:E1; [|done]. simpl.
    intros E2. by rewrite (heap_upd_dom _ _ _ _ E2), (heap_upd_dom _ _ _ _ E1).
Qed.

Lemma reserve_loop_dom fuel mem : forall name left parent fs ret a fs',
  name <> [] -> reserve_loop fuel mem name left parent fs = Some (ret, a, fs') ->
  exists k, dom (inodes fs') = list_to_set (take k mem) ∪ dom (inodes fs) /\
    (k <= length mem)%nat /\ (k <= length (segs name))%nat.
Proof.
  revert mem. induction fuel as [|fuel IH]; intros [|b mem] name left parent fs ret a fs' Hne; cbn [reserve_loop]; try done.
  { intros [= _ _ <-]. exists O. split; [simpl; set_solver|simpl; lia]. }
  destruct (inode_insert b left parent _) as [h|] eqn:E; [|done]. cbn [mbind option_bind].
  apply insert_dom in E. cbn [inode_alloc inodes] in E. rewrite dom_insert_L in E. rewrite (segs_cons name Hne).
  destruct (inode_nextname name) as [|c nm].
  - intros [= _ _ <-]. exists 1%nat. simpl. rewrite E. split; [set_solver|lia].
  - intros (k & Hk & Hle)%IH; [|done]. exists (S k). simpl in *. rewrite Hk, E. split; [set_solver|lia].
Qed.

Lemma register_dom mem cwd path ops priv fs ret fs' rdat t :
  fs_ok fs rdat t -> path_ok cwd path ->
  register_driver true mem cwd path ops priv fs = Some (ret, fs') ->
  exists k, dom (inodes fs') = list_to_set (take k mem) ∪ dom (inodes fs) /\
    (k <= length mem)%nat /\ (k <= length (names (full_path cwd path)))%nat.
Proof.
  intros Hfs (Hp & Hab & HQ). unfold register_driver, inode_reserve. destruct path as [|c path]; [done|].
  destruct (search_spec fs rdat t cwd (c :: path) Hfs Hab HQ) as (s & C & u & -> & _ & _ & _ & Hs).
  cbn [mbind option_bind].
  destruct (Z.leb_spec 0 (s_ret s)). { simpl. intros [= _ <-]. exists O. split; [simpl; set_solver|lia]. }
  destruct (find t _) as [[[? ?] ?]|]; [destruct Hs as [Hr _]; rewrite Hr in *; done|].
  destruct Hs as (_ & _ & Hne & _ & ->%route_path & _). rewrite length_app.
  destruct (reserve_loop _ mem _ _ _ fs) as [[[r a] fs1]|] eqn:E; [|done]. cbn [mbind option_bind].
  apply reserve_loop_dom in E as (k & Hk & Hle & Hl); [|done].
  destruct (0 <=? r); [|intros [= _ <-]; exists k; split; [done|lia]].
  destruct (heap_upd a _ _) as [h|] eqn:Eh; [|done]. simpl. intros [= _ <-]. exists k. simpl.
  rewrite (heap_upd_dom _ _ _ _ Eh). split; [done|lia].
Qed.

Lemma register_used mem cwd path ops priv fs ret fs' rdat t :
  fs_ok fs rdat t -> path_ok cwd path ->
  register_driver true mem cwd path ops priv fs = Some (ret, fs') ->
  NoDup mem -> (forall a, a ∈ mem -> inodes fs !! a = None) ->
  let used := (base.size (inodes fs') - base.size (inodes fs))%nat in
  dom (inodes fs') = list_to_set (take used mem) ∪ dom (inodes fs) /\ (used <= length (names (full_path cwd path)))%nat.
Proof.
  intros Hfs Hp E Hnd Hnew used. destruct (register_dom _ _ _ _ _ _ _ _ _ _ Hfs Hp E) as (k & Hk & Hle & Hl).
  enough (used = k) as -> by done. unfold used.
  rewrite <- !size_dom, Hk, size_union, size_list_to_set, length_take; [lia|..].
  - eapply sublist_NoDup; [exact Hnd|apply sublist_take].
  - intros a Ha%elem_of_list_to_set [i Hi]%elem_of_dom. apply elem_of_take in Ha as (j & Hj & _).
    apply list_elem_of_lookup_2 in Hj. by rewrite Hnew in Hi.
Qed.

(** The inode of a driver. *)
Lemma driver_fields fs rdat t f r path a ops priv :
  nrel fs rdat t (mk_nspec f r) -> path_ok [] path ->
  f (names (full_path [] path)) = Some (a, Some (ops, priv)) ->
  exists i, inodes fs !! a = Some i /\ i_flags i = FSNODEFLAG_TYPE_DRIVER /\ i_ops i = ops /\ i_private i = priv.
Proof.
  intros Hrel (_ & Hab & HQ) Hf.
  destruct (sp_find_some _ _ _ _ _ _ _ Hrel Hf) as (dat & Hfi & _ & _ & Hv).
  destruct (search_spec fs rdat t [] path (nr_fs _ _ _ _ Hrel) Hab HQ) as (s & C & u & _ & Ht & _ & _ & Hs).
  rewrite Hfi in Hs. destruct Hs as (_ & _ & _ & n & peer & child & -> & _).
  pose proof (fo_rep _ _ _ (nr_fs _ _ _ _ Hrel)) as (_ & _ & Hrep). rewrite <- Ht in Hrep.
  apply rep_plug in Hrep as [_ (Ha & _)]. eexists. split; [exact Ha|]. simpl.
  destruct (Z.eqb_spec (d_flags dat) FSNODEFLAG_TYPE_DRIVER) as [E|]; [|done]. injection Hv as -> ->. done.
Qed.

(** ** The world *)

(** A topic: its node and device, its samples and the positions of its users. *)
Record topic := mk_topic {
  n_inode : Z;
  n_upper : Z;
  n_esize : Z;
  n_queue : nat;
  n_spec : tspec
}.

(** The names of /dev/usensor and the topics. *)
Definition ns_view (iu : Z) (f : list (list Z) -> option (Z * option (Z * Z))) (G : gmap (list Z) topic) : Prop :=
  (exists pu, f usensor_names = Some (iu, Some (USENSOR_FOPS, pu))) /\
  forall nm, name_ok nm ->
    f (topic_names nm) = (fun n => (n_inode n, Some (SENSOR_FOPS, n_upper n))) <$> G !! nm.

(** [R] counts the references to the nodes, [iu] is the node of /dev/usensor.
    The blocks of the supply are in no use. *)
Record wrel (iu : Z) (w : uworld) (R : Z -> nat) (G : gmap (list Z) topic) : Prop := {
  w_ns : exists rdat t f, nrel (uw_fs w) rdat t (mk_nspec f R) /\
    ns_view iu f G /\ Forall (fresh (g_root_inode (uw_fs w)) (mk_nspec f R)) (uw_heap w);
  w_name : forall nm n, G !! nm = Some n -> name_ok nm;
  w_dev : forall nm n, G !! nm = Some n ->
    exists d gens, uw_devs w !! n_upper n = Some d /\ trel (n_esize n) (n_queue n) d (n_spec n) gens;
  w_upper : forall nm1 nm2 n1 n2, G !! nm1 = Some n1 -> G !! nm2 = Some n2 -> n_upper n1 = n_upper n2 -> nm1 = nm2;
  w_nodup : NoDup (uw_heap w);
  w_fresh : forall a, a ∈ uw_heap w ->
    uw_devs w !! a = None /\ forall nm n, G !! nm = Some n -> t_pos (n_spec n) !! a = None
}.

Lemma set_fs_id w : set_fs (uw_fs w) w = w.
Proof. by destruct w. Qed.

(** A node of the name space gets or loses a reference. *)
Lemma wrel_refs iu w R G fs R' rdat t f t' :
  wrel iu w R G -> nrel (uw_fs w) rdat t (mk_nspec f R) ->
  nrel fs rdat t' (mk_nspec f R') -> g_root_inode fs = g_root_inode (uw_fs w) ->
  (forall a, R a = O -> (forall q x, f q = Some x -> fst x <> a) -> R' a = O) ->
  ns_view iu f G ->
  Forall (fresh (g_root_inode (uw_fs w)) (mk_nspec f R)) (uw_heap w) ->
  wrel iu (set_fs fs w) R' G.
Proof.
  intros [] _ Hn Hroot HR Hu Hf. constructor; try done. exists rdat, t', f. simpl.
  split; [done|]. split; [done|]. rewrite Hroot. eapply Forall_impl; [exact Hf|].
  intros a (H1 & H2 & H3 & H4). split; [done|]. split; [done|]. split; [|done]. simpl in *. by apply HR.
Qed.

Lemma find_node K iu w R G path :
  wrel iu w R G -> path_ok (k_cwd K) path ->
  exists f, ns_view iu f G /\
    match f (names (full_path (k_cwd K) path)) with
    | None => uv_find K path w = Some (- ENOENT, NULL, w)
    | Some (a, _) => exists w', uv_find K path w = Some (OK, a, w') /\ wrel iu w' (add_ref R a) G /\
                       uw_heap w' = uw_heap w
    end.
Proof.
  intros Hw Hp. destruct (w_ns _ _ _ _ Hw) as (rdat & t & f & Hn & Hu & Hf). exists f.
  split; [done|]. pose proof (find_step (k_cwd K) _ rdat t f R path Hn Hp) as Hs.
  unfold uv_find. destruct (f (names (full_path (k_cwd K) path))) as [[a v]|] eqn:Ef.
  - destruct Hs as (s & fs' & t' & -> & Er & Es & Hn' & Hroot). simpl. rewrite Er, Es. eexists. split; [reflexivity|].
    split; [|done]. eapply wrel_refs; try done. intros b Hb Hnb. unfold add_ref. rewrite decide_False; [done|].
    intros ->. by apply (Hnb _ _ Ef).
  - destruct Hs as (s & -> & Er & Es). simpl. by rewrite Er, Es, set_fs_id.
Qed.

Lemma find_topic K iu w R G nm :
  wrel iu w R G -> name_ok nm ->
  match G !! nm with
  | None => uv_find K (topic_path nm) w = Some (- ENOENT, NULL, w)
  | Some n => exists w', uv_find K (topic_path nm) w = Some (OK, n_inode n, w') /\
      wrel iu w' (add_ref R (n_inode n)) G /\ uw_heap w' = uw_heap w
  end.
Proof.
  intros Hw Hnm. destruct (find_node K iu w R G _ Hw (topic_path_ok _ nm Hnm)) as (f & [_ Ht] & H).
  rewrite topic_path_names, Ht in H by done. by destruct (G !! nm).
Qed.

Lemma find_usensor K iu w R G :
  wrel iu w R G ->
  exists w', uv_find K ORB_USENSOR_PATH w = Some (OK, iu, w') /\ wrel iu w' (add_ref R iu) G /\
    uw_heap w' = uw_heap w.
Proof.
  intros Hw. destruct (find_node K iu w R G _ Hw (usensor_path_ok _)) as (f & [[pu Hu] _] & H).
  by rewrite usensor_path_names, Hu in H.
Qed.

Lemma release_node iu w R G a :
  wrel iu w R G -> (0 < R a)%nat ->
  exists w', uv_release a w = Some w' /\ wrel iu w' (del_ref R a) G /\ uw_heap w' = uw_heap w.
Proof.
  intros Hw Ha. destruct (w_ns _ _ _ _ Hw) as (rdat & t & f & Hn & Hu & Hf).
  destruct (release_step _ rdat t f R a Hn Ha) as (fs' & t' & E & Hn' & Hroot).
  unfold uv_release. rewrite E. simpl. eexists. split; [reflexivity|]. split; [|done].
  eapply wrel_refs; try done. intros b Hb _. unfold del_ref. case_decide; [|done]. by rewrite Hb.
Qed.

(** ** Devices *)

Lemma topic_dev iu w R G nm n :
  wrel iu w R G -> G !! nm = Some n ->
  exists d gens i, inodes (uw_fs w) !! n_inode n = Some i /\ i_flags i = FSNODEFLAG_TYPE_DRIVER /\
    trel (n_esize n) (n_queue n) d (n_spec n) gens /\
    forall A (s : Z -> dev Z -> option A) u, dispatch (n_inode n) w s u = s (n_upper n) d.
Proof.
  intros Hw Hn. destruct (w_ns _ _ _ _ Hw) as (rdat & t & f & Hr & [_ Ht] & _).
  pose proof (w_name _ _ _ _ Hw _ _ Hn) as Hnm. destruct (w_dev _ _ _ _ Hw _ _ Hn) as (d & gens & Hd & Hrel).
  destruct (driver_fields _ rdat t f R (topic_path nm) (n_inode n) SENSOR_FOPS (n_upper n) Hr) as (i & Hi & Hfl & Ho & Hp).
  { by apply topic_path_ok. }
  { rewrite topic_path_names, Ht by done. by rewrite Hn. }
  exists d, gens, i. split; [done|]. split; [done|]. split; [done|]. intros A s u. unfold dispatch.
  rewrite Hi. simpl. rewrite Ho, Hp. simpl. by rewrite Hd.
Qed.

Lemma usensor_dev iu w R G :
  wrel iu w R G ->
  exists i, inodes (uw_fs w) !! iu = Some i /\ i_flags i = FSNODEFLAG_TYPE_DRIVER /\
    forall A (s : Z -> dev Z -> option A) u, dispatch iu w s u = u.
Proof.
  intros Hw. destruct (w_ns _ _ _ _ Hw) as (rdat & t & f & Hr & [[pu Hu] _] & _).
  destruct (driver_fields _ rdat t f R ORB_USENSOR_PATH iu USENSOR_FOPS pu Hr) as (i & Hi & Hfl & Ho & Hp); [done..|].
  exists i. split; [done|]. split; [done|]. intros A s u. unfold dispatch. rewrite Hi. simpl. by rewrite Ho.
Qed.

Definition with_spec (n : topic) (s : tspec) : topic := mk_topic (n_inode n) (n_upper n) (n_esize n) (n_queue n) s.
Definition with_queue (n : topic) (q : nat) : topic := mk_topic (n_inode n) (n_upper n) (n_esize n) q (n_spec n).

(** The device of a topic changes. *)
Lemma wrel_dev iu w R G nm n n' d gens :
  wrel iu w R G -> G !! nm = Some n -> n_inode n' = n_inode n -> n_upper n' = n_upper n ->
  trel (n_esize n') (n_queue n') d (n_spec n') gens ->
  (forall a, a ∈ uw_heap w -> t_pos (n_spec n') !! a = None) ->
  wrel iu (put_dev (n_upper n) d w) R (<[nm := n']> G).
Proof.
  intros Hw Hn Hi Hu Hrel Hpos. pose proof Hw as [Hns Hname Hdev Hinj Hnd Hfr].
  assert (forall nm1 n1, <[nm := n']> G !! nm1 = Some n1 -> exists n2, G !! nm1 = Some n2 /\ n_upper n1 = n_upper n2) as Hold.
  { intros nm1 n1. rewrite lookup_insert_Some. intros [[<- <-]|[_ H]]; eauto. }
  constructor; simpl; try done.
  - destruct Hns as (rdat & t & f & H1 & [H2 H3] & H4). exists rdat, t, f. split; [done|].
    split; [|done]. split; [done|]. intros nm1 Hnm1. rewrite H3 by done. destruct (decide (nm1 = nm)) as [->|Hne].
    + rewrite lookup_insert_eq, Hn. simpl. by rewrite Hi, Hu.
    + by rewrite lookup_insert_ne.
  - intros nm1 n1 (n2 & H & _)%Hold. by eapply Hname.
  - intros nm1 n1. rewrite lookup_insert_Some. intros [[<- <-]|[Hne H]].
    + exists d, gens. by rewrite Hu, lookup_insert_eq.
    + destruct (Hdev _ _ H) as (d1 & gens1 & Hd1 & Hr1). exists d1, gens1. split; [|done].
      rewrite lookup_insert_ne; [done|]. intros E. apply Hne. by eapply Hinj.
  - intros nm1 nm2 n1 n2 (n1' & H1 & ->)%Hold (n2' & H2 & ->)%Hold. by eapply Hinj.
  - intros a Ha. destruct (Hfr a Ha) as [Hd1 Hp1]. split.
    + rewrite lookup_insert_ne; [done|]. intros E. destruct (Hdev _ _ Hn) as (d0 & ? & Hd0 & _). congruence.
    + intros nm1 n1. rewrite lookup_insert_Some. intros [[<- <-]|[Hne H]]; [by apply Hpos|by eapply Hp1].
Qed.

Lemma usensor_open_ret uid filep (d : dev Z) : fst (sensor_open usensor_ops true uid filep d) = 0.
Proof. reflexivity. Qed.

Lemma open_dev e nb d h m gens filep :
  trel e nb d (mk_tspec h m) gens -> m !! f_priv filep = None -> f_persist filep = false ->
  exists d' gens', sensor_open usensor_ops true (f_priv filep) filep d = (0, d') /\
    trel e nb d' (mk_tspec h (<[f_priv filep := length h]> m)) gens'.
Proof.
  intros Hrel Hnew Hper. pose proof (usensor_open_ret (f_priv filep) filep d) as Hr.
  destruct (top_refines usensor_ops e nb eq_refl d _ gens (TOpen true filep) Hrel) as (r & d' & s' & gens' & E & Hs & Hrel');
    [done|]. cbn [top_exec] in E. destruct (sensor_open _ _ _ _ d) as [r0 d0]. simpl in Hr. subst r0. injection E as <- <-.
  exists d0, gens'. split; [done|]. inversion Hs; subst; [done|lia].
Qed.

Lemma open_topic iu w R G nm n h m uid heap oflags :
  wrel iu w R G -> G !! nm = Some n -> n_spec n = mk_tspec h m ->
  uw_heap w = uid :: heap -> has_flag oflags SENSOR_PERSIST = false ->
  exists w', uv_open (n_inode n) oflags w = Some (0, uid, w') /\ uw_heap w' = heap /\
    wrel iu w' R (<[nm := with_spec n (mk_tspec h (<[uid := length h]> m))]> G).
Proof.
  intros Hw Hn Hsp Hh Hfl. destruct (topic_dev _ _ _ _ _ _ Hw Hn) as (d & gens & i & Hi & Hfi & Hrel & Hdis).
  unfold uv_open. rewrite Hi. cbn [mbind option_bind]. rewrite Hfi, Z.eqb_refl, Hdis, Hh.
  destruct (w_fresh _ _ _ _ Hw uid) as [_ Hfr]; [rewrite Hh; by left|].
  rewrite Hsp in Hrel. specialize (Hfr _ _ Hn). rewrite Hsp in Hfr.
  destruct (open_dev _ _ d h m gens (sensor_file oflags uid) Hrel Hfr Hfl) as (d' & gens' & E & Hrel').
  change (sensor_open usensor_ops true uid (sensor_file oflags NULL) d)
    with (sensor_open usensor_ops true uid (sensor_file oflags uid) d).
  change (f_priv (sensor_file oflags uid)) with uid in *. rewrite E. eexists. split; [reflexivity|]. split; [done|].
  assert (wrel iu (set_heap heap w) R G) as Hw1.
  { destruct Hw as [(rdat & t & f & H1 & H2 & H4) H5 H6 H7 H8 H9]. rewrite Hh in *.
    apply Forall_cons in H4 as [_ H4]. constructor; simpl; try done.
    - by exists rdat, t, f.
    - by apply NoDup_cons in H8 as [_ H8].
    - intros a Ha. apply H9. by right. }
  apply (wrel_dev iu (set_heap heap w) R G nm n (with_spec n _) d' gens' Hw1 Hn); try done.
  intros a Ha. simpl in *. rewrite lookup_insert_None. split.
  - destruct (w_fresh _ _ _ _ Hw1 a Ha) as [_ H]. specialize (H _ _ Hn). by rewrite Hsp in H.
  - intros ->. apply (w_nodup _ _ _ _) in Hw. rewrite Hh in Hw. by apply NoDup_cons in Hw as [? _].
Qed.

Lemma open_usensor iu w R G oflags : wrel iu w R G -> uv_open iu oflags w = Some (OK, NULL, w).
Proof.
  intros Hw. destruct (usensor_dev _ _ _ _ Hw) as (i & Hi & Hf & Hd). unfold uv_open. rewrite Hi. simpl.
  by rewrite Hf, Hd.
Qed.

(** A file on a topic, and what the driver sees of it. *)
Definition topic_file (n : topic) (oflags uid : Z) : finfo := mk_finfo oflags (n_inode n) uid.

Lemma heap_pos iu w R G nm n a : wrel iu w R G -> G !! nm = Some n -> a ∈ uw_heap w -> t_pos (n_spec n) !! a = None.
Proof. intros Hw Hn Ha. destruct (w_fresh _ _ _ _ Hw a Ha) as [_ H]. by eapply H. Qed.

(** A call that goes to the device of a topic. *)
Lemma topic_call iu w R G nm n op oflags uid :
  wrel iu w R G -> G !! nm = Some n -> top_ok (n_esize n) (n_queue n) op (n_spec n) ->
  (forall s r, tstep (n_esize n) (n_queue n) op (n_spec n) r s ->
     forall a, t_pos (n_spec n) !! a = None -> t_pos s !! a = None) ->
  exists d r d' s, top_exec usensor_ops op d = Some (r, d') /\
    tstep (n_esize n) (n_queue n) op (n_spec n) r s /\
    nbuffer (lower d) = Z.of_nat (n_queue n) /\ esize (state (upper d)) = n_esize n /\
    (forall A (s : Z -> dev Z -> option A) u, dispatch (fp_inode (topic_file n oflags uid)) w s u = s (n_upper n) d) /\
    wrel iu (put_dev (n_upper n) d' w) R (<[nm := with_spec n s]> G) /\
    uw_heap (put_dev (n_upper n) d' w) = uw_heap w.
Proof.
  intros Hw Hn Hok Hpos. destruct (topic_dev _ _ _ _ _ _ Hw Hn) as (d & gens & i & Hi & Hfi & Hrel & Hdis).
  destruct (top_refines usensor_ops _ _ eq_refl d _ gens op Hrel Hok) as (r & d' & s & gens' & E & Hs & Hrel').
  exists d, r, d', s. split; [done|]. split; [done|]. split; [apply Hrel|]. split; [apply Hrel|]. split; [done|].
  split; [|done]. apply (wrel_dev iu w R G nm n (with_spec n s) d' gens'); try done.
  intros a Ha. eapply Hpos; [exact Hs|]. by eapply heap_pos.
Qed.

Lemma write_topic K iu w R G nm n h m oflags uid x :
  wrel iu w R G -> G !! nm = Some n -> n_spec n = mk_tspec h m ->
  zlen x = n_esize n -> 0 < n_esize n -> (0 < n_queue n)%nat ->
  (zlen h + 1) * Z.max 4 (n_esize n) < 2 ^ 32 -> zlen h + 1 < 2 ^ 31 ->
  Z.of_nat (n_queue n) * Z.max 4 (n_esize n) < 2 ^ 31 ->
  (forall k, 0 < k < 2 ^ 31 -> exists b, k_malloc K k = Some b /\ zlen b = k) ->
  exists w', uv_write K (topic_file n oflags uid) x w = Some (n_esize n, w') /\
    wrel iu w' R (<[nm := with_spec n (mk_tspec (h ++ [x]) m)]> G) /\ uw_heap w' = uw_heap w.
Proof.
  intros Hw Hn Hsp Hx He Hq Hb1 Hb2 Hb3 Hm.
  destruct (Hm (Z.of_nat (n_queue n) * n_esize n)) as (b1 & E1 & L1); [nia|].
  destruct (Hm (Z.of_nat (n_queue n) * 4)) as (b2 & E2 & L2); [nia|].
  destruct (topic_call iu w R G nm n (TPublish (Some b1) (Some b2) [x]) oflags uid Hw Hn)
    as (d & r & d' & s & E & Hs & Hnb & Hes & Hdis & Hw' & Hh).
  { rewrite Hsp. simpl. split; [by repeat constructor|]. split; [done|]. split; [lia|]. split; [lia|]. split; [lia|].
    intros _. by exists b1, b2. }
  { intros s r Hs a Ha. rewrite Hsp in Hs, Ha. by inversion Hs; subst. }
  rewrite Hsp in Hs. inversion Hs; subst. unfold uv_write. rewrite Hdis, Hnb, Hes.
  unfold u32, TIMING_BUF_ESIZE. rewrite !Z.mod_small by nia.
  rewrite E1, E2. cbn [top_exec concat] in E. rewrite app_nil_r in E.
  destruct (sensor_write (Some b1) (Some b2) x d) as [[r1 d1]|]; [|done]. cbn [mbind option_bind] in E |- *.
  injection E as -> ->. eexists. split; [|done]. do 2 f_equal. simpl length. lia.
Qed.

(** The sample a reader at position [p] gets next. *)
Definition next_sample (q : nat) (h : list (list Z)) (p : nat) : list Z := default [] (h !! first_kept q h p).

Lemma taken_one q h p : (p < length h)%nat -> (0 < q)%nat -> taken q 1 h p = [next_sample q h p].
Proof.
  intros Hp Hq. unfold taken, next_sample. assert (first_kept q h p < length h)%nat as Hlt by (unfold first_kept; lia).
  replace (Nat.min _ 1) with 1%nat by lia. destruct (lookup_lt_is_Some_2 h _ Hlt) as [x Hx].
  rewrite Hx. rewrite (drop_S h x) by done. done.
Qed.

Lemma read_topic iu w R G nm n h m p oflags uid :
  wrel iu w R G -> G !! nm = Some n -> n_spec n = mk_tspec h m -> m !! uid = Some p ->
  0 < n_esize n < 2 ^ 31 -> (0 < n_queue n)%nat ->
  exists w', uw_heap w' = uw_heap w /\
    if (p <? length h)%nat
    then uv_read (topic_file n oflags uid) (n_esize n) w = Some (n_esize n, next_sample (n_queue n) h p, w') /\
      wrel iu w' R (<[nm := with_spec n (mk_tspec h (<[uid := S (first_kept (n_queue n) h p)]> m))]> G)
    else uv_read (topic_file n oflags uid) (n_esize n) w = Some (- ENODATA, [], w') /\
      wrel iu w' R (<[nm := n]> G).
Proof.
  intros Hw Hn Hsp Hp He Hq.
  destruct (topic_call iu w R G nm n (TRead (sensor_file oflags uid) (n_esize n)) oflags uid Hw Hn)
    as (d & r & d' & s & E & Hs & Hnb & Hes & Hdis & Hw' & Hh).
  { rewrite Hsp. simpl. split; [by exists p|lia]. }
  { intros s r Hs a Ha. rewrite Hsp in Hs, Ha. inversion Hs; subst; simpl in *; [|done].
    rewrite lookup_insert_None. split; [done|]. intros ->. congruence. }
  exists (put_dev (n_upper n) d' w). split; [done|]. unfold uv_read. rewrite Hdis. cbn [top_exec] in E.
  change (fi_file (topic_file n oflags uid)) with (sensor_file oflags uid).
  destruct (sensor_read usensor_ops (sensor_file oflags uid) true (n_esize n) d) as [[[r1 data|] d1]|]; [|done..].
  cbn [mbind option_bind] in E |- *. injection E as <- <-.
  rewrite Hsp in Hs. inversion Hs as [| | | |? ? ? ? p' Hp' Hlt E1 E2 E3 E4|? ? ? ? Hp' E1 E2 E3 E4|]; subst;
    change (f_priv (sensor_file oflags uid)) with uid in *; rewrite Hp in Hp'; injection Hp' as ->.
  - rewrite (proj2 (Nat.ltb_lt _ _) Hlt). rewrite Z.div_same in * by lia.
    change (Z.to_nat 1) with 1%nat in *. rewrite taken_one in * by done. simpl length in *. simpl concat.
    rewrite app_nil_r. split; [do 2 f_equal; f_equal; lia|]. by rewrite Nat.add_1_r in Hw'.
  - rewrite Nat.ltb_irrefl. split; [done|].
    replace (with_spec n (mk_tspec h m)) with n in Hw'; [done|]. destruct n. simpl in *. by subst.
Qed.

Lemma updated_topic K iu w R G nm n h m p oflags uid :
  wrel iu w R G -> G !! nm = Some n -> n_spec n = mk_tspec h m -> m !! uid = Some p ->
  exists w', uw_heap w' = uw_heap w /\ wrel iu w' R (<[nm := n]> G) /\
    uv_ioctl K (SNIOC SNIOC_UPDATED) (topic_file n oflags uid) w = Some (0, OutBool (p <? length h)%nat, w').
Proof.
  intros Hw Hn Hsp Hp.
  destruct (topic_call iu w R G nm n (TUpdated (sensor_file oflags uid)) oflags uid Hw Hn)
    as (d & r & d' & s & E & Hs & Hnb & Hes & Hdis & Hw' & Hh).
  { rewrite Hsp. simpl. by exists p. }
  { intros s r Hs a Ha. rewrite Hsp in Hs, Ha. by inversion Hs; subst. }
  exists (put_dev (n_upper n) d' w). split; [done|]. unfold uv_ioctl. rewrite Hdis. cbn [top_exec] in E.
  change (fi_file (topic_file n oflags uid)) with (sensor_file oflags uid).
  rewrite Hsp in Hs. inversion Hs as [| | |? ? ? p' Hp' E1 E2 E3 E4| | |]; subst.
  change (f_priv (sensor_file oflags uid)) with uid in *. rewrite Hp in Hp'. injection Hp' as <-. split.
  - replace (with_spec n (mk_tspec h m)) with n in Hw'; [done|]. destruct n. simpl in *. by subst.
  - assert (exists o, sensor_ioctl usensor_ops [] (sensor_file oflags uid) SNIOC_UPDATED d = Some (0, o, d))
      as [o Eo].
    { cbn [sensor_ioctl] in E |- *. destruct (get_user _ (upper_lock d)); [|done].
      cbn [mbind option_bind]. rewrite unlock_lock. by eexists. }
    rewrite Eo in E |- *. cbn [mbind option_bind] in E |- *. destruct o; try done. by injection E as -> ->.
Qed.

Lemma close_topic iu w R G nm n h m p oflags uid :
  wrel iu w R G -> G !! nm = Some n -> n_spec n = mk_tspec h m -> m !! uid = Some p ->
  exists w', uw_heap w' = uw_heap w /\ uv_close (topic_file n oflags uid) w = Some (0, w') /\
    wrel iu w' R (<[nm := with_spec n (mk_tspec h (delete uid m))]> G).
Proof.
  intros Hw Hn Hsp Hp.
  destruct (topic_call iu w R G nm n (TClose (sensor_file oflags uid)) oflags uid Hw Hn)
    as (d & r & d' & s & E & Hs & Hnb & Hes & Hdis & Hw' & Hh).
  { rewrite Hsp. simpl. by exists p. }
  { intros s r Hs a Ha. rewrite Hsp in Hs, Ha. inversion Hs; subst. simpl in *. rewrite lookup_delete_None. by right. }
  exists (put_dev (n_upper n) d' w). split; [done|]. unfold uv_close. rewrite Hdis. cbn [top_exec] in E.
  change (fi_file (topic_file n oflags uid)) with (sensor_file oflags uid).
  rewrite Hsp in Hs. inversion Hs; subst.
  destruct (sensor_close usensor_ops [] [] (sensor_file oflags uid) d) as [[r1 d1]|]; [|done].
  cbn [mbind option_bind] in E |- *. injection E as -> ->. done.
Qed.

Lemma userpriv_topic K iu w R G nm n oflags uid arg :
  wrel iu w R G -> G !! nm = Some n ->
  exists w', uw_heap w' = uw_heap w /\ wrel iu w' R (<[nm := n]> G) /\
    uv_ioctl K (SNIOC (SNIOC_SET_USERPRIV arg)) (topic_file n oflags uid) w = Some (0, OutNone, w').
Proof.
  intros Hw Hn. destruct (topic_dev _ _ _ _ _ _ Hw Hn) as (d & gens & i & Hi & Hfi & Hrel & Hdis).
  unfold uv_ioctl. cbn [topic_file fp_inode]. rewrite Hdis. cbn [sensor_ioctl mbind option_bind].
  eexists. split; [|split; [|reflexivity]]; [done|].
  apply (wrel_dev iu w R G nm n n _ gens Hw Hn); try done.
  - destruct (n_spec n) as [h m].
    apply (trel_same _ _ d _ h m m gens Hrel); [done|by eapply users_at_same, Hrel|].
    pose proof (tr_lock _ _ _ _ _ Hrel). simpl. lia.
  - intros a Ha. by eapply heap_pos.
Qed.

(** The queue of a topic after a request for [q] samples. *)
Definition queue_after (q : nat) (n : topic) : nat :=
  match t_hist (n_spec n) with [] => Nat.max q (n_queue n) | _ => n_queue n end.

Lemma buffer_topic K iu w R G nm n oflags uid q :
  wrel iu w R G -> G !! nm = Some n -> 0 < q -> q * Z.max 4 (n_esize n) < 2 ^ 31 ->
  exists w' r, uw_heap w' = uw_heap w /\ wrel iu w' R (<[nm := with_queue n (queue_after (Z.to_nat q) n)]> G) /\
    uv_ioctl K (SNIOC (SNIOC_SET_BUFFER_NUMBER q)) (topic_file n oflags uid) w = Some (r, OutNone, w').
Proof.
  intros Hw Hn Hq Hs. destruct (topic_dev _ _ _ _ _ _ Hw Hn) as (d & gens & i & Hi & Hfi & Hrel & Hdis).
  unfold uv_ioctl. cbn [topic_file fp_inode]. rewrite Hdis. cbn [sensor_ioctl].
  destruct (sensor_set_buffer_number q d) as [r d'] eqn:E. cbn [mbind option_bind].
  eexists _, r. split; [|split; [|reflexivity]]; [done|].
  apply (wrel_dev iu w R G nm n (with_queue n _) d' gens Hw Hn); try done.
  2:{ intros a Ha. simpl. by eapply heap_pos. }
  cbn [with_queue n_esize n_queue n_spec]. unfold queue_after.
  destruct Hrel as [Ht Hus Hc Hst Hper He Hnb Hl]. destruct (n_spec n) as [h m]. simpl in *.
  assert (same_topic d (upper_unlock (upper_lock d))) as Hsame by done.
  unfold sensor_set_buffer_number in E. simpl in E. destruct h as [|x h].
  - pose proof (to_bufs _ _ _ Ht) as [Hb Htm]. rewrite Hb in E. simpl in E. rewrite Hnb in E.
    destruct (Z.leb_spec (Z.of_nat (n_queue n)) q) as [Hle|Hlt]; injection E as <- <-.
    + replace (Nat.max (Z.to_nat q) (n_queue n)) with (Z.to_nat q) by lia.
      destruct Ht as [H1 H2 H3 H4 H5 H6 H7 H8]. constructor; simpl; try done; try lia.
      * constructor; simpl; try done; try lia. rewrite He. nia.
      * by eapply users_at_same, Hus.
    + replace (Nat.max (Z.to_nat q) (n_queue n)) with (n_queue n) by lia.
      apply (trel_same _ _ d _ [] m m gens); [done|done|by eapply users_at_same, Hus|simpl; lia].
  - pose proof (to_bufs _ _ _ Ht) as [Hb _]. destruct (ca_base _ _ (ra_abs _ _ _ _ Hb)) as (b & Eb & _).
    unfold circbuf_is_init in E. rewrite Eb in E. injection E as <- <-.
    apply (trel_same _ _ d _ (x :: h) m m gens); [done|done|by eapply users_at_same, Hus|simpl; lia].
Qed.

(** ** Registration *)

Lemma fresh_new fs rdat t s a :
  nrel fs rdat t s -> a <> NULL -> inodes fs !! a = None -> fresh (g_root_inode fs) s a.
Proof.
  intros Hn Ha Hi. assert (~ is_Some (inodes fs !! a)) as Hno by (rewrite Hi; by intros [? ?]).
  rewrite (nrel_alive _ _ _ _ _ Hn) in Hno. split; [done|]. split; [tauto|]. split; [destruct (sp_refs s a); [done|]; exfalso; apply Hno; right; right; lia|].
  intros q [b v] Hq. simpl. intros ->. apply Hno. right. left. by exists q, v.
Qed.

(** The name space with a new topic. *)
Lemma register_ns iu fs R G nm rdat t f fs' t' s' mem up ret e q s cwd :
  nrel fs rdat t (mk_nspec f R) -> name_ok nm -> G !! nm = None -> ns_view iu f G -> (3 <= length mem)%nat ->
  nstep cwd (NRegister mem (topic_path nm) SENSOR_FOPS up) (mk_nspec f R) (NInt ret) s' -> nrel fs' rdat t' s' ->
  ret = OK /\ exists i f', nrel fs' rdat t' (mk_nspec f' R) /\ ns_view iu f' (<[nm := mk_topic i up e q s]> G).
Proof.
  intros Hn Hnm HG [[pu Hu] Ht] Hmem Hs Hn'.
  assert (f (topic_names nm) = None) as Hf by (rewrite Ht by done; by rewrite HG).
  inversion Hs as [mm pp oo vv ff rr i f1 f' H1 [H2 H2'] H3 H4|? ? ? ? ? ? x H1|? ? ? ? ? ? ? H1 H2| | | | |]; subst;
    rewrite topic_path_names in * by done; [|congruence|simpl in H2; lia].
  split; [done|]. exists i, f'. split; [done|]. split.
  - exists pu. rewrite H4, decide_False by done. by apply H2.
  - intros nm1 Hnm1. rewrite H4. case_decide as E.
    + injection E as ->. by rewrite lookup_insert_eq.
    + rewrite lookup_insert_ne by congruence. rewrite <- (Ht nm1 Hnm1).
      destruct (f (topic_names nm1)) as [x|] eqn:Ef; [by apply H2|].
      destruct (f1 (topic_names nm1)) as [x|] eqn:Ef1; [|done]. exfalso.
      destruct (H2' _ _ Ef1) as [?|(_ & [k Hk] & _)]; [congruence|]. apply E. by injection Hk as ->.
Qed.

(** How many samples a topic keeps that was registered for [q]. *)
Definition queue_of (q : Z) : nat := if q =? 0 then 1%nat else Z.to_nat q.

Lemma register_dev info :
  0 < r_esize info -> r_persist info = false -> 0 <= r_nbuffer info ->
  Z.of_nat (queue_of (r_nbuffer info)) * Z.max 4 (r_esize info) < 2 ^ 31 ->
  exists d gens, sensor_custom_register usensor_ops true true 0 (r_esize info)
      (mk_lower (r_nbuffer info) (r_persist info) (r_devname info)) = (0, Some d) /\
    trel (r_esize info) (queue_of (r_nbuffer info)) d (mk_tspec [] ∅) gens.
Proof.
  intros He Hp Hn Hs. destruct (sensor_custom_register usensor_ops true true 0 (r_esize info) _) as [r o] eqn:E.
  assert (exists d, (r, o) = (0, Some d)) as [d' Ed].
  { rewrite <- E. unfold sensor_custom_register. replace (r_esize info =? 0) with false by lia. simpl. by eexists. }
  injection Ed as -> ->. exists d', []. split; [done|]. eapply (registered_rel usensor_ops); [done|exact E|done..].
Qed.

Lemma register_topic K iu w R G nm lret info fl pv :
  wrel iu w R G -> G !! nm = None -> name_ok nm -> r_path info = topic_path nm ->
  0 < r_esize info -> r_persist info = false -> 0 <= r_nbuffer info ->
  Z.of_nat (queue_of (r_nbuffer info)) * Z.max 4 (r_esize info) < 2 ^ 31 ->
  (5 <= length (uw_heap w))%nat -> 0 <= lret ->
  exists w' i up k, uv_ioctl K (SNIOC_REGISTER lret info) (mk_finfo fl iu pv) w = Some (lret, OutNone, w') /\
    wrel iu w' R (<[nm := mk_topic i up (r_esize info) (queue_of (r_nbuffer info)) (mk_tspec [] ∅)]> G) /\
    (k <= 5)%nat /\ uw_heap w' = drop k (uw_heap w).
Proof.
  intros Hw HG Hnm Hpath He Hper Hnb Hs Hlen Hl.
  destruct (usensor_dev _ _ _ _ Hw) as (iin & _ & _ & Hdis). pose proof Hw as [Hns Hname Hdev Hinj Hnd Hfr].
  destruct (uw_heap w) as [|lo [|up heap]] eqn:Eh; simpl in Hlen; try lia.
  apply NoDup_cons in Hnd as [Hlo [Hup Hnd]%NoDup_cons].
  destruct Hns as (rdat & t & f & Hn & Hv & Hf). rewrite !Forall_cons in Hf. destruct Hf as (_ & Hfup & Hf).
  destruct (register_step (k_cwd K) (uw_fs w) rdat t f R heap (topic_path nm) SENSOR_FOPS up Hn)
    as (ret & fs' & t' & s' & E & Hstep & Hn' & Hroot); [by apply topic_path_ok|done|done|].
  destruct (register_used _ _ _ _ _ _ _ _ rdat t (nr_fs _ _ _ _ Hn) (topic_path_ok _ nm Hnm) E Hnd) as [Hdom Hused].
  { intros a Ha. eapply fresh_none; [exact Hn|]. rewrite Forall_forall in Hf. by apply Hf. }
  set (used := (base.size (inodes fs') - base.size (inodes (uw_fs w)))%nat) in *.
  rewrite topic_path_names in Hused by done. simpl in Hused.
  destruct (register_ns iu _ R G nm rdat t f fs' t' s' heap up ret (r_esize info) (queue_of (r_nbuffer info))
    (mk_tspec [] ∅) (k_cwd K) Hn Hnm HG Hv ltac:(lia) Hstep Hn') as (-> & i & f' & Hn1 & Hv1).
  destruct (register_dev info He Hper Hnb Hs) as (d & gens & Ed & Hrel).
  unfold uv_ioctl. cbn [fp_inode]. rewrite Hdis. unfold usensor_register. rewrite Eh.
  unfold custom_register. replace (r_esize info =? 0) with false by lia. cbn [set_heap uw_heap uw_fs].
  rewrite Hpath, E. cbn [mbind option_bind]. fold used. change OK with 0. rewrite Ed.
  cbn [mbind option_bind]. change (0 <? 0) with false. replace (lret <? 0) with false by lia. cbv iota.
  eexists _, i, up, (2 + used)%nat. split; [reflexivity|]. split; [|split; [lia|done]].
  assert (forall a, a ∈ drop used heap -> a ∈ heap /\ inodes fs' !! a = None) as Hdrop.
  { intros a Ha. assert (a ∈ heap) as Hah by (rewrite <- (take_drop used heap), elem_of_app; by right).
    split; [done|]. apply not_elem_of_dom. rewrite Hdom, not_elem_of_union, elem_of_list_to_set, elem_of_dom. split.
    - rewrite <- (take_drop used heap) in Hnd. apply NoDup_app in Hnd as (_ & Hnd & _). intros H. by apply (Hnd a H).
    - rewrite Forall_forall in Hf. rewrite (fresh_none _ _ _ _ _ Hn (Hf a Hah)). by intros [? ?]. }
  assert (uw_devs w !! up = None) as Hdup by (apply Hfr; set_solver).
  constructor; simpl.
  - exists rdat, t', f'. split; [done|]. split; [done|]. apply Forall_forall. intros a Ha.
    destruct (Hdrop a Ha) as [Hah Hnone]. eapply fresh_new; [exact Hn1| |done].
    rewrite Forall_forall in Hf. by destruct (Hf a Hah) as [? _].
  - intros nm1 n1. rewrite lookup_insert_Some. intros [[<- _]|[_ H]]; [done|by eapply Hname].
  - intros nm1 n1. rewrite lookup_insert_Some. intros [[<- <-]|[_ H]].
    + exists d, gens. by rewrite lookup_insert_eq.
    + destruct (Hdev _ _ H) as (d1 & gens1 & Hd1 & Hr1). exists d1, gens1. split; [|done].
      rewrite lookup_insert_ne; [done|]. intros E1. congruence.
  - intros nm1 nm2 n1 n2. rewrite !lookup_insert_Some.
    intros [[<- <-]|[N1 H1]] [[<- <-]|[N2 H2]]; simpl; [done|..|by eapply Hinj].
    + destruct (Hdev _ _ H2) as (d2 & ? & Hd2 & _). intros E2. congruence.
    + destruct (Hdev _ _ H1) as (d2 & ? & Hd2 & _). intros E2. congruence.
  - rewrite <- (take_drop used heap) in Hnd. by apply NoDup_app in Hnd as (_ & _ & ?).
  - intros a Ha. destruct (Hdrop a Ha) as [Hah _]. destruct (Hfr a) as [H1 H2]; [set_solver|]. split.
    + rewrite lookup_insert_ne; [done|]. by intros ->.
    + intros nm1 n1. rewrite lookup_insert_Some. intros [[<- <-]|[_ H]]; [done|by eapply H2].
Qed.
