(* ===== verification/UorbSpec.v ===== *)
(** uORB as a broker of topics.

    In the specification there are topics, each with the samples published so
    far, and the descriptors of the tasks, each with its topic and its position in
    the samples.  [bstep] says what the calls of the library do to them.  The
    library of Uorb.v, which makes paths, registers devices through
    /dev/usensor, and goes through the descriptors and the name space to the
    sensor devices, implements it for any number of tasks and topics. *)

From S2P Require Import Prelude.
From stdpp Require Import gmap list.
From S2P Require Import Circbuf Poll Sensor Topic Inode Namespace Files Descriptors Printf Uorb UorbWorld.
Local Open Scope Z_scope.

(** ** Computations that return *)

#[local] Existing Instance U_ret.
#[local] Existing Instance U_bind.

(** [m] returns, and what it returns satisfies [Q]. *)
Definition returns {A} (m : U A) (s : sys) (Q : A -> sys -> Prop) : Prop :=
  exists a s', m s = Some (a, s') /\ Q a s'.

Lemma returns_bind {A B} (m : U A) (k : A -> U B) s Q :
  returns m s (fun a s' => returns (k a) s' Q) -> returns (m ≫= k) s Q.
Proof.
  intros (a & s1 & E & b & s2 & E2 & HQ). exists b, s2. split; [|done].
  unfold mbind, U_bind. by rewrite E.
Qed.

Lemma returns_ret {A} (a : A) s (Q : A -> sys -> Prop) : Q a s -> returns (mret a) s Q.
Proof. intros HQ. by exists a, s. Qed.

Lemma returns_mono {A} (m : U A) s (P Q : A -> sys -> Prop) :
  returns m s P -> (forall a s', P a s' -> Q a s') -> returns m s Q.
Proof. intros (a & s' & E & HP) H. exists a, s'. eauto. Qed.

Lemma returns_lift {A} (o : option A) a s (Q : A -> sys -> Prop) : o = Some a -> Q a s -> returns (lift o) s Q.
Proof. intros -> HQ. by exists a, s. Qed.

(** ** System calls *)

Section calls.
Context (K : task).
Local Abbreviation l := (k_list K).

Lemma drel_world (v : vfs uworld) T w : drel v T -> drel (Files.with_world v w) (with_w T w).
Proof. intros [H1 H2 H3]. constructor; [by apply frel_world|done|done]. Qed.

Lemma result_returns {A} f g (m : vfs uworld -> option (A * vfs uworld)) s a v (Q : A -> sys -> Prop) :
  m (sys_vfs s) = Some (a, v) ->
  Q (if f a <? 0 then g (-1) a else a) (mk_sys v (if f a <? 0 then - f a else sys_errno s)) ->
  returns (result f g m) s Q.
Proof.
  intros E HQ. unfold result, returns. rewrite E. simpl. destruct (f a <? 0); by eexists _, _.
Qed.

Section state.
Context (s : sys) (T : fspec uworld) (Hs : drel (sys_vfs s) T) (Hl : l ∈ t_tasks T).

(** What can be opened passes the check of the permissions. *)
Lemma open_checkperm i oflags w priv w' :
  uv_open i oflags w = Some (0, priv, w') -> uv_checkperm i oflags w = OK.
Proof.
  unfold uv_open, uv_checkperm. destruct (inodes (uw_fs w) !! i) as [n|] eqn:En; [|done].
  cbn [mbind option_bind]. destruct (i_flags n =? FSNODEFLAG_TYPE_DRIVER); [|done].
  unfold dispatch. rewrite En. cbn [mbind option_bind]. destruct (i_flags n =? _); [done|].
  destruct (Z.eqb_spec (i_ops n) NULL) as [->|]; [|done]. done.
Qed.

Lemma open_step path oflags a heap :
  uw_heap (t_world T) = a :: heap -> a <> NULL -> t_info T !! a = None ->
  ~ no_free (k_rows K) (t_tab T) l ->
  exists fd, lowest (t_tab T) l fd /\ forall ret i w1,
    uv_find K path (set_heap heap (t_world T)) = Some (ret, i, w1) ->
    if ret <? 0 then returns (open K path oflags) s (fun r s' => r = -1 /\ sys_errno s' = - ret /\ drel (sys_vfs s') (with_w T w1))
    else forall priv w2, has_flag oflags O_DIRECTORY = false -> uv_open i oflags w1 = Some (0, priv, w2) ->
      returns (open K path oflags) s (fun r s' => r = fd /\
        drel (sys_vfs s') (mk_fspec (<[(l, fd) := (a, has_flag oflags O_CLOEXEC)]> (t_tab T))
          (<[a := mk_finfo oflags i priv]> (t_info T)) (t_tasks T) w2)).
Proof.
  intros Hh Ha Hi Hfree.
  pose proof (drel_world _ _ (set_heap heap (t_world T)) Hs) as Hs1.
  destruct (open_matches (uorb_ops K) _ _ (k_rows K) (Some a) l path oflags Hs1 Hl) as (o & Ho & Hm).
  { intros b [= <-]. done. }
  assert (forall r v, fop_exec (uorb_ops K) (FOpen (k_rows K) (Some a) l path oflags)
      (Files.with_world (sys_vfs s) (set_heap heap (t_world T))) = Some (FInt r, v) ->
    forall Q : Z -> sys -> Prop, Q (if r <? 0 then -1 else r) (mk_sys v (if r <? 0 then - r else sys_errno s)) ->
    returns (open K path oflags) s Q) as Hgo.
  { intros r v E Q HQ. unfold open, int_result. eapply result_returns; [|exact HQ]. cbv zeta.
    rewrite (td_world _ _ Hs), Hh. cbn [fop_exec] in E.
    destruct (nx_vopen _ _ _ _ _ _ _) as [[r1 v1]|]; [|done]. by injection E as -> ->. }
  inversion Ho as [| | | | | | | | | | | | | | | | | | | |mem' a' l' path' ofl' T' fd Hlow|mem' a' l' path' ofl' T' r Hno];
    subst; [|by destruct (Hfree Hno)].
  exists fd. split; [exact Hlow|]. intros ret i w1 Ef.
  unfold file_vopen in Hm. cbn [vo_find uorb_ops with_w t_world] in Hm.
  rewrite Ef in Hm. cbn [mbind option_bind] in Hm. destruct (ret <? 0) eqn:Er.
  - cbn [mbind option_bind] in Hm. rewrite Er in Hm.
    destruct Hm as (v & E & Hv). eapply Hgo; [exact E|]. rewrite Er. by destruct T.
  - intros priv w2 Hdir Eo. cbn [vo_open vo_checkperm uorb_ops] in Hm. rewrite Hdir, Eo in Hm.
    rewrite (open_checkperm _ _ _ _ _ Eo) in Hm. cbn [mbind option_bind] in Hm. change (0 =? - EISDIR) with false in Hm.
    change (OK <? 0) with false in Hm. cbn [andb mbind option_bind] in Hm.
    change (0 <? 0) with false in Hm. destruct Hm as (v & E & Hv). eapply Hgo; [exact E|].
    replace (fd <? 0) with false by (destruct Hlow; lia). split; [done|]. by destruct T.
Qed.

(** Calls on a descriptor. *)
Lemma ioctl_step fd a c f cmd r o w :
  t_tab T !! (l, fd) = Some (a, c) -> t_info T !! a = Some f ->
  uv_ioctl K cmd f (t_world T) = Some (r, o, w) ->
  returns (ioctl K fd cmd) s (fun x s' => x = (if r <? 0 then -1 else r, o) /\ drel (sys_vfs s') (with_w T w)).
Proof.
  intros Ht Hi E. pose proof (use_step (uorb_ops K) _ _ l fd Hs Hl) as Hu. rewrite Ht in Hu.
  destruct Hu as (v1 & f1 & E1 & Hi1 & Ef & Hw & Hp). rewrite Hi in Hi1. injection Hi1 as ->.
  destruct (Hp w) as (v2 & E2 & Hv2). unfold ioctl.
  apply (result_returns _ _ _ _ (r, o) v2); [|simpl; split; [by destruct (r <? 0)|done]].
  unfold nx_ioctl. rewrite E1. cbn [mbind option_bind]. change (0 <? 0) with false. cbv iota. rewrite Ef.
  cbn [mbind option_bind]. rewrite Hw, E. cbn [mbind option_bind]. by rewrite E2.
Qed.

Lemma ioctl_bad fd cmd :
  t_tab T !! (l, fd) = None ->
  returns (ioctl K fd cmd) s (fun x s' => x = (-1, OutNone) /\ drel (sys_vfs s') T).
Proof.
  intros Ht. pose proof (use_step (uorb_ops K) _ _ l fd Hs Hl) as Hu. rewrite Ht in Hu.
  unfold ioctl. apply (result_returns _ _ _ _ (- EBADF, OutNone) (sys_vfs s)); [|done].
  unfold nx_ioctl. by rewrite Hu.
Qed.

Lemma write_step fd a c f data r w :
  t_tab T !! (l, fd) = Some (a, c) -> t_info T !! a = Some f ->
  file_write (uorb_ops K) f data (t_world T) = Some (r, w) ->
  returns (write K fd data) s (fun x s' => x = (if r <? 0 then -1 else r) /\ drel (sys_vfs s') (with_w T w)).
Proof.
  intros Ht Hi E. pose proof (use_step (uorb_ops K) _ _ l fd Hs Hl) as Hu. rewrite Ht in Hu.
  destruct Hu as (v1 & f1 & E1 & Hi1 & Ef & Hw & Hp). rewrite Hi in Hi1. injection Hi1 as ->.
  destruct (Hp w) as (v2 & E2 & Hv2). unfold write, int_result.
  apply (result_returns _ _ _ _ r v2); [|done].
  unfold nx_write. rewrite E1. cbn [mbind option_bind]. change (0 <? 0) with false. cbv iota. rewrite Ef.
  cbn [mbind option_bind]. rewrite Hw, E. cbn [mbind option_bind]. by rewrite E2.
Qed.

Lemma write_bad fd data :
  t_tab T !! (l, fd) = None -> returns (write K fd data) s (fun x s' => x = -1 /\ drel (sys_vfs s') T).
Proof.
  intros Ht. pose proof (use_step (uorb_ops K) _ _ l fd Hs Hl) as Hu. rewrite Ht in Hu.
  unfold write, int_result. apply (result_returns _ _ _ _ (- EBADF) (sys_vfs s)); [|done].
  unfold nx_write. by rewrite Hu.
Qed.

Lemma read_step fd a c f buf len r data w :
  t_tab T !! (l, fd) = Some (a, c) -> t_info T !! a = Some f ->
  file_read (uorb_ops K) f buf len (t_world T) = Some (r, data, w) ->
  returns (read K fd buf len) s
    (fun x s' => x = (if r <? 0 then -1 else r, data) /\ drel (sys_vfs s') (with_w T w)).
Proof.
  intros Ht Hi E. pose proof (use_step (uorb_ops K) _ _ l fd Hs Hl) as Hu. rewrite Ht in Hu.
  destruct Hu as (v1 & f1 & E1 & Hi1 & Ef & Hw & Hp). rewrite Hi in Hi1. injection Hi1 as ->.
  destruct (Hp w) as (v2 & E2 & Hv2). unfold read.
  apply (result_returns _ _ _ _ (r, data) v2); [|simpl; split; [by destruct (r <? 0)|done]].
  unfold nx_read. rewrite E1. cbn [mbind option_bind]. change (0 <? 0) with false. cbv iota. rewrite Ef.
  cbn [mbind option_bind]. rewrite Hw, E. cbn [mbind option_bind]. by rewrite E2.
Qed.

Lemma read_bad fd buf len :
  t_tab T !! (l, fd) = None -> returns (read K fd buf len) s (fun x s' => x = (-1, []) /\ drel (sys_vfs s') T).
Proof.
  intros Ht. pose proof (use_step (uorb_ops K) _ _ l fd Hs Hl) as Hu. rewrite Ht in Hu.
  unfold read. apply (result_returns _ _ _ _ (- EBADF, []) (sys_vfs s)); [|done].
  unfold nx_read. by rewrite Hu.
Qed.

(** The only descriptor of a file is closed. *)
Lemma sys_close_step fd a c f w :
  t_tab T !! (l, fd) = Some (a, c) -> t_info T !! a = Some f ->
  (forall k b, t_tab T !! k = Some (a, b) -> k = (l, fd)) ->
  file_close (uorb_ops K) f (t_world T) = Some (0, w) ->
  returns (close K fd) s (fun x s' => x = 0 /\
    drel (sys_vfs s') (mk_fspec (delete (l, fd) (t_tab T)) (delete a (t_info T)) (t_tasks T) w)).
Proof.
  intros Ht Hi Ho E. pose proof (close_matches (uorb_ops K) _ _ l fd Hs Hl) as Hc.
  unfold s_close, let_go in Hc. rewrite Ht in Hc. rewrite decide_True, Hi in Hc.
  2:{ intros k [b c1] [Hk Hb]%lookup_delete_Some. simpl. intros ->. apply Hk. symmetry. by eapply Ho. }
  cbn [mbind option_bind] in Hc. rewrite E in Hc. destruct Hc as (v & Ev & Hv).
  unfold close, int_result. by apply (result_returns _ _ _ _ 0 v).
Qed.

Lemma close_bad fd :
  t_tab T !! (l, fd) = None -> returns (close K fd) s (fun x s' => x = -1 /\ drel (sys_vfs s') T).
Proof.
  intros Ht. pose proof (close_matches (uorb_ops K) _ _ l fd Hs Hl) as Hc.
  unfold s_close in Hc. rewrite Ht in Hc. destruct Hc as (v & Ev & Hv).
  unfold close, int_result. by apply (result_returns _ _ _ _ (- EBADF) v).
Qed.
End state.
End calls.

(** ** Specification *)

(** A topic: the size of a sample, how many are kept, all samples so far. *)
Record btopic := mk_bt { bt_esize : Z; bt_queue : nat; bt_hist : list (list Z) }.
(** A descriptor: its topic, the samples it is done with, and whether it
    publishes or reads. *)
Record handle := mk_h { h_topic : list Z; h_pos : nat; h_write : bool }.
Record broker := mk_b { b_topics : gmap (list Z) btopic; b_fds : gmap (Z * Z) handle }.

Inductive ocall :=
| OAdvertise (meta : orb_metadata) (data : option (list Z)) (instance queue_size : Z)
| OSubscribe (meta : orb_metadata) (instance : Z)
| OPublish (meta : orb_metadata) (fd : Z) (data : list Z)
| OCopy (meta : orb_metadata) (fd : Z)
| OCheck (fd : Z)
| OClose (fd : Z).

Inductive ores := OInt (r : Z) | OData (r : Z) (data : list Z) | OOut (r : Z) (o : ioctl_out).

(** A call by a task; [junk] and [lret] are as in [orb_advsub_open]. *)
Record req := mk_req { q_task : task; q_junk : Z; q_lret : Z; q_call : ocall }.

Definition ocall_exec (q : req) : U ores :=
  let K := q_task q in
  match q_call q with
  | OAdvertise meta data i n =>
      r ← orb_advertise_multi_queue K (q_junk q) (q_lret q) meta data (Some i) n; mret (OInt r)
  | OSubscribe meta i => r ← orb_subscribe_multi K (q_junk q) (q_lret q) meta i; mret (OInt r)
  | OPublish meta fd x => r ← orb_publish K meta fd x; mret (OInt r)
  | OCopy meta fd => '(r, x) ← orb_copy K meta fd true; mret (OData r x)
  | OCheck fd => '(r, o) ← orb_check K fd; mret (OOut r o)
  | OClose fd => r ← orb_close K fd; mret (OInt r)
  end.

Fixpoint ocalls_run (qs : list req) : U (list ores) :=
  match qs with
  | [] => mret []
  | q :: qs => r ← ocall_exec q; rs ← ocalls_run qs; mret (r :: rs)
  end.

Section spec.
Implicit Types b : broker.

(** The topic after it was opened for samples of [e] bytes, [q] to be kept: a
    topic without samples is made to keep more. *)
Definition topic_opened (e q : Z) (t : option btopic) : btopic :=
  match t with
  | None => mk_bt e (queue_of q) []
  | Some t =>
      match bt_hist t with
      | [] => mk_bt (bt_esize t) (Nat.max (Z.to_nat q) (bt_queue t)) []
      | _ => t
      end
  end.

(** The descriptor [fd] for the topic [nm]; it starts behind what is there. *)
Definition opened (l fd : Z) (nm : list Z) (e q : Z) (write : bool) b : broker :=
  let t := topic_opened e q (b_topics b !! nm) in
  mk_b (<[nm := t]> (b_topics b)) (<[(l, fd) := mk_h nm (length (bt_hist t)) write]> (b_fds b)).

Definition add_sample (nm : list Z) (x : list Z) b : broker :=
  mk_b (alter (fun t => mk_bt (bt_esize t) (bt_queue t) (bt_hist t ++ [x])) nm (b_topics b)) (b_fds b).

Definition free_fd b (l fd : Z) : Prop :=
  0 <= fd /\ b_fds b !! (l, fd) = None /\ forall g, 0 <= g < fd -> b_fds b !! (l, g) <> None.

(** A descriptor that cannot be used to publish or to read. *)
Definition not_for (write : bool) (h : option handle) : Prop :=
  match h with Some h => h_write h <> write | None => True end.
#[global] Instance not_for_dec write h : Decision (not_for write h).
Proof. destruct h; apply _. Defined.

Inductive bstep (l : Z) : ocall -> broker -> ores -> broker -> Prop :=
| bs_advertise meta i n fd b :
    free_fd b l fd ->
    bstep l (OAdvertise meta None i n) b (OInt fd) (opened l fd (node (o_name meta) i) (o_size meta) n true b)
| bs_advertise_data meta x i n fd b :
    free_fd b l fd ->
    bstep l (OAdvertise meta (Some x) i n) b (OInt fd)
      (add_sample (node (o_name meta) i) x (opened l fd (node (o_name meta) i) (o_size meta) n true b))
| bs_subscribe meta i fd b :
    free_fd b l fd ->
    bstep l (OSubscribe meta i) b (OInt fd) (opened l fd (node (o_name meta) i) (o_size meta) 0 false b)
| bs_publish meta fd x b h :
    b_fds b !! (l, fd) = Some h -> h_write h = true ->
    bstep l (OPublish meta fd x) b (OInt 0) (add_sample (h_topic h) x b)
| bs_publish_bad meta fd x b :
    not_for true (b_fds b !! (l, fd)) -> bstep l (OPublish meta fd x) b (OInt (-1)) b
| bs_copy meta fd b h t :
    b_fds b !! (l, fd) = Some h -> h_write h = false -> b_topics b !! h_topic h = Some t ->
    (h_pos h < length (bt_hist t))%nat ->
    bstep l (OCopy meta fd) b (OData 0 (next_sample (bt_queue t) (bt_hist t) (h_pos h)))
      (mk_b (b_topics b)
         (<[(l, fd) := mk_h (h_topic h) (S (first_kept (bt_queue t) (bt_hist t) (h_pos h))) false]> (b_fds b)))
| bs_copy_none meta fd b h t :
    b_fds b !! (l, fd) = Some h -> h_write h = false -> b_topics b !! h_topic h = Some t ->
    (length (bt_hist t) <= h_pos h)%nat -> bstep l (OCopy meta fd) b (OData (-1) []) b
| bs_copy_bad meta fd b :
    not_for false (b_fds b !! (l, fd)) -> bstep l (OCopy meta fd) b (OData (-1) []) b
| bs_check fd b h t :
    b_fds b !! (l, fd) = Some h -> b_topics b !! h_topic h = Some t ->
    bstep l (OCheck fd) b (OOut 0 (OutBool (h_pos h <? length (bt_hist t))%nat)) b
| bs_check_bad fd b : b_fds b !! (l, fd) = None -> bstep l (OCheck fd) b (OOut (-1) OutNone) b
| bs_close fd b h :
    b_fds b !! (l, fd) = Some h ->
    bstep l (OClose fd) b (OInt 0) (mk_b (b_topics b) (delete (l, fd) (b_fds b)))
| bs_close_bad fd b : b_fds b !! (l, fd) = None -> bstep l (OClose fd) b (OInt (-1)) b.
End spec.

(** ** The library implements the specification *)

Definition hflags (h : handle) : Z := Z.lor (if h_write h then O_WRONLY else O_RDONLY) O_CLOEXEC.
Definition bt_of (n : topic) : btopic := mk_bt (n_esize n) (n_queue n) (t_hist (n_spec n)).

(** The references the open files have to a node. *)
Definition refs_of (fi : gmap Z finfo) (i : Z) : nat := base.size (filter (fun p => fp_inode p.2 = i) fi).

Lemma refs_of_insert fi a f i : fi !! a = None -> refs_of (<[a := f]> fi) i = add_ref (refs_of fi) (fp_inode f) i.
Proof.
  intros Ha. unfold refs_of, add_ref. case_decide as Hi.
  - rewrite map_filter_insert_True by done. rewrite map_size_insert_None; [done|].
    apply map_lookup_filter_None. by left.
  - rewrite map_filter_insert_False by (simpl; congruence). by rewrite delete_id.
Qed.

Lemma refs_of_delete fi a f i : fi !! a = Some f -> refs_of (delete a fi) i = del_ref (refs_of fi) (fp_inode f) i.
Proof.
  intros Ha. rewrite <- (insert_delete_id fi a f) at 2 by done.
  unfold del_ref. rewrite refs_of_insert by apply lookup_delete_eq. unfold add_ref. by case_decide.
Qed.

Lemma wrel_ext iu w R R' G : wrel iu w R G -> (forall a, R a = R' a) -> wrel iu w R' G.
Proof.
  intros [(rdat & t & f & H1 & H2 & H4) H5 H6 H7 H8 H9] He. constructor; try done.
  exists rdat, t, f. split; [by eapply nrel_ext|]. split; [done|]. eapply Forall_impl; [exact H4|].
  intros a (A1 & A2 & A3 & A4). split; [done|]. split; [done|]. split; [|done]. simpl in *. by rewrite <- He.
Qed.

Lemma wrel_heap iu w R G k : wrel iu w R G -> wrel iu (set_heap (drop k (uw_heap w)) w) R G.
Proof.
  intros [(rdat & t & f & H1 & H2 & H4) H5 H6 H7 H8 H9]. constructor; simpl; try done.
  - exists rdat, t, f. split; [done|]. split; [done|]. by apply Forall_drop.
  - eapply sublist_NoDup; [exact H8|apply sublist_drop].
  - intros a Ha. apply H9. eapply elem_of_submseteq; [exact Ha|]. apply sublist_submseteq, sublist_drop.
Qed.

(** The state of the system [T] for that of the specification: the topics are
    [G], and [u] gives the user of the device behind each descriptor. *)
Record binv (T : fspec uworld) (iu : Z) (G : gmap (list Z) topic) (u : Z * Z -> Z) (b : broker) : Prop := {
  bi_world : wrel iu (t_world T) (refs_of (t_info T)) G;
  bi_heap : forall a, a ∈ uw_heap (t_world T) -> t_info T !! a = None;
  bi_topics : forall nm, b_topics b !! nm = bt_of <$> G !! nm;
  bi_fds : forall k,
    match b_fds b !! k, t_tab T !! k with
    | None, None => True
    | Some h, Some (a, _) => exists n, G !! h_topic h = Some n /\
        t_info T !! a = Some (topic_file n (hflags h) (u k)) /\ t_pos (n_spec n) !! u k = Some (h_pos h)
    | _, _ => False
    end;
  bi_file : forall k1 k2 a c1 c2, t_tab T !! k1 = Some (a, c1) -> t_tab T !! k2 = Some (a, c2) -> k1 = k2;
  bi_user : forall k1 k2 h1 h2, b_fds b !! k1 = Some h1 -> b_fds b !! k2 = Some h2 -> u k1 = u k2 -> k1 = k2
}.

(** [m] blocks of memory are left. *)
Definition brel (tasks : gset Z) (m : nat) (s : sys) (b : broker) : Prop :=
  exists T iu G u, drel (sys_vfs s) T /\ t_tasks T = tasks /\ binv T iu G u b /\
    (m <= length (uw_heap (t_world T)))%nat.

(** The samples and positions of a topic change. *)
Lemma binv_set T iu G u b nm n n' w fds :
  binv T iu G u b -> G !! nm = Some n -> n_inode n' = n_inode n ->
  wrel iu w (refs_of (t_info T)) (<[nm := n']> G) -> uw_heap w = uw_heap (t_world T) ->
  (forall k, match b_fds b !! k, fds !! k with
     | None, None => True
     | Some h, Some h' => h_topic h' = h_topic h /\ h_write h' = h_write h /\
         if decide (h_topic h = nm) then t_pos (n_spec n') !! u k = Some (h_pos h') else h_pos h' = h_pos h
     | _, _ => False
     end) ->
  binv (with_w T w) iu (<[nm := n']> G) u (mk_b (<[nm := bt_of n']> (b_topics b)) fds).
Proof.
  intros [Hw Hh Ht Hf Ha Hu] Hn Hi Hw' Hheap Hfds. constructor; simpl; try done.
  - intros a. rewrite Hheap. apply Hh.
  - intros nm1. destruct (decide (nm1 = nm)) as [->|Hne]; [by rewrite !lookup_insert_eq|].
    by rewrite !lookup_insert_ne.
  - intros k. specialize (Hf k). specialize (Hfds k).
    destruct (b_fds b !! k) as [h|], (fds !! k) as [h'|], (t_tab T !! k) as [[a c]|]; try done.
    destruct Hf as (n1 & Hn1 & Hi1 & Hp1), Hfds as (E1 & E2 & E3).
    assert (hflags h' = hflags h) as Efl by (unfold hflags; by rewrite E2). rewrite E1. case_decide as Hd.
    + exists n'. rewrite Hd, lookup_insert_eq. split; [done|]. split; [|done]. rewrite Hi1, Efl.
      assert (n1 = n) as -> by congruence. unfold topic_file. by rewrite Hi.
    + exists n1. rewrite lookup_insert_ne by done. split; [done|]. split; [by rewrite Efl|by rewrite E3].
  - intros k1 k2 h1 h2 H1 H2. pose proof (Hfds k1) as F1. pose proof (Hfds k2) as F2.
    rewrite H1 in F1. rewrite H2 in F2. destruct (b_fds b !! k1) eqn:B1, (b_fds b !! k2) eqn:B2; try done.
    by eapply Hu.
Qed.

(** The same positions. *)
Lemma binv_samples T iu G u b nm n n' w :
  binv T iu G u b -> G !! nm = Some n -> n_inode n' = n_inode n -> t_pos (n_spec n') = t_pos (n_spec n) ->
  wrel iu w (refs_of (t_info T)) (<[nm := n']> G) -> uw_heap w = uw_heap (t_world T) ->
  binv (with_w T w) iu (<[nm := n']> G) u (mk_b (<[nm := bt_of n']> (b_topics b)) (b_fds b)).
Proof.
  intros Hb Hn Hi Hp Hw Hh. apply (binv_set T iu G u b nm n n' w (b_fds b)); try done.
  intros k. pose proof (bi_fds _ _ _ _ _ Hb k) as Hk. destruct (b_fds b !! k) as [h|]; [|done].
  split; [done|]. split; [done|]. case_decide as Hd; [|done].
  destruct (t_tab T !! k) as [[a c]|]; [|done]. destruct Hk as (n1 & Hn1 & _ & Hp1).
  rewrite Hp. congruence.
Qed.

Lemma broker_eta nm t b : b_topics b !! nm = Some t -> mk_b (<[nm := t]> (b_topics b)) (b_fds b) = b.
Proof. intros H. rewrite insert_id by done. by destruct b. Qed.

(** A descriptor of the task, and its file. *)
Lemma binv_fd T iu G u b k h :
  binv T iu G u b -> b_fds b !! k = Some h ->
  exists a c n, t_tab T !! k = Some (a, c) /\ G !! h_topic h = Some n /\
    t_info T !! a = Some (topic_file n (hflags h) (u k)) /\ t_pos (n_spec n) !! u k = Some (h_pos h).
Proof.
  intros Hb Hk. pose proof (bi_fds _ _ _ _ _ Hb k) as Hf. rewrite Hk in Hf.
  destruct (t_tab T !! k) as [[a c]|] eqn:Et; [|done]. destruct Hf as (n & ? & ? & ?). by exists a, c, n.
Qed.
Lemma binv_no_fd T iu G u b k : binv T iu G u b -> b_fds b !! k = None -> t_tab T !! k = None.
Proof.
  intros Hb Hk. pose proof (bi_fds _ _ _ _ _ Hb k) as Hf. rewrite Hk in Hf.
  by destruct (t_tab T !! k) as [[a c]|].
Qed.
Lemma binv_topic T iu G u b nm t :
  binv T iu G u b -> b_topics b !! nm = Some t -> exists n, G !! nm = Some n /\ t = bt_of n.
Proof.
  intros Hb Ht. rewrite (bi_topics _ _ _ _ _ Hb) in Ht. destruct (G !! nm) as [n|]; [|done].
  injection Ht as <-. by exists n.
Qed.

(** The bounds of a topic. *)
Lemma topic_bounds T iu G u b nm n :
  binv T iu G u b -> G !! nm = Some n ->
  0 < n_esize n < 2 ^ 31 /\ (0 < n_queue n)%nat /\ Z.of_nat (n_queue n) * Z.max 4 (n_esize n) < 2 ^ 31.
Proof.
  intros Hb Hn. destruct (w_dev _ _ _ _ (bi_world _ _ _ _ _ Hb) _ _ Hn) as (d & gens & _ & Hr).
  destruct Hr as [Ht _ _ _ _ He Hq _]. destruct Ht as [_ H1 H2 [H3 H4] _ _ _ _]. rewrite He, Hq in *. nia.
Qed.

(** The file of a descriptor has an inode. *)
Lemma file_inode T iu G u b nm n : binv T iu G u b -> G !! nm = Some n -> n_inode n <> NULL.
Proof.
  intros Hb Hn E. destruct (topic_dev _ _ _ _ _ _ (bi_world _ _ _ _ _ Hb) Hn) as (d & gens & i & Hi & _).
  destruct (w_ns _ _ _ _ (bi_world _ _ _ _ _ Hb)) as (rdat & t & f & Hr & _).
  rewrite E, (nr_null _ _ _ _ Hr) in Hi. done.
Qed.

Lemma hflags_write h : has_flag (hflags h) O_WRONLY = h_write h.
Proof. unfold hflags. by destruct (h_write h). Qed.
Lemma hflags_read h : has_flag (hflags h) O_RDONLY = negb (h_write h).
Proof. unfold hflags. by destruct (h_write h). Qed.

Section steps.
Context (K : task) (tasks : gset Z) (Hl : k_list K ∈ tasks).
Local Abbreviation l := (k_list K).

Lemma not_for_write T iu G u b fd data s :
  drel (sys_vfs s) T -> t_tasks T = tasks -> binv T iu G u b -> not_for true (b_fds b !! (l, fd)) ->
  returns (write K fd data) s (fun x s' => x = -1 /\ drel (sys_vfs s') T).
Proof.
  intros Hs Ht Hb Hn. rewrite <- Ht in Hl. destruct (b_fds b !! (l, fd)) as [h|] eqn:Ek.
  - destruct (binv_fd _ _ _ _ _ _ _ Hb Ek) as (a & c & n & Hk & HG & Hi & _).
    eapply returns_mono; [eapply (write_step K s T Hs Hl fd a c _ data (- EACCES) (t_world T) Hk Hi)|].
    + unfold file_write. cbn [topic_file fp_oflags]. rewrite hflags_write. simpl in Hn. by destruct (h_write h).
    + intros x s' [-> Hd]. split; [done|]. by destruct T.
  - apply write_bad; try done. by eapply binv_no_fd.
Qed.

(** What a topic must allow for another sample. *)
Definition has_room (e : Z) (t : btopic) : Prop :=
  bt_esize t = e /\ (zlen (bt_hist t) + 1) * Z.max 4 e < 2 ^ 32 /\ zlen (bt_hist t) + 1 < 2 ^ 31.

Definition allocates (f : Z -> option (list Z)) : Prop :=
  forall k, 0 < k < 2 ^ 31 -> exists blk, f k = Some blk /\ zlen blk = k.

Lemma publish_step m s b fd x e :
  brel tasks m s b -> zlen x = e -> allocates (k_malloc K) ->
  (forall h t, b_fds b !! (l, fd) = Some h -> b_topics b !! h_topic h = Some t -> has_room e t) ->
  returns (orb_publish_multi K fd x) s (fun r s' =>
    match b_fds b !! (l, fd) with
    | Some h => if h_write h then r = e /\ 0 < e /\ brel tasks m s' (add_sample (h_topic h) x b)
                else r = -1 /\ brel tasks m s' b
    | None => r = -1 /\ brel tasks m s' b
    end).
Proof.
  intros (T & iu & G & u & Hs & Ht & Hb & Hm) Hx Hmal Hok. unfold orb_publish_multi.
  destruct (decide (not_for true (b_fds b !! (l, fd)))) as [Hn|Hn].
  { eapply returns_mono; [by eapply not_for_write|]. intros r s' [-> Hd].
    assert (brel tasks m s' b) as Hr by (by exists T, iu, G, u). revert Hn.
    destruct (b_fds b !! (l, fd)) as [h|]; [|done]. simpl. by destruct (h_write h). }
  destruct (b_fds b !! (l, fd)) as [h|] eqn:Ek; [|by destruct Hn]. simpl in Hn.
  destruct (h_write h) eqn:Ew; [|by destruct Hn]. clear Hn.
  destruct (binv_fd _ _ _ _ _ _ _ Hb Ek) as (a & c & n & Hk & HG & Hi & Hp).
  destruct (topic_bounds _ _ _ _ _ _ _ Hb HG) as (B1 & B2 & B3).
  assert (b_topics b !! h_topic h = Some (bt_of n)) as Hbt by (by rewrite (bi_topics _ _ _ _ _ Hb), HG).
  destruct (Hok h _ eq_refl Hbt) as (R1 & R2 & R3). simpl in R1, R2, R3. subst e.
  destruct (n_spec n) as [hs ps] eqn:Esp. rewrite <- R1 in R2. simpl in R2, R3.
  destruct (write_topic K iu (t_world T) _ G (h_topic h) n hs ps (hflags h) (u (l, fd)) x
    (bi_world _ _ _ _ _ Hb) HG Esp) as (w' & E & Hw' & Hh'); try done; try lia.
  rewrite <- Ht in Hl. eapply returns_mono; [eapply (write_step K s T Hs Hl fd a c _ x (n_esize n) w' Hk Hi)|].
  - unfold file_write. cbn [topic_file fp_oflags fp_inode]. rewrite hflags_write, Ew. simpl.
    rewrite (proj2 (Z.eqb_neq _ _) (file_inode _ _ _ _ _ _ _ Hb HG)).
    replace (zlen x =? 0) with false by lia. replace (2 ^ 31 - 1 <? zlen x) with false by lia. exact E.
  - intros r s' [-> Hd]. replace (n_esize n <? 0) with false by lia. split; [done|]. split; [lia|].
    eexists _, iu, _, u. split; [exact Hd|]. split; [done|]. simpl. rewrite Hh'. split; [|done].
    replace (add_sample (h_topic h) x b) with
      (mk_b (<[h_topic h := bt_of (with_spec n (mk_tspec (hs ++ [x]) ps))]> (b_topics b)) (b_fds b)).
    + apply (binv_samples T iu G u b (h_topic h) n); try done. simpl. by rewrite Esp.
    + unfold add_sample. f_equal. apply map_eq. intros nm. destruct (decide (nm = h_topic h)) as [->|Hne].
      * rewrite lookup_insert_eq, lookup_alter_eq, Hbt. unfold bt_of. simpl. by rewrite Esp.
      * by rewrite lookup_insert_ne, lookup_alter_ne.
Qed.

(** The position of one descriptor changes. *)
Lemma binv_advance T iu G u b k h n hs ps p w :
  binv T iu G u b -> b_fds b !! k = Some h -> G !! h_topic h = Some n -> n_spec n = mk_tspec hs ps ->
  let n' := with_spec n (mk_tspec hs (<[u k := p]> ps)) in
  wrel iu w (refs_of (t_info T)) (<[h_topic h := n']> G) -> uw_heap w = uw_heap (t_world T) ->
  binv (with_w T w) iu (<[h_topic h := n']> G) u (mk_b (b_topics b) (<[k := mk_h (h_topic h) p (h_write h)]> (b_fds b))).
Proof.
  intros Hb Ek HG Esp n' Hw Hh. rewrite <- (insert_id (b_topics b) (h_topic h) (bt_of n')).
  2:{ rewrite (bi_topics _ _ _ _ _ Hb), HG. unfold bt_of, n'. simpl. by rewrite Esp. }
  apply (binv_set T iu G u b (h_topic h) n); try done. intros k2. destruct (decide (k2 = k)) as [->|Hne].
  - rewrite Ek, lookup_insert_eq. split; [done|]. split; [done|]. rewrite decide_True by done. apply lookup_insert_eq.
  - rewrite lookup_insert_ne by done. destruct (b_fds b !! k2) as [h2|] eqn:E2; [|done].
    split; [done|]. split; [done|]. case_decide as Hd2; [|done]. simpl. rewrite lookup_insert_ne.
    + destruct (binv_fd _ _ _ _ _ _ _ Hb E2) as (a2 & c2 & n2 & _ & HG2 & _ & Hp2).
      rewrite Hd2, HG in HG2. injection HG2 as <-. by rewrite Esp in Hp2.
    + intros Eu. apply Hne. symmetry. by eapply (bi_user _ _ _ _ _ Hb).
Qed.

(** The read behind [orb_copy]. *)
Lemma copy_read T iu G u b h n k len :
  binv T iu G u b -> G !! h_topic h = Some n -> n_esize n = len ->
  file_read (uorb_ops K) (topic_file n (hflags h) (u k)) true len (t_world T) =
  if h_write h then Some (- EACCES, [], t_world T) else uv_read (topic_file n (hflags h) (u k)) len (t_world T).
Proof.
  intros Hb HG <-. destruct (topic_bounds _ _ _ _ _ _ _ Hb HG) as (B1 & _).
  unfold file_read. cbn [topic_file fp_oflags fp_inode negb andb]. rewrite hflags_read, negb_involutive.
  destruct (h_write h); [done|]. rewrite (proj2 (Z.eqb_neq _ _) (file_inode _ _ _ _ _ _ _ Hb HG)).
  by replace (n_esize n =? 0) with false by lia; replace (2 ^ 31 - 1 <? n_esize n) with false by lia.
Qed.

Definition copied m meta fd b (x : Z * list Z) s' : Prop :=
  exists b', bstep l (OCopy meta fd) b (OData x.1 x.2) b' /\ brel tasks m s' b'.

Lemma copy_fails m s b meta fd :
  0 < o_size meta -> bstep l (OCopy meta fd) b (OData (-1) []) b -> brel tasks m s b ->
  returns (mret (if -1 =? o_size meta then 0 else -1, [])) s (copied m meta fd b).
Proof.
  intros He Hs Hb. apply returns_ret. exists b. rewrite (proj2 (Z.eqb_neq (-1) (o_size meta))) by lia. done.
Qed.

Lemma copy_step m s b meta fd :
  brel tasks m s b -> 0 < o_size meta ->
  (forall h t, b_fds b !! (l, fd) = Some h -> b_topics b !! h_topic h = Some t -> bt_esize t = o_size meta) ->
  returns (orb_copy K meta fd true) s (copied m meta fd b).
Proof.
  intros (T & iu & G & u & Hs & Ht & Hb & Hm) He Hok. unfold orb_copy, orb_copy_multi. apply returns_bind.
  rewrite <- Ht in Hl. destruct (b_fds b !! (l, fd)) as [h|] eqn:Ek.
  2:{ eapply returns_mono; [apply (read_bad K s T Hs Hl); by eapply binv_no_fd|]. intros x s' [-> Hd].
      apply copy_fails; [done|apply bs_copy_bad; by rewrite Ek|by exists T, iu, G, u]. }
  destruct (binv_fd _ _ _ _ _ _ _ Hb Ek) as (a & c & n & Hk & HG & Hi & Hp).
  assert (b_topics b !! h_topic h = Some (bt_of n)) as Hbt by (by rewrite (bi_topics _ _ _ _ _ Hb), HG).
  pose proof (Hok h _ eq_refl Hbt) as R1. cbn [bt_of bt_esize] in R1.
  pose proof (copy_read _ _ _ _ _ _ _ (l, fd) _ Hb HG R1) as Er.
  destruct (h_write h) eqn:Ew.
  { eapply returns_mono; [apply (read_step K s T Hs Hl fd a c _ true _ _ _ _ Hk Hi Er)|]. intros x s' [-> Hd].
    apply copy_fails; [done|apply bs_copy_bad; rewrite Ek; simpl; by rewrite Ew|]. exists T, iu, G, u.
    split; [by destruct T|done]. }
  destruct (n_spec n) as [hs ps] eqn:Esp. destruct (topic_bounds _ _ _ _ _ _ _ Hb HG) as (B1 & B2 & B3).
  destruct (read_topic iu (t_world T) _ G (h_topic h) n hs ps (h_pos h) (hflags h) (u (l, fd))
    (bi_world _ _ _ _ _ Hb) HG Esp Hp B1 B2) as (w' & Hh' & Hc). rewrite <- R1 in Er.
  destruct (Nat.ltb_spec (h_pos h) (length hs)) as [Hlt|Hge]; destruct Hc as [E Hw']; rewrite E, R1 in Er;
    (eapply returns_mono; [apply (read_step K s T Hs Hl fd a c _ true _ _ _ _ Hk Hi Er)|]); intros x s' [-> Hd].
  - replace (o_size meta <? 0) with false by lia. rewrite Z.eqb_refl. apply returns_ret. eexists. split.
    + pose proof (bs_copy l meta fd b h (bt_of n) Ek Ew Hbt) as H. unfold bt_of in H. simpl in H. rewrite Esp in H.
      by apply H.
    + eexists _, iu, _, u. split; [exact Hd|]. split; [done|]. simpl. rewrite Hh'. split; [|done].
      rewrite <- Ew. by eapply (binv_advance T iu G u b (l, fd) h n).
  - apply copy_fails; [done|..].
    + apply (bs_copy_none l meta fd b h (bt_of n) Ek Ew Hbt). unfold bt_of. simpl. by rewrite Esp.
    + eexists _, iu, _, u. split; [exact Hd|]. split; [done|]. simpl. rewrite Hh'. split; [|done].
      rewrite <- (broker_eta _ _ _ Hbt). by apply (binv_samples T iu G u b (h_topic h) n).
Qed.

Lemma check_step m s b fd :
  brel tasks m s b ->
  returns (orb_check K fd) s (fun x s' => bstep l (OCheck fd) b (OOut x.1 x.2) b /\ brel tasks m s' b).
Proof.
  intros (T & iu & G & u & Hs & Ht & Hb & Hm). unfold orb_check. rewrite <- Ht in Hl.
  destruct (b_fds b !! (l, fd)) as [h|] eqn:Ek.
  2:{ eapply returns_mono; [apply (ioctl_bad K s T Hs Hl); by eapply binv_no_fd|]. intros x s' [-> Hd].
      split; [by apply bs_check_bad|by exists T, iu, G, u]. }
  destruct (binv_fd _ _ _ _ _ _ _ Hb Ek) as (a & c & n & Hk & HG & Hi & Hp).
  assert (b_topics b !! h_topic h = Some (bt_of n)) as Hbt by (by rewrite (bi_topics _ _ _ _ _ Hb), HG).
  destruct (n_spec n) as [hs ps] eqn:Esp.
  destruct (updated_topic K iu (t_world T) _ G (h_topic h) n hs ps (h_pos h) (hflags h) (u (l, fd))
    (bi_world _ _ _ _ _ Hb) HG Esp Hp) as (w' & Hh' & Hw' & E).
  eapply returns_mono; [apply (ioctl_step K s T Hs Hl fd a c _ _ _ _ _ Hk Hi E)|]. intros x s' [-> Hd]. split.
  - pose proof (bs_check l fd b h (bt_of n) Ek Hbt) as H. unfold bt_of in H. simpl in H. by rewrite Esp in H.
  - eexists _, iu, _, u. split; [exact Hd|]. split; [done|]. simpl. rewrite Hh'. split; [|done].
    rewrite <- (broker_eta _ _ _ Hbt). by apply (binv_samples T iu G u b (h_topic h) n).
Qed.

Lemma refs_of_pos fi a f : fi !! a = Some f -> (0 < refs_of fi (fp_inode f))%nat.
Proof.
  intros Ha. rewrite <- (insert_delete_id fi a f) by done. rewrite refs_of_insert by apply lookup_delete_eq.
  unfold add_ref. rewrite decide_True by done. lia.
Qed.

(** A descriptor goes. *)
Lemma binv_close T iu G u b k h a c n w hs ps :
  binv T iu G u b -> b_fds b !! k = Some h -> t_tab T !! k = Some (a, c) -> G !! h_topic h = Some n ->
  t_info T !! a = Some (topic_file n (hflags h) (u k)) -> n_spec n = mk_tspec hs ps ->
  let n' := with_spec n (mk_tspec hs (delete (u k) ps)) in
  wrel iu w (del_ref (refs_of (t_info T)) (n_inode n)) (<[h_topic h := n']> G) ->
  uw_heap w = uw_heap (t_world T) ->
  binv (mk_fspec (delete k (t_tab T)) (delete a (t_info T)) (t_tasks T) w) iu (<[h_topic h := n']> G) u
    (mk_b (b_topics b) (delete k (b_fds b))).
Proof.
  intros Hb Hk Htk HG Hi Hsp n' Hw Hh. pose proof Hb as [_ Bh Bt Bf Ba Bu]. constructor; simpl.
  - eapply wrel_ext; [exact Hw|]. intros i. by rewrite (refs_of_delete _ _ _ i Hi).
  - intros a' Ha'. rewrite Hh in Ha'. rewrite lookup_delete_None. right. by apply Bh.
  - intros nm. rewrite Bt. destruct (decide (nm = h_topic h)) as [->|Hne]; [|by rewrite lookup_insert_ne].
    rewrite lookup_insert_eq, HG. unfold bt_of, n'. simpl. by rewrite Hsp.
  - intros k2. destruct (decide (k2 = k)) as [->|Hne]; [by rewrite !lookup_delete_eq|].
    rewrite !lookup_delete_ne by done. specialize (Bf k2).
    destruct (b_fds b !! k2) as [h2|] eqn:E2, (t_tab T !! k2) as [[a2 c2]|] eqn:T2; try done.
    destruct Bf as (n2 & HG2 & Hi2 & Hp2).
    assert (a2 <> a) as Hne2 by (intros ->; apply Hne; by eapply Ba). rewrite lookup_delete_ne by done.
    destruct (decide (h_topic h2 = h_topic h)) as [E|E].
    + rewrite E in *. exists n'. rewrite lookup_insert_eq. assert (n2 = n) as -> by congruence.
      split; [done|]. split; [done|]. simpl. rewrite lookup_delete_ne; [by rewrite Hsp in Hp2|].
      intros Eu. apply Hne. by eapply Bu.
    + exists n2. by rewrite lookup_insert_ne.
  - intros k1 k2 a' c1 c2 [_ H1]%lookup_delete_Some [_ H2]%lookup_delete_Some. by eapply Ba.
  - intros k1 k2 h1 h2 [_ H1]%lookup_delete_Some [_ H2]%lookup_delete_Some. by eapply Bu.
Qed.

Lemma close_call_step m s b fd :
  brel tasks m s b ->
  returns (orb_close K fd) s (fun x s' => exists b', bstep l (OClose fd) b (OInt x) b' /\ brel tasks m s' b').
Proof.
  intros (T & iu & G & u & Hs & Ht & Hb & Hm). unfold orb_close. rewrite <- Ht in Hl.
  destruct (b_fds b !! (l, fd)) as [h|] eqn:Ek.
  2:{ eapply returns_mono; [apply (close_bad K s T Hs Hl); by eapply binv_no_fd|]. intros x s' [-> Hd].
      exists b. split; [by apply bs_close_bad|by exists T, iu, G, u]. }
  destruct (binv_fd _ _ _ _ _ _ _ Hb Ek) as (a & c & n & Hk & HG & Hi & Hp).
  destruct (n_spec n) as [hs ps] eqn:Esp.
  destruct (close_topic iu (t_world T) _ G (h_topic h) n hs ps (h_pos h) (hflags h) (u (l, fd))
    (bi_world _ _ _ _ _ Hb) HG Esp Hp) as (w1 & Hh1 & E1 & Hw1).
  destruct (release_node iu w1 _ _ (n_inode n) Hw1 (refs_of_pos _ _ _ Hi)) as (w2 & E2 & Hw2 & Hh2).
  eapply returns_mono; [apply (sys_close_step K s T Hs Hl fd a c _ w2 Hk Hi)|].
  - intros k2 c2 Hk2. by eapply (bi_file _ _ _ _ _ Hb).
  - unfold file_close. cbn [topic_file fp_inode]. rewrite (proj2 (Z.eqb_neq _ _) (file_inode _ _ _ _ _ _ _ Hb HG)).
    cbn [vo_close vo_release uorb_ops]. rewrite E1. cbn [mbind option_bind].
    change (0 <=? 0) with true. cbv iota. by rewrite E2.
  - intros x s' [-> Hd]. eexists. split; [by eapply bs_close|].
    eexists _, iu, _, u. split; [exact Hd|]. split; [done|]. simpl. split; [|by rewrite Hh2, Hh1].
    eapply (binv_close T iu G u b (l, fd) h a c n w2 hs ps); try done. by rewrite Hh2.
Qed.

(** A descriptor is left for the task. *)
Definition room b : Prop :=
  exists fd, 0 <= fd < (if k_rows K then OPEN_MAX else PB) /\ b_fds b !! (l, fd) = None.

Lemma room_free T iu G u b : binv T iu G u b -> room b -> ~ no_free (k_rows K) (t_tab T) l.
Proof.
  intros Hb (fd & Hfd & Hn) (n & Hpb & Hmem & Hno). apply (Hno fd); [|by eapply binv_no_fd].
  destruct (k_rows K), Hmem as [?| ->]; try done; unfold PB, CONFIG_NFILE_DESCRIPTORS_PER_BLOCK in *; lia.
Qed.

Lemma lowest_free T iu G u b fd : binv T iu G u b -> lowest (t_tab T) l fd -> free_fd b l fd.
Proof.
  intros Hb (H0 & Hn & Hlow). split; [done|]. split.
  - pose proof (bi_fds _ _ _ _ _ Hb (l, fd)) as Hf. rewrite Hn in Hf. by destruct (b_fds b !! (l, fd)).
  - intros g Hg E. apply (Hlow g Hg). by eapply binv_no_fd.
Qed.

(** Memory is taken from the supply. *)
Lemma binv_heap T iu G u b k :
  binv T iu G u b -> binv (with_w T (set_heap (drop k (uw_heap (t_world T))) (t_world T))) iu G u b.
Proof.
  intros [Hw Hh Ht Hf Ha Hu]. constructor; simpl; try done; [by apply wrel_heap|].
  intros a Ha'. apply Hh. eapply elem_of_submseteq; [exact Ha'|]. apply sublist_submseteq, sublist_drop.
Qed.

(** A new descriptor. *)
Lemma binv_open T iu G u b fd a c uid n nm w hs ps write heap :
  binv T iu G u b -> free_fd b l fd -> G !! nm = Some n -> n_spec n = mk_tspec hs ps ->
  uw_heap (t_world T) = a :: uid :: heap -> uw_heap w = heap ->
  let h := mk_h nm (length hs) write in
  let n' := with_spec n (mk_tspec hs (<[uid := length hs]> ps)) in
  wrel iu w (add_ref (refs_of (t_info T)) (n_inode n)) (<[nm := n']> G) ->
  binv (mk_fspec (<[(l, fd) := (a, c)]> (t_tab T)) (<[a := topic_file n (hflags h) uid]> (t_info T)) (t_tasks T) w)
    iu (<[nm := n']> G) (fun k => if decide (k = (l, fd)) then uid else u k)
    (mk_b (b_topics b) (<[(l, fd) := h]> (b_fds b))).
Proof.
  intros Hb (_ & Hfd & _) HG Hsp Hheap Hh h n' Hw. pose proof Hb as [Bw Bh Bt Bf Ba Bu].
  assert (t_info T !! a = None) as Hia by (apply Bh; rewrite Hheap; by left).
  pose proof (binv_no_fd _ _ _ _ _ _ Hb Hfd) as Htfd.
  assert (forall k2 h2 n2, b_fds b !! k2 = Some h2 -> G !! h_topic h2 = Some n2 -> t_pos (n_spec n2) !! uid = None) as Hnew.
  { intros k2 h2 n2 _ H2. eapply heap_pos; [exact Bw|exact H2|]. rewrite Hheap. right. by left. }
  assert (forall k2 a2 c2, t_tab T !! k2 = Some (a2, c2) -> a2 <> a) as Hana.
  { intros k2 a2 c2 H2 ->. specialize (Bf k2). rewrite H2 in Bf. destruct (b_fds b !! k2); [|done].
    destruct Bf as (n2 & _ & Hi2 & _). congruence. }
  constructor; simpl.
  - eapply wrel_ext; [exact Hw|]. intros i. by rewrite refs_of_insert.
  - intros a' Ha'. rewrite Hh in Ha'. rewrite lookup_insert_None. split; [apply Bh; rewrite Hheap; by do 2 right|].
    intros <-. pose proof (w_nodup _ _ _ _ Bw) as Hnd. rewrite Hheap in Hnd.
    apply NoDup_cons in Hnd as [Hnd _]. apply Hnd. by right.
  - intros nm1. rewrite Bt. destruct (decide (nm1 = nm)) as [->|Hne]; [|by rewrite lookup_insert_ne].
    rewrite lookup_insert_eq, HG. unfold bt_of, n'. simpl. by rewrite Hsp.
  - intros k2. destruct (decide (k2 = (l, fd))) as [->|Hne].
    { rewrite !lookup_insert_eq. exists n'. split; [done|]. split; [done|apply lookup_insert_eq]. }
    rewrite !(lookup_insert_ne _ (l, fd)) by done. specialize (Bf k2).
    destruct (b_fds b !! k2) as [h2|] eqn:E2, (t_tab T !! k2) as [[a2 c2]|] eqn:T2; try done.
    destruct Bf as (n2 & HG2 & Hi2 & Hp2). rewrite <- (lookup_insert_ne (t_info T) a a2 (topic_file n (hflags h) uid)) in Hi2 by (symmetry; by eapply Hana).
    destruct (decide (h_topic h2 = nm)) as [E|E].
    + rewrite E in *. assert (n2 = n) as -> by congruence. exists n'. rewrite lookup_insert_eq.
      split; [done|]. split; [done|]. simpl. rewrite lookup_insert_ne; [by rewrite Hsp in Hp2|].
      intros Eu. rewrite <- Eu in Hp2. rewrite <- E in HG. by rewrite (Hnew _ _ _ E2 HG) in Hp2.
    + exists n2. by rewrite lookup_insert_ne.
  - intros k1 k2 a' c1 c2. rewrite !lookup_insert_Some.
    intros [[<- E1]|[N1 H1]] [[<- E2]|[N2 H2]]; [done|..|by eapply Ba].
    + destruct (Hana _ _ _ H2). congruence.
    + destruct (Hana _ _ _ H1). congruence.
  - assert (forall k2 h2, b_fds b !! k2 = Some h2 -> u k2 <> uid) as Hun.
    { intros k2 h2 H2 E. destruct (binv_fd _ _ _ _ _ _ _ Hb H2) as (a2 & c2 & n2 & _ & HG2 & _ & Hp2).
      by rewrite E, (Hnew _ _ _ H2 HG2) in Hp2. }
    intros k1 k2 h1 h2. rewrite !lookup_insert_Some. intros [[<- <-]|[N1 H1]] [[<- <-]|[N2 H2]]; try done.
    + rewrite (decide_True (P := (l, fd) = (l, fd))), decide_False by done. intros E. by destruct (Hun _ _ H2).
    + rewrite decide_False, (decide_True (P := (l, fd) = (l, fd))) by done. intros E. by destruct (Hun _ _ H1).
    + rewrite !decide_False by done. by eapply Bu.
Qed.

(** The path of a topic that there is. *)
Lemma open_there m s b nm write t :
  brel tasks (2 + m) s b -> name_ok nm -> b_topics b !! nm = Some t -> room b ->
  returns (open K (topic_path nm) (hflags (mk_h nm 0 write))) s (fun fd s' => free_fd b l fd /\
    brel tasks m s' (mk_b (b_topics b) (<[(l, fd) := mk_h nm (length (bt_hist t)) write]> (b_fds b)))).
Proof.
  intros (T & iu & G & u & Hs & Ht & Hb & Hm) Hnm Hbt Hroom. rewrite <- Ht in Hl.
  destruct (binv_topic _ _ _ _ _ _ _ Hb Hbt) as (n & HG & ->). destruct (n_spec n) as [hs ps] eqn:Esp.
  destruct (uw_heap (t_world T)) as [|a [|uid heap]] eqn:Eh; simpl in Hm; try lia.
  assert (a ∈ uw_heap (t_world T)) as Ha by (rewrite Eh; by left).
  pose proof (wrel_heap _ _ _ _ 1 (bi_world _ _ _ _ _ Hb)) as Hw0. rewrite Eh in Hw0. simpl in Hw0.
  assert (a <> NULL) as Ha0.
  { destruct (w_ns _ _ _ _ (bi_world _ _ _ _ _ Hb)) as (? & ? & ? & _ & _ & Hf). rewrite Forall_forall in Hf.
    by destruct (Hf a Ha). }
  destruct (open_step K s T Hs Hl (topic_path nm) (hflags (mk_h nm 0 write)) a (uid :: heap) Eh Ha0
    (bi_heap _ _ _ _ _ Hb a Ha) (room_free _ _ _ _ _ Hb Hroom)) as (fd & Hlow & Hopen).
  pose proof (find_topic K iu _ _ G nm Hw0 Hnm) as Hf. rewrite HG in Hf. destruct Hf as (w1 & E1 & Hw1 & Hh1).
  destruct (open_topic iu w1 _ G nm n hs ps uid heap (hflags (mk_h nm 0 write)) Hw1 HG Esp) as (w2 & E2 & Hh2 & Hw2);
    [done|by destruct write|].
  specialize (Hopen _ _ _ E1). change (OK <? 0) with false in Hopen. cbv iota in Hopen.
  assert (has_flag (hflags (mk_h nm 0 write)) O_DIRECTORY = false) as Hdir by (by destruct write).
  eapply returns_mono; [exact (Hopen _ _ Hdir E2)|]. intros r s' [-> Hd].
  pose proof (lowest_free _ _ _ _ _ _ Hb Hlow) as Hfree. split; [done|].
  eexists _, iu, _, _. split; [exact Hd|]. split; [done|]. simpl. rewrite Hh2. split; [|lia].
  rewrite Esp. by eapply (binv_open T iu G u b fd a _ uid n nm w2 hs ps write heap).
Qed.

Lemma open_absent m s b nm fl :
  brel tasks (1 + m) s b -> name_ok nm -> b_topics b !! nm = None -> room b ->
  returns (open K (topic_path nm) fl) s (fun r s' => r = -1 /\ sys_errno s' = ENOENT /\ brel tasks m s' b).
Proof.
  intros (T & iu & G & u & Hs & Ht & Hb & Hm) Hnm Hbt Hroom. rewrite <- Ht in Hl.
  assert (G !! nm = None) as HG by (rewrite (bi_topics _ _ _ _ _ Hb) in Hbt; by destruct (G !! nm)).
  destruct (uw_heap (t_world T)) as [|a heap] eqn:Eh; simpl in Hm; try lia.
  assert (a ∈ uw_heap (t_world T)) as Ha by (rewrite Eh; by left).
  pose proof (binv_heap _ _ _ _ _ 1 Hb) as Hb0. rewrite Eh in Hb0. simpl in Hb0.
  assert (a <> NULL) as Ha0.
  { destruct (w_ns _ _ _ _ (bi_world _ _ _ _ _ Hb)) as (? & ? & ? & _ & _ & Hf). rewrite Forall_forall in Hf.
    by destruct (Hf a Ha). }
  destruct (open_step K s T Hs Hl (topic_path nm) fl a heap Eh Ha0
    (bi_heap _ _ _ _ _ Hb a Ha) (room_free _ _ _ _ _ Hb Hroom)) as (fd & Hlow & Hopen).
  pose proof (find_topic K iu _ _ G nm (bi_world _ _ _ _ _ Hb0) Hnm) as Hf. rewrite HG in Hf.
  specialize (Hopen _ _ _ Hf). change (- ENOENT <? 0) with true in Hopen. cbv iota in Hopen.
  eapply returns_mono; [exact Hopen|]. intros r s' (-> & He & Hd). split; [done|]. split; [done|].
  exists (with_w T (set_heap heap (t_world T))), iu, G, u. split; [done|]. split; [done|]. split; [done|]. simpl. lia.
Qed.

Lemma userpriv_step m s b fd h arg :
  brel tasks m s b -> b_fds b !! (l, fd) = Some h ->
  returns (ioctl K fd (SNIOC (SNIOC_SET_USERPRIV arg))) s (fun _ s' => brel tasks m s' b).
Proof.
  intros (T & iu & G & u & Hs & Ht & Hb & Hm) Ek. rewrite <- Ht in Hl.
  destruct (binv_fd _ _ _ _ _ _ _ Hb Ek) as (a & c & n & Hk & HG & Hi & Hp).
  assert (b_topics b !! h_topic h = Some (bt_of n)) as Hbt by (by rewrite (bi_topics _ _ _ _ _ Hb), HG).
  destruct (userpriv_topic K iu (t_world T) _ G (h_topic h) n (hflags h) (u (l, fd)) arg
    (bi_world _ _ _ _ _ Hb) HG) as (w' & Hh' & Hw' & E).
  eapply returns_mono; [apply (ioctl_step K s T Hs Hl fd a c _ _ _ _ _ Hk Hi E)|]. intros x s' [-> Hd].
  eexists _, iu, _, u. split; [exact Hd|]. split; [done|]. simpl. rewrite Hh'. split; [|done].
  rewrite <- (broker_eta _ _ _ Hbt). by apply (binv_samples T iu G u b (h_topic h) n).
Qed.

Lemma buffer_step m s b fd h t q :
  brel tasks m s b -> b_fds b !! (l, fd) = Some h -> b_topics b !! h_topic h = Some t ->
  0 < q -> q * Z.max 4 (bt_esize t) < 2 ^ 31 ->
  returns (ioctl K fd (SNIOC (SNIOC_SET_BUFFER_NUMBER q))) s (fun _ s' =>
    brel tasks m s' (mk_b (<[h_topic h := topic_opened 0 q (Some t)]> (b_topics b)) (b_fds b))).
Proof.
  intros (T & iu & G & u & Hs & Ht & Hb & Hm) Ek Hbt Hq Hsm. rewrite <- Ht in Hl.
  destruct (binv_fd _ _ _ _ _ _ _ Hb Ek) as (a & c & n & Hk & HG & Hi & Hp).
  destruct (binv_topic _ _ _ _ _ _ _ Hb Hbt) as (n' & HG' & ->). assert (n' = n) as -> by congruence.
  destruct (buffer_topic K iu (t_world T) _ G (h_topic h) n (hflags h) (u (l, fd)) q
    (bi_world _ _ _ _ _ Hb) HG Hq Hsm) as (w' & r & Hh' & Hw' & E).
  eapply returns_mono; [apply (ioctl_step K s T Hs Hl fd a c _ _ _ _ _ Hk Hi E)|]. intros x s' [-> Hd].
  eexists _, iu, _, u. split; [exact Hd|]. split; [done|]. simpl. rewrite Hh'. split; [|done].
  replace (match t_hist (n_spec n) with [] => _ | _ => _ end) with (bt_of (with_queue n (queue_after (Z.to_nat q) n))).
  - by apply (binv_samples T iu G u b (h_topic h) n).
  - unfold bt_of, queue_after. simpl. destruct (t_hist (n_spec n)); [done|]. done.
Qed.

(** The supply of memory is good for a file. *)
Lemma heap_file T iu G u b a heap :
  binv T iu G u b -> uw_heap (t_world T) = a :: heap -> a <> NULL /\ t_info T !! a = None /\
    forall k2 a2 c2, t_tab T !! k2 = Some (a2, c2) -> a2 <> a.
Proof.
  intros Hb Eh. assert (a ∈ uw_heap (t_world T)) as Ha by (rewrite Eh; by left).
  pose proof (bi_heap _ _ _ _ _ Hb a Ha) as Hia. split; [|split; [done|]].
  - destruct (w_ns _ _ _ _ (bi_world _ _ _ _ _ Hb)) as (? & ? & ? & _ & _ & Hf). rewrite Forall_forall in Hf.
    by destruct (Hf a Ha).
  - intros k2 a2 c2 H2 ->. pose proof (bi_fds _ _ _ _ _ Hb k2) as Bf. rewrite H2 in Bf.
    destruct (b_fds b !! k2); [|done]. destruct Bf as (n2 & _ & Hi2 & _). congruence.
Qed.

(** A topic is added to the world. *)
Lemma binv_topic_new T iu G u b nm n w :
  binv T iu G u b -> G !! nm = None -> wrel iu w (refs_of (t_info T)) (<[nm := n]> G) ->
  (forall a, a ∈ uw_heap w -> a ∈ uw_heap (t_world T)) ->
  binv (with_w T w) iu (<[nm := n]> G) u (mk_b (<[nm := bt_of n]> (b_topics b)) (b_fds b)).
Proof.
  intros [Bw Bh Bt Bf Ba Bu] HG Hw Hh. constructor; simpl; try done.
  - intros a Ha. by apply Bh, Hh.
  - intros nm1. destruct (decide (nm1 = nm)) as [->|Hne]; [by rewrite !lookup_insert_eq|by rewrite !lookup_insert_ne].
  - intros k. specialize (Bf k). destruct (b_fds b !! k) as [h|], (t_tab T !! k) as [[a c]|]; try done.
    destruct Bf as (n1 & HG1 & Hi & Hp). exists n1. by rewrite lookup_insert_ne by congruence.
Qed.

Lemma register_usensor_step m s b nm info lret (k : Z -> Z -> U Z) Q :
  brel tasks (6 + m) s b -> name_ok nm -> b_topics b !! nm = None -> room b -> r_path info = topic_path nm ->
  0 < r_esize info -> r_persist info = false -> 0 <= r_nbuffer info ->
  Z.of_nat (queue_of (r_nbuffer info)) * Z.max 4 (r_esize info) < 2 ^ 31 -> 0 <= lret ->
  (forall s' err,
     brel tasks m s' (mk_b (<[nm := mk_bt (r_esize info) (queue_of (r_nbuffer info)) []]> (b_topics b)) (b_fds b)) ->
     returns (k lret err) s' Q) ->
  returns (fd ← open K ORB_USENSOR_PATH O_WRONLY;
           if fd <? 0 then mret fd
           else '(ret, _) ← ioctl K fd (SNIOC_REGISTER lret info); err ← get_errno; close K fd;; k ret err) s Q.
Proof.
  intros (T & iu & G & u & Hs & Ht & Hb & Hm) Hnm Hbt Hroom Hpath He Hper Hnb Hsm Hlr Hk. rewrite <- Ht in Hl.
  assert (G !! nm = None) as HG by (rewrite (bi_topics _ _ _ _ _ Hb) in Hbt; by destruct (G !! nm)).
  destruct (uw_heap (t_world T)) as [|a heap] eqn:Eh; simpl in Hm; try lia.
  destruct (heap_file _ _ _ _ _ _ _ Hb Eh) as (Ha0 & Hia & Hana).
  pose proof (wrel_heap _ _ _ _ 1 (bi_world _ _ _ _ _ Hb)) as Hw0. rewrite Eh in Hw0. simpl in Hw0. rewrite drop_0 in Hw0.
  destruct (open_step K s T Hs Hl ORB_USENSOR_PATH O_WRONLY a heap Eh Ha0 Hia (room_free _ _ _ _ _ Hb Hroom))
    as (fd & Hlow & Hopen).
  destruct (find_usensor K iu _ _ G Hw0) as (w1 & E1 & Hw1 & Hh1). simpl in Hh1.
  specialize (Hopen _ _ _ E1). change (OK <? 0) with false in Hopen. cbv iota in Hopen.
  apply returns_bind. eapply returns_mono; [exact (Hopen _ _ eq_refl (open_usensor _ _ _ _ _ Hw1))|]. clear Hopen.
  intros r1 s1 [-> Hd1]. destruct Hlow as (Hfd0 & Hfdn & _). replace (fd <? 0) with false by lia.
  set (T1 := mk_fspec _ _ _ w1) in Hd1.
  destruct (register_topic K iu w1 _ G nm lret info O_WRONLY NULL Hw1 HG Hnm Hpath He Hper Hnb Hsm ltac:(rewrite Hh1; lia) Hlr)
    as (w2 & i & up & j & E2 & Hw2 & Hj & Hh2).
  apply returns_bind. eapply returns_mono.
  { eapply (ioctl_step K s1 T1 Hd1 Hl fd a); [apply lookup_insert_eq|apply lookup_insert_eq|exact E2]. }
  intros x2 s2 [-> Hd2]. replace (lret <? 0) with false by lia.
  apply returns_bind. exists (sys_errno s2), s2. split; [done|].
  destruct (release_node iu w2 _ _ iu Hw2) as (w3 & E3 & Hw3 & Hh3).
  { unfold add_ref. rewrite decide_True by done. lia. }
  apply returns_bind. eapply returns_mono.
  { eapply (sys_close_step K s2 _ Hd2 Hl fd a); [apply lookup_insert_eq|apply lookup_insert_eq|..].
    - intros k2 c2. simpl. rewrite lookup_insert_Some. intros [[<- _]|[_ H2]]; [done|]. by destruct (Hana _ _ _ H2).
    - unfold file_close. cbn [fp_inode vo_close vo_release uorb_ops].
      destruct (usensor_dev _ _ _ _ Hw2) as (ii & Hii & _ & Hdis).
      destruct (w_ns _ _ _ _ Hw2) as (? & ? & ? & Hr & _).
      rewrite (proj2 (Z.eqb_neq iu NULL)) by (intros ->; by rewrite (nr_null _ _ _ _ Hr) in Hii).
      simpl t_world. unfold uv_close. cbn [fp_inode]. rewrite Hdis. cbn [mbind option_bind].
      change (0 <=? 0) with true. cbv iota. by rewrite E3. }
  intros x3 s3 [-> Hd3]. apply Hk. simpl in Hd3. rewrite !delete_insert_id in Hd3 by done.
  exists (with_w T w3), iu, (<[nm := mk_topic i up (r_esize info) (queue_of (r_nbuffer info)) (mk_tspec [] ∅)]> G), u.
  split; [done|]. split; [done|]. simpl. rewrite Hh3, Hh2, Hh1, length_drop. split; [|lia].
  eapply (binv_topic_new T iu G u b nm); [done|done| |].
  - eapply wrel_ext; [exact Hw3|]. intros b'. apply add_del_ref.
  - rewrite Hh3, Hh2, Hh1, Eh. intros b' Hb'. right. eapply elem_of_submseteq; [exact Hb'|].
    apply sublist_submseteq, sublist_drop.
Qed.

Lemma brel_mono m m' s b : brel tasks m s b -> (m' <= m)%nat -> brel tasks m' s b.
Proof. intros (T & iu & G & u & Hs & Ht & Hb & Hm) Hle. exists T, iu, G, u. do 3 (split; [done|]). lia. Qed.

(** What a task has to respect when it opens a topic: a name that fits into the
    request, an instance and a queue that are proper, the size all others use
    for the topic, and a descriptor that is left. *)
Record topic_req (meta : orb_metadata) (i q : Z) b : Prop := {
  tq_name : Forall (fun c => c <> SLASH) (o_name meta);
  tq_instance : 0 <= i < 2 ^ 31;
  tq_short : zlen (topic_path (node (o_name meta) i)) < NAME_MAX;
  tq_size : 0 < o_size meta;
  tq_queue : 0 <= q;
  tq_small : Z.of_nat (queue_of q) * Z.max 4 (o_size meta) < 2 ^ 31;
  tq_same : forall t, b_topics b !! node (o_name meta) i = Some t -> bt_esize t = o_size meta;
  tq_room : room b
}.

Lemma finish_step m s b fd h t q :
  brel tasks m s b -> b_fds b !! (l, fd) = Some h -> b_topics b !! h_topic h = Some t ->
  0 <= q -> q * Z.max 4 (bt_esize t) < 2 ^ 31 ->
  returns ((if q =? 0 then mret () else ioctl K fd (SNIOC (SNIOC_SET_BUFFER_NUMBER q));; mret ());; mret fd) s
    (fun r s' => r = fd /\ brel tasks m s' (mk_b (<[h_topic h := topic_opened 0 q (Some t)]> (b_topics b)) (b_fds b))).
Proof.
  intros Hb Hk Ht Hq Hs. apply returns_bind. destruct (Z.eqb_spec q 0) as [->|Hne].
  - apply returns_ret, returns_ret. split; [done|].
    replace (topic_opened 0 0 (Some t)) with t by (by destruct t as [? ? []]). by rewrite broker_eta.
  - apply returns_bind. eapply returns_mono; [eapply buffer_step; try done; lia|]. intros ? s' Hb'.
    by apply returns_ret, returns_ret.
Qed.

Lemma advsub_step m s b junk lret meta (write : bool) i q :
  brel tasks (9 + m) s b -> topic_req meta i q b -> 0 <= lret ->
  returns (orb_advsub_open K junk lret meta (if write then O_WRONLY else O_RDONLY) i q) s (fun fd s' =>
    free_fd b l fd /\ brel tasks m s' (opened l fd (node (o_name meta) i) (o_size meta) q write b)).
Proof.
  intros Hb [H1 H2 H3 H4 H5 H6 H7 H8] Hlr. destruct (orb_path_node _ _ H1 H2) as [Ep Hnm].
  unfold orb_advsub_open. set (nm := node (o_name meta) i) in *.
  apply returns_bind. eapply returns_lift; [exact Ep|]. cbv zeta.
  change (Z.lor (if write then O_WRONLY else O_RDONLY) O_CLOEXEC) with (hflags (mk_h nm 0 write)).
  assert (q * Z.max 4 (o_size meta) < 2 ^ 31) as Hq.
  { revert H6. unfold queue_of. destruct (Z.eqb_spec q 0); [lia|]. by rewrite Z2Nat.id. }
  apply returns_bind. destruct (b_topics b !! nm) as [t|] eqn:Et.
  - eapply returns_mono; [eapply (open_there (7 + m)); done|]. intros fd s1 [Hfree Hb1].
    replace (0 <=? fd) with true by (destruct Hfree; lia).
    eapply returns_mono; [eapply (finish_step (7 + m) s1 _ fd _ t q Hb1)|].
    + apply lookup_insert_eq.
    + done.
    + done.
    + by rewrite (H7 t eq_refl).
    + intros r s2 [-> Hb2]. split; [done|]. apply (brel_mono (7 + m)); [|lia]. unfold opened. rewrite Et.
      replace (bt_hist (topic_opened (o_size meta) q (Some t))) with (bt_hist t) by (by destruct t as [? ? []]).
      exact Hb2.
  - eapply returns_mono; [eapply (open_absent (8 + m)); done|]. intros r1 s1 (-> & _ & Hb1).
    change (0 <=? -1) with false. cbv iota.
    apply (register_usensor_step (2 + m) s1 b nm (reginfo_of junk meta (topic_path nm) (hflags (mk_h nm 0 write)) q) lret); try done.
    + cbn [reginfo_of r_path]. apply take_ge. unfold NAME_MAX in *. lia.
    + by destruct write.
    + intros s2 err Hb2. replace (lret <? 0) with false by lia. cbn [andb].
      set (t := mk_bt _ _ []) in Hb2. set (b2 := mk_b _ _) in Hb2.
      assert (b_topics b2 !! nm = Some t) as Et2 by apply lookup_insert_eq.
      apply returns_bind. eapply returns_mono; [eapply (open_there m); done|]. intros fd s3 [Hfree Hb3].
      replace (fd <? 0) with false by (destruct Hfree; lia).
      apply returns_bind. eapply (returns_mono _ _ (fun _ s4 => brel tasks m s4 _)).
      { destruct (err =? EEXIST); [apply returns_ret; exact Hb3|].
        apply returns_bind. eapply returns_mono; [eapply (userpriv_step m); [exact Hb3|apply lookup_insert_eq]|].
        intros x4 s4 Hb4. by apply returns_ret. }
      intros x4 s4 Hb4. eapply returns_mono; [eapply (finish_step m s4 _ fd _ t q Hb4)|].
      * apply lookup_insert_eq.
      * done.
      * done.
      * done.
      * intros r s5 [-> Hb5]. split; [done|]. unfold opened. rewrite Et.
        subst b2 t. cbn [h_topic b_topics b_fds topic_opened bt_hist bt_esize bt_queue r_esize r_nbuffer reginfo_of] in Hb5 |- *.
        assert (Nat.max (Z.to_nat q) (queue_of q) = queue_of q) as Eq by (unfold queue_of; destruct (Z.eqb_spec q 0); lia).
        rewrite insert_insert_eq, Eq in Hb5. exact Hb5.
Qed.

(** What a task has to respect in a call. *)
Definition call_fits (c : ocall) b : Prop :=
  match c with
  | OAdvertise meta data i q =>
      topic_req meta i q b /\
      match data with
      | Some x => zlen x = o_size meta /\
          has_room (o_size meta) (topic_opened (o_size meta) q (b_topics b !! node (o_name meta) i))
      | None => True
      end
  | OSubscribe meta i => topic_req meta i 0 b
  | OPublish meta fd x => zlen x = o_size meta /\
      forall h t, b_fds b !! (l, fd) = Some h -> b_topics b !! h_topic h = Some t -> has_room (o_size meta) t
  | OCopy meta fd => 0 < o_size meta /\
      forall h t, b_fds b !! (l, fd) = Some h -> b_topics b !! h_topic h = Some t -> bt_esize t = o_size meta
  | OCheck _ | OClose _ => True
  end.

Lemma loads_all (x : list Z) e : zlen x = e -> loads x 0 e = Some x.
Proof. intros <-. rewrite loads_in_range by lia. change (Z.to_nat 0) with O. by rewrite drop_0, Nat2Z.id, firstn_all. Qed.

Lemma opened_fd fd nm e q write b :
  b_fds (opened l fd nm e q write b) !! (l, fd) =
  Some (mk_h nm (length (bt_hist (topic_opened e q (b_topics b !! nm)))) write).
Proof. apply lookup_insert_eq. Qed.
Lemma opened_topic fd nm e q write b :
  b_topics (opened l fd nm e q write b) !! nm = Some (topic_opened e q (b_topics b !! nm)).
Proof. apply lookup_insert_eq. Qed.

Lemma call_step m s b junk lret c :
  brel tasks (9 + m) s b -> allocates (k_malloc K) -> 0 <= lret -> call_fits c b ->
  returns (ocall_exec (mk_req K junk lret c)) s (fun r s' =>
    exists b', bstep l c b r b' /\ brel tasks m s' b').
Proof.
  intros Hb Hmal Hlr Hok. assert (brel tasks m s b) as Hb0 by (eapply brel_mono; [exact Hb|lia]).
  unfold ocall_exec. cbn [q_task q_junk q_lret q_call].
  destruct c as [meta data i q|meta i|meta fd x|meta fd|fd|fd]; cbn [call_fits] in Hok.
  - destruct Hok as [Hreq Hdata]. unfold orb_advertise_multi_queue, orb_advertise_multi_queue_flags.
    apply returns_bind, returns_bind, returns_ret, returns_bind.
    eapply returns_mono; [eapply (advsub_step m s b junk lret meta true); done|]. intros fd s1 [Hfree Hb1].
    replace (fd <? 0) with false by (destruct Hfree; lia). destruct data as [x|].
    + destruct Hdata as [Hx Hroom]. apply returns_bind. eapply returns_lift; [by apply loads_all|].
      apply returns_bind. eapply returns_mono; [eapply (publish_step m s1 _ fd x _ Hb1 Hx Hmal)|].
      * intros h t Hh Ht. rewrite opened_fd in Hh. apply (inj Some) in Hh. rewrite <- Hh in Ht.
        rewrite opened_topic in Ht. apply (inj Some) in Ht. rewrite <- Ht. exact Hroom.
      * intros r s2 H. rewrite opened_fd in H. cbn [h_write h_topic] in H. destruct H as (-> & _ & Hb2).
        rewrite Z.eqb_refl. apply returns_ret, returns_ret. eexists. split; [by apply bs_advertise_data|done].
    + apply returns_ret, returns_ret. eexists. split; [by apply bs_advertise|done].
  - apply returns_bind. eapply returns_mono; [eapply (advsub_step m s b junk lret meta false); done|].
    intros fd s1 [Hfree Hb1]. apply returns_ret. eexists. split; [by apply bs_subscribe|done].
  - destruct Hok as [Hx Hroom]. unfold orb_publish. apply returns_bind, returns_bind.
    eapply returns_lift; [by apply loads_all|]. apply returns_bind.
    eapply returns_mono; [by eapply (publish_step m s b fd x)|]. intros r s1 H.
    destruct (b_fds b !! (l, fd)) as [h|] eqn:Ek; [destruct (h_write h) eqn:Ew|].
    + destruct H as (-> & _ & Hb1). rewrite Z.eqb_refl. apply returns_ret, returns_ret.
      eexists. split; [by apply bs_publish|done].
    + destruct H as (-> & Hb1). rewrite (proj2 (Z.eqb_neq (-1) (o_size meta))) by lia.
      apply returns_ret, returns_ret. exists b. split; [|done]. apply bs_publish_bad. rewrite Ek. simpl. by rewrite Ew.
    + destruct H as (-> & Hb1). rewrite (proj2 (Z.eqb_neq (-1) (o_size meta))) by lia.
      apply returns_ret, returns_ret. exists b. split; [|done]. apply bs_publish_bad. by rewrite Ek.
  - destruct Hok as [He Hroom]. apply returns_bind. eapply returns_mono; [by eapply (copy_step m s b)|].
    intros [r d] s1 (b' & Hs & Hb1). apply returns_ret. by exists b'.
  - apply returns_bind. eapply returns_mono; [by eapply (check_step m s b)|].
    intros [r o] s1 [Hs Hb1]. apply returns_ret. by exists b.
  - apply returns_bind. eapply returns_mono; [by eapply (close_call_step m s b)|].
    intros r s1 (b' & Hs & Hb1). apply returns_ret. by exists b'.
Qed.
End steps.

(** ** Runs *)

(** The calls of the tasks [tasks], one after the other. *)
Definition req_ok (tasks : gset Z) (q : req) (b : broker) : Prop :=
  k_list (q_task q) ∈ tasks /\ allocates (k_malloc (q_task q)) /\ 0 <= q_lret q /\ call_fits (q_task q) (q_call q) b.

Fixpoint reqs_ok (tasks : gset Z) (qs : list req) (b : broker) : Prop :=
  match qs with
  | [] => True
  | q :: qs => req_ok tasks q b /\
      forall r b', bstep (k_list (q_task q)) (q_call q) b r b' -> reqs_ok tasks qs b'
  end.

Inductive bruns : list req -> broker -> list ores -> broker -> Prop :=
| br_nil b : bruns [] b [] b
| br_cons q qs b r b1 rs b2 :
    bstep (k_list (q_task q)) (q_call q) b r b1 -> bruns qs b1 rs b2 -> bruns (q :: qs) b (r :: rs) b2.

Lemma calls_step tasks qs : forall m s b,
  brel tasks (9 * length qs + m) s b -> reqs_ok tasks qs b ->
  returns (ocalls_run qs) s (fun rs s' => exists b', bruns qs b rs b' /\ brel tasks m s' b').
Proof.
  induction qs as [|[K junk lret c] qs IH]; intros m s b Hb Hok; cbn [ocalls_run].
  - apply returns_ret. exists b. split; [constructor|]. eapply brel_mono; [exact Hb|lia].
  - destruct Hok as [(Hl & Hmal & Hlr & Hfit) Hok]. apply returns_bind. eapply returns_mono.
    { eapply (call_step K tasks Hl (9 * length qs + m)); try done. eapply brel_mono; [exact Hb|]. cbn [length]. lia. }
    intros r s1 (b1 & Hs & Hb1). apply returns_bind.
    eapply returns_mono; [eapply IH; [exact Hb1|by eapply Hok]|]. intros rs s2 (b2 & Hr & Hb2).
    apply returns_ret. exists b2. split; [by econstructor|done].
Qed.

(** The system after [usensor_initialize], with the tasks [tasks]; [heap] are the
    blocks the allocator has. *)
Definition no_topics : broker := mk_b ∅ ∅.
Definition boot_world (root : Z) (heap : list Z) : uworld := mk_uw (boot_fs root) ∅ [] heap.
Definition booted (K : task) (root : Z) (heap : list Z) (tasks : gset Z) : option sys :=
  '(_, w) ← usensor_initialize K (boot_world root heap);
  Some (mk_sys (mk_vfs (gset_to_gmap fdlist_init tasks) ∅ w) 0).

Lemma init_view fd : lview fdlist_init fd = None.
Proof.
  unfold lview. destruct ((0 <=? fd) && (fd <? fdlist_count fdlist_init)) eqn:E; [|done].
  change (fdlist_count fdlist_init) with 8 in E. zbool.
  assert (fd = 0 \/ fd = 1 \/ fd = 2 \/ fd = 3 \/ fd = 4 \/ fd = 5 \/ fd = 6 \/ fd = 7) as Hc by lia.
  by destruct Hc as [->|[->|[->|[->|[->|[->|[->| ->]]]]]]].
Qed.

Lemma boot_descriptors tasks (w : uworld) :
  drel (mk_vfs (gset_to_gmap fdlist_init tasks) ∅ w) (mk_fspec ∅ ∅ tasks w).
Proof.
  constructor; [|apply dom_gset_to_gmap|done]. constructor; try done.
  - intros l x. cbn [lists]. rewrite lookup_gset_to_gmap_Some. intros [_ <-]. by repeat constructor.
  - intros l fd. unfold slot_of. cbn [lists t_tab]. rewrite lookup_empty.
    destruct (gset_to_gmap fdlist_init tasks !! l) as [x|] eqn:E; [|done].
    apply lookup_gset_to_gmap_Some in E as [_ <-]. symmetry. apply init_view.
  - unfold none. intros a. lia.
Qed.

Lemma boot_world_rel K root heap :
  root <> NULL -> NoDup heap -> NULL ∉ heap -> root ∉ heap -> (3 <= length heap)%nat ->
  exists w iu, usensor_initialize K (boot_world root heap) = Some (0, w) /\
    wrel iu w (fun _ => O) ∅ /\ (length heap <= 3 + length (uw_heap w))%nat.
Proof.
  intros Hr Hnd H0 Hrh Hlen. unfold usensor_initialize. destruct heap as [|us heap]; [simpl in Hlen; lia|].
  apply NoDup_cons in Hnd as [_ Hnd]. cbn [uw_heap boot_world uw_fs].
  pose proof (boot_rel root Hr) as Hn. change empty_ns with (mk_nspec (fun _ => None) (fun _ => O)) in Hn.
  assert (Forall (fresh root (mk_nspec (fun _ => None) (fun _ => O))) heap) as Hf.
  { apply Forall_forall. intros a Ha. split; [intros ->; apply H0; by right|].
    split; [intros ->; apply Hrh; by right|]. done. }
  destruct (register_step (k_cwd K) (boot_fs root) _ _ _ _ heap ORB_USENSOR_PATH USENSOR_FOPS us Hn
    (usensor_path_ok _) Hnd Hf) as (ret & fs' & t' & s' & E & Hs & Hn' & Hroot).
  destruct (register_used _ _ _ _ _ _ _ _ _ _ (nr_fs _ _ _ _ Hn) (usensor_path_ok _) E Hnd) as [Hdom Hused].
  { intros a Ha. eapply fresh_none; [exact Hn|]. rewrite Forall_forall in Hf. by apply Hf. }
  rewrite E. cbn [mbind option_bind]. set (used := (base.size (inodes fs') - base.size (inodes (boot_fs root)))%nat) in *.
  rewrite usensor_path_names in Hused. change (length usensor_names) with 2%nat in Hused.
  inversion Hs as [mm pp oo vv ff rr i f1 f' H1 [H2 H2'] H3 H4|? ? ? ? ? ? x H1|? ? ? ? ? ? ? H1 H2| | | | |]; subst;
    change (names (full_path (k_cwd K) ORB_USENSOR_PATH)) with usensor_names in *;
    [|done|cbn [length usensor_names] in H2, Hlen; lia].
  eexists _, i. split; [reflexivity|]. split; [|cbn [set_heap uw_heap length]; rewrite length_drop; lia].
  assert (NoDup (drop used heap)) as Hnd' by (eapply sublist_NoDup; [exact Hnd|apply sublist_drop]).
  constructor; cbn [set_heap set_fs uw_heap uw_fs uw_devs]; try done.
  exists (new_data 0), t', f'. split; [done|]. split.
  - split; [exists us; by rewrite H4, decide_True|]. intros nm Hnm. rewrite H4, decide_False by done.
    rewrite lookup_empty. destruct (f1 (topic_names nm)) as [x|] eqn:Ef; [|done]. exfalso.
    destruct (H2' _ _ Ef) as [?|(_ & [k Hk] & _)]; [done|]. by apply (f_equal length) in Hk.
  - apply Forall_forall. intros a Ha.
    assert (a ∈ heap) as Hah by (rewrite <- (take_drop used heap), elem_of_app; by right).
    eapply fresh_new; [exact Hn'|intros ->; apply H0; by right|]. apply not_elem_of_dom.
    rewrite Hdom, not_elem_of_union, elem_of_list_to_set. split.
    + rewrite <- (take_drop used heap) in Hnd. apply NoDup_app in Hnd as (_ & Hd & _). intros H. by apply (Hd a H).
    + rewrite elem_of_dom, (fresh_none _ _ _ _ a Hn); [by intros [? ?]|]. rewrite Forall_forall in Hf. by apply Hf.
Qed.

Lemma booted_rel K root heap tasks m :
  root <> NULL -> NoDup heap -> NULL ∉ heap -> root ∉ heap -> (3 + m <= length heap)%nat ->
  exists s, booted K root heap tasks = Some s /\ brel tasks m s no_topics.
Proof.
  intros Hr Hnd H0 Hrh Hlen. destruct (boot_world_rel K root heap Hr Hnd H0 Hrh ltac:(lia)) as (w & iu & E & Hw & Hh).
  unfold booted. rewrite E. eexists. split; [reflexivity|].
  exists (mk_fspec ∅ ∅ tasks w), iu, ∅, (fun _ => 0). split; [apply boot_descriptors|]. split; [done|].
  split; [|cbn [t_world]; lia]. by constructor.
Qed.

(** C6: uORB is a broker of topics.  From the start of the system on, for any
    calls that any tasks make one after the other to advertise, subscribe,
    publish, copy, check and close, within the limits below, the calls return
    without undefined behaviour and with the results of the specification: a
    topic appears with its first user, each descriptor is the lowest free one of
    its task, a subscriber gets every sample published after it subscribed, in
    order, from the oldest one the topic still keeps, and topics do not affect
    each other.  The limits: the path of a topic is shorter than [NAME_MAX] and
    its name has no slash; all users of a topic give the same size and publish
    samples of that size; a task that opens a topic has a free descriptor;
    memory is available and the locks are obtained; the buffer of a topic is
    below [2^31] bytes, and fewer samples are published than its 32-bit
    positions count. *)
Theorem uorb_refines_broker K root heap tasks qs :
  root <> NULL -> NoDup heap -> NULL ∉ heap -> root ∉ heap -> (3 + 9 * length qs <= length heap)%nat ->
  reqs_ok tasks qs no_topics ->
  exists s rs s' b, booted K root heap tasks = Some s /\ ocalls_run qs s = Some (rs, s') /\ bruns qs no_topics rs b.
Proof.
  intros Hr Hnd H0 Hrh Hlen Hok. destruct (booted_rel K root heap tasks _ Hr Hnd H0 Hrh Hlen) as (s & E & Hb).
  rewrite <- (Nat.add_0_r (9 * _)) in Hb.
  destruct (calls_step tasks qs O s no_topics Hb Hok) as (rs & s' & E2 & b & Hs & _). by exists s, rs, s', b.
Qed.

(** ** A session *)

Section session.
Context (P S : task) (tasks : gset Z) (junk lret : Z) (meta : orb_metadata) (i q : Z).
Hypothesis (HP : k_list P ∈ tasks) (HS : k_list S ∈ tasks).
Local Abbreviation nm := (node (o_name meta) i).
Local Abbreviation e := (o_size meta).

(** [P] advertises the topic, [S] subscribes to it, [P] publishes the samples and
    [S] copies as many. *)
Definition session (xs : list (list Z)) : U (list Z * list (Z * list Z)) :=
  fdp ← orb_advertise_multi_queue P junk lret meta None (Some i) q;
  fds ← orb_subscribe_multi S junk lret meta i;
  rs ← mapM (orb_publish P meta fdp) xs;
  ds ← mapM (fun _ => orb_copy S meta fds true) xs;
  mret (rs, ds).

Lemma publish_all xs : forall m s b fd p nb hs,
  brel tasks m s b -> allocates (k_malloc P) -> b_fds b !! (k_list P, fd) = Some (mk_h nm p true) ->
  b_topics b !! nm = Some (mk_bt e nb hs) -> Forall (fun x => zlen x = e) xs ->
  (zlen hs + zlen xs) * Z.max 4 e < 2 ^ 32 -> zlen hs + zlen xs < 2 ^ 31 ->
  returns (mapM (orb_publish P meta fd) xs) s (fun rs s' => rs = map (fun _ => 0) xs /\
    brel tasks m s' (mk_b (<[nm := mk_bt e nb (hs ++ xs)]> (b_topics b)) (b_fds b))).
Proof.
  induction xs as [|x xs IH]; intros m s b fd p nb hs Hb Hmal Hk Ht Hxs B1 B2; cbn [mapM].
  { apply returns_ret. split; [done|]. rewrite app_nil_r. by rewrite broker_eta. }
  apply Forall_cons in Hxs as [Hx Hxs]. cbn [length] in B1, B2. apply returns_bind. unfold orb_publish.
  apply returns_bind. eapply returns_lift; [by apply loads_all|]. apply returns_bind.
  eapply returns_mono; [eapply (publish_step P tasks HP m s b fd x e Hb Hx Hmal)|].
  - intros h t. rewrite Hk. intros Eh. apply (inj Some) in Eh. rewrite <- Eh. cbn [h_topic]. rewrite Ht.
    intros Et. apply (inj Some) in Et. rewrite <- Et. unfold has_room. cbn [bt_esize bt_hist]. split; [done|].
    split; nia.
  - intros r s1. rewrite Hk. cbn [h_write h_topic]. intros (-> & _ & Hb1). rewrite Z.eqb_refl. apply returns_ret.
    unfold add_sample in Hb1. rewrite <- (insert_id (b_topics b) _ _ Ht) in Hb1.
    rewrite alter_insert_eq in Hb1. cbn [bt_esize bt_queue bt_hist] in Hb1.
    apply returns_bind. eapply returns_mono.
    { eapply (IH m s1 _ fd p nb (hs ++ [x]) Hb1 Hmal Hk (lookup_insert_eq _ _ _) Hxs);
        rewrite length_app; cbn [length]; lia. }
    intros rs s2 [-> Hb2]. apply returns_ret. split; [done|]. cbn [b_topics b_fds] in Hb2.
    rewrite insert_insert_eq, <- app_assoc in Hb2. exact Hb2.
Qed.

Lemma copy_all xs : forall m s b fd nb hs,
  brel tasks m s b -> 0 < e ->
  b_fds b !! (k_list S, fd) = Some (mk_h nm (length hs) false) ->
  b_topics b !! nm = Some (mk_bt e nb (hs ++ xs)) -> (length xs <= nb)%nat ->
  returns (mapM (fun _ => orb_copy S meta fd true) xs) s (fun ds s' => ds = map (fun x => (0, x)) xs).
Proof.
  induction xs as [|x xs IH]; intros m s b fd nb hs Hb He Hk Ht Hn; cbn [mapM]; [by apply returns_ret|].
  apply returns_bind. eapply returns_mono; [eapply (copy_step S tasks HS m s b meta fd Hb He)|].
  - intros h t. rewrite Hk. intros Eh. apply (inj Some) in Eh. rewrite <- Eh. cbn [h_topic]. rewrite Ht.
    intros Et. apply (inj Some) in Et. by rewrite <- Et.
  - intros [r d] s1 (b1 & Hs & Hb1). cbn [fst snd] in *. cbn [length] in Hn.
    inversion Hs as [| | | | |? ? ? h t Hk' Hw' Ht' Hlt E1 E2 E3 E4|? ? ? h t Hk' Hw' Ht' Hge|? ? ? Hnot| | | |]; subst.
    + rewrite Hk in Hk'. apply (inj Some) in Hk'. rewrite <- Hk' in *. cbn [h_topic h_pos] in *.
      rewrite Ht in Ht'. apply (inj Some) in Ht'. rewrite <- Ht' in *. cbn [bt_queue bt_hist] in *.
      assert (first_kept nb (hs ++ x :: xs) (length hs) = length hs) as Ef.
      { unfold first_kept. rewrite length_app. cbn [length]. lia. }
      rewrite Ef in Hb1. apply returns_bind. eapply returns_mono.
      { eapply (IH m s1 _ fd nb (hs ++ [x]) Hb1 He); [|cbn [b_topics]; by rewrite <- app_assoc|lia].
        cbn [b_fds]. rewrite lookup_insert_eq, length_app. cbn [length]. by rewrite Nat.add_1_r. }
      intros ds s2 ->. apply returns_ret. cbn [map]. do 2 f_equal. unfold next_sample. rewrite Ef.
      by rewrite list_lookup_middle.
    + rewrite Hk in Hk'. apply (inj Some) in Hk'. rewrite <- Hk' in *. cbn [h_topic h_pos] in *.
      rewrite Ht in Ht'. apply (inj Some) in Ht'. rewrite <- Ht' in *. cbn [bt_hist] in Hge.
      rewrite length_app in Hge. cbn [length] in Hge. lia.
    + rewrite Hk in Hnot. by destruct Hnot.
Qed.

(** What the session needs: room for the two descriptors, samples of the size of
    the topic, and no more of them than the topic keeps. *)
Record session_fits (xs : list (list Z)) (b : broker) : Prop := {
  sf_topic : topic_req P meta i q b;
  sf_room : forall fd, free_fd b (k_list P) fd -> room S (opened (k_list P) fd nm e q true b);
  sf_size : Forall (fun x => zlen x = e) xs;
  sf_keeps : (length xs <= bt_queue (topic_opened e q (b_topics b !! nm)))%nat;
  sf_bytes : (zlen (bt_hist (topic_opened e q (b_topics b !! nm))) + zlen xs) * Z.max 4 e < 2 ^ 32;
  sf_count : zlen (bt_hist (topic_opened e q (b_topics b !! nm))) + zlen xs < 2 ^ 31
}.

Lemma topic_opened_size b : topic_req P meta i q b -> bt_esize (topic_opened e q (b_topics b !! nm)) = e.
Proof.
  intros Hr. pose proof (tq_same _ _ _ _ _ Hr) as Hs. destruct (b_topics b !! nm) as [t|]; [|done].
  specialize (Hs t eq_refl). unfold topic_opened. destruct (bt_hist t); [|done]. exact Hs.
Qed.

Lemma topic_reopened e' t : topic_opened e' 0 (Some t) = t.
Proof. by destruct t as [? ? []]. Qed.

Lemma session_step m s b xs :
  brel tasks (18 + m) s b -> allocates (k_malloc P) -> 0 <= lret -> session_fits xs b ->
  returns (session xs) s (fun x _ => x = (map (fun _ => 0) xs, map (fun x => (0, x)) xs)).
Proof.
  intros Hb Hmal Hlr [Hreq Hroom Hxs Hkeep B1 B2]. pose proof (topic_opened_size b Hreq) as Hsz.
  unfold session, orb_advertise_multi_queue, orb_advertise_multi_queue_flags.
  apply returns_bind, returns_bind, returns_ret, returns_bind.
  eapply returns_mono; [eapply (advsub_step P tasks HP (9 + m) s b junk lret meta true i q Hb Hreq Hlr)|].
  intros fdp s1 [Hfree Hb1]. replace (fdp <? 0) with false by (destruct Hfree; lia). apply returns_ret, returns_bind.
  set (t := topic_opened e q (b_topics b !! nm)) in *. set (b1 := opened _ _ _ _ _ _ _) in Hb1.
  assert (b_topics b1 !! nm = Some t) as Ht1 by apply lookup_insert_eq.
  eapply returns_mono; [eapply (advsub_step S tasks HS m s1 b1 junk lret meta false i 0 Hb1)|].
  - destruct Hreq as [T1 T2 T3 T4 T5 T6 T7 T8]. constructor; try done.
    + change (queue_of 0) with 1%nat. revert T6. unfold queue_of. destruct (Z.eqb_spec q 0); nia.
    + rewrite Ht1. intros t' Et. apply (inj Some) in Et. by rewrite <- Et.
    + by apply Hroom.
  - done.
  - intros fds s2 [Hfree2 Hb2]. set (b2 := opened (k_list S) _ _ _ _ _ _) in Hb2.
    assert (b_topics b2 !! nm = Some t) as Ht2.
    { unfold b2. rewrite opened_topic, Ht1. by rewrite topic_reopened. }
    assert (t = mk_bt e (bt_queue t) (bt_hist t)) as Et by (rewrite <- Hsz; by destruct t).
    assert (b_fds b2 !! (k_list S, fds) = Some (mk_h nm (length (bt_hist t)) false)) as Hk2.
    { unfold b2. rewrite opened_fd, Ht1. by rewrite topic_reopened. }
    assert (exists p, b_fds b2 !! (k_list P, fdp) = Some (mk_h nm p true)) as [p Hk1].
    { exists (length (bt_hist t)). assert ((k_list S, fds) <> (k_list P, fdp)) as Hne.
      { intros E. destruct Hfree2 as (_ & Hn & _). rewrite E in Hn. unfold b1 in Hn. by rewrite opened_fd in Hn. }
      unfold b2, opened. cbn [b_fds]. rewrite lookup_insert_ne by done. apply lookup_insert_eq. }
    rewrite Et in Ht2. apply returns_bind. eapply returns_mono.
    { eapply (publish_all xs m s2 b2 fdp p (bt_queue t) (bt_hist t)); done. }
    intros rs s3 [-> Hb3]. apply returns_bind. eapply returns_mono.
    { eapply (copy_all xs m s3 _ fds (bt_queue t) (bt_hist t) Hb3); [apply Hreq|exact Hk2|apply lookup_insert_eq|done]. }
    intros ds s4 ->. by apply returns_ret.
Qed.
End session.

(** C7: samples arrive.  After any run of calls by any tasks, when a task
    advertises a topic, another or the same one subscribes to it, and samples are
    published that the topic can keep, every publication succeeds and the copies
    of the subscriber return exactly these samples, in the order of publication,
    byte for byte. *)
Theorem orb_session_delivers K root heap tasks qs P S junk lret meta i q xs :
  root <> NULL -> NoDup heap -> NULL ∉ heap -> root ∉ heap -> (21 + 9 * length qs <= length heap)%nat ->
  reqs_ok tasks qs no_topics ->
  k_list P ∈ tasks -> k_list S ∈ tasks -> allocates (k_malloc P) -> 0 <= lret ->
  (forall rs b, bruns qs no_topics rs b -> session_fits P S meta i q xs b) ->
  exists s rs s1 s2, booted K root heap tasks = Some s /\ ocalls_run qs s = Some (rs, s1) /\
    session P S junk lret meta i q xs s1 = Some ((map (fun _ => 0) xs, map (fun x => (0, x)) xs), s2).
Proof.
  intros Hr Hnd H0 Hrh Hlen Hok HP HS Hmal Hlr Hfit.
  destruct (booted_rel K root heap tasks (9 * length qs + 18) Hr Hnd H0 Hrh ltac:(lia)) as (s & E & Hb).
  destruct (calls_step tasks qs 18 s no_topics Hb Hok) as (rs & s1 & E1 & b & Hs & Hb1).
  destruct (session_step P S tasks junk lret meta i q HP HS O s1 b xs Hb1 Hmal Hlr (Hfit rs b Hs))
    as (x & s2 & E2 & ->). by exists s, rs, s1, s2.
Qed.

(** *** A run of two tasks *)

Definition demo_task (l : Z) : task := mk_task [] l true (fun k => Some (replicate (Z.to_nat k) 0)).
Definition camera_status : orb_metadata := mk_meta 4096 (chars "camera_status") 4.
Definition demo_heap : list Z := seqZ 16 80.
Definition demo_reqs : list req :=
  [mk_req (demo_task 5) 0 0 (OAdvertise camera_status None 0 2); mk_req (demo_task 6) 0 0 (OSubscribe camera_status 0);
   mk_req (demo_task 5) 0 0 (OPublish camera_status 0 [1; 2; 3; 4]); mk_req (demo_task 6) 0 0 (OCheck 0);
   mk_req (demo_task 6) 0 0 (OCopy camera_status 0); mk_req (demo_task 6) 0 0 (OCopy camera_status 0);
   mk_req (demo_task 5) 0 0 (OClose 0)].

Lemma demo_allocates l : allocates (k_malloc (demo_task l)).
Proof. intros k Hk. eexists. split; [reflexivity|]. rewrite length_replicate. lia. Qed.

Lemma free_fd_first b l fd : free_fd b l fd -> b_fds b !! (l, 0) = None -> fd = 0.
Proof. intros (H0 & _ & H) Hn. destruct (decide (fd = 0)) as [|Hne]; [done|]. by destruct (H 0 ltac:(lia)). Qed.

Lemma demo_topic_req l q b :
  0 <= q <= 2 -> b_fds b !! (l, 0) = None ->
  (forall t, b_topics b !! node (o_name camera_status) 0 = Some t -> bt_esize t = 4) ->
  topic_req (demo_task l) camera_status 0 q b.
Proof.
  intros Hq Hn Hs. constructor; try done.
  - by apply (bool_decide_unpack (Forall (fun c => c <> SLASH) (chars "camera_status"))).
  - lia.
  - unfold queue_of. cbn [o_size camera_status]. destruct (Z.eqb_spec q 0); lia.
  - exists 0. done.
Qed.

Lemma demo_run : (s ← booted (demo_task 5) 1 demo_heap {[5; 6]}; fst <$> ocalls_run demo_reqs s) =
  Some [OInt 0; OInt 0; OInt 0; OOut 0 (OutBool true); OData 0 [1; 2; 3; 4]; OData (-1) []; OInt 0].
Proof. vm_compute. reflexivity. Qed.

Definition all_of_size (e : Z) (b : broker) : Prop := map_Forall (fun _ t => bt_esize t = e) (b_topics b).

(** Calls that do not change the topics fit when all topics have the right size. *)
Lemma demo_tail_ok qs b :
  all_of_size 4 b ->
  Forall (fun q => k_list (q_task q) ∈ ({[5; 6]} : gset Z) /\ allocates (k_malloc (q_task q)) /\ 0 <= q_lret q /\
    match q_call q with OCopy m _ => o_size m = 4 | OCheck _ | OClose _ => True | _ => False end) qs ->
  reqs_ok {[5; 6]} qs b.
Proof.
  intros Hb Hqs. revert b Hb. induction Hqs as [|[K j lr c] qs (H1 & H2 & H3 & H4) _ IH]; intros b Hb; [done|].
  cbn [q_task q_lret q_call] in *. split.
  - split; [done|]. split; [done|]. split; [done|]. destruct c; try done. cbn [q_call call_fits q_task]. rewrite H4.
    split; [done|]. intros h t _ Ht. exact (Hb _ _ Ht).
  - intros r b' Hs. apply IH. destruct c; inversion Hs; subst; done.
Qed.

Lemma demo_reqs_ok : reqs_ok {[5; 6]} demo_reqs no_topics.
Proof.
  split; [split; [set_solver|split; [apply demo_allocates|split; [done|]]]|].
  { split; [|done]. by apply demo_topic_req. }
  intros r b H. inversion H as [? ? ? fd ? Hf| | | | | | | | | | |]; subst; clear H. apply free_fd_first in Hf as ->; [|done].
  split; [split; [set_solver|split; [apply demo_allocates|split; [done|]]]|].
  { apply demo_topic_req; [done|done|]. intros t. vm_compute. by intros [= <-]. }
  intros r b H. inversion H as [| |? ? fd ? Hf| | | | | | | | |]; subst; clear H. apply free_fd_first in Hf as ->; [|done].
  cbn [q_task k_list demo_task]. set (b := opened 6 _ _ _ _ _ _).
  assert (b_fds b !! (5, 0) = Some (mk_h (chars "camera_status0") 0 true)) as Hk by (vm_compute; reflexivity).
  assert (b_topics b = {[chars "camera_status0" := mk_bt 4 2 []]}) as Ht by (vm_compute; reflexivity).
  split; [split; [set_solver|split; [apply demo_allocates|split; [done|]]]|].
  { split; [done|]. intros h t. cbn [q_task demo_task k_list]. rewrite Hk, Ht. intros [= <-]. cbn [h_topic].
    rewrite lookup_singleton_eq. by intros [= <-]. }
  intros r b' H. apply demo_tail_ok.
  - inversion H as [| | |? ? ? ? h Hk' _| | | | | | | |]; subst; cbn [b_topics add_sample]; unfold all_of_size; cbn [b_topics add_sample].
    + cbn [q_task demo_task k_list] in Hk'. rewrite Hk in Hk'. injection Hk' as <-. cbn [h_topic]. rewrite Ht.
      rewrite alter_singleton_eq. by apply map_Forall_singleton.
    + rewrite Ht. by apply map_Forall_singleton.
  - repeat constructor; cbn [q_task]; try apply demo_allocates; set_solver.
Qed.

Lemma uorb_refines_broker_witness :
  exists s rs s' b, booted (demo_task 5) 1 demo_heap {[5; 6]} = Some s /\ ocalls_run demo_reqs s = Some (rs, s') /\
    bruns demo_reqs no_topics rs b.
Proof.
  apply (uorb_refines_broker (demo_task 5) 1 demo_heap {[5; 6]} demo_reqs).
  - done.
  - apply NoDup_seqZ.
  - unfold demo_heap. rewrite elem_of_seqZ. unfold NULL. lia.
  - unfold demo_heap. rewrite elem_of_seqZ. lia.
  - unfold demo_heap. rewrite length_seqZ. simpl. lia.
  - exact demo_reqs_ok.
Defined.

Definition demo_samples : list (list Z) := [[1; 2; 3; 4]; [5; 6; 7; 8]].
Lemma orb_session_delivers_witness :
  exists s rs s1 s2, booted (demo_task 5) 1 demo_heap {[5; 6]} = Some s /\ ocalls_run [] s = Some (rs, s1) /\
    session (demo_task 5) (demo_task 6) 0 0 camera_status 0 2 demo_samples s1 =
    Some (([0; 0], [(0, [1; 2; 3; 4]); (0, [5; 6; 7; 8])]), s2).
Proof.
  apply (orb_session_delivers (demo_task 5) 1 demo_heap {[5; 6]} [] (demo_task 5) (demo_task 6) 0 0 camera_status 0 2
    demo_samples).
  - done.
  - apply NoDup_seqZ.
  - unfold demo_heap. rewrite elem_of_seqZ. unfold NULL. lia.
  - unfold demo_heap. rewrite elem_of_seqZ. lia.
  - unfold demo_heap. rewrite length_seqZ. simpl. lia.
  - done.
  - set_solver.
  - set_solver.
  - apply demo_allocates.
  - done.
  - intros rs b H. inversion H; subst. constructor; try done.
    + by apply demo_topic_req.
    + intros fd ->%free_fd_first; [|done]. exists 0. done.
    + repeat constructor.
Defined.

(** ** Defects *)

(** The request for a device has room for [NAME_MAX] characters of a path that may
    have [ORB_PATH_MAX]: for a longer name the device is registered under the
    first characters, the path of the topic does not appear, and the
    advertisement fails after a node that nobody looks for was left behind. *)
Definition long_name : orb_metadata := mk_meta 4096 (chars "vehicle_attitude_setpoint") 4.
Theorem orb_long_name_fails :
  exists s s', booted (demo_task 5) 1 demo_heap {[5]} = Some s /\
    orb_advertise (demo_task 5) 0 0 long_name None s = Some (-1, s') /\ sys_errno s' = ENOENT /\
    orb_path (o_name long_name) 0 = Some (chars "/dev/uorb/vehicle_attitude_setpoint0") /\
    (snd <$> uw_list (world (sys_vfs s'))) = [chars "/dev/uorb/vehicle_attitude_setp"].
Proof. eexists _, _. split; [vm_compute; reflexivity|]. split; [vm_compute; reflexivity|]. by repeat split. Qed.
