(* ===== verification/Heap.v ===== *)
(** * The memory manager (mm/mm_heap)

    The heap as the code has it: bytes in memory, chunk headers and links at
    their offsets, one function per C function.  A failed [DEBUGASSERT] or
    [DEBUGVERIFY], an access to an unmapped byte and a list that does not end are
    [None]; a theorem that gives a result says that there is none of them, so it
    holds for builds with and without assertions.  The [DEBUGPANIC] of
    [mm_realloc] is the one that a caller reaches with a legal argument, a size
    near 2^32; there the model has the result of this board, which is built
    without assertions.  Instrumentation (KASan, backtraces, notes, the entry in
    the proc file system) is compiled out or does not touch the heap.  HeapInv and
    HeapSpec hold the invariant and the contract of the allocator. *)

From S2P Require Import Prelude.
From stdpp Require Import gmap.
Local Open Scope Z_scope.

(** ** Memory

    A byte that is not in the map is not mapped. *)

Abbreviation mem := (gmap Z Z).

(** A 32-bit load: little-endian, [None] when a byte is missing. *)
Definition ld (m : mem) (a : Z) : option Z :=
  b0 ← m !! a; b1 ← m !! (a + 1); b2 ← m !! (a + 2); b3 ← m !! (a + 3);
  Some (b0 + 2 ^ 8 * b1 + 2 ^ 16 * b2 + 2 ^ 24 * b3).

(** The bytes of a 32-bit store. *)
Definition wr (m : mem) (a v : Z) : mem :=
  <[a := u8 v]> (<[a + 1 := u8 (v / 2 ^ 8)]>
    (<[a + 2 := u8 (v / 2 ^ 16)]> (<[a + 3 := u8 (v / 2 ^ 24)]> m))).

Definition mappedb (m : mem) (a : Z) : bool := bool_decide (is_Some (m !! a)).

Definition st (m : mem) (a v : Z) : option mem :=
  if mappedb m a && mappedb m (a + 1) && mappedb m (a + 2) && mappedb m (a + 3)
  then Some (wr m a v) else None.

(** [memcpy], ascending, byte by byte. *)
Fixpoint memcpy_loop (n : nat) (m : mem) (pout pin : Z) : option mem :=
  match n with
  | O => Some m
  | S n =>
      b ← m !! pin;
      if mappedb m pout then memcpy_loop n (<[pout := b]> m) (pout + 1) (pin + 1)
      else None
  end.

Definition memcpy (m : mem) (dest src n : Z) : option mem :=
  memcpy_loop (Z.to_nat n) m dest src.

Fixpoint memset_loop (n : nat) (m : mem) (s c : Z) : option mem :=
  match n with
  | O => Some m
  | S n => if mappedb m s then memset_loop n (<[s := u8 c]> m) (s + 1) c else None
  end.

Definition memset (m : mem) (s c n : Z) : option mem := memset_loop (Z.to_nat n) m s c.

(** ** Constants of mm.h for this target

    No backtraces, no guard bytes, 8-byte alignment: [struct mm_allocnode_s] has
    [preceding] and [size], [struct mm_freenode_s] also [flink] and [blink]. *)

Definition MM_SIZEOF_ALLOCNODE : Z := 8.
Definition MM_ALLOCNODE_OVERHEAD : Z := 4.
Definition MM_MIN_SHIFT : Z := 4.
Definition MM_MAX_SHIFT : Z := 22.
Definition MM_MIN_CHUNK : Z := 16.
Definition MM_MAX_CHUNK : Z := 4194304.
Definition MM_NNODES : Z := 19.
Definition MM_ALIGN : Z := 8.
Definition MM_GRAN_MASK : Z := 7.
Definition MM_ALLOC_BIT : Z := 1.
Definition MM_PREVFREE_BIT : Z := 2.
Definition MM_MASK_BIT : Z := 3.
Definition CONFIG_MM_REGIONS : nat := 3.

Definition MM_ALIGN_UP (a : Z) : Z := Z.land (u32 (a + MM_GRAN_MASK)) (Z.lnot MM_GRAN_MASK).
Definition MM_ALIGN_DOWN (a : Z) : Z := Z.land a (Z.lnot MM_GRAN_MASK).

(** The fields of a node. *)
Definition o_preceding (node : Z) : Z := node.
Definition o_size (node : Z) : Z := node + 4.
Definition o_flink (node : Z) : Z := node + 8.
Definition o_blink (node : Z) : Z := node + 12.

(** The macros on the word [node->size]. *)
Definition MM_SIZEOF_NODE (w : Z) : Z := Z.land w (Z.lnot MM_MASK_BIT).
Definition MM_NODE_IS_ALLOC (w : Z) : bool := negb (Z.land w MM_ALLOC_BIT =? 0).
Definition MM_NODE_IS_FREE (w : Z) : bool := Z.land w MM_ALLOC_BIT =? 0.
Definition MM_PREVNODE_IS_ALLOC (w : Z) : bool := Z.land w MM_PREVFREE_BIT =? 0.
Definition MM_PREVNODE_IS_FREE (w : Z) : bool := negb (Z.land w MM_PREVFREE_BIT =? 0).

(** [DEBUGASSERT] *)
Definition dassert (b : bool) : option unit := if b then Some () else None.

(** ** The heap structure

    [mm_nodelist] is the address of the array of list heads, which are nodes in
    memory; the other fields are not reachable through node pointers. *)

Record mm_heap_s := {
  mm_heapsize : Z;
  mm_maxused : Z;
  mm_curused : Z;
  mm_heapstart : list Z;
  mm_heapend : list Z;
  mm_nodelist : Z;
  mm_delaylist : Z;
}.

Definition mm_nregions (heap : mm_heap_s) : nat := length (mm_heapstart heap).

Definition set_curused (v : Z) (heap : mm_heap_s) : mm_heap_s :=
  {| mm_heapsize := mm_heapsize heap; mm_maxused := mm_maxused heap; mm_curused := v;
     mm_heapstart := mm_heapstart heap; mm_heapend := mm_heapend heap;
     mm_nodelist := mm_nodelist heap; mm_delaylist := mm_delaylist heap |}.

Definition set_maxused (v : Z) (heap : mm_heap_s) : mm_heap_s :=
  {| mm_heapsize := mm_heapsize heap; mm_maxused := v; mm_curused := mm_curused heap;
     mm_heapstart := mm_heapstart heap; mm_heapend := mm_heapend heap;
     mm_nodelist := mm_nodelist heap; mm_delaylist := mm_delaylist heap |}.

Definition set_delaylist (v : Z) (heap : mm_heap_s) : mm_heap_s :=
  {| mm_heapsize := mm_heapsize heap; mm_maxused := mm_maxused heap;
     mm_curused := mm_curused heap; mm_heapstart := mm_heapstart heap;
     mm_heapend := mm_heapend heap; mm_nodelist := mm_nodelist heap; mm_delaylist := v |}.

Definition set_regions (sz : Z) (hs he : list Z) (heap : mm_heap_s) : mm_heap_s :=
  {| mm_heapsize := sz; mm_maxused := mm_maxused heap; mm_curused := mm_curused heap;
     mm_heapstart := hs; mm_heapend := he;
     mm_nodelist := mm_nodelist heap; mm_delaylist := mm_delaylist heap |}.

(** [heap->mm_curused += d], and the high-water mark after it. *)
Definition add_curused (d : Z) (heap : mm_heap_s) : mm_heap_s :=
  set_curused (u32 (mm_curused heap + d)) heap.

Definition track_maxused (heap : mm_heap_s) : mm_heap_s :=
  if mm_maxused heap <? mm_curused heap then set_maxused (mm_curused heap) heap else heap.

(** [&heap->mm_nodelist[ndx]] *)
Definition nodelist_at (heap : mm_heap_s) (ndx : Z) : Z := mm_nodelist heap + 16 * ndx.

(** ** The lock (mm_lock.c)

    Where the caller runs: in an interrupt handler, with the mutex of the heap
    taken by the interrupted task or not, and the task id that [_SCHED_GETTID]
    gives, negative during a context switch.  A task waits for the mutex and has
    it afterwards. *)

Record ctx := { up_interrupt_context : bool; nxmutex_is_locked : bool; gettid : Z }.

Definition ESRCH : Z := 3.

Definition mm_lock (c : ctx) : Z :=
  if up_interrupt_context c then (if nxmutex_is_locked c then - EAGAIN else 0)
  else if gettid c <? 0 then - ESRCH else 0.

(** [DEBUGVERIFY(mm_lock(heap))] *)
Definition verify_lock (c : ctx) : option unit := dassert (0 <=? mm_lock c).

(** A task that runs. *)
Definition task_ctx : ctx :=
  {| up_interrupt_context := false; nxmutex_is_locked := false; gettid := 1 |}.

(** ** Lists of free nodes (mm.h) *)

(** [flsl]: the index of the last bit set, from one. *)
Fixpoint flsl_loop (fuel : nat) (bitno value : Z) : Z :=
  match fuel with
  | O => 0
  | S fuel => if value =? 1 then bitno else flsl_loop fuel (bitno + 1) (Z.shiftr value 1)
  end.

Definition flsl (j : Z) : Z := if j =? 0 then 0 else flsl_loop 32 1 (u32 j).

Definition mm_size2ndx (size : Z) : option Z :=
  _ ← dassert (MM_MIN_CHUNK <=? size);
  if MM_MAX_CHUNK <=? size then Some (MM_NNODES - 1)
  else Some (flsl (Z.shiftr size MM_MIN_SHIFT) - 1).

(** Walks along lists and regions have as fuel the number of mapped bytes. *)
Definition mem_fuel (m : mem) : nat := S (base.size m).

Fixpoint addfree_loop (fuel : nat) (m : mem) (prev next nodesize : Z) : option (Z * Z) :=
  match fuel with
  | O => None
  | S fuel =>
      if next =? 0 then Some (prev, next)
      else w ← ld m (o_size next);
           if w =? 0 then Some (prev, next)
           else if MM_SIZEOF_NODE w <? nodesize
                then flink ← ld m (o_flink next); addfree_loop fuel m next flink nodesize
                else Some (prev, next)
  end.

(** Put [node] between two neighbours; [next] is 0 at the end of the list. *)
Definition link_between (m : mem) (prev node next : Z) : option mem :=
  m ← st m (o_flink prev) node;
  m ← st m (o_blink node) prev;
  m ← st m (o_flink node) next;
  if next =? 0 then Some m else st m (o_blink next) node.

Definition mm_addfreechunk (m : mem) (heap : mm_heap_s) (node : Z) : option mem :=
  w ← ld m (o_size node);
  let nodesize := MM_SIZEOF_NODE w in
  _ ← dassert (MM_MIN_CHUNK <=? nodesize);
  _ ← dassert (MM_NODE_IS_FREE w);
  ndx ← mm_size2ndx nodesize;
  let head := nodelist_at heap ndx in
  first ← ld m (o_flink head);
  '(prev, next) ← addfree_loop (mem_fuel m) m head first nodesize;
  link_between m prev node next.

(** Taking a node out of its list: the statements that [mm_malloc],
    [mm_delayfree], [mm_shrinkchunk], [mm_realloc] and [mm_memalign] repeat. *)
Definition unlink (m : mem) (node : Z) : option mem :=
  blink ← ld m (o_blink node);
  _ ← dassert (negb (blink =? 0));
  flink ← ld m (o_flink node);
  m ← st m (o_flink blink) flink;
  flink ← ld m (o_flink node);
  if flink =? 0 then Some m
  else blink ← ld m (o_blink node); st m (o_blink flink) blink.

(** ** Shrinking a chunk (mm_shrinkchunk.c) *)

Definition mm_shrinkchunk (m : mem) (heap : mm_heap_s) (node size : Z) : option mem :=
  w ← ld m (o_size node);
  let nodesize := MM_SIZEOF_NODE w in
  _ ← dassert (Z.land size MM_GRAN_MASK =? 0);
  let next := node + nodesize in
  wn ← ld m (o_size next);
  if MM_NODE_IS_FREE wn then
    let nextsize := MM_SIZEOF_NODE wn in
    let andbeyond := next + nextsize in
    wa ← ld m (o_size andbeyond);
    _ ← dassert (MM_PREVNODE_IS_FREE wa);
    m ← unlink m next;
    let newnode := node + size in
    m ← st m (o_size newnode) (u32 (nextsize + nodesize - size));
    w ← ld m (o_size node);
    m ← st m (o_size node) (Z.lor size (Z.land w MM_MASK_BIT));
    ws ← ld m (o_size newnode);
    m ← st m (o_preceding andbeyond) ws;
    mm_addfreechunk m heap newnode
  else if u32 (size + MM_MIN_CHUNK) <=? nodesize then
    let newnode := node + size in
    m ← st m (o_size newnode) (u32 (nodesize - size));
    w ← ld m (o_size node);
    m ← st m (o_size node) (Z.lor size (Z.land w MM_MASK_BIT));
    wn ← ld m (o_size next);
    m ← st m (o_size next) (Z.lor wn MM_PREVFREE_BIT);
    ws ← ld m (o_size newnode);
    m ← st m (o_preceding next) ws;
    mm_addfreechunk m heap newnode
  else Some m.

(** ** Freeing (mm_free.c) *)

Definition mm_malloc_size (m : mem) (mem_ : Z) : option Z :=
  if mem_ =? 0 then Some 0
  else
    w ← ld m (o_size (mem_ - MM_SIZEOF_ALLOCNODE));
    _ ← dassert (MM_NODE_IS_ALLOC w);
    Some (u32 (MM_SIZEOF_NODE w - MM_ALLOCNODE_OVERHEAD)).

Definition add_delaylist (m : mem) (heap : mm_heap_s) (mem_ : Z) : option (mem * mm_heap_s) :=
  w ← ld m (o_size (mem_ - MM_SIZEOF_ALLOCNODE));
  _ ← dassert (MM_NODE_IS_ALLOC w);
  m ← st m mem_ (mm_delaylist heap);
  Some (m, set_delaylist mem_ heap).

(** Merge with the following node: the size of the merged node, the node after
    it and the memory. *)
Definition merge_next (m : mem) (node nodesize : Z) : option (Z * Z * mem) :=
  let next := node + nodesize in
  wn ← ld m (o_size next);
  _ ← dassert (MM_PREVNODE_IS_ALLOC wn);
  if MM_NODE_IS_FREE wn then
    let nextsize := MM_SIZEOF_NODE wn in
    let andbeyond := next + nextsize in
    wa ← ld m (o_size andbeyond);
    pa ← ld m (o_preceding andbeyond);
    _ ← dassert (MM_PREVNODE_IS_FREE wa && (pa =? nextsize));
    m ← unlink m next;
    let nodesize := u32 (nodesize + nextsize) in
    w ← ld m (o_size node);
    m ← st m (o_size node) (Z.lor nodesize (Z.land w MM_MASK_BIT));
    m ← st m (o_preceding andbeyond) nodesize;
    Some (nodesize, andbeyond, m)
  else
    m ← st m (o_size next) (Z.lor wn MM_PREVFREE_BIT);
    m ← st m (o_preceding next) nodesize;
    Some (nodesize, next, m).

(** Merge with the preceding node: the node that results and the memory. *)
Definition merge_prev (m : mem) (node nodesize next : Z) : option (Z * mem) :=
  w ← ld m (o_size node);
  if MM_PREVNODE_IS_FREE w then
    p ← ld m (o_preceding node);
    let prev := node - p in
    wp ← ld m (o_size prev);
    let prevsize := MM_SIZEOF_NODE wp in
    _ ← dassert (MM_NODE_IS_FREE wp && (p =? prevsize));
    m ← unlink m prev;
    let prevsize := u32 (prevsize + nodesize) in
    wp ← ld m (o_size prev);
    m ← st m (o_size prev) (Z.lor prevsize (Z.land wp MM_MASK_BIT));
    m ← st m (o_preceding next) prevsize;
    Some (prev, m)
  else Some (node, m).

Definition mm_delayfree (c : ctx) (m : mem) (heap : mm_heap_s) (mem_ : Z) (delay : bool) :
    option (mem * mm_heap_s) :=
  if mm_lock c <? 0 then add_delaylist m heap mem_
  else
    _ ← mm_malloc_size m mem_;
    if delay then add_delaylist m heap mem_
    else
      let node := mem_ - MM_SIZEOF_ALLOCNODE in
      w ← ld m (o_size node);
      let nodesize := MM_SIZEOF_NODE w in
      _ ← dassert (MM_NODE_IS_ALLOC w);
      m ← st m (o_size node) (Z.land w (Z.lnot MM_ALLOC_BIT));
      let heap := add_curused (- nodesize) heap in
      '(nodesize, next, m) ← merge_next m node nodesize;
      '(node, m) ← merge_prev m node nodesize next;
      m ← mm_addfreechunk m heap node;
      Some (m, heap).

Definition CONFIG_MM_FREE_DELAYCOUNT_MAX : Z := 0.

Fixpoint heapmember_loop (mem_ : Z) (starts ends : list Z) : bool :=
  match starts, ends with
  | s :: starts, e :: ends =>
      if (s <? mem_) && (mem_ <? e) then true else heapmember_loop mem_ starts ends
  | _, _ => false
  end.

Definition mm_heapmember (heap : mm_heap_s) (mem_ : Z) : bool :=
  heapmember_loop mem_ (mm_heapstart heap) (mm_heapend heap).

Definition mm_free (c : ctx) (m : mem) (heap : mm_heap_s) (mem_ : Z) :
    option (mem * mm_heap_s) :=
  if mem_ =? 0 then Some (m, heap)
  else
    _ ← dassert (mm_heapmember heap mem_);
    mm_delayfree c m heap mem_ (0 <? CONFIG_MM_FREE_DELAYCOUNT_MAX).

(** ** Allocating (mm_malloc.c) *)

Fixpoint free_delay_loop (fuel : nat) (c : ctx) (m : mem) (heap : mm_heap_s) (tmp : Z) :
    option (mem * mm_heap_s) :=
  match fuel with
  | O => None
  | S fuel =>
      if tmp =? 0 then Some (m, heap)
      else
        flink ← ld m tmp;
        '(m, heap) ← mm_delayfree c m heap tmp false;
        free_delay_loop fuel c m heap flink
  end.

Definition free_delaylist (c : ctx) (m : mem) (heap : mm_heap_s) :
    option (bool * mem * mm_heap_s) :=
  let tmp := mm_delaylist heap in
  let heap := set_delaylist 0 heap in
  '(m, heap) ← free_delay_loop (mem_fuel m) c m heap tmp;
  Some (negb (tmp =? 0), m, heap).

Definition mm_free_delaylist (c : ctx) (m : mem) (heap : mm_heap_s) :
    option (mem * mm_heap_s) :=
  '(_, m, heap) ← free_delaylist c m heap; Some (m, heap).

(** The first node from [node] on that is large enough: the node and its size,
    or [(0, 0)]. *)
Fixpoint fit_loop (fuel : nat) (m : mem) (node alignsize : Z) : option (Z * Z) :=
  match fuel with
  | O => None
  | S fuel =>
      if node =? 0 then Some (0, 0)
      else
        blink ← ld m (o_blink node);
        bf ← ld m (o_flink blink);
        _ ← dassert (bf =? node);
        w ← ld m (o_size node);
        if alignsize <=? MM_SIZEOF_NODE w then Some (node, MM_SIZEOF_NODE w)
        else flink ← ld m (o_flink node); fit_loop fuel m flink alignsize
  end.

(** What [mm_malloc] does with the node it found. *)
Definition take_node (m : mem) (heap : mm_heap_s) (node nodesize alignsize : Z) :
    option (Z * mem * mm_heap_s) :=
  m ← unlink m node;
  let next := node + nodesize in
  wn ← ld m (o_size next);
  pn ← ld m (o_preceding next);
  _ ← dassert (MM_NODE_IS_ALLOC wn && MM_PREVNODE_IS_FREE wn && (pn =? nodesize));
  let remaining := u32 (nodesize - alignsize) in
  m ← (if MM_MIN_CHUNK <=? remaining then
         let remainder := node + alignsize in
         m ← st m (o_size remainder) remaining;
         w ← ld m (o_size node);
         m ← st m (o_size node) (Z.lor alignsize (Z.land w MM_MASK_BIT));
         m ← st m (o_preceding next) remaining;
         mm_addfreechunk m heap remainder
       else st m (o_size next) (Z.land wn (Z.lnot MM_PREVFREE_BIT)));
  w ← ld m (o_size node);
  let heap := track_maxused (add_curused (MM_SIZEOF_NODE w) heap) in
  m ← st m (o_size node) (Z.lor w MM_ALLOC_BIT);
  Some (node + MM_SIZEOF_ALLOCNODE, m, heap).

(** The size of a chunk for a request, [None] inside when it overflows. *)
Definition chunk_size (size : Z) : option Z :=
  let size := if size <? MM_MIN_CHUNK - MM_ALLOCNODE_OVERHEAD
              then MM_MIN_CHUNK - MM_ALLOCNODE_OVERHEAD else size in
  let alignsize := MM_ALIGN_UP (u32 (size + MM_ALLOCNODE_OVERHEAD)) in
  if alignsize <? size then None else Some alignsize.

(** The locked part of [mm_malloc]. *)
Definition alloc_chunk (c : ctx) (m : mem) (heap : mm_heap_s) (alignsize : Z) :
    option (Z * mem * mm_heap_s) :=
  _ ← verify_lock c;
  ndx ← mm_size2ndx alignsize;
  first ← ld m (o_flink (nodelist_at heap ndx));
  '(node, nodesize) ← fit_loop (mem_fuel m) m first alignsize;
  '(ret, m, heap) ← (if node =? 0 then Some (0, m, heap)
                     else take_node m heap node nodesize alignsize);
  _ ← dassert ((ret =? 0) || mm_heapmember heap ret);
  Some (ret, m, heap).

Definition mm_malloc (c : ctx) (m : mem) (heap : mm_heap_s) (size : Z) :
    option (Z * mem * mm_heap_s) :=
  '(_, m, heap) ← free_delaylist c m heap;
  match chunk_size size with
  | None => Some (0, m, heap)
  | Some alignsize =>
      _ ← dassert (MM_ALIGN <=? alignsize);
      '(ret, m, heap) ← alloc_chunk c m heap alignsize;
      _ ← dassert ((ret =? 0) || (ret mod MM_ALIGN =? 0));
      Some (ret, m, heap)
  end.

Definition mm_zalloc (c : ctx) (m : mem) (heap : mm_heap_s) (size : Z) :
    option (Z * mem * mm_heap_s) :=
  '(alloc, m, heap) ← mm_malloc c m heap size;
  if alloc =? 0 then Some (alloc, m, heap)
  else m ← memset m alloc 0 size; Some (alloc, m, heap).

Definition mm_calloc (c : ctx) (m : mem) (heap : mm_heap_s) (n elem_size : Z) :
    option (Z * mem * mm_heap_s) :=
  if (elem_size =? 0) || (n <=? UINT32_MAX / elem_size)
  then mm_zalloc c m heap (u32 (n * elem_size))
  else Some (0, m, heap).

(** ** Aligned allocation (mm_memalign.c) *)

(** Free space at the beginning: the node before [newnode] becomes a free one,
    merged with a free predecessor. *)
Definition split_leading (m : mem) (heap : mm_heap_s) (node newnode next : Z) : option mem :=
  let precedingsize := newnode - node in
  w ← ld m (o_size node);
  '(node, precedingsize, m) ←
    (if MM_PREVNODE_IS_FREE w then
       p ← ld m (o_preceding node);
       let prev := node - p in
       m ← unlink m prev;
       wp ← ld m (o_size prev);
       Some (prev, u32 (precedingsize + MM_SIZEOF_NODE wp), m)
     else Some (node, precedingsize, m));
  m ← st m (o_size node) precedingsize;
  let newnodesize := next - newnode in
  m ← st m (o_size newnode) (Z.lor (Z.lor newnodesize MM_ALLOC_BIT) MM_PREVFREE_BIT);
  m ← st m (o_preceding newnode) precedingsize;
  wn ← ld m (o_size next);
  m ← st m (o_size next) (Z.land wn (Z.lnot MM_PREVFREE_BIT));
  mm_addfreechunk m heap node.

(** What [mm_memalign] does with the chunk that [mm_malloc] gave: [size] is the
    requested size, at least the minimum, and [allocsize] what was asked for. *)
Definition align_chunk (m : mem) (heap : mm_heap_s) (rawchunk alignment size allocsize : Z) :
    option (Z * mem * mm_heap_s) :=
  let mask := alignment - 1 in
  let node := rawchunk - MM_SIZEOF_ALLOCNODE in
  w ← ld m (o_size node);
  let heap := add_curused (- MM_SIZEOF_NODE w) heap in
  let alignedchunk := Z.land (u32 (rawchunk + mask)) (Z.lnot mask) in
  '(alignedchunk, node, allocsize, m) ←
    (if alignedchunk =? rawchunk then Some (alignedchunk, node, allocsize, m)
     else
       let next := node + MM_SIZEOF_NODE w in
       let alignedchunk :=
         if (alignedchunk - MM_SIZEOF_ALLOCNODE) - node <? MM_MIN_CHUNK
         then alignedchunk + alignment else alignedchunk in
       let newnode := alignedchunk - MM_SIZEOF_ALLOCNODE in
       m ← split_leading m heap node newnode next;
       Some (alignedchunk, newnode, u32 (next - newnode - MM_ALLOCNODE_OVERHEAD), m));
  let size := MM_ALIGN_UP (u32 (size + MM_ALLOCNODE_OVERHEAD)) in
  m ← (if size <? allocsize then mm_shrinkchunk m heap node size else Some m);
  w ← ld m (o_size node);
  let heap := track_maxused (add_curused (MM_SIZEOF_NODE w) heap) in
  _ ← dassert (alignedchunk mod alignment =? 0);
  Some (alignedchunk, m, heap).

Definition SIZE_MAX : Z := UINT32_MAX.

Definition mm_memalign (c : ctx) (m : mem) (heap : mm_heap_s) (alignment size : Z) :
    option (Z * mem * mm_heap_s) :=
  if SIZE_MAX / 2 <=? alignment then Some (0, m, heap)
  else if negb (Z.land alignment (u32 (- alignment)) =? alignment) then Some (0, m, heap)
  else if alignment <=? MM_ALIGN then
    '(ptr, m, heap) ← mm_malloc c m heap size;
    _ ← dassert ((ptr =? 0) || (ptr mod alignment =? 0));
    Some (ptr, m, heap)
  else
    let alignment := if alignment <? MM_MIN_CHUNK then MM_MIN_CHUNK else alignment in
    let size := if size <? MM_MIN_CHUNK - MM_ALLOCNODE_OVERHEAD
                then MM_MIN_CHUNK - MM_ALLOCNODE_OVERHEAD else size in
    let newsize := MM_ALIGN_UP size in
    let allocsize := u32 (newsize + 2 * alignment) in
    if (newsize <? size) || (allocsize <? newsize) then Some (0, m, heap)
    else
      '(rawchunk, m, heap) ← mm_malloc c m heap allocsize;
      if rawchunk =? 0 then Some (0, m, heap)
      else
        _ ← mm_malloc_size m rawchunk;
        _ ← verify_lock c;
        align_chunk m heap rawchunk alignment size allocsize.

(** ** Changing the size of a block (mm_realloc.c) *)

(** How much to take from the free chunks before and after. *)
Definition realloc_plan (needed prevsize nextsize : Z) : Z * Z :=
  if prevsize <? nextsize then
    if prevsize <? needed then (prevsize, needed - prevsize) else (needed, 0)
  else
    if nextsize <? needed then (needed - nextsize, nextsize) else (0, needed).

(** Extend into the previous free chunk: the new node, its size, the memory and
    the heap. *)
Definition take_prev (m : mem) (heap : mm_heap_s)
    (oldnode prev nodesize prevsize takeprev : Z) : option (Z * Z * mem * mm_heap_s) :=
  m ← unlink m prev;
  let '(takeprev, heap) :=
    if prevsize <? u32 (takeprev + MM_MIN_CHUNK)
    then (prevsize, add_curused (prevsize - takeprev) heap) else (takeprev, heap) in
  let newnode := oldnode - takeprev in
  if takeprev <? prevsize then
    let prevsize := prevsize - takeprev in
    wp ← ld m (o_size prev);
    m ← st m (o_size prev) (Z.lor prevsize (Z.land wp MM_MASK_BIT));
    let nodesize := u32 (nodesize + takeprev) in
    m ← st m (o_size newnode) (Z.lor (Z.lor nodesize MM_ALLOC_BIT) MM_PREVFREE_BIT);
    m ← st m (o_preceding newnode) prevsize;
    m ← mm_addfreechunk m heap prev;
    Some (newnode, nodesize, m, heap)
  else
    let nodesize := u32 (nodesize + prevsize) in
    w ← ld m (o_size newnode);
    m ← st m (o_size newnode)
          (Z.lor (Z.lor nodesize MM_ALLOC_BIT) (Z.land w MM_MASK_BIT));
    Some (newnode, nodesize, m, heap).

(** Extend into the next free chunk. *)
Definition take_next (m : mem) (heap : mm_heap_s)
    (oldnode next nodesize nextsize takenext : Z) : option (mem * mm_heap_s) :=
  let andbeyond := next + nextsize in
  m ← unlink m next;
  let '(takenext, heap) :=
    if nextsize <? u32 (takenext + MM_MIN_CHUNK)
    then (nextsize, add_curused (nextsize - takenext) heap) else (takenext, heap) in
  let nodesize := u32 (nodesize + takenext) in
  w ← ld m (o_size oldnode);
  m ← st m (o_size oldnode) (Z.lor nodesize (Z.land w MM_MASK_BIT));
  if takenext <? nextsize then
    let newnode := oldnode + nodesize in
    m ← st m (o_size newnode) (nextsize - takenext);
    ws ← ld m (o_size newnode);
    m ← st m (o_preceding andbeyond) ws;
    m ← mm_addfreechunk m heap newnode;
    Some (m, heap)
  else
    wa ← ld m (o_size andbeyond);
    m ← st m (o_size andbeyond) (Z.land wa (Z.lnot MM_PREVFREE_BIT));
    Some (m, heap).

(** The current allocation can be extended: [prev] is 0 when the chunk before
    is not free. *)
Definition realloc_extend (m : mem) (heap : mm_heap_s)
    (oldmem oldnode prev next newsize oldsize prevsize nextsize : Z) :
    option (Z * mem * mm_heap_s) :=
  let '(takeprev, takenext) := realloc_plan (newsize - oldsize) prevsize nextsize in
  '(node, nodesize, m, heap) ←
    (if takeprev =? 0 then Some (oldnode, oldsize, m, heap)
     else _ ← dassert (negb (prev =? 0));
          take_prev m heap oldnode prev oldsize prevsize takeprev);
  let newmem := node + MM_SIZEOF_ALLOCNODE in
  '(m, heap) ← (if takenext =? 0 then Some (m, heap)
                else take_next m heap node next nodesize nextsize takenext);
  let heap := track_maxused (add_curused (newsize - oldsize) heap) in
  m ← (if newmem =? oldmem then Some m
       else memcpy m newmem oldmem (oldsize - MM_ALLOCNODE_OVERHEAD));
  Some (newmem, m, heap).

Definition mm_realloc (c : ctx) (m : mem) (heap : mm_heap_s) (oldmem size : Z) :
    option (Z * mem * mm_heap_s) :=
  if oldmem =? 0 then mm_malloc c m heap size
  else
    _ ← dassert (mm_heapmember heap oldmem);
    let size := if size <? MM_MIN_CHUNK - MM_ALLOCNODE_OVERHEAD
                then MM_MIN_CHUNK - MM_ALLOCNODE_OVERHEAD else size in
    let newsize := MM_ALIGN_UP (u32 (size + MM_ALLOCNODE_OVERHEAD)) in
    if newsize <? size then Some (0, m, heap)
    else
      let oldnode := oldmem - MM_SIZEOF_ALLOCNODE in
      _ ← verify_lock c;
      w ← ld m (o_size oldnode);
      _ ← dassert (MM_NODE_IS_ALLOC w);
      let oldsize := MM_SIZEOF_NODE w in
      if newsize <=? oldsize then
        if newsize <? oldsize then
          let heap := add_curused (newsize - oldsize) heap in
          m ← mm_shrinkchunk m heap oldnode newsize;
          Some (oldmem, m, heap)
        else Some (oldmem, m, heap)
      else
        let next := oldnode + oldsize in
        wn ← ld m (o_size next);
        _ ← dassert (MM_NODE_IS_ALLOC wn || MM_PREVNODE_IS_ALLOC wn);
        let nextsize := if MM_NODE_IS_FREE wn then MM_SIZEOF_NODE wn else 0 in
        '(prev, prevsize) ←
          (if MM_PREVNODE_IS_FREE w then
             p ← ld m (o_preceding oldnode);
             let prev := oldnode - p in
             wp ← ld m (o_size prev);
             _ ← dassert (MM_NODE_IS_FREE wp);
             Some (prev, MM_SIZEOF_NODE wp)
           else Some (0, 0));
        if newsize <=? u32 (nextsize + prevsize + oldsize) then
          realloc_extend m heap oldmem oldnode prev next newsize oldsize prevsize nextsize
        else
          '(newmem, m, heap) ← mm_malloc c m heap size;
          if newmem =? 0 then Some (newmem, m, heap)
          else
            m ← memcpy m newmem oldmem (oldsize - MM_ALLOCNODE_OVERHEAD);
            '(m, heap) ← mm_free c m heap oldmem;
            Some (newmem, m, heap).

(** ** Regions (mm_initialize.c, mm_extend.c, mm_brkaddr.c) *)

Definition mm_addregion (c : ctx) (m : mem) (heap : mm_heap_s) (heapstart heapsize : Z) :
    option (mem * mm_heap_s) :=
  _ ← verify_lock c;
  _ ← dassert (mm_nregions heap <? CONFIG_MM_REGIONS)%nat;
  if (CONFIG_MM_REGIONS <=? mm_nregions heap)%nat then Some (m, heap) else
  let heapbase := u32 (MM_ALIGN_UP (u32 (heapstart + 2 * MM_SIZEOF_ALLOCNODE))
                       - 2 * MM_SIZEOF_ALLOCNODE) in
  let heapsize := u32 (heapsize - (heapbase - heapstart)) in
  let heapend := MM_ALIGN_DOWN (u32 (heapbase + heapsize)) in
  let heapsize := u32 (heapend - heapbase) in
  m ← st m (o_size heapbase) (Z.lor MM_SIZEOF_ALLOCNODE MM_ALLOC_BIT);
  let node := heapbase + MM_SIZEOF_ALLOCNODE in
  _ ← dassert ((node + MM_SIZEOF_ALLOCNODE) mod MM_ALIGN =? 0);
  let nodesize := u32 (heapsize - 2 * MM_SIZEOF_ALLOCNODE) in
  m ← st m (o_size node) nodesize;
  let guard := heapend - MM_SIZEOF_ALLOCNODE in
  m ← st m (o_size guard)
        (Z.lor (Z.lor MM_SIZEOF_ALLOCNODE MM_ALLOC_BIT) MM_PREVFREE_BIT);
  m ← st m (o_preceding guard) nodesize;
  let heap := set_regions (u32 (mm_heapsize heap + heapsize))
                (mm_heapstart heap ++ [heapbase]) (mm_heapend heap ++ [guard]) heap in
  m ← mm_addfreechunk m heap node;
  Some (m, add_curused (2 * MM_SIZEOF_ALLOCNODE) heap).

(** The loop that links the list heads: [n] more heads from [i] on. *)
Fixpoint link_heads (n : nat) (m : mem) (nodelist i : Z) : option mem :=
  match n with
  | O => Some m
  | S n =>
      m ← st m (o_flink (nodelist + 16 * (i - 1))) (nodelist + 16 * i);
      m ← st m (o_blink (nodelist + 16 * i)) (nodelist + 16 * (i - 1));
      link_heads n m nodelist (i + 1)
  end.

(** [sizeof_heap] is the size of [struct mm_heap_s] and [nodelist_off] the
    offset of [mm_nodelist] in it. *)
Record heap_layout := { sizeof_heap : Z; nodelist_off : Z }.

(** The structure at [at_]: all zero, heads linked, first region added. *)
Definition init_heap_at (l : heap_layout) (c : ctx) (m : mem) (at_ heapstart heapsize : Z) :
    option (mem * mm_heap_s) :=
  m ← memset m at_ 0 (sizeof_heap l);
  m ← link_heads (Z.to_nat (MM_NNODES - 1)) m (at_ + nodelist_off l) 1;
  let heap := {| mm_heapsize := 0; mm_maxused := 0; mm_curused := sizeof_heap l;
                 mm_heapstart := []; mm_heapend := [];
                 mm_nodelist := at_ + nodelist_off l; mm_delaylist := 0 |} in
  mm_addregion c m heap heapstart heapsize.

(** With [parent] the structure is allocated from that heap, otherwise it lies at
    the start of the region.  The results are the new heap, [None] when the
    allocation fails, and the parent. *)
Definition mm_initialize_heap (l : heap_layout) (c : ctx) (m : mem)
    (parent : option mm_heap_s) (heapstart heapsize : Z) :
    option (option mm_heap_s * option mm_heap_s * mem) :=
  match parent with
  | None =>
      let heap_adj := MM_ALIGN_UP heapstart in
      let heapsize := u32 (heapsize - (heap_adj - heapstart)) in
      _ ← dassert (sizeof_heap l <? heapsize);
      '(m, heap) ← init_heap_at l c m heap_adj (heap_adj + sizeof_heap l)
                     (heapsize - sizeof_heap l);
      Some (Some heap, None, m)
  | Some parent =>
      '(at_, m, parent) ← mm_malloc c m parent (sizeof_heap l);
      if at_ =? 0 then Some (None, Some parent, m)
      else '(m, heap) ← init_heap_at l c m at_ heapstart heapsize;
           Some (Some heap, Some parent, m)
  end.

Definition MIN_EXTEND : Z := 2 * MM_SIZEOF_ALLOCNODE.

Definition mm_extend (c : ctx) (m : mem) (heap : mm_heap_s) (mem_ size : Z) (region : nat) :
    option (mem * mm_heap_s) :=
  _ ← dassert (negb (mem_ =? 0));
  _ ← dassert ((MIN_EXTEND <=? size) && (region <? mm_nregions heap)%nat);
  let blockstart := mem_ in
  let blockend := u32 (blockstart + size) in
  _ ← dassert (MM_ALIGN_UP blockstart =? blockstart);
  _ ← dassert (MM_ALIGN_DOWN blockend =? blockend);
  _ ← verify_lock c;
  oldnode ← mm_heapend heap !! region;
  _ ← dassert (oldnode + MM_SIZEOF_ALLOCNODE =? blockstart);
  w ← ld m (o_size oldnode);
  m ← st m (o_size oldnode) (Z.lor size (Z.land w MM_MASK_BIT));
  w ← ld m (o_size oldnode);
  _ ← dassert (MM_NODE_IS_ALLOC w);
  let newnode := blockend - MM_SIZEOF_ALLOCNODE in
  m ← st m (o_size newnode) (Z.lor MM_SIZEOF_ALLOCNODE MM_ALLOC_BIT);
  let heap := set_regions (u32 (mm_heapsize heap + size)) (mm_heapstart heap)
                (<[region := newnode]> (mm_heapend heap)) heap in
  mm_free c m heap mem_.

Definition mm_brkaddr (heap : mm_heap_s) (region : nat) : option Z :=
  brkaddr ← mm_heapend heap !! region;
  Some (if brkaddr =? 0 then 0 else brkaddr + MM_SIZEOF_ALLOCNODE).

(** ** Walking the heap (mm_foreach.c, mm_mallinfo.c, mm_checkcorruption.c) *)

Section foreach.
Context {A : Type} (handler : mem -> Z -> A -> option A).

Fixpoint foreach_loop (fuel : nat) (m : mem) (node prev heapend : Z) (arg : A) : option A :=
  match fuel with
  | O => None
  | S fuel =>
      if node <? heapend then
        w ← ld m (o_size node);
        let nodesize := MM_SIZEOF_NODE w in
        _ ← dassert (MM_SIZEOF_ALLOCNODE <=? nodesize);
        arg ← handler m node arg;
        _ ← (if MM_PREVNODE_IS_ALLOC w then Some tt
             else p ← ld m (o_preceding node); wp ← ld m (o_size prev);
                  dassert (MM_SIZEOF_NODE wp =? p));
        foreach_loop fuel m (node + nodesize) node heapend arg
      else
        _ ← dassert (node =? heapend);
        handler m node arg
  end.

Fixpoint foreach_regions (m : mem) (starts ends : list Z) (arg : A) : option A :=
  match starts, ends with
  | s :: starts, e :: ends =>
      arg ← foreach_loop (mem_fuel m) m s 0 e arg;
      foreach_regions m starts ends arg
  | _, _ => Some arg
  end.

Definition mm_foreach (c : ctx) (m : mem) (heap : mm_heap_s) (arg : A) :
    option (A * mem * mm_heap_s) :=
  '(m, heap) ← mm_free_delaylist c m heap;
  if mm_lock c <? 0 then Some (arg, m, heap)
  else arg ← foreach_regions m (mm_heapstart heap) (mm_heapend heap) arg;
       Some (arg, m, heap).
End foreach.

Record mallinfo := {
  arena : Z; ordblks : Z; aordblks : Z; mxordblk : Z;
  uordblks : Z; fordblks : Z; usmblks : Z;
}.

Definition mallinfo0 : mallinfo :=
  {| arena := 0; ordblks := 0; aordblks := 0; mxordblk := 0;
     uordblks := 0; fordblks := 0; usmblks := 0 |}.

(** The checks on a free node, shared by two handlers. *)
Definition check_free_node (m : mem) (node nodesize : Z) : option unit :=
  _ ← dassert (MM_MIN_CHUNK <=? nodesize);
  blink ← ld m (o_blink node);
  bf ← ld m (o_flink blink);
  _ ← dassert (bf =? node);
  wb ← ld m (o_size blink);
  _ ← dassert (MM_SIZEOF_NODE wb <=? nodesize);
  flink ← ld m (o_flink node);
  if flink =? 0 then Some tt
  else fb ← ld m (o_blink flink);
       _ ← dassert (fb =? node);
       wf ← ld m (o_size flink);
       dassert ((MM_SIZEOF_NODE wf =? 0) || (nodesize <=? MM_SIZEOF_NODE wf)).

Definition mallinfo_handler (m : mem) (node : Z) (info : mallinfo) : option mallinfo :=
  w ← ld m (o_size node);
  let nodesize := MM_SIZEOF_NODE w in
  if MM_NODE_IS_ALLOC w then
    _ ← dassert (MM_SIZEOF_ALLOCNODE <=? nodesize);
    Some {| arena := arena info; ordblks := ordblks info;
            aordblks := s32 (aordblks info + 1); mxordblk := mxordblk info;
            uordblks := s32 (uordblks info + nodesize); fordblks := fordblks info;
            usmblks := usmblks info |}
  else
    _ ← check_free_node m node nodesize;
    Some {| arena := arena info; ordblks := s32 (ordblks info + 1);
            aordblks := aordblks info;
            mxordblk := if u32 (mxordblk info) <? w then s32 nodesize else mxordblk info;
            uordblks := uordblks info; fordblks := s32 (fordblks info + nodesize);
            usmblks := usmblks info |}.

Definition mm_mallinfo (l : heap_layout) (c : ctx) (m : mem) (heap : mm_heap_s) :
    option (mallinfo * mem * mm_heap_s) :=
  '(info, m, heap) ← mm_foreach mallinfo_handler c m heap mallinfo0;
  let info :=
    {| arena := s32 (s32 (mm_heapsize heap) + sizeof_heap l); ordblks := ordblks info;
       aordblks := aordblks info; mxordblk := mxordblk info;
       uordblks := s32 (uordblks info + sizeof_heap l); fordblks := fordblks info;
       usmblks := s32 (mm_maxused heap + sizeof_heap l) |} in
  _ ← dassert (s32 (uordblks info + fordblks info) =? arena info);
  Some (info, m, heap).

(** The [ASSERT]s of the handler abort the system when they fail. *)
Definition checkcorruption_handler (m : mem) (node : Z) (_ : unit) : option unit :=
  w ← ld m (o_size node);
  let nodesize := MM_SIZEOF_NODE w in
  if MM_NODE_IS_ALLOC w then dassert (MM_SIZEOF_ALLOCNODE <=? nodesize)
  else check_free_node m node nodesize.

Definition mm_checkcorruption (c : ctx) (m : mem) (heap : mm_heap_s) :
    option (mem * mm_heap_s) :=
  '(_, m, heap) ← mm_foreach checkcorruption_handler c m heap tt; Some (m, heap).

Definition mm_heapfree (c : ctx) (m : mem) (heap : mm_heap_s) : option (Z * mem * mm_heap_s) :=
  '(m, heap) ← mm_free_delaylist c m heap;
  Some (u32 (mm_heapsize heap - mm_curused heap), m, heap).

Fixpoint largest_loop (fuel : nat) (m : mem) (node : Z) : option Z :=
  match fuel with
  | O => None
  | S fuel =>
      if node =? 0 then Some 0
      else
        w ← ld m (o_size node);
        if MM_SIZEOF_NODE w =? 0
        then blink ← ld m (o_blink node); largest_loop fuel m blink
        else Some (MM_SIZEOF_NODE w)
  end.

Definition mm_heapfree_largest (c : ctx) (m : mem) (heap : mm_heap_s) :
    option (Z * mem * mm_heap_s) :=
  '(m, heap) ← mm_free_delaylist c m heap;
  first ← ld m (o_blink (nodelist_at heap (MM_NNODES - 1)));
  n ← largest_loop (mem_fuel m) m first;
  Some (n, m, heap).

(** ** The user interface (mm/umm_heap)

    The second result is the value that [errno] is set to, if it is. *)

Definition with_errno (r : option (Z * mem * mm_heap_s)) : option (Z * option Z * mem * mm_heap_s) :=
  '(ret, m, heap) ← r;
  Some (ret, if ret =? 0 then Some ENOMEM else None, m, heap).

Definition malloc c m heap size := with_errno (mm_malloc c m heap size).
Definition zalloc c m heap size := with_errno (mm_zalloc c m heap size).
Definition calloc c m heap n elem_size := with_errno (mm_calloc c m heap n elem_size).
Definition realloc c m heap oldmem size := with_errno (mm_realloc c m heap oldmem size).
Definition memalign c m heap alignment size := with_errno (mm_memalign c m heap alignment size).
Definition free c m heap mem_ := mm_free c m heap mem_.
