(* ===== verification/HeapList.v ===== *)
(** * Memory and the list of free nodes

    Read-after-write facts for words, the bits of a header word, and the doubly
    linked list that all list heads and free nodes form, with its order by size.
    The two operations on the list, [unlink] and [mm_addfreechunk], are specified
    here once for all callers. *)

From S2P Require Import Prelude Heap.
From stdpp Require Import gmap sorting.
Local Open Scope Z_scope.

(** Arithmetic on the addresses of fields. *)
Ltac olia := unfold o_preceding, o_size, o_flink, o_blink in *; lia.

(** Continue after a step that succeeds. *)
Ltac bnd := cbn [mbind option_bind].

(** ** Words in memory *)

Definition mapped (m : mem) (lo hi : Z) : Prop := forall b, lo <= b < hi -> is_Some (m !! b).

Lemma mappedb_true m b : is_Some (m !! b) -> mappedb m b = true.
Proof. intros H. by apply bool_decide_eq_true. Qed.

Lemma mapped_sub m lo hi lo' hi' : mapped m lo hi -> lo <= lo' -> hi' <= hi -> mapped m lo' hi'.
Proof. intros H ?? b ?. apply H. lia. Qed.

Lemma wr_ne m a v b : b < a \/ a + 4 <= b -> wr m a v !! b = m !! b.
Proof. intros H. unfold wr. rewrite !lookup_insert_ne by lia. done. Qed.

Lemma wr_is_Some m a v b : is_Some (m !! b) -> is_Some (wr m a v !! b).
Proof.
  intros H. unfold wr. repeat (apply lookup_insert_is_Some'; right). done.
Qed.

Lemma wr_mapped m a v lo hi : mapped m lo hi -> mapped (wr m a v) lo hi.
Proof. intros H b ?. apply wr_is_Some, H. lia. Qed.

Lemma wr_dom m a v : mapped m a (a + 4) -> dom (wr m a v) = dom m.
Proof.
  intros H. assert (forall k, 0 <= k < 4 -> is_Some (m !! (a + k))) as H' by (intros; apply H; lia).
  unfold wr. rewrite <- (Z.add_0_r a) at 1.
  repeat (rewrite dom_insert_lookup_L; [|rewrite ?lookup_insert_ne by lia; apply H'; lia]).
  done.
Qed.

Lemma ld_agree m m' a : (forall b, a <= b < a + 4 -> m' !! b = m !! b) -> ld m' a = ld m a.
Proof. intros H. unfold ld. rewrite !H by lia. done. Qed.

Lemma ld_wr_ne m a v b : a + 4 <= b \/ b + 4 <= a -> ld (wr m a v) b = ld m b.
Proof. intros H. apply ld_agree. intros. apply wr_ne. lia. Qed.

Lemma ld_wr_eq m a v : ld (wr m a v) a = Some (u32 v).
Proof.
  unfold ld, wr. repeat (rewrite lookup_insert_eq || rewrite lookup_insert_ne by lia). simpl.
  f_equal. unfold u8, u32. change (2 ^ 8) with 256. change (2 ^ 16) with 65536.
  change (2 ^ 24) with 16777216. change (2 ^ 32) with 4294967296. zlia.
Qed.

Lemma ld_mapped m a v : ld m a = Some v -> mapped m a (a + 4).
Proof.
  unfold ld. intros H b Hb.
  destruct (m !! a) eqn:?, (m !! (a + 1)) eqn:?, (m !! (a + 2)) eqn:?, (m !! (a + 3)) eqn:?;
    simpl in H; try discriminate.
  assert (b = a \/ b = a + 1 \/ b = a + 2 \/ b = a + 3) as [->|[->|[->| ->]]] by lia; eauto.
Qed.

Lemma mapped_ld m a : mapped m a (a + 4) -> is_Some (ld m a).
Proof.
  intros H. unfold ld.
  destruct (H a) as [? E0], (H (a + 1)) as [? E1], (H (a + 2)) as [? E2], (H (a + 3)) as [? E3];
    try lia. rewrite E0, E1, E2, E3. simpl. eauto.
Qed.

Lemma st_ok m a v : mapped m a (a + 4) -> st m a v = Some (wr m a v).
Proof. intros H. unfold st. rewrite !mappedb_true by (apply H; lia). done. Qed.

(** Two memories that differ at most at the addresses of [P], with the same
    bytes mapped. *)
Definition differ (P : Z -> Prop) (m m' : mem) : Prop :=
  dom m' = dom m /\ forall b, ~ P b -> m' !! b = m !! b.

Lemma differ_refl P m : differ P m m.
Proof. by split. Qed.

Lemma differ_wr (P : Z -> Prop) m m' a v :
  differ P m m' -> mapped m' a (a + 4) -> (forall b, a <= b < a + 4 -> P b) ->
  differ P m (wr m' a v).
Proof.
  intros [Hd H] Hm HP. split; [by rewrite wr_dom|]. intros b Hb. rewrite wr_ne; [by apply H|].
  destruct (decide (a <= b < a + 4)); [by destruct Hb; apply HP|lia].
Qed.

Lemma differ_trans (P Q R : Z -> Prop) m1 m2 m3 :
  differ P m1 m2 -> differ Q m2 m3 -> (forall b, P b -> R b) -> (forall b, Q b -> R b) ->
  differ R m1 m3.
Proof.
  intros [Hd1 H1] [Hd2 H2] HP HQ. split; [congruence|].
  intros b Hb. rewrite H2, H1; auto.
Qed.

Lemma differ_mapped P m m' lo hi : differ P m m' -> mapped m lo hi -> mapped m' lo hi.
Proof.
  intros [Hd _] H b Hb. apply elem_of_dom. rewrite Hd. by apply elem_of_dom, H.
Qed.

Lemma differ_ld (P : Z -> Prop) m m' a :
  differ P m m' -> (forall b, a <= b < a + 4 -> ~ P b) -> ld m' a = ld m a.
Proof. intros [_ H] HP. apply ld_agree. intros. by apply H, HP. Qed.

(** ** Header words *)

Definition b2z (b : bool) : Z := if b then 1 else 0.

(** The word [size] of a node: the size and the two flags. *)
Definition hdr (size : Z) (used prevfree : bool) : Z := size + b2z used + 2 * b2z prevfree.

Lemma testbit_4 k c n : 0 <= c < 4 -> 0 <= n ->
  Z.testbit (4 * k + c) n = if n <? 2 then Z.testbit c n else Z.testbit k (n - 2).
Proof.
  intros Hc Hn.
  replace (4 * k + c) with (c + k * 2 ^ 2) by lia. rewrite <- lor_shiftl_add by lia.
  rewrite Z.lor_spec. destruct (Z.ltb_spec n 2).
  - rewrite Z.shiftl_spec_low by lia. apply orb_false_r.
  - rewrite Z.shiftl_spec by lia.
    rewrite <- (Z.mod_small c (2 ^ 2)) by lia. by rewrite Z.mod_pow2_bits_high by lia.
Qed.

(** Bit operations on [4k + c] act on the two parts. *)
Lemma land_4 k j c d : 0 <= c < 4 -> 0 <= d < 4 ->
  Z.land (4 * k + c) (4 * j + d) = 4 * Z.land k j + Z.land c d.
Proof.
  intros Hc Hd. assert (0 <= Z.land c d < 4).
  { assert (c = 0 \/ c = 1 \/ c = 2 \/ c = 3) as [->|[->|[->| ->]]] by lia;
    assert (d = 0 \/ d = 1 \/ d = 2 \/ d = 3) as [->|[->|[->| ->]]] by lia; by vm_compute. }
  apply Z.bits_inj'. intros n Hn. rewrite Z.land_spec, !testbit_4 by lia.
  destruct (n <? 2); by rewrite Z.land_spec.
Qed.

Lemma lor_4 k j c d : 0 <= c < 4 -> 0 <= d < 4 ->
  Z.lor (4 * k + c) (4 * j + d) = 4 * Z.lor k j + Z.lor c d.
Proof.
  intros Hc Hd. assert (0 <= Z.lor c d < 4).
  { assert (c = 0 \/ c = 1 \/ c = 2 \/ c = 3) as [->|[->|[->| ->]]] by lia;
    assert (d = 0 \/ d = 1 \/ d = 2 \/ d = 3) as [->|[->|[->| ->]]] by lia; by vm_compute. }
  apply Z.bits_inj'. intros n Hn. rewrite Z.lor_spec, !testbit_4 by lia.
  destruct (n <? 2); by rewrite Z.lor_spec.
Qed.

Section header.
Context (size : Z) (used prevfree : bool) (Hsize : size mod 4 = 0).

Lemma hdr_4 : hdr size used prevfree = 4 * (size / 4) + (b2z used + 2 * b2z prevfree).
Proof. unfold hdr. zlia. Qed.

Lemma flags_lt_4 : 0 <= b2z used + 2 * b2z prevfree < 4.
Proof. destruct used, prevfree; simpl; lia. Qed.

(** [land_4] or [lor_4] at the header and the mask [4j + d]. *)
Local Ltac bits f j d :=
  unfold MM_SIZEOF_NODE, MM_NODE_IS_ALLOC, MM_NODE_IS_FREE, MM_PREVNODE_IS_ALLOC,
    MM_PREVNODE_IS_FREE, MM_MASK_BIT, MM_ALLOC_BIT, MM_PREVFREE_BIT;
  rewrite hdr_4;
  match goal with |- context [ _ (4 * (size / 4) + ?c) ?y ] =>
    change y with (4 * j + d) end;
  rewrite f by (pose proof flags_lt_4; lia);
  rewrite ?Z.land_m1_r, ?Z.land_0_r, ?Z.lor_0_r;
  unfold hdr; destruct used, prevfree; try reflexivity;
  repeat match goal with |- context [ Z.land ?a ?b ] =>
    let v := eval vm_compute in (Z.land a b) in change (Z.land a b) with v end;
  repeat match goal with |- context [ Z.lor ?a ?b ] =>
    let v := eval vm_compute in (Z.lor a b) in change (Z.lor a b) with v end;
  unfold b2z; zlia.

Lemma sizeof_hdr : MM_SIZEOF_NODE (hdr size used prevfree) = size.
Proof. bits land_4 (-1) 0. Qed.

Lemma is_alloc_hdr : MM_NODE_IS_ALLOC (hdr size used prevfree) = used.
Proof. bits land_4 0 1. Qed.

Lemma is_free_hdr : MM_NODE_IS_FREE (hdr size used prevfree) = negb used.
Proof. bits land_4 0 1. Qed.

Lemma prev_is_alloc_hdr : MM_PREVNODE_IS_ALLOC (hdr size used prevfree) = negb prevfree.
Proof. bits land_4 0 2. Qed.

Lemma prev_is_free_hdr : MM_PREVNODE_IS_FREE (hdr size used prevfree) = prevfree.
Proof. bits land_4 0 2. Qed.

Lemma mask_hdr : Z.land (hdr size used prevfree) MM_MASK_BIT = hdr 0 used prevfree.
Proof. bits land_4 0 3. Qed.

Lemma clear_alloc_hdr :
  Z.land (hdr size used prevfree) (Z.lnot MM_ALLOC_BIT) = hdr size false prevfree.
Proof. bits land_4 (-1) 2. Qed.

Lemma clear_prevfree_hdr :
  Z.land (hdr size used prevfree) (Z.lnot MM_PREVFREE_BIT) = hdr size used false.
Proof. bits land_4 (-1) 1. Qed.

Lemma set_alloc_hdr : Z.lor (hdr size used prevfree) MM_ALLOC_BIT = hdr size true prevfree.
Proof. bits lor_4 0 1. Qed.

Lemma set_prevfree_hdr : Z.lor (hdr size used prevfree) MM_PREVFREE_BIT = hdr size used true.
Proof. bits lor_4 0 2. Qed.

Lemma set_size_hdr : Z.lor size (hdr 0 used prevfree) = hdr size used prevfree.
Proof.
  replace size with (4 * (size / 4) + 0) at 1 by zlia.
  replace (hdr 0 used prevfree) with (4 * 0 + hdr 0 used prevfree) by lia.
  rewrite lor_4, Z.lor_0_r, Z.lor_0_l, hdr_4; [unfold hdr; lia|lia|].
  pose proof flags_lt_4. unfold hdr. lia.
Qed.
End header.

Lemma hdr_u32 size used prevfree :
  size mod 4 = 0 -> 0 <= size < 2 ^ 32 -> u32 (hdr size used prevfree) = hdr size used prevfree.
Proof.
  intros. apply u32_small. pose proof (flags_lt_4 used prevfree). unfold hdr.
  change (2 ^ 32) with 4294967296 in *. zlia.
Qed.

(** ** Doubly linked lists

    [chain m p l q]: the nodes [l] are linked in this order, with [p] before the
    first and [q] after the last. *)

Fixpoint chain (m : mem) (p : Z) (l : list Z) (q : Z) : Prop :=
  match l with
  | [] => True
  | x :: l =>
      ld m (o_blink x) = Some p /\ ld m (o_flink x) = Some (List.hd q l) /\ chain m x l q
  end.

Fixpoint lastd (p : Z) (l : list Z) : Z := match l with [] => p | x :: l => lastd x l end.

Lemma lastd_snoc p l x : lastd p (l ++ [x]) = x.
Proof. revert p. induction l; simpl; auto. Qed.

Lemma hd_app q (l1 l2 : list Z) : List.hd q (l1 ++ l2) = List.hd (List.hd q l2) l1.
Proof. by destruct l1. Qed.

Lemma chain_app m p l1 l2 q :
  chain m p (l1 ++ l2) q <-> chain m p l1 (List.hd q l2) /\ chain m (lastd p l1) l2 q.
Proof.
  revert p. induction l1 as [|x l1 IH]; intros p; simpl.
  - tauto.
  - rewrite IH, hd_app. tauto.
Qed.

(** The bytes of the links of the nodes [l]. *)
Definition links (l : list Z) (b : Z) : Prop := exists x, x ∈ l /\ x + 8 <= b < x + 16.

Definition apart (l : list Z) : Prop :=
  NoDup l /\ (forall x, x ∈ l -> 0 < x < 2 ^ 32) /\
  forall x y, x ∈ l -> y ∈ l -> x <> y -> x + 16 <= y \/ y + 16 <= x.

Lemma chain_frame m m' p l q :
  chain m p l q -> (forall x, x ∈ l -> ld m' (o_flink x) = ld m (o_flink x)) ->
  (forall x, x ∈ l -> ld m' (o_blink x) = ld m (o_blink x)) -> chain m' p l q.
Proof.
  revert p. induction l as [|x l IH]; intros p; simpl; [done|].
  intros (Hb & Hf & Hc) F B. rewrite B, F by set_solver. split_and!; [done..|].
  apply IH; set_solver.
Qed.

Lemma chain_differ P m m' p l q :
  chain m p l q -> differ P m m' -> (forall b, links l b -> ~ P b) -> chain m' p l q.
Proof.
  intros Hc Hd HP.
  eapply chain_frame; [done|intros x Hx; eapply differ_ld; [done|]; intros b Hb; apply HP;
    exists x; unfold o_flink, o_blink in Hb; split; [done|lia]..].
Qed.

Lemma chain_wr m a v p l q :
  chain m p l q -> (forall x, x ∈ l -> a + 4 <= x + 8 \/ x + 16 <= a) ->
  chain (wr m a v) p l q.
Proof.
  intros Hc Ha. apply (chain_frame m); [done|intros x Hx; apply ld_wr_ne;
    specialize (Ha x Hx); unfold o_flink, o_blink; lia..].
Qed.

Lemma chain_mapped m p l q x :
  chain m p l q -> x ∈ l -> mapped m (x + 8) (x + 16).
Proof.
  revert p. induction l as [|y l IH]; intros p Hc Hx; [set_solver|].
  destruct Hc as (Hb & Hf & Hc). apply elem_of_cons in Hx as [->|Hx]; [|eauto].
  intros b Hb'. destruct (decide (b < y + 12)).
  - apply (ld_mapped _ _ _ Hf). unfold o_flink. lia.
  - apply (ld_mapped _ _ _ Hb). unfold o_blink. lia.
Qed.

(** Two segments of a list after the words between them were set. *)
Lemma chain_relink m m' p q r l1 x l2 :
  chain m p (l1 ++ [x]) q -> chain m r l2 0 ->
  ld m' (o_flink x) = Some (List.hd 0 l2) ->
  (l2 <> [] -> ld m' (o_blink (List.hd 0 l2)) = Some x) ->
  (forall y, y ∈ l1 -> ld m' (o_flink y) = ld m (o_flink y)) ->
  (forall y, y ∈ l1 ++ [x] -> ld m' (o_blink y) = ld m (o_blink y)) ->
  (forall y, y ∈ l2 -> ld m' (o_flink y) = ld m (o_flink y)) ->
  (forall y, y ∈ tail l2 -> ld m' (o_blink y) = ld m (o_blink y)) ->
  chain m' p (l1 ++ x :: l2) 0.
Proof.
  rewrite chain_app. intros [Hc1 [Hx _]] Hc2 Hf Hb F1 B1 F2 B2.
  apply chain_app. split.
  { eapply chain_frame; [exact Hc1|done|intros; apply B1; set_solver]. }
  simpl. split_and!; [rewrite B1 by set_solver; done|done|].
  destruct l2 as [|y l2]; [done|]. destruct Hc2 as (_ & Hfy & Hc2). simpl in *.
  split_and!; [by apply Hb|rewrite F2 by set_solver; done|].
  eapply chain_frame; [exact Hc2|intros; apply F2; set_solver|done].
Qed.

(** Nodes of [l] are [x] itself or have disjoint fields. *)
Lemma apart_cases l x z : apart l -> x ∈ l -> z ∈ l -> z = x \/ z + 16 <= x \/ x + 16 <= z.
Proof. intros (_ & _ & H) Hx Hz. destruct (decide (z = x)); [by left|right; by apply H]. Qed.

Lemma apart_u32 l x : apart l -> x ∈ l -> u32 x = x /\ 0 < x.
Proof. intros (_ & H & _) Hx. specialize (H x Hx). split; [apply u32_small|]; lia. Qed.

(** Link words after a link word was written. *)
Section link_words.
Context (l : list Z) (Hap : apart l) (m : mem) (x v z : Z) (Hx : x ∈ l) (Hz : z ∈ l).

Lemma flink_flink : ld (wr m (o_flink x) v) (o_flink z) =
  if decide (z = x) then Some (u32 v) else ld m (o_flink z).
Proof.
  destruct (decide (z = x)) as [->|]; [apply ld_wr_eq|apply ld_wr_ne].
  destruct (apart_cases l x z) as [|]; try done. olia.
Qed.

Lemma blink_blink : ld (wr m (o_blink x) v) (o_blink z) =
  if decide (z = x) then Some (u32 v) else ld m (o_blink z).
Proof.
  destruct (decide (z = x)) as [->|]; [apply ld_wr_eq|apply ld_wr_ne].
  destruct (apart_cases l x z) as [|]; try done. olia.
Qed.

Lemma flink_blink : ld (wr m (o_flink x) v) (o_blink z) = ld m (o_blink z).
Proof. apply ld_wr_ne. destruct (apart_cases l x z) as [->|]; try done; olia. Qed.

Lemma blink_flink : ld (wr m (o_blink x) v) (o_flink z) = ld m (o_flink z).
Proof. apply ld_wr_ne. destruct (apart_cases l x z) as [->|]; try done; olia. Qed.
End link_words.

(** Evaluate link words of nodes of [l]. *)
Ltac link_word l :=
  repeat first [rewrite (flink_flink l) by done | rewrite (blink_flink l) by done
               |rewrite (blink_blink l) by done | rewrite (flink_blink l) by done];
  repeat case_decide; try done; try congruence.

(** Storing a link word of a node of [l]. *)
Lemma link_store l m m' x :
  x ∈ l -> mapped m (x + 8) (x + 16) -> differ (links l) m m' ->
  (forall v, st m' (o_flink x) v = Some (wr m' (o_flink x) v) /\
             differ (links l) m (wr m' (o_flink x) v)) /\
  (forall v, st m' (o_blink x) v = Some (wr m' (o_blink x) v) /\
             differ (links l) m (wr m' (o_blink x) v)).
Proof.
  intros Hx Hm Hd.
  assert (mapped m' (x + 8) (x + 16)) by by eapply differ_mapped.
  assert (mapped m' (o_flink x) (o_flink x + 4)) by (apply (mapped_sub _ (x + 8) (x + 16)); [done|olia..]).
  assert (mapped m' (o_blink x) (o_blink x + 4)) by (apply (mapped_sub _ (x + 8) (x + 16)); [done|olia..]).
  split; intros v; (split; [by apply st_ok|apply differ_wr; [done..|]]);
    intros b Hb; exists x; (split; [done|olia]).
Qed.

(** The list with [node] left out, in the old memory. *)
Lemma apart_split l1 prev node l2 : apart (l1 ++ prev :: node :: l2) ->
  prev <> node /\
  (forall z, z ∈ l1 -> z ∈ l1 ++ prev :: node :: l2 /\ z <> prev /\ z <> node /\ z ∉ l2) /\
  (forall z, z ∈ l2 -> z ∈ l1 ++ prev :: node :: l2 /\ z <> prev /\ z <> node) /\ NoDup l2.
Proof.
  intros [Hn _]. rewrite NoDup_app, !NoDup_cons in Hn. set_solver.
Qed.

(** Taking a node out of a list. *)
Lemma unlink_chain m l1 prev node l2 :
  chain m 0 (l1 ++ prev :: node :: l2) 0 -> apart (l1 ++ prev :: node :: l2) ->
  exists m', unlink m node = Some m' /\ chain m' 0 (l1 ++ prev :: l2) 0 /\
    differ (links (l1 ++ prev :: node :: l2)) m m'.
Proof.
  intros Hc Hap. destruct (apart_split _ _ _ _ Hap) as (Hpn & A1 & A2 & Hnd).
  set (l := l1 ++ prev :: node :: l2) in *.
  assert (Hmp : forall x, x ∈ l -> mapped m (x + 8) (x + 16)) by (intros; by eapply chain_mapped).
  assert (Hpl : prev ∈ l) by (subst l; set_solver). assert (Hnl : node ∈ l) by (subst l; set_solver).
  apply chain_app in Hc as (Hc1 & Hpb & _ & Hnb & Hnf & Hc2).
  destruct (apart_u32 l prev) as [Hpu Hp0]; [done..|].
  unfold unlink. rewrite Hnb. simpl. rewrite (proj2 (Z.eqb_neq _ _)) by lia. simpl.
  rewrite Hnf. simpl.
  destruct (link_store l m m prev) as [S1 _]; [auto using differ_refl..|].
  destruct (S1 (List.hd 0 l2)) as [-> D1]. simpl.
  replace (ld _ (o_flink node)) with (Some (List.hd 0 l2)) by (symmetry; link_word l). simpl.
  replace (ld _ (o_blink node)) with (Some prev) by (symmetry; link_word l). simpl.
  destruct l2 as [|y l2]; simpl in *.
  - eexists. split_and!; [done| |done]. apply chain_app. simpl. split_and!; [|link_word l..|done].
    eapply chain_frame; [exact Hc1|intros z Hz; destruct (A1 z Hz) as (?&?&?&?); link_word l..].
  - destruct (A2 y) as (Hyl & ? & ?); [left|]. destruct (apart_u32 l y) as [Hyu Hy0]; [done..|].
    apply NoDup_cons in Hnd as [Hy Hnd]. rewrite (proj2 (Z.eqb_neq _ _)) by lia.
    destruct (link_store l m (wr m (o_flink prev) y) y) as [_ S2]; [auto..|].
    destruct (S2 prev) as [-> D2]. eexists. split_and!; [done| |done].
    destruct Hc2 as (_ & Hfy & Hc2).
    apply chain_app. simpl. split_and!; [|link_word l..|].
    + eapply chain_frame; [exact Hc1|intros z Hz; destruct (A1 z Hz) as (?&?&?&[? ?]%not_elem_of_cons);
        link_word l..].
    + eapply chain_frame; [exact Hc2|intros z Hz; destruct (A2 z) as (?&?&?); [by right|];
        assert (z <> y) by (intros ->; done); link_word l..].
Qed.

(** Putting a node into a list. *)
Lemma link_chain m l1 prev node l2 :
  chain m 0 (l1 ++ prev :: l2) 0 -> apart (l1 ++ prev :: node :: l2) ->
  mapped m (node + 8) (node + 16) ->
  exists m', link_between m prev node (List.hd 0 l2) = Some m' /\
    chain m' 0 (l1 ++ prev :: node :: l2) 0 /\
    differ (links (l1 ++ prev :: node :: l2)) m m'.
Proof.
  intros Hc Hap Hmn. destruct (apart_split _ _ _ _ Hap) as (Hpn & A1 & A2 & Hnd).
  set (l := l1 ++ prev :: node :: l2) in *.
  assert (Hmp : forall x, x ∈ l1 ++ prev :: l2 -> mapped m (x + 8) (x + 16))
    by (intros; by eapply chain_mapped).
  assert (Hpl : prev ∈ l) by (subst l; set_solver). assert (Hnl : node ∈ l) by (subst l; set_solver).
  apply chain_app in Hc as (Hc1 & Hpb & _ & Hc2).
  destruct (apart_u32 l prev) as [Hpu _], (apart_u32 l node) as [Hnu Hn0]; [done..|].
  unfold link_between.
  destruct (link_store l m m prev) as [S1 _]; [done|apply Hmp; set_solver|apply differ_refl|].
  destruct (S1 node) as [-> D1]. simpl.
  destruct (link_store l m _ node Hnl Hmn D1) as [_ S2]. destruct (S2 prev) as [-> D2]. simpl.
  destruct (link_store l m _ node Hnl Hmn D2) as [S3 _].
  destruct (S3 (List.hd 0 l2)) as [-> D3]. simpl.
  destruct l2 as [|y l2]; simpl in *.
  - eexists. split_and!; [done| |done]. apply chain_app. simpl. split_and!; [|link_word l..|done].
    eapply chain_frame; [exact Hc1|intros z Hz; destruct (A1 z Hz) as (?&?&?&?); link_word l..].
  - destruct (A2 y) as (Hyl & ? & ?); [left|]. destruct (apart_u32 l y) as [Hyu Hy0]; [done..|].
    apply NoDup_cons in Hnd as [Hy Hnd]. rewrite (proj2 (Z.eqb_neq _ _)) by lia.
    destruct (link_store l m _ y Hyl ltac:(apply Hmp; set_solver) D3) as [_ S4].
    destruct (S4 node) as [-> D4]. eexists. split_and!; [done| |done].
    destruct Hc2 as (_ & Hfy & Hc2).
    apply chain_app. simpl. split_and!; [|link_word l..|].
    + eapply chain_frame; [exact Hc1|intros z Hz; destruct (A1 z Hz) as (?&?&?&[? ?]%not_elem_of_cons);
        link_word l..].
    + eapply chain_frame; [exact Hc2|intros z Hz; destruct (A2 z) as (?&?&?); [by right|];
        assert (z <> y) by (intros ->; done); link_word l..].
Qed.

(** ** The order of the list

    The heads of the array [mm_nodelist] and the free nodes form one list.  A
    head stands before the nodes of its size class: its key lies just below
    twice the smallest size of the class. *)

Inductive ent := Head (i : Z) | Node (a s : Z).

#[global] Instance ent_eq_dec : EqDecision ent.
Proof. solve_decision. Defined.

Definition esize (e : ent) : Z := match e with Head _ => 0 | Node _ s => s end.
Definition key (e : ent) : Z := match e with Head i => 2 ^ (i + 5) - 1 | Node _ s => 2 * s end.
Definition before (e e' : ent) : Prop := key e <= key e'.

#[global] Instance before_trans : Transitive before.
Proof. intros x y z. unfold before. lia. Qed.

Lemma flsl_loop_log2 fuel b v :
  0 < v < 2 ^ Z.of_nat fuel -> flsl_loop fuel b v = b + Z.log2 v.
Proof.
  revert b v. induction fuel as [|fuel IH]; intros b v Hv; [simpl in Hv; lia|].
  simpl. destruct (Z.eqb_spec v 1) as [->|]; [simpl; lia|].
  rewrite Nat2Z.inj_succ, Z.pow_succ_r in Hv by lia.
  rewrite IH; rewrite Z.shiftr_div_pow2 by lia; change (2 ^ 1) with 2; [|zlia].
  replace (v / 2) with (Z.shiftr v 1) by (by rewrite Z.shiftr_div_pow2 by lia).
  rewrite Z.log2_shiftr by lia.
  assert (1 <= Z.log2 v) by (apply Z.log2_le_pow2; simpl; lia). lia.
Qed.

(** The class of a size. *)
Lemma mm_size2ndx_spec s : MM_MIN_CHUNK <= s < 2 ^ 32 -> exists n,
  mm_size2ndx s = Some n /\ 0 <= n < MM_NNODES /\ 2 ^ (n + 4) <= s /\
  (n < MM_NNODES - 1 -> s < 2 ^ (n + 5)).
Proof.
  unfold mm_size2ndx, dassert, MM_MIN_CHUNK, MM_MAX_CHUNK, MM_NNODES, MM_MIN_SHIFT. intros Hs.
  rewrite (proj2 (Z.leb_le 16 s)) by lia. simpl. destruct (Z.leb_spec 4194304 s).
  { exists 18. change (2 ^ (18 + 4)) with 4194304. split_and!; [done|lia..]. }
  assert (Hsh : Z.shiftr s 4 = s / 16) by (by rewrite Z.shiftr_div_pow2 by lia).
  assert (0 < s / 16 < 2 ^ 32) by (change (2 ^ 32) with 4294967296; zlia).
  unfold flsl. rewrite Hsh, (proj2 (Z.eqb_neq _ _)), u32_small by lia.
  rewrite flsl_loop_log2 by (simpl Z.of_nat; lia).
  pose proof (Z.log2_spec (s / 16)) as [Hl1 Hl2]; [lia|].
  assert (0 <= Z.log2 (s / 16)) by apply Z.log2_nonneg.
  assert (Z.log2 (s / 16) < 18) by (apply Z.log2_lt_pow2; [lia|]; change (2 ^ 18) with 262144; zlia).
  exists (Z.log2 (s / 16)). replace (1 + Z.log2 (s / 16) - 1) with (Z.log2 (s / 16)) by lia.
  rewrite !Z.pow_add_r by lia. rewrite Z.pow_succ_r in Hl2 by lia.
  change (2 ^ 4) with 16. change (2 ^ 5) with 32.
  split_and!; [done|lia|lia|zlia|intros; zlia].
Qed.

Section flist.
Context (H : Z).

(** The address of an entry, [H] being the address of the array of heads. *)
Definition at_ (e : ent) : Z := match e with Head i => H + 16 * i | Node a _ => a end.

Abbreviation ats L := (map at_ L).

(** The entries [L] in memory. *)
Definition flist (m : mem) (L : list ent) : Prop :=
  chain m 0 (ats L) 0 /\ (forall e, e ∈ L -> ld m (o_size (at_ e)) = Some (esize e)) /\
  apart (ats L).

(** The order: all heads, and the free nodes of [F] with their sizes. *)
Definition ordered (L : list ent) (F : gmap Z Z) : Prop :=
  StronglySorted before L /\ NoDup L /\
  (forall i, Head i ∈ L <-> 0 <= i < MM_NNODES) /\
  (forall a s, Node a s ∈ L <-> F !! a = Some s) /\
  (forall a s, Node a s ∈ L -> MM_MIN_CHUNK <= s < 2 ^ 32 /\ s mod 4 = 0).

Lemma flist_fuel m L : flist m L -> (length L < mem_fuel m)%nat.
Proof.
  intros (Hc & _ & Hap & _ & _). unfold mem_fuel. rewrite <- (length_map at_ L).
  assert (Hn : NoDup (map (fun x => x + 8) (ats L))) by (apply NoDup_fmap_2; [intros ??; lia|done]).
  rewrite <- (length_map (fun x => x + 8)).
  apply Nat.lt_succ_r. rewrite <- (size_list_to_set (C := gset Z)), <- size_dom by done.
  apply subseteq_size. intros b Hb. apply elem_of_list_to_set in Hb.
  apply list_elem_of_fmap in Hb as (x & -> & Hx). apply elem_of_dom.
  eapply chain_mapped; [done..|lia].
Qed.
Lemma at_pos L e : apart (ats L) -> e ∈ L -> 0 < at_ e.
Proof. intros (_ & Hp & _) He. apply Hp. by apply list_elem_of_fmap_2. Qed.

Lemma sizeof_plain s : s mod 4 = 0 -> MM_SIZEOF_NODE s = s.
Proof. intros Hs. pose proof (sizeof_hdr s false false Hs) as E. unfold hdr, b2z in E.
by rewrite Z.mul_0_r, !Z.add_0_r in E. Qed.

(** What a walk along the rest [L] of the list needs to know. *)
Definition walkable (m : mem) (p : Z) (L : list ent) : Prop :=
  chain m p (ats L) 0 /\
  (forall e, e ∈ L -> ld m (o_size (at_ e)) = Some (esize e) /\ 0 < at_ e /\ esize e mod 4 = 0 /\
     (forall a s, e = Node a s -> 0 < s)).

Lemma walkable_cons m p e L : walkable m p (e :: L) -> walkable m (at_ e) L.
Proof. intros [(_ & _ & Hc) He]. split; [done|]. intros; apply He. by right. Qed.

Lemma addfree_loop_spec fuel m x L s :
  walkable m x L -> (length L < fuel)%nat -> exists A B,
  L = A ++ B /\ addfree_loop fuel m x (List.hd 0 (ats L)) s = Some (lastd x (ats A), List.hd 0 (ats B)) /\
  (forall e, e ∈ A -> exists a t, e = Node a t /\ t < s) /\
  (forall e B', B = e :: B' -> (exists i, e = Head i) \/ s <= esize e).
Proof.
  revert x L. induction fuel as [|fuel IH]; intros x L Hw Hf; [lia|].
  destruct L as [|e L]; simpl.
  { exists [], []. split_and!; [done..|set_solver|done]. }
  pose proof Hw as [(_ & Hfl & _) He]. destruct (He e) as (Hs & Hp & Hmod & Hpos); [left|].
  rewrite (proj2 (Z.eqb_neq _ _)), Hs by lia. simpl.
  destruct (Z.eqb_spec (esize e) 0) as [E|E].
  { exists [], (e :: L). split_and!; [done..|set_solver|]. intros ? ? [= <- <-]. left.
    destruct e as [i|a t]; [by exists i|]. specialize (Hpos a t eq_refl). simpl in E. lia. }
  rewrite sizeof_plain by done. destruct (Z.ltb_spec (esize e) s) as [Hlt|Hge].
  - rewrite Hfl. simpl. apply walkable_cons in Hw. simpl in Hf.
    destruct (IH (at_ e) L Hw ltac:(lia)) as (A & B & -> & -> & HA & HB).
    exists (e :: A), B. split_and!; [done..| |done]. intros e' [->|?]%elem_of_cons; [|eauto].
    destruct e as [i|a t]; [done|]. by exists a, t.
  - exists [], (e :: L). split_and!; [done..|set_solver|]. intros ? ? [= <- <-]. by right.
Qed.

Lemma search_free_spec fuel m p x L s :
  0 < s -> walkable m x L -> chain m p (x :: ats L) 0 -> (length L < fuel)%nat ->
  (fit_loop fuel m (List.hd 0 (ats L)) s = Some (0, 0) /\ forall e, e ∈ L -> esize e < s) \/
  exists A a t B, L = A ++ Node a t :: B /\ s <= t /\ (forall e, e ∈ A -> esize e < s) /\
    fit_loop fuel m (List.hd 0 (ats L)) s = Some (a, t).
Proof.
  intros Hs0. revert p x L. induction fuel as [|fuel IH]; intros p x L Hw Hc Hf; [lia|].
  destruct L as [|e L]; simpl.
  { left. split; [done|set_solver]. }
  pose proof Hw as [_ He]. destruct Hc as (_ & Hxf & Hc). pose proof Hc as (Hb & Hfl & _).
  destruct (He e) as (Hs & Hp & Hmod & _); [left|].
  rewrite (proj2 (Z.eqb_neq _ _)), Hb by lia. simpl. rewrite Hxf. simpl.
  rewrite Z.eqb_refl. simpl. rewrite Hs. simpl. rewrite sizeof_plain by done.
  destruct (Z.leb_spec s (esize e)) as [Hge|Hlt].
  - right. destruct e as [i|a t]; simpl in *; [lia|]. exists [], a, t, L.
    split_and!; [done..|set_solver|done].
  - rewrite Hfl. simpl. apply walkable_cons in Hw. simpl in Hf.
    destruct (IH _ _ _ Hw Hc ltac:(lia)) as [[E Hall]|(A & a & t & B & -> & Ht & HA & E)]; rewrite E.
    + left. split; [done|]. intros e' [->|?]%elem_of_cons; auto.
    + right. exists (e :: A), a, t, B. split_and!; [done..| |done].
      intros e' [->|?]%elem_of_cons; auto.
Qed.

(** ** The operations on the list *)

Lemma flist_walkable m L1 L2 F :
  flist m (L1 ++ L2) -> ordered (L1 ++ L2) F -> walkable m (lastd 0 (ats L1)) L2.
Proof.
  intros (Hc & Hs & Hap) (_ & _ & _ & _ & Hn). rewrite map_app in Hc. apply chain_app in Hc as [_ Hc].
  split; [done|]. intros e He. assert (e ∈ L1 ++ L2) by set_solver.
  split_and!; [auto|by eapply at_pos|destruct e as [|a t]; [done|]; by eapply Hn|].
  intros a t ->. destruct (Hn a t); [done|]. unfold MM_MIN_CHUNK in *. lia.
Qed.

Lemma apart_perm l l' : l ≡ₚ l' -> apart l -> apart l'.
Proof. intros Hp. unfold apart. rewrite Hp. by setoid_rewrite Hp. Qed.

Lemma apart_size_word l x y : apart l -> x ∈ l -> y ∈ l -> forall b, o_size x <= b < o_size x + 4 ->
~ (y + 8 <= b < y + 16).
Proof. intros Hap Hx Hy b Hb. destruct (apart_cases l x y) as [->|]; try done; olia. Qed.

(** The size words survive changes of the links. *)
Lemma sizes_differ m m' l (L : list ent) :
  differ (links l) m m' -> apart l -> (forall e, e ∈ L -> at_ e ∈ l) ->
  (forall e, e ∈ L -> ld m (o_size (at_ e)) = Some (esize e)) ->
  forall e, e ∈ L -> ld m' (o_size (at_ e)) = Some (esize e).
Proof.
  intros Hd Hap Hin Hs e He. rewrite (differ_ld _ _ _ _ Hd); [auto|].
  intros b Hb (y & Hy & Hyb). eapply (apart_size_word l (at_ e) y); eauto.
Qed.

Lemma apart_sub l l' : apart l -> NoDup l' -> (forall x, x ∈ l' -> x ∈ l) -> apart l'.
Proof. intros (_ & Hp & Ha) Hn Hsub. split_and!; auto. Qed.

(** Leaving out an entry keeps the order. *)
Lemma ordered_remove L1 L2 F a s :
  ordered (L1 ++ Node a s :: L2) F -> ordered (L1 ++ L2) (delete a F).
Proof.
  intros (Hss & Hn & Hh & HN & Hsz). split_and!.
  - apply StronglySorted_app in Hss as (H12 & H1 & [_ H2]%StronglySorted_cons).
    apply StronglySorted_app. set_solver.
  - apply NoDup_app in Hn as (? & ? & [? ?]%NoDup_cons). apply NoDup_app. set_solver.
  - intros i. rewrite <- Hh. set_solver.
  - intros b t. rewrite lookup_delete_Some, <- HN. split.
    + intros Hb. split; [|set_solver]. intros <-.
      assert (Node a t ∈ L1 ++ Node a s :: L2) as Hb' by set_solver.
      apply HN in Hb'. assert (F !! a = Some s) as E by (apply HN; set_solver).
      rewrite Hb' in E. injection E as ->.
      apply NoDup_app in Hn as (? & ? & [? ?]%NoDup_cons). set_solver.
    + intros [Hne Hb]. set_unfold. naive_solver.
  - intros b t Hb. apply (Hsz b t). set_solver.
Qed.

(** A node has an entry before it. *)
Lemma ordered_pred L1 L2 F a s : ordered (L1 ++ Node a s :: L2) F -> exists L0 p, L1 = L0 ++ [p].
Proof.
  intros (Hss & Hn & Hh & HN & Hsz). destruct L1 as [|e L1 _] using rev_ind; [|eauto]. exfalso. simpl in *.
  assert (Head 0 ∈ Node a s :: L2) as [|H0]%elem_of_cons by (apply Hh; unfold MM_NNODES; lia); [done|].
  apply StronglySorted_inv in Hss as [_ Hss]. rewrite Forall_forall in Hss.
  specialize (Hss _ H0). destruct (Hsz a s); [left|]. unfold before, key, MM_MIN_CHUNK in *. simpl in Hss.
  lia.
Qed.

Lemma flist_unlink m L F a s :
  flist m L -> ordered L F -> F !! a = Some s -> exists m' L',
  unlink m a = Some m' /\ flist m' L' /\ ordered L' (delete a F) /\
  differ (links (ats L)) m m' /\ (forall e, e ∈ L' -> e ∈ L).
Proof.
  intros Hfl Ho HF. pose proof Hfl as (Hc & Hs & Hap). pose proof Ho as (Hss & Hn & Hh & HN & Hsz).
  apply HN in HF as HaL.
  apply list_elem_of_split in HaL as (L1 & L2 & ->).
  destruct (ordered_pred _ _ _ _ _ Ho) as (L0 & p & ->).
  rewrite <- app_assoc in *. simpl in *.
  assert (EL : ats (L0 ++ p :: Node a s :: L2) = ats L0 ++ at_ p :: a :: ats L2) by (by rewrite map_app).
  rewrite EL in Hc, Hap.
  destruct (unlink_chain m (ats L0) (at_ p) a (ats L2)) as (m' & E & Hc' & Hd); [done..|].
  exists m', (L0 ++ p :: L2).
  assert (EL' : ats (L0 ++ p :: L2) = ats L0 ++ at_ p :: ats L2) by (by rewrite map_app).
  assert (Hsub : forall e, e ∈ L0 ++ p :: L2 -> e ∈ L0 ++ p :: Node a s :: L2) by set_solver.
  split_and!; [done| | |by rewrite EL|done].
  - split_and!; [by rewrite EL'| |].
    + eapply sizes_differ; [done..|rewrite <- EL; intros; apply list_elem_of_fmap_2; auto|auto].
    + rewrite EL'. eapply apart_sub; [done| |set_solver].
      destruct Hap as [Hn' _]. rewrite NoDup_app, !NoDup_cons in *. set_solver.
  - replace (L0 ++ p :: L2) with ((L0 ++ [p]) ++ L2) by (by rewrite <- app_assoc).
    eapply (ordered_remove (L0 ++ [p]) L2 F a s). by rewrite <- app_assoc.
Qed.
(** The place that the walk from the head of the class finds is in order. *)
Lemma ordered_insert L1 n A B F a s :
  ordered (L1 ++ Head n :: A ++ B) F -> F !! a = None ->
  MM_MIN_CHUNK <= s < 2 ^ 32 -> s mod 4 = 0 ->
  2 ^ (n + 4) <= s -> (n < MM_NNODES - 1 -> s < 2 ^ (n + 5)) ->
  (forall e, e ∈ A -> exists b t, e = Node b t /\ t < s) ->
  (forall e B', B = e :: B' -> (exists i, e = Head i) \/ s <= esize e) ->
  ordered (L1 ++ Head n :: A ++ Node a s :: B) (<[a := s]> F).
Proof.
  intros (Hss & Hn & Hh & HN & Hsz) HF Hs Hmod Hlo Hhi HA HB.
  assert (Hna : forall t, Node a t ∉ L1 ++ Head n :: A ++ B) by (intros t Ht%HN; congruence).
  assert (0 <= n < MM_NNODES) as Hnn by (apply Hh; set_solver).
  apply StronglySorted_app in Hss as (H12 & H1 & [HnAB HAB]%StronglySorted_cons).
  apply StronglySorted_app in HAB as (H34 & H3 & H4). rewrite Forall_forall in HnAB.
  assert (Hhd : before (Head n) (Node a s)).
  { unfold before, key. replace (n + 5) with (Z.succ (n + 4)) by lia. rewrite Z.pow_succ_r; lia. }
  assert (HaB : forall e, e ∈ B -> before (Node a s) e).
  { destruct B as [|e B]; [set_solver|]. assert (before (Node a s) e) as He.
    { destruct (HB e B eq_refl) as [[j ->]|Hge].
      - assert (0 <= j < MM_NNODES) as Hj by (apply Hh; set_solver).
        assert (before (Head n) (Head j)) as Hnj by (apply HnAB; set_solver).
        assert (j <> n) by (intros ->; rewrite NoDup_app, NoDup_cons in Hn; set_solver).
        unfold before, key in *. assert (n <= j).
        { destruct (decide (n <= j)); [done|].
          assert (2 ^ (j + 5) < 2 ^ (n + 5)) by (apply Z.pow_lt_mono_r; lia). lia. }
        assert (2 ^ (n + 6) <= 2 ^ (j + 5)) by (apply Z.pow_le_mono_r; lia).
        replace (n + 6) with (Z.succ (n + 5)) in * by lia. rewrite Z.pow_succ_r in * by lia. lia.
      - destruct e as [j|b t]; unfold before, key, esize, MM_MIN_CHUNK in *; lia. }
    intros e' [->|He']%elem_of_cons; [done|]. transitivity e; [done|].
    apply StronglySorted_cons in H4 as [H4 _]. rewrite Forall_forall in H4. auto. }
  assert (HAa : forall e, e ∈ A -> before e (Node a s)).
  { intros e He. destruct (HA e He) as (b & t & -> & Ht). unfold before, key. lia. }
  assert (HL1 : forall e, e ∈ L1 -> before e (Node a s)).
  { intros e He. transitivity (Head n); [|done]. apply H12; set_solver. }
  split_and!.
  - apply StronglySorted_app. split_and!; [set_solver|done|]. apply StronglySorted_cons.
    split; [apply Forall_forall; set_solver|]. apply StronglySorted_app. split_and!; [set_solver|done|].
    apply StronglySorted_cons. split; [by apply Forall_forall|done].
  - specialize (Hna s). rewrite NoDup_app, NoDup_cons, NoDup_app in *. rewrite NoDup_cons. set_solver.
  - intros i. rewrite <- Hh. set_solver.
  - intros b t. rewrite lookup_insert_Some, <- HN. split.
    + intros Hb. destruct (decide (Node b t = Node a s)) as [[= -> ->]|Hne]; [by left|].
      right. assert (Node b t ∈ L1 ++ Head n :: A ++ B) as Hb' by set_solver.
      split; [intros ->; by apply (Hna t)|done].
    + intros [[-> ->]|[_ Hb]]; set_solver.
  - intros b t Hb. destruct (decide (Node b t = Node a s)) as [[= -> ->]|Hne]; [done|].
    apply (Hsz b t). set_solver.
Qed.

Lemma flist_addfree m L F heap a s :
  mm_nodelist heap = H -> flist m L -> ordered L F -> F !! a = None ->
  ld m (o_size a) = Some s -> MM_MIN_CHUNK <= s < 2 ^ 32 -> s mod 4 = 0 ->
  apart (a :: ats L) -> mapped m (a + 8) (a + 16) -> exists m' L',
  mm_addfreechunk m heap a = Some m' /\ flist m' L' /\ ordered L' (<[a := s]> F) /\
  differ (links (a :: ats L)) m m' /\ (forall e, e ∈ L' -> e = Node a s \/ e ∈ L).
Proof.
  intros HH Hfl Ho HF Hw Hs Hmod Hap Hm.
  destruct (mm_size2ndx_spec s Hs) as (n & En & Hnn & Hlo & Hhi).
  unfold mm_addfreechunk. rewrite Hw. bnd. rewrite sizeof_plain by done.
  assert (MM_NODE_IS_FREE s = true) as Hfree.
  { pose proof (is_free_hdr s false false Hmod) as E. unfold hdr, b2z in E.
    by rewrite Z.mul_0_r, !Z.add_0_r in E. }
  rewrite Hfree, (proj2 (Z.leb_le _ _)) by lia. cbn [dassert]. bnd. rewrite En. bnd.
  assert (Head n ∈ L) as Hin by (by apply Ho).
  apply list_elem_of_split in Hin as (L1 & L2 & ->).
  pose proof Hfl as (Hc & Hsz & Hap0).
  assert (chain m (lastd 0 (ats L1)) (at_ (Head n) :: ats L2) 0) as (_ & Hf & _)
    by (rewrite map_app in Hc; by apply chain_app in Hc as [_ Hc]).
  assert (nodelist_at heap n = at_ (Head n)) as -> by (unfold nodelist_at; by rewrite HH).
  rewrite Hf. bnd.
  assert (walkable m (at_ (Head n)) L2) as Hwk by (eapply walkable_cons, flist_walkable; done).
  destruct (addfree_loop_spec (mem_fuel m) m (at_ (Head n)) L2 s Hwk) as (A & B & -> & E & HA & HB).
  { apply flist_fuel in Hfl. rewrite length_app in Hfl. simpl in Hfl. lia. }
  rewrite E. bnd.
  assert (EL : ats (L1 ++ Head n :: A ++ B) = ats L1 ++ at_ (Head n) :: ats A ++ ats B)
    by (by rewrite map_app, map_cons, map_app).
  assert (exists l1 p, ats L1 ++ at_ (Head n) :: ats A = l1 ++ [p] /\ lastd (at_ (Head n)) (ats A) = p)
    as (l1 & p & El & Ep).
  { destruct (ats A) as [|y l' _] using rev_ind; [by exists (ats L1), (at_ (Head n))|].
    exists (ats L1 ++ at_ (Head n) :: l'), y. rewrite lastd_snoc, <- app_assoc. done. }
  rewrite Ep.
  assert (EL2 : ats (L1 ++ Head n :: A ++ B) = l1 ++ p :: ats B).
  { rewrite EL. replace (l1 ++ p :: ats B) with ((l1 ++ [p]) ++ ats B) by (by rewrite <- app_assoc).
    rewrite <- El, <- app_assoc. done. }
  assert (EL3 : ats (L1 ++ Head n :: A ++ Node a s :: B) = l1 ++ p :: a :: ats B).
  { replace (l1 ++ p :: a :: ats B) with ((l1 ++ [p]) ++ a :: ats B) by (by rewrite <- app_assoc).
    rewrite <- El, <- app_assoc. by rewrite map_app, map_cons, map_app. }
  assert (Hperm : a :: ats (L1 ++ Head n :: A ++ B) ≡ₚ l1 ++ p :: a :: ats B)
    by (rewrite EL2; solve_Permutation).
  rewrite EL2 in Hc. apply (apart_perm _ _ Hperm) in Hap as Hap'.
  destruct (link_chain m l1 p a (ats B)) as (m' & E' & Hc' & Hd); [done..|].
  exists m', (L1 ++ Head n :: A ++ Node a s :: B). split_and!; [done| | | |].
  - split_and!; [by rewrite EL3| |by rewrite EL3].
    eapply sizes_differ; [done..| |].
    + intros e He. rewrite <- EL3. by apply list_elem_of_fmap_2.
    + intros e He. destruct (decide (e = Node a s)) as [->|]; [done|]. apply Hsz. set_solver.
  - by apply ordered_insert.
  - destruct Hd as [Hd1 Hd2]. split; [done|]. intros b Hb. apply Hd2. intros (x & Hx & ?). apply Hb.
    exists x. split; [|done]. by rewrite Hperm.
  - set_solver.
Qed.
(** The search finds the smallest free node that is large enough. *)
Lemma flist_search m L F heap s :
  mm_nodelist heap = H -> flist m L -> ordered L F -> MM_MIN_CHUNK <= s < 2 ^ 32 ->
  exists ndx first, mm_size2ndx s = Some ndx /\
  ld m (o_flink (nodelist_at heap ndx)) = Some first /\
  ((fit_loop (mem_fuel m) m first s = Some (0, 0) /\ forall a t, F !! a = Some t -> t < s) \/
   exists a t, fit_loop (mem_fuel m) m first s = Some (a, t) /\ F !! a = Some t /\ s <= t /\
     forall b u, F !! b = Some u -> s <= u -> t <= u).
Proof.
  intros HH Hfl Ho Hs. destruct (mm_size2ndx_spec s Hs) as (n & En & Hnn & Hlo & _).
  assert (Head n ∈ L) as Hin by (by apply Ho).
  apply list_elem_of_split in Hin as (L1 & L2 & ->).
  pose proof Hfl as (Hc & _ & _). pose proof Ho as (Hss & _ & _ & HN & _).
  rewrite map_app in Hc. apply chain_app in Hc as [_ Hc]. pose proof Hc as (_ & Hf & _).
  exists n, (List.hd 0 (ats L2)). split_and!; [done|unfold nodelist_at; by rewrite HH|].
  assert (walkable m (at_ (Head n)) L2) as Hwk by (eapply walkable_cons, flist_walkable; done).
  apply StronglySorted_app in Hss as (H12 & _ & [_ H2]%StronglySorted_cons).
  (* nodes before the head of the class are too small *)
  assert (Hsm : forall a t, F !! a = Some t -> s <= t -> Node a t ∈ L2).
  { intros a t Hat Hst. apply HN, elem_of_app in Hat as [Hat|[|Hat]%elem_of_cons]; [|done..].
    assert (before (Node a t) (Head n)) as Hb by (apply H12; set_solver).
    unfold before, key in Hb. replace (n + 5) with (Z.succ (n + 4)) in Hb by lia.
    rewrite Z.pow_succ_r in Hb; lia. }
  unfold MM_MIN_CHUNK in Hs.
  destruct (search_free_spec (mem_fuel m) m _ _ _ s ltac:(lia) Hwk Hc)
    as [[E Hall]|(A & a & t & B & -> & Hst & HA & E)].
  { apply flist_fuel in Hfl. rewrite length_app in Hfl. simpl in Hfl. lia. }
  - left. split; [done|]. intros a t Hat. destruct (decide (t < s)); [done|].
    by apply (Hall (Node a t)), Hsm; [|lia].
  - right. exists a, t. split_and!; [done|apply HN; set_solver|done|]. intros b u Hbu Hsu.
    specialize (Hsm b u Hbu Hsu). apply elem_of_app in Hsm as [Hb|[[= -> ->]|Hb]%elem_of_cons].
    + specialize (HA _ Hb). simpl in HA. lia.
    + done.
    + apply StronglySorted_app in H2 as (_ & _ & [H2 _]%StronglySorted_cons).
      rewrite Forall_forall in H2. specialize (H2 _ Hb). unfold before, key in H2. lia.
Qed.
End flist.
