(* ===== verification/HeapInv.v ===== *)
(** * The invariant of the heap

    The chunks of a heap as a map from addresses, what it means that memory
    holds them, and the one change that every operation makes to them: a run of
    chunks is replaced by one or two others ([refit1], [refit2]). *)

From S2P Require Import Prelude.
From stdpp Require Import gmap sorting.
From S2P Require Import Heap HeapList.
Local Open Scope Z_scope.

(** ** Chunks

    [c_prev] is the size of the chunk before when that one is free. *)

Record chunk := Chunk { c_size : Z; c_used : bool; c_prev : option Z }.
Abbreviation chunks := (gmap Z chunk).

(** The flag for the chunk before. *)
Definition pf (p : option Z) : bool := if p is Some _ then true else false.

(** Chunks are aligned, disjoint, and away from the array of heads at [H]. *)
Definition place (H a : Z) (c : chunk) : Prop :=
  0 < a /\ a mod 8 = 0 /\ 8 <= c_size c /\ c_size c mod 8 = 0 /\ a + c_size c < 2 ^ 32 /\
  (c_used c = false -> 16 <= c_size c) /\ (H + 304 <= a \/ a + c_size c <= H).

Definition geo (H : Z) (C : chunks) : Prop :=
  0 < H /\ H + 304 < 2 ^ 32 /\ (forall a c, C !! a = Some c -> place H a c) /\
  (forall a b c d, C !! a = Some c -> C !! b = Some d -> a < b -> a + c_size c <= b).

(** The words of a chunk, and that its bytes are mapped. *)
Definition words (m : mem) (a : Z) (c : chunk) : Prop :=
  ld m (o_size a) = Some (hdr (c_size c) (c_used c) (pf (c_prev c))) /\
  (forall p, c_prev c = Some p -> ld m (o_preceding a) = Some p) /\
  mapped m a (a + c_size c).

(** Memory holds the chunks [C] and a list of the free nodes [F]. *)
Definition hmem (m : mem) (H : Z) (C : chunks) (F : gmap Z Z) : Prop :=
  geo H C /\ (forall a c, C !! a = Some c -> words m a c) /\
  (forall a s, F !! a = Some s -> C !! a = Some (Chunk s false None)) /\
  exists L, flist H m L /\ ordered L F.

(** The bytes that operations on the list write. *)
Definition lzone (H : Z) (F : gmap Z Z) (b : Z) : Prop :=
  H <= b < H + 304 \/ exists a s, F !! a = Some s /\ a + 8 <= b < a + 16.

Lemma links_lzone H L F b : ordered L F -> links (map (at_ H) L) b -> lzone H F b.
Proof.
  intros (_ & _ & Hh & HN & _) (x & Hx & Hb). apply list_elem_of_fmap in Hx as (e & -> & He).
  destruct e as [i|a s]; simpl in Hb.
  - left. apply Hh in He. unfold MM_NNODES in He. lia.
  - right. exists a, s. split; [by apply HN|lia].
Qed.

Section geometry.
Context (H : Z) (C : chunks) (Hg : geo H C).

Lemma geo_place a c : C !! a = Some c -> place H a c.
Proof. by apply Hg. Qed.

(** Two chunks are the same or disjoint. *)
Lemma geo_apart a b c d :
  C !! a = Some c -> C !! b = Some d -> a = b \/ a + c_size c <= b \/ b + c_size d <= a.
Proof.
  intros Ha Hb. destruct (Z.lt_trichotomy a b) as [|[|]]; [|by left|].
  - right; left. by eapply Hg.
  - right; right. by eapply Hg.
Qed.
End geometry.

Lemma words_differ P m m' a c :
  differ P m m' -> (forall b, a <= b < a + 8 -> ~ P b) -> words m a c -> words m' a c.
Proof.
  intros Hd HP (Hs & Hp & Hm). split_and!.
  - rewrite (differ_ld _ _ _ _ Hd); [done|]. intros b Hb. apply HP. olia.
  - intros p Hcp. rewrite (differ_ld _ _ _ _ Hd); [by apply Hp|]. intros b Hb. apply HP. olia.
  - by eapply differ_mapped.
Qed.

(** The list does not touch headers. *)
Lemma lzone_header H C F a c b :
  geo H C -> (forall a s, F !! a = Some s -> C !! a = Some (Chunk s false None)) ->
  C !! a = Some c -> a <= b < a + 8 -> ~ lzone H F b.
Proof.
  intros Hg HF Ha Hb. pose proof (geo_place _ _ Hg _ _ Ha) as (? & ? & ? & ? & ? & ? & ?).
  intros [?|(f & s & Hf & ?)]; [lia|]. apply HF in Hf.
  pose proof (geo_place _ _ Hg _ _ Hf) as (_ & _ & _ & _ & _ & Hs & _). simpl in Hs.
  destruct (geo_apart _ _ Hg _ _ _ _ Ha Hf) as [->|[?|?]]; simpl in *; lia.
Qed.

Lemma differ_weaken (P Q : Z -> Prop) m m' : differ P m m' -> (forall b, P b -> Q b) -> differ Q m m'.
Proof. intros [Hd Hb] HPQ. split; [done|]. intros b Hq. apply Hb. auto. Qed.

(** ** Operations on the list *)

Lemma hmem_unlink m H C F a s :
  hmem m H C F -> F !! a = Some s -> exists m', unlink m a = Some m' /\
  hmem m' H C (delete a F) /\ differ (lzone H F) m m'.
Proof.
  intros (Hg & Hw & HF & L & Hfl & Ho) Ha.
  destruct (flist_unlink H m L F a s Hfl Ho Ha) as (m' & L' & E & Hfl' & Ho' & Hd & Hsub).
  apply differ_weaken with (Q := lzone H F) in Hd; [|intros; by eapply links_lzone].
  exists m'. split_and!; [done| |done]. split_and!; [done| | |by exists L'].
  - intros b c Hc. eapply words_differ; [done| |by apply Hw]. intros. by eapply lzone_header.
  - intros b t Hb. apply HF. by apply lookup_delete_Some in Hb as [_ ?].
Qed.

(** The entries of the list and a node that is not in it are apart. *)
Lemma hmem_apart m H C F L a s :
  geo H C -> (forall a s, F !! a = Some s -> C !! a = Some (Chunk s false None)) ->
  flist H m L -> ordered L F -> C !! a = Some (Chunk s false None) -> F !! a = None ->
  apart (a :: map (at_ H) L).
Proof.
  intros Hg HF (_ & _ & Hn & Hp & Hap) (_ & _ & Hh & HN & _) Ha HaF.
  pose proof (geo_place _ _ Hg _ _ Ha) as (? & ? & ? & ? & ? & Hsz & ?). simpl in *.
  assert (Hx : forall x, x ∈ map (at_ H) L -> x + 16 <= a \/ a + 16 <= x).
  { intros x Hx. apply list_elem_of_fmap in Hx as (e & -> & He). destruct e as [i|b t]; simpl.
    - apply Hh in He. unfold MM_NNODES in He. specialize (Hsz eq_refl). lia.
    - apply HN in He. pose proof (HF _ _ He) as Hb.
      pose proof (geo_place _ _ Hg _ _ Hb) as (_ & _ & _ & _ & _ & Hsb & _). simpl in Hsb.
      destruct (geo_apart _ _ Hg _ _ _ _ Ha Hb) as [->|[?|?]]; [congruence|simpl in *; lia..]. }
  split_and!.
  - apply NoDup_cons. split; [|done]. intros Hin. specialize (Hx _ Hin). lia.
  - intros x [->|?]%elem_of_cons; [lia|auto].
  - intros x y [->|Hx']%elem_of_cons [->|Hy']%elem_of_cons Hne; [done| | |auto].
    + specialize (Hx _ Hy'). lia.
    + specialize (Hx _ Hx'). lia.
Qed.

Lemma hmem_addfree m H C F heap a s :
  mm_nodelist heap = H -> hmem m H C F -> C !! a = Some (Chunk s false None) -> F !! a = None ->
  exists m', mm_addfreechunk m heap a = Some m' /\ hmem m' H C (<[a := s]> F) /\
  differ (lzone H (<[a := s]> F)) m m'.
Proof.
  intros HH (Hg & Hw & HF & L & Hfl & Ho) Ha HaF.
  pose proof (geo_place _ _ Hg _ _ Ha) as (? & ? & ? & ? & ? & Hsz & ?). simpl in *.
  specialize (Hsz eq_refl). destruct (Hw _ _ Ha) as (Hs & _ & Hm). simpl in *.
  unfold hdr, b2z in Hs. simpl in Hs. rewrite !Z.add_0_r in Hs.
  destruct (flist_addfree H m L F heap a s) as (m' & L' & E & Hfl' & Ho' & Hd & Hsub); try done.
  { unfold MM_MIN_CHUNK. lia. }
  { zlia. }
  { by eapply hmem_apart. }
  { eapply mapped_sub; [done|lia..]. }
  assert (HF' : forall b t, <[a := s]> F !! b = Some t -> C !! b = Some (Chunk t false None)).
  { intros b t [[<- <-]|[_ ?]]%lookup_insert_Some; auto. }
  apply differ_weaken with (Q := lzone H (<[a := s]> F)) in Hd.
  2:{ intros b (x & [->|Hx]%elem_of_cons & Hb).
      - right. exists a, s. by rewrite lookup_insert_eq.
      - assert (lzone H F b) as [?|(f & t & Hf & ?)] by (eapply links_lzone; [done|by exists x]); [by left|].
        right. exists f, t. rewrite lookup_insert_ne; [done|]. congruence. }
  exists m'. split_and!; [done| |done]. split_and!; [done| |done|by exists L'].
  intros b c Hc. eapply words_differ; [done| |by apply Hw]. intros. by eapply lzone_header.
Qed.

(** ** Regions

    [S] and [E] are the first and the last guard nodes of the regions.  Every
    other chunk is followed by a chunk that knows whether it is free. *)

Definition mark (used : bool) (size : Z) : option Z := if used then None else Some size.

Record tiled (S E : list Z) (C : chunks) : Prop := {
  t_next a c : C !! a = Some c -> a ∉ E ->
    exists d, C !! (a + c_size c) = Some d /\ c_prev d = mark (c_used c) (c_size c);
  t_prev a c p : C !! a = Some c -> c_prev c = Some p -> exists q, C !! (a - p) = Some (Chunk p false q);
  t_start a : a ∈ S -> C !! a = Some (Chunk 8 true None);
  t_first a b c : a ∈ S -> C !! b = Some c -> b ∉ E -> b + c_size c <> a;
  t_end a : a ∈ E -> exists q, C !! a = Some (Chunk 8 true q);
  t_in a c : C !! a = Some c -> exists i s e, S !! i = Some s /\ E !! i = Some e /\ s <= a <= e;
  t_size a c : C !! a = Some c -> a ∈ S \/ a ∈ E \/ 16 <= c_size c;
  t_split a : a ∈ S -> a ∉ E;
  t_len : length S = length E;
  t_order i s e : S !! i = Some s -> E !! i = Some e -> s < e /\ forall a, a ∈ E -> s <= a <= e -> a = e;
  t_dup : NoDup E;
}.

(** No two free chunks are next to each other. *)
Definition compact (C : chunks) : Prop :=
  forall a c d, C !! a = Some c -> C !! (a + c_size c) = Some d -> c_used c = true \/ c_used d = true.

(** ** Replacing a run of chunks

    The chunks from [x] up to [y] are replaced by [N]; the chunk at [y] is told
    about its new neighbour. *)

Definition set_prev (q : option Z) (c : chunk) : chunk := Chunk (c_size c) (c_used c) q.

Definition cut (x y : Z) (C : chunks) : chunks := filter (fun ac => ~ (x <= ac.1 < y)) C.

Definition refit (x y : Z) (N : chunks) (q : option Z) (C : chunks) : chunks :=
  alter (set_prev q) y (N ∪ cut x y C).

(** [N] fills the room from [x] to [y]: what its first chunk knows about the
    chunk before, and what the chunk at [y] has to know. *)
Record run (H x y : Z) (N : chunks) (p q : option Z) : Prop := {
  r_in a c : N !! a = Some c -> x <= a /\ a + c_size c <= y /\ place H a c /\ 16 <= c_size c;
  r_first : exists c, N !! x = Some c /\ c_prev c = p;
  r_next a c : N !! a = Some c ->
    (a + c_size c = y /\ q = mark (c_used c) (c_size c)) \/
    exists d, N !! (a + c_size c) = Some d /\ c_prev d = mark (c_used c) (c_size c);
  r_prev a c r : N !! a = Some c -> c_prev c = Some r -> a <> x ->
    exists q', N !! (a - r) = Some (Chunk r false q');
  r_last r : q = Some r -> exists q', N !! (y - r) = Some (Chunk r false q');
  r_disj a b c d : N !! a = Some c -> N !! b = Some d -> a < b -> a + c_size c <= b;
}.

Section refit.
Context (H x y : Z) (C N : chunks) (p q : option Z).
Context (Hr : run H x y N p q) (Hxy : x < y).

Abbreviation C' := (refit x y N q C).

Lemma run_in a c : N !! a = Some c -> x <= a < y.
Proof. intros Ha. destruct (r_in _ _ _ _ _ _ Hr _ _ Ha) as (? & ? & (? & ? & ? & _) & _). lia. Qed.

Lemma refit_lookup a c : C' !! a = Some c <->
  (x <= a < y /\ N !! a = Some c) \/
  (a = y /\ exists cy, C !! y = Some cy /\ c = set_prev q cy) \/
  (~ (x <= a <= y) /\ C !! a = Some c).
Proof.
  assert (HNy : N !! y = None).
  { destruct (N !! y) eqn:E; [|done]. apply run_in in E. lia. }
  unfold refit. destruct (decide (a = y)) as [->|Hne].
  - rewrite lookup_alter_eq, fmap_Some. rewrite lookup_union_r by done. unfold cut.
    setoid_rewrite map_lookup_filter_Some. simpl. split.
    + intros (cy & [Hcy _] & ->). right; left. eauto.
    + intros [[? _]|[[_ (cy & ? & ->)]|[? _]]]; [lia| |lia]. exists cy. split; [split; [done|lia]|done].
  - rewrite lookup_alter_ne by done. rewrite lookup_union_Some_raw. unfold cut.
    rewrite map_lookup_filter_Some. simpl. split.
    + intros [HN|(HN & HC & ?)]; [left; split; [by eapply run_in|done]|right; right]. split; [lia|done].
    + intros [[? HN]|[[? _]|[? HC]]]; [by left|done|right]. split_and!; [|done|lia].
      destruct (N !! a) eqn:E; [|done]. apply run_in in E. lia.
Qed.

Lemma refit_new a c : N !! a = Some c -> C' !! a = Some c.
Proof. intros Ha. apply refit_lookup. left. split; [by eapply run_in|done]. Qed.

Lemma refit_old a c : ~ (x <= a <= y) -> C !! a = Some c -> C' !! a = Some c.
Proof. intros ? Ha. apply refit_lookup. by right; right. Qed.

Lemma refit_y cy : C !! y = Some cy -> C' !! y = Some (set_prev q cy).
Proof. intros Hy. apply refit_lookup. right; left. eauto. Qed.

Context (cx cy : chunk) (Hg : geo H C) (Hcx : C !! x = Some cx) (Hcy : C !! y = Some cy).

Lemma refit_geo : geo H C'.
Proof.
  pose proof Hg as (H1 & H2 & H3 & H4). split_and!; [done..| |].
  - intros a c [[_ Ha]|[[-> (cy' & Hy & ->)]|[_ Ha]]]%refit_lookup.
    + by destruct (r_in _ _ _ _ _ _ Hr _ _ Ha) as (_ & _ & ? & _).
    + exact (H3 y cy' Hy).
    + by apply H3.
  - assert (Hold : forall a c, C !! a = Some c -> ~ (x <= a <= y) -> a + c_size c <= x \/ y < a).
    { intros a c Ha ?. destruct (Z.lt_ge_cases a x); [left; by eapply H4|right; lia]. }
    intros a b c d [[? Ha]|[[-> (? & Hy & ->)]|[? Ha]]]%refit_lookup
      [[? Hb]|[[-> (? & Hy' & ->)]|[? Hb]]]%refit_lookup Hlt; simpl; try lia.
    + by eapply r_disj.
    + destruct (r_in _ _ _ _ _ _ Hr _ _ Ha); lia.
    + destruct (r_in _ _ _ _ _ _ Hr _ _ Ha); lia.
    + by eapply H4.
    + destruct (Hold _ _ Ha); lia.
    + by eapply H4.
    + by eapply H4.
Qed.

(** Old chunks end at [x] at the latest or start after [y]. *)
Lemma refit_outside a c : C !! a = Some c -> ~ (x <= a <= y) -> a + c_size c <= x \/ y < a.
Proof.
  intros Ha ?. pose proof Hg as (_ & _ & _ & H4).
  destruct (Z.lt_ge_cases a x); [left; by eapply H4|right; lia].
Qed.

Context (S E : list Z) (Ht : tiled S E C) (Hp : c_prev cx = p).
Context (HS : forall a, a ∈ S -> ~ (x <= a <= y)) (HE : forall a, a ∈ E -> ~ (x <= a < y)).

(** The chunk after an old one. *)
Lemma refit_next_old a c d : C !! a = Some c -> ~ (x <= a < y) -> C !! (a + c_size c) = Some d ->
  exists d', C' !! (a + c_size c) = Some d' /\ c_prev d' = c_prev d.
Proof.
  intros Ha Hxa Hd. pose proof (geo_place _ _ Hg _ _ Ha) as (_ & _ & ? & _).
  destruct (decide (a = y)) as [->|].
  { exists d. split; [|done]. apply refit_old; [lia|done]. }
  destruct (refit_outside _ _ Ha ltac:(lia)); [|exists d; split; [apply refit_old; [lia|done]|done]].
  destruct (decide (a + c_size c = x)) as [Ex|].
  - rewrite Ex in *. destruct (r_first _ _ _ _ _ _ Hr) as (c' & Hc' & Hp').
    exists c'. split; [by apply refit_new|]. congruence.
  - exists d. split; [|done]. apply refit_old; [lia|done].
Qed.

Lemma refit_next a c : C' !! a = Some c -> a ∉ E ->
  exists d, C' !! (a + c_size c) = Some d /\ c_prev d = mark (c_used c) (c_size c).
Proof.
  intros [[? Ha]|[[-> (cy' & Hy & ->)]|[? Ha]]]%refit_lookup HaE.
  - destruct (r_next _ _ _ _ _ _ Hr _ _ Ha) as [[-> Eq]|(d & Hd & ?)].
    + exists (set_prev q cy). split; [by apply refit_y|done].
    + exists d. split; [by apply refit_new|done].
  - destruct (t_next _ _ _ Ht _ _ Hy HaE) as (d & Hd & Hpd).
    destruct (refit_next_old y cy' d Hy ltac:(lia) Hd) as (d' & ? & Hd'). exists d'. by rewrite Hd'.
  - destruct (t_next _ _ _ Ht _ _ Ha HaE) as (d & Hd & Hpd).
    destruct (refit_next_old a c d Ha ltac:(lia) Hd) as (d' & ? & Hd'). exists d'. by rewrite Hd'.
Qed.

Lemma refit_prev a c r : C' !! a = Some c -> c_prev c = Some r ->
  exists q', C' !! (a - r) = Some (Chunk r false q').
Proof.
  intros [[? Ha]|[[-> (cy' & Hy & ->)]|[? Ha]]]%refit_lookup Hcr.
  - destruct (decide (a = x)) as [->|].
    + destruct (r_first _ _ _ _ _ _ Hr) as (c' & Hc' & Hp').
      assert (c_prev cx = Some r) as Hxr by congruence.
      destruct (t_prev _ _ _ Ht _ _ _ Hcx Hxr) as (q' & Hq').
      exists q'. apply refit_old; [|done].
      pose proof (geo_place _ _ Hg _ _ Hq') as (_ & _ & ? & _). simpl in *. lia.
    + destruct (r_prev _ _ _ _ _ _ Hr _ _ _ Ha Hcr) as (q' & Hq'); [done|].
      exists q'. by apply refit_new.
  - destruct (r_last _ _ _ _ _ _ Hr r Hcr) as (q' & Hq'). exists q'. by apply refit_new.
  - destruct (t_prev _ _ _ Ht _ _ _ Ha Hcr) as (q' & Hq').
    pose proof (geo_place _ _ Hg _ _ Hq') as (_ & _ & ? & _). simpl in *.
    destruct (decide (a - r = y)) as [Ey|].
    + exists q. rewrite Ey in *. by apply refit_y in Hq'.
    + exists q'. apply refit_old; [|done].
      pose proof (geo_place _ _ Hg _ _ Hcy) as (_ & _ & ? & _).
      destruct (geo_apart _ _ Hg _ _ _ _ Hq' Hcx) as [E0|[?|?]]; simpl in *;
      destruct (geo_apart _ _ Hg _ _ _ _ Hq' Hcy) as [E1|[?|?]]; simpl in *; lia.
Qed.

Lemma refit_tiled : tiled S E C'.
Proof.
  split.
  - apply refit_next.
  - apply refit_prev.
  - intros a Ha. apply refit_old; [by apply HS|by apply Ht].
  - intros a b c Ha Hb HbE Hab. destruct (refit_next b c Hb HbE) as (d & Hd & _).
    apply refit_lookup in Hb as [[? Hb]|[[-> (? & Hb & ->)]|[? Hb]]].
    + destruct (r_in _ _ _ _ _ _ Hr _ _ Hb) as (? & ? & _ & ?). specialize (HS _ Ha). lia.
    + by eapply (t_first _ _ _ Ht a y).
    + by eapply (t_first _ _ _ Ht a b).
  - intros a Ha. destruct (t_end _ _ _ Ht _ Ha) as (q' & Hq').
    destruct (decide (a = y)) as [->|]; [exists q; by apply refit_y in Hq'|].
    exists q'. apply refit_old; [|done]. specialize (HE _ Ha). lia.
  - intros a c Ha.
    destruct (t_in _ _ _ Ht _ _ Hcx) as (i & s & e & Hs & He & ?).
    apply refit_lookup in Ha as [[? Ha]|[[-> (? & Ha & ->)]|[? Ha]]]; [|by eapply (t_in _ _ _ Ht)..].
    exists i, s, e. split_and!; [done..|lia|].
    assert (e ∈ E) as HeE by (by eapply list_elem_of_lookup_2). specialize (HE _ HeE). lia.
  - intros a c [[? Ha]|[[-> (? & Ha & ->)]|[? Ha]]]%refit_lookup.
    + right; right. by destruct (r_in _ _ _ _ _ _ Hr _ _ Ha) as (_ & _ & _ & ?).
    + by apply (t_size _ _ _ Ht) in Ha.
    + by apply (t_size _ _ _ Ht) in Ha.
  - apply (t_split _ _ _ Ht).
  - apply (t_len _ _ _ Ht).
  - apply (t_order _ _ _ Ht).
  - apply (t_dup _ _ _ Ht).
Qed.

Lemma refit_compact : compact C ->
  (forall a c d, N !! a = Some c -> N !! (a + c_size c) = Some d -> c_used c = true \/ c_used d = true) ->
  (q = None \/ c_used cy = true) ->
  (p = None \/ forall c, N !! x = Some c -> c_used c = true) -> compact C'.
Proof.
  intros Hc HN Hq Hpx a c d Ha Hd. destruct (c_used c) eqn:Hu; [by left|right].
  assert (HaE : a ∉ E).
  { intros HaE. destruct (t_end _ _ _ refit_tiled _ HaE) as (? & Ha'). rewrite Ha in Ha'. naive_solver. }
  destruct (refit_next _ _ Ha HaE) as (d' & Hd' & Hpd). assert (d' = d) as -> by congruence.
  rewrite Hu in Hpd. simpl in Hpd. clear Hd'.
  apply refit_lookup in Hd as [[? Hd]|[[Ey (? & Hy & ->)]|[? Hd]]].
  - apply refit_lookup in Ha as [[? Ha]|[[-> (? & Hy & ->)]|[? Ha]]].
    + destruct (HN a c d) as [|]; try done. congruence.
    + simpl in *. pose proof (geo_place _ _ Hg _ _ Hy) as (_ & _ & ? & _). lia.
    + pose proof (geo_place _ _ Hg _ _ Ha) as (_ & _ & ? & _).
      destruct (refit_outside _ _ Ha) as [|]; [done| |lia].
      assert (a + c_size c = x) as Ex by lia. rewrite Ex in Hd.
      destruct (r_first _ _ _ _ _ _ Hr) as (c' & Hc' & Hp').
      destruct Hpx as [Hpx|Hpx]; [congruence|by apply Hpx].
  - simpl in *. destruct Hq as [Hq|Hq]; [congruence|]. congruence.
  - apply refit_lookup in Ha as [[? Ha]|[[-> (? & Hy & ->)]|[? Ha]]].
    + destruct (r_in _ _ _ _ _ _ Hr _ _ Ha) as (? & ? & _ & ?). lia.
    + destruct (Hc _ _ _ Hy Hd) as [Hu'|]; [simpl in Hu; congruence|done].
    + destruct (Hc _ _ _ Ha Hd) as [|]; [congruence|done].
Qed.

(** Memory after the headers of the run were written. *)
Lemma hmem_refit m m' F :
  hmem m H C F -> differ (fun b => x + 4 <= b < y + 8) m m' -> H + 304 <= x \/ y + 8 <= H ->
  (forall a s, F !! a = Some s -> ~ (x <= a < y)) -> (is_Some (F !! y) -> q = None) ->
  (forall a c, N !! a = Some c -> words m' a c) -> words m' y (set_prev q cy) ->
  hmem m' H C' F.
Proof.
  intros (_ & Hw & HF & L & Hfl & Ho) Hd Hh HFx HFy HwN Hwy.
  pose proof (geo_place _ _ Hg _ _ Hcy) as (_ & _ & ? & _).
  assert (HF' : forall a s, F !! a = Some s -> C' !! a = Some (Chunk s false None)).
  { intros a s Has. pose proof (HF _ _ Has) as Ha. apply HFx in Has as ?.
    destruct (decide (a = y)) as [->|]; [|apply refit_old; [lia|done]].
    rewrite (refit_y _ Ha). unfold set_prev. simpl. by rewrite (HFy ltac:(eauto)). }
  assert (Hfar : forall a c b, C !! a = Some c -> ~ (x <= a <= y) -> a <= b < a + c_size c ->
    ~ (x + 4 <= b < y + 8)).
  { intros a c b Ha Hn Hb. destruct (refit_outside _ _ Ha Hn); [lia|].
    destruct (geo_apart _ _ Hg _ _ _ _ Ha Hcy); lia. }
  split_and!; [apply refit_geo| |done|exists L; split; [|done]].
  - intros a c [[? Ha]|[[-> (? & Hy & ->)]|[? Ha]]]%refit_lookup; [by apply HwN| |].
    + by simplify_eq.
    + eapply words_differ; [done| |by apply Hw]. intros b Hb. eapply Hfar; [done..|].
      pose proof (geo_place _ _ Hg _ _ Ha) as (_ & _ & ? & _). lia.
  - destruct Hfl as (Hc & Hs & Hap). destruct Ho as (_ & _ & HhL & HN & Hsz).
    assert (Hlk : forall e b, e ∈ L -> at_ H e + 8 <= b < at_ H e + 16 -> ~ (x + 4 <= b < y + 8)).
    { intros [i|a s] b He Hb; simpl in Hb.
      - apply HhL in He. unfold MM_NNODES in He. lia.
      - apply HN in He. pose proof (HF _ _ He) as Ha. specialize (HFx _ _ He).
        pose proof (geo_place _ _ Hg _ _ Ha) as (_ & _ & _ & _ & _ & Hs16 & _). simpl in Hs16.
        destruct (decide (a = y)) as [->|]; [lia|]. eapply Hfar; [done|lia|simpl; lia]. }
    split_and!; [| |done].
    + eapply chain_differ; [done..|]. intros b (z & Hz & Hb) HP.
      apply list_elem_of_fmap in Hz as (e & -> & He). by eapply Hlk.
    + intros [i|a s] He.
      * rewrite (differ_ld _ _ _ _ Hd); [by apply Hs|]. intros b Hb.
        apply HhL in He. unfold MM_NNODES in He. simpl in Hb. olia.
      * apply HN, HF' in He as Ha.
        assert (words m' a (Chunk s false None)) as (Hsw & _).
        { apply refit_lookup in Ha as [[? Ha]|[[-> (? & Hy & E')]|[? Ha]]]; [by apply HwN| |].
          - rewrite E'. by simplify_eq.
          - eapply words_differ; [done| |by apply Hw]. intros b Hb. eapply Hfar; [done..|].
            pose proof (geo_place _ _ Hg _ _ Ha) as (_ & _ & ? & _). lia. }
        simpl in *. unfold hdr, b2z in Hsw. simpl in Hsw. by rewrite !Z.add_0_r in Hsw.
Qed.
End refit.

(** ** Runs of one and of two chunks *)

Definition new1 (x y : Z) (u : bool) (p : option Z) : chunks := {[ x := Chunk (y - x) u p ]}.

Definition new2 (x z y : Z) (u v : bool) (p : option Z) : chunks :=
  <[x := Chunk (z - x) u p]> {[ z := Chunk (y - z) v (mark u (z - x)) ]}.

(** Room for chunks from [x] to [y]. *)
Definition room (H x y : Z) : Prop :=
  0 < x /\ x mod 8 = 0 /\ y mod 8 = 0 /\ 16 <= y - x /\ y < 2 ^ 32 /\ (H + 304 <= x \/ y <= H).

Lemma mark_Some u s r : mark u s = Some r -> u = false /\ r = s.
Proof. destruct u; simpl; naive_solver. Qed.

Lemma run1 H x y u p : room H x y -> run H x y (new1 x y u p) p (mark u (y - x)).
Proof.
  intros (? & ? & ? & ? & ? & ?). unfold new1. split.
  - intros a c [<- <-]%lookup_singleton_Some. unfold place. simpl. split_and!; try done; try lia; zlia.
  - exists (Chunk (y - x) u p). by rewrite lookup_singleton_eq.
  - intros a c [<- <-]%lookup_singleton_Some. left. simpl. split; [lia|done].
  - intros a c r [<- <-]%lookup_singleton_Some. done.
  - intros r [-> ->]%mark_Some. exists p.
    replace (y - (y - x)) with x by lia. by rewrite lookup_singleton_eq.
  - intros a b c d [<- <-]%lookup_singleton_Some [<- <-]%lookup_singleton_Some. lia.
Qed.

Lemma new2_lookup x z y u v p a c : x <> z -> new2 x z y u v p !! a = Some c <->
  (a = x /\ c = Chunk (z - x) u p) \/ (a = z /\ c = Chunk (y - z) v (mark u (z - x))).
Proof.
  intros Hne. unfold new2. rewrite lookup_insert_Some, lookup_singleton_Some. naive_solver.
Qed.

Lemma run2 H x z y u v p :
  room H x z -> room H z y -> run H x y (new2 x z y u v p) p (mark v (y - z)).
Proof.
  intros (? & ? & ? & ? & ? & ?) (? & ? & ? & ? & ? & ?). assert (Hne : x <> z) by lia.
  pose proof (fun a c => new2_lookup x z y u v p a c Hne) as L. split.
  - intros a c [[-> ->]|[-> ->]]%L; unfold place; simpl; split_and!; try done; try lia; zlia.
  - exists (Chunk (z - x) u p). split; [|done]. apply L; eauto.
  - intros a c [[-> ->]|[-> ->]]%L; simpl.
    + right. exists (Chunk (y - z) v (mark u (z - x))). split; [|done].
      replace (x + (z - x)) with z by lia. apply L; eauto.
    + left. split; [lia|done].
  - intros a c r [[-> ->]|[-> ->]]%L Hr Hax; [done|]. simpl in Hr.
    apply mark_Some in Hr as [-> ->]. exists p. replace (z - (z - x)) with x by lia.
    apply L; eauto.
  - intros r [-> ->]%mark_Some. exists (mark u (z - x)). replace (y - (y - z)) with z by lia.
    apply L; eauto.
  - intros a b c d [[-> ->]|[-> ->]]%L [[-> ->]|[-> ->]]%L; simpl; lia.
Qed.

(** ** Used chunks *)

Definition used (C : chunks) : gmap Z Z :=
  omap (fun c => if c_used c then Some (c_size c) else None) C.

Lemma used_Some C a s : used C !! a = Some s <-> exists q, C !! a = Some (Chunk s true q).
Proof.
  unfold used. rewrite lookup_omap_Some. split.
  - intros ([s' [] q] & [= <-] & ?). by exists q.
  - intros [q Hq]. by exists (Chunk s true q).
Qed.

Lemma refit_used H x y C N p q b s : run H x y N p q -> x < y ->
  used (refit x y N q C) !! b = Some s <->
  (x <= b < y /\ exists r, N !! b = Some (Chunk s true r)) \/ (~ (x <= b < y) /\ used C !! b = Some s).
Proof.
  intros Hr Hxy. rewrite !used_Some. setoid_rewrite refit_lookup; [|done..]. split.
  - intros [r [[? Hb]|[[-> (cy & Hy & E)]|[? Hb]]]]; [left; eauto|right..].
    + destruct cy as [s' u' r']. unfold set_prev in E. simpl in E. simplify_eq.
      split; [lia|eauto].
    + split; [lia|eauto].
  - intros [[? [r Hb]]|[? [r Hb]]]; [exists r; by left|].
    destruct (decide (b = y)) as [->|]; [exists q; right; left|exists r; right; right].
    + split; [done|]. eexists. split; [done|done].
    + split; [lia|done].
Qed.

Lemma pf_mark u s : pf (mark u s) = negb u.
Proof. by destruct u. Qed.

(** [hmem_refit] for a run of one chunk and for a run of two. *)
Section refit12.
Context (m m' : mem) (H x y : Z) (C : chunks) (F : gmap Z Z) (cx cy : chunk) (p : option Z).
Context (Hm : hmem m H C F) (Hx : C !! x = Some cx) (Hp : c_prev cx = p) (Hy : C !! y = Some cy).
Context (Hmap : mapped m x y) (Hd : differ (fun b => x + 4 <= b < y + 8) m m').
Context (HF : forall a s, F !! a = Some s -> ~ (x <= a < y)).

Lemma refit_prec_x r : p = Some r -> ld m' (o_preceding x) = Some r.
Proof.
  intros Hr. rewrite (differ_ld _ _ _ _ Hd) by (intros; olia).
  apply Hm in Hx as (_ & Hx' & _). apply Hx'. congruence.
Qed.

Lemma refit_mapped_y : mapped m' y (y + c_size cy).
Proof. eapply differ_mapped; [done|]. by apply Hm in Hy as (_ & _ & ?). Qed.

Lemma refit_heads z : room H x z -> room H z y \/ z = y -> H + 304 <= x \/ y + 8 <= H.
Proof.
  intros (_ & _ & _ & ? & _ & ?) Hz. destruct Hm as (Hg & _).
  pose proof (geo_place _ _ Hg _ _ Hy) as (_ & _ & ? & _ & _ & _ & ?).
  destruct Hz as [(_ & _ & _ & ? & _ & ?)|Hz]; lia.
Qed.

Lemma hmem_refit1 u :
  room H x y -> (is_Some (F !! y) -> u = true) ->
  ld m' (o_size x) = Some (hdr (y - x) u (pf p)) ->
  ld m' (o_size y) = Some (hdr (c_size cy) (c_used cy) (negb u)) ->
  (u = false -> ld m' (o_preceding y) = Some (y - x)) ->
  hmem m' H (refit x y (new1 x y u p) (mark u (y - x)) C) F.
Proof.
  intros Hr HFy Wx Wy Wp. pose proof Hr as (_ & _ & _ & ? & _).
  eapply (hmem_refit H x y C (new1 x y u p) p); try done; [by apply run1|lia|by apply Hm|..].
  - eapply refit_heads; [done|by right].
  - intros Hs. by rewrite (HFy Hs).
  - unfold new1. intros a c [<- <-]%lookup_singleton_Some.
    split_and!; simpl; [done|apply refit_prec_x|].
    replace (x + (y - x)) with y by lia. by eapply differ_mapped.
  - split_and!; simpl; [by rewrite pf_mark| |apply refit_mapped_y].
    intros r [-> ->]%mark_Some. auto.
Qed.

Lemma hmem_refit2 z u v :
  room H x z -> room H z y -> (is_Some (F !! y) -> v = true) ->
  ld m' (o_size x) = Some (hdr (z - x) u (pf p)) ->
  ld m' (o_size z) = Some (hdr (y - z) v (negb u)) ->
  (u = false -> ld m' (o_preceding z) = Some (z - x)) ->
  ld m' (o_size y) = Some (hdr (c_size cy) (c_used cy) (negb v)) ->
  (v = false -> ld m' (o_preceding y) = Some (y - z)) ->
  hmem m' H (refit x y (new2 x z y u v p) (mark v (y - z)) C) F.
Proof.
  intros Hr1 Hr2 HFy Wx Wz Wpz Wy Wpy.
  pose proof Hr1 as (_ & _ & _ & ? & _). pose proof Hr2 as (_ & _ & _ & ? & _).
  eapply (hmem_refit H x y C (new2 x z y u v p) p); try done; [by apply run2|lia|by apply Hm|..].
  - eapply refit_heads; [done|by left].
  - intros Hs. by rewrite (HFy Hs).
  - intros a c Ha. apply new2_lookup in Ha as [[-> ->]|[-> ->]]; [..|lia];
      split_and!; simpl; try done.
    + apply refit_prec_x.
    + eapply mapped_sub; [by eapply differ_mapped|lia..].
    + by rewrite pf_mark.
    + intros r [-> ->]%mark_Some. auto.
    + eapply mapped_sub; [by eapply differ_mapped|lia..].
  - split_and!; simpl; [by rewrite pf_mark| |apply refit_mapped_y].
    intros r [-> ->]%mark_Some. auto.
Qed.
End refit12.
