(* ===== verification/HeapOps.v ===== *)
(** * The operations of the heap

    Each operation replaces a run of chunks, keeps the invariant, and writes only
    inside that run and the links of free nodes ([touch]); so the bytes of every
    other block stay. *)

From S2P Require Import Prelude.
From stdpp Require Import gmap sorting.
From S2P Require Import Heap HeapList HeapInv.
Local Open Scope Z_scope.

(** ** The invariant *)

(** All free chunks are in the list. *)
Definition listed (C : chunks) (F : gmap Z Z) : Prop :=
  forall b c, C !! b = Some c -> c_used c = false -> F !! b = Some (c_size c).

Record heap_ok (m : mem) (h : mm_heap_s) (C : chunks) : Prop := {
  ok_list : exists F, hmem m (mm_nodelist h) C F /\ listed C F;
  ok_tiled : tiled (mm_heapstart h) (mm_heapend h) C;
  ok_compact : compact C;
}.

(** What an operation on the run from [x] to [y] may write. *)
Definition touch (H : Z) (C : chunks) (x y b : Z) : Prop :=
  H <= b < H + 304 \/ (exists f c, C !! f = Some c /\ c_used c = false /\ f + 8 <= b < f + 16) \/
  x + 4 <= b < y + 8.

Lemma lzone_touch H C F x y b :
  (forall a s, F !! a = Some s -> C !! a = Some (Chunk s false None)) -> lzone H F b -> touch H C x y b.
Proof.
  intros HF [?|(a & s & Ha & ?)]; [by left|]. right; left. exists a, (Chunk s false None). auto.
Qed.

(** The bytes of a used chunk outside the run are not touched. *)
Lemma touch_payload H S E C x y a c b :
  geo H C -> tiled S E C -> C !! a = Some c -> c_used c = true -> a ∉ E ->
  (exists cx, C !! x = Some cx) -> (exists cy, C !! y = Some cy) -> x < y -> ~ (x <= a < y) ->
  a + 8 <= b < a + c_size c + 4 -> ~ touch H C x y b.
Proof.
  intros Hg Ht Ha Hu HaE [cx Hx] [cy Hy] Hlt Hxy Hb.
  destruct (t_next _ _ _ Ht _ _ Ha HaE) as (d & Hd & _).
  pose proof (geo_place _ _ Hg _ _ Ha) as (_ & _ & ? & _ & _ & _ & ?).
  pose proof (geo_place _ _ Hg _ _ Hd) as (_ & _ & ? & _ & _ & _ & ?).
  pose proof (geo_place _ _ Hg _ _ Hx) as (_ & _ & ? & _).
  pose proof (geo_place _ _ Hg _ _ Hy) as (_ & _ & ? & _).
  intros [?|[(f & cf & Hf & Hfu & ?)|?]]; [lia| |].
  - pose proof (geo_place _ _ Hg _ _ Hf) as (_ & _ & _ & _ & _ & Hf16 & _). specialize (Hf16 Hfu).
    destruct (geo_apart _ _ Hg _ _ _ _ Ha Hf) as [->|[?|?]]; [congruence| |lia].
    destruct (geo_apart _ _ Hg _ _ _ _ Hd Hf) as [?|[?|?]]; lia.
  - destruct (geo_apart _ _ Hg _ _ _ _ Ha Hx) as [->|[?|?]];
      destruct (geo_apart _ _ Hg _ _ _ _ Ha Hy) as [E0|[?|?]]; lia.
Qed.

(** ** Small steps *)

Ltac ldw := repeat first [rewrite ld_wr_eq | rewrite ld_wr_ne by olia].

Lemma geo_retag H C a c c' :
  geo H C -> C !! a = Some c -> c_size c' = c_size c -> (c_used c' = false -> 16 <= c_size c') ->
  geo H (<[a := c']> C).
Proof.
  intros (H1 & H2 & H3 & H4) Ha Hs Hu. split_and!; [done..| |].
  - intros b d [[<- <-]|[? ?]]%lookup_insert_Some; [|auto].
    destruct (H3 _ _ Ha) as (? & ? & ? & ? & ? & _ & ?). unfold place. rewrite Hs in *. auto 10.
  - intros b1 b2 d1 d2 [[<- <-]|[? ?]]%lookup_insert_Some [[<- <-]|[? ?]]%lookup_insert_Some ?;
      rewrite ?Hs; [lia|eauto..].
Qed.

(** A chunk changes its flag. *)
Lemma hmem_retag m H C F a s u0 u p :
  hmem m H C F -> C !! a = Some (Chunk s u0 p) -> F !! a = None -> (u = false -> 16 <= s) ->
  let m' := wr m (o_size a) (hdr s u (pf p)) in
  st m (o_size a) (hdr s u (pf p)) = Some m' /\
  hmem m' H (<[a := Chunk s u p]> C) F /\ differ (fun b => a + 4 <= b < a + 8) m m'.
Proof.
  intros (Hg & Hw & HF & L & Hfl & Ho) Ha HaF Hu m'.
  pose proof (geo_place _ _ Hg _ _ Ha) as (? & ? & Hs8 & ? & ? & ? & ?). simpl in *.
  destruct (Hw _ _ Ha) as (Hs & Hp & Hm). simpl in *.
  assert (Hst : mapped m (o_size a) (o_size a + 4)) by (eapply mapped_sub; [done|olia..]).
  assert (Hd : differ (fun b => a + 4 <= b < a + 8) m m')
    by (apply differ_wr; [apply differ_refl|done|intros; olia]).
  assert (HF' : forall b t, F !! b = Some t -> <[a := Chunk s u p]> C !! b = Some (Chunk t false None)).
  { intros b t Hb. rewrite lookup_insert_ne; [auto|congruence]. }
  assert (Hlz : forall b, lzone H F b -> ~ (a + 4 <= b < a + 8)).
  { intros b Hb Hab. exact (lzone_header H C F a _ b Hg HF Ha ltac:(lia) Hb). }
  split_and!; [by apply st_ok| |done]. split_and!; [by eapply geo_retag| |done|exists L; split; [|done]].
  - intros b c [[<- <-]|[Hne Hb]]%lookup_insert_Some.
    + split_and!; simpl.
      * unfold m'. rewrite ld_wr_eq, hdr_u32; [done|zlia|lia].
      * intros r Hr. unfold m'. rewrite ld_wr_ne by olia. auto.
      * by eapply differ_mapped.
    + eapply words_differ; [done| |by apply Hw]. intros i Hi.
      pose proof (geo_place _ _ Hg _ _ Hb) as (_ & _ & ? & _).
      destruct (geo_apart _ _ Hg _ _ _ _ Ha Hb) as [?|[?|?]]; simpl in *; lia || done.
  - destruct Hfl as (Hc & Hsz & Hap). split_and!; [| |done].
    + eapply chain_differ; [done..|]. intros b Hb. apply Hlz. by eapply links_lzone.
    + intros e He. rewrite (differ_ld _ _ _ _ Hd); [by apply Hsz|]. intros b Hb.
      destruct Ho as (_ & _ & Hh & HN & _). destruct e as [i|f t]; simpl in *.
      * apply Hh in He. unfold MM_NNODES in He. olia.
      * apply HN in He. assert (f <> a) by congruence. apply HF in He.
        pose proof (geo_place _ _ Hg _ _ He) as (_ & _ & ? & _).
        destruct (geo_apart _ _ Hg _ _ _ _ Ha He) as [?|[?|?]]; simpl in *; olia.
Qed.

(** Chunks inside a run do not matter for its replacement. *)
Lemma refit_ext x y N q C C1 :
  (forall a, ~ (x <= a < y) -> C1 !! a = C !! a) -> refit x y N q C1 = refit x y N q C.
Proof.
  intros HC. unfold refit, cut. do 2 f_equal.
  apply map_eq. intros a. apply option_eq. intros c. rewrite !map_lookup_filter_Some. simpl.
  split; (intros [Ha ?]; split; [|done]); rewrite HC in * by done; done.
Qed.

(** ** Reading chunks *)

Section read.
Context (m : mem) (H : Z) (C : chunks) (F : gmap Z Z) (Hm : hmem m H C F).

Lemma hmem_geo : geo H C.
Proof. by apply Hm. Qed.

Lemma hmem_place a c : C !! a = Some c -> place H a c.
Proof. apply geo_place, Hm. Qed.

Lemma hmem_words a c : C !! a = Some c -> words m a c.
Proof. by apply Hm. Qed.

Lemma hmem_size a c : C !! a = Some c ->
  ld m (o_size a) = Some (hdr (c_size c) (c_used c) (pf (c_prev c))) /\ c_size c mod 4 = 0.
Proof.
  intros Ha. destruct (hmem_words a c Ha) as (? & _). split; [done|].
  destruct (hmem_place a c Ha) as (_ & _ & _ & ? & _). zlia.
Qed.

Lemma hmem_prec a c p : C !! a = Some c -> c_prev c = Some p -> ld m (o_preceding a) = Some p.
Proof. intros Ha. by destruct (hmem_words a c Ha) as (_ & ? & _); auto. Qed.

Lemma hmem_free a s : F !! a = Some s -> C !! a = Some (Chunk s false None).
Proof. apply Hm. Qed.

Lemma hmem_used_None a c : C !! a = Some c -> c_used c = true -> F !! a = None.
Proof.
  intros Ha Hu. destruct (F !! a) as [s|] eqn:E; [|done]. apply hmem_free in E. by simplify_eq.
Qed.

(** Stores into the header of a chunk. *)
Lemma hmem_mapped_hdr a c : C !! a = Some c -> mapped m a (a + 8).
Proof.
  intros Ha. destruct (hmem_words a c Ha) as (_ & _ & Hmp).
  destruct (hmem_place a c Ha) as (_ & _ & ? & _). eapply mapped_sub; [done|lia..].
Qed.

Lemma hmem_map_size a c : C !! a = Some c -> mapped m (o_size a) (o_size a + 4).
Proof. intros Ha. eapply mapped_sub; [by eapply hmem_mapped_hdr|olia..]. Qed.

Lemma hmem_map_prec a c : C !! a = Some c -> mapped m (o_preceding a) (o_preceding a + 4).
Proof. intros Ha. eapply mapped_sub; [by eapply hmem_mapped_hdr|olia..]. Qed.

Lemma hmem_st_size a c v : C !! a = Some c -> st m (o_size a) v = Some (wr m (o_size a) v).
Proof. intros Ha. by eapply st_ok, hmem_map_size. Qed.

Lemma hmem_st_prec a c v : C !! a = Some c -> st m (o_preceding a) v = Some (wr m (o_preceding a) v).
Proof. intros Ha. by eapply st_ok, hmem_map_prec. Qed.
End read.

(** Every free chunk has a used one before it. *)
Lemma free_prev_None S E C a c : tiled S E C -> compact C -> C !! a = Some c -> c_used c = false ->
c_prev c = None.
Proof.
  intros Ht Hc Ha Hu. destruct (c_prev c) as [p|] eqn:Ep; [|done].
  destruct (t_prev _ _ _ Ht _ _ _ Ha Ep) as (q & Hq).
  destruct (Hc _ _ c Hq) as [|]; simpl in *; [|done|congruence]. by replace (a - p + p) with a by lia.
Qed.

Lemma hdr_used s u p : s mod 4 = 0 ->
  MM_SIZEOF_NODE (hdr s u p) = s /\ MM_NODE_IS_ALLOC (hdr s u p) = u /\
  MM_NODE_IS_FREE (hdr s u p) = negb u /\ MM_PREVNODE_IS_ALLOC (hdr s u p) = negb p /\
  MM_PREVNODE_IS_FREE (hdr s u p) = p.
Proof.
  intros. split_and!; [by apply sizeof_hdr|by apply is_alloc_hdr|by apply is_free_hdr
    |by apply prev_is_alloc_hdr|by apply prev_is_free_hdr].
Qed.

(** A chunk that is not a guard. *)
Lemma inner_chunk S E C a c : tiled S E C -> C !! a = Some c -> (c_used c = true -> 16 <= c_size c) ->
  (a ∉ S) /\ (a ∉ E).
Proof.
  intros Ht Ha Hs. split; intros Hin.
  - rewrite (t_start _ _ _ Ht _ Hin) in Ha. simplify_eq. simpl in Hs. specialize (Hs eq_refl). lia.
  - destruct (t_end _ _ _ Ht _ Hin) as (q & Hq). simplify_eq. simpl in Hs. specialize (Hs eq_refl). lia.
Qed.

(** No chunk starts inside another one. *)
Lemma geo_inside H C a b c d :
  geo H C -> C !! a = Some c -> C !! b = Some d -> a <= b < a + c_size c -> b = a.
Proof.
  intros Hg Ha Hb Hin. pose proof (geo_place _ _ Hg _ _ Hb) as (_ & _ & ? & _).
  destruct (geo_apart _ _ Hg _ _ _ _ Ha Hb) as [?|[?|?]]; lia.
Qed.

(** The difference after stores in the header of a chunk. *)
Ltac map_hdr := repeat apply wr_mapped;
  first [eapply hmem_map_size; eassumption | eapply hmem_map_prec; eassumption].

Ltac dwr := repeat first [apply differ_refl | apply differ_wr; [ |map_hdr|intros; olia]].

(** ** Freeing *)

Lemma mapped_join m x z y : mapped m x z -> mapped m z y -> mapped m x y.
Proof. intros H1 H2 b Hb. destruct (decide (b < z)); [apply H1|apply H2]; lia. Qed.

Section merge_next.
Context (m : mem) (H : Z) (S E : list Z) (C : chunks) (F : gmap Z Z) (a s : Z) (p : option Z).
Context (Hm : hmem m H C F) (Hl : listed C F) (Ht : tiled S E C) (Hc : compact C).
Context (Ha : C !! a = Some (Chunk s true p)) (Hs : 16 <= s).

Abbreviation C1 := (<[a := Chunk s false p]> C).
Abbreviation m1 := (wr m (o_size a) (hdr s false (pf p))).

Definition merged_next (y : Z) (cy : chunk) (m' : mem) : Prop :=
  merge_next m1 a s = Some (y - a, y, m') /\ a + s <= y /\ C !! y = Some cy /\ c_used cy = true /\
  (y = a + s \/ C !! (a + s) = Some (Chunk (y - (a + s)) false None)) /\
  room H a y /\ hmem m' H (refit a y (new1 a y false p) (Some (y - a)) C) (delete (a + s) F) /\
  differ (touch H C a y) m m'.

(** The chunk with its flag changed, and the next one. *)
Lemma merge_next_facts d : C !! (a + s) = Some d ->
  hmem m1 H C1 F /\ differ (fun b => a + 4 <= b < a + 8) m m1 /\ C1 !! (a + s) = Some d /\
  C1 !! a = Some (Chunk s false p) /\ ld m1 (o_size (a + s)) = Some (hdr (c_size d) (c_used d) false) /\
  c_size d mod 4 = 0 /\ c_prev d = None /\ room H a (a + s) /\ 8 <= c_size d < 2 ^ 32 - (a + s).
Proof.
  intros Hd. destruct (hmem_retag m H C F a s true false p Hm Ha) as (_ & Hm1 & Hd1);
    [by eapply hmem_used_None|done|].
  destruct (inner_chunk _ _ _ _ _ Ht Ha ltac:(done)) as [HaS HaE].
  destruct (t_next _ _ _ Ht _ _ Ha HaE) as (d' & Hd' & Hpd). simpl in Hd', Hpd.
  assert (d' = d) as -> by congruence.
  pose proof (hmem_place _ _ _ _ Hm _ _ Ha) as (? & ? & _ & ? & ? & _ & ?). simpl in *.
  pose proof (hmem_place _ _ _ _ Hm _ _ Hd) as (? & ? & ? & ? & ? & _ & ?). simpl in *.
  assert (Hd1' : C1 !! (a + s) = Some d) by (rewrite lookup_insert_ne by lia; done).
  destruct (hmem_size _ _ _ _ Hm1 _ _ Hd1') as [Ew Emod]. rewrite Hpd in Ew.
  split_and!; try done; [apply lookup_insert_eq|unfold room; split_and!; lia || zlia|lia].
Qed.

Lemma merge_next_used d : C !! (a + s) = Some d -> c_used d = true -> exists m', merged_next (a + s) d m'.
Proof.
  intros Hd Hu. destruct (merge_next_facts d Hd) as (Hm1 & Hd1 & Hd' & Ha1 & Ew & Emod & Hpd & Hroom & ?).
  pose proof Hroom as (? & ? & ? & ? & ? & ?). unfold merged_next, merge_next. rewrite Ew. bnd.
  destruct (hdr_used (c_size d) (c_used d) false Emod) as (_ & _ & -> & -> & _). rewrite Hu.
  cbn [dassert negb]. bnd.
  assert (Hma : mapped m1 a (a + s)).
  { apply wr_mapped. by destruct (hmem_words _ _ _ _ Hm _ _ Ha) as (_ & _ & ?). }
  rewrite (hmem_st_size _ _ _ _ Hm1 _ d) by done. bnd.
  rewrite (set_prevfree_hdr (c_size d) true false) by done.
  set (m2 := wr m1 (o_size (a + s)) _). rewrite st_ok by map_hdr. bnd.
  assert (Hda : differ (fun b => a + 4 <= b < a + s + 8) m1 (wr m2 (o_preceding (a + s)) s)) by dwr.
  eexists. split_and!; [by replace (a + s - a) with s by lia|lia|done..|by left|done| |].
  - rewrite delete_id by (by eapply hmem_used_None).
    rewrite <- (refit_ext a (a + s) _ _ C C1) by (intros b ?; rewrite lookup_insert_ne by lia; done).
    change (Some (a + s - a)) with (mark false (a + s - a)).
    eapply (hmem_refit1 m1); try done.
    + intros f t Hf Hin. apply (hmem_free _ _ _ _ Hm) in Hf.
      pose proof (geo_inside _ _ _ _ _ _ (hmem_geo _ _ _ _ Hm) Ha Hf Hin). by simplify_eq.
    + rewrite (hmem_used_None _ _ _ _ Hm _ _ Hd) by done. by intros [??].
    + unfold m2. ldw. replace (a + s - a) with s by lia. rewrite hdr_u32 by (zlia || lia). done.
    + unfold m2. ldw. rewrite hdr_u32, Hu by (done || lia). done.
    + intros _. ldw. f_equal. replace (a + s - a) with s by lia. apply u32_small. lia.
  - eapply differ_trans; [exact Hd1|exact Hda|intros b Hb; right; right; simpl in Hb; lia..].
Qed.

(** Memory after the headers around the joined chunk were written. *)
Lemma merge_next_joined sd cy m2 :
  C !! (a + s) = Some (Chunk sd false None) -> C !! (a + s + sd) = Some cy -> c_used cy = true ->
  c_prev cy = Some sd -> hmem m2 H C1 (delete (a + s) F) ->
  let m4 := wr (wr m2 (o_size a) (hdr (s + sd) false (pf p))) (o_preceding (a + s + sd)) (s + sd) in
  differ (fun b => a + 4 <= b < a + s + sd + 8) m2 m4 ->
  hmem m4 H (refit a (a + s + sd) (new1 a (a + s + sd) false p) (Some (a + s + sd - a)) C) (delete (a + s) F).
Proof.
  intros Hd Hy Huy Hpy Hm2 m4 Hda.
  destruct (merge_next_facts _ Hd) as (_ & _ & Hd' & Ha1 & _ & _ & _ & Hroom & ?). simpl in *.
  pose proof Hroom as (? & ? & ? & ? & ? & ?). pose proof (hmem_geo _ _ _ _ Hm) as Hg.
  pose proof (hmem_place _ _ _ _ Hm _ _ Hd) as (_ & _ & ? & ? & _ & _ & ?). simpl in *.
  pose proof (hmem_place _ _ _ _ Hm _ _ Hy) as (_ & ? & ? & ? & ? & _ & ?).
  assert (Hy1 : C1 !! (a + s + sd) = Some cy) by (rewrite lookup_insert_ne by lia; done).
  rewrite <- (refit_ext a (a + s + sd) _ _ C C1) by (intros b ?; rewrite lookup_insert_ne by lia; done).
  change (Some (a + s + sd - a)) with (mark false (a + s + sd - a)).
  eapply (hmem_refit1 m2); try done.
  - destruct (hmem_words _ _ _ _ Hm2 _ _ Ha1) as (_ & _ & M1).
    destruct (hmem_words _ _ _ _ Hm2 _ _ Hd') as (_ & _ & M2).
    by eapply mapped_join.
  - intros f t [Hfn Hf]%lookup_delete_Some Hin. apply (hmem_free _ _ _ _ Hm) in Hf.
    destruct (decide (f < a + s)).
    + assert (f = a) as -> by (eapply (geo_inside H C a); [done..|simpl; lia]). by simplify_eq.
    + destruct Hfn. symmetry. eapply (geo_inside H C (a + s)); [done..|simpl; lia].
  - unfold room. split_and!; lia || zlia.
  - rewrite lookup_delete_ne, (hmem_used_None _ _ _ _ Hm _ _ Hy) by (done || lia). by intros [??].
  - unfold m4. ldw. replace (a + s + sd - a) with (s + sd) by lia. by rewrite hdr_u32 by (zlia || lia).
  - unfold m4. ldw. destruct (hmem_size _ _ _ _ Hm2 _ _ Hy1) as [-> _]. by rewrite Hpy.
  - intros _. unfold m4. ldw. f_equal. rewrite u32_small; lia.
Qed.

Lemma merge_next_free sd : C !! (a + s) = Some (Chunk sd false None) ->
  exists cy m', merged_next (a + s + sd) cy m'.
Proof.
  intros Hd. destruct (merge_next_facts _ Hd) as (Hm1 & Hd1 & Hd' & Ha1 & Ew & Emod & _ & Hroom & ?).
  simpl in *.
  pose proof Hroom as (? & ? & ? & ? & ? & ?).
  destruct (inner_chunk _ _ _ _ _ Ht Hd ltac:(done)) as [HnS HnE].
  destruct (t_next _ _ _ Ht _ _ Hd HnE) as (cy & Hy & Hpy). simpl in Hy, Hpy.
  destruct (Hc _ _ _ Hd Hy) as [|Huy]; [done|].
  pose proof (hmem_place _ _ _ _ Hm _ _ Hd) as (_ & _ & ? & ? & _ & _ & ?). simpl in *.
  pose proof (hmem_place _ _ _ _ Hm _ _ Hy) as (_ & ? & ? & ? & ? & _ & ?).
  assert (Hy1 : C1 !! (a + s + sd) = Some cy) by (rewrite lookup_insert_ne by lia; done).
  destruct (hmem_size _ _ _ _ Hm1 _ _ Hy1) as [Ey Eymod]. rewrite Hpy in Ey. cbn [pf mark] in Ey.
  assert (HFn : F !! (a + s) = Some sd) by (by apply (Hl _ _ Hd)).
  destruct (hmem_unlink _ _ _ _ _ _ Hm1 HFn) as (m2 & E2 & Hm2 & Hd2).
  destruct (hmem_size _ _ _ _ Hm2 a _ Ha1) as [Ea2 Ea4]. simpl in Ea2, Ea4.
  unfold merged_next, merge_next. rewrite Ew. bnd.
  destruct (hdr_used sd false false Emod) as (-> & _ & -> & -> & _). cbn [dassert negb]. bnd. rewrite Ey. bnd.
  rewrite (hmem_prec _ _ _ _ Hm1 _ _ sd Hy1) by done. bnd.
  destruct (hdr_used (c_size cy) (c_used cy) true Eymod) as (_ & _ & _ & _ & ->).
  rewrite Z.eqb_refl. cbn [dassert andb]. bnd. rewrite E2. bnd. rewrite Ea2. bnd.
  rewrite (u32_small (s + sd)), mask_hdr, set_size_hdr by (zlia || lia).
  rewrite (hmem_st_size _ _ _ _ Hm2 a _ _ Ha1). bnd. set (m3 := wr m2 (o_size a) _).
  rewrite st_ok by map_hdr. bnd. exists cy, (wr m3 (o_preceding (a + s + sd)) (s + sd)).
  assert (Hda : differ (fun b => a + 4 <= b < a + s + sd + 8) m2 (wr m3 (o_preceding (a + s + sd)) (s + sd))) by dwr.
  split_and!; [by replace (a + s + sd - a) with (s + sd) by lia|lia|done..| | | |].
  - right. by replace (a + s + sd - (a + s)) with sd by lia.
  - unfold room. split_and!; lia || zlia.
  - unfold m3 in Hda |- *. by apply (merge_next_joined sd cy).
  - apply (differ_trans _ (touch H C a (a + s + sd))) with (1 := Hd1);
      [|intros b Hb; right; right; simpl in Hb; lia|done].
    eapply differ_trans; [exact Hd2|exact Hda| |].
    + intros b Hb. eapply lzone_touch; [apply Hm|exact Hb].
    + intros b Hb. right; right. simpl in Hb. lia.
Qed.

Lemma merge_next_spec : exists y cy m', merged_next y cy m'.
Proof.
  destruct (inner_chunk _ _ _ _ _ Ht Ha ltac:(done)) as [HaS HaE].
  destruct (t_next _ _ _ Ht _ _ Ha HaE) as ([sd [] pd] & Hd & Hpd); simpl in *.
  - destruct (merge_next_used _ Hd eq_refl) as [m' ?]. eauto.
  - rewrite Hpd in Hd. destruct (merge_next_free _ Hd) as (cy & m' & ?). eauto.
Qed.
End merge_next.

(** Bytes of two chunks in a row. *)

Section merge_prev.
Context (m : mem) (H : Z) (S E : list Z) (C : chunks) (F : gmap Z Z) (a s : Z) (p : option Z).
Context (Hm : hmem m H C F) (Ht : tiled S E C) (Ha : C !! a = Some (Chunk s false p)).
Context (Hl : forall b c, C !! b = Some c -> c_used c = false -> b <> a -> F !! b = Some (c_size c)).
Context (cy : chunk) (Hy : C !! (a + s) = Some cy) (Hu : c_used cy = true) (Hpy : c_prev cy = Some s).
Context (HaF : F !! a = None).

Lemma merge_prev_spec : exists x m', merge_prev m a s (a + s) = Some (x, m') /\
  ((p = None /\ x = a /\ m' = m) \/
   (p = Some (a - x) /\ x < a /\ C !! x = Some (Chunk (a - x) false None) /\ room H x (a + s) /\
    hmem m' H (refit x (a + s) (new1 x (a + s) false None) (Some (a + s - x)) C) (delete x F) /\
    differ (touch H C x (a + s)) m m')).
Proof.
  pose proof (hmem_place _ _ _ _ Hm _ _ Ha) as (? & ? & _ & ? & ? & Hs & ?). simpl in *.
  specialize (Hs eq_refl).
  destruct (hmem_size _ _ _ _ Hm _ _ Ha) as [Ea Ea4]. simpl in Ea, Ea4.
  unfold merge_prev. rewrite Ea. bnd.
  destruct (hdr_used s false (pf p) Ea4) as (_ & _ & _ & _ & ->).
  destruct p as [r|]; cbn [pf]; [|exists a, m; split; [done|by left]].
  rewrite (hmem_prec _ _ _ _ Hm _ _ r Ha) by done. bnd.
  destruct (t_prev _ _ _ Ht _ _ r Ha) as (q & Hx); [done|]. set (x := a - r) in *.
  pose proof (hmem_place _ _ _ _ Hm _ _ Hx) as (? & ? & _ & ? & ? & Hr & ?). simpl in *.
  specialize (Hr eq_refl).
  assert (HxF : F !! x = Some r) by (apply (Hl _ _ Hx); [done|lia]).
  assert (q = None) as -> by (apply (hmem_free _ _ _ _ Hm) in HxF; by simplify_eq).
  destruct (hmem_size _ _ _ _ Hm _ _ Hx) as [Ex Ex4]. simpl in Ex, Ex4. rewrite Ex. bnd.
  destruct (hdr_used r false false Ex4) as (-> & _ & -> & _ & _).
  rewrite Z.eqb_refl. cbn [dassert andb negb]. bnd.
  destruct (hmem_unlink _ _ _ _ _ _ Hm HxF) as (m2 & E2 & Hm2 & Hd2). rewrite E2. bnd.
  destruct (hmem_size _ _ _ _ Hm2 _ _ Hx) as [Ex2 _]. simpl in Ex2. rewrite Ex2. bnd.
  rewrite (u32_small (r + s)), mask_hdr, set_size_hdr by (zlia || lia).
  rewrite (hmem_st_size _ _ _ _ Hm2 _ _ _ Hx). bnd. set (m3 := wr m2 (o_size x) _).
  rewrite st_ok by map_hdr. bnd.
  exists x, (wr m3 (o_preceding (a + s)) (r + s)). split; [done|]. right.
  assert (Hda : differ (fun b => x + 4 <= b < a + s + 8) m2 (wr m3 (o_preceding (a + s)) (r + s))) by dwr.
  pose proof (hmem_place _ _ _ _ Hm _ _ Hy) as (_ & ? & ? & ? & ? & _ & ?).
  assert (Hroom : room H x (a + s)) by (split_and!; lia || zlia).
  replace (a - x) with r by lia. split_and!; [done|lia|done|done| |].
  - change (Some (a + s - x)) with (mark false (a + s - x)).
    eapply (hmem_refit1 m2); try done.
    + apply (mapped_join _ _ a).
      * destruct (hmem_words _ _ _ _ Hm2 _ _ Hx) as (_ & _ & Hmp). simpl in Hmp.
        by replace a with (x + r) by lia.
      * by destruct (hmem_words _ _ _ _ Hm2 _ _ Ha) as (_ & _ & ?).
    + intros f t [Hfn Hf]%lookup_delete_Some Hin. pose proof (hmem_free _ _ _ _ Hm _ _ Hf) as Hfc.
      destruct (decide (f < a)).
      * assert (f = x) by (eapply (geo_inside H C x); [by eapply hmem_geo|done..|simpl; lia]). done.
      * assert (f = a) by (eapply (geo_inside H C a); [by eapply hmem_geo|done..|simpl; lia]). congruence.
    + rewrite lookup_delete_ne, (hmem_used_None _ _ _ _ Hm _ _ Hy) by (done || lia). by intros [??].
    + unfold m3. ldw. replace (a + s - x) with (r + s) by lia. by rewrite hdr_u32 by (zlia || lia).
    + unfold m3. ldw. destruct (hmem_size _ _ _ _ Hm2 _ _ Hy) as [-> _]. by rewrite Hpy.
    + intros _. ldw. f_equal. rewrite u32_small; lia.
  - apply (differ_trans _ _ _ _ _ _ Hd2 Hda).
    + intros b Hb. eapply lzone_touch; [apply Hm|exact Hb].
    + intros b Hb. right; right. simpl in Hb. lia.
Qed.
End merge_prev.

(** ** Putting the steps together *)

(** A run inside another one does not matter. *)
Lemma refit_refit H x x1 y N p q N1 p1 q1 C :
  run H x y N p q -> run H x1 y N1 p1 q1 -> x1 < y -> x <= x1 ->
  refit x y N q (refit x1 y N1 q1 C) = refit x y N q C.
Proof.
  intros Hr Hr1 Hlt Hle. apply map_eq. intros a. apply option_eq. intros c.
  rewrite !(refit_lookup H x y _ N p q) by (done || lia).
  setoid_rewrite (refit_lookup H x1 y C N1 p1 q1); [|done..].
  split; (intros [?|[[-> (cy & Hy & ->)]|[? Ha]]]; [by left|right; left|right; right]).
  - split; [done|]. destruct Hy as [[? _]|[[_ (cy' & Hy & ->)]|[? _]]]; [lia| |lia]. by exists cy'.
  - split; [done|]. destruct Ha as [[? _]|[[? _]|[_ ?]]]; [lia|lia|done].
  - split; [done|]. exists (set_prev q1 cy). split; [|done]. right; left. eauto.
  - split; [done|]. right; right. split; [lia|done].
Qed.

(** The bytes that are touched, seen from an earlier state. *)
Lemma touch_sub H C C2 x1 x y b :
  (forall f c, C2 !! f = Some c -> c_used c = false ->
     (x <= f /\ f + 16 <= y) \/ exists c', C !! f = Some c' /\ c_used c' = false) ->
  x <= x1 -> touch H C2 x1 y b -> touch H C x y b.
Proof.
  intros Hf Hx [?|[(f & c & Hfc & Hu & ?)|?]]; [by left| |right; right; lia].
  destruct (Hf _ _ Hfc Hu) as [?|(c' & ? & ?)]; [right; right; lia|right; left; eauto].
Qed.

(** Blocks other than [a] keep their bytes. *)
Definition keeps (m m' : mem) (C : chunks) (E : list Z) (a : Z) : Prop :=
  dom m' = dom m /\ forall b c i, C !! b = Some c -> c_used c = true -> b <> a -> b ∉ E ->
    b + 8 <= i < b + c_size c + 4 -> m' !! i = m !! i.

Lemma differ_keeps m m' H S E C x y a :
  geo H C -> tiled S E C -> (exists cx, C !! x = Some cx) -> (exists cy, C !! y = Some cy) -> x < y ->
  (forall b c, C !! b = Some c -> c_used c = true -> x <= b < y -> b = a) ->
  differ (touch H C x y) m m' -> keeps m m' C E a.
Proof.
  intros Hg Ht Hx Hy Hlt Hin [Hd Hb]. split; [done|]. intros b c i Hbc Hu Hne HbE Hi.
  apply Hb. eapply touch_payload; try done. intros Hr. by destruct Hne; eapply Hin.
Qed.

(** The node that a free operation puts into the list. *)
Lemma hmem_add_new m H C F heap x y s :
  mm_nodelist heap = H -> hmem m H C F -> C !! x = Some (Chunk s false None) -> F !! x = None ->
  x + s <= y -> (forall f c, C !! f = Some c -> c_used c = false -> f <> x -> F !! f = Some (c_size c)) ->
  exists m' F', mm_addfreechunk m heap x = Some m' /\ hmem m' H C F' /\ listed C F' /\
    differ (touch H C x y) m m'.
Proof.
  intros HH Hm Hx HF Hy Hl.
  destruct (hmem_addfree m H C F heap x s HH Hm Hx HF) as (m' & E & Hm' & Hd).
  exists m', (<[x := s]> F). split_and!; [done..| |].
  - intros b c Hb Hu. destruct (decide (b = x)) as [->|]; [simplify_eq; by rewrite lookup_insert_eq|].
    rewrite lookup_insert_ne by done. by apply Hl.
  - eapply differ_weaken; [done|]. intros b Hb. eapply lzone_touch; [apply Hm'|done].
Qed.

(** Guards are outside of a run of inner chunks. *)
Lemma span_guards S E C x y l cl :
  tiled S E C -> (forall b c, C !! b = Some c -> x <= b < y -> (b ∉ S) /\ (b ∉ E)) ->
  C !! l = Some cl -> l ∉ E -> l + c_size cl = y ->
  (forall b, b ∈ S -> ~ (x <= b <= y)) /\ (forall b, b ∈ E -> ~ (x <= b < y)).
Proof.
  intros Ht Hin Hl HlE Hy. split; intros b Hb Hxy.
  - pose proof (t_start _ _ _ Ht _ Hb) as Hb'. destruct (decide (b = y)) as [->|].
    + by apply (t_first _ _ _ Ht y l cl).
    + destruct (Hin _ _ Hb') as [? _]; [lia|done].
  - destruct (t_end _ _ _ Ht _ Hb) as (q & Hb'). by destruct (Hin _ _ Hb' Hxy).
Qed.

Lemma heap_ok_fields m h h' C :
  mm_nodelist h' = mm_nodelist h -> mm_heapstart h' = mm_heapstart h -> mm_heapend h' = mm_heapend h ->
  heap_ok m h C -> heap_ok m h' C.
Proof. intros E1 E2 E3 [H1 H2 H3]. split; rewrite ?E1, ?E2, ?E3; done. Qed.

Section free.
Context (m : mem) (h : mm_heap_s) (C : chunks) (F : gmap Z Z) (a s : Z) (p : option Z).
Abbreviation NL := (mm_nodelist h).
Abbreviation ST := (mm_heapstart h).
Abbreviation EN := (mm_heapend h).
Context (Hm : hmem m NL C F) (Hl : listed C F) (Ht : tiled ST EN C) (Hc : compact C).
Context (Ha : C !! a = Some (Chunk s true p)) (Hs : 16 <= s).

(** The chunks between the freed one and the end of the merged one. *)
Lemma free_span y cy : a + s <= y -> C !! y = Some cy ->
  y = a + s \/ C !! (a + s) = Some (Chunk (y - (a + s)) false None) ->
  (forall b c, C !! b = Some c -> a <= b < y -> b = a \/ (b = a + s /\ c_used c = false)) /\
  exists l cl, C !! l = Some cl /\ a <= l /\ (l ∉ EN) /\ l + c_size cl = y.
Proof.
  intros Hay Hy Hn. pose proof (hmem_geo _ _ _ _ Hm) as Hg.
  destruct (inner_chunk _ _ _ _ _ Ht Ha ltac:(done)) as [HaS HaE].
  assert (Hin : forall b c, C !! b = Some c -> a <= b < a + s -> b = a)
    by (intros; eapply (geo_inside NL C a); [done..|simpl; lia]).
  destruct Hn as [->|Hn].
  - split; [intros; left; eauto|]. exists a, (Chunk s true p). simpl. auto with lia.
  - destruct (inner_chunk _ _ _ _ _ Ht Hn ltac:(done)) as [_ HnE]. split.
    + intros b c Hb Hby. destruct (decide (b < a + s)); [left; eauto with lia|right].
      assert (b = a + s) as -> by (eapply (geo_inside NL C (a + s)); [done..|simpl; lia]).
      by simplify_eq.
    + exists (a + s), (Chunk (y - (a + s)) false None). simpl. split_and!; [done|lia|done|lia].
Qed.

(** The chunks once the run from [x] to [y] around [a] is one free chunk. *)
Lemma free_run_done x y cx cy :
  C !! x = Some cx -> c_prev cx = None -> C !! y = Some cy -> c_used cy = true -> room NL x y ->
  x <= a < y -> (forall b c, C !! b = Some c -> x <= b < y -> b = a \/ c_used c = false) ->
  (exists l cl, C !! l = Some cl /\ (l ∉ EN) /\ l + c_size cl = y) ->
  let C' := refit x y (new1 x y false None) (Some (y - x)) C in
  tiled ST EN C' /\ compact C' /\ used C' = delete a (used C).
Proof.
  intros Hx Hpx Hy Huy Hroom Hxa Hspan (l & cl & Hcl & HlE & Hly) C'.
  pose proof (hmem_geo _ _ _ _ Hm) as Hg. assert (x < y) by lia.
  destruct (span_guards ST EN C x y l cl) as [HS HE]; try done.
  { intros b c Hb Hby. eapply inner_chunk; [done..|]. intros Hu.
    destruct (Hspan _ _ Hb Hby) as [->|]; [by simplify_eq|congruence]. }
  pose proof (run1 NL x y false None Hroom) as Hr. simpl in Hr.
  split_and!.
  - by eapply (refit_tiled NL).
  - eapply (refit_compact NL); try done; [|by right|by left].
    unfold new1. intros b c d [<- <-]%lookup_singleton_Some [??]%lookup_singleton_Some. simpl in *. lia.
  - apply map_eq. intros b. apply option_eq. intros t.
    unfold C'. rewrite (refit_used NL), lookup_delete_Some by done. split.
    + intros [[_ [r Hb]]|[Hb Hu]].
      * unfold new1 in Hb. by apply lookup_singleton_Some in Hb as [_ ?].
      * split; [|done]. intros <-. lia.
    + intros [Hne Hu]. right. split; [|done]. intros Hin. apply used_Some in Hu as [r Hu].
      by destruct (Hspan _ _ Hu Hin).
Qed.

(** After both merges: the run as one free chunk, still to be listed. *)
(** The free chunks after the merge with the next chunk. *)
Lemma free_next_frees y cy b c :
  let C2 := refit a y (new1 a y false p) (Some (y - a)) C in
  room NL a y -> a + s <= y -> C !! y = Some cy -> c_used cy = true ->
  y = a + s \/ C !! (a + s) = Some (Chunk (y - (a + s)) false None) ->
  C2 !! b = Some c -> c_used c = false -> b <> a ->
  ~ (a <= b < y) /\ C !! b = Some c /\ delete (a + s) F !! b = Some (c_size c).
Proof.
  intros C2 Hroom Hay Hy Huy Hn Hb Hu Hba.
  pose proof (run1 NL a y false p Hroom) as Hr1. simpl in Hr1. destruct Hroom as (_ & _ & _ & ? & _).
  apply (refit_lookup NL a y C _ p) in Hb as [[Hb1 Hb]|[[-> (cy' & Hb & ->)]|[Hb1 Hb]]]; [..|done|lia].
  - unfold new1 in Hb. by apply lookup_singleton_Some in Hb as [? _].
  - simplify_eq. simpl in Hu. congruence.
  - split_and!; [lia|done|]. rewrite lookup_delete_ne; [by apply Hl|]. intros <-.
    destruct Hn as [->|Hn]; [|simplify_eq; simpl in *]; lia.
Qed.

Lemma free_merged : exists x y cx cy m1 m2 F2,
  let C' := refit x y (new1 x y false None) (Some (y - x)) C in
  merge_next (wr m (o_size a) (hdr s false (pf p))) a s = Some (y - a, y, m1) /\
  merge_prev m1 a (y - a) y = Some (x, m2) /\ hmem m2 NL C' F2 /\ F2 !! x = None /\
  (forall b c, C' !! b = Some c -> c_used c = false -> b <> x -> F2 !! b = Some (c_size c)) /\
  differ (touch NL C x y) m m2 /\ C !! x = Some cx /\ c_prev cx = None /\
  C !! y = Some cy /\ c_used cy = true /\ room NL x y /\ x <= a < y /\
  (forall b c, C !! b = Some c -> x <= b < y -> b = a \/ c_used c = false) /\
  (exists l cl, C !! l = Some cl /\ (l ∉ EN) /\ l + c_size cl = y).
Proof.
  destruct (merge_next_spec m NL ST EN C F a s p)
    as (y & cy & m1 & E1 & Hay & Hy & Huy & Hn & Hroom & Hm1 & Hd1); [done..|].
  destruct (free_span y cy Hay Hy Hn) as (Hspan & l & cl & Hcl & Hal & HlE & Hly).
  pose proof (hmem_geo _ _ _ _ Hm) as Hg. assert (a < y) by lia.
  pose proof (run1 NL a y false p Hroom) as Hr1. simpl in Hr1.
  set (C2 := refit a y (new1 a y false p) (Some (y - a)) C) in *.
  assert (Ha2 : C2 !! a = Some (Chunk (y - a) false p))
    by (apply (refit_new NL a y C _ p (Some (y - a)) Hr1 ltac:(lia)); unfold new1;
      by rewrite lookup_singleton_eq).
  assert (Hy2 : C2 !! y = Some (set_prev (Some (y - a)) cy)) by (by apply (refit_y NL a y C _ p)).
  assert (Ht2 : tiled ST EN C2).
  { destruct (span_guards ST EN C a y l cl) as [HS HE]; try done; [|by eapply (refit_tiled NL)].
    intros b c Hb Hby. eapply inner_chunk; [done..|]. intros Hu.
    destruct (Hspan _ _ Hb Hby) as [->|[_ ?]]; [by simplify_eq|congruence]. }
  assert (Hf2 : forall b c, C2 !! b = Some c -> c_used c = false -> b <> a ->
    ~ (a <= b < y) /\ C !! b = Some c /\ delete (a + s) F !! b = Some (c_size c)).
  { intros b c Hb Hu. by apply (free_next_frees y cy b c). }
  assert (HaF : delete (a + s) F !! a = None).
  { rewrite lookup_delete_ne by lia. by eapply hmem_used_None. }
  destruct (merge_prev_spec m1 NL ST EN C2 (delete (a + s) F) a (y - a) p Hm1 Ht2 Ha2
              ltac:(intros; by apply Hf2) (set_prev (Some (y - a)) cy))
    as (x & m2 & E2 & Hcase); try done; [by replace (a + (y - a)) with y by lia|].
  replace (a + (y - a)) with y in * by lia.
  destruct Hcase as [(Hp & -> & ->)|(Hp & Hxa & Hx & Hroomx & Hm2 & Hd2)].
  - unfold C2 in Hm1, Hf2. rewrite Hp in Hm1, Hf2.
    exists a, y, (Chunk s true p), cy, m1, m1, (delete (a + s) F).
    split_and!; try done; [intros; by apply Hf2| |eauto].
    intros b c Hb Hby. destruct (Hspan _ _ Hb Hby) as [->|[_ ?]]; auto.
  - pose proof (run1 NL x y false None Hroomx) as Hrx. simpl in Hrx.
    unfold C2 in Hm2. rewrite (refit_refit NL x a y _ None _ _ p _ C Hrx Hr1) in Hm2 by lia.
    exists x, y, (Chunk (a - x) false None), cy, m1, m2, (delete x (delete (a + s) F)).
    destruct (Hf2 _ _ Hx) as (_ & HxC & _); [done|lia|].
    split_and!; try done; [by rewrite lookup_delete_eq| | |lia..| |eauto].
    + intros b c Hb Hu Hbx. rewrite lookup_delete_ne by done.
      rewrite <- (refit_refit NL x a y _ None _ _ p _ C Hrx Hr1) in Hb by lia.
      apply (refit_lookup NL x y C2 _ None) in Hb as [[_ Hb]|[[-> (cy' & Hb & ->)]|[? Hb]]]; [..|done|lia].
      * unfold new1 in Hb. by apply lookup_singleton_Some in Hb as [? _].
      * rewrite Hb in Hy2. simplify_eq. simpl in Hu. congruence.
      * apply Hf2; [done..|lia].
    + apply (differ_trans _ (touch NL C x y)) with (1 := Hd1).
      * eapply differ_weaken; [done|]. intros b. apply touch_sub; [|lia].
        intros f c Hf Hu.
        destruct (decide (f = a)) as [->|]; [left; destruct Hroom as (_ & _ & _ & ? & _); lia|].
        right. exists c. by destruct (Hf2 _ _ Hf Hu) as (_ & ? & _).
      * intros b. apply touch_sub; [|lia]. intros f c Hf Hu. right. eauto.
      * done.
    + intros b c Hb Hby. destruct (decide (b < a)).
      * right. assert (b = x) as -> by (eapply (geo_inside NL C x); [done..|simpl; lia]). by simplify_eq.
      * destruct (Hspan _ _ Hb ltac:(lia)) as [->|[_ ?]]; auto.
Qed.

Lemma free_node_spec : exists x y m1 m2 m' C' F',
  merge_next (wr m (o_size a) (hdr s false (pf p))) a s = Some (y - a, y, m1) /\
  merge_prev m1 a (y - a) y = Some (x, m2) /\ mm_addfreechunk m2 h x = Some m' /\
  hmem m' NL C' F' /\ listed C' F' /\ tiled ST EN C' /\ compact C' /\
  used C' = delete a (used C) /\ keeps m m' C EN a.
Proof.
  destruct free_merged as (x & y & cx & cy & m1 & m2 & F2 & E1 & E2 & Hm2 & HxF & Hl2 & Hd & Hx & Hpx
    & Hy & Huy & Hroom & Hxa & Hspan & Hlast).
  destruct (free_run_done x y cx cy) as (Ht' & Hc' & Hu'); try done.
  set (C' := refit x y (new1 x y false None) (Some (y - x)) C) in *.
  pose proof (run1 NL x y false None Hroom) as Hr. simpl in Hr.
  assert (Hx' : C' !! x = Some (Chunk (y - x) false None)).
  { apply (refit_new NL x y C _ None); [done|lia|]. unfold new1. by rewrite lookup_singleton_eq. }
  destruct (hmem_add_new m2 NL C' F2 h x y (y - x)) as (m' & F' & E3 & Hm' & Hl' & Hd3); try done; [lia|].
  exists x, y, m1, m2, m', C', F'. split_and!; try done.
  eapply (differ_keeps _ _ NL ST EN C x y); [by eapply hmem_geo|done|by eexists|by eexists|lia| |].
  - intros b c Hb Hu Hby. destruct (Hspan _ _ Hb Hby); [done|congruence].
  - apply (differ_trans _ _ _ _ _ _ Hd Hd3); [done|]. intros b. apply touch_sub; [|lia].
    intros f c Hf Hu. destruct Hroom as (_ & _ & _ & ? & _).
    apply (refit_lookup NL x y C _ None) in Hf as [[? Hf]|[[-> (cy' & Hf & ->)]|[? Hf]]]; [..|done|lia].
    + unfold new1 in Hf. apply lookup_singleton_Some in Hf as [<- _]. left. lia.
    + right. eauto.
    + right. eauto.
Qed.
End free.

(** [mm_delayfree] with the lock. *)
Lemma delayfree_spec c m h C a s p :
  heap_ok m h C -> C !! a = Some (Chunk s true p) -> 16 <= s -> 0 <= mm_lock c ->
  exists m' C', mm_delayfree c m h (a + 8) false = Some (m', add_curused (- s) h) /\
  heap_ok m' h C' /\ used C' = delete a (used C) /\ keeps m m' C (mm_heapend h) a.
Proof.
  intros [(F & Hm & Hl) Ht Hc] Ha Hs Hlock.
  destruct (free_node_spec m h C F a s p)
    as (x & y & m1 & m2 & m' & C' & F' & E1 & E2 & E3 & Hm' & Hl' & Ht' & Hc' & Hu & Hk);
    [done..|].
  pose proof (hmem_place _ _ _ _ Hm _ _ Ha) as (? & ? & _ & ? & ? & _ & _). simpl in *.
  destruct (hmem_size _ _ _ _ Hm _ _ Ha) as [Ea Ea4]. simpl in Ea, Ea4.
  destruct (hdr_used s true (pf p) Ea4) as (Esz & Eal & _).
  exists m', C'. split_and!; [|split; [by exists F'|done..]|done..].
  assert (Eaddr : a + 8 - MM_SIZEOF_ALLOCNODE = a) by (unfold MM_SIZEOF_ALLOCNODE; lia).
  unfold mm_delayfree, mm_malloc_size. rewrite Eaddr, Ea.
  rewrite (proj2 (Z.ltb_ge _ _)), (proj2 (Z.eqb_neq (a + 8) 0)) by lia. bnd.
  rewrite Eal, Esz. cbn [dassert]. bnd. rewrite clear_alloc_hdr by done.
  rewrite (hmem_st_size _ _ _ _ Hm _ _ _ Ha). bnd. rewrite E1. bnd. rewrite E2. bnd.
  change (mm_addfreechunk m2 (add_curused (- s) h) x) with (mm_addfreechunk m2 h x).
  rewrite E3. done.
Qed.

(** ** Chunks out of sight

    While the header of a chunk is between two values, memory holds the others. *)

Lemma differ_sym P m m' : differ P m m' -> differ P m' m.
Proof. intros [Hd Hb]. split; [done|]. intros b HP. symmetry. auto. Qed.

(** The words of all other chunks and the list survive stores in one header. *)
Lemma hmem_other m m' H C F a c :
  geo H C -> C !! a = Some c -> F !! a = None -> hmem m H (delete a C) F ->
  differ (fun b => a <= b < a + 8) m m' -> hmem m' H (delete a C) F.
Proof.
  intros Hg Ha HaF (Hg' & Hw & HF & L & Hfl & Ho) Hd.
  assert (HFC : forall b t, F !! b = Some t -> C !! b = Some (Chunk t false None)).
  { intros b t Hb. apply HF in Hb. by apply lookup_delete_Some in Hb as [_ ?]. }
  assert (Hoth : forall b d, C !! b = Some d -> b <> a -> forall i, b <= i < b + 8 -> ~ (a <= i < a + 8)).
  { intros b d Hb Hne i Hi. pose proof (geo_place _ _ Hg _ _ Hb) as (_ & _ & ? & _).
    pose proof (geo_place _ _ Hg _ _ Ha) as (_ & _ & ? & _).
    destruct (geo_apart _ _ Hg _ _ _ _ Ha Hb) as [?|[?|?]]; lia. }
  split_and!; [done| |done|exists L; split; [|done]].
  - intros b d [Hne Hb]%lookup_delete_Some. eapply words_differ; [done|by eapply Hoth|].
    apply Hw. rewrite lookup_delete_ne by done. done.
  - destruct Hfl as (Hc & Hsz & Hap). split_and!; [| |done].
    + eapply chain_differ; [done..|]. intros b Hb Hab. apply (links_lzone H L F b Ho) in Hb.
      exact (lzone_header H C F a c b Hg HFC Ha Hab Hb).
    + intros e He. rewrite (differ_ld _ _ _ _ Hd); [by apply Hsz|].
      destruct Ho as (_ & _ & Hh & HN & _). intros b Hb. destruct e as [i|f t]; simpl in *.
      * apply Hh in He. unfold MM_NNODES in He.
        pose proof (geo_place _ _ Hg _ _ Ha) as (_ & _ & ? & _ & _ & _ & ?). olia.
      * apply HN in He. eapply (Hoth f); [by apply HFC|congruence|olia].
Qed.

Lemma hmem_disown m m' H C F a c :
  hmem m H C F -> C !! a = Some c -> F !! a = None -> differ (fun b => a <= b < a + 8) m m' ->
  hmem m' H (delete a C) F.
Proof.
  intros Hm Ha HaF Hd. pose proof Hm as (Hg & Hw & HF & HL).
  eapply hmem_other; try done. split_and!; [| | |done].
  - destruct Hg as (? & ? & H3 & H4). split_and!; [done..| |].
    + intros b d [_ Hb]%lookup_delete_Some. auto.
    + intros b1 b2 d1 d2 [_ Hb1]%lookup_delete_Some [_ Hb2]%lookup_delete_Some. eauto.
  - intros b d [_ Hb]%lookup_delete_Some. auto.
  - intros b t Hb. rewrite lookup_delete_ne by congruence. auto.
Qed.

Lemma hmem_own m m' H C F a c :
  hmem m H (delete a C) F -> geo H C -> C !! a = Some c -> F !! a = None ->
  differ (fun b => a <= b < a + 8) m m' -> words m' a c -> hmem m' H C F.
Proof.
  intros Hm Hg Ha HaF Hd Hwa. eapply hmem_other in Hm as (_ & Hw & HF & HL); [|done..].
  split_and!; [done| | |done].
  - intros b d Hb. destruct (decide (b = a)) as [->|]; [by simplify_eq|].
    apply Hw. by rewrite lookup_delete_ne.
  - intros b t Hb. apply HF in Hb. by apply lookup_delete_Some in Hb as [_ ?].
Qed.
