(* ===== verification/HeapAlloc.v ===== *)
(** * Allocating, shrinking and moving chunks

    The parts of [mm_malloc], [mm_shrinkchunk], [mm_memalign] and [mm_realloc]
    that change chunks, each as a replacement of a run. *)

From S2P Require Import Prelude.
From stdpp Require Import gmap sorting.
From S2P Require Import Heap HeapList HeapInv HeapOps.
Local Open Scope Z_scope.

(** ** After a replacement *)

Lemma run_done H S E C x y N p q cx cy l cl :
  geo H C -> tiled S E C -> compact C -> run H x y N p q -> x < y ->
  C !! x = Some cx -> c_prev cx = p -> C !! y = Some cy ->
  (forall b c, C !! b = Some c -> x <= b < y -> c_used c = true -> 16 <= c_size c) ->
  C !! l = Some cl -> l ∉ E -> l + c_size cl = y ->
  (forall a c d, N !! a = Some c -> N !! (a + c_size c) = Some d -> c_used c = true \/ c_used d = true) ->
  (q = None \/ c_used cy = true) -> (p = None \/ forall c, N !! x = Some c -> c_used c = true) ->
  tiled S E (refit x y N q C) /\ compact (refit x y N q C).
Proof.
  intros Hg Ht Hc Hr Hxy Hx Hp Hy Hin Hl HlE Hly HN Hq Hpx.
  destruct (span_guards S E C x y l cl) as [HS HE]; try done.
  { intros b c Hb Hby. eapply inner_chunk; [done..|]. eauto. }
  split; [by eapply (refit_tiled H)|by eapply (refit_compact H)].
Qed.

Lemma new2_compact x z y u v p : x < z < y -> u = true \/ v = true ->
  forall a c d, new2 x z y u v p !! a = Some c -> new2 x z y u v p !! (a + c_size c) = Some d ->
  c_used c = true \/ c_used d = true.
Proof.
  intros Hxz Huv a c d Hac Had. apply new2_lookup in Hac; [|lia]. apply new2_lookup in Had; [|lia].
  destruct Hac as [[-> ->]|[-> ->]], Had as [[? ->]|[? ->]]; simpl in *; (lia || tauto).
Qed.

Lemma new1_compact x y u p : x < y ->
  forall a c d, new1 x y u p !! a = Some c -> new1 x y u p !! (a + c_size c) = Some d ->
  c_used c = true \/ c_used d = true.
Proof.
  unfold new1. intros Hxy a c d [<- <-]%lookup_singleton_Some [? _]%lookup_singleton_Some. simpl in *. lia.
Qed.

Section used.
Context (H x y : Z) (C : chunks) (p : option Z) (a : Z).
Context (Hin : forall b s, used C !! b = Some s -> x <= b < y -> b = a).

Lemma used_new1 q : run H x y (new1 x y true p) p q -> x < y -> x <= a < y ->
  used (refit x y (new1 x y true p) q C) = <[x := y - x]> (delete a (used C)).
Proof.
  intros Hr Hxy Ha. apply map_eq. intros b. apply option_eq. intros t.
  rewrite (refit_used H), lookup_insert_Some, lookup_delete_Some by done. unfold new1.
  setoid_rewrite lookup_singleton_Some. split.
  - intros [[? (r & <- & [= <- <-])]|[? Hb]]; [by left|right]. split_and!; [lia|lia|done].
  - intros [[<- <-]|(? & ? & Hb)]; [left; split; [lia|eauto]|right]. split; [|done]. intros Hby.
    by apply Hin in Hb.
Qed.

Lemma used_new2_tf z q : run H x y (new2 x z y true false p) p q -> x < z < y -> x <= a < y ->
  used (refit x y (new2 x z y true false p) q C) = <[x := z - x]> (delete a (used C)).
Proof.
  intros Hr Hxy Ha. apply map_eq. intros b. apply option_eq. intros t.
  rewrite (refit_used H), lookup_insert_Some, lookup_delete_Some by (done || lia).
  setoid_rewrite new2_lookup; [|lia]. split.
  - intros [[? (r & [[-> [= <- <-]]|[_ ?]])]|[? Hb]]; [by left|done|right]. split_and!; [lia|lia|done].
  - intros [[<- <-]|(? & ? & Hb)]; [left; split; [lia|eauto]|right]. split; [|done]. intros Hby.
    by apply Hin in Hb.
Qed.

Lemma used_new2_ft z q : run H x y (new2 x z y false true p) p q -> x < z < y -> x <= a < y ->
  used (refit x y (new2 x z y false true p) q C) = <[z := y - z]> (delete a (used C)).
Proof.
  intros Hr Hxy Ha. apply map_eq. intros b. apply option_eq. intros t.
  rewrite (refit_used H), lookup_insert_Some, lookup_delete_Some by (done || lia).
  setoid_rewrite new2_lookup; [|lia]. split.
  - intros [[? (r & [[_ ?]|[-> [= -> ->]]])]|[? Hb]]; [done|by left|right]. split_and!; [lia|lia|done].
  - intros [[<- <-]|(? & ? & Hb)]; [left; split; [lia|eauto]|right]. split; [|done]. intros Hby.
    by apply Hin in Hb.
Qed.
End used.

(** The bytes that are written when only the header at [x] and the room from [z]
    on change: the block at [x] keeps its bytes up to [z]. *)
Definition touch2 (H : Z) (C : chunks) (x z y b : Z) : Prop :=
  H <= b < H + 304 \/ (exists f c, C !! f = Some c /\ c_used c = false /\ f + 8 <= b < f + 16) \/
  x + 4 <= b < x + 8 \/ z + 4 <= b < y + 8.

Lemma touch2_touch H C x z y b : x + 4 <= y -> x <= z -> touch2 H C x z y b -> touch H C x y b.
Proof. intros ?? [?|[?|?]]; [by left|by right; left|right; right; lia]. Qed.

Lemma touch2_self H C x z y b s p :
  geo H C -> C !! x = Some (Chunk s true p) -> x + 8 <= b < z + 4 -> z <= x + s ->
  (exists d, C !! (x + s) = Some d) -> ~ touch2 H C x z y b.
Proof.
  intros Hg Hx Hb Hz [d Hd]. pose proof (geo_place _ _ Hg _ _ Hx) as (_ & _ & ? & _ & _ & _ & ?).
  pose proof (geo_place _ _ Hg _ _ Hd) as (_ & _ & ? & _ & _ & _ & ?). simpl in *.
  intros [?|[(f & c & Hf & Hu & ?)|?]]; [lia| |lia].
  pose proof (geo_place _ _ Hg _ _ Hf) as (_ & _ & _ & _ & _ & Hf16 & _). specialize (Hf16 Hu).
  destruct (geo_apart _ _ Hg _ _ _ _ Hx Hf) as [->|[?|?]]; simpl in *; [by simplify_eq|lia|lia].
Qed.

(** ** A used chunk with a free rest behind it

    The run from [x] to [y] becomes a used chunk up to [z] and a free one, which
    enters the list.  [m1] is memory before the headers are written, [m4] when
    the rest is put into the list; the header of [x] may change after that. *)

Section rest.
Context (m1 m4 : mem) (heap : mm_heap_s) (C : chunks) (F : gmap Z Z) (x z y : Z).
Context (cx cy : chunk) (p : option Z) (c0 : Z).
Abbreviation NL := (mm_nodelist heap).
Context (Hm : hmem m1 NL C F) (Hx : C !! x = Some cx) (Hp : c_prev cx = p).
Context (Hy : C !! y = Some cy) (Huy : c_used cy = true) (Hr1 : room NL x z) (Hr2 : room NL z y).
Context (Hmap : mapped m1 x y) (HF : forall f s, F !! f = Some s -> ~ (x <= f < y)).
Context (Hl : forall f c, C !! f = Some c -> c_used c = false -> ~ (x <= f < y) -> F !! f = Some (c_size c)).
Context (Hd : differ (fun b => x + 4 <= b < x + 8 \/ z + 4 <= b < y + 8) m1 m4) (Wx : ld m4 (o_size x) = Some c0).
Context (Wz : ld m4 (o_size z) = Some (hdr (y - z) false false)).
Context (Wy : ld m4 (o_size y) = Some (hdr (c_size cy) true true)) (Wp : ld m4 (o_preceding y) = Some (y - z)).

Abbreviation C' := (refit x y (new2 x z y true false p) (Some (y - z)) C).

Lemma rest_order : x + 16 <= z /\ z + 16 <= y /\ z - x < 2 ^ 32 /\ (z - x) mod 4 = 0.
Proof. destruct Hr1 as (? & ? & ? & ? & ? & _), Hr2 as (_ & _ & _ & ? & _). split_and!; lia || zlia. Qed.

Lemma rest_run : run NL x y (new2 x z y true false p) p (Some (y - z)).
Proof. exact (run2 NL x z y true false p Hr1 Hr2). Qed.

Lemma rest_lookup : C' !! x = Some (Chunk (z - x) true p) /\ C' !! z = Some (Chunk (y - z) false None).
Proof.
  pose proof rest_order as (? & ? & _). pose proof rest_run as Hr.
  split; apply (refit_new NL x y C _ p); try done; try lia; apply new2_lookup; try lia; auto.
Qed.

(** Memory with the final header of [x] but without the rest in the list. *)
Lemma rest_unlisted : hmem (wr m4 (o_size x) (hdr (z - x) true (pf p))) NL C' F.
Proof.
  pose proof rest_order as (? & ? & ? & ?).
  assert (mapped m4 (o_size x) (o_size x + 4)).
  { eapply differ_mapped; [done|]. eapply mapped_sub; [done|olia..]. }
  change (Some (y - z)) with (mark false (y - z)).
  eapply (hmem_refit2 m1); try done.
  - apply differ_wr; [eapply differ_weaken; [done|simpl; lia]|done|intros; olia].
  - rewrite (hmem_used_None _ _ _ _ Hm _ _ Hy) by done. by intros [??].
  - rewrite ld_wr_eq, hdr_u32 by (done || lia). done.
  - by rewrite ld_wr_ne by olia.
  - by rewrite ld_wr_ne, Huy by olia.
  - intros _. by rewrite ld_wr_ne by olia.
Qed.

Lemma rest_frees f c : C' !! f = Some c -> c_used c = false ->
  f = z \/ (~ (x <= f < y) /\ C !! f = Some c /\ F !! f = Some (c_size c)).
Proof.
  intros Hf Hfu. pose proof rest_order as (? & ? & _).
  apply (refit_lookup NL x y C _ p) in Hf as [[_ Hf]|[[-> (cy' & Hf & ->)]|[? Hf]]]; [..|apply rest_run|lia].
  - apply new2_lookup in Hf as [[_ ->]|[-> _]]; [done|by left|lia].
  - simplify_eq. simpl in Hfu. congruence.
  - right. split_and!; [lia|done|]. apply Hl; [done..|lia].
Qed.

Lemma rest_listed : exists m5 F', mm_addfreechunk m4 heap z = Some m5 /\ ld m5 (o_size x) = Some c0 /\
  mapped m5 (o_size x) (o_size x + 4) /\ listed C' F' /\ differ (touch2 NL C x z y) m1 m5 /\
  forall m6, differ (fun b => x + 4 <= b < x + 8) m5 m6 ->
    ld m6 (o_size x) = Some (hdr (z - x) true (pf p)) -> hmem m6 NL C' F'.
Proof.
  pose proof rest_order as (? & ? & _). destruct rest_lookup as [Hx' Hz']. pose proof rest_unlisted as Hm4.
  pose proof (hmem_geo _ _ _ _ Hm4) as Hg.
  assert (HxF : F !! x = None) by (by eapply hmem_used_None).
  assert (HzF : F !! z = None).
  { destruct (F !! z) as [s|] eqn:EF; [|done]. apply HF in EF. lia. }
  assert (Hmx : mapped m4 x (x + 8)) by (eapply differ_mapped; [done|]; eapply mapped_sub; [done|lia..]).
  assert (Hm4' : hmem m4 NL (delete x C') F).
  { eapply hmem_disown; [exact Hm4|exact Hx'|done|].
    apply differ_sym, differ_wr; [apply differ_refl| |intros; olia].
    eapply mapped_sub; [done|olia..]. }
  destruct (hmem_addfree m4 NL _ F heap z (y - z) eq_refl Hm4') as (m5 & E5 & Hm5 & Hd5);
    [by rewrite lookup_delete_ne by lia|done|].
  assert (HF' : forall b t, <[z := y - z]> F !! b = Some t -> C' !! b = Some (Chunk t false None)).
  { intros b t Hb. apply Hm5 in Hb. by apply lookup_delete_Some in Hb as [_ ?]. }
  assert (Hxz : forall b, x <= b < x + 8 -> ~ lzone NL (<[z := y - z]> F) b)
    by (intros b; by eapply lzone_header).
  exists m5, (<[z := y - z]> F). split_and!; [done|..].
  - rewrite (differ_ld _ _ _ _ Hd5); [done|]. intros b Hb. apply Hxz. olia.
  - eapply differ_mapped; [done|]. eapply mapped_sub; [done|olia..].
  - intros f c Hf Hfu. destruct (rest_frees f c Hf Hfu) as [->|(? & _ & ?)].
    + rewrite Hz' in Hf. simplify_eq. by rewrite lookup_insert_eq.
    + by rewrite lookup_insert_ne by lia.
  - apply (differ_trans _ _ _ _ _ _ Hd Hd5); [intros b Hb; by right; right|].
    intros b [?|(f & t & [[<- <-]|[? Hf]]%lookup_insert_Some & ?)]; [by left|right; right; lia|].
    right; left. exists f, (Chunk t false None). split_and!; [by apply (hmem_free _ _ _ _ Hm)|done|lia..].
  - intros m6 Hd6 W6. eapply (hmem_own m5); [done..|by rewrite lookup_insert_ne by lia| |].
    { eapply differ_weaken; [done|]. simpl. intros. lia. }
    split_and!; simpl; [done| |].
    + intros r Hr. rewrite (differ_ld _ _ _ _ Hd6) by (intros; olia).
      rewrite (differ_ld _ _ _ _ Hd5) by (intros b Hb; apply Hxz; olia).
      rewrite (differ_ld _ _ _ _ Hd) by (intros; olia). eapply hmem_prec; [exact Hm|exact Hx|congruence].
    + eapply differ_mapped; [done|]. eapply differ_mapped; [done|]. eapply differ_mapped; [done|].
      eapply mapped_sub; [done|lia..].
Qed.

(** The chunks after it, when [a] was the only used chunk in the run. *)
Lemma rest_done S E a l cl :
  tiled S E C -> compact C ->
  (forall b c, C !! b = Some c -> x <= b < y -> c_used c = true -> 16 <= c_size c /\ b = a) -> x <= a < y ->
  C !! l = Some cl -> l ∉ E -> l + c_size cl = y ->
  tiled S E C' /\ compact C' /\ used C' = <[x := z - x]> (delete a (used C)).
Proof.
  intros Ht Hc Hin Ha Hcl HlE Hly. pose proof rest_order as (? & ? & _). pose proof rest_run as Hr.
  destruct (run_done NL S E C x y (new2 x z y true false p) p (Some (y - z)) cx cy l cl) as [Ht' Hc'];
    try done; [by eapply hmem_geo|lia|intros; by eapply Hin|by apply new2_compact; [lia|left]|by right| |].
  { right. intros c Hc0. apply new2_lookup in Hc0 as [[_ ->]|[? _]]; [done|lia|lia]. }
  split_and!; [done..|]. apply (used_new2_tf NL); try done; [|lia].
  intros b s [q Hb]%used_Some Hby. by destruct (Hin _ _ Hb Hby).
Qed.
End rest.

(** ** A free chunk before a used one

    The run from [x] to [y] becomes a free chunk up to [z] and a used one.  Only
    headers and bytes below [w] are written. *)

Definition touch3 (H : Z) (C : chunks) (x w y b : Z) : Prop :=
  H <= b < H + 304 \/ (exists f c, C !! f = Some c /\ c_used c = false /\ f + 8 <= b < f + 16) \/
  x + 4 <= b < w \/ y + 4 <= b < y + 8.

Lemma touch3_touch H C x w y b : x + 4 <= y -> w <= y + 8 -> touch3 H C x w y b -> touch H C x y b.
Proof. intros ?? [?|[?|?]]; [by left|by right; left|right; right; lia]. Qed.

Section lead.
Context (m1 m4 : mem) (heap : mm_heap_s) (C : chunks) (F : gmap Z Z) (x z y w : Z) (cx cy : chunk).
Abbreviation NL := (mm_nodelist heap).
Context (Hm : hmem m1 NL C F) (Hx : C !! x = Some cx) (Hp : c_prev cx = None).
Context (Hy : C !! y = Some cy) (Hr1 : room NL x z) (Hr2 : room NL z y).
Context (Hmap : mapped m1 x y) (HF : forall f s, F !! f = Some s -> ~ (x <= f < y)).
Context (Hl : forall f c, C !! f = Some c -> c_used c = false -> ~ (x <= f < y) -> F !! f = Some (c_size c)).
Context (Hw : z + 8 <= w <= y + 8).
Context (Hd : differ (fun b => x + 4 <= b < w \/ y + 4 <= b < y + 8) m1 m4).
Context (Wx : ld m4 (o_size x) = Some (hdr (z - x) false false)).
Context (Wz : ld m4 (o_size z) = Some (hdr (y - z) true true)) (Wp : ld m4 (o_preceding z) = Some (z - x)).
Context (Wy : ld m4 (o_size y) = Some (hdr (c_size cy) (c_used cy) false)).

Abbreviation C' := (refit x y (new2 x z y false true None) None C).

Lemma lead_order : x + 16 <= z /\ z + 16 <= y.
Proof. destruct Hr1 as (? & ? & ? & ? & ? & _), Hr2 as (_ & _ & _ & ? & _). lia. Qed.

Lemma lead_run : run NL x y (new2 x z y false true None) None None.
Proof. exact (run2 NL x z y false true None Hr1 Hr2). Qed.

Lemma lead_lookup :
  C' !! x = Some (Chunk (z - x) false None) /\ C' !! z = Some (Chunk (y - z) true (Some (z - x))).
Proof.
  pose proof lead_order as (? & ?). pose proof lead_run as Hr.
  split; apply (refit_new NL x y C _ None); try done; try lia; apply new2_lookup; try lia; auto.
Qed.

Lemma lead_frees f c : C' !! f = Some c -> c_used c = false ->
  f = x \/ (~ (x <= f < y) /\ F !! f = Some (c_size c)).
Proof.
  intros Hf Hfu. pose proof lead_order as (? & ?).
  apply (refit_lookup NL x y C _ None) in Hf as [[_ Hf]|[[-> (cy' & Hf & ->)]|[? Hf]]];
    [..|apply lead_run|lia].
  - apply new2_lookup in Hf as [[-> _]|[_ ->]]; [by left|done|lia].
  - right. split; [lia|]. apply (Hl _ _ Hf); [done|lia].
  - right. split; [lia|]. apply Hl; [done..|lia].
Qed.

Lemma lead_listed : exists m5 F', mm_addfreechunk m4 heap x = Some m5 /\ hmem m5 NL C' F' /\
  listed C' F' /\ differ (touch3 NL C x w y) m1 m5.
Proof.
  pose proof lead_order as (? & ?). destruct lead_lookup as [Hx' _].
  assert (Hm4 : hmem m4 NL C' F).
  { change None with (mark true (y - z)) at 2. eapply (hmem_refit2 m1); try done.
    eapply differ_weaken; [done|]. simpl. intros. lia. }
  assert (HxF : F !! x = None).
  { destruct (F !! x) as [s|] eqn:EF; [|done]. apply HF in EF. lia. }
  destruct (hmem_addfree m4 NL C' F heap x (z - x) eq_refl Hm4 Hx' HxF) as (m5 & E5 & Hm5 & Hd5).
  exists m5, (<[x := z - x]> F). split_and!; [done..| |].
  - intros f c Hf Hfu. destruct (lead_frees f c Hf Hfu) as [->|(? & ?)].
    + rewrite Hx' in Hf. simplify_eq. by rewrite lookup_insert_eq.
    + by rewrite lookup_insert_ne by lia.
  - apply (differ_trans _ _ _ _ _ _ Hd Hd5); [intros b Hb; by right; right|].
    intros b [?|(f & t & [[<- <-]|[? Hf]]%lookup_insert_Some & ?)]; [by left|right; right; lia|].
    right; left. exists f, (Chunk t false None). split_and!; [by apply (hmem_free _ _ _ _ Hm)|done|lia..].
Qed.

Lemma lead_done S E a l cl :
  tiled S E C -> compact C ->
  (forall b c, C !! b = Some c -> x <= b < y -> c_used c = true -> 16 <= c_size c /\ b = a) -> x <= a < y ->
  C !! l = Some cl -> l ∉ E -> l + c_size cl = y ->
  tiled S E C' /\ compact C' /\ used C' = <[z := y - z]> (delete a (used C)).
Proof.
  intros Ht Hc Hin Ha Hcl HlE Hly. pose proof lead_order as (? & ?). pose proof lead_run as Hr.
  destruct (run_done NL S E C x y (new2 x z y false true None) None None cx cy l cl) as [Ht' Hc'];
    try done; [by eapply hmem_geo|lia|intros; by eapply Hin|by apply new2_compact;
      [lia|right]|by left|by left|].
  split_and!; [done..|]. apply (used_new2_ft NL); try done; [|lia].
  intros b s [q Hb]%used_Some Hby. by destruct (Hin _ _ Hb Hby).
Qed.
End lead.

(** ** One used chunk *)

Section whole.
Context (m1 m4 : mem) (heap : mm_heap_s) (C : chunks) (F : gmap Z Z) (x y : Z) (cx cy : chunk) (p : option Z).
Abbreviation NL := (mm_nodelist heap).
Context (Hm : hmem m1 NL C F) (Hx : C !! x = Some cx) (Hp : c_prev cx = p).
Context (Hy : C !! y = Some cy) (Hroom : room NL x y).
Context (Hmap : mapped m1 x y) (HF : forall f s, F !! f = Some s -> ~ (x <= f < y)).
Context (Hl : forall f c, C !! f = Some c -> c_used c = false -> ~ (x <= f < y) -> F !! f = Some (c_size c)).
Context (Hd : differ (fun b => x + 4 <= b < x + 8 \/ y + 4 <= b < y + 8) m1 m4).
Context (Wx : ld m4 (o_size x) = Some (hdr (y - x) true (pf p))).
Context (Wy : ld m4 (o_size y) = Some (hdr (c_size cy) (c_used cy) false)).

Abbreviation C' := (refit x y (new1 x y true p) None C).

Lemma whole_run : x + 16 <= y /\ run NL x y (new1 x y true p) p None.
Proof. split; [destruct Hroom as (_ & _ & _ & ? & _); lia|exact (run1 NL x y true p Hroom)]. Qed.

Lemma whole_listed : hmem m4 NL C' F /\ listed C' F /\ C' !! x = Some (Chunk (y - x) true p).
Proof.
  destruct whole_run as [? Hr]. split_and!.
  - change None with (mark true (y - x)). eapply (hmem_refit1 m1); try done.
    eapply differ_weaken; [done|]. simpl. intros. lia.
  - intros f c Hf Hfu.
    apply (refit_lookup NL x y C _ p) in Hf as [[_ Hf]|[[-> (cy' & Hf & ->)]|[? Hf]]]; [..|done|lia].
    + unfold new1 in Hf. apply lookup_singleton_Some in Hf as [_ <-]. done.
    + apply (Hl _ _ Hf); [done|lia].
    + apply Hl; [done..|lia].
  - apply (refit_new NL x y C _ p None Hr); [lia|]. unfold new1. by rewrite lookup_singleton_eq.
Qed.

Lemma whole_done S E a l cl :
  tiled S E C -> compact C ->
  (forall b c, C !! b = Some c -> x <= b < y -> c_used c = true -> 16 <= c_size c /\ b = a) -> x <= a < y ->
  C !! l = Some cl -> l ∉ E -> l + c_size cl = y ->
  tiled S E C' /\ compact C' /\ used C' = <[x := y - x]> (delete a (used C)).
Proof.
  intros Ht Hc Hin Ha Hcl HlE Hly. destruct whole_run as [? Hr].
  destruct (run_done NL S E C x y (new1 x y true p) p None cx cy l cl) as [Ht' Hc'];
    try done; [by eapply hmem_geo|lia|intros; by eapply Hin|apply new1_compact; lia|by left| |].
  { right. unfold new1. intros c [_ <-]%lookup_singleton_Some. done. }
  split_and!; [done..|]. apply (used_new1 NL); try done; [|lia].
  intros b s [q Hb]%used_Some Hby. by destruct (Hin _ _ Hb Hby).
Qed.
End whole.

(** ** Taking a free node *)

(** Stores into a run that is mapped. *)
Ltac map_run := repeat apply wr_mapped; first [map_hdr | eapply mapped_sub; [eassumption|olia..]].
Ltac drun := repeat first [apply differ_refl | apply differ_wr; [ |map_run|intros; olia]].

Lemma hdr_plain s : hdr s false false = s.
Proof. unfold hdr, b2z. lia. Qed.

Section take.
Context (m : mem) (h : mm_heap_s) (C : chunks) (F : gmap Z Z) (x t al : Z).
Abbreviation NL := (mm_nodelist h).
Abbreviation ST := (mm_heapstart h).
Abbreviation EN := (mm_heapend h).
Context (Hm : hmem m NL C F) (Hl : listed C F) (Ht : tiled ST EN C) (Hc : compact C).
Context (Hx : F !! x = Some t) (Hal : 16 <= al <= t) (Hal8 : al mod 8 = 0).

(** What is known about the node and the chunk after it. *)
Lemma take_facts : exists cy,
  C !! x = Some (Chunk t false None) /\ C !! (x + t) = Some cy /\ c_used cy = true /\
  c_prev cy = Some t /\ (x ∉ EN) /\ room NL x (x + t) /\
  (forall b c, C !! b = Some c -> x <= b < x + t -> b = x).
Proof.
  pose proof (hmem_free _ _ _ _ Hm _ _ Hx) as Hcx.
  destruct (inner_chunk _ _ _ _ _ Ht Hcx ltac:(done)) as [_ HxE].
  destruct (t_next _ _ _ Ht _ _ Hcx HxE) as (cy & Hy & Hpy). simpl in *.
  destruct (Hc _ _ _ Hcx Hy) as [|Hu]; [done|].
  pose proof (hmem_place _ _ _ _ Hm _ _ Hcx) as (? & ? & ? & ? & ? & ? & ?). simpl in *.
  exists cy. split_and!; try done; [unfold room; split_and!; lia || zlia|].
  intros b c Hb Hbt. by eapply (geo_inside NL C x); [by eapply hmem_geo|done..].
Qed.

(** What [take_node] does after the node left the list, in both cases. *)
Lemma take_split m1 :
  hmem m1 NL C (delete x F) -> differ (touch NL C x (x + t)) m m1 -> 16 <= t - al -> exists m5 C' F',
  (m ← st m1 (o_size (x + al)) (t - al); w ← ld m (o_size x);
   m ← st m (o_size x) (Z.lor al (Z.land w MM_MASK_BIT)); m ← st m (o_preceding (x + t)) (t - al);
   mm_addfreechunk m h (x + al)) = Some m5 /\
  let m' := wr m5 (o_size x) (hdr al true false) in
  ld m5 (o_size x) = Some (hdr al false false) /\ st m5 (o_size x) (hdr al true false) = Some m' /\
  hmem m' NL C' F' /\ listed C' F' /\ tiled ST EN C' /\ compact C' /\
  used C' = <[x := al]> (used C) /\ C' !! x = Some (Chunk al true None) /\
  differ (touch NL C x (x + t)) m m'.
Proof.
  intros Hm1 Hd1 Hsp. destruct take_facts as (cy & Hcx & Hy & Huy & Hpy & HxE & Hroom & Hspan).
  pose proof Hroom as (? & ? & ? & ? & ? & ?).
  destruct (hmem_size _ _ _ _ Hm1 _ _ Hcx) as [Ex Ex4]. simpl in Ex, Ex4.
  destruct (hmem_words _ _ _ _ Hm1 _ _ Hcx) as (_ & _ & Hmx). simpl in Hmx.
  remember (x + al) as z eqn:Ez. remember (x + t) as y eqn:Ey. assert (al = z - x) as -> by lia.
  rewrite st_ok by map_run. bnd.
  assert (ld (wr m1 (o_size z) (t - (z - x))) (o_size x) = Some (hdr t false false)) as -> by by ldw. bnd.
  rewrite mask_hdr, set_size_hdr by (done || zlia). rewrite st_ok by map_run. bnd.
  rewrite st_ok by map_run. bnd.
  assert (Hr1 : room NL x z) by (unfold room; split_and!; lia || zlia).
  assert (Hr2 : room NL z y) by (unfold room; split_and!; lia || zlia).
  replace (t - (z - x)) with (y - z) by lia.
  match goal with |- context [ mm_addfreechunk ?m4 h z ] =>
    destruct (rest_listed m1 m4 h C (delete x F) x z y (Chunk t false None) cy None (hdr (z - x) false false))
      as (m5 & F' & E5 & W5 & Mp5 & Hl5 & Hd5 & Hm6); try done end.
  { intros f s [Hfx Hf]%lookup_delete_Some Hin. apply (hmem_free _ _ _ _ Hm) in Hf. by apply Hspan in Hf. }
  { intros f c Hf Hfu Hfx. rewrite lookup_delete_ne by lia. by apply Hl. }
  { drun. }
  { ldw. rewrite hdr_u32 by (lia || zlia). done. }
  { ldw. by rewrite hdr_plain, u32_small by lia. }
  { ldw. destruct (hmem_size _ _ _ _ Hm1 _ _ Hy) as [-> _]. by rewrite Hpy, Huy. }
  { ldw. f_equal. rewrite u32_small; lia. }
  destruct (rest_done m1 h C (delete x F) x z y (Chunk t false None) cy None Hm1 Hcx eq_refl Hy Huy Hr1 Hr2
    ST EN x x (Chunk t false None)) as (Ht' & Hc' & Hu'); try done; [|lia|].
  { intros b c Hb Hby Hu. apply Hspan in Hb as ?; [|done]. subst b. by simplify_eq. }
  rewrite insert_delete_eq in Hu'. rewrite E5. eexists _, _, F'. split; [done|].
  assert (Hd6 : differ (fun b => x + 4 <= b < x + 8) m5 (wr m5 (o_size x) (hdr (z - x) true false)))
    by (apply differ_wr; [apply differ_refl|done|intros; olia]).
  split_and!; try done; [by apply st_ok|apply Hm6; [done|]| |].
  - by rewrite ld_wr_eq, hdr_u32 by (lia || zlia).
  - by destruct (rest_lookup h C x z y None Hr1 Hr2).
  - apply (differ_trans _ (touch NL C x y)) with (1 := Hd1); [|done..].
    apply (differ_trans _ _ _ _ _ _ Hd5 Hd6); [intros b; apply touch2_touch; lia|].
    intros b Hb. right; right. simpl in Hb. lia.
Qed.

Lemma take_whole m1 :
  hmem m1 NL C (delete x F) -> differ (touch NL C x (x + t)) m m1 -> t - al < 16 ->
  exists cy m2 C', C !! (x + t) = Some cy /\
  st m1 (o_size (x + t)) (Z.land (hdr (c_size cy) true true) (Z.lnot MM_PREVFREE_BIT)) = Some m2 /\
  let m' := wr m2 (o_size x) (hdr t true false) in
  ld m2 (o_size x) = Some (hdr t false false) /\ st m2 (o_size x) (hdr t true false) = Some m' /\
  hmem m' NL C' (delete x F) /\ listed C' (delete x F) /\ tiled ST EN C' /\ compact C' /\
  used C' = <[x := t]> (used C) /\ C' !! x = Some (Chunk t true None) /\
  differ (touch NL C x (x + t)) m m'.
Proof.
  intros Hm1 Hd1 Hsp. destruct take_facts as (cy & Hcx & Hy & Huy & Hpy & HxE & Hroom & Hspan).
  pose proof Hroom as (? & ? & ? & ? & ? & ?).
  destruct (hmem_size _ _ _ _ Hm1 _ _ Hcx) as [Ex Ex4]. destruct (hmem_size _ _ _ _ Hm1 _ _ Hy) as [Ey Ey4].
  destruct (hmem_words _ _ _ _ Hm1 _ _ Hcx) as (_ & _ & Hmx). simpl in Ex, Ex4, Hmx.
  pose proof (hmem_place _ _ _ _ Hm _ _ Hy) as (_ & _ & ? & ? & ? & _).
  remember (x + t) as y eqn:Ety. assert (t = y - x) as -> by lia.
  set (m2 := wr m1 (o_size y) (hdr (c_size cy) true false)).
  set (m' := wr m2 (o_size x) (hdr (y - x) true false)).
  assert (Hd6 : differ (fun b => x + 4 <= b < x + 8 \/ y + 4 <= b < y + 8) m1 m') by (unfold m', m2; drun).
  destruct (whole_listed m1 m' h C (delete x F) x y (Chunk (y - x) false None) cy None) as (Hm' & Hl' & Hx');
    try done.
  { intros f s [Hfx Hf]%lookup_delete_Some Hin. apply (hmem_free _ _ _ _ Hm) in Hf. by apply Hspan in Hf. }
  { intros f c Hf Hfu Hfx. rewrite lookup_delete_ne by lia. by apply Hl. }
  { unfold m'. by rewrite ld_wr_eq, hdr_u32 by (lia || zlia). }
  { unfold m', m2. ldw. by rewrite hdr_u32, Huy by (lia || zlia). }
  destruct (whole_done m1 h C (delete x F) x y (Chunk (y - x) false None) cy None Hm1 Hcx eq_refl Hy Hroom
    ST EN x x (Chunk (y - x) false None)) as (Ht' & Hc' & Hu'); try done; [|lia|].
  { intros b c Hb Hby Hu. apply Hspan in Hb as ?; [|done]. subst b. by simplify_eq. }
  rewrite insert_delete_eq in Hu'. eexists cy, m2, _. cbv zeta. split_and!; try done.
  - rewrite clear_prevfree_hdr by done. by rewrite (hmem_st_size _ _ _ _ Hm1 _ _ _ Hy).
  - unfold m2. by ldw.
  - unfold m2. rewrite st_ok by map_run. done.
  - apply (differ_trans _ _ _ _ _ _ Hd1 Hd6); [done|]. intros b Hb. right; right. simpl in Hb. lia.
Qed.

Lemma take_node_spec : exists s m' C' F',
  take_node m h x t al = Some (x + 8, m', track_maxused (add_curused s h)) /\
  hmem m' NL C' F' /\ listed C' F' /\ tiled ST EN C' /\ compact C' /\
  used C' = <[x := s]> (used C) /\ used C !! x = None /\ al <= s < al + 16 /\
  C' !! x = Some (Chunk s true None) /\ differ (touch NL C x (x + t)) m m'.
Proof.
  destruct take_facts as (cy & Hcx & Hy & Huy & Hpy & HxE & Hroom & Hspan).
  pose proof Hroom as (? & ? & ? & ? & ? & ?).
  assert (Hux : used C !! x = None).
  { destruct (used C !! x) eqn:E; [|done]. apply used_Some in E as [q Hq]. by simplify_eq. }
  destruct (hmem_unlink _ _ _ _ _ _ Hm Hx) as (m1 & E1 & Hm1 & Hd1).
  apply differ_weaken with (Q := touch NL C x (x + t)) in Hd1; [|intros b; apply lzone_touch, Hm].
  unfold take_node. rewrite E1. bnd.
  destruct (hmem_size _ _ _ _ Hm1 _ _ Hy) as [Ey Ey4]. rewrite Ey. bnd.
  rewrite (hmem_prec _ _ _ _ Hm1 _ _ t Hy) by done. bnd.
  rewrite Hpy, Huy. cbn [pf]. destruct (hdr_used (c_size cy) true true Ey4) as (_ & -> & _ & _ & ->).
  rewrite Z.eqb_refl. cbn [andb dassert]. bnd. rewrite (u32_small (t - al)) by lia.
  assert (t mod 4 = 0 /\ al mod 4 = 0) as [Ht4 Hal4] by (split; zlia).
  unfold MM_MIN_CHUNK. destruct (Z.leb_spec 16 (t - al)) as [Hsp|Hsp].
  - destruct (take_split m1 Hm1 Hd1 Hsp) as (m5 & C' & F' & E5 & W5 & S5 & Hrest).
    rewrite E5. bnd. rewrite W5. bnd. rewrite set_alloc_hdr, S5, sizeof_hdr by done. bnd.
    eexists al, _, C', F'. split; [done|]. destruct Hrest as (?&?&?&?&?&?&?). split_and!; try done; lia.
  - destruct (take_whole m1 Hm1 Hd1 Hsp) as (cy' & m2 & C' & Hy' & E2 & W5 & S5 & Hrest).
    simplify_eq. rewrite E2. bnd. rewrite W5. bnd. rewrite set_alloc_hdr, S5, sizeof_hdr by done. bnd.
    eexists t, _, C', _. split; [done|]. destruct Hrest as (?&?&?&?&?&?&?). split_and!; try done; lia.
Qed.
End take.

(** ** Shrinking *)

Lemma gran_mask k : k mod 8 = 0 -> (Z.land k MM_GRAN_MASK =? 0) = true.
Proof.
  intros Hk. unfold MM_GRAN_MASK. change 7 with (Z.ones 3). rewrite Z.land_ones by lia.
  change (2 ^ 3) with 8. by rewrite Hk.
Qed.

(** The chunks in a run of two. *)
Lemma span_two H C a s u p sd v q b c :
  geo H C -> C !! a = Some (Chunk s u p) -> C !! (a + s) = Some (Chunk sd v q) ->
  C !! b = Some c -> a <= b < a + s + sd -> b = a \/ b = a + s.
Proof.
  intros Hg Ha Hn Hb Hab. destruct (decide (b < a + s)).
  - left. eapply (geo_inside H C a); [done..|simpl; lia].
  - right. eapply (geo_inside H C (a + s)); [done..|simpl; lia].
Qed.

Section shrink.
Context (m : mem) (h : mm_heap_s) (C : chunks) (F : gmap Z Z) (a s k : Z) (p : option Z).
Abbreviation NL := (mm_nodelist h).
Abbreviation ST := (mm_heapstart h).
Abbreviation EN := (mm_heapend h).
Context (Hm : hmem m NL C F) (Hl : listed C F) (Ht : tiled ST EN C) (Hc : compact C).
Context (Ha : C !! a = Some (Chunk s true p)) (Hk : 16 <= k <= s) (Hk8 : k mod 8 = 0).

(** The state after the rest from [a + k] to [y] was freed. *)
Lemma shrink_done m1 m4 F1 y cy l cl :
  hmem m1 NL C F1 -> differ (touch2 NL C a (a + k) y) m m1 ->
  C !! y = Some cy -> c_used cy = true -> room NL a y -> a + k + 16 <= y -> mapped m1 a y ->
  (forall f s, F1 !! f = Some s -> ~ (a <= f < y)) ->
  (forall f c, C !! f = Some c -> c_used c = false -> ~ (a <= f < y) -> F1 !! f = Some (c_size c)) ->
  (forall b c, C !! b = Some c -> a <= b < y -> b = a \/ c_used c = false) ->
  C !! l = Some cl -> l ∉ EN -> l + c_size cl = y ->
  differ (fun b => a + 4 <= b < a + 8 \/ a + k + 4 <= b < y + 8) m1 m4 ->
  ld m4 (o_size a) = Some (hdr k true (pf p)) ->
  ld m4 (o_size (a + k)) = Some (hdr (y - (a + k)) false false) ->
  ld m4 (o_size y) = Some (hdr (c_size cy) true true) ->
  ld m4 (o_preceding y) = Some (y - (a + k)) ->
  exists m' C' F', mm_addfreechunk m4 h (a + k) = Some m' /\
  hmem m' NL C' F' /\ listed C' F' /\ tiled ST EN C' /\ compact C' /\
  used C' = <[a := k]> (used C) /\ C' !! a = Some (Chunk k true p) /\
  keeps m m' C EN a /\ (forall i, a + 8 <= i < a + k + 4 -> m' !! i = m !! i).
Proof.
  intros Hm1 Hd1 Hy Huy Hroom Hky Hmp HF1 Hl1 Hspan Hcl HlE Hly Hd4 Wx Wz Wy Wp.
  pose proof Hroom as (? & ? & ? & ? & ? & ?).
  pose proof (hmem_geo _ _ _ _ Hm) as Hg.
  destruct (inner_chunk _ _ _ _ _ Ht Ha ltac:(simpl; lia)) as [_ HaE].
  destruct (t_next _ _ _ Ht _ _ Ha HaE) as (d & Hd & _). simpl in Hd.
  remember (a + k) as z eqn:Ez. assert (k = z - a) as -> by lia.
  assert (Hr1 : room NL a z) by (unfold room; split_and!; lia || zlia).
  assert (Hr2 : room NL z y) by (unfold room; split_and!; lia || zlia).
  destruct (rest_listed m1 m4 h C F1 a z y (Chunk s true p) cy p (hdr (z - a) true (pf p)))
    as (m5 & F' & E5 & W5 & Mp5 & Hl5 & Hd5 & Hm6); try done.
  destruct (rest_done m1 h C F1 a z y (Chunk s true p) cy p Hm1 Ha eq_refl Hy Huy Hr1 Hr2
    ST EN a l cl) as (Ht' & Hc' & Hu'); try done; [|lia|].
  { intros b c Hb Hby Hu. destruct (Hspan _ _ Hb Hby) as [->|]; [|congruence]. simplify_eq. simpl. lia. }
  rewrite insert_delete_eq in Hu'.
  assert (Hdf : differ (touch2 NL C a z y) m m5) by (eapply differ_trans; [exact Hd1|exact Hd5|done..]).
  exists m5, (refit a y (new2 a z y true false p) (Some (y - z)) C), F'.
  split_and!; try done.
  - apply Hm6; [apply differ_refl|done].
  - by destruct (rest_lookup h C a z y p Hr1 Hr2).
  - eapply (differ_keeps _ _ NL ST EN C a y); [done..|by eexists|by eexists|lia| |].
    + intros b c Hb Hu Hby. destruct (Hspan _ _ Hb Hby); [done|congruence].
    + eapply differ_weaken; [done|]. intros b. apply touch2_touch; lia.
  - intros i Hi. apply Hdf. apply (touch2_self NL C a z y i s p); [done..|lia|by exists d].
Qed.

Lemma shrink_next_free m1 sd :
  C !! (a + s) = Some (Chunk sd false None) -> hmem m1 NL C (delete (a + s) F) ->
  differ (lzone NL F) m m1 -> exists m' C' F',
  (m ← st m1 (o_size (a + k)) (u32 (sd + s - k)); w ← ld m (o_size a);
   m ← st m (o_size a) (Z.lor k (Z.land w MM_MASK_BIT)); ws ← ld m (o_size (a + k));
   m ← st m (o_preceding (a + s + sd)) ws; mm_addfreechunk m h (a + k)) = Some m' /\
  hmem m' NL C' F' /\ listed C' F' /\ tiled ST EN C' /\ compact C' /\
  used C' = <[a := k]> (used C) /\ C' !! a = Some (Chunk k true p) /\
  keeps m m' C EN a /\ (forall i, a + 8 <= i < a + k + 4 -> m' !! i = m !! i).
Proof.
  intros Hn Hm1 Hd1. pose proof (hmem_geo _ _ _ _ Hm) as Hg.
  destruct (inner_chunk _ _ _ _ _ Ht Hn ltac:(done)) as [_ HnE].
  destruct (t_next _ _ _ Ht _ _ Hn HnE) as (cy & Hy & Hpy). simpl in Hy, Hpy.
  destruct (Hc _ _ _ Hn Hy) as [|Huy]; [done|].
  pose proof (hmem_place _ _ _ _ Hm _ _ Ha) as (? & ? & _ & ? & ? & _ & ?). simpl in *.
  pose proof (hmem_place _ _ _ _ Hm _ _ Hn) as (_ & _ & _ & ? & ? & Hs & ?). simpl in *.
  specialize (Hs eq_refl).
  pose proof (hmem_place _ _ _ _ Hm _ _ Hy) as (_ & _ & ? & ? & ? & _ & ?).
  destruct (hmem_size _ _ _ _ Hm1 _ _ Ha) as [Ea Ea4]. simpl in Ea, Ea4.
  destruct (hmem_size _ _ _ _ Hm1 _ _ Hy) as [Ey Ey4].
  destruct (hmem_words _ _ _ _ Hm1 _ _ Ha) as (_ & _ & Ma).
  destruct (hmem_words _ _ _ _ Hm1 _ _ Hn) as (_ & _ & Mn).
  simpl in Ma, Mn. pose proof (mapped_join _ _ _ _ Ma Mn) as Mp.
  rewrite (u32_small (sd + s - k)) by lia. rewrite st_ok by map_run. bnd.
  assert (ld (wr m1 (o_size (a + k)) (sd + s - k)) (o_size a) = Some (hdr s true (pf p))) as -> by by ldw.
  bnd.
  rewrite mask_hdr, set_size_hdr by (done || zlia). rewrite st_ok by map_run. bnd.
  set (m3 := wr _ (o_size a) _).
  assert (ld m3 (o_size (a + k)) = Some (sd + s - k)) as ->
    by (unfold m3; ldw; f_equal; apply u32_small; lia). bnd.
  unfold m3. rewrite st_ok by map_run. bnd.
  eapply (shrink_done m1 _ (delete (a + s) F) (a + s + sd) cy (a + s)); try done; try lia.
  - eapply differ_weaken; [done|]. intros b Hb. eapply lzone_touch with (x := a) (y := a) in Hb; [|apply Hm].
    destruct Hb as [?|[?|?]]; [by left|by right; left|right; right; lia].
  - unfold room. split_and!; lia || zlia.
  - intros f t [Hfn Hf]%lookup_delete_Some Hin. apply (hmem_free _ _ _ _ Hm) in Hf.
    destruct (span_two _ _ _ _ _ _ _ _ _ _ _ Hg Ha Hn Hf Hin) as [->|]; [by simplify_eq|done].
  - intros f c Hf Hfu Hin. rewrite lookup_delete_ne by lia. by apply Hl.
  - intros b c Hb Hin. destruct (span_two _ _ _ _ _ _ _ _ _ _ _ Hg Ha Hn Hb Hin) as [->| ->]; [by left|right].
    by simplify_eq.
  - drun.
  - ldw. by rewrite hdr_u32 by (lia || zlia).
  - ldw. rewrite hdr_plain, u32_small by lia. f_equal. lia.
  - ldw. by rewrite Ey, Huy, Hpy.
  - ldw. f_equal. rewrite u32_small by lia. lia.
Qed.

Lemma shrink_next_used d :
  C !! (a + s) = Some d -> c_used d = true -> k + 16 <= s -> exists m' C' F',
  (m ← st m (o_size (a + k)) (u32 (s - k)); w ← ld m (o_size a);
   m ← st m (o_size a) (Z.lor k (Z.land w MM_MASK_BIT)); wn ← ld m (o_size (a + s));
   m ← st m (o_size (a + s)) (Z.lor wn MM_PREVFREE_BIT); ws ← ld m (o_size (a + k));
   m ← st m (o_preceding (a + s)) ws; mm_addfreechunk m h (a + k)) = Some m' /\
  hmem m' NL C' F' /\ listed C' F' /\ tiled ST EN C' /\ compact C' /\
  used C' = <[a := k]> (used C) /\ C' !! a = Some (Chunk k true p) /\
  keeps m m' C EN a /\ (forall i, a + 8 <= i < a + k + 4 -> m' !! i = m !! i).
Proof.
  intros Hn Hu Hks. pose proof (hmem_geo _ _ _ _ Hm) as Hg.
  destruct (inner_chunk _ _ _ _ _ Ht Ha ltac:(simpl; lia)) as [_ HaE].
  destruct (t_next _ _ _ Ht _ _ Ha HaE) as (d' & Hd' & Hpd). simpl in Hd', Hpd. simplify_eq.
  pose proof (hmem_place _ _ _ _ Hm _ _ Ha) as (? & ? & _ & ? & ? & _ & ?). simpl in *.
  pose proof (hmem_place _ _ _ _ Hm _ _ Hn) as (_ & _ & ? & ? & ? & _ & ?).
  destruct (hmem_size _ _ _ _ Hm _ _ Ha) as [Ea Ea4]. simpl in Ea, Ea4.
  destruct (hmem_size _ _ _ _ Hm _ _ Hn) as [Ey Ey4]. rewrite Hu, Hpd in Ey.
  destruct (hmem_words _ _ _ _ Hm _ _ Ha) as (_ & _ & Mp). simpl in Mp.
  rewrite (u32_small (s - k)) by lia. rewrite st_ok by map_run. bnd.
  assert (ld (wr m (o_size (a + k)) (s - k)) (o_size a) = Some (hdr s true (pf p))) as -> by by ldw. bnd.
  rewrite mask_hdr, set_size_hdr by (done || zlia). rewrite st_ok by map_run. bnd.
  set (m2 := wr _ (o_size a) _).
  assert (ld m2 (o_size (a + s)) = Some (hdr (c_size d) true false)) as -> by (unfold m2; by ldw). bnd.
  unfold m2. rewrite set_prevfree_hdr, st_ok by (done || map_run). bnd.
  set (m3 := wr _ (o_size (a + s)) _).
  assert (ld m3 (o_size (a + k)) = Some (s - k)) as -> by (unfold m3; ldw; f_equal; apply u32_small; lia).
  bnd.
  unfold m3. rewrite st_ok by map_run. bnd.
  eapply (shrink_done m _ F (a + s) d a (Chunk s true p)); try done; try lia.
  - unfold room. split_and!; lia || zlia.
  - intros f t Hf Hin. apply (hmem_free _ _ _ _ Hm) in Hf.
    assert (f = a) as -> by (by eapply (geo_inside NL C a)). by simplify_eq.
  - intros f c Hf Hfu Hin. by apply Hl.
  - intros b c Hb Hin. left. by eapply (geo_inside NL C a).
  - drun.
  - ldw. by rewrite hdr_u32 by (lia || zlia).
  - ldw. rewrite hdr_plain, u32_small by lia. f_equal. lia.
  - ldw. by rewrite hdr_u32 by (lia || zlia).
  - ldw. f_equal. rewrite u32_small by lia. lia.
Qed.

Lemma shrinkchunk_spec : exists m' C' F' k', mm_shrinkchunk m h a k = Some m' /\
  hmem m' NL C' F' /\ listed C' F' /\ tiled ST EN C' /\ compact C' /\
  used C' = <[a := k']> (used C) /\ C' !! a = Some (Chunk k' true p) /\
  (k' = k \/ (k' = s /\ s - k < 16)) /\
  keeps m m' C EN a /\ (forall i, a + 8 <= i < a + k + 4 -> m' !! i = m !! i).
Proof.
  destruct (inner_chunk _ _ _ _ _ Ht Ha ltac:(simpl; lia)) as [_ HaE].
  destruct (t_next _ _ _ Ht _ _ Ha HaE) as (d & Hd & Hpd). simpl in Hd, Hpd.
  pose proof (hmem_place _ _ _ _ Hm _ _ Ha) as (? & ? & _ & ? & ? & _ & ?). simpl in *.
  destruct (hmem_size _ _ _ _ Hm _ _ Ha) as [Ea Ea4]. simpl in Ea, Ea4.
  destruct (hmem_size _ _ _ _ Hm _ _ Hd) as [Ed Ed4]. rewrite Hpd in Ed. cbn [pf] in Ed.
  unfold mm_shrinkchunk. rewrite Ea. bnd. destruct (hdr_used s true (pf p) Ea4) as (-> & _).
  rewrite gran_mask by done. cbn [dassert]. bnd. rewrite Ed. bnd.
  destruct (hdr_used (c_size d) (c_used d) false Ed4) as (-> & _ & -> & _).
  destruct d as [sd [] pd]; simpl in *; subst pd.
  - pose proof (hmem_geo _ _ _ _ Hm) as (? & ? & _).
    rewrite (u32_small (k + MM_MIN_CHUNK)) by (unfold MM_MIN_CHUNK; lia). unfold MM_MIN_CHUNK.
    destruct (Z.leb_spec (k + 16) s) as [Hks|Hks].
    + destruct (shrink_next_used _ Hd eq_refl Hks) as (m' & C' & F' & E & ?&?&?&?&?&?&?&?).
      exists m', C', F', k. split_and!; try done. by left.
    + exists m, C, F, s. split_and!; try done; [|right; split; [done|lia]].
      symmetry. apply insert_id, used_Some. eauto.
  - assert (HF : F !! (a + s) = Some sd) by (by apply (Hl _ _ Hd)).
    destruct (inner_chunk _ _ _ _ _ Ht Hd ltac:(done)) as [_ HnE].
    destruct (t_next _ _ _ Ht _ _ Hd HnE) as (cy & Hy & Hpy). simpl in Hy, Hpy.
    destruct (hmem_size _ _ _ _ Hm _ _ Hy) as [-> Ey4]. bnd. rewrite Hpy. cbn [pf].
    destruct (hdr_used (c_size cy) (c_used cy) true Ey4) as (_ & _ & _ & _ & ->). cbn [dassert]. bnd.
    destruct (hmem_unlink _ _ _ _ _ _ Hm HF) as (m1 & -> & Hm1 & Hd1). bnd.
    destruct (shrink_next_free m1 sd Hd Hm1 Hd1) as (m' & C' & F' & E & ?&?&?&?&?&?&?&?).
    exists m', C', F', k. split_and!; try done. by left.
Qed.
End shrink.
