(* ===== verification/HeapMove.v ===== *)
(** * Moving the borders of a block

    The steps of [mm_memalign] and [mm_realloc] that change where a used chunk
    starts and ends: a part of it becomes free, or it takes a part of a free
    neighbour. *)

From S2P Require Import Prelude.
From stdpp Require Import gmap sorting.
From S2P Require Import Heap HeapList HeapInv HeapOps HeapAlloc.
Local Open Scope Z_scope.

(** ** Accounting

    The fields other than the counters stay, and [mm_curused] grows by [d]. *)
Record acct (d : Z) (h h' : mm_heap_s) : Prop := {
  ac_size : mm_heapsize h' = mm_heapsize h;
  ac_start : mm_heapstart h' = mm_heapstart h;
  ac_end : mm_heapend h' = mm_heapend h;
  ac_list : mm_nodelist h' = mm_nodelist h;
  ac_delay : mm_delaylist h' = mm_delaylist h;
  ac_used : u32 (mm_curused h') = u32 (mm_curused h + d);
  ac_range : 0 <= mm_curused h < 2 ^ 32 -> 0 <= mm_curused h' < 2 ^ 32;
}.

Lemma acct_refl h : acct 0 h h.
Proof. split; try done. by rewrite Z.add_0_r. Qed.

Lemma acct_add d h : acct d h (add_curused d h).
Proof. split; try done; [apply u32_small, u32_range|intros _; apply u32_range]. Qed.

Lemma acct_track h : acct 0 h (track_maxused h).
Proof. unfold track_maxused. destruct (_ <? _); split; rewrite ?Z.add_0_r; done. Qed.

Lemma acct_trans d1 d2 d h h1 h2 : acct d1 h h1 -> acct d2 h1 h2 -> d = d1 + d2 -> acct d h h2.
Proof.
  intros [] [] ->. split; try congruence; [|auto].
  etransitivity; [eassumption|]. rewrite <- u32_u32_add_l, ac_used0, u32_u32_add_l. f_equal. lia.
Qed.

Lemma acct_ok d h h' m C : acct d h h' -> heap_ok m h C -> heap_ok m h' C.
Proof. intros []. by apply heap_ok_fields. Qed.

Definition same_regions (h h' : mm_heap_s) : Prop :=
  mm_heapstart h' = mm_heapstart h /\ mm_heapend h' = mm_heapend h /\ mm_heapsize h' = mm_heapsize h.

Lemma acct_regions d v h h' : acct d (set_delaylist v h) h' -> same_regions h h'.
Proof. intros []. by split. Qed.

(** The counter after a call, which may have emptied the list of delayed blocks. *)
Definition booked (d : Z) (h h' : mm_heap_s) : Prop := acct d (set_delaylist (mm_delaylist h') h) h'.

Lemma booked_refl h : booked 0 h h.
Proof. unfold booked. destruct h. apply acct_refl. Qed.

Lemma booked_acct d v h h' : acct d (set_delaylist v h) h' -> booked d h h'.
Proof. intros Hac. unfold booked. pose proof (ac_delay _ _ _ Hac) as E.
cbn [mm_delaylist set_delaylist] in E. by rewrite E. Qed.

Lemma booked_regions d h h' : booked d h h' -> same_regions h h'.
Proof. apply acct_regions. Qed.

Lemma booked_trans d1 d2 d h h1 h2 : booked d1 h h1 -> acct d2 h1 h2 -> d = d1 + d2 -> booked d h h2.
Proof.
  intros H1 H2 Hd. unfold booked in *. rewrite (ac_delay _ _ _ H2). by eapply acct_trans.
Qed.

Lemma booked_booked d1 d2 d h h1 h2 : booked d1 h h1 -> booked d2 h1 h2 -> d = d1 + d2 -> booked d h h2.
Proof.
  intros H1 H2 Hd. unfold booked in *. eapply (acct_trans d1 d2 d); [|exact H2|done]. destruct H1. by split.
Qed.

(** ** What a step keeps *)

Lemma keeps_used m m' C E a : keeps m m' C E a <->
  dom m' = dom m /\ forall b s i, used C !! b = Some s -> b <> a -> b ∉ E ->
    b + 8 <= i < b + s + 4 -> m' !! i = m !! i.
Proof.
  split; intros [Hd Hk]; (split; [done|]).
  - intros b s i [q Hb]%used_Some. intros. by eapply (Hk b _ i Hb).
  - intros b [s u q] i Hb Hu Hne HE Hi. simpl in *. subst u. eapply (Hk b s); eauto. apply used_Some. eauto.
Qed.

Lemma keeps_refl m C E a : keeps m m C E a.
Proof. by split. Qed.

(** Two steps, the first of which moves the block from [a] to [z]. *)
Lemma keeps_trans m m1 m2 C C1 E a z k :
  keeps m m1 C E a -> used C1 = <[z := k]> (delete a (used C)) -> used C !! z = None \/ z = a ->
  keeps m1 m2 C1 E z -> keeps m m2 C E a.
Proof.
  rewrite !keeps_used. intros [Hd1 H1] HC1 Hz [Hd2 H2]. split; [congruence|].
  intros b s i Hb Hne HE Hi. transitivity (m1 !! i); [|by eapply H1].
  assert (b <> z) by (destruct Hz; congruence).
  eapply H2; [|done..]. by rewrite HC1, lookup_insert_ne, lookup_delete_ne by done.
Qed.

(** ** The start of a used chunk moves *)

Lemma touch3_self H C x w y b a s p :
  geo H C -> C !! a = Some (Chunk s true p) -> a + 8 <= b < a + s + 4 -> y = a + s -> w <= a + 8 ->
  (exists d, C !! y = Some d) -> ~ touch3 H C x w y b.
Proof.
  intros Hg Ha Hb -> Hw [d Hd]. pose proof (geo_place _ _ Hg _ _ Ha) as (_ & _ & ? & _ & _ & _ & ?).
  pose proof (geo_place _ _ Hg _ _ Hd) as (_ & _ & ? & _ & _ & _ & ?). simpl in *.
  intros [?|[(f & c & Hf & Hu & ?)|?]]; [lia| |lia].
  pose proof (geo_place _ _ Hg _ _ Hf) as (_ & _ & _ & _ & _ & Hf16 & _). specialize (Hf16 Hu).
  destruct (geo_apart _ _ Hg _ _ _ _ Ha Hf) as [->|[?|?]]; simpl in *; [by simplify_eq|lia|lia].
Qed.

Lemma lzone_touch3 H m C F x w y b : hmem m H C F -> lzone H F b -> touch3 H C x w y b.
Proof.
  intros Hm [?|(a & s & Ha & ?)]; [by left|]. right; left. apply (hmem_free _ _ _ _ Hm) in Ha.
  exists a, (Chunk s false None). auto.
Qed.

Section moved.
Context (m : mem) (h : mm_heap_s) (C : chunks) (F : gmap Z Z) (a s : Z) (p : option Z).
Abbreviation NL := (mm_nodelist h).
Abbreviation ST := (mm_heapstart h).
Abbreviation EN := (mm_heapend h).
Context (Hm : hmem m NL C F) (Hl : listed C F) (Ht : tiled ST EN C) (Hc : compact C).
Context (Ha : C !! a = Some (Chunk s true p)) (Hs : 16 <= s).

(** A block of [k] bytes at [z] takes the place of the one at [a]. *)
Definition moved (m' : mem) (C' : chunks) (z k : Z) (q : option Z) : Prop :=
  heap_ok m' h C' /\ used C' = <[z := k]> (delete a (used C)) /\ C' !! z = Some (Chunk k true q) /\
  keeps m m' C EN a.

(** The free node before the block is there again, with the border at [z]. *)
Lemma lead_moved m1 m4 F1 x z w cx cy :
  hmem m1 NL C F1 -> differ (lzone NL F) m m1 -> C !! x = Some cx -> c_prev cx = None ->
  C !! (a + s) = Some cy -> x <= a -> room NL x z -> room NL z (a + s) -> mapped m1 x (a + s) ->
  (forall b c, C !! b = Some c -> x <= b < a + s -> b = a \/ c_used c = false) ->
  (forall f t, F1 !! f = Some t -> ~ (x <= f < a + s)) ->
  (forall f c, C !! f = Some c -> c_used c = false -> ~ (x <= f < a + s) -> F1 !! f = Some (c_size c)) ->
  z + 8 <= w <= a + s + 8 ->
  differ (fun b => x + 4 <= b < w \/ a + s + 4 <= b < a + s + 8) m1 m4 ->
  ld m4 (o_size x) = Some (hdr (z - x) false false) ->
  ld m4 (o_size z) = Some (hdr (a + s - z) true true) -> ld m4 (o_preceding z) = Some (z - x) ->
  ld m4 (o_size (a + s)) = Some (hdr (c_size cy) (c_used cy) false) ->
  exists m' C', mm_addfreechunk m4 h x = Some m' /\ moved m' C' z (a + s - z) (Some (z - x)) /\
  C' !! (a + s) = Some (set_prev None cy) /\
  (w <= a + 8 -> forall i, a + 8 <= i < a + s + 4 -> m' !! i = m !! i).
Proof.
  intros Hm1 Hd1 Hx Hp Hy Hxa Hr1 Hr2 Hmp Hspan HF1 Hl1 Hw Hd4 Wx Wz Wp Wy.
  pose proof Hr1 as (? & ? & ? & ? & ? & ?). pose proof Hr2 as (_ & _ & ? & ? & ? & ?).
  pose proof (hmem_geo _ _ _ _ Hm) as Hg.
  destruct (inner_chunk _ _ _ _ _ Ht Ha ltac:(simpl; lia)) as [_ HaE].
  destruct (lead_listed m1 m4 h C F1 x z (a + s) w cx cy) as (m5 & F' & E5 & Hm5 & Hl5 & Hd5); try done.
  destruct (lead_done m1 h C F1 x z (a + s) cx cy Hm1 Hx Hp Hy Hr1 Hr2 ST EN a a (Chunk s true p))
    as (Ht' & Hc' & Hu'); try done; [|lia|].
  { intros b c Hb Hby Hu. destruct (Hspan _ _ Hb Hby) as [->|]; [|congruence]. simplify_eq. simpl. lia. }
  assert (Hdf : differ (touch3 NL C x w (a + s)) m m5).
  { eapply differ_trans; [exact Hd1|exact Hd5|intros b; by apply (lzone_touch3 _ m)|done]. }
  eexists m5, _. split; [done|]. split; [split_and!|split].
  - split; [by exists F'|exact Ht'|exact Hc'].
  - done.
  - by destruct (lead_lookup h C x z (a + s) Hr1 Hr2).
  - eapply (differ_keeps _ _ NL ST EN C x (a + s)); [done..|by eexists|by eexists|lia| |].
    + intros b c Hb Hu Hby. destruct (Hspan _ _ Hb Hby); [done|congruence].
    + eapply differ_weaken; [done|]. intros b. apply touch3_touch; lia.
  - eapply refit_y; [exact (lead_run h x z (a + s) Hr1 Hr2)|lia|done].
  - intros Hwa i Hi. apply Hdf. eapply touch3_self; [done..|by eexists].
Qed.

(** The block takes all of [x .. y). *)
Lemma whole_moved m1 m4 F1 x y cx cy q l cl :
  hmem m1 NL C F1 -> differ (lzone NL F) m m1 -> C !! x = Some cx -> c_prev cx = q ->
  C !! y = Some cy -> x <= a -> a + s <= y -> room NL x y -> mapped m1 x y ->
  (forall b c, C !! b = Some c -> x <= b < y -> b = a \/ c_used c = false) ->
  (forall f t, F1 !! f = Some t -> ~ (x <= f < y)) ->
  (forall f c, C !! f = Some c -> c_used c = false -> ~ (x <= f < y) -> F1 !! f = Some (c_size c)) ->
  C !! l = Some cl -> l ∉ EN -> l + c_size cl = y ->
  differ (fun b => x + 4 <= b < x + 8 \/ y + 4 <= b < y + 8) m1 m4 ->
  ld m4 (o_size x) = Some (hdr (y - x) true (pf q)) ->
  ld m4 (o_size y) = Some (hdr (c_size cy) (c_used cy) false) ->
  exists C', moved m4 C' x (y - x) q /\ C' !! y = Some (set_prev None cy) /\
  (forall i, a + 8 <= i < a + s + 4 -> m4 !! i = m !! i).
Proof.
  intros Hm1 Hd1 Hx Hp Hy Hxa Hay Hr Hmp Hspan HF1 Hl1 Hcl HlE Hly Hd4 Wx Wy.
  pose proof Hr as (? & ? & ? & ? & ? & ?). pose proof (hmem_geo _ _ _ _ Hm) as Hg.
  destruct (inner_chunk _ _ _ _ _ Ht Ha ltac:(simpl; lia)) as [_ HaE].
  destruct (t_next _ _ _ Ht _ _ Ha HaE) as (d & Hd & _). simpl in Hd.
  destruct (whole_listed m1 m4 h C F1 x y cx cy q) as (Hm4 & Hl4 & Hx4); try done.
  destruct (whole_done m1 h C F1 x y cx cy q Hm1 Hx Hp Hy Hr ST EN a l cl)
    as (Ht' & Hc' & Hu'); try done; [|lia|].
  { intros b c Hb Hby Hu. destruct (Hspan _ _ Hb Hby) as [->|]; [|congruence]. simplify_eq. simpl. lia. }
  assert (Hdf : differ (touch2 NL C x y y) m m4).
  { eapply differ_trans; [exact Hd1|exact Hd4| |].
    - intros b Hb. destruct (lzone_touch3 _ _ _ _ x 0 y _ Hm Hb) as [?|[?|?]]; [by left|by right; left|].
      right; right. lia.
    - intros b Hb. simpl in Hb. right; right. lia. }
  eexists. split; [split_and!|split].
  - split; [by eexists|exact Ht'|exact Hc'].
  - done.
  - done.
  - eapply (differ_keeps _ _ NL ST EN C x y); [done..|by eexists|by eexists|lia| |].
    + intros b c Hb Hu Hby. destruct (Hspan _ _ Hb Hby); [done|congruence].
    + eapply differ_weaken; [done|]. intros b. apply touch2_touch; lia.
  - eapply refit_y; [exact (proj2 (whole_run h x y q Hr))|lia|done].
  - intros i Hi. apply Hdf. pose proof (touch3_self NL C x (x + 8) (a + s) i a s p Hg Ha Hi eq_refl) as Hn.
    intros Hb. apply Hn; [lia|by eexists|]. destruct Hb as [?|[?|?]]; [by left|by right; left|].
    right; right. lia.
Qed.

(** The block ends at [z], and the rest of the free node after it is there again. *)
Lemma rest_moved m1 m4 F1 z y cy l cl :
  hmem m1 NL C F1 -> differ (lzone NL F) m m1 -> C !! y = Some cy -> c_used cy = true ->
  a + s <= z -> room NL a z -> room NL z y -> mapped m1 a y ->
  (forall b c, C !! b = Some c -> a <= b < y -> b = a \/ c_used c = false) ->
  (forall f t, F1 !! f = Some t -> ~ (a <= f < y)) ->
  (forall f c, C !! f = Some c -> c_used c = false -> ~ (a <= f < y) -> F1 !! f = Some (c_size c)) ->
  C !! l = Some cl -> l ∉ EN -> l + c_size cl = y ->
  differ (fun b => a + 4 <= b < a + 8 \/ z + 4 <= b < y + 8) m1 m4 ->
  ld m4 (o_size a) = Some (hdr (z - a) true (pf p)) ->
  ld m4 (o_size z) = Some (hdr (y - z) false false) ->
  ld m4 (o_size y) = Some (hdr (c_size cy) true true) -> ld m4 (o_preceding y) = Some (y - z) ->
  exists m' C', mm_addfreechunk m4 h z = Some m' /\ moved m' C' a (z - a) p /\
  (forall i, a + 8 <= i < a + s + 4 -> m' !! i = m !! i).
Proof.
  intros Hm1 Hd1 Hy Huy Hz Hr1 Hr2 Hmp Hspan HF1 Hl1 Hcl HlE Hly Hd4 Wx Wz Wy Wp.
  pose proof Hr1 as (? & ? & ? & ? & ? & ?). pose proof Hr2 as (_ & _ & ? & ? & ? & ?).
  pose proof (hmem_geo _ _ _ _ Hm) as Hg.
  destruct (inner_chunk _ _ _ _ _ Ht Ha ltac:(simpl; lia)) as [_ HaE].
  destruct (t_next _ _ _ Ht _ _ Ha HaE) as (d & Hd & _). simpl in Hd.
  destruct (rest_listed m1 m4 h C F1 a z y (Chunk s true p) cy p (hdr (z - a) true (pf p)))
    as (m5 & F' & E5 & W5 & Mp5 & Hl5 & Hd5 & Hm6); try done.
  destruct (rest_done m1 h C F1 a z y (Chunk s true p) cy p Hm1 Ha eq_refl Hy Huy Hr1 Hr2
    ST EN a l cl) as (Ht' & Hc' & Hu'); try done; [|lia|].
  { intros b c Hb Hby Hu. destruct (Hspan _ _ Hb Hby) as [->|]; [|congruence]. simplify_eq. simpl. lia. }
  assert (Hdf : differ (touch2 NL C a z y) m m5).
  { eapply differ_trans; [exact Hd1|exact Hd5| |done].
    intros b Hb. destruct (lzone_touch3 _ _ _ _ a 0 z _ Hm Hb) as [?|[?|?]]; [by left|by right; left|].
    right; right. lia. }
  eexists m5, _. split; [done|]. split; [split_and!|].
  - split; [exists F'|exact Ht'|exact Hc']. split; [|done]. apply Hm6; [apply differ_refl|done].
  - done.
  - by destruct (rest_lookup h C a z y p Hr1 Hr2).
  - eapply (differ_keeps _ _ NL ST EN C a y); [done..|by eexists|by eexists|lia| |].
    + intros b c Hb Hu Hby. destruct (Hspan _ _ Hb Hby); [done|congruence].
    + eapply differ_weaken; [done|]. intros b. apply touch2_touch; lia.
  - intros i Hi. apply Hdf. intros Hb. apply (touch2_self NL C a (a + s) y i s p Hg Ha); [lia..|by eexists|].
    destruct Hb as [?|[?|?]]; [by left|by right; left|]. right; right. lia.
Qed.
End moved.

(** ** Taking from the chunk before *)

Section prev.
Context (m : mem) (h : mm_heap_s) (C : chunks) (F : gmap Z Z) (a s r : Z).
Abbreviation NL := (mm_nodelist h).
Abbreviation ST := (mm_heapstart h).
Abbreviation EN := (mm_heapend h).
Context (Hm : hmem m NL C F) (Hl : listed C F) (Ht : tiled ST EN C) (Hc : compact C).
Context (Ha : C !! a = Some (Chunk s true (Some r))) (Hs : 16 <= s).

Lemma prev_facts : exists cy,
  C !! (a - r) = Some (Chunk r false None) /\ F !! (a - r) = Some r /\ C !! (a + s) = Some cy /\
  c_prev cy = None /\ room NL (a - r) a /\ room NL a (a + s) /\
  (forall b c, C !! b = Some c -> a - r <= b < a + s -> b = a \/ (b = a - r /\ c_used c = false)).
Proof.
  destruct (t_prev _ _ _ Ht _ _ r Ha eq_refl) as [q Hx].
  pose proof (free_prev_None _ _ _ _ _ Ht Hc Hx eq_refl) as Hq. simpl in Hq. subst q.
  destruct (inner_chunk _ _ _ _ _ Ht Ha ltac:(simpl; lia)) as [_ HaE].
  destruct (t_next _ _ _ Ht _ _ Ha HaE) as (cy & Hy & Hpy). simpl in Hy, Hpy.
  pose proof (hmem_place _ _ _ _ Hm _ _ Ha) as (? & ? & _ & ? & ? & _ & ?). simpl in *.
  pose proof (hmem_place _ _ _ _ Hm _ _ Hx) as (? & ? & _ & ? & ? & Hr & ?). simpl in *.
  specialize (Hr eq_refl).
  exists cy. split_and!; try done; [by apply (Hl _ _ Hx)|unfold room; split_and!; lia || zlia..|].
  intros b c Hb Hin. pose proof (hmem_geo _ _ _ _ Hm) as Hg.
  destruct (span_two NL C (a - r) r false None s true (Some r) b c) as [->|Hba]; try done.
  - by replace (a - r + r) with a by lia.
  - lia.
  - right. by simplify_eq.
  - left. lia.
Qed.

Context (tp : Z) (Htp : 0 < tp <= r) (Htp8 : tp mod 8 = 0).

Lemma take_prev_part m1 cy :
  unlink m (a - r) = Some m1 -> hmem m1 NL C (delete (a - r) F) -> differ (lzone NL F) m m1 ->
  C !! (a + s) = Some cy -> tp + 16 <= r ->
  exists m' C', take_prev m h a (a - r) s r tp = Some (a - tp, s + tp, m', h) /\
  moved m h C a m' C' (a - tp) (s + tp) (Some (r - tp)) /\ C' !! (a + s) = C !! (a + s) /\
  (forall i, a + 8 <= i < a + s + 4 -> m' !! i = m !! i).
Proof.
  intros E1 Hm1 Hd1 Hy Hsp. destruct prev_facts as (cy' & Hx & HF & Hy' & Hpy & Hr1 & Hr2 & Hspan).
  assert (cy' = cy) as -> by congruence.
  pose proof Hr1 as (? & ? & ? & ? & ? & ?). pose proof Hr2 as (_ & _ & ? & ? & ? & ?).
  unfold take_prev. rewrite E1. bnd. unfold MM_MIN_CHUNK. rewrite (u32_small (tp + 16)) by lia.
  rewrite (proj2 (Z.ltb_ge r (tp + 16))) by lia. cbv zeta. rewrite (proj2 (Z.ltb_lt tp r)) by lia.
  destruct (hmem_size _ _ _ _ Hm1 _ _ Hx) as [Ex Ex4]. simpl in Ex, Ex4. rewrite Ex. bnd.
  destruct (hmem_size _ _ _ _ Hm1 _ _ Hy) as [Ey Ey4]. rewrite Hpy in Ey. cbn [pf] in Ey.
  destruct (hmem_words _ _ _ _ Hm1 _ _ Ha) as (_ & _ & Ma).
  destruct (hmem_words _ _ _ _ Hm1 _ _ Hx) as (_ & _ & Mx).
  simpl in Ma, Mx. replace (a - r + r) with a in Mx by lia. pose proof (mapped_join _ _ _ _ Mx Ma) as Mp.
  rewrite mask_hdr, set_size_hdr by (done || zlia). rewrite (u32_small (s + tp)) by lia.
  rewrite st_ok by map_run. bnd.
  assert (Ehd : Z.lor (Z.lor (s + tp) MM_ALLOC_BIT) MM_PREVFREE_BIT = hdr (s + tp) true true).
  { rewrite <- (hdr_plain (s + tp)) at 1. by rewrite set_alloc_hdr, set_prevfree_hdr by zlia. }
  rewrite Ehd, st_ok by map_run. bnd. rewrite st_ok by map_run. bnd.
  match goal with |- context [ mm_addfreechunk ?m4 h (a - r) ] =>
    destruct (lead_moved m h C F a s (Some r) Hm Ht Hc Ha Hs m1 m4 (delete (a - r) F) (a - r) (a - tp) (a + 8)
      (Chunk r false None) cy) as (m5 & C' & E5 & Hmv & HyC & Hk); try done end.
  - lia.
  - unfold room; split_and!; lia || zlia.
  - unfold room; split_and!; lia || zlia.
  - intros b c Hb Hin. destruct (Hspan _ _ Hb Hin) as [|[_ ?]]; [by left|by right].
  - intros f t [Hfx Hf]%lookup_delete_Some Hin. apply (hmem_free _ _ _ _ Hm) in Hf as Hf'.
    destruct (Hspan _ _ Hf' Hin) as [->|[-> _]]; [by simplify_eq|done].
  - intros f c Hf Hfu Hin. rewrite lookup_delete_ne by lia. by apply Hl.
  - lia.
  - drun.
  - ldw. rewrite hdr_u32 by (lia || zlia). do 2 f_equal. lia.
  - ldw. rewrite hdr_u32 by (lia || zlia). do 2 f_equal. lia.
  - ldw. rewrite u32_small by lia. f_equal. lia.
  - by ldw.
  - rewrite E5. bnd. exists m5, C'. split; [done|]. split; [|split; [|apply Hk; lia]].
    replace (a + s - (a - tp)) with (s + tp) in Hmv by lia.
    { by replace (a - tp - (a - r)) with (r - tp) in Hmv by lia. }
    rewrite HyC, Hy. by destruct cy as [??[]].
Qed.

Lemma take_prev_whole m1 cy :
  unlink m (a - r) = Some m1 -> hmem m1 NL C (delete (a - r) F) -> differ (lzone NL F) m m1 ->
  C !! (a + s) = Some cy -> r < tp + 16 ->
  exists m' C', take_prev m h a (a - r) s r tp = Some (a - r, s + r, m', add_curused (r - tp) h) /\
  moved m h C a m' C' (a - r) (s + r) None /\ C' !! (a + s) = C !! (a + s) /\
  (forall i, a + 8 <= i < a + s + 4 -> m' !! i = m !! i).
Proof.
  intros E1 Hm1 Hd1 Hy Hsp. destruct prev_facts as (cy' & Hx & HF & Hy' & Hpy & Hr1 & Hr2 & Hspan).
  assert (cy' = cy) as -> by congruence.
  pose proof Hr1 as (? & ? & ? & ? & ? & ?). pose proof Hr2 as (_ & _ & ? & ? & ? & ?).
  destruct (inner_chunk _ _ _ _ _ Ht Ha ltac:(simpl; lia)) as [_ HaE].
  unfold take_prev. rewrite E1. bnd. unfold MM_MIN_CHUNK. rewrite (u32_small (tp + 16)) by lia.
  rewrite (proj2 (Z.ltb_lt r (tp + 16))) by lia. cbv zeta. rewrite Z.ltb_irrefl.
  destruct (hmem_size _ _ _ _ Hm1 _ _ Hx) as [Ex Ex4]. simpl in Ex, Ex4. rewrite Ex. bnd.
  destruct (hmem_size _ _ _ _ Hm1 _ _ Hy) as [Ey Ey4]. rewrite Hpy in Ey. cbn [pf] in Ey.
  destruct (hmem_words _ _ _ _ Hm1 _ _ Ha) as (_ & _ & Ma).
  destruct (hmem_words _ _ _ _ Hm1 _ _ Hx) as (_ & _ & Mx).
  simpl in Ma, Mx. replace (a - r + r) with a in Mx by lia. pose proof (mapped_join _ _ _ _ Mx Ma) as Mp.
  rewrite (u32_small (s + r)) by lia.
  assert (Ehd : Z.lor (Z.lor (s + r) MM_ALLOC_BIT) (Z.land (hdr r false false) MM_MASK_BIT) =
    hdr (s + r) true false).
  { rewrite mask_hdr by done. change (hdr 0 false false) with 0. rewrite Z.lor_0_r.
    rewrite <- (hdr_plain (s + r)) at 1. by rewrite set_alloc_hdr by zlia. }
  rewrite Ehd, st_ok by map_run. bnd. eexists _.
  destruct (whole_moved m h C F a s (Some r) Hm Ht Hc Ha Hs m1 (wr m1 (o_size (a - r)) (hdr (s + r) true false))
    (delete (a - r) F) (a - r) (a + s) (Chunk r false None) cy None a (Chunk s true (Some r)))
    as (C' & Hmv & HyC & Hk); try done.
  - lia.
  - unfold room; split_and!; lia || zlia.
  - intros b c Hb Hin. destruct (Hspan _ _ Hb Hin) as [|[_ ?]]; [by left|by right].
  - intros f t [Hfx Hf]%lookup_delete_Some Hin. apply (hmem_free _ _ _ _ Hm) in Hf as Hf'.
    destruct (Hspan _ _ Hf' Hin) as [->|[-> _]]; [by simplify_eq|done].
  - intros f c Hf Hfu Hin. rewrite lookup_delete_ne by lia. by apply Hl.
  - drun.
  - ldw. rewrite hdr_u32 by (lia || zlia). do 2 f_equal. lia.
  - by ldw.
  - exists C'. split; [done|]. split; [by replace (a + s - (a - r)) with (s + r) in Hmv by lia|].
    split; [|done]. rewrite HyC, Hy. by destruct cy as [??[]].
Qed.

Lemma prev_fresh g : 0 < g <= r -> used C !! (a - g) = None.
Proof.
  intros Hg. destruct prev_facts as (cy & Hx & _). destruct (used C !! (a - g)) as [k|] eqn:E; [|done].
  apply used_Some in E as [q Hq]. pose proof (hmem_geo _ _ _ _ Hm) as Hge.
  assert (a - g = a - r) as Eg by (eapply (geo_inside NL C); [done..|simpl; lia]). rewrite Eg in Hq.
  by simplify_eq.
Qed.

Lemma take_prev_spec : exists m' h' C' g q, take_prev m h a (a - r) s r tp = Some (a - g, s + g, m', h') /\
  (g = tp \/ (g = r /\ r < tp + 16)) /\ acct (g - tp) h h' /\ moved m h C a m' C' (a - g) (s + g) q /\
  used C !! (a - g) = None /\ C' !! (a + s) = C !! (a + s) /\
  (forall i, a + 8 <= i < a + s + 4 -> m' !! i = m !! i).
Proof.
  destruct prev_facts as (cy & Hx & HF & Hy & _).
  destruct (hmem_unlink _ _ _ _ _ _ Hm HF) as (m1 & E1 & Hm1 & Hd1).
  destruct (decide (tp + 16 <= r)) as [Hsp|Hsp].
  - destruct (take_prev_part m1 cy E1 Hm1 Hd1 Hy Hsp) as (m' & C' & E & Hmv & HyC & Hk).
    exists m', h, C', tp, (Some (r - tp)). split_and!; try done; [by left| |apply prev_fresh; lia].
    rewrite Z.sub_diag. apply acct_refl.
  - destruct (take_prev_whole m1 cy E1 Hm1 Hd1 Hy ltac:(lia)) as (m' & C' & E & Hmv & HyC & Hk).
    eexists m', _, C', r, None. split_and!; try done; [right; lia|apply acct_add|apply prev_fresh; lia].
Qed.
End prev.

(** ** Taking from the chunk after *)

Section next.
Context (m : mem) (h : mm_heap_s) (C : chunks) (F : gmap Z Z) (a s t : Z) (p : option Z).
Abbreviation NL := (mm_nodelist h).
Abbreviation ST := (mm_heapstart h).
Abbreviation EN := (mm_heapend h).
Context (Hm : hmem m NL C F) (Hl : listed C F) (Ht : tiled ST EN C) (Hc : compact C).
Context (Ha : C !! a = Some (Chunk s true p)) (Hs : 16 <= s).
Context (Hn : C !! (a + s) = Some (Chunk t false None)).

Lemma next_facts : exists cy,
  F !! (a + s) = Some t /\ C !! (a + s + t) = Some cy /\ c_used cy = true /\
  c_prev cy = Some t /\ (a + s ∉ EN) /\ room NL a (a + s) /\ room NL (a + s) (a + s + t) /\
  (forall b c, C !! b = Some c -> a <= b < a + s + t -> b = a \/ (b = a + s /\ c_used c = false)).
Proof.
  destruct (inner_chunk _ _ _ _ _ Ht Hn ltac:(done)) as [_ HnE].
  destruct (t_next _ _ _ Ht _ _ Hn HnE) as (cy & Hy & Hpy). simpl in Hy, Hpy.
  destruct (Hc _ _ _ Hn Hy) as [|Huy]; [done|].
  pose proof (hmem_place _ _ _ _ Hm _ _ Ha) as (? & ? & _ & ? & ? & _ & ?). simpl in *.
  pose proof (hmem_place _ _ _ _ Hm _ _ Hn) as (? & ? & _ & ? & ? & Hr & ?). simpl in *.
  specialize (Hr eq_refl).
  exists cy. split_and!; try done; [by apply (Hl _ _ Hn)|unfold room; split_and!; lia || zlia..|].
  intros b c Hb Hin. pose proof (hmem_geo _ _ _ _ Hm) as Hg.
  destruct (span_two _ _ _ _ _ _ _ _ _ _ _ Hg Ha Hn Hb Hin) as [->| ->]; [by left|right]. by simplify_eq.
Qed.

Context (tn : Z) (Htn : 0 < tn <= t) (Htn8 : tn mod 8 = 0).
Context (m1 : mem) (E1 : unlink m (a + s) = Some m1) (Hm1 : hmem m1 NL C (delete (a + s) F)).
Context (Hd1 : differ (lzone NL F) m m1).

(** The neighbour has left the list. *)
Lemma next_unlisted :
  (forall f k, delete (a + s) F !! f = Some k -> ~ (a <= f < a + s + t)) /\
  (forall f c, C !! f = Some c -> c_used c = false -> ~ (a <= f < a + s + t) ->
     delete (a + s) F !! f = Some (c_size c)) /\ mapped m1 a (a + s + t).
Proof.
  destruct next_facts as (cy & HF & Hy & Huy & Hpy & HnE & Hr1 & Hr2 & Hspan).
  pose proof Hr1 as (_ & _ & _ & ? & _). pose proof Hr2 as (_ & _ & _ & ? & _). split_and!.
  - intros f k [Hfx Hf]%lookup_delete_Some Hin. apply (hmem_free _ _ _ _ Hm) in Hf as Hf'.
    destruct (Hspan _ _ Hf' Hin) as [->|[-> _]]; [by simplify_eq|done].
  - intros f c Hf Hfu Hin. rewrite lookup_delete_ne by lia. by apply Hl.
  - destruct (hmem_words _ _ _ _ Hm1 _ _ Ha) as (_ & _ & Ma).
    destruct (hmem_words _ _ _ _ Hm1 _ _ Hn) as (_ & _ & Mn).
    by eapply mapped_join.
Qed.

Lemma take_next_part : tn + 16 <= t ->
  exists m' C', take_next m h a (a + s) s t tn = Some (m', h) /\
  moved m h C a m' C' a (s + tn) p /\ (forall i, a + 8 <= i < a + s + 4 -> m' !! i = m !! i).
Proof.
  intros Hsp. destruct next_facts as (cy & HF & Hy & Huy & Hpy & HnE & Hr1 & Hr2 & Hspan).
  destruct next_unlisted as (HF1 & Hl1 & Mp).
  pose proof Hr1 as (? & ? & ? & ? & ? & ?). pose proof Hr2 as (_ & _ & ? & ? & ? & ?).
  destruct (hmem_size _ _ _ _ Hm1 _ _ Ha) as [Ea Ea4]. simpl in Ea, Ea4.
  destruct (hmem_size _ _ _ _ Hm1 _ _ Hy) as [Ey Ey4]. rewrite Huy, Hpy in Ey. cbn [pf] in Ey.
  unfold take_next. rewrite E1. bnd. unfold MM_MIN_CHUNK. rewrite (u32_small (tn + 16)) by lia.
  rewrite (proj2 (Z.ltb_ge t (tn + 16))) by lia. cbv zeta.
  rewrite Ea. bnd. rewrite mask_hdr by done. rewrite (u32_small (s + tn)) by lia.
  rewrite set_size_hdr, st_ok by (map_run || zlia). bnd. rewrite (proj2 (Z.ltb_lt tn t)) by lia.
  rewrite st_ok by map_run. bnd. rewrite ld_wr_eq, (u32_small (t - tn)) by lia. bnd.
  rewrite st_ok by map_run. bnd.
  match goal with |- context [ mm_addfreechunk ?m4 h (a + (s + tn)) ] =>
    destruct (rest_moved m h C F a s p Hm Ht Hc Ha Hs m1 m4 (delete (a + s) F) (a + (s + tn)) (a + s + t) cy
      (a + s) (Chunk t false None)) as (m5 & C' & E5 & Hmv & Hk); try done end.
  - lia.
  - unfold room; split_and!; lia || zlia.
  - unfold room; split_and!; lia || zlia.
  - intros b c Hb Hin. destruct (Hspan _ _ Hb Hin) as [|[_ ?]]; [by left|by right].
  - drun.
  - ldw. rewrite hdr_u32 by (lia || zlia). do 2 f_equal. lia.
  - ldw. rewrite hdr_plain, u32_small by lia. f_equal. lia.
  - by ldw.
  - ldw. rewrite u32_small by lia. f_equal. lia.
  - rewrite E5. bnd. exists m5, C'. split; [done|]. split; [|done].
    by replace (a + (s + tn) - a) with (s + tn) in Hmv by lia.
Qed.

Lemma take_next_whole : t < tn + 16 ->
  exists m' C', take_next m h a (a + s) s t tn = Some (m', add_curused (t - tn) h) /\
  moved m h C a m' C' a (s + t) p /\ (forall i, a + 8 <= i < a + s + 4 -> m' !! i = m !! i).
Proof.
  intros Hsp. destruct next_facts as (cy & HF & Hy & Huy & Hpy & HnE & Hr1 & Hr2 & Hspan).
  destruct next_unlisted as (HF1 & Hl1 & Mp).
  pose proof Hr1 as (? & ? & ? & ? & ? & ?). pose proof Hr2 as (_ & _ & ? & ? & ? & ?).
  pose proof (hmem_place _ _ _ _ Hm _ _ Hy) as (_ & _ & ? & ? & ? & _).
  destruct (hmem_size _ _ _ _ Hm1 _ _ Ha) as [Ea Ea4]. simpl in Ea, Ea4.
  destruct (hmem_size _ _ _ _ Hm1 _ _ Hy) as [Ey Ey4]. rewrite Huy, Hpy in Ey. cbn [pf] in Ey.
  unfold take_next. rewrite E1. bnd. unfold MM_MIN_CHUNK. rewrite (u32_small (tn + 16)) by lia.
  rewrite (proj2 (Z.ltb_lt t (tn + 16))) by lia. cbv zeta.
  rewrite Ea. bnd. rewrite mask_hdr by done. rewrite (u32_small (s + t)) by lia.
  rewrite set_size_hdr, st_ok by (map_run || zlia). bnd. rewrite Z.ltb_irrefl.
  assert (ld (wr m1 (o_size a) (hdr (s + t) true (pf p))) (o_size (a + s + t)) =
    Some (hdr (c_size cy) true true)) as ->
    by by ldw. bnd.
  rewrite clear_prevfree_hdr, st_ok by (done || map_run). bnd.
  match goal with |- context [ Some (?m4, add_curused _ _) ] =>
    destruct (whole_moved m h C F a s p Hm Ht Hc Ha Hs m1 m4 (delete (a + s) F) a (a + s + t) (Chunk s true p) cy p
      (a + s) (Chunk t false None)) as (C' & Hmv & _ & Hk); try done end.
  - lia.
  - unfold room; split_and!; lia || zlia.
  - intros b c Hb Hin. destruct (Hspan _ _ Hb Hin) as [|[_ ?]]; [by left|by right].
  - drun.
  - ldw. rewrite hdr_u32 by (lia || zlia). do 2 f_equal. lia.
  - ldw. by rewrite hdr_u32, Huy by (lia || zlia).
  - eexists _, C'. split; [done|]. split; [|done]. by replace (a + s + t - a) with (s + t) in Hmv by lia.
Qed.
End next.

Lemma take_next_spec m h C a s t p tn :
  heap_ok m h C -> C !! a = Some (Chunk s true p) -> 16 <= s -> C !! (a + s) = Some (Chunk t false None) ->
  0 < tn <= t -> tn mod 8 = 0 -> exists m' h' C' g, take_next m h a (a + s) s t tn = Some (m', h') /\
  (g = tn \/ (g = t /\ t < tn + 16)) /\ acct (g - tn) h h' /\ moved m h C a m' C' a (s + g) p /\
  (forall i, a + 8 <= i < a + s + 4 -> m' !! i = m !! i).
Proof.
  intros [(F & Hm & Hl) Ht Hc] Ha Hs Hn Htn Htn8.
  pose proof (Hl _ _ Hn eq_refl) as HF. simpl in HF.
  destruct (hmem_unlink _ _ _ _ _ _ Hm HF) as (m1 & E1 & Hm1 & Hd1).
  destruct (decide (tn + 16 <= t)) as [Hsp|Hsp].
  - destruct (take_next_part m h C F a s t p Hm Hl Ht Hc Ha Hs Hn tn Htn Htn8 m1 E1 Hm1 Hd1 Hsp)
      as (m' & C' & E & Hmv & Hk).
    exists m', h, C', tn. split_and!; try done; [by left|]. rewrite Z.sub_diag. apply acct_refl.
  - destruct (take_next_whole m h C F a s t p Hm Hl Ht Hc Ha Hs Hn tn Htn m1 E1 Hm1 Hd1 ltac:(lia))
      as (m' & C' & E & Hmv & Hk).
    eexists m', _, C', t. split_and!; try done; [right; lia|apply acct_add].
Qed.

(** ** Giving up the start of a block *)

Lemma option_cases {A} (o : option A) : o = None \/ exists v, o = Some v.
Proof. destruct o; eauto. Qed.

Section leading.
Context (m : mem) (h : mm_heap_s) (C : chunks) (F : gmap Z Z) (a s z : Z) (p : option Z).
Abbreviation NL := (mm_nodelist h).
Abbreviation ST := (mm_heapstart h).
Abbreviation EN := (mm_heapend h).
Context (Hm : hmem m NL C F) (Hl : listed C F) (Ht : tiled ST EN C) (Hc : compact C).
Context (Ha : C !! a = Some (Chunk s true p)) (Hz : a + 16 <= z) (Hzy : z + 16 <= a + s) (Hz8 : z mod 8 = 0).

(** The stores of [split_leading] once it is known where the free node starts. *)
Lemma leading_stores m1 F1 x cx :
  hmem m1 NL C F1 -> differ (lzone NL F) m m1 -> C !! x = Some cx -> c_prev cx = None -> x <= a ->
  room NL x z -> mapped m1 x (a + s) ->
  (forall b c, C !! b = Some c -> x <= b < a + s -> b = a \/ c_used c = false) ->
  (forall f t, F1 !! f = Some t -> ~ (x <= f < a + s)) ->
  (forall f c, C !! f = Some c -> c_used c = false -> ~ (x <= f < a + s) -> F1 !! f = Some (c_size c)) ->
  exists m' C' q, (m ← st m1 (o_size x) (z - x);
    m ← st m (o_size z) (Z.lor (Z.lor (a + s - z) MM_ALLOC_BIT) MM_PREVFREE_BIT);
    m ← st m (o_preceding z) (z - x); wn ← ld m (o_size (a + s));
    m ← st m (o_size (a + s)) (Z.land wn (Z.lnot MM_PREVFREE_BIT)); mm_addfreechunk m h x) = Some m' /\
  moved m h C a m' C' z (a + s - z) q.
Proof.
  intros Hm1 Hd1 Hx Hp Hxa Hr Mp Hspan HF1 Hl1. pose proof Hr as (? & ? & ? & ? & ? & ?).
  destruct (inner_chunk _ _ _ _ _ Ht Ha ltac:(simpl; lia)) as [_ HaE].
  destruct (t_next _ _ _ Ht _ _ Ha HaE) as (cy & Hy & Hpy). simpl in Hy, Hpy.
  pose proof (hmem_place _ _ _ _ Hm _ _ Ha) as (? & ? & _ & ? & ? & _ & ?). simpl in *.
  pose proof (hmem_place _ _ _ _ Hm _ _ Hy) as (_ & _ & ? & ? & ? & _ & ?).
  destruct (hmem_size _ _ _ _ Hm1 _ _ Hy) as [Ey Ey4]. rewrite Hpy in Ey. cbn [pf] in Ey.
  assert (Ehd : Z.lor (Z.lor (a + s - z) MM_ALLOC_BIT) MM_PREVFREE_BIT = hdr (a + s - z) true true).
  { rewrite <- (hdr_plain (a + s - z)) at 1. by rewrite set_alloc_hdr, set_prevfree_hdr by zlia. }
  rewrite Ehd, st_ok by map_run. bnd. rewrite st_ok by map_run. bnd. rewrite st_ok by map_run. bnd.
  set (m2 := wr (wr _ _ _) (o_preceding z) _).
  assert (ld m2 (o_size (a + s)) = Some (hdr (c_size cy) (c_used cy) false)) as -> by (unfold m2; by ldw).
  bnd.
  unfold m2. rewrite clear_prevfree_hdr, st_ok by (done || map_run). bnd.
  match goal with |- context [ mm_addfreechunk ?m4 h x ] =>
    destruct (lead_moved m h C F a s p Hm Ht Hc Ha ltac:(lia) m1 m4 F1 x z (z + 8) cx cy)
      as (m5 & C' & E5 & Hmv & _ & _); try done end.
  - unfold room; split_and!; lia || zlia.
  - lia.
  - drun.
  - ldw. by rewrite hdr_plain, u32_small by lia.
  - ldw. rewrite hdr_u32 by (lia || zlia). done.
  - ldw. by rewrite u32_small by lia.
  - ldw. by rewrite hdr_u32 by (lia || zlia).
  - eauto.
Qed.

Lemma split_leading_hmem : exists m' C' q, split_leading m h a z (a + s) = Some m' /\
  moved m h C a m' C' z (a + s - z) q.
Proof.
  destruct (hmem_size _ _ _ _ Hm _ _ Ha) as [Ea Ea4]. simpl in Ea, Ea4.
  pose proof Ha as Ha'. unfold split_leading. rewrite Ea. bnd.
  destruct (hdr_used s true (pf p) Ea4) as (_ & _ & _ & _ & ->).
  destruct (option_cases p) as [Ep|[r Ep]]; rewrite Ep; cbn [pf]; rewrite Ep in Ha'.
  2: { destruct (prev_facts m h C F a s r Hm Hl Ht Hc Ha' ltac:(lia))
         as (cy & Hx & HF & Hy & Hpy & Hr1 & Hr2 & Hspan).
    pose proof Hr1 as (? & ? & ? & ? & ? & ?). pose proof Hr2 as (_ & _ & ? & ? & ? & ?).
    rewrite (hmem_prec _ _ _ _ Hm _ _ r Ha') by done. bnd.
    destruct (hmem_unlink _ _ _ _ _ _ Hm HF) as (m1 & E1 & Hm1 & Hd1). rewrite E1. bnd.
    destruct (hmem_size _ _ _ _ Hm1 _ _ Hx) as [Ex Ex4]. simpl in Ex, Ex4. rewrite Ex. bnd.
    rewrite sizeof_hdr, u32_small by (done || lia). replace (z - a + r) with (z - (a - r)) by lia.
    destruct (hmem_words _ _ _ _ Hm1 _ _ Ha) as (_ & _ & Ma).
    destruct (hmem_words _ _ _ _ Hm1 _ _ Hx) as (_ & _ & Mx).
    simpl in Ma, Mx. replace (a - r + r) with a in Mx by lia.
    eapply (leading_stores m1 (delete (a - r) F)); try done; try lia.
    + unfold room; split_and!; lia || zlia.
    + by eapply mapped_join.
    + intros b c Hb Hin. destruct (Hspan _ _ Hb Hin) as [|[_ ?]]; [by left|by right].
    + intros f t [Hfx Hf]%lookup_delete_Some Hin. apply (hmem_free _ _ _ _ Hm) in Hf as Hf'.
      destruct (Hspan _ _ Hf' Hin) as [->|[-> _]]; [by simplify_eq|done].
    + intros f c Hf Hfu Hin. rewrite lookup_delete_ne by lia. by apply Hl. }
  - bnd. pose proof (hmem_place _ _ _ _ Hm _ _ Ha) as (? & ? & _ & ? & ? & _ & ?). simpl in *.
    destruct (hmem_words _ _ _ _ Hm _ _ Ha) as (_ & _ & Ma). pose proof (hmem_geo _ _ _ _ Hm) as Hg.
    eapply (leading_stores m F a); [done|apply differ_refl|exact Ha'|..]; try done; try lia.
    + unfold room; split_and!; lia || zlia.
    + intros b c Hb Hin. left. by eapply (geo_inside NL C a).
    + intros f t Hf Hin. apply (hmem_free _ _ _ _ Hm) in Hf as Hf'.
      assert (f = a) as -> by (by eapply (geo_inside NL C a)). by simplify_eq.
    + intros f c Hf Hfu _. by apply Hl.
Qed.
End leading.

Lemma split_leading_spec m h C a s p z :
  heap_ok m h C -> C !! a = Some (Chunk s true p) -> a + 16 <= z -> z + 16 <= a + s -> z mod 8 = 0 ->
  exists m' C' q, split_leading m h a z (a + s) = Some m' /\ moved m h C a m' C' z (a + s - z) q /\
  used C !! z = None.
Proof.
  intros [(F & Hm & Hl) Ht Hc] Ha ???.
  destruct (split_leading_hmem m h C F a s z p) as (m' & C' & q & E & Hmv); try done.
  exists m', C', q. split_and!; [done..|]. destruct (used C !! z) as [k|] eqn:Ez; [|done].
  apply used_Some in Ez as [q' Hq']. pose proof (hmem_geo _ _ _ _ Hm) as Hg.
  assert (z = a) by (eapply (geo_inside _ C); [done..|simpl; lia]). lia.
Qed.

(** ** Giving up the end of a block *)

Lemma shrink_moved m h C a s p k :
  heap_ok m h C -> C !! a = Some (Chunk s true p) -> 16 <= k <= s -> k mod 8 = 0 ->
  exists m' C' k', mm_shrinkchunk m h a k = Some m' /\ moved m h C a m' C' a k' p /\
  (k' = k \/ (k' = s /\ s - k < 16)) /\ (forall i, a + 8 <= i < a + k + 4 -> m' !! i = m !! i).
Proof.
  intros [(F & Hm & Hl) Ht Hc] Ha Hk Hk8.
  destruct (shrinkchunk_spec m h C F a s k p)
    as (m' & C' & F' & k' & E & Hm' & Hl' & Ht' & Hc' & Hu' & Ha' & Hk' & Hkp & Hkeep); try done.
  exists m', C', k'. split_and!; try done. split_and!; [|by rewrite insert_delete_eq|done|done].
  split; [by exists F'|done..].
Qed.
