(* ===== verification/HeapCalls.v ===== *)
(** * The calls of the heap

    What [mm_malloc], [mm_free] and the functions built on them do to a heap in
    the invariant, with the list of blocks whose release was put off. *)

From S2P Require Import Prelude.
From stdpp Require Import gmap sorting.
From S2P Require Import Heap HeapList HeapInv HeapOps HeapAlloc HeapMove.
Local Open Scope Z_scope.

(** ** Writing into a block *)

(** The bytes of a block do not belong to the heap. *)
Definition payload (a s b : Z) : Prop := a + 8 <= b < a + s + 4.

Section write.
Context (m m' : mem) (H : Z) (S E : list Z) (C : chunks) (F : gmap Z Z) (a s : Z) (p : option Z).
Context (Hm : hmem m H C F) (Ht : tiled S E C) (Ha : C !! a = Some (Chunk s true p)) (HaE : a ∉ E).
Context (Hd : differ (payload a s) m m').

Lemma payload_heads b : H <= b < H + 304 -> ~ payload a s b.
Proof.
  destruct (t_next _ _ _ Ht _ _ Ha HaE) as (d & Hd' & _). simpl in Hd'.
  pose proof (hmem_place _ _ _ _ Hm _ _ Ha) as (_ & _ & ? & _ & _ & _ & ?).
  pose proof (hmem_place _ _ _ _ Hm _ _ Hd') as (_ & _ & ? & _ & _ & _ & ?).
  unfold payload. simpl in *. lia.
Qed.

Lemma payload_other b c i : C !! b = Some c -> b <> a -> b + 4 <= i < b + c_size c -> ~ payload a s i.
Proof.
  intros Hb Hne Hi. pose proof (hmem_geo _ _ _ _ Hm) as Hg.
  destruct (geo_apart _ _ Hg _ _ _ _ Ha Hb) as [?|[?|?]]; unfold payload; simpl in *; lia || done.
Qed.

Lemma payload_lzone b : lzone H F b -> ~ payload a s b.
Proof.
  intros [?|(f & t & Hf & ?)]; [by apply payload_heads|]. apply (hmem_free _ _ _ _ Hm) in Hf.
  pose proof (hmem_place _ _ _ _ Hm _ _ Hf) as (_ & _ & _ & _ & _ & Hs & _). simpl in Hs.
  specialize (Hs eq_refl).
  eapply payload_other; [done|congruence|simpl; lia].
Qed.

Lemma payload_words b c : C !! b = Some c -> words m b c -> words m' b c.
Proof.
  intros Hb (Hs & Hp & Hmp). pose proof (hmem_place _ _ _ _ Hm _ _ Hb) as (_ & _ & ? & _). split_and!.
  - rewrite (differ_ld _ _ _ _ Hd); [done|]. intros i Hi. destruct (decide (b = a)) as [->|Hne].
    + unfold payload. olia.
    + eapply payload_other; [done..|olia].
  - intros r Hr. rewrite (differ_ld _ _ _ _ Hd); [by apply Hp|]. intros i Hi Hpl.
    pose proof (hmem_geo _ _ _ _ Hm) as Hg.
    destruct (geo_apart _ _ Hg _ _ _ _ Ha Hb) as [->|[Hab|?]]; unfold payload, o_preceding in *; simpl in *;
      [lia| |lia].
    destruct (t_next _ _ _ Ht _ _ Ha HaE) as (d & Hd' & Hpd). simpl in Hd', Hpd.
    destruct (decide (b = a + s)) as [->|]; [congruence|].
    destruct (hmem_place _ _ _ _ Hm _ _ Hb) as (_ & ? & _).
    destruct (hmem_place _ _ _ _ Hm _ _ Hd') as (_ & ? & _).
    zlia.
  - by eapply differ_mapped.
Qed.

Lemma hmem_write : hmem m' H C F.
Proof.
  pose proof Hm as (Hg & Hw & HF & L & (Hc & Hsz & Hap) & Ho). split_and!; [done| |done|].
  { intros b c Hb. by eapply payload_words, Hw. }
  exists L. split; [|done]. split_and!; [| |done].
  - eapply chain_differ; [done..|]. intros b Hb. by eapply payload_lzone, links_lzone.
  - intros e He. rewrite (differ_ld _ _ _ _ Hd); [by apply Hsz|]. intros i Hi.
    destruct Ho as (_ & _ & Hh & HN & _). destruct e as [j|f t]; simpl in *.
    + apply Hh in He. unfold MM_NNODES in He. apply payload_heads. olia.
    + apply HN, HF in He. pose proof (hmem_place _ _ _ _ Hm _ _ He) as (_ & _ & ? & _). simpl in *.
      eapply payload_other; [done|congruence|simpl; olia].
Qed.
End write.

Lemma heap_ok_write m m' h C a s p :
  heap_ok m h C -> C !! a = Some (Chunk s true p) -> 16 <= s -> differ (payload a s) m m' -> heap_ok m' h C.
Proof.
  intros [(F & Hm & Hl) Ht Hc] Ha Hs Hd. split; [|done..]. exists F. split; [|done].
  eapply hmem_write; try done. by eapply inner_chunk; [done..|].
Qed.

(** ** Blocks that stay *)

(** The bytes of the blocks [U] are the same. *)
Definition pres (m m' : mem) (U : gmap Z Z) (E : list Z) : Prop :=
  dom m' = dom m /\
  forall b s i, U !! b = Some s -> b ∉ E -> payload b s i -> m' !! i = m !! i.

Lemma keeps_pres m m' C E a : keeps m m' C E a <-> pres m m' (delete a (used C)) E.
Proof.
  rewrite keeps_used. split; intros [Hd Hk]; (split; [done|]).
  - intros b s i [Hne Hb]%lookup_delete_Some HE Hi. by eapply Hk.
  - intros b s i Hb Hne HE Hi. eapply Hk; [|done..]. by rewrite lookup_delete_ne.
Qed.

Lemma pres_refl m U E : pres m m U E.
Proof. by split. Qed.

Lemma pres_trans m1 m2 m3 U E : pres m1 m2 U E -> pres m2 m3 U E -> pres m1 m3 U E.
Proof. intros [Hd1 H1] [Hd2 H2]. split; [congruence|]. intros b s i ???. by rewrite (H2 b s i), (H1 b s i).
Qed.

Lemma pres_sub m m' U U' E : pres m m' U E -> U' ⊆ U -> pres m m' U' E.
Proof. intros [Hd Hp] HU. split; [done|]. intros b s i Hb. apply (Hp b s i). by eapply lookup_weaken. Qed.

(** A store into a block keeps the other blocks. *)
Lemma write_pres m m' h C a s :
  heap_ok m h C -> used C !! a = Some s -> differ (payload a s) m m' ->
  pres m m' (delete a (used C)) (mm_heapend h).
Proof.
  intros [(F & Hm & Hl) Ht Hc] [p Ha]%used_Some [Hd Hb]. split; [done|].
  intros b t i [Hne [q Hq]%used_Some]%lookup_delete_Some HE Hi. apply Hb. intros Hi'.
  pose proof (hmem_geo _ _ _ _ Hm) as Hg.
  pose proof (hmem_place _ _ _ _ Hm _ _ Ha) as (_ & ? & ? & ? & _).
  pose proof (hmem_place _ _ _ _ Hm _ _ Hq) as (_ & ? & ? & ? & _).
  unfold payload in *. destruct (geo_apart _ _ Hg _ _ _ _ Ha Hq) as [?|[?|?]]; simpl in *; [done|zlia..].
Qed.

(** The sum of sizes. *)
Definition usum (U : gmap Z Z) : Z := map_fold (fun _ s acc => s + acc) 0 U.

Lemma usum_insert U a s : U !! a = None -> usum (<[a := s]> U) = s + usum U.
Proof. intros Ha. unfold usum. apply map_fold_insert_L; [|done]. intros. lia. Qed.

Lemma usum_delete U a s : U !! a = Some s -> usum U = s + usum (delete a U).
Proof.
  intros Ha. rewrite <- (insert_delete_id U a s) at 1 by done. apply usum_insert, lookup_delete_eq.
Qed.

(** ** Blocks whose release was put off

    A block that an interrupt handler releases while the heap is locked goes to
    a list through the first word of the blocks, and is released by the next
    allocation. *)

Fixpoint dlist (m : mem) (p : Z) (D : list Z) : Prop :=
  match D with
  | [] => p = 0
  | d :: D => p = d /\ exists q, ld m d = Some q /\ dlist m q D
  end.

Lemma dlist_frame m m' p D : dlist m p D -> (forall d, d ∈ D -> ld m' d = ld m d) -> dlist m' p D.
Proof.
  revert p. induction D as [|d D IH]; intros p; [done|]. intros [-> (q & Hq & HD)] Hf.
  split; [done|]. exists q. split; [by rewrite Hf by set_solver|]. apply IH; [done|]. intros. apply Hf.
  set_solver.
Qed.

Definition live (U : gmap Z Z) (D : list Z) : gmap Z Z := filter (fun bs => bs.1 + 8 ∉ D) U.

Lemma live_nil U : live U [] = U.
Proof. apply map_filter_id. intros. apply not_elem_of_nil. Qed.

Lemma live_cons U d D : live U (d :: D) = live (delete (d - 8) U) D.
Proof.
  apply map_eq. intros b. apply option_eq. intros s. unfold live.
  rewrite !map_lookup_filter_Some, lookup_delete_Some.
  simpl. rewrite not_elem_of_cons. split; intros; split_and!; naive_solver lia.
Qed.

Lemma live_Some U D a s : live U D !! a = Some s <-> U !! a = Some s /\ a + 8 ∉ D.
Proof. unfold live. by rewrite map_lookup_filter_Some. Qed.

Lemma live_sub U D : live U D ⊆ U.
Proof. apply map_filter_subseteq. Qed.

Definition delayed (C : chunks) (D : list Z) : Prop :=
  NoDup D /\ forall d, d ∈ D -> exists s, used C !! (d - 8) = Some s /\ 16 <= s.

Record hinv (m : mem) (h : mm_heap_s) (C : chunks) (D : list Z) : Prop := {
  hi_ok : heap_ok m h C;
  hi_list : dlist m (mm_delaylist h) D;
  hi_delayed : delayed C D;
}.

(** A block of the heap that is not a guard. *)
Lemma block_inner m h C a s : heap_ok m h C -> used C !! a = Some s -> 16 <= s -> a ∉ mm_heapend h.
Proof. intros Hok [p Ha]%used_Some Hs. by eapply inner_chunk; [apply Hok|done|]. Qed.

Lemma delayed_word m m' h C D d :
  heap_ok m h C -> pres m m' (delete (d - 8) (used C)) (mm_heapend h) -> delayed C (d :: D) ->
  forall d', d' ∈ D -> ld m' d' = ld m d'.
Proof.
  intros Hok [_ Hp] [Hnd Hu] d' Hd'. apply ld_agree. intros i Hi.
  destruct (Hu d') as (s' & Hs' & Hs16); [set_solver|].
  apply NoDup_cons in Hnd as [Hnd _]. assert (d <> d') by set_solver.
  eapply (Hp (d' - 8) s'); [rewrite lookup_delete_ne by lia; done|by eapply block_inner|].
  unfold payload. lia.
Qed.

Lemma delayed_tail C C' d D : delayed C (d :: D) -> used C' = delete (d - 8) (used C) -> delayed C' D.
Proof.
  intros [Hnd Hu] HC'. apply NoDup_cons in Hnd as [Hd Hnd]. split; [done|]. intros d' Hd'.
  destruct (Hu d') as (s & Hs & ?); [set_solver|]. exists s. split; [|done].
  rewrite HC', lookup_delete_ne; [done|]. assert (d <> d') by set_solver. lia.
Qed.

Lemma delay_loop_spec c D fuel m h C p :
  heap_ok m h C -> dlist m p D -> delayed C D -> (length D < fuel)%nat -> 0 <= mm_lock c ->
  exists m' h' C', free_delay_loop fuel c m h p = Some (m', h') /\ heap_ok m' h' C' /\
  used C' = live (used C) D /\ acct (usum (used C') - usum (used C)) h h' /\
  pres m m' (used C') (mm_heapend h) /\ (D = [] -> m' = m /\ C' = C).
Proof.
  intros Hok Hdl Hde Hf Hlock. revert fuel m h C p Hok Hdl Hde Hf.
  induction D as [|d D IH]; intros fuel m h C p Hok Hdl Hde Hf; (destruct fuel as [|fuel]; [simpl in Hf;
    lia|]).
  - simpl in Hdl. subst p. exists m, h, C. rewrite live_nil. split_and!; try done.
    rewrite Z.sub_diag. apply acct_refl.
  - destruct Hdl as [-> (q & Hq & Hdl)]. destruct (proj2 Hde d) as (s & Hs & Hs16); [set_solver|].
    pose proof Hs as [r Hr]%used_Some.
    destruct (delayfree_spec c m h C (d - 8) s r Hok Hr Hs16 Hlock)
      as (m1 & C1 & E1 & Hok1 & Hu1 & Hk1%keeps_pres).
    replace (d - 8 + 8) with d in E1 by lia.
    assert (0 < d - 8) by (destruct Hok as [(F & Hm & _) _ _]; by apply (hmem_place _ _ _ _ Hm _ _ Hr)).
    destruct (IH fuel m1 (add_curused (- s) h) C1 q) as (m' & h' & C' & E & Hok' & Hu' & Hac & Hp' & _);
      [..|simpl in Hf; lia|].
    { by eapply heap_ok_fields, Hok1. }
    { eapply dlist_frame; [done|]. by eapply delayed_word. }
    { by eapply delayed_tail. }
    exists m', h', C'. simpl free_delay_loop. rewrite (proj2 (Z.eqb_neq d 0)) by lia.
    rewrite Hq. bnd. rewrite E1. bnd. split_and!; [done..| | | |done].
    + by rewrite Hu', Hu1, live_cons.
    + eapply acct_trans; [apply acct_add|done|]. rewrite Hu1, (usum_delete _ _ _ Hs). lia.
    + eapply pres_trans; [|done]. eapply pres_sub; [done|]. rewrite Hu', Hu1. apply live_sub.
Qed.

(** There are fewer blocks than bytes. *)
Lemma delayed_fuel m h C D : heap_ok m h C -> delayed C D -> (length D < mem_fuel m)%nat.
Proof.
  intros [(F & Hm & _) _ _] [Hnd Hu]. unfold mem_fuel. apply le_n_S.
  rewrite <- (size_dom m), <- (size_list_to_set (C := gset Z) D Hnd). apply subseteq_size.
  intros d Hd%elem_of_list_to_set. apply elem_of_dom. destruct (Hu d Hd) as (s & [r Hr]%used_Some & ?).
  destruct (hmem_words _ _ _ _ Hm _ _ Hr) as (_ & _ & Mp). apply Mp. simpl. lia.
Qed.

Lemma delaylist_spec c m h C D : hinv m h C D -> 0 <= mm_lock c ->
  exists b m' h' C', free_delaylist c m h = Some (b, m', h') /\ heap_ok m' h' C' /\
  used C' = live (used C) D /\ acct (usum (used C') - usum (used C)) (set_delaylist 0 h) h' /\
  pres m m' (used C') (mm_heapend h) /\ (D = [] -> m' = m /\ C' = C).
Proof.
  intros [Hok Hdl Hde] Hlock. unfold free_delaylist.
  destruct (delay_loop_spec c D (mem_fuel m) m (set_delaylist 0 h) C (mm_delaylist h))
    as (m' & h' & C' & E & ?); try done.
  { by eapply heap_ok_fields, Hok. }
  { by eapply delayed_fuel. }
  rewrite E. bnd. by eexists _, m', h', C'.
Qed.

(** ** Sizes *)

Lemma gran_down a : Z.land a (Z.lnot MM_GRAN_MASK) = 8 * (a / 8).
Proof.
  unfold MM_GRAN_MASK. rewrite <- Z.ldiff_land. change 7 with (Z.ones 3).
  rewrite Z.ldiff_ones_r, Z.shiftl_mul_pow2, Z.shiftr_div_pow2 by lia. change (2 ^ 3) with 8. lia.
Qed.

Lemma align_up_spec a : 0 <= a -> a + 7 < 2 ^ 32 ->
  a <= MM_ALIGN_UP a < a + 8 /\ MM_ALIGN_UP a mod 8 = 0.
Proof.
  intros ??. unfold MM_ALIGN_UP. rewrite gran_down, u32_small by (unfold MM_GRAN_MASK; lia).
  unfold MM_GRAN_MASK. split; zlia.
Qed.

(** A request does not fit into the address space, or the chunk holds it. *)
Lemma chunk_size_spec size : 0 <= size < 2 ^ 32 ->
  (chunk_size size = None /\ 2 ^ 32 <= size + 11) \/
  exists al, chunk_size size = Some al /\ 16 <= al < 2 ^ 32 /\ al mod 8 = 0 /\ size + 4 <= al /\
    (al = 16 \/ al < size + 12).
Proof.
  intros Hsz. unfold chunk_size, MM_MIN_CHUNK, MM_ALLOCNODE_OVERHEAD. change (16 - 4) with 12.
  set (size' := if size <? 12 then 12 else size).
  assert (Hs' : 12 <= size' < 2 ^ 32 /\ size <= size' /\ (size' = 12 \/ size' = size))
    by (unfold size'; destruct (Z.ltb_spec size 12); lia).
  destruct (decide (size' + 11 < 2 ^ 32)) as [Hlt|Hge].
  - right. rewrite u32_small by lia. destruct (align_up_spec (size' + 4)) as [? ?]; [lia..|].
    rewrite (proj2 (Z.ltb_ge _ _)) by lia. eexists. split; [done|].
    destruct Hs' as (? & ? & [E|E]); rewrite E in *; [|split_and!; [zlia|lia|lia|lia|right; lia]].
    change (MM_ALIGN_UP (12 + 4)) with 16. split_and!; first [done|lia|by left].
  - left. split; [|lia]. unfold MM_ALIGN_UP. rewrite gran_down, u32_u32_add_l. unfold MM_GRAN_MASK.
    assert (u32 (size' + 4 + 7) <= 10).
    { unfold u32. replace (size' + 4 + 7) with ((size' + 11 - 2 ^ 32) + 1 * 2 ^ 32) by lia.
      rewrite Z.mod_add by lia. rewrite Z.mod_small by lia. lia. }
    pose proof (u32_range (size' + 4 + 7)). rewrite (proj2 (Z.ltb_lt _ _)); [done|]. zlia.
Qed.

(** A block lies inside a region. *)
Lemma heapmember_loop_ok a S E i s e :
  S !! i = Some s -> E !! i = Some e -> s < a < e -> heapmember_loop a S E = true.
Proof.
  revert E i. induction S as [|s' S IH]; intros E i Hs He Ha; [done|].
  destruct E as [|e' E]; [by rewrite lookup_nil in He|]. simpl. destruct i as [|i]; simpl in *.
  - simplify_eq. by rewrite (proj2 (Z.ltb_lt s a)), (proj2 (Z.ltb_lt a e)) by lia.
  - destruct (_ && _); [done|eauto].
Qed.

Lemma block_member m h C a s : heap_ok m h C -> used C !! a = Some s -> 16 <= s ->
  mm_heapmember h (a + 8) = true.
Proof.
  intros Hok Ha Hs. pose proof (block_inner _ _ _ _ _ Hok Ha Hs) as HaE.
  destruct Hok as [(F & Hm & _) Ht _]. apply used_Some in Ha as [p Ha].
  destruct (t_in _ _ _ Ht _ _ Ha) as (i & st & e & Hst & He & ?).
  assert (e ∈ mm_heapend h) as HeE by (by eapply list_elem_of_lookup_2).
  destruct (t_end _ _ _ Ht _ HeE) as (q & Hq). assert (a <> e) by congruence.
  pose proof (hmem_geo _ _ _ _ Hm) as Hg.
  destruct (geo_apart _ _ Hg _ _ _ _ Ha Hq) as [?|[?|?]]; simpl in *; [lia| |lia].
  eapply heapmember_loop_ok; [done..|lia].
Qed.

(** ** Allocating *)

Lemma lock_ok c : 0 <= mm_lock c -> verify_lock c = Some tt.
Proof. intros. unfold verify_lock, dassert. by rewrite (proj2 (Z.leb_le _ _)). Qed.

(** The smallest free chunk that is large enough, or none. *)
Definition best_fit (C : chunks) (al x t : Z) : Prop :=
  C !! x = Some (Chunk t false None) /\ al <= t /\
  forall b c, C !! b = Some c -> c_used c = false -> al <= c_size c -> t <= c_size c.

Lemma alloc_chunk_spec c m h C al : heap_ok m h C -> 0 <= mm_lock c -> 16 <= al < 2 ^ 32 -> al mod 8 = 0 ->
  (alloc_chunk c m h al = Some (0, m, h) /\
   forall b c, C !! b = Some c -> c_used c = false -> c_size c < al) \/
  exists x t s m' h' C', best_fit C al x t /\ alloc_chunk c m h al = Some (x + 8, m', h') /\
  heap_ok m' h' C' /\ C' !! x = Some (Chunk s true None) /\ al <= s < al + 16 /\
  used C !! x = None /\ used C' = <[x := s]> (used C) /\ acct s h h' /\ pres m m' (used C) (mm_heapend h).
Proof.
  intros Hok Hlock Hal Hal8. pose proof Hok as [(F & Hm & Hl) Ht Hc]. unfold alloc_chunk.
  rewrite lock_ok by done. bnd.
  pose proof Hm as (Hg & _ & _ & L & Hfl & Ho).
  destruct (flist_search _ m L F h al eq_refl Hfl Ho ltac:(unfold MM_MIN_CHUNK; lia))
    as (ndx & first & En & Ef & Hs). rewrite En. bnd. rewrite Ef. bnd.
  destruct Hs as [[-> Hno]|(x & t & -> & Hx & Hat & Hbest)]; bnd.
  { left. split; [done|]. intros b d Hb Hu. by eapply Hno, Hl. }
  right. pose proof (hmem_free _ _ _ _ Hm _ _ Hx) as Hcx.
  pose proof (hmem_place _ _ _ _ Hm _ _ Hcx) as (? & _). rewrite (proj2 (Z.eqb_neq x 0)) by lia.
  destruct (take_node_spec m h C F x t al)
    as (s & m' & C' & F' & E & Hm' & Hl' & Ht' & Hc' & Hu' & Hux & Hs & Hx' & Hd); try done; try lia.
  assert (Hac : acct s h (track_maxused (add_curused s h))).
  { eapply acct_trans; [apply acct_add|apply acct_track|lia]. }
  assert (Hok' : heap_ok m' (track_maxused (add_curused s h)) C').
  { eapply acct_ok; [done|]. split; [by exists F'|done..]. }
  exists x, t, s, m', (track_maxused (add_curused s h)), C'. rewrite E. bnd.
  rewrite (block_member _ _ _ x s Hok') by (rewrite Hu'; apply lookup_insert_eq) || lia.
  rewrite orb_true_r. split_and!; try done; try lia.
  - split_and!; [done..|]. intros b d Hb Hu Hd16. by eapply Hbest, Hd16; apply Hl.
  - destruct (inner_chunk _ _ _ _ _ Ht Hcx ltac:(done)) as [_ HxE].
    destruct (t_next _ _ _ Ht _ _ Hcx HxE) as (cy & Hy & _). simpl in Hy.
    replace (used C) with (delete x (used C)) by (by rewrite delete_id). apply keeps_pres.
    eapply (differ_keeps _ _ _ _ _ C x (x + t)); try done; [by eexists|by eexists|lia|].
    intros b d Hb Hu Hin. by eapply (geo_inside _ C x).
Qed.

(** The result of an allocation: no block, or a new block of [s] bytes, next to
    the blocks [U]. *)
Definition allocated (U U' : gmap Z Z) (r size : Z) : Prop :=
  (r = 0 /\ U' = U) \/
  exists s, 0 < r /\ r mod 8 = 0 /\ U !! (r - 8) = None /\ U' = <[r - 8 := s]> U /\
    16 <= s /\ size + 4 <= s.

Lemma malloc_spec c m h C D size : hinv m h C D -> 0 <= mm_lock c -> 0 <= size < 2 ^ 32 ->
  exists r m' h' C', mm_malloc c m h size = Some (r, m', h') /\ hinv m' h' C' [] /\
  allocated (live (used C) D) (used C') r size /\
  acct (usum (used C') - usum (used C)) (set_delaylist 0 h) h' /\
  pres m m' (live (used C) D) (mm_heapend h).
Proof.
  intros Hin Hlock Hsz. unfold mm_malloc.
  destruct (delaylist_spec c m h C D Hin Hlock) as (b & m1 & h1 & C1 & -> & Hok1 & Hu1 & Hac1 & Hp1 & _). bnd.
  assert (Hin1 : forall m h C, heap_ok m h C -> acct 0 h1 h \/ (exists d, acct d h1 h) -> hinv m h C []).
  { intros m2 h2 C2 Hok2 [Hac2|[d Hac2]]; (split; [done| |split; [constructor|by intros ? ?%elem_of_nil]]);
      simpl; by rewrite (ac_delay _ _ _ Hac2), (ac_delay _ _ _ Hac1). }
  rewrite <- Hu1. destruct (chunk_size_spec size Hsz) as [[-> _]|(al & -> & Hal & Hal8 & Hsa & _)].
  { exists 0, m1, h1, C1. split_and!; try done; [|by left]. apply Hin1; [done|]. left. apply acct_refl. }
  rewrite (proj2 (Z.leb_le _ _)) by (unfold MM_ALIGN; lia). cbn [dassert]. bnd.
  destruct (alloc_chunk_spec c m1 h1 C1 al Hok1 Hlock Hal Hal8)
    as [[-> _]|(x & t & s & m' & h' & C' & _ & -> & Hok' & Hx & Hs & HxN & Hu' & Hac' & Hp')]; bnd.
  { exists 0, m1, h1, C1. split_and!; try done; [|by left]. apply Hin1; [done|]. left. apply acct_refl. }
  pose proof Hok' as [(F & Hm & _) _ _]. pose proof (hmem_place _ _ _ _ Hm _ _ Hx) as (? & ? & _).
  assert ((x + 8) mod 8 = 0) by zlia. unfold MM_ALIGN. rewrite (proj2 (Z.eqb_eq ((x + 8) mod 8) 0)) by done.
  rewrite orb_true_r. exists (x + 8), m', h', C'. split_and!; [done|..].
  - apply Hin1; [done|]. right. by exists s.
  - right. exists s. replace (x + 8 - 8) with x by lia. split_and!; try done; lia.
  - eapply acct_trans; [exact Hac1|exact Hac'|]. rewrite Hu', usum_insert by done. lia.
  - eapply pres_trans; [exact Hp1|]. by rewrite (ac_end _ _ _ Hac1) in Hp'.
Qed.

(** Which chunk an allocation takes, once the delayed blocks are released. *)
Lemma malloc_fit c m h C D size al : hinv m h C D -> 0 <= mm_lock c -> 0 <= size < 2 ^ 32 ->
chunk_size size = Some al ->
  exists m1 h1 C1, heap_ok m1 h1 C1 /\ used C1 = live (used C) D /\ same_regions h h1 /\
  (D = [] -> m1 = m /\ C1 = C) /\
  ((mm_malloc c m h size = Some (0, m1, h1) /\
    forall b d, C1 !! b = Some d -> c_used d = false -> c_size d < al) \/
   exists x t s m' h' C', best_fit C1 al x t /\ mm_malloc c m h size = Some (x + 8, m', h') /\
   hinv m' h' C' [] /\ C' !! x = Some (Chunk s true None) /\ al <= s < al + 16 /\
   used C' = <[x := s]> (used C1)).
Proof.
  intros Hin Hlock Hsz Hcs. unfold mm_malloc.
  destruct (delaylist_spec c m h C D Hin Hlock) as (b & m1 & h1 & C1 & -> & Hok1 & Hu1 & Hac1 & _ & Hnil).
  bnd.
  exists m1, h1, C1. split; [done|]. split; [done|]. split; [by eapply acct_regions|]. split; [done|].
  rewrite Hcs.
  destruct (chunk_size_spec size Hsz) as [[? _]|(al' & E & Hal & Hal8 & _)]; [congruence|]. rewrite Hcs in E.
  simplify_eq.
  rewrite (proj2 (Z.leb_le _ _)) by (unfold MM_ALIGN; lia). cbn [dassert]. bnd.
  destruct (alloc_chunk_spec c m1 h1 C1 al' Hok1 Hlock Hal Hal8)
    as [[-> Hno]|(x & t & s & m' & h' & C' & Hbf & -> & Hok' & Hx & Hs & HxN & Hu' & Hac' & Hp')]; bnd;
      [by left|right].
  pose proof Hok' as [(F & Hm & _) _ _]. pose proof (hmem_place _ _ _ _ Hm _ _ Hx) as (? & ? & _).
  assert ((x + 8) mod 8 = 0) by zlia. unfold MM_ALIGN. rewrite (proj2 (Z.eqb_eq ((x + 8) mod 8) 0)) by done.
  rewrite orb_true_r. exists x, t, s, m', h', C'. split_and!; try done; try lia.
  split; [done| |split; [constructor|by intros ? ?%elem_of_nil]]. simpl.
  by rewrite (ac_delay _ _ _ Hac'), (ac_delay _ _ _ Hac1).
Qed.

(** ** Releasing *)

Lemma live_delete U D a : live (delete a U) D = delete a (live U D).
Proof.
  apply map_eq. intros b. apply option_eq. intros s. rewrite live_Some, !lookup_delete_Some, live_Some. tauto.
Qed.

Lemma live_push U D p : live U (p :: D) = delete (p - 8) (live U D).
Proof. by rewrite live_cons, live_delete. Qed.

Section free.
Context (c : ctx) (m : mem) (h : mm_heap_s) (C : chunks) (D : list Z) (p s : Z).
Context (Hin : hinv m h C D) (Hp : used C !! (p - 8) = Some s) (Hs : 16 <= s) (HpD : p ∉ D).

Lemma block_word : mapped m p (p + 4) /\ 0 < p < 2 ^ 32 /\
  ld m (o_size (p - 8)) ≫= (fun w => dassert (MM_NODE_IS_ALLOC w)) = Some tt.
Proof.
  pose proof (hi_ok _ _ _ _ Hin) as [(F & Hm & _) Ht _]. pose proof Hp as [q Hq]%used_Some.
  pose proof (hmem_place _ _ _ _ Hm _ _ Hq) as (? & _ & _ & _ & ? & _). simpl in *.
  destruct (hmem_words _ _ _ _ Hm _ _ Hq) as (_ & _ & Mp). simpl in Mp.
  destruct (hmem_size _ _ _ _ Hm _ _ Hq) as [Ea Ea4]. simpl in Ea, Ea4.
  split_and!; [eapply mapped_sub; [done|lia..]|lia|lia|]. rewrite Ea. bnd.
  by destruct (hdr_used s true (pf q) Ea4) as (_ & -> & _).
Qed.

(** The words of the list after a change that keeps the blocks other than [p]. *)
Lemma delayed_kept m' : pres m m' (delete (p - 8) (used C)) (mm_heapend h) ->
  dlist m (mm_delaylist h) D -> dlist m' (mm_delaylist h) D.
Proof.
  intros Hpr Hdl. eapply dlist_frame; [done|]. eapply delayed_word; [apply Hin|done|].
  destruct (hi_delayed _ _ _ _ Hin) as [Hnd Hu]. split; [by apply NoDup_cons|].
  intros d [->|Hd]%elem_of_cons; [by exists s|by apply Hu].
Qed.

(** The heap is locked: the block goes to the list. *)
Lemma add_delaylist_spec : exists m', add_delaylist m h p = Some (m', set_delaylist p h) /\
  hinv m' (set_delaylist p h) C (p :: D) /\ pres m m' (delete (p - 8) (used C)) (mm_heapend h).
Proof.
  destruct block_word as (Mp & Hpr & Hw). pose proof Hin as [Hok Hdl [Hnd Hu]].
  set (m' := wr m p (mm_delaylist h)).
  assert (Hd : differ (payload (p - 8) s) m m').
  { apply differ_wr; [apply differ_refl|done|]. unfold payload. intros. lia. }
  pose proof (write_pres _ _ _ _ _ _ Hok Hp Hd) as Hpres.
  exists m'. unfold add_delaylist, MM_SIZEOF_ALLOCNODE. destruct (ld m (o_size (p - 8))) as [w|]; [|done].
  cbn [mbind option_bind] in *. rewrite Hw. bnd. rewrite st_ok by done. bnd. split_and!; [done| |done].
  split; [|split; [done|]|].
  - pose proof Hp as [q Hq]%used_Some.
    by eapply heap_ok_fields, (heap_ok_write m m' h C _ s q Hok Hq Hs Hd).
  - exists (mm_delaylist h). unfold m' at 1. rewrite ld_wr_eq. split; [|by apply delayed_kept].
    f_equal. apply u32_small. destruct D as [|d D']; simpl in Hdl; [lia|]. destruct Hdl as [-> _].
    destruct (Hu d) as (s' & [q Hq]%used_Some & ?); [set_solver|]. destruct Hok as [(F & Hm & _) _ _].
    pose proof (hmem_place _ _ _ _ Hm _ _ Hq) as (? & _ & _ & _ & ? & _). simpl in *. lia.
  - split; [by apply NoDup_cons|]. intros d [->|Hd']%elem_of_cons; [by exists s|by apply Hu].
Qed.

Lemma free_spec : exists m' h' C' D', mm_free c m h p = Some (m', h') /\ hinv m' h' C' D' /\
  live (used C') D' = delete (p - 8) (live (used C) D) /\
  pres m m' (delete (p - 8) (used C)) (mm_heapend h) /\ same_regions h h' /\
  booked (usum (used C') - usum (used C)) h h' /\
  (0 <= mm_lock c -> D' = D /\ used C' = delete (p - 8) (used C)).
Proof.
  pose proof Hin as [Hok Hdl [Hnd Hu]]. destruct block_word as (_ & Hpr & _).
  unfold mm_free. rewrite (proj2 (Z.eqb_neq p 0)) by lia.
  pose proof (block_member _ _ _ _ _ Hok Hp Hs) as Hmem. replace (p - 8 + 8) with p in Hmem by lia.
  rewrite Hmem. cbn [dassert]. bnd. change (0 <? CONFIG_MM_FREE_DELAYCOUNT_MAX) with false.
  destruct (Z.ltb_spec (mm_lock c) 0) as [Hl|Hl].
  - destruct add_delaylist_spec as (m' & E & Hin' & Hpres). unfold mm_delayfree.
    rewrite (proj2 (Z.ltb_lt _ _)) by lia. rewrite E. eexists m', _, C, (p :: D).
    split_and!; try done; [by rewrite live_push| |lia]. rewrite Z.sub_diag.
    apply (booked_acct 0 p), acct_refl.
  - pose proof Hp as [q Hq]%used_Some.
    destruct (delayfree_spec c m h C (p - 8) s q Hok Hq Hs Hl) as (m' & C' & E & Hok' & Hu' & Hk%keeps_pres).
    replace (p - 8 + 8) with p in E by lia. rewrite E. eexists m', _, C', D. split_and!; try done.
    + split; [by eapply heap_ok_fields, Hok'|by apply delayed_kept|]. split; [done|]. intros d Hd.
      destruct (Hu d Hd) as (s' & ? & ?). exists s'. split; [|done]. rewrite Hu', lookup_delete_ne; [done|].
      assert (d <> p) by congruence. lia.
    + by rewrite Hu', live_delete.
    + rewrite Hu', (usum_delete _ _ _ Hp).
      eapply booked_trans; [apply booked_refl|apply (acct_add (- s))|lia].
Qed.
End free.

(** ** Filling and copying *)

Lemma mappedb_mapped m lo hi b : mapped m lo hi -> lo <= b < hi -> mappedb m b = true.
Proof. intros Hm Hb. by apply mappedb_true, Hm. Qed.

Lemma dom_set (m : mem) b v : is_Some (m !! b) -> dom (<[b := v]> m) = dom m.
Proof. intros Hb. rewrite dom_insert_L. apply elem_of_dom in Hb. set_solver. Qed.

Lemma mapped_set m b v lo hi : mapped m lo hi -> mapped (<[b := v]> m) lo hi.
Proof. intros Hm i Hi. apply lookup_insert_is_Some'. right. by apply Hm. Qed.

Lemma memset_spec n m s c : mapped m s (s + Z.of_nat n) -> exists m',
  memset_loop n m s c = Some m' /\ differ (fun b => s <= b < s + Z.of_nat n) m m' /\
  forall b, s <= b < s + Z.of_nat n -> m' !! b = Some (u8 c).
Proof.
  revert m s. induction n as [|n IH]; intros m s Hm.
  - exists m. split_and!; [done|apply differ_refl|lia].
  - simpl. rewrite (mappedb_mapped m s (s + Z.of_nat (S n))) by (done || lia).
    destruct (IH (<[s := u8 c]> m) (s + 1)) as (m' & -> & [Hd Hb] & Hv).
    { apply mapped_set. eapply mapped_sub; [done|lia..]. }
    exists m'. split_and!; [done|split|].
    + by rewrite Hd, dom_set by (apply Hm; lia).
    + intros b Hn. rewrite Hb by lia. rewrite lookup_insert_ne by lia. done.
    + intros b Hi. destruct (decide (b = s)) as [->|]; [|apply Hv; lia].
      rewrite Hb by lia. by rewrite lookup_insert_eq.
Qed.

(** Copying towards lower addresses, or to a place apart. *)
Lemma memcpy_spec n m d s : mapped m d (d + Z.of_nat n) -> mapped m s (s + Z.of_nat n) ->
  d <= s \/ s + Z.of_nat n <= d -> exists m',
  memcpy_loop n m d s = Some m' /\ differ (fun b => d <= b < d + Z.of_nat n) m m' /\
  forall i, 0 <= i < Z.of_nat n -> m' !! (d + i) = m !! (s + i).
Proof.
  revert m d s. induction n as [|n IH]; intros m d s Hmd Hms Ho.
  - exists m. split_and!; [done|apply differ_refl|lia].
  - simpl. destruct (Hms s) as [b Hb]; [lia|]. rewrite Hb. bnd.
    rewrite (mappedb_mapped m d (d + Z.of_nat (S n))) by (done || lia).
    destruct (IH (<[d := b]> m) (d + 1) (s + 1)) as (m' & -> & [Hd Hk] & Hv).
    { apply mapped_set. eapply mapped_sub; [exact Hmd|lia..]. }
    { apply mapped_set. eapply mapped_sub; [exact Hms|lia..]. }
    { lia. }
    exists m'. split_and!; [done|split|].
    + by rewrite Hd, dom_set by (apply Hmd; lia).
    + intros i Hn. rewrite Hk by lia. by rewrite lookup_insert_ne by lia.
    + intros i Hi. destruct (decide (i = 0)) as [->|].
      * rewrite !Z.add_0_r, Hk by lia. by rewrite lookup_insert_eq.
      * replace (d + i) with (d + 1 + (i - 1)) by lia. rewrite Hv by lia.
        rewrite lookup_insert_ne by lia. f_equal. lia.
Qed.

(** All bytes of a block are mapped. *)
Lemma block_mapped m h C a s : heap_ok m h C -> used C !! a = Some s -> 16 <= s ->
  mapped m (a + 8) (a + s + 4) /\ 0 < a /\ a mod 8 = 0 /\ a + s + 8 <= 2 ^ 32.
Proof.
  intros Hok Ha Hs. pose proof (block_inner _ _ _ _ _ Hok Ha Hs) as HaE.
  destruct Hok as [(F & Hm & _) Ht _]. apply used_Some in Ha as [p Ha].
  destruct (t_next _ _ _ Ht _ _ Ha HaE) as (d & Hd & _). simpl in Hd.
  destruct (hmem_words _ _ _ _ Hm _ _ Ha) as (_ & _ & M1).
  destruct (hmem_words _ _ _ _ Hm _ _ Hd) as (_ & _ & M2).
  pose proof (hmem_place _ _ _ _ Hm _ _ Hd) as (? & _ & ? & _ & ? & _). simpl in M1.
  pose proof (hmem_place _ _ _ _ Hm _ _ Ha) as (? & ? & _). simpl in M1.
  split_and!; [|lia|done|lia]. eapply mapped_sub; [exact (mapped_join _ _ _ _ M1 M2)|lia..].
Qed.

(** Filling a block: the state of the heap stays. *)
Lemma hinv_write m m' h C D a s :
  hinv m h C D -> used C !! a = Some s -> 16 <= s -> a + 8 ∉ D -> differ (payload a s) m m' ->
  hinv m' h C D /\ pres m m' (delete a (used C)) (mm_heapend h).
Proof.
  intros Hin Ha Hs HaD Hd. pose proof Hin as [Hok Hdl Hde].
  pose proof (write_pres _ _ _ _ _ _ Hok Ha Hd) as Hp. split; [|done]. split; [..|done].
  - pose proof Ha as [q Hq]%used_Some. by eapply heap_ok_write.
  - replace a with (a + 8 - 8) in Ha, Hp by lia. by eapply (delayed_kept m h C D (a + 8) s).
Qed.

Lemma zalloc_spec c m h C D size : hinv m h C D -> 0 <= mm_lock c -> 0 <= size < 2 ^ 32 ->
  exists r m' h' C', mm_zalloc c m h size = Some (r, m', h') /\ hinv m' h' C' [] /\
  allocated (live (used C) D) (used C') r size /\
  acct (usum (used C') - usum (used C)) (set_delaylist 0 h) h' /\
  pres m m' (live (used C) D) (mm_heapend h) /\
  (r <> 0 -> forall i, r <= i < r + size -> m' !! i = Some 0).
Proof.
  intros Hin Hlock Hsz. unfold mm_zalloc.
  destruct (malloc_spec c m h C D size Hin Hlock Hsz) as (r & m1 & h' & C' & -> & Hin1 & Hal & Hac & Hp). bnd.
  destruct (Z.eqb_spec r 0) as [->|Hr].
  { exists 0, m1, h', C'. by split_and!. }
  destruct Hal as [[? _]|(s & Hr0 & Hr8 & HN & Hu & Hs & Hss)]; [done|].
  assert (Hb : used C' !! (r - 8) = Some s) by (rewrite Hu; apply lookup_insert_eq).
  destruct (block_mapped _ _ _ _ _ (hi_ok _ _ _ _ Hin1) Hb Hs) as (Mp & _).
  destruct (memset_spec (Z.to_nat size) m1 r 0) as (m' & E & Hd & Hv).
  { eapply mapped_sub; [done|lia..]. }
  destruct (hinv_write m1 m' h' C' [] (r - 8) s) as [Hin' Hp']; try done; [by intros ?%elem_of_nil| |].
  { eapply differ_weaken; [done|]. unfold payload. intros b Hb'. simpl in Hb'. lia. }
  exists r, m', h', C'. unfold memset. rewrite E. bnd. split_and!; try done.
  - right. by exists s.
  - eapply pres_trans; [done|]. rewrite Hu, delete_insert_id in Hp' by done.
    by rewrite (ac_end _ _ _ Hac) in Hp'.
  - intros _ i Hi. apply Hv. lia.
Qed.
