(* ===== verification/HeapResize.v ===== *)
(** * Changing the size of a block, and aligned blocks

    [mm_realloc] and [mm_memalign] on a heap in the invariant. *)

From S2P Require Import Prelude.
From stdpp Require Import gmap sorting.
From S2P Require Import Heap HeapList HeapInv HeapOps HeapAlloc HeapMove HeapCalls.
Local Open Scope Z_scope.

(** ** Moving a block in several steps *)

Lemma moved_acct d m h h' C a m' C' z k q :
  acct d h h' -> moved m h C a m' C' z k q <-> moved m h' C a m' C' z k q.
Proof.
  intros Hac. unfold moved. rewrite (ac_end _ _ _ Hac). split; intros (Hok & ? & ? & ?); split_and!; try done.
  - by eapply acct_ok.
  - destruct Hac. by eapply heap_ok_fields, Hok.
Qed.

Lemma chunk_moved_trans m h C a m1 C1 z k q m2 C2 k2 q2 :
  moved m h C a m1 C1 z k q -> used C !! z = None \/ z = a -> moved m1 h C1 z m2 C2 z k2 q2 ->
  moved m h C a m2 C2 z k2 q2.
Proof.
  intros (Hok1 & Hu1 & Hz1 & Hk1) Hz (Hok2 & Hu2 & Hz2 & Hk2). split_and!; [done| |done|].
  - by rewrite Hu2, Hu1, delete_insert_eq, insert_delete_eq.
  - by eapply keeps_trans.
Qed.

(** The bytes of the block after it was copied down. *)
Lemma moved_write m h C a m1 C1 z k q m2 :
  moved m h C a m1 C1 z k q -> used C !! z = None \/ z = a -> 16 <= k -> differ (payload z k) m1 m2 ->
  moved m h C a m2 C1 z k q.
Proof.
  intros (Hok1 & Hu1 & Hz1 & Hk1) Hz Hk Hd.
  assert (Hb : used C1 !! z = Some k) by (apply used_Some; by exists q).
  split_and!; [by eapply heap_ok_write|done..|]. eapply keeps_trans; [done..|].
  apply keeps_pres. by eapply write_pres.
Qed.

(** What the rest of the heap sees of a moved block. *)
Lemma moved_hinv d m h h' C D a m' C' z k q s :
  hinv m h C D -> used C !! a = Some s -> 16 <= s -> a + 8 ∉ D -> moved m h C a m' C' z k q ->
  used C !! z = None \/ z = a -> acct d h h' ->
  hinv m' h' C' D /\ live (used C') D = <[z := k]> (delete a (live (used C) D)) /\
  pres m m' (delete a (used C)) (mm_heapend h) /\ delete a (live (used C) D) !! z = None.
Proof.
  intros Hin Ha Hs HaD (Hok & Hu & Hz' & Hk%keeps_pres) Hz Hac. pose proof Hin as [_ Hdl [Hnd Hde]].
  assert (HzD : z + 8 ∉ D).
  { destruct Hz as [Hz| ->]; [|done]. intros Hd. destruct (Hde _ Hd) as (t & Ht & _).
    replace (z + 8 - 8) with z in Ht by lia. congruence. }
  split_and!; [split| |done|].
  - by eapply acct_ok.
  - rewrite (ac_delay _ _ _ Hac). replace a with (a + 8 - 8) in Ha, Hk by lia.
    by eapply (delayed_kept m h C D (a + 8) s).
  - split; [done|]. intros d' Hd'. destruct (Hde d' Hd') as (t & Ht & ?). exists t. split; [|done].
    assert (d' <> a + 8 /\ d' <> z + 8) as [? ?] by (split; congruence).
    rewrite Hu, lookup_insert_ne, lookup_delete_ne by lia. done.
  - rewrite Hu. apply map_eq. intros b. apply option_eq. intros t. rewrite live_Some.
    destruct (decide (b = z)) as [->|]; [rewrite !lookup_insert_eq; naive_solver|].
    rewrite !lookup_insert_ne, !lookup_delete_Some, live_Some by done. tauto.
  - destruct Hz as [Hz| ->]; [|apply lookup_delete_eq]. apply lookup_delete_None. right.
    destruct (live (used C) D !! z) eqn:E; [|done]. apply live_Some in E as [E _]. congruence.
Qed.

(** ** Growing in place *)

Lemma realloc_plan_spec needed pv nx : 0 < needed <= pv + nx -> 0 <= pv -> 0 <= nx ->
  needed mod 8 = 0 -> pv mod 8 = 0 -> nx mod 8 = 0 ->
  let '(tp, tn) := realloc_plan needed pv nx in
  tp + tn = needed /\ 0 <= tp <= pv /\ 0 <= tn <= nx /\ tp mod 8 = 0 /\ tn mod 8 = 0.
Proof.
  intros. unfold realloc_plan.
  repeat match goal with |- context [ ?a <? ?b ] => destruct (Z.ltb_spec a b) end; split_and!; lia || zlia.
Qed.

Section extend.
Context (m : mem) (h : mm_heap_s) (C : chunks) (a s : Z) (p : option Z) (d : chunk).
Context (Hok : heap_ok m h C) (Ha : C !! a = Some (Chunk s true p)) (Hs : 16 <= s).
Context (Hn : C !! (a + s) = Some d).

(** The free neighbours as [mm_realloc] sees them. *)
Definition prev_node : Z := if p is Some r then a - r else 0.
Definition prev_size : Z := if p is Some r then r else 0.
Definition next_size : Z := if c_used d then 0 else c_size d.

Lemma prev_size_spec : 0 <= prev_size /\ prev_size mod 8 = 0 /\ (0 < prev_size -> 0 < prev_node < 2 ^ 32).
Proof.
  unfold prev_size, prev_node. destruct p as [r|] eqn:Ep; [|done]. destruct Hok as [(F & Hm & Hl) Ht Hc].
  destruct (prev_facts m h C F a s r Hm Hl Ht Hc Ha Hs) as (cy & _ & _ & _ & _ & Hr1 & Hr2 & _).
  destruct Hr1 as (? & ? & ? & ? & ? & _). split_and!; [lia|zlia|lia].
Qed.

Lemma next_size_spec : 0 <= next_size /\ next_size mod 8 = 0 /\ a + s + next_size < 2 ^ 32.
Proof.
  unfold next_size. destruct Hok as [(F & Hm & Hl) Ht Hc].
  destruct (hmem_place _ _ _ _ Hm _ _ Hn) as (_ & _ & ? & ? & ? & _).
  destruct (c_used d); split_and!; lia || done.
Qed.

Lemma moved_here : moved m h C a m C a s p.
Proof.
  split_and!; [done| |done|apply keeps_refl]. rewrite insert_delete_eq. symmetry. apply insert_id, used_Some.
  eauto.
Qed.

Lemma extend_prev tp : 0 <= tp <= prev_size -> tp mod 8 = 0 -> exists g m1 h1 C1 q,
  (if tp =? 0 then Some (a, s, m, h)
   else _ ← dassert (negb (prev_node =? 0)); take_prev m h a prev_node s prev_size tp) =
    Some (a - g, s + g, m1, h1) /\
  tp <= g /\ acct (g - tp) h h1 /\ moved m h C a m1 C1 (a - g) (s + g) q /\
  (used C !! (a - g) = None \/ a - g = a) /\ C1 !! (a + s) = Some d /\
  (forall i, payload a s i -> m1 !! i = m !! i).
Proof.
  intros Htp Htp8. destruct (Z.eqb_spec tp 0) as [->|Hne].
  - exists 0, m, h, C, p. rewrite Z.sub_0_r, Z.add_0_r.
    split_and!; try done; [apply acct_refl|apply moved_here|by right].
  - destruct prev_size_spec as (_ & _ & Hpn). specialize (Hpn ltac:(lia)).
    rewrite (proj2 (Z.eqb_neq prev_node 0)) by lia. cbn [negb dassert]. bnd.
    unfold prev_size, prev_node in *. destruct p as [r|] eqn:Ep; [|lia].
    destruct Hok as [(F & Hm & Hl) Ht Hc].
    destruct (take_prev_spec m h C F a s r Hm Hl Ht Hc Ha Hs tp ltac:(lia) Htp8)
      as (m1 & h1 & C1 & g & q & E & Hg & Hac & Hmv & Hf & HyC & Hk).
    exists g, m1, h1, C1, q. rewrite HyC. split_and!; try done; [lia|by left].
Qed.
End extend.

Lemma extend_next m h C a s p d tn :
  heap_ok m h C -> C !! a = Some (Chunk s true p) -> 16 <= s -> C !! (a + s) = Some d ->
  0 <= tn <= next_size d -> tn mod 8 = 0 -> exists g m1 h1 C1,
  (if tn =? 0 then Some (m, h) else take_next m h a (a + s) s (next_size d) tn) = Some (m1, h1) /\
  tn <= g /\ acct (g - tn) h h1 /\ moved m h C a m1 C1 a (s + g) p /\
  (forall i, payload a s i -> m1 !! i = m !! i).
Proof.
  intros Hok Ha Hs Hn Htn Htn8. destruct (Z.eqb_spec tn 0) as [->|Hne].
  - exists 0, m, h, C. rewrite Z.add_0_r. split_and!; try done; [apply acct_refl|by apply moved_here].
  - unfold next_size in *. destruct d as [t [] pd]; simpl in *; [lia|].
    pose proof Hok as [_ Ht Hc]. pose proof (free_prev_None _ _ _ _ _ Ht Hc Hn eq_refl) as E. simpl in E.
    subst pd.
    destruct (take_next_spec m h C a s t p tn Hok Ha Hs Hn ltac:(lia) Htn8)
      as (m1 & h1 & C1 & g & E & Hg & Hac & Hmv & Hk).
    exists g, m1, h1, C1. split_and!; try done. lia.
Qed.

(** The copy of the contents when the start of the block moved by [g]. *)
Lemma move_down m h C a s m1 C1 g k q :
  moved m h C a m1 C1 (a - g) k q -> used C !! (a - g) = None \/ a - g = a -> 16 <= s -> 0 <= g ->
  s + g <= k -> (forall i, payload a s i -> m1 !! i = m !! i) -> exists m2,
  (if a - g + 8 =? a + 8 then Some m1 else memcpy m1 (a - g + 8) (a + 8) (s - 4)) = Some m2 /\
  moved m h C a m2 C1 (a - g) k q /\ forall i, 0 <= i < s - 4 -> m2 !! (a - g + 8 + i) = m !! (a + 8 + i).
Proof.
  intros Hmv Hf Hs Hg Hk Hkeep. pose proof Hmv as (Hok1 & Hu1 & Hz1 & _).
  destruct (Z.eqb_spec (a - g + 8) (a + 8)) as [E|Hne].
  - exists m1. split_and!; [done..|]. intros i Hi. rewrite E. apply Hkeep. unfold payload. lia.
  - assert (Hb : used C1 !! (a - g) = Some k) by (apply used_Some; eauto).
    destruct (block_mapped _ _ _ _ _ Hok1 Hb ltac:(lia)) as (Mp & _).
    destruct (memcpy_spec (Z.to_nat (s - 4)) m1 (a - g + 8) (a + 8)) as (m2 & E2 & Hd & Hv).
    { eapply mapped_sub; [done|lia..]. }
    { eapply mapped_sub; [done|lia..]. }
    { lia. }
    unfold memcpy. rewrite E2. exists m2. split_and!; [done| |].
    + eapply moved_write; [done..|lia|]. eapply differ_weaken; [done|]. unfold payload. intros b Hb'.
      simpl in Hb'. lia.
    + intros i Hi. rewrite Hv by lia. apply Hkeep. unfold payload. lia.
Qed.

Lemma realloc_extend_spec m h C a s p d newsize :
  heap_ok m h C -> C !! a = Some (Chunk s true p) -> 16 <= s -> C !! (a + s) = Some d ->
  s < newsize <= next_size d + prev_size p + s -> newsize mod 8 = 0 -> exists g m' h' C' k q,
  realloc_extend m h (a + 8) a (prev_node a p) (a + s) newsize s (prev_size p) (next_size d) =
    Some (a - g + 8, m', h') /\
  moved m h C a m' C' (a - g) k q /\ (used C !! (a - g) = None \/ a - g = a) /\ newsize <= k /\
  acct (k - s) h h' /\ forall i, 0 <= i < s - 4 -> m' !! (a - g + 8 + i) = m !! (a + 8 + i).
Proof.
  intros Hok Ha Hs Hn Hnew Hnew8. pose proof Hok as [(F & Hm & _) _ _].
  pose proof (hmem_place _ _ _ _ Hm _ _ Ha) as (_ & ? & ? & ? & _). simpl in *.
  destruct (prev_size_spec m h C a s p Hok Ha Hs) as (? & ? & _).
  destruct (next_size_spec m h C a s d Hok Hn) as (? & ? & _).
  pose proof (realloc_plan_spec (newsize - s) (prev_size p) (next_size d)) as Hpl.
  unfold realloc_extend. destruct (realloc_plan _ _ _) as [tp tn].
  destruct Hpl as (Hsum & Htp & Htn & Htp8 & Htn8); [lia..|zlia|done|done|].
  destruct (extend_prev m h C a s p d Hok Ha Hs Hn tp Htp Htp8)
    as (g & m1 & h1 & C1 & q & E1 & Hg & Hac1 & Hmv1 & Hf & Hy1 & Hk1).
  rewrite E1. bnd. pose proof Hmv1 as (Hok1 & Hu1 & Hz1 & _).
  destruct (extend_next m1 h1 C1 (a - g) (s + g) q d tn)
    as (g2 & m2 & h2 & C2 & E2 & Hg2 & Hac2 & Hmv2 & Hk2); try done.
  { by eapply acct_ok. }
  { lia. }
  { by replace (a - g + (s + g)) with (a + s) by lia. }
  replace (a - g + (s + g)) with (a + s) in E2 by lia. rewrite E2. bnd.
  apply (moved_acct _ _ _ _ _ _ _ _ _ _ _ Hac1) in Hmv2.
  pose proof (chunk_moved_trans _ _ _ _ _ _ _ _ _ _ _ _ _ Hmv1 Hf Hmv2) as Hmv.
  destruct (move_down m h C a s m2 C2 g (s + g + g2) q Hmv Hf Hs) as (m3 & E3 & Hmv3 & Hv); [lia..| |].
  { intros i Hi. rewrite Hk2; [by apply Hk1|]. unfold payload in *. lia. }
  unfold MM_SIZEOF_ALLOCNODE, MM_ALLOCNODE_OVERHEAD. rewrite E3. bnd.
  eexists g, m3, _, C2, (s + g + g2), q. split_and!; try done; [lia|].
  eapply acct_trans; [exact Hac1|eapply acct_trans; [exact Hac2|eapply acct_trans;
    [apply acct_add|apply acct_track|]|]|]; [done..|].
  lia.
Qed.

(** ** Changing the size *)

Lemma hmem_size_8 m h C a c : heap_ok m h C -> C !! a = Some c -> c_size c mod 8 = 0.
Proof. intros [(F & Hm & _) _ _] Ha. by destruct (hmem_place _ _ _ _ Hm _ _ Ha) as (_ & _ & _ & ? & _). Qed.

Section realloc.
Context (c : ctx) (m : mem) (h : mm_heap_s) (C : chunks) (D : list Z) (a s : Z).
Context (Hin : hinv m h C D) (Hlock : 0 <= mm_lock c).
Context (Ha : used C !! a = Some s) (Hs : 16 <= s) (HaD : a + 8 ∉ D).

Abbreviation L := (live (used C) D).
Abbreviation EN := (mm_heapend h).

(** The block has moved to [r] with at least [size] bytes and its contents, or
    nothing has changed. *)
Definition resized (size r : Z) (m' : mem) (C' : chunks) (D' : list Z) : Prop :=
  (r = 0 /\ live (used C') D' = L /\ pres m m' L EN) \/
  exists k, 0 < r /\ r mod 8 = 0 /\ delete a L !! (r - 8) = None /\
    live (used C') D' = <[r - 8 := k]> (delete a L) /\ 16 <= k /\ size + 4 <= k /\
    pres m m' (delete a L) EN /\ forall i, 0 <= i < Z.min (s - 4) size -> m' !! (r + i) = m !! (a + 8 + i).

Lemma live_a : L !! a = Some s.
Proof. by apply live_Some. Qed.

(** The block stays in the heap and moves to [z]. *)
Lemma moved_resized d m' h' C' z k q size :
  moved m h C a m' C' z k q -> used C !! z = None \/ z = a -> acct d h h' -> 16 <= k -> size + 4 <= k ->
  (forall i, 0 <= i < Z.min (s - 4) size -> m' !! (z + 8 + i) = m !! (a + 8 + i)) ->
  hinv m' h' C' D /\ same_regions h h' /\ resized size (z + 8) m' C' D.
Proof.
  intros Hmv Hz Hac Hk Hsk Hc.
  destruct (moved_hinv d m h h' C D a m' C' z k q s) as (Hin' & Hl & Hp & Hf); try done.
  split; [done|]. split; [by destruct Hac; split|]. right. exists k. replace (z + 8 - 8) with z by lia.
  destruct Hmv as (Hok' & _ & Hz' & _). destruct Hok' as [(F & Hm & _) _ _].
  pose proof (hmem_place _ _ _ _ Hm _ _ Hz') as (? & ? & _). split_and!; try done; [lia|zlia|].
  eapply pres_sub; [done|]. apply delete_mono, live_sub.
Qed.

Lemma realloc_shrink p k size : C !! a = Some (Chunk s true p) -> 16 <= k <= s -> k mod 8 = 0 ->
size + 4 <= k ->
  exists m' h' C', (if k <? s then m' ← mm_shrinkchunk m (add_curused (k - s) h) a k;
                                  Some (a + 8, m', add_curused (k - s) h)
                    else Some (a + 8, m, h)) = Some (a + 8, m', h') /\
  hinv m' h' C' D /\ same_regions h h' /\ resized size (a + 8) m' C' D.
Proof.
  intros Hp Hk Hk8 Hsk. pose proof (hi_ok _ _ _ _ Hin) as Hok. destruct (Z.ltb_spec k s) as [Hlt|Hge].
  - pose proof (acct_add (k - s) h) as Hac.
    destruct (shrink_moved m (add_curused (k - s) h) C a s p k) as (m' & C' & k' & E & Hmv & Hk' & Hkeep);
      try done.
    { by eapply acct_ok. }
    rewrite E. bnd. eexists m', _, C'. split; [done|].
    eapply (moved_resized (k - s) _ _ _ _ k');
      [by apply (moved_acct _ _ _ _ _ _ _ _ _ _ _ Hac)|by right|done|lia|lia|].
    intros i Hi. apply Hkeep. lia.
  - exists m, h, C. split; [done|].
    eapply (moved_resized 0 _ _ _ _ s); [by eapply moved_here|by right|apply acct_refl|lia|lia|].
    done.
Qed.

(** The block is copied to a new one. *)
Lemma realloc_new size : 0 <= size < 2 ^ 32 -> s <= size + 4 ->
  exists r m' h' C' D', ('(newmem, m, h) ← mm_malloc c m h size;
    if newmem =? 0 then Some (newmem, m, h)
    else m ← memcpy m newmem (a + 8) (s - 4); '(m, h) ← mm_free c m h (a + 8); Some (newmem, m, h)) =
    Some (r, m', h') /\ hinv m' h' C' D' /\ same_regions h h' /\ resized size r m' C' D'.
Proof.
  intros Hsz Hss.
  destruct (malloc_spec c m h C D size Hin Hlock Hsz) as (r & m1 & h1 & C1 & -> & Hin1 & Hal & Hac & Hp1).
  bnd.
  pose proof (acct_regions _ _ _ _ Hac) as (Hst & Hen & Hhs). pose proof live_a as HLa.
  destruct Hal as [[-> Hu1]|(k & Hr & Hr8 & Hf & Hu1 & Hk & Hsk)].
  { rewrite Z.eqb_refl. exists 0, m1, h1, C1, []. split; [done|]. split; [done|]. split; [by split|]. left.
    rewrite live_nil. by split_and!. }
  rewrite (proj2 (Z.eqb_neq r 0)) by lia.
  assert (Hne : r - 8 <> a) by congruence.
  assert (Hb : used C1 !! (r - 8) = Some k) by (rewrite Hu1; apply lookup_insert_eq).
  assert (Hb' : used C1 !! a = Some s) by (by rewrite Hu1, lookup_insert_ne).
  pose proof (hi_ok _ _ _ _ Hin1) as Hok1.
  destruct (block_mapped _ _ _ _ _ Hok1 Hb Hk) as (Mr & _).
  destruct (block_mapped _ _ _ _ _ Hok1 Hb' Hs) as (Ma & _).
  destruct (memcpy_spec (Z.to_nat (s - 4)) m1 r (a + 8)) as (m2 & E2 & Hd2 & Hv2).
  { eapply mapped_sub; [exact Mr|lia..]. }
  { eapply mapped_sub; [exact Ma|lia..]. }
  { destruct Hok1 as [(F & Hm & _) _ _]. pose proof (hmem_geo _ _ _ _ Hm) as Hg.
    apply used_Some in Hb as [q Hq]. apply used_Some in Hb' as [q' Hq'].
    destruct (geo_apart _ _ Hg _ _ _ _ Hq Hq') as [?|[?|?]]; simpl in *; lia. }
  unfold memcpy. rewrite E2. bnd.
  destruct (hinv_write m1 m2 h1 C1 [] (r - 8) k) as [Hin2 Hp2]; try done; [by intros ?%elem_of_nil| |].
  { eapply differ_weaken; [done|]. unfold payload. intros b Hb2. simpl in Hb2. lia. }
  destruct (free_spec c m2 h1 C1 [] (a + 8) s)
    as (m3 & h3 & C3 & D3 & -> & Hin3 & Hl3 & Hp3 & (Hst3 & Hen3 & Hhs3) & _); try done.
  { by replace (a + 8 - 8) with a by lia. }
  { by intros ?%elem_of_nil. }
  bnd. replace (a + 8 - 8) with a in Hl3, Hp3 by lia. rewrite live_nil, Hu1, delete_insert_ne in Hl3 by done.
  exists r, m3, h3, C3, D3. split_and!; try done; [repeat split; congruence|]. right. exists k.
  split_and!; try done.
  - by apply lookup_delete_None; right.
  - eapply pres_trans; [eapply pres_sub; [exact Hp1|apply delete_subseteq]|].
    rewrite Hen in Hp2, Hp3. eapply pres_trans; [eapply pres_sub; [exact Hp2|]|eapply pres_sub; [exact Hp3|]].
    + rewrite Hu1, delete_insert_id by done. apply delete_subseteq.
    + rewrite Hu1, delete_insert_ne by done. apply insert_subseteq, lookup_delete_None. by right.
  - intros i Hi. destruct Hp3 as [_ Hp3].
    rewrite (Hp3 (r - 8) k); [|by rewrite lookup_delete_ne| |unfold payload; lia].
    + rewrite Hv2 by lia. destruct Hp1 as [_ Hp1]. eapply (Hp1 a s); [done| |unfold payload; lia].
      eapply block_inner; [apply Hin|done..].
    + by eapply block_inner.
Qed.

(** What [mm_realloc] reads before it decides. *)
Lemma realloc_reads p d : C !! a = Some (Chunk s true p) -> C !! (a + s) = Some d ->
  ld m (o_size a) = Some (hdr s true (pf p)) /\ s mod 4 = 0 /\
  ld m (o_size (a + s)) = Some (hdr (c_size d) (c_used d) false) /\ c_size d mod 4 = 0 /\
  (if MM_PREVNODE_IS_FREE (hdr s true (pf p))
   then p ← ld m (o_preceding a);
        wp ← ld m (o_size (a - p));
        _ ← dassert (MM_NODE_IS_FREE wp);
        Some (a - p, MM_SIZEOF_NODE wp)
   else Some (0, 0)) = Some (prev_node a p, prev_size p).
Proof.
  intros Hp Hd. pose proof (hi_ok _ _ _ _ Hin) as [(F & Hm & Hl) Ht Hc].
  destruct (inner_chunk _ _ _ _ _ Ht Hp ltac:(simpl; lia)) as [_ HaE].
  destruct (t_next _ _ _ Ht _ _ Hp HaE) as (d' & Hd' & Hpd). simpl in Hd', Hpd. rewrite Hd in Hd'.
  simplify_eq.
  destruct (hmem_size _ _ _ _ Hm _ _ Hp) as [Ea Ea4]. simpl in Ea, Ea4.
  destruct (hmem_size _ _ _ _ Hm _ _ Hd) as [Ed Ed4]. rewrite Hpd in Ed. split_and!; try done.
  destruct (hdr_used s true (pf p) Ea4) as (_ & _ & _ & _ & ->). destruct p as [r|]; [|done]. simpl pf.
  cbv iota.
  rewrite (hmem_prec _ _ _ _ Hm _ _ r Hp) by done. bnd.
  destruct (t_prev _ _ _ Ht _ _ r Hp eq_refl) as [q Hq].
  destruct (hmem_size _ _ _ _ Hm _ _ Hq) as [Eq Eq4]. simpl in Eq, Eq4. rewrite Eq. bnd.
  by destruct (hdr_used r false (pf q) Eq4) as (-> & _ & -> & _).
Qed.

Lemma realloc_spec size : 0 <= size < 2 ^ 32 ->
  exists r m' h' C' D', mm_realloc c m h (a + 8) size = Some (r, m', h') /\ hinv m' h' C' D' /\
  same_regions h h' /\ resized size r m' C' D'.
Proof.
  intros Hsz. pose proof (hi_ok _ _ _ _ Hin) as Hok.
  destruct (block_mapped _ _ _ _ _ Hok Ha Hs) as (_ & ? & ? & Hlim).
  unfold mm_realloc. rewrite (proj2 (Z.eqb_neq (a + 8) 0)) by lia.
  rewrite (block_member _ _ _ _ _ Hok Ha Hs). cbn [dassert]. bnd. cbv zeta.
  set (size' := if size <? _ then _ else size). set (k := MM_ALIGN_UP _).
  assert (Hcs : chunk_size size = if k <? size' then None else Some k) by done.
  assert (Hsz' : size <= size' < 2 ^ 32).
  { unfold size', MM_MIN_CHUNK, MM_ALLOCNODE_OVERHEAD. destruct (Z.ltb_spec size (16 - 4)); lia. }
  destruct (chunk_size_spec size Hsz) as [[E _]|(al & E & Hal & Hal8 & Hsa & Hal2)];
    rewrite E in Hcs; destruct (Z.ltb_spec k size') as [Hk|Hk]; simplify_eq.
  { exists 0, m, h, C, D. split_and!; try done. left. split_and!; try done. }
  replace (a + 8 - MM_SIZEOF_ALLOCNODE) with a by (unfold MM_SIZEOF_ALLOCNODE; lia).
  rewrite lock_ok by done. bnd. pose proof Ha as [p Hp]%used_Some.
  destruct (t_next _ _ _ (ok_tiled _ _ _ Hok) _ _ Hp) as (d & Hd & _); [by eapply block_inner|]. simpl in Hd.
  destruct (realloc_reads p d Hp Hd) as (Ea & Ea4 & Ed & Ed4 & Epv). rewrite Ea. bnd.
  destruct (hdr_used s true (pf p) Ea4) as (Es & -> & _). rewrite Es. cbn [dassert]. bnd.
  destruct (Z.leb_spec k s) as [Hks|Hks].
  - destruct (realloc_shrink p k size Hp ltac:(lia) Hal8 Hsa) as (m' & h' & C' & Er & ?).
    exists (a + 8), m', h', C', D. by destruct (k <? s).
  - rewrite Ed. bnd. destruct (hdr_used (c_size d) (c_used d) false Ed4) as (-> & -> & -> & -> & _).
    rewrite orb_true_r. cbn [dassert]. bnd. rewrite Epv. bnd.
    replace (if negb (c_used d) then c_size d else 0) with (next_size d) by (unfold next_size;
      by destruct (c_used d)).
    destruct (prev_size_spec m h C a s p Hok Hp Hs) as (? & ? & Hpn).
    destruct (next_size_spec m h C a s d Hok Hd) as (? & ? & ?).
    assert (Hps : prev_size p <= a).
    { unfold prev_size, prev_node in *. destruct p as [r|]; lia. }
    rewrite (u32_small (next_size d + prev_size p + s)) by lia.
    destruct (Z.leb_spec k (next_size d + prev_size p + s)) as [Hfit|Hfit].
    + destruct (realloc_extend_spec m h C a s p d k)
        as (g & m' & h' & C' & k' & q & Er & Hmv & Hf & Hk' & Hac & Hv);
        [done..|lia|done|].
      eexists _, m', h', C', D. split; [done|]. eapply moved_resized; [done..|lia|lia|]. intros i Hi.
      apply Hv. lia.
    + unfold MM_ALLOCNODE_OVERHEAD.
      destruct (realloc_new size' ltac:(lia)) as (r & m' & h' & C' & D' & Er & Hin' & Hen & Hre).
      { pose proof (hmem_size_8 _ _ _ _ _ Hok Hp). simpl in *. destruct Hal2; [lia|]. zlia. }
      exists r, m', h', C', D'. split_and!; try done.
      destruct Hre as [?|(k' & ? & ? & ? & ? & ? & ? & ? & Hv)]; [by left|right]. exists k'.
      split_and!; try done; [lia|].
      intros i Hi. apply Hv. lia.
Qed.
End realloc.

(** ** Aligned blocks *)

Lemma malloc_size_spec m h C r s : heap_ok m h C -> used C !! (r - 8) = Some s -> 0 < r -> 16 <= s ->
  mm_malloc_size m r = Some (s - 4).
Proof.
  intros Hok Hb Hr Hs. destruct (block_mapped _ _ _ _ _ Hok Hb Hs) as (_ & _ & _ & ?).
  destruct Hok as [(F & Hm & _) _ _]. pose proof Hb as [p Hp]%used_Some.
  destruct (hmem_size _ _ _ _ Hm _ _ Hp) as [Ea Ea4]. simpl in Ea, Ea4.
  unfold mm_malloc_size, MM_SIZEOF_ALLOCNODE, MM_ALLOCNODE_OVERHEAD. rewrite (proj2 (Z.eqb_neq r 0)) by lia.
  rewrite Ea. bnd. destruct (hdr_used s true (pf p) Ea4) as (-> & -> & _). cbn [dassert]. bnd.
  by rewrite u32_small by lia.
Qed.

(** The test of [mm_memalign] accepts zero and the powers of two. *)
Lemma power_of_two al : 0 < al < 2 ^ 32 -> Z.land al (u32 (- al)) = al -> exists n, 0 <= n < 32 /\ al = 2 ^ n.
Proof.
  intros Hal He. pose proof (Z.log2_spec al) as Hlog. exists (Z.log2 al).
  pose proof (Z.log2_nonneg al). assert (Z.log2 al < 32) by (apply Z.log2_lt_pow2; lia). split; [lia|].
  destruct (decide (al = 2 ^ Z.log2 al)) as [|Hne]; [done|exfalso].
  assert (Hb : Z.testbit al (Z.log2 al) = true) by (apply Z.bit_log2; lia).
  pose proof Hb as Hb'. rewrite <- He, Z.land_spec in Hb' at 1. apply andb_true_iff in Hb' as [_ Hb'].
  unfold u32 in Hb'. rewrite Z.mod_pow2_bits_low in Hb' by lia.
  replace (- al) with (Z.lnot (al - 1)) in Hb' by (unfold Z.lnot; lia). rewrite Z.lnot_spec in Hb' by lia.
  assert (Hl : Z.log2 (al - 1) = Z.log2 al) by (apply Z.log2_unique; lia).
  rewrite <- Hl, Z.bit_log2 in Hb'; [done|]. pose proof (Z.pow_pos_nonneg 2 (Z.log2 al)). lia.
Qed.

Lemma round_up n v : 0 <= n < 32 -> 0 <= v -> v + 2 ^ n <= 2 ^ 32 ->
  let r := Z.land (u32 (v + (2 ^ n - 1))) (Z.lnot (2 ^ n - 1)) in v <= r < v + 2 ^ n /\ r mod 2 ^ n = 0.
Proof.
  intros Hn Hv Hlim. pose proof (Z.pow_pos_nonneg 2 n). rewrite u32_small by lia. cbv zeta.
  replace (2 ^ n - 1) with (Z.ones n) at 2 4 6 by (rewrite Z.ones_equiv; lia).
  rewrite <- Z.ldiff_land, Z.ldiff_ones_r, Z.shiftl_mul_pow2, Z.shiftr_div_pow2 by lia.
  rewrite Z.mod_mul by lia. split; [|done].
  pose proof (Z.div_mod (v + (2 ^ n - 1)) (2 ^ n)). pose proof (Z.mod_pos_bound (v + (2 ^ n - 1)) (2 ^ n)).
  lia.
Qed.

(** Multiples of a larger power of two are multiples of 8. *)
Lemma mod_8_of n v : 3 <= n -> v mod 2 ^ n = 0 -> v mod 8 = 0.
Proof.
  intros Hn Hv. replace (2 ^ n) with (8 * 2 ^ (n - 3)) in Hv.
  - pose proof (Z.pow_pos_nonneg 2 (n - 3)). apply Z.mod_divide in Hv as [q ->]; [|lia].
    apply Z.mod_divide; [lia|]. exists (q * 2 ^ (n - 3)). lia.
  - change 8 with (2 ^ 3). rewrite <- Z.pow_add_r by lia. f_equal. lia.
Qed.

Section align.
Context (m : mem) (h : mm_heap_s) (C : chunks) (a s n size W : Z) (p : option Z).
Context (Hok : heap_ok m h C) (Ha : C !! a = Some (Chunk s true p)) (Hn : 4 <= n < 31).
Context (HW : 16 <= W) (HsW : 0 <= size <= W) (Hs : W + 2 * 2 ^ n + 4 <= s).

Lemma align_bounds : 0 < a /\ a mod 8 = 0 /\ a + s + 8 <= 2 ^ 32 /\ 16 <= 2 ^ n /\ s mod 8 = 0.
Proof.
  pose proof (hmem_size_8 _ _ _ _ _ Hok Ha). pose proof (Z.pow_le_mono_r 2 4 n).
  assert (Hu : used C !! a = Some s) by (apply used_Some; eauto).
  destruct (block_mapped _ _ _ _ _ Hok Hu) as (_ & ? & ? & ?); [lia|]. split_and!; lia || done.
Qed.

(** The start of the aligned block. *)
Lemma align_start : exists z k asz m1 C1 q,
  (let alignedchunk := Z.land (u32 (a + 8 + (2 ^ n - 1))) (Z.lnot (2 ^ n - 1)) in
   if alignedchunk =? a + 8 then Some (alignedchunk, a, W + 2 * 2 ^ n, m)
   else
     let next := a + s in
     let alignedchunk := if (alignedchunk - MM_SIZEOF_ALLOCNODE) - a <? MM_MIN_CHUNK
                         then alignedchunk + 2 ^ n else alignedchunk in
     let newnode := alignedchunk - MM_SIZEOF_ALLOCNODE in
     m ← split_leading m h a newnode next;
     Some (alignedchunk, newnode, u32 (next - newnode - MM_ALLOCNODE_OVERHEAD), m)) =
    Some (z + 8, z, asz, m1) /\
  (z + 8) mod 2 ^ n = 0 /\ moved m h C a m1 C1 z k q /\ (used C !! z = None \/ z = a) /\
  W + 4 <= k /\ asz <= k /\ k <= s.
Proof.
  destruct align_bounds as (? & ? & ? & ? & ?).
  destruct (round_up n (a + 8)) as [Hr Hr0]; [lia..|]. cbv zeta. set (r := Z.land _ _) in *. clearbody r.
  assert (Hr8 : r mod 8 = 0) by (apply (mod_8_of n); [lia|done]).
  unfold MM_SIZEOF_ALLOCNODE, MM_MIN_CHUNK, MM_ALLOCNODE_OVERHEAD.
  destruct (Z.eqb_spec r (a + 8)) as [->|Hne].
  - exists a, s, (W + 2 * 2 ^ n), m, C, p. split_and!; try done; [by apply moved_here|by right|lia..].
  - set (r' := if r - 8 - a <? 16 then r + 2 ^ n else r).
    assert (Hr' : a + 8 + 16 <= r' < a + 8 + 2 * 2 ^ n /\ r' mod 2 ^ n = 0).
    { unfold r'. destruct (Z.ltb_spec (r - 8 - a) 16); [|split; [lia|done]]. split; [lia|].
      rewrite <- Hr0. rewrite <- (Z.mul_1_l (2 ^ n)) at 1. apply Z.mod_add. lia. }
    destruct Hr' as [Hr' Hr'0]. clearbody r'.
    assert (Hr'8 : r' mod 8 = 0) by (apply (mod_8_of n); [lia|done]).
    destruct (split_leading_spec m h C a s p (r' - 8)) as (m1 & C1 & q & E & Hmv & Hf);
      [done..|lia|lia|zlia|].
    rewrite E. bnd. eexists (r' - 8), _, _, m1, C1, q. replace (r' - 8 + 8) with r' by lia.
    split_and!; [done|done|exact Hmv|by left|lia| |lia]. rewrite u32_small by lia. lia.
Qed.

Lemma align_chunk_spec : size + 11 < 2 ^ 32 -> 12 <= size -> exists z k q m' h' C',
  align_chunk m h (a + 8) (2 ^ n) size (W + 2 * 2 ^ n) = Some (z + 8, m', h') /\
  (z + 8) mod 2 ^ n = 0 /\ moved m h C a m' C' z k q /\ (used C !! z = None \/ z = a) /\
  size + 4 <= k /\ 16 <= k /\ acct (k - s) h h'.
Proof.
  intros Hsz Hsz12. unfold align_chunk.
  replace (a + 8 - MM_SIZEOF_ALLOCNODE) with a by (unfold MM_SIZEOF_ALLOCNODE; lia).
  assert (Hsz0 : ld m (o_size a) = Some (hdr s true (pf p)) /\ s mod 4 = 0).
  { pose proof Hok as [(F & Hm & _) _ _]. by apply (hmem_size _ _ _ _ Hm _ _ Ha). }
  destruct Hsz0 as [Ea Ea4]. rewrite Ea. bnd. rewrite sizeof_hdr by done.
  set (h1 := add_curused (- s) h). pose proof (acct_add (- s) h) as Hac1. fold h1 in Hac1.
  destruct align_start as (z & k & asz & m1 & C1 & q & E1 & Hz & Hmv & Hf & Hk & Hasz & Hks).
  cbv zeta in E1. cbv zeta. change (split_leading m h1) with (split_leading m h). rewrite E1. bnd.
  destruct (align_up_spec (size + 4)) as [Hup Hup8]; [lia..|]. unfold MM_ALLOCNODE_OVERHEAD.
  rewrite (u32_small (size + 4)) by lia.
  set (k2 := MM_ALIGN_UP (size + 4)) in *. clearbody k2.
  assert (exists m2 C2 k', (if k2 <? asz then mm_shrinkchunk m1 h1 z k2 else Some m1) = Some m2 /\
    moved m h C a m2 C2 z k' q /\ size + 4 <= k' /\ 16 <= k') as (m2 & C2 & k' & E2 & Hmv2 & Hk2 & Hk16).
  { pose proof Hmv as (Hok1 & Hu1 & Hz1 & _). destruct (Z.ltb_spec k2 asz) as [Hlt|Hge].
    - destruct (shrink_moved m1 h1 C1 z k q k2) as (m2 & C2 & k' & E2 & Hmv2 & Hk' & _);
        [by eapply acct_ok|done|lia|done|].
      exists m2, C2, k'. apply (moved_acct _ _ _ _ _ _ _ _ _ _ _ Hac1) in Hmv2.
      split_and!; [done|by eapply chunk_moved_trans|lia..].
    - exists m1, C1, k. split_and!; try done; lia. }
  rewrite E2. bnd. pose proof Hmv2 as (Hok2 & _ & Hz2 & _). pose proof Hok2 as [(F2 & Hm2 & _) _ _].
  destruct (hmem_size _ _ _ _ Hm2 _ _ Hz2) as [Ez Ez4]. simpl in Ez, Ez4. rewrite Ez. bnd.
  rewrite sizeof_hdr, Hz by done. cbn [dassert Z.eqb]. bnd.
  eexists z, k', q, m2, _, C2. split_and!; try done.
  eapply acct_trans; [exact Hac1|eapply acct_trans; [apply acct_add|apply acct_track|done]|lia].
Qed.
End align.

Section memalign.
Context (c : ctx) (m : mem) (h : mm_heap_s) (C : chunks) (D : list Z) (al size : Z).
Context (Hin : hinv m h C D) (Hlock : 0 <= mm_lock c) (Hal : 0 < al < 2 ^ 32) (Hsz : 0 <= size < 2 ^ 32).

Abbreviation L := (live (used C) D).

Definition aligned (r : Z) (m' : mem) (h' : mm_heap_s) (C' : chunks) (D' : list Z) : Prop :=
  hinv m' h' C' D' /\ allocated L (live (used C') D') r size /\ r mod al = 0 /\
  pres m m' L (mm_heapend h) /\ booked (usum (used C') - usum (used C)) h h'.

Lemma aligned_none : aligned 0 m h C D.
Proof. split_and!; try done; [by left|]. rewrite Z.sub_diag. apply booked_refl. Qed.

(** A small alignment holds for all blocks. *)
Lemma memalign_small : al <= 8 -> Z.land al (u32 (- al)) = al -> exists r m' h' C' D',
  ('(ptr, m, heap) ← mm_malloc c m h size;
   _ ← dassert ((ptr =? 0) || (ptr mod al =? 0)); Some (ptr, m, heap)) = Some (r, m', h') /\
   aligned r m' h' C' D'.
Proof.
  intros Hle Hpow.
  destruct (malloc_spec c m h C D size Hin Hlock Hsz) as (r & m' & h' & C' & -> & Hin' & Hr & Hac & Hp). bnd.
  assert (Hmod : r mod al = 0).
  { assert (Hr8 : r mod 8 = 0) by (by destruct Hr as [[-> _]|(k & _ & ? & _)]).
    assert (Hd : al = 1 \/ al = 2 \/ al = 4 \/ al = 8).
    { assert (al = 1 \/ al = 2 \/ al = 3 \/ al = 4 \/ al = 5 \/ al = 6 \/ al = 7 \/ al = 8) as Hc by lia.
      destruct Hc as [->|[->|[->|[->|[->|[->|[->| ->]]]]]]]; vm_compute in Hpow; auto; discriminate. }
    destruct Hd as [->|[->|[->| ->]]]; zlia. }
  rewrite Hmod, orb_true_r. cbn [dassert]. bnd. exists r, m', h', C', [].
  split; [done|]. split_and!; try done; [by rewrite live_nil|by eapply booked_acct].
Qed.

(** A chunk with room for the alignment is cut at both ends. *)
(** The overflow tests on the sizes. *)
Lemma memalign_sizes n size' : 0 <= n < 31 -> 0 <= size' < 2 ^ 32 ->
  size' <= MM_ALIGN_UP size' -> MM_ALIGN_UP size' <= u32 (MM_ALIGN_UP size' + 2 * 2 ^ n) ->
  MM_ALIGN_UP size' < size' + 8 /\ MM_ALIGN_UP size' mod 8 = 0 /\
  u32 (MM_ALIGN_UP size' + 2 * 2 ^ n) = MM_ALIGN_UP size' + 2 * 2 ^ n.
Proof.
  intros Hn Hs' E1 E2. assert (0 < 2 ^ n <= 2 ^ 30) by (split; [lia|apply Z.pow_le_mono_r; lia]).
  assert (Hup : size' <= MM_ALIGN_UP size' < size' + 8 /\ MM_ALIGN_UP size' mod 8 = 0).
  { apply align_up_spec; [lia|]. destruct (decide (size' + 7 < 2 ^ 32)); [done|exfalso]. revert E1.
    unfold MM_ALIGN_UP. rewrite gran_down. unfold MM_GRAN_MASK.
    assert (u32 (size' + 7) <= 6); [|pose proof (u32_range (size' + 7)); zlia].
    unfold u32. replace (size' + 7) with ((size' + 7 - 2 ^ 32) + 1 * 2 ^ 32) by lia.
    rewrite Z.mod_add by lia. rewrite Z.mod_small by lia. lia. }
  split_and!; [apply Hup|apply Hup|]. revert E2 Hup. generalize (MM_ALIGN_UP size'). intros W E2 Hup.
  apply u32_small. split; [lia|]. destruct (decide (W + 2 * 2 ^ n < 2 ^ 32)); [done|exfalso]. revert E2.
  unfold u32. replace (W + 2 * 2 ^ n) with ((W + 2 * 2 ^ n - 2 ^ 32) + 1 * 2 ^ 32) by lia.
  rewrite Z.mod_add by lia. rewrite Z.mod_small by zlia. lia.
Qed.

Lemma memalign_large n : al = 2 ^ n -> 4 <= n < 31 -> exists r m' h' C' D',
  (let size := if size <? MM_MIN_CHUNK - MM_ALLOCNODE_OVERHEAD
               then MM_MIN_CHUNK - MM_ALLOCNODE_OVERHEAD else size in
   let newsize := MM_ALIGN_UP size in
   let allocsize := u32 (newsize + 2 * al) in
   if (newsize <? size) || (allocsize <? newsize) then Some (0, m, h)
   else
     '(rawchunk, m, heap) ← mm_malloc c m h allocsize;
     if rawchunk =? 0 then Some (0, m, heap)
     else
       _ ← mm_malloc_size m rawchunk;
       _ ← verify_lock c;
       align_chunk m heap rawchunk al size allocsize) = Some (r, m', h') /\ aligned r m' h' C' D'.
Proof.
  intros Eal Hn. cbv zeta. unfold MM_MIN_CHUNK, MM_ALLOCNODE_OVERHEAD. change (16 - 4) with 12.
  set (size' := if size <? 12 then 12 else size).
  assert (Hs' : 12 <= size' < 2 ^ 32 /\ size <= size') by (unfold size'; destruct (Z.ltb_spec size 12); lia).
  clearbody size'.
  pose proof (Z.pow_le_mono_r 2 4 n). assert (2 ^ n <= 2 ^ 30) by (apply Z.pow_le_mono_r; lia).
  destruct (_ || _) eqn:Eov; [by eexists _, _, _, _, _; split; [|apply aligned_none]|].
  apply orb_false_iff in Eov as [E1%Z.ltb_ge E2%Z.ltb_ge].
  rewrite Eal in E2. destruct (memalign_sizes n size') as (? & ? & Hall); [lia..|].
  rewrite <- Eal in Hall. set (W := MM_ALIGN_UP size') in *. clearbody W.
  rewrite Hall. pose proof (u32_range (W + 2 * al)) as Hr0. rewrite Hall in Hr0.
  destruct (malloc_spec c m h C D (W + 2 * al) Hin Hlock ltac:(lia))
    as (r & m1 & h1 & C1 & -> & Hin1 & Hr & Hac & Hp). bnd.
  destruct Hr as [[-> Hu]|(s & Hr & Hr8 & Hf & Hu & Hs & Hss)].
  { rewrite Z.eqb_refl. exists 0, m1, h1, C1, []. split; [done|].
    split_and!; try done; [left; by rewrite live_nil|by eapply booked_acct]. }
  rewrite (proj2 (Z.eqb_neq r 0)) by lia.
  assert (Hb : used C1 !! (r - 8) = Some s) by (rewrite Hu; apply lookup_insert_eq).
  pose proof (hi_ok _ _ _ _ Hin1) as Hok1. destruct (block_mapped _ _ _ _ _ Hok1 Hb Hs) as (_ & ? & ? & ?).
  rewrite (malloc_size_spec m1 h1 C1 r s Hok1 Hb) by lia. bnd. rewrite lock_ok by done. bnd.
  pose proof Hb as [p Hp1]%used_Some.
  destruct (align_chunk_spec m1 h1 C1 (r - 8) s n size' W p)
    as (z & k & q & m' & h' & C' & E & Hz & Hmv & Hfz & Hk & Hk16 & Hac');
    [done..|zlia|lia|lia|lia|lia|].
  replace (r - 8 + 8) with r in E by lia. rewrite Eal, E.
  destruct (moved_hinv (k - s) m1 h1 h' C1 [] (r - 8) m' C' z k q s) as (Hin' & Hl & Hp' & Hfz'); try done.
  { by intros ?%elem_of_nil. }
  rewrite !live_nil in Hl. rewrite live_nil in Hfz'. rewrite Hu, delete_insert_id in Hl, Hp', Hfz' by done.
  eexists (z + 8), m', h', C', []. split; [done|]. split_and!; try done.
  - right. exists k. destruct (hi_ok _ _ _ _ Hin') as [(F & Hm' & _) _ _]. destruct Hmv as (_ & _ & Hz' & _).
    pose proof (hmem_place _ _ _ _ Hm' _ _ Hz') as (? & ? & _). rewrite live_nil.
    replace (z + 8 - 8) with z by lia.
    split_and!; try done; [lia|zlia|lia].
  - by rewrite Eal.
  - eapply pres_trans; [exact Hp|]. by rewrite (ac_end _ _ _ Hac) in Hp'.
  - eapply booked_trans; [by eapply booked_acct|exact Hac'|]. rewrite Hl, Hu, !usum_insert by done. lia.
Qed.

Lemma memalign_spec : exists r m' h' C' D', mm_memalign c m h al size = Some (r, m', h') /\
aligned r m' h' C' D'.
Proof.
  unfold mm_memalign. destruct (Z.leb_spec (SIZE_MAX / 2) al) as [?|Hlt].
  { eexists _, _, _, _, _. split; [done|]. apply aligned_none. }
  destruct (Z.eqb_spec (Z.land al (u32 (- al))) al) as [Hpow|?]; cbn [negb].
  2: { eexists _, _, _, _, _. split; [done|]. apply aligned_none. }
  unfold MM_ALIGN. destruct (Z.leb_spec al 8) as [Hle|Hgt]; [by apply memalign_small|].
  destruct (power_of_two al Hal Hpow) as (n & Hn & En).
  change (SIZE_MAX / 2) with (2 ^ 31 - 1) in Hlt.
  assert (4 <= n) by (destruct (decide (n <= 3)); [|lia]; assert (2 ^ n <= 2 ^ 3) by (apply Z.pow_le_mono_r;
    lia); lia).
  assert (n < 31) by (apply (Z.pow_lt_mono_r_iff 2); lia).
  pose proof (Z.pow_le_mono_r 2 4 n).
  rewrite (proj2 (Z.ltb_ge al MM_MIN_CHUNK)) by (unfold MM_MIN_CHUNK; lia).
  by apply (memalign_large n).
Qed.
End memalign.
