(* ===== verification/HeapInit.v ===== *)
(** * Regions

    [mm_initialize_heap] makes a heap in the invariant out of mapped memory, and
    [mm_addregion] adds a region to one. *)

From S2P Require Import Prelude.
From stdpp Require Import gmap sorting.
From S2P Require Import Heap HeapList HeapInv HeapOps HeapAlloc HeapMove HeapCalls.
Local Open Scope Z_scope.

(** ** The list heads *)

Section heads.
Context (H : Z) (HH : 0 < H) (HH' : H + 304 < 2 ^ 32).

(** The heads below [i] are linked, and the last one ends the list. *)
Definition linked (m : mem) (i : Z) : Prop :=
  mapped m H (H + 304) /\ ld m (o_blink H) = Some 0 /\ ld m (o_flink (H + 288)) = Some 0 /\
  (forall j, 0 <= j < 19 -> ld m (o_size (H + 16 * j)) = Some 0) /\
  (forall j, 1 <= j < i -> ld m (o_flink (H + 16 * (j - 1))) = Some (H + 16 * j) /\
     ld m (o_blink (H + 16 * j)) = Some (H + 16 * (j - 1))).

Lemma link_heads_spec n m i : linked m i -> 1 <= i -> i + Z.of_nat n = 19 -> exists m',
  link_heads n m H i = Some m' /\ linked m' 19 /\ differ (fun b => H <= b < H + 304) m m'.
Proof.
  revert m i. induction n as [|n IH]; intros m i Hl Hi Hn; simpl.
  - replace i with 19 in Hl by lia. exists m. split_and!; [done..|apply differ_refl].
  - pose proof Hl as (Mp & Hb & Hf & Hs & Hj).
    assert (Mi : forall j o, 0 <= j < 19 -> 0 <= o <= 12 -> mapped m (H + 16 * j + o) (H + 16 * j + o + 4)).
    { intros j o ??. eapply mapped_sub; [done|lia..]. }
    rewrite st_ok by (apply Mi; lia). bnd. rewrite st_ok by (apply wr_mapped, Mi; lia). bnd.
    set (m2 := wr (wr _ _ _) _ _).
    assert (Hd : differ (fun b => H <= b < H + 304) m m2).
    { apply differ_wr; [apply differ_wr; [apply differ_refl|apply Mi; lia|intros; olia]|apply wr_mapped, Mi;
        lia|intros; olia]. }
    destruct (IH m2 (i + 1)) as (m' & E & Hl' & Hd'); [|lia..|].
    + split_and!; [by eapply differ_mapped| | | |].
      * unfold m2. by ldw.
      * unfold m2. by ldw.
      * intros j ?. unfold m2. ldw. by apply Hs.
      * intros j ?. unfold m2. destruct (decide (j = i)) as [->|].
        -- ldw. by rewrite !u32_small by lia.
        -- ldw. apply Hj. lia.
    + exists m'. split_and!; [done..|]. by eapply differ_trans.
Qed.

Definition heads : list ent := map Head (seqZ 0 19).

Lemma chain_heads m k j : linked m 19 -> 0 <= j -> j + Z.of_nat k = 19 ->
  chain m (if j =? 0 then 0 else H + 16 * (j - 1)) (map (at_ H) (map Head (seqZ j (Z.of_nat k)))) 0.
Proof.
  intros (Mp & Hb & Hf & Hs & Hl). revert j. induction k as [|k IH]; intros j Hj Hk; [done|].
  rewrite Nat2Z.inj_succ, seqZ_cons by lia. rewrite Z.pred_succ. simpl. split_and!.
  - destruct (Z.eqb_spec j 0) as [->|]; [by rewrite Z.mul_0_r, Z.add_0_r|]. by apply Hl; lia.
  - destruct k as [|k]; simpl.
    + by replace (H + 16 * j) with (H + 288) by lia.
    + replace j with (Z.succ j - 1) at 1 by lia. rewrite seqZ_cons by lia. simpl. by apply Hl; lia.
  - specialize (IH (Z.succ j)). rewrite (proj2 (Z.eqb_neq (Z.succ j) 0)) in IH by lia.
    replace (H + 16 * (Z.succ j - 1)) with (H + 16 * j) in IH by lia. apply IH; lia.
Qed.

Lemma elem_heads e : e ∈ heads <-> exists i, e = Head i /\ 0 <= i < 19.
Proof.
  unfold heads. rewrite list_elem_of_fmap. split; intros (i & -> & Hi); exists i; (split; [done|]).
  - apply elem_of_seqZ in Hi. lia.
  - apply elem_of_seqZ. lia.
Qed.

Lemma heads_at x : x ∈ map (at_ H) heads <-> exists i, x = H + 16 * i /\ 0 <= i < 19.
Proof.
  rewrite list_elem_of_fmap. split.
  - intros (e & -> & (i & -> & ?)%elem_heads). by exists i.
  - intros (i & -> & ?). exists (Head i). split; [done|]. apply elem_heads. eauto.
Qed.

Lemma heads_ordered : ordered heads ∅.
Proof.
  split_and!.
  - apply Sorted_StronglySorted; [apply _|]. unfold heads. simpl.
    repeat constructor; vm_compute; discriminate.
  - unfold heads. apply NoDup_fmap; [|apply NoDup_seqZ]. intros ?? [=]; done.
  - intros i. unfold MM_NNODES. rewrite elem_heads. naive_solver.
  - intros a s. rewrite lookup_empty, elem_heads. naive_solver.
  - intros a s (i & ? & _)%elem_heads. done.
Qed.

Lemma heads_flist m : linked m 19 -> flist H m heads.
Proof.
  intros Hl. split_and!.
  - apply (chain_heads m 19 0 Hl); lia.
  - intros e (i & -> & Hi)%elem_heads. destruct Hl as (_ & _ & _ & Hs & _). by apply Hs.
  - split_and!.
    + apply NoDup_fmap_2_strong; [|apply heads_ordered].
      intros ?? (i & -> & _)%elem_heads (j & -> & _)%elem_heads Hij. simpl in Hij. f_equal. lia.
    + intros x (i & -> & ?)%heads_at. lia.
    + intros x y (i & -> & ?)%heads_at (j & -> & ?)%heads_at ?. lia.
Qed.

Lemma hmem_heads m : linked m 19 -> hmem m H ∅ ∅.
Proof.
  intros Hl. split; [split_and!; done|]. split; [done|]. split; [done|].
  exists heads. split; [by apply heads_flist|apply heads_ordered].
Qed.

(** Zeros are heads that are not linked. *)
Lemma linked_zero m : (forall b, H <= b < H + 304 -> m !! b = Some 0) -> linked m 1.
Proof.
  intros Hz. assert (Hld : forall a, H <= a -> a + 4 <= H + 304 -> ld m a = Some 0).
  { intros a ??. unfold ld. rewrite !Hz by lia. done. }
  split_and!; [intros b Hb; rewrite Hz by done; eauto|apply Hld; olia|apply Hld; olia|intros; apply Hld;
    olia|lia].
Qed.
End heads.

(** ** Adding a region *)

Section addregion.
Context (c : ctx) (m : mem) (h : mm_heap_s) (C : chunks) (heapstart heapsize : Z).
Abbreviation NL := (mm_nodelist h).
Abbreviation ST := (mm_heapstart h).
Abbreviation EN := (mm_heapend h).
Context (Hok : heap_ok m h C) (Hlock : 0 <= mm_lock c) (Hreg : (length ST < CONFIG_MM_REGIONS)%nat).
Context (Hpos : 0 < heapstart) (Hlim : heapstart + heapsize < 2 ^ 32) (Hsz : 48 <= heapsize).
Context (Hmap : mapped m heapstart (heapstart + heapsize)).
Context (Hhd : NL + 304 <= heapstart \/ heapstart + heapsize <= NL).
Context (Hout : forall a d, C !! a = Some d -> a + c_size d <= heapstart \/ heapstart + heapsize <= a).

Context (Hreg' : forall i s e, ST !! i = Some s -> EN !! i = Some e -> e < heapstart \/ heapstart + heapsize <= s).

(** The first guard, and the last one. *)
Definition base : Z := MM_ALIGN_UP (heapstart + 16) - 16.
Definition last : Z := MM_ALIGN_DOWN (heapstart + heapsize) - 8.

Lemma region_bounds : heapstart <= base /\ base + 32 <= last /\ last + 8 <= heapstart + heapsize /\
  base mod 8 = 0 /\ last mod 8 = 0 /\ last - base < heapsize.
Proof using Hpos Hlim Hsz.
  clear - Hpos Hlim Hsz.
  unfold base, last, MM_ALIGN_DOWN. rewrite gran_down.
  destruct (align_up_spec (heapstart + 16)) as [? ?]; [lia..|].
  split_and!; lia || zlia.
Qed.

Definition region : chunks :=
  <[base := Chunk 8 true None]> (<[base + 8 := Chunk (last - base - 8) false None]>
    {[ last := Chunk 8 true (Some (last - base - 8)) ]}).

Lemma region_Some a d : region !! a = Some d <->
  (a = base /\ d = Chunk 8 true None) \/ (a = base + 8 /\ d = Chunk (last - base - 8) false None) \/
  (a = last /\ d = Chunk 8 true (Some (last - base - 8))).
Proof using Hpos Hlim Hsz.
  clear - Hpos Hlim Hsz.
  destruct region_bounds as (? & ? & ? & _). unfold region.
  rewrite !lookup_insert_Some, lookup_singleton_Some. split.
  - intros [[<- <-]|[? [[<- <-]|[? [<- <-]]]]]; auto.
  - intros [[-> ->]|[[-> ->]|[-> ->]]]; [by left|right; split; [lia|by left]|right; split; [lia|right; split;
      [lia|done]]].
Qed.

Lemma region_in a d : region !! a = Some d -> base <= a /\ a + c_size d <= last + 8 /\ a mod 8 = 0 /\
  8 <= c_size d /\ c_size d mod 8 = 0 /\ (c_used d = false -> 16 <= c_size d).
Proof using Hpos Hlim Hsz.
  clear - Hpos Hlim Hsz.
  destruct region_bounds as (? & ? & ? & ? & ? & ?).
  intros [[-> ->]|[[-> ->]|[-> ->]]]%region_Some; simpl; split_and!; try lia; try done; zlia.
Qed.

Abbreviation C' := (region ∪ C).

Lemma outside a d : C !! a = Some d -> a + c_size d <= base \/ last + 8 <= a.
Proof. intros Ha. destruct region_bounds as (? & ? & ? & _). apply Hout in Ha. lia. Qed.

Lemma old_size a d : C !! a = Some d -> 8 <= c_size d.
Proof. intros Ha. destruct Hok as [(F & Hm & _) _ _].
by destruct (hmem_place _ _ _ _ Hm _ _ Ha) as (_ & _ & ? & _). Qed.

Lemma not_in a d : C !! a = Some d -> ~ (base <= a < last + 8).
Proof. intros Ha. pose proof (old_size _ _ Ha). apply outside in Ha. lia. Qed.

Lemma union_Some a d : C' !! a = Some d <-> region !! a = Some d \/ C !! a = Some d.
Proof.
  rewrite lookup_union_Some; [done|]. apply map_disjoint_spec. intros b d1 d2 H1 H2.
  apply region_in in H1 as (? & ? & _ & ? & _). apply not_in in H2. lia.
Qed.

Lemma union_geo : geo NL C'.
Proof.
  destruct region_bounds as (? & ? & ? & ? & ? & ?).
  destruct Hok as [(F & Hm & _) _ _]. pose proof (hmem_geo _ _ _ _ Hm) as (Hg1 & Hg2 & Hg3 & Hg4).
  split_and!; [done..| |].
  - intros a d [Ha|Ha]%union_Some; [|by apply Hg3]. apply region_in in Ha as (? & ? & ? & ? & ? & ?).
    unfold place. split_and!; try done; lia.
  - intros a b d e [Ha|Ha]%union_Some [Hb|Hb]%union_Some Hab.
    + apply region_Some in Ha as [[-> ->]|[[-> ->]|[-> ->]]];
        apply region_Some in Hb as [[-> ->]|[[-> ->]|[-> ->]]]; simpl; lia.
    + apply region_in in Ha as (? & ? & _). apply outside in Hb as ?. pose proof (old_size _ _ Hb). lia.
    + apply region_in in Hb as (? & ? & _ & ? & _). apply outside in Ha as ?. lia.
    + by eapply Hg4.
Qed.

Lemma union_next : forall a d, C' !! a = Some d -> a ∉ EN ++ [last] ->
  exists e, C' !! (a + c_size d) = Some e /\ c_prev e = mark (c_used d) (c_size d).
Proof.
  destruct region_bounds as (? & ? & ? & ? & ? & ?). pose proof (ok_tiled _ _ _ Hok) as Ht.
  intros a d [Ha|Ha]%union_Some [HaE Hal]%not_elem_of_app.
  - apply region_Some in Ha as [[-> ->]|[[-> ->]|[-> ->]]]; [..|set_solver]; eexists;
      rewrite union_Some, region_Some; simpl.
    + split; [left; right; left|]; done.
    + split; [left; right; right; split; [lia|done]|done].
  - destruct (t_next _ _ _ Ht _ _ Ha HaE) as (e & He & ?). exists e. rewrite union_Some. auto.
Qed.

Lemma union_first : forall a b d, a ∈ ST ++ [base] -> C' !! b = Some d -> b ∉ EN ++ [last] ->
b + c_size d <> a.
Proof.
  destruct region_bounds as (? & ? & ? & ? & ? & ?). pose proof (ok_tiled _ _ _ Hok) as Ht.
  intros a b d Ha Hb [HbE Hbl]%not_elem_of_app E.
  apply elem_of_app in Ha as [Ha| ->%list_elem_of_singleton].
  - apply union_Some in Hb as [Hb|Hb]; [|by eapply (t_first _ _ _ Ht)].
    apply (t_start _ _ _ Ht), not_in in Ha. apply region_in in Hb as Hb'.
    destruct Hb' as (? & ? & _ & ? & _).
    apply region_Some in Hb as [[-> ->]|[[-> ->]|[-> ->]]]; simpl in *; [lia|lia|set_solver].
  - apply union_Some in Hb as [Hb|Hb]; [apply region_in in Hb as (? & _ & _ & ? & _); lia|].
    destruct (t_next _ _ _ Ht _ _ Hb HbE) as (e & He & _). rewrite E in He. apply not_in in He. lia.
Qed.

Lemma union_in : forall a d, C' !! a = Some d ->
  exists i s e, (ST ++ [base]) !! i = Some s /\ (EN ++ [last]) !! i = Some e /\ s <= a <= e.
Proof.
  destruct region_bounds as (? & ? & ? & ? & ? & ?). pose proof (ok_tiled _ _ _ Hok) as Ht.
  intros a d [Ha|Ha]%union_Some.
  - exists (length ST), base, last. apply region_in in Ha as (? & ? & _ & ? & _).
    rewrite lookup_app_r, Nat.sub_diag by lia. rewrite (t_len _ _ _ Ht), lookup_app_r, Nat.sub_diag by lia.
    split_and!; try done; lia.
  - destruct (t_in _ _ _ Ht _ _ Ha) as (i & s & e & Hs & He & ?). exists i, s, e.
    split_and!; [by apply lookup_app_l_Some..|lia|lia].
Qed.

Lemma union_order : forall i s e, (ST ++ [base]) !! i = Some s -> (EN ++ [last]) !! i = Some e ->
  s < e /\ forall a, a ∈ EN ++ [last] -> s <= a <= e -> a = e.
Proof.
  destruct region_bounds as (? & ? & ? & ? & ? & ?). pose proof (ok_tiled _ _ _ Hok) as Ht.
  intros i s e Hs He. pose proof (t_len _ _ _ Ht) as Hlen.
  apply lookup_app_Some in Hs as [Hs|[Hi [_ <-]%list_lookup_singleton_Some]].
  - apply lookup_lt_Some in Hs as Hlt. rewrite lookup_app_l in He by lia.
    destruct (t_order _ _ _ Ht _ _ _ Hs He) as [? Ho]. split; [done|].
    intros a [Ha| ->%list_elem_of_singleton]%elem_of_app ?; [by apply Ho|].
    destruct (Hreg' _ _ _ Hs He); lia.
  - rewrite lookup_app_r in He by lia. apply list_lookup_singleton_Some in He as [_ <-]. split; [lia|].
    intros a [Ha| ->%list_elem_of_singleton]%elem_of_app ?; [|done].
    destruct (t_end _ _ _ Ht _ Ha) as [q Hq%not_in]. lia.
Qed.

Lemma union_tiled : tiled (ST ++ [base]) (EN ++ [last]) C'.
Proof.
  destruct region_bounds as (? & ? & ? & ? & ? & ?). pose proof (ok_tiled _ _ _ Hok) as Ht. split.
  - exact union_next.
  - intros a d p [Ha|Ha]%union_Some Hp.
    + apply region_Some in Ha as [[-> ->]|[[-> ->]|[-> ->]]]; simplify_eq/=. exists None.
      apply union_Some. left. apply region_Some. right; left. split; [lia|done].
    + destruct (t_prev _ _ _ Ht _ _ _ Ha Hp) as [q Hq]. exists q. apply union_Some. auto.
  - intros a [Ha| ->%list_elem_of_singleton]%elem_of_app; apply union_Some; [right; by apply Ht|left;
      apply region_Some; auto].
  - exact union_first.
  - intros a [Ha| ->%list_elem_of_singleton]%elem_of_app.
    + destruct (t_end _ _ _ Ht _ Ha) as [q Hq]. exists q. apply union_Some. auto.
    + eexists. apply union_Some. left. apply region_Some. auto.
  - exact union_in.
  - intros a d [Ha|Ha]%union_Some.
    + apply region_Some in Ha as [[-> ->]|[[-> ->]|[-> ->]]]; [left; set_solver|right; right; simpl;
        lia|right; left; set_solver].
    + destruct (t_size _ _ _ Ht _ _ Ha) as [?|[?|?]]; set_solver.
  - intros a [Ha| ->%list_elem_of_singleton]%elem_of_app [HaE|Hl%list_elem_of_singleton]%elem_of_app.
    + by apply (t_split _ _ _ Ht) in Ha.
    + subst a. apply (t_start _ _ _ Ht), not_in in Ha. lia.
    + destruct (t_end _ _ _ Ht _ HaE) as [q Hq%not_in]. lia.
    + lia.
  - rewrite !length_app, (t_len _ _ _ Ht). done.
  - exact union_order.
  - apply NoDup_app. split_and!; [apply (t_dup _ _ _ Ht)| |apply NoDup_singleton].
    intros a Ha ->%list_elem_of_singleton. destruct (t_end _ _ _ Ht _ Ha) as [q Hq%not_in]. lia.

Qed.

Lemma union_compact : compact C'.
Proof.
  destruct region_bounds as (? & ? & ? & ? & ? & ?).
  intros a d e [Ha|Ha]%union_Some [He|He]%union_Some.
  - apply region_Some in Ha as [[-> ->]|[[-> ->]|[-> ->]]]; [by left| |by left]. simpl in He.
    replace (base + 8 + (last - base - 8)) with last in He by lia.
    apply region_Some in He as [[? ->]|[[? ->]|[? ->]]]; [lia|lia|by right].
  - apply region_Some in Ha as [[-> ->]|[[-> ->]|[-> ->]]]; [by left| |by left]. simpl in He.
    apply not_in in He. lia.
  - apply region_Some in He as [[Ea ->]|[[Ea ->]|[? ->]]]; [by right| |by right].
    pose proof (old_size _ _ Ha). apply outside in Ha as [?|?]; lia.
  - by eapply (ok_compact _ _ _ Hok).
Qed.

Lemma union_used : used C' = <[base := 8]> (<[last := 8]> (used C)).
Proof.
  destruct region_bounds as (? & ? & ? & ? & ? & ?).
  apply map_eq. intros a. apply option_eq. intros s. rewrite used_Some, !lookup_insert_Some, used_Some.
  setoid_rewrite union_Some. setoid_rewrite region_Some. split.
  - intros [q [[[-> ?]|[[-> ?]|[-> ?]]]|Ha]]; simplify_eq; [by left|right; split; [lia|by left]|].
    apply not_in in Ha as ?. right. split; [lia|]. right. split; [lia|eauto].
  - intros [[<- <-]|[? [[<- <-]|[? [q Hq]]]]]; [exists None; auto|eexists; auto|exists q; auto].
Qed.

(** Memory with the three headers. *)
Lemma union_hmem F m4 : hmem m NL C F -> differ (fun b => base <= b < last + 8) m m4 ->
  ld m4 (o_size base) = Some (hdr 8 true false) ->
  ld m4 (o_size (base + 8)) = Some (hdr (last - base - 8) false false) ->
  ld m4 (o_size last) = Some (hdr 8 true true) -> ld m4 (o_preceding last) = Some (last - base - 8) ->
  hmem m4 NL C' F.
Proof.
  intros (Hg & Hw & HF & L & (Hch & Hss & Hap) & Ho) Hd W1 W2 W3 W4.
  destruct region_bounds as (? & ? & ? & ? & ? & ?).
  assert (Hlz : forall b, lzone NL F b -> ~ (base <= b < last + 8)).
  { intros b [?|(f & t & Hf & ?)]; [lia|]. apply HF in Hf.
    pose proof (geo_place _ _ Hg _ _ Hf) as (_ & _ & _ & _ & _ & H16 & _).
    simpl in H16. specialize (H16 eq_refl). apply outside in Hf. simpl in Hf. lia. }
  split; [apply union_geo|]. split_and!.
  - intros a d [Ha|Ha]%union_Some.
    + apply region_in in Ha as Hr. destruct Hr as (? & ? & _).
      assert (Mp : mapped m4 a (a + c_size d)) by (eapply mapped_sub; [by eapply differ_mapped|lia..]).
      apply region_Some in Ha as [[-> ->]|[[-> ->]|[-> ->]]]; split_and!; simpl in *; try done; naive_solver.
    + eapply words_differ; [done| |by apply Hw]. intros b Hb. pose proof (old_size _ _ Ha).
      apply outside in Ha. simpl. lia.
  - intros a s Ha. apply union_Some. right. by apply HF.
  - exists L. split; [|done]. split_and!; [| |done].
    + eapply chain_differ; [done..|]. intros b Hb. by eapply Hlz, links_lzone.
    + intros e He. rewrite (differ_ld _ _ _ _ Hd); [by apply Hss|]. intros b Hb.
      destruct Ho as (_ & _ & Hh & HN & _). destruct e as [i|f t]; simpl in *.
      * apply Hh in He. unfold MM_NNODES in He. olia.
      * apply HN, HF in He. pose proof (old_size _ _ He). apply outside in He. simpl in *. olia.
Qed.

(** Stores in the region and in links leave the blocks alone. *)
Lemma region_pres F m4 m5 : hmem m NL C F -> differ (fun b => base <= b < last + 8) m m4 ->
  differ (lzone NL (<[base + 8 := last - base - 8]> F)) m4 m5 -> pres m m5 (used C) EN.
Proof.
  intros Hm [Hs4 Hd4] [Hs5 Hd5]. pose proof Hok as [_ Ht _].
  destruct region_bounds as (? & ? & ? & ? & ? & ?).
  split; [by rewrite Hs5|]. intros b s i [q Hb]%used_Some HbE Hi.
  assert (Hir : ~ (base <= i < last + 8)).
  { destruct (t_next _ _ _ Ht _ _ Hb HbE) as (e & He & _). pose proof (old_size _ _ He).
    unfold payload in Hi. apply outside in Hb. apply outside in He. simpl in *. lia. }
  rewrite Hd5; [by apply Hd4|]. intros Hz.
  apply (payload_lzone m NL ST EN C F b s q Hm Ht Hb HbE i); [|done].
  destruct Hz as [?|(f & t & [[<- <-]|[_ Hf]]%lookup_insert_Some & ?)]; [by left|lia|right; eauto].
Qed.

Lemma addregion_spec : exists m' h', mm_addregion c m h heapstart heapsize = Some (m', h') /\
  mm_heapstart h' = ST ++ [base] /\ mm_heapend h' = EN ++ [last] /\ mm_nodelist h' = NL /\
  mm_delaylist h' = mm_delaylist h /\ mm_curused h' = u32 (mm_curused h + 16) /\
  mm_heapsize h' = u32 (mm_heapsize h + (last + 8 - base)) /\
  heap_ok m' h' C' /\ pres m m' (used C) EN /\ differ (touch NL C base last) m m'.
Proof.
  destruct region_bounds as (? & ? & ? & ? & ? & ?). pose proof Hok as [(F & Hm & Hl) Ht Hc].
  destruct (align_up_spec (heapstart + 16)) as [? ?]; [lia..|].
  assert (Hst : forall x, base <= x -> x + 4 <= last + 8 -> mapped m x (x + 4)).
  { intros x ??. eapply mapped_sub; [done|lia..]. }
  unfold mm_addregion, MM_SIZEOF_ALLOCNODE. rewrite lock_ok by done. bnd.
  change (2 * 8) with 16. unfold mm_nregions. rewrite (proj2 (Nat.ltb_lt _ _)) by done. cbn [dassert]. bnd.
  rewrite (proj2 (Nat.leb_gt _ _)) by done.
  cbv zeta.
  rewrite (u32_small (heapstart + 16)) by lia. change (MM_ALIGN_UP (heapstart + 16) - 16) with base.
  rewrite (u32_small base) by lia. rewrite (u32_small (heapsize - (base - heapstart))) by lia.
  replace (base + (heapsize - (base - heapstart))) with (heapstart + heapsize) by lia.
  rewrite (u32_small (heapstart + heapsize)) by lia.
  replace (MM_ALIGN_DOWN (heapstart + heapsize)) with (last + 8) by (unfold last; lia).
  rewrite (u32_small (last + 8 - base)) by lia. rewrite (u32_small (last + 8 - base - 16)) by lia.
  replace (last + 8 - base - 16) with (last - base - 8) by lia. replace (last + 8 - 8) with last by lia.
  change (Z.lor (Z.lor 8 MM_ALLOC_BIT) MM_PREVFREE_BIT) with (hdr 8 true true).
  change (Z.lor 8 MM_ALLOC_BIT) with (hdr 8 true false).
  rewrite st_ok by (apply Hst; olia). bnd.
  rewrite (proj2 (Z.eqb_eq ((base + 8 + 8) mod MM_ALIGN) 0)) by (unfold MM_ALIGN; zlia). cbn [dassert]. bnd.
  do 3 (rewrite st_ok by (repeat apply wr_mapped; apply Hst; olia); bnd).
  set (m4 := wr _ (o_preceding last) _). set (h1 := set_regions _ _ _ h).
  assert (Hd4' : differ (fun b => base + 4 <= b < last + 8) m m4).
  { unfold m4.
    repeat first [apply differ_refl
                 |apply differ_wr; [|repeat apply wr_mapped; apply Hst; olia|intros; olia]]. }
  assert (Hd4 : differ (fun b => base <= b < last + 8) m m4)
    by (eapply differ_weaken; [exact Hd4'|intros; simpl in *; lia]).
  assert (Hm4 : hmem m4 NL C' F).
  { apply union_hmem; [done|done|unfold m4; ldw..].
    - by rewrite hdr_u32 by (lia || done).
    - rewrite u32_small, hdr_plain by lia. done.
    - by rewrite hdr_u32 by (lia || done).
    - by rewrite u32_small by lia. }
  assert (Hn : C' !! (base + 8) = Some (Chunk (last - base - 8) false None)).
  { apply union_Some. left. apply region_Some. auto. }
  assert (HnF : F !! (base + 8) = None).
  { destruct (F !! (base + 8)) as [t|] eqn:E; [|done]. apply (hmem_free _ _ _ _ Hm), not_in in E. lia. }
  destruct (hmem_addfree m4 NL C' F h1 (base + 8) (last - base - 8) eq_refl Hm4 Hn HnF)
    as (m5 & E5 & Hm5 & Hd5).
  rewrite E5. bnd. eexists m5, _. split_and!; try done.
  - split; [exists (<[base + 8 := last - base - 8]> F)|apply union_tiled|apply union_compact]. split; [done|].
    intros b d [Hb|Hb]%union_Some Hu.
    + apply region_Some in Hb as [[-> ->]|[[-> ->]|[-> ->]]]; try done. by rewrite lookup_insert_eq.
    + rewrite lookup_insert_ne; [by apply Hl|]. apply not_in in Hb. lia.
  - by apply (region_pres F m4 m5).
  - eapply (differ_trans _ _ _ _ _ _ Hd4' Hd5); [intros b Hb; right; right; simpl in Hb; lia|].
    intros b [?|(f & t & [[<- <-]|[_ Hf]]%lookup_insert_Some & ?)]; [by left|right; right; lia|right; left].
    apply (hmem_free _ _ _ _ Hm) in Hf. by eexists f, _.
Qed.
End addregion.

(** ** A new heap *)

Definition heap0 (l : heap_layout) (at_ : Z) : mm_heap_s :=
  {| mm_heapsize := 0; mm_maxused := 0; mm_curused := sizeof_heap l;
     mm_heapstart := []; mm_heapend := []; mm_nodelist := at_ + nodelist_off l; mm_delaylist := 0 |}.

Lemma heap0_ok l at_ m : linked (at_ + nodelist_off l) m 19 -> 0 < at_ + nodelist_off l ->
  at_ + nodelist_off l + 304 < 2 ^ 32 -> heap_ok m (heap0 l at_) ∅.
Proof.
  intros Hl ??. split.
  - exists ∅. split; [by apply hmem_heads|]. intros b d Hb. by rewrite lookup_empty in Hb.
  - split; simpl; intros;
      try match goal with
          | He : _ ∈ [] |- _ => by apply elem_of_nil in He
          | He : ∅ !! _ = Some _ |- _ => by rewrite lookup_empty in He
          end; done || constructor.
  - intros a d e Ha. by rewrite lookup_empty in Ha.
Qed.

Section init.
Context (l : heap_layout) (c : ctx) (m : mem) (at_ heapstart heapsize : Z).
Context (Hlay : 0 <= nodelist_off l /\ nodelist_off l + 304 <= sizeof_heap l).
Context (Hlock : 0 <= mm_lock c) (Hat : 0 < at_) (Hlim : at_ + sizeof_heap l < 2 ^ 32).
Context (Hms : mapped m at_ (at_ + sizeof_heap l)).
Context (Hpos : 0 < heapstart) (Hrlim : heapstart + heapsize < 2 ^ 32) (Hsz : 48 <= heapsize).
Context (Hmap : mapped m heapstart (heapstart + heapsize)).
Context (Hapart : at_ + sizeof_heap l <= heapstart \/ heapstart + heapsize <= at_).

Lemma init_heap_at_spec : exists m' h, init_heap_at l c m at_ heapstart heapsize = Some (m', h) /\
  hinv m' h (region heapstart heapsize) [] /\
  mm_heapstart h = [base heapstart] /\ mm_heapend h = [last heapstart heapsize] /\
  mm_curused h = u32 (sizeof_heap l + 16) /\
  mm_heapsize h = u32 (last heapstart heapsize + 8 - base heapstart) /\
  dom m' = dom m /\ mm_nodelist h = at_ + nodelist_off l.
Proof.
  unfold init_heap_at, memset. set (H := at_ + nodelist_off l).
  destruct (memset_spec (Z.to_nat (sizeof_heap l)) m at_ 0) as (m1 & -> & [Hd1 _] & Hz).
  { eapply mapped_sub; [exact Hms|lia..]. }
  bnd. change (u8 0) with 0 in Hz.
  destruct (link_heads_spec H ltac:(unfold H; lia) ltac:(unfold H; lia) 18 m1 1) as (m2 & E2 & Hl2 & Hd2);
    [|lia|lia|].
  { apply linked_zero. intros b Hb. apply Hz. unfold H in Hb. lia. }
  change (Z.to_nat (MM_NNODES - 1)) with 18%nat. rewrite E2. bnd.
  assert (Hdom : dom m2 = dom m) by (by rewrite (proj1 Hd2)).
  destruct (addregion_spec c m2 (heap0 l at_) ∅ heapstart heapsize)
    as (m' & h & E & Hst & Hen & Hnl & Hdl & Hcu & Hhs & Hok & _ & Hd3); try done.
  - by apply heap0_ok; [|unfold H in *; lia..].
  - simpl. unfold CONFIG_MM_REGIONS. lia.
  - intros b Hb. apply elem_of_dom. rewrite Hdom. by apply elem_of_dom, Hmap.
  - simpl. fold H. unfold H. lia.
  - change (mm_addregion c m2 _ heapstart heapsize) with (mm_addregion c m2 (heap0 l at_) heapstart heapsize).
    rewrite map_union_empty in Hok.
    exists m', h. split_and!; try done; [|by rewrite (proj1 Hd3)].
    split; [done|by rewrite Hdl|]. split; [constructor|by intros ? ?%elem_of_nil].
Qed.
End init.

Lemma initialize_spec l c m heapstart heapsize :
  0 <= nodelist_off l -> nodelist_off l + 304 <= sizeof_heap l -> 0 <= mm_lock c ->
  0 < heapstart -> heapstart + heapsize < 2 ^ 32 -> sizeof_heap l + 55 <= heapsize ->
  mapped m heapstart (heapstart + heapsize) ->
  let lo := MM_ALIGN_UP heapstart + sizeof_heap l in
  let n := heapstart + heapsize - lo in
  exists m' h, mm_initialize_heap l c m None heapstart heapsize = Some (Some h, None, m') /\
  hinv m' h (region lo n) [] /\ mm_heapstart h = [base lo] /\ mm_heapend h = [last lo n] /\
  mm_curused h = u32 (sizeof_heap l + 16) /\ mm_heapsize h = u32 (last lo n + 8 - base lo) /\
  dom m' = dom m /\ heapstart <= base lo /\ base lo + 32 <= last lo n /\
  heapstart + heapsize - 8 < last lo n + 8 /\
  last lo n + 8 <= heapstart + heapsize.
Proof.
  intros Hn1 Hn2 Hlock Hpos Hlim Hsz Hmap lo n. destruct (align_up_spec heapstart) as [? ?]; [lia..|].
  unfold mm_initialize_heap. rewrite (u32_small (heapsize - (MM_ALIGN_UP heapstart - heapstart))) by lia.
  rewrite (proj2 (Z.ltb_lt _ _)) by lia. cbn [dassert]. bnd. fold lo.
  replace (heapsize - (MM_ALIGN_UP heapstart - heapstart) - sizeof_heap l) with n by (unfold n, lo; lia).
  destruct (init_heap_at_spec l c m (MM_ALIGN_UP heapstart) lo n)
    as (m' & h & -> & Hin & Hs & He & Hcu & Hhs & Hd & _);
    try done; try (unfold n, lo; lia).
  - eapply mapped_sub; [done|lia..].
  - eapply mapped_sub; [done|unfold n, lo; lia..].
  - destruct (region_bounds lo n) as (? & ? & ? & ? & ? & ?); [unfold n, lo; lia..|].
    exists m', h. split_and!; try done; [unfold lo in *; lia| |unfold n in *; lia].
    unfold last, MM_ALIGN_DOWN. rewrite gran_down.
    replace (lo + n) with (heapstart + heapsize) by (unfold n; lia). zlia.
Qed.

(** ** More memory at the end of a region *)

Section extend.
Context (m : mem) (h : mm_heap_s) (C : chunks) (F : gmap Z Z) (r : nat) (e size : Z) (q : option Z).
Abbreviation NL := (mm_nodelist h).
Abbreviation ST := (mm_heapstart h).
Abbreviation EN := (mm_heapend h).
Context (Hm : hmem m NL C F) (Hl : listed C F) (Ht : tiled ST EN C) (Hc : compact C).
Context (He : EN !! r = Some e) (Hq : C !! e = Some (Chunk 8 true q)).
Context (Hsz : 16 <= size) (Hsz8 : size mod 8 = 0) (Hlim : e + size + 8 < 2 ^ 32).
Context (Hmap : mapped m (e + 8) (e + 8 + size)).
Context (Hhd : NL + 304 <= e \/ e + size + 8 <= NL).
Context (Hout : forall a d, C !! a = Some d -> a <= e \/ e + 8 + size <= a).
Context (Hreg : forall i s t, i <> r -> ST !! i = Some s -> EN !! i = Some t -> t < e \/ e + 8 + size <= s).

Abbreviation z := (e + size).
Abbreviation C1 := (<[e := Chunk size true q]> (<[z := Chunk 8 true None]> C)).
Abbreviation E1 := (<[r := z]> EN).

Lemma ext_Some a d : C1 !! a = Some d <->
  (a = e /\ d = Chunk size true q) \/ (a = z /\ d = Chunk 8 true None) \/ (a <> e /\ C !! a = Some d).
Proof.
  rewrite !lookup_insert_Some. split.
  - intros [[<- <-]|[? [[<- <-]|[? ?]]]]; auto.
  - intros [[-> ->]|[[-> ->]|[? Ha]]]; [by left|right; split; [lia|by left]|right; split; [done|right]].
    split; [|done]. apply Hout in Ha. lia.
Qed.

Lemma ext_old a d : C !! a = Some d -> 8 <= c_size d /\ (a < e -> a + c_size d <= e).
Proof.
  intros Ha. pose proof (hmem_place _ _ _ _ Hm _ _ Ha) as (_ & _ & ? & _). split; [done|].
  pose proof (hmem_geo _ _ _ _ Hm) as Hg.
  destruct (geo_apart _ _ Hg _ _ _ _ Ha Hq) as [?|[?|?]]; simpl in *; lia.
Qed.

Lemma ext_geo : geo NL C1.
Proof.
  pose proof (hmem_geo _ _ _ _ Hm) as (Hg1 & Hg2 & Hg3 & Hg4). destruct (Hg3 _ _ Hq) as (? & ? & _).
  split_and!; [done..| |].
  - intros a d [[-> ->]|[[-> ->]|[? Ha]]]%ext_Some; [..|by apply Hg3]; unfold place; simpl; split_and!;
      lia || zlia.
  - intros a b d1 d2 [[-> ->]|[[-> ->]|[? Ha]]]%ext_Some [[-> ->]|[[-> ->]|[? Hb]]]%ext_Some Hab; simpl;
      try lia.
    + apply Hout in Hb. lia.
    + apply Hout in Hb. lia.
    + destruct (ext_old _ _ Ha). lia.
    + destruct (ext_old _ _ Ha). apply Hout in Ha. lia.
    + by eapply Hg4.
Qed.

Lemma ext_E a : a ∈ E1 <-> a = z \/ (a <> e /\ a ∈ EN).
Proof.
  rewrite !list_elem_of_lookup. pose proof (lookup_lt_Some _ _ _ He) as Hlt. split.
  - intros [i Hi]. destruct (decide (i = r)) as [->|].
    + rewrite list_lookup_insert_eq in Hi by done. left. congruence.
    + rewrite list_lookup_insert_ne in Hi by done. right. split; [|eauto]. intros ->.
      by destruct (NoDup_lookup _ _ _ _ (t_dup _ _ _ Ht) Hi He).
  - intros [->|[Hne [i Hi]]]; [exists r; by apply list_lookup_insert_eq|]. exists i.
    rewrite list_lookup_insert_ne; [done|]. congruence.
Qed.

Lemma ext_hmem m2 : differ (fun b => e + 4 <= b < e + 8 \/ z + 4 <= b < z + 8) m m2 ->
  ld m2 (o_size e) = Some (hdr size true (pf q)) -> ld m2 (o_size z) = Some (hdr 8 true false) ->
  hmem m2 NL C1 F.
Proof.
  intros Hd W1 W2. pose proof Hm as (Hg & Hw & HF & L & (Hch & Hss & Hap) & Ho).
  pose proof (geo_place _ _ Hg _ _ Hq) as (_ & _ & _ & _ & _ & _ & ?). simpl in *.
  assert (Hhdr : forall a d b, C !! a = Some d -> a <> e -> a <= b < a + c_size d ->
    ~ (e + 4 <= b < e + 8 \/ z + 4 <= b < z + 8)).
  { intros a d b Ha Hne Hb. destruct (ext_old _ _ Ha). apply Hout in Ha. lia. }
  assert (Hlz : forall b, lzone NL F b -> ~ (e + 4 <= b < e + 8 \/ z + 4 <= b < z + 8)).
  { intros b [?|(f & t & Hf & ?)]; [lia|]. apply HF in Hf.
    pose proof (geo_place _ _ Hg _ _ Hf) as (_ & _ & _ & _ & _ & H16 & _).
    simpl in H16. specialize (H16 eq_refl). eapply Hhdr; [exact Hf|congruence|simpl; lia]. }
  split; [apply ext_geo|]. split_and!.
  - intros a d [[-> ->]|[[-> ->]|[Hne Ha]]]%ext_Some.
    + destruct (Hw _ _ Hq) as (_ & Hp & Mp). split_and!; simpl in *; [done| |].
      * intros p Hqp. rewrite (differ_ld _ _ _ _ Hd); [by apply Hp|]. intros b Hb. olia.
      * eapply differ_mapped; [done|]. eapply mapped_sub; [exact (mapped_join _ _ _ _ Mp Hmap)|lia..].
    + split_and!; simpl; [done..|]. eapply differ_mapped; [done|]. eapply mapped_sub; [exact Hmap|lia..].
    + eapply words_differ; [done| |by apply Hw]. intros b Hb. destruct (ext_old _ _ Ha) as [? _].
      eapply Hhdr; [done..|lia].
  - intros a s Ha. apply HF in Ha as Ha'. apply ext_Some. right; right. split; [congruence|done].
  - exists L. split; [|done]. split_and!; [| |done].
    + eapply chain_differ; [done..|]. intros b Hb. by eapply Hlz, links_lzone.
    + intros en Hen. rewrite (differ_ld _ _ _ _ Hd); [by apply Hss|]. intros b Hb.
      destruct Ho as (_ & _ & Hh & HN & _). destruct en as [i|f t]; simpl in *.
      * apply Hh in Hen. unfold MM_NNODES in Hen. apply Hlz. left. olia.
      * apply HN, HF in Hen. destruct (ext_old _ _ Hen) as [? _]. simpl in *.
        eapply Hhdr; [exact Hen|congruence|simpl; olia].
Qed.

Lemma ext_new d : C !! z = Some d -> False.
Proof. intros Ha. apply Hout in Ha. lia. Qed.

Lemma ext_next : forall a d, C1 !! a = Some d -> a ∉ E1 ->
  exists d', C1 !! (a + c_size d) = Some d' /\ c_prev d' = mark (c_used d) (c_size d).
Proof.
  intros a d [[-> ->]|[[-> ->]|[Hne Ha]]]%ext_Some HaE; simpl.
  - exists (Chunk 8 true None). split; [|done]. apply ext_Some. auto.
  - destruct HaE. apply ext_E. by left.
  - destruct (t_next _ _ _ Ht _ _ Ha) as (d' & Hd' & Hp); [intros HaEN; apply HaE, ext_E; by right|].
    destruct (decide (a + c_size d = e)) as [Ee|].
    + rewrite Ee in Hd' |- *. assert (d' = Chunk 8 true q) as -> by congruence.
      exists (Chunk size true q). split; [|done]. apply ext_Some. auto.
    + exists d'. split; [|done]. apply ext_Some. auto.
Qed.

Lemma ext_in : forall a d, C1 !! a = Some d ->
exists i s t, ST !! i = Some s /\ E1 !! i = Some t /\ s <= a <= t.
Proof.
  intros a d Ha.
  destruct (lookup_lt_is_Some_2 ST r) as [s Hs]; [rewrite (t_len _ _ _ Ht); by eapply lookup_lt_Some|].
  pose proof (lookup_lt_Some _ _ _ He) as Hlt.
  assert (Hin : s <= a <= z \/ exists i s' t, i <> r /\ ST !! i = Some s' /\ EN !! i = Some t /\ s' <= a <= t).
  { destruct (t_order _ _ _ Ht _ _ _ Hs He) as [? _].
    apply ext_Some in Ha as [[-> _]|[[-> _]|[Hne Ha]]]; [left; lia..|].
    destruct (t_in _ _ _ Ht _ _ Ha) as (i & s' & t & Hs' & Ht' & ?). destruct (decide (i = r)) as [->|].
    - assert (s' = s /\ t = e) as [-> ->] by (split; congruence). left. lia.
    - right. by exists i, s', t. }
  destruct Hin as [?|(i & s' & t & Hi & Hs' & Ht' & ?)].
  - exists r, s, z. by rewrite list_lookup_insert_eq.
  - exists i, s', t. by rewrite list_lookup_insert_ne.
Qed.

Lemma ext_order : forall i s t, ST !! i = Some s -> E1 !! i = Some t ->
  s < t /\ forall a, a ∈ E1 -> s <= a <= t -> a = t.
Proof.
  intros i s t Hs Hi. destruct (decide (i = r)) as [->|Hne].
  - rewrite list_lookup_insert_eq in Hi by (by eapply lookup_lt_Some). assert (t = z) as -> by congruence.
    destruct (t_order _ _ _ Ht _ _ _ Hs He) as [? Ho]. split; [lia|].
    intros a [->|[Hne Ha]]%ext_E ?; [done|exfalso].
    destruct (t_end _ _ _ Ht _ Ha) as [qa Hqa]. apply Hout in Hqa as [?|?]; [|lia]. destruct Hne.
    apply Ho; [done|lia].
  - rewrite list_lookup_insert_ne in Hi by done. destruct (t_order _ _ _ Ht _ _ _ Hs Hi) as [? Ho].
    split; [done|].
    intros a [->|[_ Ha]]%ext_E ?; [|by apply Ho]. destruct (Hreg _ _ _ Hne Hs Hi); lia.
Qed.

Lemma ext_dup : NoDup E1.
Proof.
  apply NoDup_alt. intros i j x Hi Hj.
  destruct (decide (i = r)) as [->|], (decide (j = r)) as [->|]; [done|..].
  - rewrite list_lookup_insert_eq in Hi by (by eapply lookup_lt_Some).
    rewrite list_lookup_insert_ne in Hj by done.
    assert (x = z) as -> by congruence.
    destruct (t_end _ _ _ Ht z) as [? ?]; [by eapply list_elem_of_lookup_2|]. exfalso. by eapply ext_new.
  - rewrite list_lookup_insert_eq in Hj by (by eapply lookup_lt_Some).
    rewrite list_lookup_insert_ne in Hi by done.
    assert (x = z) as -> by congruence.
    destruct (t_end _ _ _ Ht z) as [? ?]; [by eapply list_elem_of_lookup_2|]. exfalso. by eapply ext_new.
  - rewrite list_lookup_insert_ne in Hi, Hj by done. by eapply (NoDup_lookup _ _ _ _ (t_dup _ _ _ Ht)).
Qed.

Lemma ext_tiled : tiled ST E1 C1.
Proof.
  assert (HeE : e ∈ EN) by (by eapply list_elem_of_lookup_2).
  split.
  - exact ext_next.
  - intros a d p [[-> ->]|[[-> ->]|[Hne Ha]]]%ext_Some Hp; simpl in *; [|done|].
    + destruct (t_prev _ _ _ Ht _ _ _ Hq Hp) as [q' Hq']. exists q'. apply ext_Some. right; right.
      split; [|done].
      destruct (hmem_place _ _ _ _ Hm _ _ Hq') as (_ & _ & ? & _). simpl in *. lia.
    + destruct (t_prev _ _ _ Ht _ _ _ Ha Hp) as [q' Hq']. exists q'. apply ext_Some. right; right.
      split; [|done].
      intros E. rewrite E in Hq'. congruence.
  - intros a Ha. apply ext_Some. right; right. pose proof (t_split _ _ _ Ht _ Ha).
    split; [congruence|by apply Ht].
  - intros a b d Ha [[-> ->]|[[-> ->]|[Hne Hb]]]%ext_Some HbE E; simpl in *.
    + apply (t_start _ _ _ Ht) in Ha. rewrite <- E in Ha. by eapply ext_new.
    + destruct HbE. apply ext_E. by left.
    + eapply (t_first _ _ _ Ht a b d); [done..|intros HbEN; apply HbE, ext_E; by right|done].
  - intros a [->|[Hne Ha]]%ext_E; [exists None; apply ext_Some; auto|].
    destruct (t_end _ _ _ Ht _ Ha) as [q' Hq']. exists q'. apply ext_Some. auto.
  - exact ext_in.
  - intros a d [[-> ->]|[[-> ->]|[Hne Ha]]]%ext_Some; [by right; right|right; left; apply ext_E; by left|].
    destruct (t_size _ _ _ Ht _ _ Ha) as [?|[?|?]]; [by left|right; left; apply ext_E; by right|by right;
      right].
  - intros a Ha [->|[_ HaE]]%ext_E; [|by apply (t_split _ _ _ Ht) in Ha]. apply (t_start _ _ _ Ht) in Ha.
    by eapply ext_new.
  - by rewrite length_insert, (t_len _ _ _ Ht).
  - exact ext_order.
  - exact ext_dup.
Qed.

Lemma ext_compact : compact C1.
Proof.
  intros a d1 d2 [[-> ->]|[[-> ->]|[Hne Ha]]]%ext_Some [[E ->]|[[E ->]|[Hne' Hb]]]%ext_Some; simpl in *; auto.
  by eapply Hc.
Qed.

Lemma ext_used : used C1 = <[e := size]> (<[z := 8]> (used C)) /\ used C !! e = Some 8 /\ used C !! z = None.
Proof.
  assert (HzN : used C !! z = None).
  { destruct (used C !! z) eqn:E; [|done]. apply used_Some in E as [? Ha]. apply Hout in Ha. lia. }
  split_and!; [|apply used_Some; eauto|done]. apply map_eq. intros a. apply option_eq. intros s.
  rewrite used_Some, !lookup_insert_Some, used_Some. setoid_rewrite ext_Some. split.
  - intros [p [[-> ?]|[[-> ?]|[? Ha]]]]; simplify_eq; [by left|right; split; [lia|by left]|].
    right. split; [done|right]. split; [|eauto]. apply Hout in Ha. lia.
  - intros [[<- <-]|[? [[<- <-]|[? [p Hp]]]]]; [exists q; auto|exists None; auto|exists p; auto].
Qed.

(** The heap before the new memory is released. *)
Lemma ext_hinv m2 sz D : dlist m (mm_delaylist h) D -> delayed C D ->
  differ (fun b => e + 4 <= b < e + 8 \/ z + 4 <= b < z + 8) m m2 ->
  ld m2 (o_size e) = Some (hdr size true (pf q)) -> ld m2 (o_size z) = Some (hdr 8 true false) ->
  hinv m2 (set_regions sz ST E1 h) C1 D.
Proof.
  intros Hdl [Hnd Hu] Hd W1 W2. destruct ext_used as (Hu1 & Hue & Huz). split; [split| |].
  - exists F. split; [by apply ext_hmem|]. intros b d Hb Hbu.
    apply ext_Some in Hb as [[-> ->]|[[-> ->]|[_ Hb]]]; try done. by apply Hl.
  - apply ext_tiled.
  - apply ext_compact.
  - simpl. eapply dlist_frame; [done|]. intros d Hd0. destruct (Hu d Hd0) as (s & [p Hp]%used_Some & Hs16).
    rewrite (differ_ld _ _ _ _ Hd); [done|]. intros b Hb.
    destruct (ext_old _ _ Hp) as [_ Ho]. simpl in Ho. pose proof (Hout _ _ Hp).
    assert (d - 8 <> e) by (intros E; rewrite E, Hq in Hp; injection Hp as ? ?; lia). lia.
  - split; [done|]. intros d Hd0. destruct (Hu d Hd0) as (s & Hs & Hs16). exists s. split; [|done].
    rewrite Hu1, !lookup_insert_ne; [done| |]; intros E; rewrite <- E in Hs; [congruence|].
    rewrite Hue in Hs. injection Hs as ?. lia.
Qed.
End extend.

(** The new memory joins the region, but [mm_free] takes its size off the bytes in
    use, to which it was never added. *)
Lemma mm_extend_spec c m h C D r e size :
  hinv m h C D -> 0 <= mm_lock c -> mm_heapend h !! r = Some e -> 16 <= size -> size mod 8 = 0 ->
  e + size + 8 < 2 ^ 32 -> mapped m (e + 8) (e + 8 + size) ->
  mm_nodelist h + 304 <= e \/ e + size + 8 <= mm_nodelist h ->
  (forall a d, C !! a = Some d -> a <= e \/ e + 8 + size <= a) ->
  (forall i s t, i <> r -> mm_heapstart h !! i = Some s -> mm_heapend h !! i = Some t ->
     t < e \/ e + 8 + size <= s) ->
  exists m' h' C', mm_extend c m h (e + 8) size r = Some (m', h') /\ hinv m' h' C' D /\
  mm_heapend h' = <[r := e + size]> (mm_heapend h) /\
  used C' = <[e + size := 8]> (delete e (used C)) /\ usum (used C') = usum (used C) /\
  u32 (mm_curused h') = u32 (mm_curused h - size).
Proof.
  intros Hin Hlock He Hsz Hsz8 Hlim Hmap Hhd Hout Hreg.
  pose proof Hin as [[(F & Hm & Hl) Ht Hc] Hdl [Hnd Hu]].
  destruct (t_end _ _ _ Ht e) as [q Hq]; [by eapply list_elem_of_lookup_2|].
  pose proof (hmem_place _ _ _ _ Hm _ _ Hq) as (? & ? & _ & _ & _ & _ & ?). simpl in *.
  destruct (hmem_size _ _ _ _ Hm _ _ Hq) as [Eq Eq4]. simpl in Eq, Eq4.
  destruct (hmem_words _ _ _ _ Hm _ _ Hq) as (_ & _ & Mq). simpl in Mq.
  pose proof (lookup_lt_Some _ _ _ He) as Hlt. rewrite <- (t_len _ _ _ Ht) in Hlt.
  unfold mm_extend, MIN_EXTEND, MM_SIZEOF_ALLOCNODE, mm_nregions. change (2 * 8) with 16.
  rewrite (proj2 (Z.eqb_neq (e + 8) 0)) by lia. cbn [negb dassert]. bnd.
  rewrite (proj2 (Z.leb_le 16 size)), (proj2 (Nat.ltb_lt r (length (mm_heapstart h)))) by done.
  cbn [andb dassert]. bnd. cbv zeta.
  rewrite (u32_small (e + 8 + size)) by lia.
  assert (Hup : MM_ALIGN_UP (e + 8) = e + 8).
  { unfold MM_ALIGN_UP. rewrite gran_down. unfold MM_GRAN_MASK. rewrite u32_small by lia. zlia. }
  assert (Hdn : MM_ALIGN_DOWN (e + 8 + size) = e + 8 + size) by (unfold MM_ALIGN_DOWN; rewrite gran_down;
    zlia).
  rewrite Hup, Hdn, !Z.eqb_refl. cbn [dassert]. bnd. rewrite lock_ok by done. bnd. rewrite He. bnd.
  rewrite Z.eqb_refl. cbn [dassert]. bnd. rewrite Eq. bnd. rewrite mask_hdr, set_size_hdr by (done || zlia).
  assert (M1 : mapped m (o_size e) (o_size e + 4)) by (eapply mapped_sub; [exact Mq|olia..]).
  rewrite st_ok by done. bnd. rewrite ld_wr_eq, hdr_u32 by (lia || zlia). bnd.
  destruct (hdr_used size true (pf q)) as (_ & -> & _); [zlia|]. cbn [dassert]. bnd.
  replace (e + 8 + size - 8) with (e + size) by lia. change (Z.lor 8 MM_ALLOC_BIT) with (hdr 8 true false).
  assert (M2 : mapped m (o_size (e + size)) (o_size (e + size) + 4)) by (eapply mapped_sub;
    [exact Hmap|olia..]).
  rewrite st_ok by (by apply wr_mapped). bnd. set (m2 := wr (wr _ _ _) _ _). set (h1 := set_regions _ _ _ h).
  assert (Hd : differ (fun b => e + 4 <= b < e + 8 \/ e + size + 4 <= b < e + size + 8) m m2).
  { unfold m2.
    apply differ_wr; [apply differ_wr; [apply differ_refl|done|intros; olia]|by apply wr_mapped|intros;
      olia]. }
  destruct (ext_used C e size q) as (Hu1 & Hue & Huz); [done..|].
  set (C1 := <[e := Chunk size true q]> _) in Hu1.
  assert (Hin1 : hinv m2 h1 C1 D).
  { apply (ext_hinv m h C F r e size q); try done; unfold m2; ldw; [|by rewrite hdr_u32 by (lia || done)].
    by rewrite hdr_u32 by (lia || zlia). }
  destruct (free_spec c m2 h1 C1 D (e + 8) size)
    as (m' & h' & C' & D' & E & Hin' & _ & _ & (_ & Hen & _) & Hb & HD); try done.
  { replace (e + 8 - 8) with e by lia. rewrite Hu1. apply lookup_insert_eq. }
  { intros Hd0. destruct (Hu _ Hd0) as (s & Hs & ?). replace (e + 8 - 8) with e in Hs by lia.
    rewrite Hue in Hs. simplify_eq. lia. }
  destruct (HD Hlock) as [-> HuC']. replace (e + 8 - 8) with e in HuC' by lia.
  assert (Hsum1 : usum (used C1) = size + usum (used C')).
  { rewrite HuC', Hu1, delete_insert_eq, <- (insert_delete_eq _ e size).
    apply usum_insert, lookup_delete_eq. }
  rewrite Hu1, delete_insert_eq, delete_insert_ne in HuC' by lia.
  assert (HzN : delete e (used C) !! (e + size) = None) by (rewrite lookup_delete_ne by lia; done).
  assert (Hsum : usum (used C') = usum (used C))
    by (rewrite HuC', (usum_insert _ _ _ HzN), (usum_delete _ _ _ Hue); done).
  exists m', h', C'. split_and!; try done. rewrite (ac_used _ _ _ Hb). simpl. f_equal. lia.
Qed.
