(* ===== verification/HeapWalk.v ===== *)
(** * Walking the heap

    [mm_foreach] visits every chunk once, in the order of addresses, and finds
    nothing wrong with a heap in the invariant. *)

From S2P Require Import Prelude.
From stdpp Require Import gmap sorting.
From S2P Require Import Heap HeapList HeapInv HeapOps HeapAlloc HeapMove HeapCalls.
Local Open Scope Z_scope.

Fixpoint visit {X} (handler : mem -> Z -> X -> option X) (m : mem) (l : list Z) (x : X) : option X :=
  match l with
  | [] => Some x
  | a :: l => x ← handler m a x; visit handler m l x
  end.

Lemma visit_app {X} (handler : mem -> Z -> X -> option X) m l1 l2 x :
  visit handler m (l1 ++ l2) x = visit handler m l1 x ≫= visit handler m l2.
Proof. revert x. induction l1 as [|a l1 IH]; intros x; [done|]. simpl.
destruct (handler m a x); [apply IH|done]. Qed.

(** The sizes of chunks. *)
Definition size_at (C : chunks) (a : Z) : Z := if C !! a is Some c then c_size c else 0.
Definition sizes (C : chunks) (l : list Z) : Z := foldr (fun a n => size_at C a + n) 0 l.

Section walk.
Context {X : Type} (handler : mem -> Z -> X -> option X).
Context (m : mem) (h : mm_heap_s) (C : chunks) (Hok : heap_ok m h C).
Abbreviation ST := (mm_heapstart h).
Abbreviation EN := (mm_heapend h).

(** The chunks from [a] to [e]. *)
Definition between (a e : Z) : chunks := filter (fun bc => a <= bc.1 <= e) C.

Lemma between_Some a e b c : between a e !! b = Some c <-> C !! b = Some c /\ a <= b <= e.
Proof. unfold between. by rewrite map_lookup_filter_Some. Qed.

Lemma between_step a e c : C !! a = Some c -> a <= e -> a + c_size c <= e ->
  (size (between (a + c_size c) e) < size (between a e))%nat.
Proof.
  intros Ha Hae Hce. destruct Hok as [(F & Hm & _) _ _].
  pose proof (hmem_place _ _ _ _ Hm _ _ Ha) as (_ & _ & ? & _).
  apply map_subset_size, map_subset_alt. split.
  - apply map_subseteq_spec. intros b d [? ?]%between_Some. apply between_Some. split; [done|lia].
  - exists a. split; [|by exists c; apply between_Some].
    destruct (between _ e !! a) as [d|] eqn:E; [|done]. apply between_Some in E. lia.
Qed.

Lemma between_fuel a e : (size (between a e) < mem_fuel m)%nat.
Proof.
  destruct Hok as [(F & Hm & _) _ _]. unfold mem_fuel. apply le_n_S. rewrite <- !size_dom.
  apply subseteq_size.
  intros b [c [Hb _]%between_Some]%elem_of_dom. apply elem_of_dom.
  pose proof (hmem_place _ _ _ _ Hm _ _ Hb) as (_ & _ & ? & _).
  destruct (hmem_words _ _ _ _ Hm _ _ Hb) as (_ & _ & Mp). apply Mp. lia.
Qed.

(** The node before [a] on the walk. *)
Definition came_from (a prev : Z) (c : chunk) : Prop :=
  c_prev c = None \/ exists cp, C !! prev = Some cp /\ c_prev c = mark (c_used cp) (c_size cp).

Lemma prev_check a prev c : C !! a = Some c -> came_from a prev c ->
  (if MM_PREVNODE_IS_ALLOC (hdr (c_size c) (c_used c) (pf (c_prev c))) then Some tt
   else p ← ld m (o_preceding a); wp ← ld m (o_size prev); dassert (MM_SIZEOF_NODE wp =? p)) = Some tt.
Proof.
  intros Ha Hp. destruct Hok as [(F & Hm & _) _ _]. destruct (hmem_size _ _ _ _ Hm _ _ Ha) as [_ Ha4].
  destruct (hdr_used (c_size c) (c_used c) (pf (c_prev c)) Ha4) as (_ & _ & _ & -> & _).
  destruct Hp as [->|(cp & Hcp & Hpc)]; [done|]. destruct (c_prev c) as [p|] eqn:Ep; [|done]. simpl.
  rewrite (hmem_prec _ _ _ _ Hm _ _ p Ha Ep). bnd.
  destruct (hmem_size _ _ _ _ Hm _ _ Hcp) as [-> Hc4]. bnd. rewrite sizeof_hdr by done.
  symmetry in Hpc. apply mark_Some in Hpc as [_ ->]. by rewrite Z.eqb_refl.
Qed.

Context (i : nat) (s e : Z) (Hs : ST !! i = Some s) (He : EN !! i = Some e).

Lemma end_chunk : exists q, C !! e = Some (Chunk 8 true q).
Proof. apply (t_end _ _ _ (ok_tiled _ _ _ Hok)). by eapply list_elem_of_lookup_2. Qed.

Lemma not_end a : s <= a < e -> a ∉ EN.
Proof. intros Ha HaE. pose proof (proj2 (t_order _ _ _ (ok_tiled _ _ _ Hok) _ _ _ Hs He) _ HaE). lia. Qed.

Lemma foreach_loop_walk fuel a prev c :
  C !! a = Some c -> s <= a <= e -> came_from a prev c -> (size (between a e) < fuel)%nat -> exists l,
  (forall x, foreach_loop handler fuel m a prev e x = visit handler m l x) /\ NoDup l /\
  (forall b, b ∈ l <-> is_Some (C !! b) /\ a <= b <= e) /\ sizes C l = e + 8 - a.
Proof.
  destruct end_chunk as [qe Hqe]. pose proof Hok as [(F & Hm & _) Ht _].
  pose proof (hmem_geo _ _ _ _ Hm) as Hg.
  revert a prev c. induction fuel as [|fuel IH]; intros a prev c Ha Hae Hcf Hf; [lia|].
  pose proof (hmem_place _ _ _ _ Hm _ _ Ha) as (_ & _ & ? & _).
  destruct (hmem_size _ _ _ _ Hm _ _ Ha) as [Ea Ea4]. simpl foreach_loop.
  destruct (Z.ltb_spec a e) as [Hlt|Hge].
  - destruct (t_next _ _ _ Ht _ _ Ha) as (d & Hd & Hpd); [apply not_end; lia|].
    assert (a + c_size c <= e) by (destruct (geo_apart _ _ Hg _ _ _ _ Ha Hqe) as [?|[?|?]]; simpl in *; lia).
    pose proof (between_step a e c Ha ltac:(lia) ltac:(lia)).
    destruct (IH (a + c_size c) a d) as (l & Hl & Hnd & Hin & Hsum); [done|lia|right; eauto|lia|].
    exists (a :: l). split_and!.
    + intros x. rewrite Ea. bnd. rewrite sizeof_hdr by done.
      rewrite (proj2 (Z.leb_le _ _)) by (unfold MM_SIZEOF_ALLOCNODE; lia). cbn [dassert]. bnd. simpl visit.
      destruct (handler m a x) as [x'|]; bnd; [|done]. rewrite (prev_check a prev c Ha Hcf). bnd. apply Hl.
    + apply NoDup_cons. split; [|done]. rewrite Hin. intros [_ ?]. lia.
    + intros b. rewrite elem_of_cons, Hin. split.
      * intros [->|[? ?]]; (split; [eauto|lia]).
      * intros [[cb Hb] ?]. destruct (decide (b = a)) as [->|]; [by left|right]. split; [eauto|].
        destruct (geo_apart _ _ Hg _ _ _ _ Ha Hb) as [?|[?|?]]; [lia..|].
        pose proof (hmem_place _ _ _ _ Hm _ _ Hb) as (_ & _ & ? & _). lia.
    + simpl. rewrite Hsum. unfold size_at. rewrite Ha. lia.
  - assert (a = e) as -> by lia. rewrite Z.eqb_refl. cbn [dassert]. bnd. exists [e]. split_and!.
    + intros x. simpl. by destruct (handler m e x).
    + apply NoDup_singleton.
    + intros b. rewrite list_elem_of_singleton. split; [intros ->; split; [eauto|lia]|lia].
    + simpl. unfold size_at. rewrite Hqe. simpl. lia.
Qed.
End walk.

(** ** All regions *)

Fixpoint total (starts ends : list Z) : Z :=
  match starts, ends with
  | s :: starts, e :: ends => e + 8 - s + total starts ends
  | _, _ => 0
  end.

Lemma sizes_app C l1 l2 : sizes C (l1 ++ l2) = sizes C l1 + sizes C l2.
Proof. induction l1 as [|a l1 IH]; simpl; lia. Qed.

Section regions.
Context {X : Type} (handler : mem -> Z -> X -> option X).
Context (m : mem) (h : mm_heap_s) (C : chunks) (Hok : heap_ok m h C).
Abbreviation ST := (mm_heapstart h).
Abbreviation EN := (mm_heapend h).

Lemma region_walk i s e : ST !! i = Some s -> EN !! i = Some e -> exists l,
  (forall x, foreach_loop handler (mem_fuel m) m s 0 e x = visit handler m l x) /\ NoDup l /\
  (forall b, b ∈ l <-> is_Some (C !! b) /\ s <= b <= e) /\ sizes C l = e + 8 - s.
Proof.
  intros Hs He. pose proof (ok_tiled _ _ _ Hok) as Ht. destruct (t_order _ _ _ Ht _ _ _ Hs He) as [? _].
  assert (Hc : C !! s = Some (Chunk 8 true None)) by (apply Ht; by eapply list_elem_of_lookup_2).
  eapply foreach_loop_walk; try done; [lia|by left|by apply (between_fuel m h)].
Qed.

(** A chunk is in one region. *)
Lemma region_unique i j s e s' e' b :
  ST !! i = Some s -> EN !! i = Some e -> ST !! j = Some s' -> EN !! j = Some e' ->
  s <= b <= e -> s' <= b <= e' -> i = j.
Proof.
  intros Hs He Hs' He' Hb Hb'. pose proof (ok_tiled _ _ _ Hok) as Ht.
  destruct (t_order _ _ _ Ht _ _ _ Hs He) as [_ Ho]. destruct (t_order _ _ _ Ht _ _ _ Hs' He') as [_ Ho'].
  assert (e = e') as <-.
  { destruct (decide (e <= e')).
    - apply Ho'; [by eapply list_elem_of_lookup_2|lia].
    - symmetry. apply Ho; [by eapply list_elem_of_lookup_2|lia]. }
  by eapply (NoDup_lookup _ _ _ _ (t_dup _ _ _ Ht)).
Qed.

(** The regions from [k] on. *)
Lemma regions_walk k starts ends : drop k ST = starts -> drop k EN = ends -> exists l,
  (forall x, foreach_regions handler m starts ends x = visit handler m l x) /\ NoDup l /\
  (forall b, b ∈ l <-> is_Some (C !! b) /\
     exists i s e, (k <= i)%nat /\ ST !! i = Some s /\ EN !! i = Some e /\ s <= b <= e) /\
  sizes C l = total starts ends.
Proof.
  revert k ends. induction starts as [|s starts IH]; intros k ends HS HE.
  - exists []. split_and!; [done|constructor| |done]. intros b. split; [by intros ?%elem_of_nil|].
    intros [_ (i & s & e & Hi & Hs & _)]. apply lookup_lt_Some in Hs. apply (f_equal length) in HS.
    rewrite length_drop in HS. simpl in HS. lia.
  - pose proof (t_len _ _ _ (ok_tiled _ _ _ Hok)) as Hlen.
    destruct ends as [|e ends].
    { apply (f_equal length) in HS. apply (f_equal length) in HE. rewrite length_drop in *. simpl in *. lia. }
    assert (Hs : ST !! k = Some s) by (rewrite <- (Nat.add_0_r k), <- lookup_drop, HS; done).
    assert (He : EN !! k = Some e) by (rewrite <- (Nat.add_0_r k), <- lookup_drop, HE; done).
    destruct (region_walk k s e Hs He) as (l1 & E1 & Hn1 & Hin1 & Hs1).
    destruct (IH (S k) ends) as (l2 & E2 & Hn2 & Hin2 & Hs2).
    { by rewrite <- Nat.add_1_r, <- drop_drop, HS. }
    { by rewrite <- Nat.add_1_r, <- drop_drop, HE. }
    exists (l1 ++ l2). split_and!.
    + intros x. cbn [foreach_regions]. rewrite visit_app, E1.
      destruct (visit handler m l1 x); [apply E2|done].
    + apply NoDup_app. split_and!; [done| |done].
      intros b [_ Hb1]%Hin1 [_ (i & s' & e' & Hi & Hs' & He' & Hb2)]%Hin2.
      pose proof (region_unique _ _ _ _ _ _ _ Hs He Hs' He' Hb1 Hb2). lia.
    + intros b. rewrite elem_of_app, Hin1, Hin2. split.
      * intros [[Hb Hbs]|[Hb (i & s' & e' & Hi & ?)]]; (split; [done|]); [by exists k, s, e|].
        exists i, s', e'. split; [lia|done].
      * intros [Hb (i & s' & e' & Hi & Hs' & He' & Hbs)]. destruct (decide (i = k)) as [->|].
        -- left. simplify_eq. done.
        -- right. split; [done|]. exists i, s', e'. split_and!; try done; lia.
    + simpl. rewrite sizes_app. lia.
Qed.

Lemma foreach_walk : exists l,
  (forall x, foreach_regions handler m ST EN x = visit handler m l x) /\ NoDup l /\
  (forall b, b ∈ l <-> is_Some (C !! b)) /\ sizes C l = total ST EN.
Proof.
  destruct (regions_walk 0 ST EN eq_refl eq_refl) as (l & E & Hn & Hin & Hs). exists l. split_and!; try done.
  intros b. rewrite Hin. split; [by intros [? _]|]. intros [c Hc]. split; [eauto|].
  destruct (t_in _ _ _ (ok_tiled _ _ _ Hok) _ _ Hc) as (i & s & e & ? & ? & ?). exists i, s, e.
  split_and!; try done; lia.
Qed.
End regions.

(** ** The checks *)

Lemma chain_around m l0 p a l2 : chain m 0 (l0 ++ p :: a :: l2) 0 ->
  ld m (o_blink a) = Some p /\ ld m (o_flink p) = Some a /\ ld m (o_flink a) = Some (List.hd 0 l2) /\
  (forall x l, l2 = x :: l -> ld m (o_blink x) = Some a).
Proof.
  intros [_ Hc]%chain_app. simpl in Hc. destruct Hc as (_ & Hp & Hb & Hf & Hc). split_and!; try done.
  intros x l ->. by destruct Hc.
Qed.

Lemma entry_order e a s : before e (Node a s) -> esize e <= s.
Proof. destruct e as [i|b t]; unfold before; simpl; [|lia]. intros. pose proof (Z.pow_nonneg 2 (i + 5)). lia.
Qed.

Lemma entry_order' e a s : before (Node a s) e -> esize e = 0 \/ s <= esize e.
Proof. destruct e as [i|b t]; unfold before; simpl; [by left|]. intros. right. lia. Qed.

Lemma check_free_ok m h C a s q : heap_ok m h C -> C !! a = Some (Chunk s false q) ->
check_free_node m a s = Some tt.
Proof.
  intros [(F & Hm & Hl) Ht Hc] Ha. pose proof (Hl _ _ Ha eq_refl) as HF. simpl in HF.
  pose proof (hmem_place _ _ _ _ Hm _ _ Ha) as (_ & _ & _ & _ & _ & H16 & _). simpl in H16.
  specialize (H16 eq_refl).
  pose proof Hm as (_ & _ & _ & L & (Hch & Hsz & Hap) & Ho). pose proof Ho as (Hss & Hnd & Hh & HN & Hmod).
  apply HN in HF as HaL. apply list_elem_of_split in HaL as (L1 & L2 & ->).
  destruct (ordered_pred _ _ _ _ _ Ho) as (L0 & p & ->). rewrite <- app_assoc in *. simpl in *.
  rewrite map_app in Hch. simpl in Hch. destruct (chain_around _ _ _ _ _ Hch) as (Eb & Ef & Ea & Ex).
  assert (Hsz4 : forall e, e ∈ L0 ++ p :: Node a s :: L2 -> esize e mod 4 = 0).
  { intros [i|b t] He; [done|]. by destruct (Hmod _ _ He). }
  apply StronglySorted_app in Hss as (_ & _ & Hss). apply StronglySorted_cons in Hss as [Hpa Hss].
  apply StronglySorted_cons in Hss as [Hal _]. rewrite Forall_forall in Hpa, Hal.
  unfold check_free_node. rewrite (proj2 (Z.leb_le _ _)) by done. cbn [dassert]. bnd.
  rewrite Eb. bnd. rewrite Ef. bnd. rewrite Z.eqb_refl. cbn [dassert]. bnd.
  rewrite (Hsz p) by set_solver. bnd. rewrite sizeof_plain by (apply Hsz4; set_solver).
  rewrite (proj2 (Z.leb_le _ _)) by (eapply entry_order, Hpa; left). cbn [dassert]. bnd.
  rewrite Ea. bnd. destruct L2 as [|e L2]; simpl; [done|].
  rewrite (proj2 (Z.eqb_neq _ 0)) by (pose proof (at_pos _ _ e Hap ltac:(set_solver)); lia).
  rewrite (Ex _ _ eq_refl). bnd. rewrite Z.eqb_refl. cbn [dassert]. bnd.
  rewrite (Hsz e) by set_solver. bnd. rewrite sizeof_plain by (apply Hsz4; set_solver).
  destruct (entry_order' e a s) as [->|Hle]; [apply Hal; left|done|].
  by rewrite (proj2 (Z.leb_le _ _) Hle), orb_true_r.
Qed.

Lemma checkcorruption_ok m h C a c : heap_ok m h C -> C !! a = Some c ->
checkcorruption_handler m a tt = Some tt.
Proof.
  intros Hok Ha. pose proof Hok as [(F & Hm & _) _ _]. destruct (hmem_size _ _ _ _ Hm _ _ Ha) as [Ea Ea4].
  pose proof (hmem_place _ _ _ _ Hm _ _ Ha) as (_ & _ & ? & _).
  unfold checkcorruption_handler. rewrite Ea. bnd.
  destruct (hdr_used _ (c_used c) (pf (c_prev c)) Ea4) as (-> & -> & _).
  destruct c as [s [] q]; simpl in *.
  - by rewrite (proj2 (Z.leb_le _ _)) by (unfold MM_SIZEOF_ALLOCNODE; lia).
  - by eapply check_free_ok.
Qed.

(** ** Statistics *)

Definition usize_at (C : chunks) (a : Z) : Z := if C !! a is Some (Chunk s true _) then s else 0.
Definition usizes (C : chunks) (l : list Z) : Z := foldr (fun a n => usize_at C a + n) 0 l.

Lemma s32_s32_add a b : s32 (s32 a + b) = s32 (a + b).
Proof.
  unfold s32. f_equal.
  replace ((a + 2 ^ 31) mod 2 ^ 32 - 2 ^ 31 + b + 2 ^ 31) with ((a + 2 ^ 31) mod 2 ^ 32 + b) by lia.
  rewrite Zplus_mod_idemp_l. f_equal. lia.
Qed.

Lemma s32_add_s32 a b : s32 (a + s32 b) = s32 (a + b).
Proof. rewrite Z.add_comm, s32_s32_add. f_equal. lia. Qed.

Lemma s32_u32 a : s32 (u32 a) = s32 a.
Proof. unfold s32, u32. f_equal. by rewrite Zplus_mod_idemp_l. Qed.

(** The sums that the walk has so far. *)
Definition counted (info : mallinfo) (u f : Z) : Prop := uordblks info = s32 u /\ fordblks info = s32 f.

Lemma mallinfo_visit m h C a c info u f : heap_ok m h C -> C !! a = Some c -> counted info u f ->
  exists info', mallinfo_handler m a info = Some info' /\
  counted info' (u + usize_at C a) (f + (size_at C a - usize_at C a)).
Proof.
  intros Hok Ha [Hu Hf]. pose proof Hok as [(F & Hm & _) _ _].
  destruct (hmem_size _ _ _ _ Hm _ _ Ha) as [Ea Ea4].
  pose proof (hmem_place _ _ _ _ Hm _ _ Ha) as (_ & _ & ? & _). unfold usize_at, size_at. rewrite Ha.
  unfold mallinfo_handler. rewrite Ea. bnd.
  destruct (hdr_used _ (c_used c) (pf (c_prev c)) Ea4) as (-> & -> & _).
  destruct c as [s [] q]; simpl in *.
  - rewrite (proj2 (Z.leb_le _ _)) by (unfold MM_SIZEOF_ALLOCNODE; lia). cbn [dassert]. bnd. eexists.
    split; [done|].
    unfold counted. simpl. rewrite Hu, Hf, s32_s32_add. by rewrite Z.sub_diag, Z.add_0_r.
  - rewrite (check_free_ok m h C a s q Hok Ha). bnd. eexists. split; [done|].
    unfold counted. simpl. rewrite Hu, Hf, s32_s32_add. by rewrite Z.add_0_r, Z.sub_0_r.
Qed.

Lemma mallinfo_visits m h C l info u f : heap_ok m h C -> (forall b, b ∈ l -> is_Some (C !! b)) ->
counted info u f ->
  exists info', visit mallinfo_handler m l info = Some info' /\
  counted info' (u + usizes C l) (f + (sizes C l - usizes C l)).
Proof.
  intros Hok. revert info u f. induction l as [|a l IH]; intros info u f Hl Hc; simpl.
  { exists info. by rewrite Z.sub_diag, !Z.add_0_r. }
  destruct (Hl a) as [c Ha]; [set_solver|].
  destruct (mallinfo_visit m h C a c info u f Hok Ha Hc) as (info1 & -> & Hc1). bnd.
  destruct (IH info1 _ _ ltac:(intros; apply Hl; set_solver) Hc1) as (info' & -> & Hc').
  exists info'. split; [done|]. unfold counted in *. destruct Hc' as [Hu' Hf']. rewrite Hu', Hf'.
  split; f_equal; lia.
Qed.

(** The used chunks that the walk finds are all of them. *)
Lemma usizes_delete C a l : a ∉ l -> usizes (delete a C) l = usizes C l.
Proof.
  induction l as [|b l IH]; intros Ha; [done|]. apply not_elem_of_cons in Ha as [? ?]. simpl.
  rewrite IH by done.
  unfold usize_at. by rewrite lookup_delete_ne.
Qed.

Lemma used_delete C a : used (delete a C) = delete a (used C).
Proof.
  apply map_eq. intros b. apply option_eq. intros s. rewrite used_Some, lookup_delete_Some, used_Some.
  setoid_rewrite lookup_delete_Some. naive_solver.
Qed.

Lemma usizes_usum C l : NoDup l -> (forall b, b ∈ l <-> is_Some (C !! b)) -> usizes C l = usum (used C).
Proof.
  revert C. induction l as [|a l IH]; intros C Hnd Hin; simpl.
  - assert (C = ∅) as ->; [|done]. apply map_eq. intros b. rewrite lookup_empty.
    destruct (C !! b) eqn:E; [|done].
    assert (b ∈ []) as Hb by (apply Hin; eauto). by apply elem_of_nil in Hb.
  - apply NoDup_cons in Hnd as [Ha Hnd]. destruct (Hin a) as [[[s u q] Hc] _]; [set_solver|].
    rewrite <- (usizes_delete C a l Ha), (IH (delete a C)), used_delete; [|done|].
    + unfold usize_at. rewrite Hc. destruct u.
      * rewrite (usum_delete (used C) a s); [done|]. apply used_Some. eauto.
      * rewrite delete_id; [done|]. destruct (used C !! a) eqn:E; [|done]. apply used_Some in E as [? ?].
        congruence.
    + intros b. rewrite lookup_delete_is_Some, <- Hin, elem_of_cons. split; [|naive_solver]. intros Hb.
      split; [congruence|by right].
Qed.

(** ** The calls *)

Section calls.
Context (c : ctx) (m : mem) (h : mm_heap_s) (C : chunks) (D : list Z).
Context (Hin : hinv m h C D) (Hlock : 0 <= mm_lock c).

(** [mm_foreach] releases the delayed blocks and visits every chunk. *)
Lemma mm_foreach_spec {X} (handler : mem -> Z -> X -> option X) : exists m' h' C' l,
  (forall x, mm_foreach handler c m h x = x' ← visit handler m' l x; Some (x', m', h')) /\
  heap_ok m' h' C' /\ hinv m' h' C' [] /\ used C' = live (used C) D /\
  acct (usum (used C') - usum (used C)) (set_delaylist 0 h) h' /\ pres m m' (used C') (mm_heapend h) /\
  NoDup l /\ (forall b, b ∈ l <-> is_Some (C' !! b)) /\ sizes C' l = total (mm_heapstart h) (mm_heapend h).
Proof.
  destruct (delaylist_spec c m h C D Hin Hlock) as (b & m' & h' & C' & E & Hok' & Hu' & Hac & Hp & _).
  destruct (foreach_walk handler m' h' C' Hok') as (l & El & Hnd & Hl & Hs).
  exists m', h', C', l. pose proof (acct_regions _ _ _ _ Hac) as (Hst & Hen & _). rewrite Hst, Hen in Hs.
  split_and!; try done.
  - intros x. unfold mm_foreach, mm_free_delaylist. rewrite E. bnd.
    rewrite (proj2 (Z.ltb_ge _ _)) by done. by rewrite El.
  - split; [done| |split; [constructor|by intros ? ?%elem_of_nil]]. simpl. by rewrite (ac_delay _ _ _ Hac).
Qed.

Lemma checkcorruption_visits m' h' C' l : heap_ok m' h' C' -> (forall b, b ∈ l -> is_Some (C' !! b)) ->
  visit checkcorruption_handler m' l tt = Some tt.
Proof.
  intros Hok. induction l as [|a l IH]; intros Hl; [done|]. simpl. destruct (Hl a) as [d Ha]; [set_solver|].
  rewrite (checkcorruption_ok m' h' C' a d Hok Ha). bnd. apply IH. intros. apply Hl. set_solver.
Qed.

Lemma checkcorruption_spec : exists m' h' C', mm_checkcorruption c m h = Some (m', h') /\
  hinv m' h' C' [] /\ used C' = live (used C) D /\ pres m m' (used C') (mm_heapend h).
Proof.
  destruct (mm_foreach_spec checkcorruption_handler)
    as (m' & h' & C' & l & E & Hok' & Hin' & Hu & _ & Hp & _ & Hl & _).
  exists m', h', C'. split_and!; try done. unfold mm_checkcorruption. rewrite E.
  rewrite (checkcorruption_visits m' h' C' l Hok'); [done|]. intros. by apply Hl.
Qed.

Lemma mallinfo_spec lay : mm_heapsize h = u32 (total (mm_heapstart h) (mm_heapend h)) ->
  exists info m' h' C', mm_mallinfo lay c m h = Some (info, m', h') /\
  hinv m' h' C' [] /\ used C' = live (used C) D /\
  acct (usum (used C') - usum (used C)) (set_delaylist 0 h) h' /\
  uordblks info = s32 (usum (used C') + sizeof_heap lay) /\
  fordblks info = s32 (total (mm_heapstart h) (mm_heapend h) - usum (used C')) /\
  arena info = s32 (total (mm_heapstart h) (mm_heapend h) + sizeof_heap lay).
Proof.
  intros Hsz.
  destruct (mm_foreach_spec mallinfo_handler)
    as (m' & h' & C' & l & E & Hok' & Hin' & Hu & Hac & Hp & Hnd & Hl & Hs).
  destruct (mallinfo_visits m' h' C' l mallinfo0 0 0 Hok') as (info & Ev & Hc1 & Hc2); [intros;
    by apply Hl|done|].
  rewrite Hs, (usizes_usum C' l Hnd Hl) in Hc2. rewrite (usizes_usum C' l Hnd Hl) in Hc1. simpl in Hc1, Hc2.
  pose proof (acct_regions _ _ _ _ Hac) as (_ & _ & Hhs).
  eexists _, m', h', C'. unfold mm_mallinfo. rewrite E, Ev. bnd. cbn [uordblks fordblks arena].
  rewrite Hc1, Hc2, Hhs, Hsz, s32_u32, !s32_s32_add, s32_add_s32.
  rewrite (proj2 (Z.eqb_eq _ _)) by (f_equal; lia). cbn [dassert]. bnd. by split_and!.
Qed.
End calls.

(** ** The largest free chunk *)

(** The entry with a size nearest to the end of [L]. *)
Lemma largest_back H fuel m L q : chain m 0 (map (at_ H) L) q -> apart (map (at_ H) L) ->
  (forall e, e ∈ L -> ld m (o_size (at_ H e)) = Some (esize e) /\ esize e mod 4 = 0) ->
  (length L < fuel)%nat ->
  exists n, largest_loop fuel m (lastd 0 (map (at_ H) L)) = Some n /\
  ((n = 0 /\ forall e, e ∈ L -> esize e = 0) \/
   exists A e B, L = A ++ e :: B /\ esize e = n /\ n <> 0 /\ forall e', e' ∈ B -> esize e' = 0).
Proof.
  revert fuel q. induction L as [|e L IH] using rev_ind; intros fuel q Hc Hap Hsz Hf.
  { destruct fuel as [|fuel]; [simpl in Hf; lia|]. exists 0. split; [done|]. left. split; [done|].
    by intros ? ?%elem_of_nil. }
  rewrite length_app in Hf. destruct fuel as [|fuel]; [lia|]. simpl in Hf.
  rewrite map_app in *. simpl in *. rewrite lastd_snoc. apply chain_app in Hc as [Hc (Hb & _)].
  destruct (Hsz e) as [He He4]; [set_solver|].
  assert (0 < at_ H e) by (destruct Hap as (_ & Hp & _); apply Hp; set_solver).
  rewrite (proj2 (Z.eqb_neq _ 0)) by lia. rewrite He. bnd. rewrite sizeof_plain by done.
  destruct (Z.eqb_spec (esize e) 0) as [E0|Hne].
  - rewrite Hb. bnd. destruct (IH fuel (at_ H e)) as (n & En & Hn); [done| | |lia|].
    + eapply apart_sub; [done| |set_solver]. destruct Hap as [Hnd _]. by apply NoDup_app in Hnd as (? & _).
    + intros. apply Hsz. set_solver.
    + exists n. split; [done|]. destruct Hn as [[-> Hall]|(A & e1 & B & -> & ? & ? & HB)]; [left|right].
      * split; [done|]. intros e' [?|?%list_elem_of_singleton]%elem_of_app; [by apply Hall|congruence].
      * exists A, e1, (B ++ [e]). rewrite <- app_assoc. split_and!; try done.
        intros e' [?|?%list_elem_of_singleton]%elem_of_app; [by apply HB|congruence].
  - exists (esize e). split; [done|]. right. exists L, e, []. split_and!; try done. by intros ? ?%elem_of_nil.
Qed.

Section largest.
Context (m : mem) (h : mm_heap_s) (C : chunks) (Hok : heap_ok m h C).

(** Chunks of 4 MB and more come after the last head. *)
Lemma largest_spec : exists first n, ld m (o_blink (nodelist_at h (MM_NNODES - 1))) = Some first /\
  largest_loop (mem_fuel m) m first = Some n /\ n < MM_MAX_CHUNK /\
  (forall b d, C !! b = Some d -> c_used d = false -> c_size d < MM_MAX_CHUNK -> c_size d <= n) /\
  (n = 0 \/ exists b d, C !! b = Some d /\ c_used d = false /\ c_size d = n).
Proof.
  destruct Hok as [(F & Hm & Hl) Ht Hc]. pose proof Hm as (_ & _ & HF & L & Hfl & Ho).
  pose proof (flist_fuel _ _ _ Hfl) as Hfuel.
  pose proof Hfl as (Hch & Hsz & Hap). pose proof Ho as (Hss & Hnd & Hh & HN & Hmod).
  assert (HL : Head (MM_NNODES - 1) ∈ L) by (apply Hh; unfold MM_NNODES; lia).
  apply list_elem_of_split in HL as (L1 & L2 & ->). rewrite map_app in Hch, Hap. simpl in Hch, Hap.
  apply chain_app in Hch as [Hch1 (Hb & _)]. exists (lastd 0 (map (at_ (mm_nodelist h)) L1)).
  destruct (largest_back (mm_nodelist h) (mem_fuel m) m L1 (mm_nodelist h + 16 * (MM_NNODES - 1)))
    as (n & En & Hn); [done| | | |].
  { eapply apart_sub; [done| |set_solver]. destruct Hap as [Hd _]. by apply NoDup_app in Hd as (? & _). }
  { intros e He. split; [apply Hsz; set_solver|]. destruct e as [i|b t]; [done|].
    by destruct (Hmod b t ltac:(set_solver)). }
  { rewrite length_app in Hfuel. lia. }
  exists n. split; [done|]. split; [done|]. apply StronglySorted_app in Hss as (Hs12 & Hs1 & Hs2).
  apply StronglySorted_cons in Hs2 as [Hs2 _]. rewrite Forall_forall in Hs2.
  assert (Hk1 : forall b t, Node b t ∈ L1 -> t < MM_MAX_CHUNK).
  { intros b t Hbt. specialize (Hs12 _ (Head (MM_NNODES - 1)) Hbt ltac:(left)).
    unfold before, key, MM_NNODES, MM_MAX_CHUNK in *.
    change (2 ^ (19 - 1 + 5) - 1) with 8388607 in Hs12. lia. }
  assert (Hk2 : forall b d, C !! b = Some d -> c_used d = false -> c_size d < MM_MAX_CHUNK ->
    Node b (c_size d) ∈ L1).
  { intros b d Hbd Hu Hlt. pose proof (Hl _ _ Hbd Hu) as HbF.
    apply HN, elem_of_app in HbF as [?|[?|Hb2]%elem_of_cons]; [done..|].
    exfalso. specialize (Hs2 _ Hb2). unfold before, key, MM_NNODES, MM_MAX_CHUNK in *.
    change (2 ^ (19 - 1 + 5) - 1) with 8388607 in Hs2. lia. }
  destruct Hn as [[-> Hall]|(A & e & B & -> & He & Hn0 & HB)].
  - split_and!; [done| |by left]. intros b d Hbd Hu Hlt. pose proof (Hall _ (Hk2 _ _ Hbd Hu Hlt)) as E0.
    simpl in E0. lia.
  - destruct e as [i|a t]; simpl in He; subst n; [done|]. split_and!.
    + apply (Hk1 a). set_solver.
    + intros b d Hbd Hu Hlt.
      pose proof (Hk2 _ _ Hbd Hu Hlt) as [Hin|[[= -> ->]|Hin]%elem_of_cons]%elem_of_app; [|done|].
      * apply StronglySorted_app in Hs1 as (Hs1 & _ & _). specialize (Hs1 _ (Node a t) Hin ltac:(left)).
        unfold before in Hs1. simpl in Hs1. lia.
      * pose proof (HB _ Hin) as E0. simpl in E0.
        destruct (hmem_place _ _ _ _ Hm _ _ Hbd) as (_ & _ & ? & _). lia.
    + right. exists a, (Chunk t false None). split_and!; [|done..]. apply HF, HN. set_solver.
Qed.
End largest.

Lemma heapfree_largest_spec c m h C D : hinv m h C D -> 0 <= mm_lock c -> exists n m' h' C',
  mm_heapfree_largest c m h = Some (n, m', h') /\ hinv m' h' C' [] /\ used C' = live (used C) D /\
  n < MM_MAX_CHUNK /\
  (forall b d, C' !! b = Some d -> c_used d = false -> c_size d < MM_MAX_CHUNK -> c_size d <= n) /\
  (n = 0 \/ exists b d, C' !! b = Some d /\ c_used d = false /\ c_size d = n).
Proof.
  intros Hin Hlock.
  destruct (delaylist_spec c m h C D Hin Hlock) as (b & m' & h' & C' & E & Hok' & Hu' & Hac & _).
  destruct (largest_spec m' h' C' Hok') as (first & n & Ef & En & Hn). exists n, m', h', C'.
  unfold mm_heapfree_largest, mm_free_delaylist. rewrite E. bnd. rewrite Ef. bnd. rewrite En. bnd.
  split_and!; try done; [|apply Hn..].
  split; [done| |split; [constructor|by intros ? ?%elem_of_nil]]. simpl. by rewrite (ac_delay _ _ _ Hac).
Qed.
