(* ===== verification/HeapSpec.v ===== *)
(** * The contract of the allocator

    A client sees a map from addresses to the bytes of its blocks.  [step] says
    what a call may do to that map, and the heap does it: runs of calls never
    reach a failed assertion, an access outside the memory or an endless list. *)

From S2P Require Import Prelude.
From stdpp Require Import gmap sorting.
From S2P Require Import Heap HeapList HeapInv HeapOps HeapAlloc HeapMove HeapCalls HeapResize HeapInit.
Local Open Scope Z_scope.

(** ** The abstract allocator *)

Abbreviation blocks := (gmap Z (list Z)).

Inductive call :=
  | Malloc (size : Z)
  | Zalloc (size : Z)
  | Calloc (n elem_size : Z)
  | Memalign (alignment size : Z)
  | Realloc (p size : Z)
  | Free (p : Z)
  | Store (p i v : Z).

(** A new block [bs] at [p] is aligned and apart from the others. *)
Definition fresh (A : blocks) (p : Z) (bs : list Z) : Prop :=
  0 < p /\ p mod 8 = 0 /\ 12 <= zlen bs /\
  forall q bq, A !! q = Some bq -> p + zlen bs <= q \/ q + zlen bq <= p.

(** The block [bs] was allocated at [r], or [r] is the null pointer. *)
Definition alloc (P : Z -> list Z -> Prop) (size : Z) (A : blocks) (r : Z) (A' : blocks) : Prop :=
  (r = 0 /\ A' = A) \/
  exists bs, A' = <[r := bs]> A /\ fresh A r bs /\ size <= zlen bs /\ P r bs.

Definition zeroed (size : Z) (_ : Z) (bs : list Z) : Prop :=
  take (Z.to_nat size) bs = replicate (Z.to_nat size) 0.

Inductive step (A : blocks) : call -> Z -> blocks -> Prop :=
  | step_malloc size r A' : alloc (fun _ _ => True) size A r A' -> step A (Malloc size) r A'
  | step_zalloc size r A' : alloc (zeroed size) size A r A' -> step A (Zalloc size) r A'
  | step_calloc n k r A' : n * k < 2 ^ 32 -> alloc (zeroed (n * k)) (n * k) A r A' -> step A (Calloc n k) r A'
  | step_calloc_large n k : 2 ^ 32 <= n * k -> step A (Calloc n k) 0 A
  | step_memalign al size r A' :
      alloc (fun p _ => p mod al = 0) size A r A' -> step A (Memalign al size) r A'
  | step_realloc_null size r A' : alloc (fun _ _ => True) size A r A' -> step A (Realloc 0 size) r A'
  | step_realloc_fail p size : step A (Realloc p size) 0 A
  | step_realloc p size bs r bs' :
      A !! p = Some bs -> fresh (delete p A) r bs' -> size <= zlen bs' ->
      take (Z.to_nat (Z.min (zlen bs) size)) bs' = take (Z.to_nat (Z.min (zlen bs) size)) bs ->
      step A (Realloc p size) r (<[r := bs']> (delete p A))
  | step_free p : step A (Free p) 0 (delete p A)
  | step_store p i v bs :
      A !! p = Some bs -> step A (Store p i v) 0 (<[p := <[Z.to_nat i := v]> bs]> A).

(** Which calls a client may make; an allocation needs the lock of the heap, a
    release does not. *)
Definition in_u32 (z : Z) : bool := (0 <=? z) && (z <? 2 ^ 32).

Definition owns (A : blocks) (p : Z) : bool := bool_decide (is_Some (A !! p)).

Definition legal (A : blocks) (c : ctx) (q : call) : bool :=
  match q with
  | Malloc size | Zalloc size => (0 <=? mm_lock c) && in_u32 size
  | Calloc n k => (0 <=? mm_lock c) && in_u32 n && in_u32 k
  | Memalign al size => (0 <=? mm_lock c) && in_u32 al && (0 <? al) && in_u32 size
  | Realloc p size => (0 <=? mm_lock c) && in_u32 size && ((p =? 0) || owns A p)
  | Free p => (p =? 0) || owns A p
  | Store p i v =>
      match A !! p with
      | Some bs => (0 <=? i) && (i <? zlen bs) && (0 <=? v) && (v <? 256)
      | None => false
      end
  end.

(** ** The calls *)

Definition exec (c : ctx) (m : mem) (h : mm_heap_s) (q : call) : option (Z * mem * mm_heap_s) :=
  match q with
  | Malloc size => mm_malloc c m h size
  | Zalloc size => mm_zalloc c m h size
  | Calloc n k => mm_calloc c m h n k
  | Memalign al size => mm_memalign c m h al size
  | Realloc p size => mm_realloc c m h p size
  | Free p => '(m, h) ← mm_free c m h p; Some (0, m, h)
  | Store p i v => if mappedb m (p + i) then Some (0, <[p + i := v]> m, h) else None
  end.

(** ** What a heap holds *)

Definition bytes (m : mem) (p n : Z) : list Z := map (fun i => default 0 (m !! i)) (seqZ p n).

Lemma bytes_length m p n : 0 <= n -> zlen (bytes m p n) = n.
Proof. intros. unfold bytes. rewrite length_map, length_seqZ. lia. Qed.

Lemma bytes_lookup m p n i : 0 <= i < n -> bytes m p n !! Z.to_nat i = Some (default 0 (m !! (p + i))).
Proof.
  intros Hi. unfold bytes. rewrite list_lookup_fmap, lookup_seqZ_lt by lia. simpl. do 3 f_equal. lia.
Qed.

Lemma bytes_ext m m' p n : (forall i, p <= i < p + n -> m' !! i = m !! i) -> bytes m' p n = bytes m p n.
Proof. intros Hi. apply map_ext_in. intros j Hj%list_elem_of_In%elem_of_seqZ. by rewrite Hi. Qed.

(** The blocks of a client: those of at least 16 bytes, which the guards are not. *)
Definition view (A : blocks) (m : mem) (L : gmap Z Z) : Prop :=
  forall p bs, A !! p = Some bs <-> exists s, L !! (p - 8) = Some s /\ 16 <= s /\ bs = bytes m p (s - 4).

(** A heap with the chunks [C], the delayed blocks [D] and the client's blocks [A]. *)
Definition holds (A : blocks) (m : mem) (h : mm_heap_s) (C : chunks) (D : list Z) : Prop :=
  hinv m h C D /\ view A m (live (used C) D).

Section view.
Context (m m' : mem) (h h' : mm_heap_s) (C C' : chunks) (A : blocks) (U : gmap Z Z).
Context (Hok : heap_ok m h C) (HU : U ⊆ used C) (Hp : pres m m' U (mm_heapend h)).

(** The bytes of the blocks that a call keeps. *)
Lemma kept_bytes p s : U !! (p - 8) = Some s -> 16 <= s -> bytes m' p (s - 4) = bytes m p (s - 4).
Proof.
  intros Hs H16. apply bytes_ext. intros i Hi. apply (proj2 Hp (p - 8) s); [done| |unfold payload; lia].
  eapply block_inner; [done|by eapply lookup_weaken|done].
Qed.

Lemma view_same : view A m U -> view A m' U.
Proof.
  intros Hv p bs. rewrite (Hv p bs). split; intros (s & Hs & H16 & ->); exists s; by rewrite (kept_bytes p s).
Qed.

(** One block more. *)
Lemma view_insert r k : view A m U -> U !! (r - 8) = None -> 16 <= k ->
  view (<[r := bytes m' r (k - 4)]> A) m' (<[r - 8 := k]> U).
Proof.
  intros Hv Hr Hk p bs. destruct (decide (p = r)) as [->|Hne].
  - rewrite !lookup_insert_eq. naive_solver.
  - rewrite !lookup_insert_ne by lia. by apply view_same.
Qed.
End view.

(** One block less. *)
Lemma view_delete A m U p : view A m U -> view (delete p A) m (delete (p - 8) U).
Proof.
  intros Hv q bs. destruct (decide (q = p)) as [->|Hne].
  - rewrite !lookup_delete_eq. naive_solver.
  - rewrite !lookup_delete_ne by lia. apply Hv.
Qed.

(** Two blocks are apart. *)
Lemma blocks_apart m h C a s b t : heap_ok m h C -> used C !! a = Some s -> used C !! b = Some t ->
  a = b \/ a + s <= b \/ b + t <= a.
Proof.
  intros [(F & Hm & _) _ _] [q Ha]%used_Some [q' Hb]%used_Some.
  exact (geo_apart _ _ (hmem_geo _ _ _ _ Hm) _ _ _ _ Ha Hb).
Qed.

Lemma view_fresh m m' h' C' A U r k : view A m U -> U !! (r - 8) = None -> 0 < r -> r mod 8 = 0 -> 16 <= k ->
  heap_ok m' h' C' -> used C' !! (r - 8) = Some k -> U ⊆ used C' -> fresh A r (bytes m' r (k - 4)).
Proof.
  intros Hv Hr Hr0 Hr8 Hk Hok Hrk HU. unfold fresh. rewrite bytes_length by lia. split_and!; [done..|lia|].
  intros q bq (s & Hs & H16 & ->)%Hv. rewrite bytes_length by lia.
  pose proof (lookup_weaken _ _ _ _ Hs HU) as Hs'.
  destruct (blocks_apart _ _ _ _ _ _ _ Hok Hrk Hs') as [E|[?|?]]; [|lia..]. congruence.
Qed.

(** An allocation of the heap is one of the contract. *)
Lemma allocated_alloc P m m' h h' C C' D D' A r size :
  hinv m h C D -> view A m (live (used C) D) -> hinv m' h' C' D' ->
  allocated (live (used C) D) (live (used C') D') r size -> pres m m' (live (used C) D) (mm_heapend h) ->
  (forall k, r <> 0 -> size + 4 <= k -> P r (bytes m' r (k - 4))) ->
  exists A', alloc P size A r A' /\ holds A' m' h' C' D'.
Proof.
  intros [Hok _ _] Hv Hin' Hal Hp HP. destruct Hal as [[-> Hl]|(k & Hr0 & Hr8 & Hf & Hl & Hk & Hsk)].
  - exists A. split; [by left|]. split; [done|]. rewrite Hl.
    eapply view_same; [done|apply live_sub|done..].
  - exists (<[r := bytes m' r (k - 4)]> A).
    assert (Hsub : live (used C) D ⊆ used C').
    { etrans; [|apply live_sub]. rewrite Hl. by apply insert_subseteq. }
    assert (Hrk : used C' !! (r - 8) = Some k).
    { eapply lookup_weaken; [|apply (live_sub _ D')]. rewrite Hl. apply lookup_insert_eq. }
    split.
    + right. eexists. split; [done|]. split_and!; [|rewrite bytes_length; lia|apply HP; lia].
      eapply view_fresh; try done. apply Hin'.
    + split; [done|]. rewrite Hl. eapply view_insert; [done|apply live_sub|done..].
Qed.

(** ** Every call *)

Lemma bytes_take m p n k : 0 <= k <= n -> take (Z.to_nat k) (bytes m p n) = bytes m p k.
Proof.
  intros Hk. unfold bytes. rewrite <- fmap_take. f_equal. apply list_eq. intros i.
  apply option_eq. intros x. rewrite lookup_take_Some, !lookup_seqZ. lia.
Qed.

Lemma bytes_zero m p k : 0 <= k -> (forall i, p <= i < p + k -> m !! i = Some 0) ->
bytes m p k = replicate (Z.to_nat k) 0.
Proof.
  intros Hk Hz. apply list_eq. intros i. destruct (decide (Z.of_nat i < k)) as [Hi|Hi].
  - rewrite lookup_replicate_2 by lia. replace i with (Z.to_nat (Z.of_nat i)) by lia.
    rewrite bytes_lookup by lia. by rewrite Hz by lia.
  - rewrite !lookup_ge_None_2; [done|rewrite length_replicate; lia|].
    pose proof (bytes_length m p k). lia.
Qed.

Section calls.
Context (c : ctx) (m : mem) (h : mm_heap_s) (A : blocks) (C : chunks) (D : list Z) (Hh : holds A m h C D).

(** What a call leaves: the blocks [A'], the same regions and the counter as [b] says. *)
Definition leaves (b : bool) (m' : mem) (h' : mm_heap_s) (A' : blocks) : Prop :=
  exists C' D', holds A' m' h' C' D' /\ same_regions h h' /\
  (b = true -> booked (usum (used C') - usum (used C)) h h').

Lemma malloc_step size : 0 <= mm_lock c -> 0 <= size < 2 ^ 32 -> exists r m' h' A',
  mm_malloc c m h size = Some (r, m', h') /\ alloc (fun _ _ => True) size A r A' /\ leaves true m' h' A'.
Proof.
  intros Hl Hsz. destruct Hh as [Hin Hv].
  destruct (malloc_spec c m h C D size Hin Hl Hsz) as (r & m' & h' & C' & E & Hin' & Hal & Hac & Hp).
  destruct (allocated_alloc (fun _ _ => True) m m' h h' C C' D [] A r size) as (A' & ? & ?); try done.
  { by rewrite live_nil. }
  exists r, m', h', A'. split_and!; [done..|]. exists C', []. split_and!; [done|by eapply acct_regions|].
  intros _. by eapply booked_acct.
Qed.

Lemma zalloc_step size : 0 <= mm_lock c -> 0 <= size < 2 ^ 32 -> exists r m' h' A',
  mm_zalloc c m h size = Some (r, m', h') /\ alloc (zeroed size) size A r A' /\ leaves true m' h' A'.
Proof.
  intros Hl Hsz. destruct Hh as [Hin Hv].
  destruct (zalloc_spec c m h C D size Hin Hl Hsz) as (r & m' & h' & C' & E & Hin' & Hal & Hac & Hp & Hz).
  destruct (allocated_alloc (zeroed size) m m' h h' C C' D [] A r size) as (A' & ? & ?); try done.
  { by rewrite live_nil. }
  { intros k Hr Hk. unfold zeroed. rewrite bytes_take by lia. apply bytes_zero; [lia|auto]. }
  exists r, m', h', A'. split_and!; [done..|]. exists C', []. split_and!; [done|by eapply acct_regions|].
  intros _. by eapply booked_acct.
Qed.

Lemma leaves_same : leaves true m h A.
Proof. exists C, D. split_and!; [done|done|]. intros _. rewrite Z.sub_diag. apply booked_refl. Qed.

(** The test of [mm_calloc] is exact. *)
Lemma calloc_test n k : 0 <= n < 2 ^ 32 -> 0 <= k < 2 ^ 32 ->
  ((k =? 0) || (n <=? UINT32_MAX / k)) = (n * k <? 2 ^ 32).
Proof.
  intros Hn Hk. destruct (Z.eqb_spec k 0) as [->|Hk0]; [by rewrite Z.mul_0_r|]. simpl.
  unfold UINT32_MAX. destruct (Z.ltb_spec (n * k) (2 ^ 32)) as [Hlt|Hge]; [apply Z.leb_le|apply Z.leb_gt].
  - apply Z.div_le_lower_bound; lia.
  - apply Z.div_lt_upper_bound; lia.
Qed.

Lemma calloc_step n k : 0 <= mm_lock c -> 0 <= n < 2 ^ 32 -> 0 <= k < 2 ^ 32 -> exists r m' h' A',
  mm_calloc c m h n k = Some (r, m', h') /\ step A (Calloc n k) r A' /\ leaves true m' h' A'.
Proof.
  intros Hl Hn Hk. unfold mm_calloc. rewrite calloc_test by done.
  destruct (Z.ltb_spec (n * k) (2 ^ 32)) as [Hlt|Hge].
  - rewrite u32_small by nia.
    destruct (zalloc_step (n * k) Hl ltac:(nia)) as (r & m' & h' & A' & E & Hal & Hh').
    exists r, m', h', A'. split; [done|]. split; [by apply step_calloc|done].
  - exists 0, m, h, A. split; [done|]. split; [by apply step_calloc_large|apply leaves_same].
Qed.

Lemma memalign_step al size : 0 <= mm_lock c -> 0 < al < 2 ^ 32 -> 0 <= size < 2 ^ 32 -> exists r m' h' A',
  mm_memalign c m h al size = Some (r, m', h') /\ step A (Memalign al size) r A' /\ leaves true m' h' A'.
Proof.
  intros Hl Ha Hsz. destruct Hh as [Hin Hv].
  destruct (memalign_spec c m h C D al size Hin Hl Ha Hsz)
    as (r & m' & h' & C' & D' & E & Hin' & Hal & Hm & Hp & Hbk).
  destruct (allocated_alloc (fun p _ => p mod al = 0) m m' h h' C C' D D' A r size) as (A' & ? & ?); try done.
  exists r, m', h', A'. split; [done|]. split; [by apply step_memalign|].
  exists C', D'. split_and!; [done|by eapply booked_regions|done].
Qed.

(** A block of the client in the heap. *)
Lemma owned_block p bs : A !! p = Some bs ->
  exists s, used C !! (p - 8) = Some s /\ 16 <= s /\ (p ∉ D) /\ bs = bytes m p (s - 4).
Proof.
  destruct Hh as [_ Hv]. intros (s & [Hs HD]%live_Some & H16 & ->)%Hv. exists s.
  by replace (p - 8 + 8) with p in HD by lia.
Qed.

Lemma null_not_owned : A !! 0 = None.
Proof.
  destruct (A !! 0) as [bs|] eqn:E; [|done]. destruct (owned_block 0 bs E) as (s & Hs & H16 & _).
  destruct (block_mapped _ _ _ _ _ (hi_ok _ _ _ _ (proj1 Hh)) Hs H16) as (_ & ? & _). lia.
Qed.

Lemma free_step p : p = 0 \/ is_Some (A !! p) -> exists m' h',
  mm_free c m h p = Some (m', h') /\ leaves true m' h' (delete p A).
Proof.
  intros [->|[bs Hb]].
  { exists m, h. split; [done|]. rewrite delete_id by apply null_not_owned. apply leaves_same. }
  destruct (owned_block p bs Hb) as (s & Hs & H16 & HD & _). destruct Hh as [Hin Hv].
  destruct (free_spec c m h C D p s) as (m' & h' & C' & D' & E & Hin' & Hl & Hp & Hr & Hbk & _); try done.
  exists m', h'. split; [done|]. exists C', D'. split; [|done]. split; [done|]. rewrite Hl.
  eapply (view_same m m' h C); [apply Hin| | |by apply view_delete].
  - etrans; [apply delete_subseteq|apply live_sub].
  - eapply pres_sub; [done|]. apply delete_mono, live_sub.
Qed.

Lemma bytes_store p n i v : 0 <= i < n -> bytes (<[p + i := v]> m) p n = <[Z.to_nat i := v]> (bytes m p n).
Proof.
  intros Hi. apply list_eq. intros j. destruct (decide (Z.of_nat j < n)) as [Hj|Hj].
  - rewrite <- (Nat2Z.id j). rewrite bytes_lookup by lia.
    destruct (decide (Z.of_nat j = i)) as [->|Hne].
    + rewrite lookup_insert_eq, list_lookup_insert_eq; [done|]. pose proof (bytes_length m p n). lia.
    + rewrite lookup_insert_ne, list_lookup_insert_ne by lia. by rewrite bytes_lookup by lia.
  - pose proof (bytes_length m p n). pose proof (bytes_length (<[p + i := v]> m) p n).
    rewrite !lookup_ge_None_2; [done|rewrite length_insert; lia|lia].
Qed.

Lemma store_step p i v bs : A !! p = Some bs -> 0 <= i < zlen bs -> exists m',
  exec c m h (Store p i v) = Some (0, m', h) /\ leaves true m' h (<[p := <[Z.to_nat i := v]> bs]> A).
Proof.
  intros Hb Hi. destruct (owned_block p bs Hb) as (s & Hs & H16 & HD & ->). destruct Hh as [Hin Hv].
  rewrite bytes_length in Hi by lia. destruct (block_mapped _ _ _ _ _ (hi_ok _ _ _ _ Hin) Hs H16) as (Mp & _).
  assert (Mi : is_Some (m !! (p + i))) by (apply Mp; lia).
  simpl. rewrite mappedb_true by done. eexists. split; [done|].
  destruct (hinv_write m (<[p + i := v]> m) h C D (p - 8) s) as [Hin' Hp]; try done.
  { by replace (p - 8 + 8) with p by lia. }
  { split; [by apply dom_set|]. intros b Hn. rewrite lookup_insert_ne; [done|]. unfold payload in Hn. lia. }
  exists C, D. split; [|split; [done|intros _; rewrite Z.sub_diag; apply booked_refl]].
  split; [done|]. rewrite <- bytes_store by lia.
  replace (live (used C) D) with (<[p - 8 := s]> (delete (p - 8) (live (used C) D))).
  - rewrite <- insert_delete_eq.
    eapply (view_insert m _ h C); [apply Hin| | |by apply view_delete|apply lookup_delete_eq|done].
    + etrans; [apply delete_subseteq|apply live_sub].
    + eapply pres_sub; [done|]. apply delete_mono, live_sub.
  - apply insert_delete_id, live_Some. by replace (p - 8 + 8) with p by lia.
Qed.

Lemma bytes_move m' p r k : (forall i, 0 <= i < k -> m' !! (r + i) = m !! (p + i)) ->
bytes m' r k = bytes m p k.
Proof.
  intros Hm. destruct (decide (0 <= k)).
  2: { unfold bytes. by rewrite !seqZ_nil by lia. }
  apply list_eq. intros j. destruct (decide (Z.of_nat j < k)) as [Hj|Hj].
  - rewrite <- (Nat2Z.id j). rewrite !bytes_lookup by lia. by rewrite Hm by lia.
  - pose proof (bytes_length m p k). pose proof (bytes_length m' r k).
    rewrite !lookup_ge_None_2; [done|lia..].
Qed.

Lemma realloc_step p size bs : 0 <= mm_lock c -> 0 <= size < 2 ^ 32 -> A !! p = Some bs ->
  exists r m' h' A', mm_realloc c m h p size = Some (r, m', h') /\ step A (Realloc p size) r A' /\
  leaves false m' h' A'.
Proof.
  intros Hlock Hsz Hb. destruct (owned_block p bs Hb) as (s & Hs & H16 & HD & ->). destruct Hh as [Hin Hv].
  destruct (realloc_spec c m h C D (p - 8) s Hin Hlock Hs H16) with (size := size)
    as (r & m' & h' & C' & D' & E & Hin' & Hrg & Hre); [by replace (p - 8 + 8) with p by lia|done|].
  replace (p - 8 + 8) with p in E by lia. pose proof (hi_ok _ _ _ _ Hin) as Hok.
  destruct Hre as [(-> & Hl & Hp)|(k & Hr0 & Hr8 & Hf & Hl & Hk & Hsk & Hp & Hc)].
  - exists 0, m', h', A. split; [done|]. split; [constructor|]. exists C', D'. split; [|done]. split; [done|].
    rewrite Hl. eapply view_same; [done|apply live_sub|done..].
  - exists r, m', h', (<[r := bytes m' r (k - 4)]> (delete p A)). split; [done|].
    pose proof (view_delete _ _ _ p Hv) as Hvd.
    assert (Hsub : delete (p - 8) (live (used C) D) ⊆ used C').
    { etrans; [|apply (live_sub _ D')]. rewrite Hl. by apply insert_subseteq. }
    assert (Hrk : used C' !! (r - 8) = Some k).
    { eapply lookup_weaken; [|apply (live_sub _ D')]. rewrite Hl. apply lookup_insert_eq. }
    split.
    + eapply step_realloc; [done| |rewrite bytes_length; lia|].
      * eapply (view_fresh m m'); try done. apply Hin'.
      * rewrite !bytes_length by lia. rewrite !bytes_take by lia. apply bytes_move.
        intros i Hi. rewrite Hc by lia. f_equal. lia.
    + exists C', D'. split; [|done]. split; [done|]. rewrite Hl. eapply view_insert; try done.
      etrans; [apply delete_subseteq|apply live_sub].
Qed.

Definition no_realloc (q : call) : bool := if q is Realloc _ _ then false else true.

Lemma exec_step q : legal A c q = true ->
  exists r m' h' A', exec c m h q = Some (r, m', h') /\ step A q r A' /\ leaves (no_realloc q) m' h' A'.
Proof.
  intros Hl.
  destruct q as [size|size|n k|al size|p size|p|p i v]; cbn [legal exec no_realloc] in *;
    unfold in_u32, owns in *.
  - apply andb_true_iff in Hl as [?%Z.leb_le [?%Z.leb_le ?%Z.ltb_lt]%andb_true_iff].
    destruct (malloc_step size) as (r & m' & h' & A' & ? & ? & ?); [lia..|].
    exists r, m', h', A'. split; [done|]. split; [by constructor|done].
  - apply andb_true_iff in Hl as [?%Z.leb_le [?%Z.leb_le ?%Z.ltb_lt]%andb_true_iff].
    destruct (zalloc_step size) as (r & m' & h' & A' & ? & ? & ?); [lia..|].
    exists r, m', h', A'. split; [done|]. split; [by constructor|done].
  - rewrite !andb_true_iff, !Z.leb_le, !Z.ltb_lt in Hl. apply calloc_step; lia.
  - rewrite !andb_true_iff, !Z.leb_le, !Z.ltb_lt in Hl. apply memalign_step; lia.
  - rewrite !andb_true_iff, !Z.leb_le, !Z.ltb_lt, orb_true_iff, bool_decide_eq_true, Z.eqb_eq in Hl.
    destruct Hl as ((? & ?) & [->|[bs Hb]]).
    + destruct (malloc_step size) as (r & m' & h' & A' & ? & ? & C' & D' & ? & ? & ?); [lia..|].
      exists r, m', h', A'. split; [done|]. split; [by constructor|]. by exists C', D'.
    + eapply realloc_step; try done; lia.
  - rewrite orb_true_iff, bool_decide_eq_true, Z.eqb_eq in Hl.
    destruct (free_step p Hl) as (m' & h' & -> & Hh'). exists 0, m', h', (delete p A).
    split; [done|]. split; [constructor|done].
  - destruct (A !! p) as [bs|] eqn:Eb; [|done]. rewrite !andb_true_iff, !Z.leb_le, !Z.ltb_lt in Hl.
    destruct (store_step p i v bs Eb) as (m' & E & Hh'); [lia|].
    exists 0, m', h. eexists. split; [exact E|]. split; [by constructor|done].
Qed.
End calls.

(** ** Runs of calls *)

Fixpoint exec_all (l : list (ctx * call)) (m : mem) (h : mm_heap_s) : option (list Z * mem * mm_heap_s) :=
  match l with
  | [] => Some ([], m, h)
  | (c, q) :: l =>
      '(r, m, h) ← exec c m h q;
      '(rs, m, h) ← exec_all l m h;
      Some (r :: rs, m, h)
  end.

Inductive steps : blocks -> list (ctx * call) -> list Z -> blocks -> Prop :=
  | steps_nil A : steps A [] [] A
  | steps_cons A c q r A1 l rs A2 :
      legal A c q = true -> step A q r A1 -> steps A1 l rs A2 -> steps A ((c, q) :: l) (r :: rs) A2.

(** The calls are made until the client makes one that it may not make. *)
Lemma exec_all_steps l m h A C D : holds A m h C D -> exists l1 l2 rs m' h' A' C' D',
  l = l1 ++ l2 /\ exec_all l1 m h = Some (rs, m', h') /\ steps A l1 rs A' /\ holds A' m' h' C' D' /\
  same_regions h h' /\
  (forallb (fun cq => no_realloc cq.2) l1 = true -> booked (usum (used C') - usum (used C)) h h') /\
  match l2 with [] => True | (c, q) :: _ => legal A' c q = false end.
Proof.
  revert m h A C D. induction l as [|[c q] l IH]; intros m h A C D Hh.
  { exists [], [], [], m, h, A, C, D. split_and!; try done; [constructor|]. intros _. rewrite Z.sub_diag.
    apply booked_refl. }
  destruct (legal A c q) eqn:El.
  - destruct (exec_step c m h A C D Hh q El) as (r & m1 & h1 & A1 & E & Hst & C1 & D1 & Hh1 & Hr1 & Hb1).
    destruct (IH m1 h1 A1 C1 D1 Hh1)
      as (l1 & l2 & rs & m' & h' & A' & C' & D' & -> & E' & Hsts & Hh' & Hr' & Hb' & Hl2).
    exists ((c, q) :: l1), l2, (r :: rs), m', h', A', C', D'. split_and!; try done.
    + simpl. rewrite E. bnd. by rewrite E'.
    + by econstructor.
    + destruct Hr1 as (? & ? & ?), Hr' as (? & ? & ?). split_and!; congruence.
    + simpl. intros [? ?]%andb_true_iff. eapply booked_booked; [by apply Hb1|by apply Hb'|lia].
  - exists [], ((c, q) :: l), [], m, h, A, C, D. split_and!; try done; [constructor|].
    intros _. rewrite Z.sub_diag. apply booked_refl.
Qed.
