(* ===== verification/HeapRuns.v ===== *)
(** * The heap from its start

    What holds of a heap that [mm_initialize_heap] made and that clients have
    used: it follows the contract of HeapSpec, allocates the best fit, joins what
    is released, and its walks and counters agree with its chunks. *)

From S2P Require Import Prelude.
From stdpp Require Import gmap sorting.
From S2P Require Import Heap HeapList HeapInv HeapOps HeapAlloc HeapMove HeapCalls HeapResize HeapInit.
From S2P Require Import HeapWalk HeapSpec.
Local Open Scope Z_scope.

(** Memory and a layout that a heap can be made from. *)
Definition startable (lay : heap_layout) (c : ctx) (m : mem) (start size : Z) : Prop :=
  0 <= nodelist_off lay /\ nodelist_off lay + 304 <= sizeof_heap lay /\ 0 <= mm_lock c /\
  0 < start /\ start + size < 2 ^ 32 /\ sizeof_heap lay + 55 <= size /\ mapped m start (start + size).

Section start.
Context (lay : heap_layout) (c : ctx) (m : mem) (start size : Z) (Hs : startable lay c m start size).

Abbreviation lo := (MM_ALIGN_UP start + sizeof_heap lay).
Abbreviation n := (start + size - lo).

Lemma start_bounds : 0 < start < lo /\ start <= MM_ALIGN_UP start /\ lo < start + 8 + sizeof_heap lay /\
48 <= n /\ lo + n < 2 ^ 32 /\
  lo <= base lo < lo + 8 /\ base lo + 32 <= last lo n /\ start + size - 16 < last lo n <= start + size - 8.
Proof.
  destruct Hs as (? & ? & ? & ? & ? & ? & _). destruct (align_up_spec start) as [? _]; [lia..|].
  destruct (region_bounds lo n) as (? & ? & ? & ? & ? & ?); [lia..|].
  assert (last lo n > start + size - 16).
  { unfold last, MM_ALIGN_DOWN. rewrite gran_down. replace (lo + n) with (start + size) by lia. zlia. }
  assert (lo <= base lo < lo + 8).
  { unfold base. destruct (align_up_spec (lo + 16)) as [? _]; lia. }
  split_and!; lia.
Qed.

Lemma used_region : used (region lo n) = <[base lo := 8]> (<[last lo n := 8]> ∅).
Proof.
  destruct start_bounds as (? & ? & ? & ? & ? & ? & ? & ?). pose proof (region_Some lo n) as Hr.
  apply map_eq. intros a. apply option_eq. intros s. rewrite used_Some, !lookup_insert_Some, lookup_empty.
  setoid_rewrite Hr; [|lia..]. naive_solver lia.
Qed.

Lemma start_holds : exists m0 h0, mm_initialize_heap lay c m None start size = Some (Some h0, None, m0) /\
  holds ∅ m0 h0 (region lo n) [] /\ mm_heapstart h0 = [base lo] /\ mm_heapend h0 = [last lo n] /\
  mm_curused h0 = u32 (sizeof_heap lay + 16) /\ mm_heapsize h0 = u32 (last lo n + 8 - base lo).
Proof.
  pose proof Hs as (? & ? & ? & ? & ? & ? & ?).
  destruct (initialize_spec lay c m start size) as (m0 & h0 & E & Hin & Hst & Hen & Hcu & Hhs & _); [done..|].
  exists m0, h0. split_and!; try done. split; [done|]. rewrite live_nil, used_region. intros p bs.
  rewrite lookup_empty. split; [done|]. intros (s & Hsp & H16 & _).
  rewrite !lookup_insert_Some, lookup_empty in Hsp. naive_solver lia.
Qed.

(** The blocks hold the bytes that the contract gives them and lie in the region. *)
Definition blocks_in (m' : mem) (A : blocks) : Prop :=
  forall p bs, A !! p = Some bs ->
    bytes m' p (zlen bs) = bs /\ start + sizeof_heap lay <= p /\ p + zlen bs <= start + size.

Lemma holds_blocks_in m' h' A C D :
  holds A m' h' C D -> mm_heapstart h' = [base lo] -> mm_heapend h' = [last lo n] -> blocks_in m' A.
Proof.
  intros Hh Hst Hen p bs Hp. destruct (owned_block m' h' A C D Hh p bs Hp) as (s & Hs' & H16 & _ & ->).
  rewrite bytes_length by lia. split; [done|]. destruct start_bounds as (? & ? & ? & ? & ? & ? & ? & ?).
  destruct Hh as [[Hok _ _] _]. pose proof (block_inner _ _ _ _ _ Hok Hs' H16) as HaE.
  pose proof Hok as [(F & Hm & _) Ht _]. apply used_Some in Hs' as [q Hq].
  destruct (t_in _ _ _ Ht _ _ Hq) as (i & s0 & e & Hi & He & ?). rewrite Hst in Hi. rewrite Hen in He.
  apply list_lookup_singleton_Some in Hi as [-> <-]. apply list_lookup_singleton_Some in He as [_ <-].
  destruct (t_end _ _ _ Ht (last lo n)) as [qe Hqe]; [rewrite Hen; set_solver|].
  pose proof (t_start _ _ _ Ht (base lo) ltac:(rewrite Hst; set_solver)) as Hb0.
  assert (p - 8 <> last lo n) by (rewrite Hen in HaE; set_solver).
  assert (p - 8 <> base lo) by (intros E; rewrite E in Hq; simplify_eq; lia).
  pose proof (hmem_geo _ _ _ _ Hm) as Hg.
  destruct (geo_apart _ _ Hg _ _ _ _ Hq Hqe) as [?|[?|?]], (geo_apart _ _ Hg _ _ _ _ Hq Hb0) as [?|[?|?]];
    simpl in *; lia.
Qed.

(** An empty heap is one free chunk between the guards. *)
Lemma one_chunk m' h' C' : heap_ok m' h' C' -> mm_heapstart h' = [base lo] -> mm_heapend h' = [last lo n] ->
  (forall a s, used C' !! a = Some s -> s < 16) ->
  C' !! (base lo + 8) = Some (Chunk (last lo n - base lo - 8) false None).
Proof.
  intros Hok Hst Hen Hno. destruct start_bounds as (? & ? & ? & ? & ? & ? & ? & ?).
  pose proof Hok as [(F & Hm & _) Ht Hc]. rewrite Hst, Hen in Ht.
  pose proof (t_start _ _ _ Ht (base lo) ltac:(set_solver)) as Hb.
  destruct (t_next _ _ _ Ht _ _ Hb ltac:(set_solver by lia)) as ([t u q] & Ht1 & Hp1). simpl in Ht1, Hp1.
  subst q.
  assert (Hfree : forall a d, C' !! a = Some d -> base lo < a < last lo n -> c_used d = false).
  { intros a [s [] q] Ha Hin; [|done]. exfalso.
    assert (Hs' : used C' !! a = Some s) by (apply used_Some; eauto).
    apply Hno in Hs'.
    destruct (t_size _ _ _ Ht _ _ Ha) as [?%list_elem_of_singleton|[?%list_elem_of_singleton|?]]; simpl in *;
      lia. }
  pose proof (Hfree _ _ Ht1 ltac:(lia)) as Hu. simpl in Hu. subst u.
  destruct (t_next _ _ _ Ht _ _ Ht1 ltac:(set_solver by lia)) as (d & Hd & _). simpl in Hd.
  destruct (t_end _ _ _ Ht (last lo n) ltac:(set_solver)) as [qe Hqe].
  pose proof (hmem_geo _ _ _ _ Hm) as Hg. destruct (Hc _ _ _ Ht1 Hd) as [|Hud]; [done|].
  destruct (geo_apart _ _ Hg _ _ _ _ Ht1 Hqe) as [?|[Hle|?]]; simpl in *; [lia| |lia].
  destruct (decide (base lo + 8 + t = last lo n)) as [E|Hne].
  - rewrite Ht1. do 2 f_equal. lia.
  - pose proof (hmem_place _ _ _ _ Hm _ _ Ht1) as (_ & _ & ? & _). simpl in *.
    rewrite (Hfree _ _ Hd) in Hud by lia. done.
Qed.
End start.

Lemma view_empty m L : view ∅ m L -> forall a s, L !! a = Some s -> s < 16.
Proof.
  intros Hv a s Ha. destruct (decide (16 <= s)); [exfalso|lia].
  assert ((∅ : blocks) !! (a + 8) = Some (bytes m (a + 8) (s - 4))) as Hbad.
  { apply Hv. exists s. by replace (a + 8 - 8) with a by lia. }
  by rewrite lookup_empty in Hbad.
Qed.

(** ** Runs from the start *)

(** The heap is made, the calls follow the contract until the client breaks it,
    and [Q] holds of the calls that were made, the memory, the heap and the blocks
    of the client. *)
Definition serves (lay : heap_layout) (c : ctx) (m : mem) (start size : Z) (calls : list (ctx * call))
    (Q : list (ctx * call) -> mem -> mm_heap_s -> blocks -> Prop) : Prop :=
  exists m0 h0 l1 l2 rs m' h' A',
    mm_initialize_heap lay c m None start size = Some (Some h0, None, m0) /\
    calls = l1 ++ l2 /\ exec_all l1 m0 h0 = Some (rs, m', h') /\ steps ∅ l1 rs A' /\
    match l2 with [] => True | (c, q) :: _ => legal A' c q = false end /\ Q l1 m' h' A'.

(** What is known of the heap after such calls. *)
Record used_heap (lay : heap_layout) (start size : Z) (l1 : list (ctx * call)) (m' : mem) (h' : mm_heap_s)
    (A' : blocks) (C' : chunks) (D' : list Z) : Prop := {
  uh_holds : holds A' m' h' C' D';
  uh_start : mm_heapstart h' = [base (MM_ALIGN_UP start + sizeof_heap lay)];
  uh_end : let lo := MM_ALIGN_UP start + sizeof_heap lay in mm_heapend h' = [last lo (start + size - lo)];
  uh_size : mm_heapsize h' = u32 (total (mm_heapstart h') (mm_heapend h'));
  uh_used : forallb (fun cq => no_realloc cq.2) l1 = true ->
    u32 (mm_curused h') = u32 (sizeof_heap lay + usum (used C'));
}.

Lemma serves_intro lay c m start size calls Q :
  startable lay c m start size ->
  (forall l1 m' h' A' C' D', used_heap lay start size l1 m' h' A' C' D' -> Q l1 m' h' A') ->
  serves lay c m start size calls Q.
Proof.
  intros Hs HQ. destruct (start_holds lay c m start size Hs) as (m0 & h0 & E0 & Hh0 & Hst & Hen & Hcu & Hhs).
  destruct (exec_all_steps calls m0 h0 ∅ _ [] Hh0)
    as (l1 & l2 & rs & m' & h' & A' & C' & D' & -> & E & Hsteps & Hh' & Hr & Hb & Hl2).
  exists m0, h0, l1, l2, rs, m', h', A'. split_and!; try done. apply (HQ _ _ _ _ C' D').
  destruct Hr as (Hr1 & Hr2 & Hr3). split; [done|congruence|simpl; congruence| |].
  - rewrite Hr1, Hr2, Hr3, Hst, Hen, Hhs. simpl. f_equal. lia.
  - intros Hn. specialize (Hb Hn). rewrite (ac_used _ _ _ Hb). simpl. rewrite Hcu, u32_u32_add_l. f_equal.
    rewrite (used_region lay c m start size Hs).
    destruct (start_bounds lay c m start size Hs) as (? & ? & ? & ? & ? & ? & ? & ?).
    rewrite !usum_insert by (rewrite ?lookup_insert_ne by lia; apply lookup_empty).
    change (usum ∅) with 0. lia.
Qed.

(** C8: A heap that [mm_initialize_heap] makes out of mapped memory serves every
    sequence of [malloc], [zalloc], [calloc], [memalign], [realloc], [free] and
    stores into blocks, from tasks and interrupt handlers, as an abstract allocator:
    until a client makes a call that it may not make, no assertion fails and no
    access leaves the memory; a new block is aligned, large enough and apart from the
    others; [zalloc] and [calloc] give zeros; [realloc] keeps the contents; the bytes
    of every other block stay; and all blocks lie in the region. *)
Theorem heap_refines_allocator lay c m start size calls :
  startable lay c m start size ->
  serves lay c m start size calls (fun _ m' _ A' => blocks_in lay start size m' A').
Proof.
  intros Hs. apply serves_intro; [done|]. intros l1 m' h' A' C' D' [Hh Hst Hen _ _].
  by eapply holds_blocks_in.
Qed.

(** C18: When a client has released all its blocks, also those whose release was put
    off, the heap can give nearly the whole region again: the free chunks have been
    joined to one. *)
Theorem heap_coalesces lay c m start size calls :
  startable lay c m start size ->
  serves lay c m start size calls (fun _ m' h' A' => A' = ∅ ->
    forall c' k, 0 <= mm_lock c' -> 0 <= k -> k + sizeof_heap lay + 56 <= size ->
    exists r m'' h'', mm_malloc c' m' h' k = Some (r, m'', h'') /\ r <> 0).
Proof.
  intros Hs. apply serves_intro; [done|]. intros l1 m' h' A' C' D' [[Hin Hv] Hst Hen _ _] -> c' k Hl Hk Hks.
  pose proof Hs as (? & ? & ? & ? & ? & ? & _).
  destruct (start_bounds lay c m start size Hs) as (? & ? & ? & ? & ? & ? & ? & ?).
  destruct (chunk_size_spec k) as [[_ ?]|(al & Eal & ? & ? & ? & Hal)]; [lia..|].
  destruct (malloc_fit c' m' h' C' D' k al Hin Hl ltac:(lia) Eal)
    as (m1 & h1 & C1 & Hok1 & Hu1 & (Hst1 & Hen1 & _) & _ & [[_ Hno]
        |(x & t & s & m'' & h'' & C'' & _ & E & Hin'' & Hx & _)]).
  - exfalso.
    pose proof (one_chunk lay c m start size Hs m1 h1 C1 Hok1 ltac:(congruence) ltac:(simpl in *;
      congruence)) as Hone.
    rewrite Hu1 in Hone. specialize (Hone (view_empty _ _ Hv)).
    apply Hno in Hone; [|done]. simpl in Hone. destruct Hal; lia.
  - exists (x + 8), m'', h''. split; [done|]. destruct (hi_ok _ _ _ _ Hin'') as [(F & Hm & _) _ _].
    pose proof (hmem_place _ _ _ _ Hm _ _ Hx) as (? & _). lia.
Qed.

(** C20: After any such run the walks over the heap find it in order: no check of
    [mm_checkcorruption] fails, [mm_mallinfo] accounts for every byte of the arena,
    and as long as no block was resized its count of used bytes is [mm_curused]. *)
Theorem heap_walks_agree lay c m start size calls :
  startable lay c m start size ->
  serves lay c m start size calls (fun l1 m' h' _ => forall c', 0 <= mm_lock c' ->
    is_Some (mm_checkcorruption c' m' h') /\
    exists info m'' h'', mm_mallinfo lay c' m' h' = Some (info, m'', h'') /\
    s32 (uordblks info + fordblks info) = s32 (mm_heapsize h' + sizeof_heap lay) /\
    (forallb (fun cq => no_realloc cq.2) l1 = true -> uordblks info = s32 (mm_curused h''))).
Proof.
  intros Hs. apply serves_intro; [done|]. intros l1 m' h' A' C' D' [[Hin Hv] Hst Hen Hsz Hus] c' Hl.
  destruct (checkcorruption_spec c' m' h' C' D' Hin Hl) as (m1 & h1 & C1 & E1 & _). split; [eauto|].
  destruct (mallinfo_spec c' m' h' C' D' Hin Hl lay Hsz)
    as (info & m'' & h'' & C'' & E & _ & _ & Hac & Hu & Hf & _).
  exists info, m'', h''. split_and!; [done| |].
  - rewrite Hu, Hf, Hsz, s32_s32_add, s32_add_s32, <- (s32_u32 (u32 _ + _)), u32_u32_add_l, s32_u32. f_equal.
    lia.
  - intros Hn. specialize (Hus Hn). rewrite Hu, <- (s32_u32 (mm_curused h'')), (ac_used _ _ _ Hac).
    cbn [mm_curused set_delaylist]. rewrite <- u32_u32_add_l, Hus, u32_u32_add_l, s32_u32. f_equal. lia.
Qed.

(** ** Which chunk is taken *)

(** C19: Of a heap without delayed blocks [mm_malloc] takes the smallest free chunk
    that is large enough, and splits it so that less than 16 bytes are wasted; it
    gives no block only when every free chunk is too small, and then changes
    nothing. *)
Theorem malloc_best_fit c m h C size al :
  hinv m h C [] -> 0 <= mm_lock c -> 0 <= size < 2 ^ 32 -> chunk_size size = Some al ->
  exists r m' h' C', mm_malloc c m h size = Some (r, m', h') /\ hinv m' h' C' [] /\
  ((r = 0 /\ m' = m /\ C' = C /\ forall b d, C !! b = Some d -> c_used d = false -> c_size d < al) \/
   exists x t s, r = x + 8 /\ best_fit C al x t /\ C' !! x = Some (Chunk s true None) /\
     al <= s < al + 16 /\ used C' = <[x := s]> (used C)).
Proof.
  intros Hin Hlock Hsz Hcs.
  destruct (malloc_fit c m h C [] size al Hin Hlock Hsz Hcs) as (m1 & h1 & C1 & Hok1 & _ & Hr & Hnil & Hres).
  destruct (Hnil eq_refl) as [-> ->].
  destruct (malloc_spec c m h C [] size Hin Hlock Hsz) as (r0 & m0 & h0 & C0 & E0 & Hin0 & _).
  destruct Hres as [[E Hno]|(x & t & s & m' & h' & C' & Hbf & E & Hin' & Hx & Hs & Hu)].
  - rewrite E in E0. simplify_eq. exists 0, m0, h0, C. split_and!; [done| |by left].
    split; [done|apply Hin0|split; [constructor|by intros ? ?%elem_of_nil]].
  - exists (x + 8), m', h', C'. split_and!; try done. right. by exists x, t, s.
Qed.

(** ** Counters *)

(** A chunk that cannot be shrunk, because the next one is used and the rest would
    be too small, stays as it is when its block is resized, but the counter of used
    bytes is reduced. *)
Theorem realloc_miscounts c m h C D a s p d size k :
  hinv m h C D -> 0 <= mm_lock c -> C !! a = Some (Chunk s true p) -> 16 <= s ->
  C !! (a + s) = Some d -> c_used d = true -> 0 <= size < 2 ^ 32 -> chunk_size size = Some k ->
  k < s < k + 16 -> mm_realloc c m h (a + 8) size = Some (a + 8, m, add_curused (k - s) h).
Proof.
  intros Hin Hlock Ha Hs Hd Hu Hsz Hcs Hk. pose proof (hi_ok _ _ _ _ Hin) as Hok.
  assert (Hb : used C !! a = Some s) by (apply used_Some; eauto).
  destruct (block_mapped _ _ _ _ _ Hok Hb Hs) as (_ & ? & ? & ?).
  destruct (chunk_size_spec size Hsz) as [[E _]|(al & E & Hal & Hal8 & _)]; [congruence|].
  assert (al = k) as -> by congruence.
  destruct (realloc_reads m h C D a s Hin Hs p d Ha Hd) as (Ea & Ea4 & Ed & Ed4 & _).
  unfold mm_realloc. rewrite (proj2 (Z.eqb_neq (a + 8) 0)) by lia. rewrite (block_member _ _ _ _ _ Hok Hb Hs).
  cbn [dassert]. bnd. cbv zeta. unfold chunk_size in Hcs. cbv zeta in Hcs.
  destruct (_ <? (if size <? _ then _ else size)); [done|]. apply (inj Some) in Hcs. rewrite Hcs.
  replace (a + 8 - MM_SIZEOF_ALLOCNODE) with a by (unfold MM_SIZEOF_ALLOCNODE; lia).
  rewrite lock_ok by done. bnd. rewrite Ea. bnd. destruct (hdr_used s true (pf p) Ea4) as (Es & -> & _).
  rewrite Es.
  cbn [dassert]. bnd. rewrite (proj2 (Z.leb_le k s)), (proj2 (Z.ltb_lt k s)) by lia.
  unfold mm_shrinkchunk. rewrite Ea. bnd. rewrite gran_mask by done. cbn [dassert]. bnd. rewrite Es, Ed. bnd.
  destruct (hdr_used (c_size d) (c_used d) false Ed4) as (_ & _ & -> & _). rewrite Hu. cbn [negb].
  rewrite (proj2 (Z.leb_gt _ s)); [done|]. pose proof (hmem_size_8 _ _ _ _ _ Hok Ha) as Hs8. simpl in Hs8.
  unfold MM_MIN_CHUNK. rewrite u32_small; [lia|]. change (2 ^ 32) with 4294967296 in *. zlia.
Qed.

Lemma u32_s32_sub_l a b : u32 (s32 a - b) = u32 (a - b).
Proof.
  unfold s32.
  replace ((a + 2 ^ 31) mod 2 ^ 32 - 2 ^ 31 - b) with (u32 (a + 2 ^ 31) - (2 ^ 31 + b)) by (unfold u32; lia).
  rewrite u32_u32_sub_l. f_equal. lia.
Qed.

(** [mm_heapfree] gives less than the free bytes: [mm_curused] counts the
    structure of the heap, which [mm_heapsize] does not. *)
Theorem heapfree_understates lay c m start size calls :
  startable lay c m start size ->
  serves lay c m start size calls (fun l1 m' h' _ =>
    forallb (fun cq => no_realloc cq.2) l1 = true -> forall c', 0 <= mm_lock c' ->
    exists v m1 h1 info m2 h2, mm_heapfree c' m' h' = Some (v, m1, h1) /\
    mm_mallinfo lay c' m' h' = Some (info, m2, h2) /\ v = u32 (fordblks info - sizeof_heap lay)).
Proof.
  intros Hs. apply serves_intro; [done|]. intros l1 m' h' A' C' D' [[Hin Hv] Hst Hen Hsz Hus] Hn c' Hl.
  specialize (Hus Hn).
  destruct (delaylist_spec c' m' h' C' D' Hin Hl) as (b & m1 & h1 & C1 & E & _ & Hu1 & Hac & _).
  destruct (mallinfo_spec c' m' h' C' D' Hin Hl lay Hsz)
    as (info & m2 & h2 & C2 & E2 & _ & Hu2 & _ & _ & Hf & _).
  eexists _, m1, h1, info, m2, h2. unfold mm_heapfree, mm_free_delaylist. rewrite E. bnd.
  split_and!; [done..|].
  rewrite Hf. destruct (acct_regions _ _ _ _ Hac) as (_ & _ & ->). rewrite Hsz.
  assert (Hcu : u32 (mm_curused h1) = u32 (sizeof_heap lay + usum (used C2))).
  { rewrite (ac_used _ _ _ Hac). cbn [mm_curused set_delaylist]. rewrite <- u32_u32_add_l, Hus, u32_u32_add_l.
    f_equal. rewrite Hu1, Hu2. lia. }
  rewrite <- u32_u32_sub_r, Hcu, u32_u32_sub_r, u32_u32_sub_l, u32_s32_sub_l. f_equal. lia.
Qed.

(** ** Examples *)

(** [n] bytes of zeros from [lo] on. *)
Definition ram (lo n : Z) : mem := list_to_map (map (fun i => (i, 0)) (seqZ lo n)).

Lemma ram_mapped lo n : mapped (ram lo n) lo (lo + n).
Proof.
  intros b Hb. unfold ram. exists 0. apply elem_of_list_to_map_1.
  - rewrite <- list_fmap_compose. simpl. rewrite list_fmap_id. apply NoDup_seqZ.
  - apply list_elem_of_fmap. exists b. split; [done|]. apply elem_of_seqZ. lia.
Qed.

Definition lay0 : heap_layout := {| sizeof_heap := 416; nodelist_off := 96 |}.

Lemma ram_startable : startable lay0 task_ctx (ram 4096 1024) 4096 1024.
Proof. split_and!; try done. apply ram_mapped. Qed.

(** An interrupt handler while the heap is locked. *)
Definition locked_ctx : ctx := {| up_interrupt_context := true; nxmutex_is_locked := true; gettid := 1 |}.

Definition session : list (ctx * call) :=
  [(task_ctx, Malloc 20); (task_ctx, Store 4528 0 7); (task_ctx, Realloc 4528 100); (task_ctx, Memalign 64 40);
   (locked_ctx, Free 4528); (task_ctx, Calloc 3 5); (task_ctx, Free 4672); (task_ctx, Free 4528)].

(** The results of the session and the bytes in use after it. *)
Definition session_run : option (list Z * Z) :=
  '(oh, _, m) ← mm_initialize_heap lay0 task_ctx (ram 4096 1024) None 4096 1024;
  h ← oh; '(rs, _, h) ← exec_all session m h; Some (rs, mm_curused h).

Lemma heap_refines_allocator_witness :
  session_run = Some ([4528; 0; 4528; 4672; 0; 4528; 0; 0], 432) /\
  serves lay0 task_ctx (ram 4096 1024) 4096 1024 session (fun _ m' _ A' => blocks_in lay0 4096 1024 m' A').
Proof. split; [vm_compute; reflexivity|apply heap_refines_allocator, ram_startable]. Defined.

Lemma heap_coalesces_witness :
  serves lay0 task_ctx (ram 4096 1024) 4096 1024 session (fun _ m' h' A' => A' = ∅ ->
    forall c' k, 0 <= mm_lock c' -> 0 <= k -> k + sizeof_heap lay0 + 56 <= 1024 ->
    exists r m'' h'', mm_malloc c' m' h' k = Some (r, m'', h'') /\ r <> 0).
Proof. apply heap_coalesces, ram_startable. Defined.

Lemma heap_walks_agree_witness :
  serves lay0 task_ctx (ram 4096 1024) 4096 1024 session (fun l1 m' h' _ => forall c', 0 <= mm_lock c' ->
    is_Some (mm_checkcorruption c' m' h') /\
    exists info m'' h'', mm_mallinfo lay0 c' m' h' = Some (info, m'', h'') /\
    s32 (uordblks info + fordblks info) = s32 (mm_heapsize h' + sizeof_heap lay0) /\
    (forallb (fun cq => no_realloc cq.2) l1 = true -> uordblks info = s32 (mm_curused h''))).
Proof. apply heap_walks_agree, ram_startable. Defined.

Lemma malloc_best_fit_witness : exists m h C, hinv m h C [] /\
  exists r m' h' C', mm_malloc task_ctx m h 20 = Some (r, m', h') /\ hinv m' h' C' [] /\
  ((r = 0 /\ m' = m /\ C' = C /\ forall b d, C !! b = Some d -> c_used d = false -> c_size d < 24) \/
   exists x t s, r = x + 8 /\ best_fit C 24 x t /\ C' !! x = Some (Chunk s true None) /\
     24 <= s < 24 + 16 /\ used C' = <[x := s]> (used C)).
Proof.
  destruct (start_holds lay0 task_ctx (ram 4096 1024) 4096 1024 ram_startable) as (m0 & h0 & _ & [Hin _] & _).
  exists m0, h0. eexists. split; [exact Hin|]. apply (malloc_best_fit task_ctx m0 h0 _ 20 24 Hin); done.
Defined.

(** A block of 24 bytes with a used one after it: the heap is as before, the
    counter is 8 less, and after both are released it stays 8 less. *)
Definition miscount : option (Z * Z * Z) :=
  '(oh, _, m) ← mm_initialize_heap lay0 task_ctx (ram 4096 1024) None 4096 1024;
  h ← oh;
  '(_, m1, h1) ← exec_all [(task_ctx, Malloc 20); (task_ctx, Malloc 20)] m h;
  '(_, _, h2) ← exec_all [(task_ctx, Realloc 4528 12); (task_ctx, Free 4528); (task_ctx, Free 4552)] m1 h1;
  Some (mm_curused h, mm_curused h1, mm_curused h2).

Theorem realloc_miscount_stays : miscount = Some (432, 480, 424).
Proof. vm_compute. reflexivity. Qed.

(** An alignment of zero passes the test for powers of two and is then a divisor. *)
Theorem memalign_zero :
  ('(oh, _, m) ← mm_initialize_heap lay0 task_ctx (ram 4096 1024) None 4096 1024;
   h ← oh; Some (mm_memalign task_ctx m h 0 20)) = Some None.
Proof. vm_compute. reflexivity. Qed.
